(* ===== verification/_CoqProject ===== *)
-Q . S2P
Prelude.v
Ordered.v
Telemetry.v
Config.v
Schema.v
Queue.v
SmallPayload.v
Wire.v
Packet.v
Serialize.v
Calendar.v
TimeSync.v
Discovery.v
RouterState.v
Routes.v
Reliable.v
Link.v
LinkRouter.v
TimeRuntime.v
TimeExchange.v
Plan.v
Topology.v
EndToEnd.v
Announce.v
World.v
Dispatch.v
Receive.v
Process.v
Invariant.v
Delivery.v
Duplicates.v
RelayState.v
RelayPlan.v
RelayPlanning.v
RelayTopology.v
RelayLink.v
RelayRun.v
RelayInvariant.v
RelayTraffic.v
RelayDrain.v
RelayForward.v
RelayCases.v
Text.v
CText.v
CJson.v
CPacket.v
CHandle.v
CRouter.v
CRelay.v
Locks.v
Build.v
Header.v
HeaderNumbers.v
Python.v
PySide.v
PyRelay.v
PyRouter.v
