(* ===== verification/Prelude.v ===== *)
(** * sedsprintf_rs: a verification development

    sedsprintf_rs is a telemetry library: nodes log typed messages, a [Router]
    delivers them to local endpoint handlers and forwards them over numbered
    sides (links to other boards), with optional hop-by-hop reliability, a
    discovery protocol, a distributed clock, and one memory budget for every
    queue.  This library models the Rust crate [sedsprintf_rs] and the schema
    macro [sedsprintf_macros] for a build with the features [std], [timesync],
    [discovery] and (as a parameter) [compression]; [&self] methods that take
    the router's lock are computations on the locked state.

    ** The files

    - [Prelude]: machine integers as [Z] with wrap-around and saturation
      written out, bytes, the result type [Res] (a value, an error, or a
      [Panic]), shared lemmas, tactics and the hint database [seds].
    - [Ordered]: [Ord], [sort_unstable] + [dedup], [BTreeMap] as a sorted list.
    - [Telemetry] (src/lib.rs): error codes, checked conversions, metadata.
    - [Config] (src/config.rs): the constants, resolved from the environment.
    - [Schema] (sedsprintf_macros/src/lib.rs): the macro run on parsed JSON,
      the generated tables, and the lookups of src/lib.rs.
    - [Queue] (src/queue.rs): [BoundedDeque].
    - [SmallPayload] (src/small_payload.rs and the generated stack payload).
    - [Wire], [Serialize] (src/serialize.rs): the v2 frame format; [Wire] holds
      the primitives, [Serialize] the packet serializer, its decoders, the
      peeks, and the in-place header rewrite.
    - [Packet] (src/packet.rs, and the [LeBytes] helpers of src/router.rs).
    - [Calendar], [TimeSync] (src/timesync.rs): civil dates, network time, the
      slewed clock, the source tracker and its leader election, the packets.
    - [Discovery] (src/discovery.rs): cadence, topology normal form and merge,
      the three payload codecs.
    - src/router.rs, by component: [RouterState] (the locked state [RouterInner],
      its queues and the shared budget), [Routes] (sides, rules, the policy and
      the selection modes), [Reliable] (per-link reliable delivery, both ends,
      and the hop section of [rx_item])
      [Plan] (which sides an item goes to), [EndToEnd] (return routes and
      end-to-end acknowledgements), [Topology] and [Announce] (the discovered
      routes: learning, pruning, advertising), [TimeRuntime] (the time-sync
      state: polling, the three packets, the setters), [World] (a router in its
      environment), [Dispatch] ([tx_item_impl] and local delivery), [Receive]
      ([rx_item] and relaying), [Process] (the public operations and queue
      loops).
    - src/relay.rs, the second user of the same protocol, a forwarder without
      endpoints of its own: [RelayState] (the locked state [RelayInner], its
      queues and budget), [RelayPlan] (sides, policy, acknowledged destinations,
      and the plan of an item), [RelayTopology] (learning and announcing),
      [RelayLink] (hop reliability, sending, replays, duplicates), [RelayRun] (a
      relay in its environment: receiving, forwarding, the queue loops, every
      public operation).  The theorems: [RelayPlanning], [RelayInvariant] and
      [RelayTraffic], [RelayDrain], [RelayForward]; [RelayCases] evaluates whole
      runs.
    - [Text] (src/packet.rs): the text of a packet, with the formatting of
      integers, floats and bytes.
    - src/c_api.rs: [CText] (status codes, text buffers, error texts, the JSON
      export of the topology), [CPacket] (packet views, payload copies, typed
      extraction, serialization), [CHandle] (handles, callbacks as an
      environment, and the side administration that routers and relays share,
      against the interface [SideAdmin]), [CRouter] and [CRelay] (every entry
      point).  [CJson] is a JSON reader and the proof that
      it reads the export.  A C pointer is [None] or the memory behind it;
      reading or writing past that memory, and a slice of NULL, is a [Panic].
    - src/python_api.rs: [Python] (exceptions, packets, the functions and the
      tables of the module, the topology as a dictionary), [PySide] (callbacks as
      an environment, and the side administration, against the interface
      [PyObject] of an object that owns a router or a relay), [PyRouter] (the
      router behind its mutex, the singleton, every method) and [PyRelay].
      [Pyo3] is what the bindings and the interpreter do to Python objects.
    - [Locks] (src/lock.rs, and the interrupt queue's flag of src/router.rs): the
      locks, access by access, under any interleaving of threads; each is an
      instance of the interface [Lock].
    - build.rs: [Build] (schema loading, normalisation, overlay, validation, the
      result codes, the rendered texts and the whole script over the interface
      [BuildHost] of variables and files), [Header] (a reader of C enums) and
      [HeaderNumbers] (the numbers the generated C header gives).
    - [Link], [LinkRouter]: the specification of an ordered link as a protocol
      over an unreliable network, and the proof that the router's receive path
      implements it.

    ** How states and operations correspond

    A struct is a [Record] with the source's field names, an enum an
    [Inductive]; a method of [&mut self] returns the new state.  Router
    operations are computations of the monad [RM] ([RouterState]): they return
    the new [RouterInner] and a [TelemetryResult], and keep the changes made
    before an error, as the code does.  Relay operations are computations [LM] on
    [RelayInner]; the fields and functions that src/relay.rs repeats from
    src/router.rs word for word are used through a view of the relay's state as a
    router state ([RelayState.common], [RelayState.via]), and whatever differs is
    written out.  A map that is only looked up is a
    [gmap]; a [BTreeMap] whose order of iteration can be observed is the sorted
    list of its entries.  Rust's panics (slice indexing, [assert!], capacity
    overflow, integer division) are [Panic]; the release profile's unchecked
    [+] on [usize] is written [wrap 64].

    Components talk through type classes: [ByteCost] (what the queue asks of its
    items), [Ord], [Config] (build constants), [Schema] (the tables of the macro,
    with [SchemaOk] the laws [Schema] proves of every generated one), [External]
    (CRC-32 and the zstd compressor, which are third-party code; [ExternalOk]
    states that decompression inverts compression), [Layout] and [RouterLayout]
    (sizes chosen by the compiler), [SideAdmin] (the administration both bindings
    offer on routers and relays), [PyObject] and [Pyo3], [Lock], [BuildHost].  The
    clock's readings and the results of
    user callbacks (side transmit functions, endpoint handlers) are arguments of
    the locked operations; [World] makes them an [Environment] that the router
    asks numbered questions, and records what can be seen from outside as
    [events].

    ** What the theorems show

    - Reliable links.  [Link.reliable_link_in_order]: over a network that loses,
      repeats, delays and reorders frames, an ordered link hands on a prefix of
      what was sent, in order, each once, and acknowledges only that;
      [LinkRouter.hop_section_refines]: the router's receive path, with its
      memory budget and its transmit queue, implements that protocol;
      [Reliable.retransmission_correct]: the timeout scan retransmits exactly the
      due frames and forgets exactly the exhausted ones;
      [Link.failed_transmission_stalls]: a sequence number whose first
      transmission failed is never repaired.
    - Memory.  [RouterState.shared_budget_invariant] and
      [RouterState.make_shared_queue_room_correct]: every queue operation keeps the
      shared budget and exact byte accounts, and making room terminates;
      [Queue]: functional behaviour of both insertions on every branch, order
      preservation, exact counters, constructor panics.
    - Wire.  Round trips of the serializer with compression, reliable header and
      checksum; safety of the decoders on arbitrary input; agreement of the peeks
      and of the wire packet id with the full decoder; the in-place rewrite is a
      fresh serialization; predicted sizes are exact.
    - Routing.  The policy admits exactly the sides the documented rules admit; the
      selection modes choose as documented; weighted selection gives each side its
      weight over a cycle; removing a side forgets everything about it and no more;
      rule updates.
      [Plan.remote_side_plan_correct]: the plan of every packet;
      [Plan.broadcast_skips_slots]: what planning a broadcast twice does to the
      weighted cycle.
    - The whole router ([Invariant], [Delivery], [Duplicates]).
      [Invariant.traffic_invariants]: what any sequence of public operations
      keeps, whatever the callbacks and the clock answer -- proved against the
      interface [RouterInvariant], which names the elementary changes that
      traffic makes, so that a new invariant needs only an instance;
      [Delivery.reception_delivers] and [Delivery.failing_handlers_isolated]:
      which handlers a packet reaches, also when some fail;
      [Duplicates.duplicate_filter_correct]: the filter is a window, and what is
      in it is neither delivered nor sent.
    - End-to-end delivery ([EndToEnd]): a packet is kept until every expected
      destination has acknowledged it, retransmitted when due, given up when
      exhausted; its destinations follow the discovered topology; both caches
      stay bounded.
    - Discovered routes ([Topology], [Announce]): what is learned, what expires,
      what is advertised; that two neighbours keep a departed board for ever, and
      that their announcements never settle.
    - Time exchange ([TimeExchange]): announcements are spaced, a complete
      exchange errs by at most half the round trip, a lost response ends the
      requests to that leader.
    - The relay.  [RelayPlanning.relay_plan_correct]: where every item goes, case
      by case; [RelayForward.relay_forwards]: forwarding queues it once for each
      of these sides; [RelayForward.relay_duplicates_suppressed]: the duplicate
      window; [RelayTraffic.relay_invariants]: what any sequence of public
      operations keeps; [RelayDrain.relay_rx_drains] and
      [RelayDrain.relay_tx_drains]: both queue loops end;
      [RelayState.relay_budget_invariant]: its queues within the budget.
    - Discovery.  Topology merge is a semilattice operation on normal forms and
      knows what either side knows; the codecs round-trip and are safe.
    - Time.  Leader election, tracker operations, the merged network clock, the
      slewed clock's monotonicity and rate, the soundness of the four-timestamp
      estimates, civil dates against the Gregorian calendar.
    - Data.  Packet construction on every branch, payload storage, the schema
      macro's output; [Text.packet_text_correct]: what the text of a packet shows.
    - The C boundary.  [CPacket.packet_views_correct]: packets cross it unchanged;
      [CPacket.c_serialize_roundtrip], [CPacket.payload_copies_correct] and
      [CText.text_buffer_contract]: what every buffer receives, and that nothing
      is written past it; [CJson.topology_export_readable]: the export is JSON
      and loses nothing; [CRouter.c_logging_agrees]: all logging calls log the
      same packet; [CRelay.relay_c_calls_refine]: a C program does to a relay only
      what its public operations do, so the relay's invariants hold.

    - The Python module.  [Python.python_packets_correct]: packets through Python;
      [PyRouter.python_logging_agrees]: every logging method logs the packet that C
      logs; [PyRelay.relay_bindings_agree]: a Python program and a C program that
      make the same calls do the same to a relay.  [PySide.side_call_agrees] is the
      part of it that holds of routers, too; [PyRouter.singleton_is_one_router]: the
      singleton of a process is one router.
    - Locks.  [Locks.critical_sections_serialize]: whatever the schedule of the
      threads, the sections a lock protects run one after another, which is why a
      locked section is one computation in every other file.
    - The build.  [HeaderNumbers.c_header_numbers]: the build script accepts what
      the macro accepts, and its C header numbers endpoints and types as the
      crate does, with one exception, the error type.

    ** Bounds and fuel

    - ULEB128 numbers take at most 10 rounds, the source's own limit.
    - [make_shared_queue_room] runs with fuel one more than the number of queued
      items: every round evicts one ([make_shared_queue_room_correct]).
    - The release loop of [rx_item] has the length of the reorder buffer as fuel:
      every round takes one frame out.
    - A loop that the source may run forever (the trim of the duplicate cache with
      a limit of zero, say) is a [Panic] in the model, and the theorems show where
      it cannot happen.
    - [tx_item_impl] calls itself when a callback fails; [depth] stands for the
      stack, and running out of it is a [Panic] ([Duplicates] shows a run that does
      so).  The loops that drain a queue take [fuel] rounds.
    - The relay's queue loops ([RelayRun.relay_loop]) take [fuel] rounds;
      [RelayDrain] proves how many are enough for the receive and for the transmit
      loop (the items queued, the replays, and the retries left to the frames not
      acknowledged); the loop that interleaves both receives what the callbacks
      feed it and has no such bound.
    - The queue's capacity growth is not modelled beyond the reserved capacity it
      requests; allocation does not fail.

    ** Not modelled

    - In src/python_api.rs: the interpreter's lock and its error indicator, a
      callback that calls its router back, and the text of an exception.
    - In src/c_api.rs: freeing a handle, and using it afterwards.
    - Benches, examples, tests: not part of the library.
    - In build.rs: the JSON parser and the regular expressions, which are
      third-party code and parameters of [Build].
    - In src/relay.rs: a callback that calls the relay back, and two threads
      inside the relay at once between its critical sections.
    - In src/router.rs: the [Debug] renderings; a callback
      that calls the router back (the model's callbacks only answer); two threads
      inside the router at once between its critical sections.
    - The text of the debug output. *)

From Stdlib Require Export ZArith Lia Bool Sorted Permutation.
From Stdlib Require Import Strings.Byte.
From stdpp Require Export base tactics decidable option list numbers sets list_numbers.

#[global] Open Scope Z_scope.

Declare Scope seds_scope.
Delimit Scope seds_scope with seds.
#[global] Open Scope seds_scope.

Create HintDb seds discriminated.
Create Rewrite HintDb seds_rw.

(** ** Machine integers

    A Rust integer of width [w] is a [Z]; operations write their wrap-around,
    saturation or truncation out.  The crate's release profile disables
    overflow checks, so a plain [+] on [usize]/[u64] is [wrap 64 (a + b)]. *)

Definition wrap (w : Z) (z : Z) : Z := z mod 2 ^ w.

Definition u8_max : Z := 2 ^ 8 - 1.
Definition u32_max : Z := 2 ^ 32 - 1.
Definition u64_max : Z := 2 ^ 64 - 1.
Definition usize_max : Z := 2 ^ 64 - 1.
Definition isize_max : Z := 2 ^ 63 - 1.
Definition i64_max : Z := 2 ^ 63 - 1.
Definition i128_max : Z := 2 ^ 127 - 1.
Definition i128_min : Z := - 2 ^ 127.

(** Two's complement reinterpretation at width [w] (an [as iN] cast). *)
Definition swrap (w : Z) (z : Z) : Z := (z + 2 ^ (w - 1)) mod 2 ^ w - 2 ^ (w - 1).

Definition clampZ (lo hi z : Z) : Z := Z.max lo (Z.min hi z).

Definition sat_sub (a b : Z) : Z := Z.max 0 (a - b).
Definition sat_add64 (a b : Z) : Z := Z.min u64_max (a + b).
Definition sat_mul64 (a b : Z) : Z := Z.min u64_max (a * b).
Definition sat_add_u8 (a b : Z) : Z := Z.min u8_max (a + b).
Definition sat_add_i128 (a b : Z) : Z := clampZ i128_min i128_max (a + b).
Definition sat_sub_i128 (a b : Z) : Z := clampZ i128_min i128_max (a - b).
Definition sat_mul_i128 (a b : Z) : Z := clampZ i128_min i128_max (a * b).

Definition is_u8 (z : Z) : Prop := 0 <= z < 2 ^ 8.
Definition is_u32 (z : Z) : Prop := 0 <= z < 2 ^ 32.
Definition is_u64 (z : Z) : Prop := 0 <= z < 2 ^ 64.

(** Unfold the width constants, for [lia]. *)
Ltac unfold_widths :=
  unfold sat_sub, sat_add64, sat_mul64, sat_add_u8, sat_add_i128, sat_sub_i128,
    sat_mul_i128, clampZ, is_u8, is_u32, is_u64 in *;
  unfold u8_max, u32_max, u64_max, usize_max, isize_max, i64_max, i128_max,
    i128_min in *.

Ltac zlia := unfold_widths; lia.

(** Case on the boolean [Z] comparisons of the goal. *)
Ltac zcase :=
  repeat match goal with
  | |- context [Z.ltb ?a ?b] => destruct (Z.ltb_spec a b); try lia
  | |- context [Z.leb ?a ?b] => destruct (Z.leb_spec a b); try lia
  | |- context [Z.eqb ?a ?b] => destruct (Z.eqb_spec a b); try lia
  end.

Lemma wrap_small w z : 0 <= z < 2 ^ w -> wrap w z = z.
Proof. apply Z.mod_small. Qed.

Lemma wrap_range w z : 0 <= w -> 0 <= wrap w z < 2 ^ w.
Proof. intros. apply Z.mod_pos_bound. lia. Qed.

Lemma wrap_wrap w z : wrap w (wrap w z) = wrap w z.
Proof. unfold wrap. apply Zmod_mod. Qed.

Lemma sat_sub_ge a b : b <= a -> sat_sub a b = a - b.
Proof. zlia. Qed.

#[export] Hint Resolve wrap_small wrap_range : seds.

(** ** Bytes *)

Abbreviation byte := Byte.byte.

Definition u8 (b : byte) : Z := Z.of_N (Byte.to_N b).

(** [z as u8]. *)
Definition b8 (z : Z) : byte :=
  match Byte.of_N (Z.to_N (z mod 256)) with
  | Some b => b
  | None => x00
  end.

Lemma u8_range b : 0 <= u8 b < 256.
Proof. unfold u8. pose proof (Byte.to_N_bounded b). lia. Qed.

Lemma u8_b8 z : u8 (b8 z) = z mod 256.
Proof.
  unfold u8, b8. pose proof (Z.mod_pos_bound z 256 ltac:(lia)) as Hr.
  destruct (Byte.of_N (Z.to_N (z mod 256))) as [b|] eqn:E.
  - apply Byte.to_of_N in E. rewrite E. lia.
  - apply Byte.of_N_None_iff in E. lia.
Qed.

Lemma b8_u8 b : b8 (u8 b) = b.
Proof.
  unfold b8. rewrite Z.mod_small by apply u8_range.
  unfold u8. rewrite N2Z.id, Byte.of_to_N. done.
Qed.

Lemma u8_inj a b : u8 a = u8 b -> a = b.
Proof. intros H. rewrite <- (b8_u8 a), <- (b8_u8 b), H. done. Qed.

#[export] Instance byte_eq_dec : EqDecision byte := Byte.byte_eq_dec.

#[export] Hint Resolve u8_range : seds.
#[export] Hint Rewrite u8_b8 b8_u8 : seds_rw.

(** ** Little-endian encodings: [to_le_bytes] / [from_le_bytes] *)

Fixpoint le_bytes (n : nat) (z : Z) : list byte :=
  match n with
  | O => []
  | S n => b8 z :: le_bytes n (z / 256)
  end.

Fixpoint le_value (l : list byte) : Z :=
  match l with
  | [] => 0
  | b :: l => u8 b + 256 * le_value l
  end.

Lemma length_le_bytes n z : length (le_bytes n z) = n.
Proof. revert z; induction n; intros; cbn; [done|]. by rewrite IHn. Qed.

Lemma le_value_bytes n z : le_value (le_bytes n z) = z mod 256 ^ Z.of_nat n.
Proof.
  revert z; induction n as [|n IH]; intros z; cbn [le_bytes le_value].
  - by rewrite Z.mod_1_r.
  - rewrite IH, u8_b8, Nat2Z.inj_succ, Z.pow_succ_r by lia.
    rewrite Z.rem_mul_r by lia. lia.
Qed.

Lemma le_value_range l : 0 <= le_value l < 256 ^ Z.of_nat (length l).
Proof.
  induction l as [|b l IH]; cbn [le_value length]; [lia|].
  rewrite Nat2Z.inj_succ, Z.pow_succ_r by lia. pose proof (u8_range b). lia.
Qed.

Lemma le_bytes_value l : le_bytes (length l) (le_value l) = l.
Proof.
  induction l as [|b l IH]; cbn [le_bytes le_value length]; [done|].
  pose proof (u8_range b) as Hb. f_equal.
  - apply u8_inj. rewrite u8_b8, Z.mul_comm, Z.mod_add by lia.
    by apply Z.mod_small.
  - rewrite Z.mul_comm, Z.div_add, Z.div_small by lia. done.
Qed.

Lemma le_value_bytes_u32 z : is_u32 z -> le_value (le_bytes 4 z) = z.
Proof. intros [??]. rewrite le_value_bytes. apply Z.mod_small. lia. Qed.

Lemma le_value_bytes_u64 z : is_u64 z -> le_value (le_bytes 8 z) = z.
Proof. intros [??]. rewrite le_value_bytes. apply Z.mod_small. lia. Qed.

#[export] Hint Rewrite length_le_bytes : seds_rw.

(** ** Outcomes

    A Rust call returns [Ok v], returns [Err e] or panics.  [Panic] carries
    no data: the panics of the modelled code are index and slice errors,
    failed [assert!]s and allocation requests above [isize::MAX]. *)

Section Outcome.
Context {E : Type}.

Inductive Res (A : Type) : Type :=
| Ok (a : A)
| Err (e : E)
| Panic.
#[global] Arguments Ok {A} a.
#[global] Arguments Err {A} e.
#[global] Arguments Panic {A}.

Definition res_bind {A B} (f : A -> Res B) (m : Res A) : Res B :=
  match m with
  | Ok a => f a
  | Err e => Err e
  | Panic => Panic
  end.

(** [opt.ok_or(e)]. *)
Definition ok_or {A} (e : E) (o : option A) : Res A :=
  match o with
  | Some a => Ok a
  | None => Err e
  end.

(** [opt.expect(..)], [opt.unwrap()]: panic on [None]. *)
Definition expect {A} (o : option A) : Res A :=
  match o with
  | Some a => Ok a
  | None => Panic
  end.

(** [l[i]]: panics out of range. *)
Definition elem_at {A} (l : list A) (i : Z) : Res A :=
  if decide (0 <= i) then expect (l !! Z.to_nat i) else Panic.

(** [&l[lo..hi]]: panics unless [lo <= hi <= len]. *)
Definition slice {A} (l : list A) (lo hi : Z) : Res (list A) :=
  if decide (0 <= lo <= hi /\ hi <= Z.of_nat (length l))
  then Ok (take (Z.to_nat (hi - lo)) (drop (Z.to_nat lo) l))
  else Panic.
End Outcome.

#[global] Arguments Res E A : clear implicits.

#[export] Instance res_mbind {E} : MBind (Res E) := fun A B f m => res_bind f m.
#[export] Instance res_mret {E} : MRet (Res E) := fun A a => Ok a.

(** [a] was returned, and not an error. *)
Definition is_ok {E A} (m : Res E A) : bool :=
  match m with Ok _ => true | _ => false end.

Definition no_panic {E A} (m : Res E A) : Prop := m <> Panic.

(** [iter().map(f).collect::<Result<Vec<_>,_>>()]. *)
Fixpoint mapM_res {E A B} (f : A -> Res E B) (l : list A) : Res E (list B) :=
  match l with
  | [] => Ok []
  | a :: l => b ← f a; bs ← mapM_res f l; Ok (b :: bs)
  end.

Lemma bind_ok {E A B} (m : Res E A) (f : A -> Res E B) b :
  (m ≫= f) = Ok b <-> exists a, m = Ok a /\ f a = Ok b.
Proof. destruct m; cbn; naive_solver. Qed.

Lemma mapM_res_ok {E A B} (f : A -> Res E B) (g : A -> B) l :
  (forall a, a ∈ l -> f a = Ok (g a)) -> mapM_res f l = Ok (map g l).
Proof.
  induction l as [|a l IH]; intros Hf; [done|]. cbn [mapM_res map].
  rewrite Hf by set_solver. cbn [res_bind mbind res_mbind].
  rewrite IH by (intros; apply Hf; set_solver). done.
Qed.

Lemma no_panic_bind {E A B} (m : Res E A) (f : A -> Res E B) :
  no_panic m -> (forall a, m = Ok a -> no_panic (f a)) -> no_panic (m ≫= f).
Proof. unfold no_panic. destruct m; cbn; eauto. Qed.

Lemma no_panic_ok {E A} (a : A) : no_panic (E:=E) (Ok a).
Proof. done. Qed.

Lemma no_panic_err {E A} (e : E) : no_panic (A:=A) (Err e).
Proof. done. Qed.

Lemma no_panic_ok_or {E A} (e : E) (o : option A) : no_panic (ok_or e o).
Proof. by destruct o. Qed.

#[export] Hint Resolve no_panic_ok no_panic_err no_panic_ok_or : seds.

Lemma elem_at_ok {E A} (l : list A) i :
  0 <= i < Z.of_nat (length l) ->
  exists a, elem_at (E:=E) l i = Ok a /\ l !! Z.to_nat i = Some a.
Proof.
  intros Hi. unfold elem_at. rewrite decide_True by lia.
  destruct (lookup_lt_is_Some_2 l (Z.to_nat i) ltac:(lia)) as [a Ha].
  exists a. by rewrite Ha.
Qed.

Lemma slice_ok {E A} (l : list A) lo hi :
  0 <= lo <= hi -> hi <= Z.of_nat (length l) ->
  slice (E:=E) l lo hi = Ok (take (Z.to_nat (hi - lo)) (drop (Z.to_nat lo) l)).
Proof. intros. unfold slice. by rewrite decide_True. Qed.

(** Break a monadic computation at its head. *)
Ltac res_step :=
  match goal with
  | H : (_ ≫= _) = Ok _ |- _ => apply bind_ok in H as (? & ? & H)
  end.

(** ** Lists *)

Lemma Forall2_elem_of_r {A B} (P : A -> B -> Prop) l k b :
  b ∈ k -> Forall2 P l k -> exists a, a ∈ l /\ P a b.
Proof.
  intros Hb HF. revert b Hb. induction HF as [|x y l k Hxy HF IH]; intros b Hb.
  - by apply elem_of_nil in Hb.
  - apply elem_of_cons in Hb as [->|Hb]; [exists x; set_solver|].
    destruct (IH b Hb) as (a & Ha & Hp). exists a. set_solver.
Qed.
