(* ===== verification/Ordered.v ===== *)
(** * Total orders, sorting and ordered maps

    What the crate takes from the standard library wherever the order of
    iteration matters: [Ord], [sort_unstable] + [dedup], and [BTreeMap] as the
    list of its entries in ascending key order.  The router, the discovery
    codec and the time-sync tracker all iterate such maps. *)

From S2P Require Import Prelude.

(** ** [Ord] *)

Class Ord (A : Type) := {
  cmp : A -> A -> comparison;
  cmp_eq : forall x y, cmp x y = Eq <-> x = y;
  cmp_opp : forall x y, cmp y x = CompOpp (cmp x y);
  cmp_trans : forall x y z, cmp x y = Lt -> cmp y z = Lt -> cmp x z = Lt
}.

Definition ltb {A} `{Ord A} (x y : A) : bool :=
  match cmp x y with Lt => true | _ => false end.

Definition lt {A} `{Ord A} (x y : A) : Prop := cmp x y = Lt.

Section Facts.
Context {A : Type} `{Ord A}.
Implicit Types x y z : A.

Lemma cmp_refl x : cmp x x = Eq.
Proof. by apply cmp_eq. Qed.

Lemma lt_irrefl x : ~ lt x x.
Proof. unfold lt. rewrite cmp_refl. done. Qed.

Lemma lt_trans x y z : lt x y -> lt y z -> lt x z.
Proof. apply cmp_trans. Qed.

Lemma lt_ne x y : lt x y -> x <> y.
Proof. intros Hlt ->. by apply lt_irrefl in Hlt. Qed.

Lemma cmp_gt x y : cmp x y = Gt <-> lt y x.
Proof. unfold lt. rewrite (cmp_opp x y). by destruct (cmp x y). Qed.

Lemma lt_asym x y : lt x y -> ~ lt y x.
Proof. unfold lt. rewrite (cmp_opp x y). destruct (cmp x y); done. Qed.

Lemma ltb_lt x y : ltb x y = true <-> lt x y.
Proof. unfold ltb, lt. by destruct (cmp x y). Qed.

Lemma cmp_spec x y : CompareSpec (x = y) (lt x y) (lt y x) (cmp x y).
Proof.
  destruct (cmp x y) eqn:E; constructor.
  - by apply cmp_eq. - done. - by apply cmp_gt.
Qed.

Lemma lt_total x y : lt x y \/ x = y \/ lt y x.
Proof. destruct (cmp_spec x y); auto. Qed.

(** Not [#[export]]: it would be tried on every type. *)
Definition ord_eq_dec : EqDecision A.
Proof.
  intros x y. destruct (cmp x y) eqn:E.
  - left. by apply cmp_eq.
  - right. intros ->. rewrite cmp_refl in E. done.
  - right. intros ->. rewrite cmp_refl in E. done.
Defined.
End Facts.

#[export] Program Instance Z_ord : Ord Z := {| cmp := Z.compare |}.
Next Obligation. apply Z.compare_eq_iff. Qed.
Next Obligation. intros. apply Z.compare_antisym. Qed.
Next Obligation. intros x y z. rewrite !Z.compare_lt_iff. lia. Qed.

Lemma lt_Z (x y : Z) : lt x y <-> x < y.
Proof. unfold lt. cbn. apply Z.compare_lt_iff. Qed.

#[export] Program Instance byte_ord : Ord byte :=
  {| cmp := fun a b => Z.compare (u8 a) (u8 b) |}.
Next Obligation.
  intros x y. rewrite Z.compare_eq_iff. split; [apply u8_inj|by intros ->].
Qed.
Next Obligation. intros. apply Z.compare_antisym. Qed.
Next Obligation. intros x y z. rewrite !Z.compare_lt_iff. lia. Qed.

(** Lexicographic products: the derived [Ord] of tuples. *)
Definition prod_cmp {A B} `{Ord A, Ord B} (p q : A * B) : comparison :=
  match cmp (fst p) (fst q) with Eq => cmp (snd p) (snd q) | c => c end.

#[export] Program Instance prod_ord {A B} `{Ord A, Ord B} : Ord (A * B) :=
  {| cmp := prod_cmp |}.
Next Obligation.
  intros A B HA HB [a b] [a' b']; unfold prod_cmp; cbn.
  destruct (cmp_spec a a') as [->|Hl|Hl].
  - rewrite cmp_eq. naive_solver.
  - split; [done|]. intros [= -> ->]. by apply lt_irrefl in Hl.
  - split; [done|]. intros [= -> ->]. by apply lt_irrefl in Hl.
Qed.
Next Obligation.
  intros A B HA HB [a b] [a' b']; unfold prod_cmp; cbn.
  rewrite (cmp_opp a a'). destruct (cmp a a'); cbn; auto using cmp_opp.
Qed.
Next Obligation.
  intros A B HA HB [a b] [a' b'] [a'' b'']; unfold prod_cmp; cbn.
  destruct (cmp_spec a a') as [->|Hl|Hl]; [| |done];
    destruct (cmp_spec a' a'') as [<-|Hl'|Hl']; rewrite ?cmp_refl; try done.
  - apply cmp_trans.
  - by rewrite Hl.
  - by rewrite (lt_trans _ _ _ Hl Hl').
Qed.

(** [None] is below every [Some]. *)
#[export] Program Instance option_ord {A} `{Ord A} : Ord (option A) :=
  {| cmp := fun p q =>
      match p, q with
      | None, None => Eq
      | None, Some _ => Lt
      | Some _, None => Gt
      | Some a, Some b => cmp a b
      end |}.
Next Obligation. intros A HA [a|] [b|]; rewrite ?cmp_eq; naive_solver. Qed.
Next Obligation. intros A HA [a|] [b|]; try done. apply cmp_opp. Qed.
Next Obligation. intros A HA [a|] [b|] [c|]; try done. apply cmp_trans. Qed.

(** Slices and strings compare lexicographically. *)
Fixpoint list_cmp {A} `{Ord A} (l k : list A) : comparison :=
  match l, k with
  | [], [] => Eq
  | [], _ :: _ => Lt
  | _ :: _, [] => Gt
  | a :: l, b :: k => match cmp a b with Eq => list_cmp l k | c => c end
  end.

#[export] Program Instance list_ord {A} `{Ord A} : Ord (list A) :=
  {| cmp := list_cmp |}.
Next Obligation.
  intros A HA l. induction l as [|a l IH]; intros [|b k]; cbn; try done.
  destruct (cmp_spec a b) as [->|Hl|Hl].
  - rewrite IH. naive_solver.
  - split; [done|]. intros [= -> _]. by apply lt_irrefl in Hl.
  - split; [done|]. intros [= -> _]. by apply lt_irrefl in Hl.
Qed.
Next Obligation.
  intros A HA l. induction l as [|a l IH]; intros [|b k]; cbn; try done.
  rewrite (cmp_opp a b). destruct (cmp a b); cbn; auto.
Qed.
Next Obligation.
  intros A HA l. induction l as [|a l IH]; intros [|b k] [|c m]; cbn; try done.
  destruct (cmp_spec a b) as [->|Hl|Hl]; [| |done];
    destruct (cmp_spec b c) as [<-|Hl'|Hl']; rewrite ?cmp_refl; try done.
  - apply IH.
  - by rewrite Hl.
  - by rewrite (lt_trans _ _ _ Hl Hl').
Qed.

(** ** [sort_by_key] (stable) and [dedup_by_key] *)

Section Sorting.
Context {A K : Type} `{Ord K} (key : A -> K).

Fixpoint sort_insert (x : A) (l : list A) : list A :=
  match l with
  | [] => [x]
  | y :: l' => if ltb (key y) (key x) then y :: sort_insert x l' else x :: l
  end.

Fixpoint sort_by_key (l : list A) : list A :=
  match l with
  | [] => []
  | x :: l => sort_insert x (sort_by_key l)
  end.

(** [dedup_by_key]: drop every element whose key equals its predecessor's. *)
Fixpoint dedup_by_key (l : list A) : list A :=
  match l with
  | [] => []
  | x :: l' =>
      match l' with
      | [] => [x]
      | y :: l'' =>
          match cmp (key x) (key y) with
          | Eq => match dedup_by_key l' with [] => [x] | _ :: t => x :: t end
          | _ => x :: dedup_by_key l'
          end
      end
  end.

Definition key_le (x y : A) : Prop := ~ lt (key y) (key x).
Definition key_lt (x y : A) : Prop := lt (key x) (key y).

Lemma sort_insert_perm x l : sort_insert x l ≡ₚ x :: l.
Proof.
  induction l as [|y l IH]; cbn; [done|].
  destruct (ltb (key y) (key x)); [|done].
  rewrite IH. apply Permutation_swap.
Qed.

Lemma sort_perm l : sort_by_key l ≡ₚ l.
Proof. induction l as [|x l IH]; cbn; [done|]. by rewrite sort_insert_perm, IH. Qed.

Lemma length_sort l : length (sort_by_key l) = length l.
Proof. by rewrite sort_perm. Qed.

Lemma elem_of_sort x l : x ∈ sort_by_key l <-> x ∈ l.
Proof. by rewrite sort_perm. Qed.

Lemma key_le_trans x y z : key_le x y -> key_le y z -> key_le x z.
Proof.
  unfold key_le. intros Hxy Hyz Hzx.
  destruct (lt_total (key x) (key y)) as [Hl|[He|Hl]]; [|congruence|done].
  apply Hyz. eapply lt_trans; eauto.
Qed.

Lemma key_lt_le x y : key_lt x y -> key_le x y.
Proof. intros Hl Hl'. by apply (lt_asym _ _ Hl). Qed.

Lemma sort_insert_sorted x l :
  StronglySorted key_le l -> StronglySorted key_le (sort_insert x l).
Proof.
  induction 1 as [|y l Hs IH Hy]; cbn; [repeat constructor|].
  destruct (ltb (key y) (key x)) eqn:E.
  - apply ltb_lt in E. constructor; [done|].
    rewrite sort_insert_perm. constructor; [by apply key_lt_le|done].
  - assert (key_le x y) as Hxy by (intros Hl; apply ltb_lt in Hl; congruence).
    repeat constructor; [done|done|done|].
    eapply Forall_impl; [exact Hy|]. intros z. by apply key_le_trans.
Qed.

Lemma sort_sorted l : StronglySorted key_le (sort_by_key l).
Proof. induction l; cbn; [constructor|]. by apply sort_insert_sorted. Qed.

Lemma sort_id l : StronglySorted key_lt l -> sort_by_key l = l.
Proof.
  induction 1 as [|x l Hs IH Hx]; cbn; [done|]. rewrite IH.
  destruct l as [|y l]; cbn; [done|]. inv Hx as [|?? Hxy].
  destruct (ltb (key y) (key x)) eqn:E; [|done].
  apply ltb_lt in E. by apply lt_asym in E.
Qed.

Lemma dedup_id l : StronglySorted key_lt l -> dedup_by_key l = l.
Proof.
  induction 1 as [|x l Hs IH Hx]; cbn; [done|].
  destruct l as [|y l]; [done|]. inv Hx as [|?? Hxy].
  unfold key_lt, lt in Hxy. by rewrite Hxy, IH.
Qed.

Lemma dedup_cons2 x y l :
  dedup_by_key (x :: y :: l) =
  match cmp (key x) (key y) with
  | Eq => match dedup_by_key (y :: l) with [] => [x] | _ :: t => x :: t end
  | _ => x :: dedup_by_key (y :: l)
  end.
Proof. done. Qed.

Lemma dedup_cons_head x l : exists t, dedup_by_key (x :: l) = x :: t.
Proof.
  destruct l as [|y l]; cbn; [by eexists|].
  destruct (cmp (key x) (key y)); [|by eexists..].
  destruct (match l with [] => [y] | _ :: _ => _ end); by eexists.
Qed.

Lemma dedup_sub_length l : (length (dedup_by_key l) <= length l)%nat.
Proof.
  induction l as [|x l IH]; [done|]. destruct l as [|y l]; [done|].
  destruct (dedup_cons_head y l) as [t Ht].
  rewrite dedup_cons2. rewrite Ht in *. destruct (cmp _ _); cbn in *; lia.
Qed.

Lemma dedup_subset x l : x ∈ dedup_by_key l -> x ∈ l.
Proof.
  induction l as [|y l IH]; [done|].
  destruct l as [|z l]; [done|].
  destruct (dedup_cons_head z l) as [t Ht].
  rewrite dedup_cons2. rewrite Ht in *. destruct (cmp _ _); set_solver.
Qed.

Lemma dedup_sorted l :
  StronglySorted key_le l -> StronglySorted key_lt (dedup_by_key l).
Proof.
  induction 1 as [|x l Hs IH Hx]; [constructor|].
  destruct l as [|y l]; [repeat constructor|].
  destruct (dedup_cons_head y l) as [t Ht].
  rewrite dedup_cons2. rewrite Ht in *. inv IH as [|?? Hst Hyt].
  destruct (cmp_spec (key x) (key y)) as [He|Hl|Hl].
  - constructor; [done|]. eapply Forall_impl; [exact Hyt|].
    intros z. unfold key_lt. by rewrite He.
  - constructor; [by constructor|]. constructor; [done|].
    eapply Forall_impl; [exact Hyt|]. intros z. by apply lt_trans.
  - exfalso. inv Hx as [|?? Hxy]. by apply Hxy.
Qed.

(** Every key survives deduplication. *)
Lemma dedup_key x l : x ∈ l -> exists y, y ∈ dedup_by_key l /\ key y = key x.
Proof.
  induction l as [|z l IH]; [by intros ?%elem_of_nil|].
  destruct l as [|w l]; [intros ->%list_elem_of_singleton; exists z; set_solver|].
  destruct (dedup_cons_head w l) as [t Ht].
  rewrite dedup_cons2. rewrite Ht in *. intros [->|Hin]%elem_of_cons.
  - exists z. destruct (cmp _ _); set_solver.
  - destruct (IH Hin) as (y & Hy & Hk). apply elem_of_cons in Hy as [->|Hy].
    + destruct (cmp_spec (key z) (key w)) as [He|Hl|Hl].
      * exists z. split; [set_solver|congruence].
      * exists w. set_solver.
      * exists w. set_solver.
    + exists y. destruct (cmp _ _); set_solver.
Qed.

Lemma key_sorted_ext l k :
  StronglySorted key_lt l -> StronglySorted key_lt k -> (forall x, x ∈ l <-> x ∈ k) -> l = k.
Proof.
  intros Hl. revert k. induction Hl as [|x l Hs IH Hx]; intros k Hk Hext.
  - destruct k as [|y k]; [done|]. exfalso. apply (not_elem_of_nil y), Hext. set_solver.
  - destruct Hk as [|y k Hk Hy].
    { exfalso. apply (not_elem_of_nil x), Hext. set_solver. }
    rewrite Forall_forall in Hx, Hy. unfold key_lt in *.
    assert (x = y) as ->.
    { assert (x ∈ y :: k) as [->|Hin]%elem_of_cons by (apply Hext; set_solver); [done|].
      assert (y ∈ x :: l) as [->|Hin']%elem_of_cons by (apply Hext; set_solver); [done|].
      exfalso. apply (lt_asym (key x) (key y)); auto. }
    f_equal. apply IH; [done|]. intros z. split; intros Hz.
    + assert (z ∈ y :: k) as [->|?]%elem_of_cons by (apply Hext; set_solver); [|done].
      exfalso. apply (lt_irrefl (key y)). auto.
    + assert (z ∈ y :: l) as [->|?]%elem_of_cons by (apply Hext; set_solver); [|done].
      exfalso. apply (lt_irrefl (key y)). auto.
Qed.
End Sorting.

(** Sorting and deduplicating a list of ordered values. *)
Section SortDedup.
Context {A : Type} `{Ord A}.

Definition sort_dedup (l : list A) : list A :=
  dedup_by_key id (sort_by_key id l).

Definition strictly_sorted (l : list A) : Prop := StronglySorted lt l.

Lemma sort_dedup_sorted l : strictly_sorted (sort_dedup l).
Proof. apply (dedup_sorted id), sort_sorted. Qed.

Lemma elem_of_sort_dedup x l : x ∈ sort_dedup l <-> x ∈ l.
Proof.
  unfold sort_dedup. rewrite <- (elem_of_sort id x l).
  split; [apply dedup_subset|].
  intros (y & Hy & Hk)%(dedup_key id). cbn in Hk. by subst.
Qed.

Lemma strictly_sorted_ext l k :
  strictly_sorted l -> strictly_sorted k -> (forall x, x ∈ l <-> x ∈ k) -> l = k.
Proof. apply (key_sorted_ext id). Qed.

Lemma sort_dedup_id l : strictly_sorted l -> sort_dedup l = l.
Proof.
  intros Hs. unfold sort_dedup. rewrite (sort_id id) by done. by apply dedup_id.
Qed.

Lemma sort_dedup_idem l : sort_dedup (sort_dedup l) = sort_dedup l.
Proof. apply sort_dedup_id, sort_dedup_sorted. Qed.

Lemma sort_dedup_ext l k : (forall x, x ∈ l <-> x ∈ k) -> sort_dedup l = sort_dedup k.
Proof.
  intros Hx. apply strictly_sorted_ext; try apply sort_dedup_sorted.
  intros x. by rewrite !elem_of_sort_dedup.
Qed.

Lemma sort_dedup_sub_length l : (length (sort_dedup l) <= length l)%nat.
Proof. unfold sort_dedup. etransitivity; [apply dedup_sub_length|]. by rewrite length_sort. Qed.
End SortDedup.

(** ** [BTreeMap<K, V>]: the entries in ascending key order *)

Section BTreeMap.
Context {K V : Type} `{Ord K}.
Implicit Types (m : list (K * V)) (k j : K) (v w : V).

Definition bt_sorted m : Prop := StronglySorted (key_lt fst) m.

Fixpoint bt_get k m : option V :=
  match m with
  | [] => None
  | (j, v) :: m => match cmp k j with Eq => Some v | _ => bt_get k m end
  end.

Fixpoint bt_insert k v m : list (K * V) :=
  match m with
  | [] => [(k, v)]
  | (j, w) :: m' =>
      match cmp k j with
      | Lt => (k, v) :: m
      | Eq => (k, v) :: m'
      | Gt => (j, w) :: bt_insert k v m'
      end
  end.

Fixpoint bt_remove k m : list (K * V) :=
  match m with
  | [] => []
  | (j, w) :: m => match cmp k j with Eq => m | _ => (j, w) :: bt_remove k m end
  end.

Definition bt_contains k m : bool :=
  match bt_get k m with Some _ => true | None => false end.

(** [retain]: keep the entries the predicate accepts. *)
Definition bt_retain (keep : K -> V -> bool) m : list (K * V) :=
  List.filter (fun e => keep (fst e) (snd e)) m.

(** [get_mut] followed by a write. *)
Fixpoint bt_update k (f : V -> V) m : list (K * V) :=
  match m with
  | [] => []
  | (j, w) :: m =>
      match cmp k j with Eq => (j, f w) :: m | _ => (j, w) :: bt_update k f m end
  end.

Definition bt_keys m : list K := map fst m.
Definition bt_values m : list V := map snd m.

Lemma bt_get_above k m : Forall (fun e => lt k (fst e)) m -> bt_get k m = None.
Proof.
  induction 1 as [|[j w] m Hlt Hm IH]; cbn; [done|].
  cbn in Hlt. unfold lt in Hlt. by rewrite Hlt.
Qed.

Lemma bt_get_elem k v m : bt_sorted m -> bt_get k m = Some v <-> (k, v) ∈ m.
Proof.
  induction 1 as [|[j w] m Hs IH Hm]; cbn [bt_get]; [set_solver|].
  rewrite elem_of_cons. destruct (cmp_spec k j) as [->|Hl|Hl].
  - split; [intros [= ->]; auto|]. intros [[= ->]|Hin]; [done|].
    rewrite Forall_forall in Hm. apply Hm in Hin. by apply lt_irrefl in Hin.
  - rewrite IH. split; [auto|]. intros [[= -> ->]|?]; [|done]. by apply lt_irrefl in Hl.
  - rewrite IH. split; [auto|]. intros [[= -> ->]|?]; [|done]. by apply lt_irrefl in Hl.
Qed.

Lemma bt_insert_elem e k v m : e ∈ bt_insert k v m -> e = (k, v) \/ e ∈ m.
Proof.
  induction m as [|[j w] m IH]; cbn; [set_solver|].
  destruct (cmp k j); set_solver.
Qed.

Lemma bt_insert_sorted k v m : bt_sorted m -> bt_sorted (bt_insert k v m).
Proof.
  unfold bt_sorted. induction 1 as [|[j w] m Hs IH Hm]; cbn; [repeat constructor|].
  destruct (cmp_spec k j) as [->|Hl|Hl].
  - by constructor.
  - constructor; [by constructor|]. constructor; [done|].
    eapply Forall_impl; [exact Hm|]. intros e. by apply lt_trans.
  - constructor; [done|]. rewrite Forall_forall in *.
    intros e [->|?]%bt_insert_elem; auto.
Qed.

Lemma bt_get_insert k v j m :
  bt_get j (bt_insert k v m) = if decide (cmp j k = Eq) then Some v else bt_get j m.
Proof.
  induction m as [|[i w] m IH]; cbn.
  - destruct (cmp j k); by case_decide.
  - destruct (cmp_spec k i) as [->|Hl|Hl]; cbn.
    + destruct (cmp j i); by case_decide.
    + destruct (cmp j k); by case_decide.
    + rewrite IH. destruct (cmp_spec j i) as [->|?|?]; case_decide as Hd; try done.
      apply cmp_eq in Hd as ->. by apply lt_irrefl in Hl.
Qed.

Lemma bt_get_insert_eq k v m : bt_get k (bt_insert k v m) = Some v.
Proof. rewrite bt_get_insert, decide_True; [done|apply cmp_refl]. Qed.

Lemma bt_get_insert_ne k v j m : j <> k -> bt_get j (bt_insert k v m) = bt_get j m.
Proof. intros Hne. rewrite bt_get_insert, decide_False; [done|]. by rewrite cmp_eq. Qed.

Lemma bt_remove_elem e k m : e ∈ bt_remove k m -> e ∈ m.
Proof.
  induction m as [|[j w] m IH]; cbn; [done|]. destruct (cmp k j); set_solver.
Qed.

Lemma bt_remove_sorted k m : bt_sorted m -> bt_sorted (bt_remove k m).
Proof.
  unfold bt_sorted. induction 1 as [|[j w] m Hs IH Hm]; cbn; [constructor|].
  destruct (cmp k j); [done| |]; constructor; auto; rewrite Forall_forall in *;
    intros e He%bt_remove_elem; auto.
Qed.

Lemma bt_get_remove_eq k m : bt_sorted m -> bt_get k (bt_remove k m) = None.
Proof.
  induction 1 as [|[j w] m Hs IH Hm]; cbn; [done|].
  destruct (cmp_spec k j) as [->|Hl|Hl]; cbn.
  - by apply bt_get_above.
  - unfold lt in Hl. by rewrite Hl.
  - apply cmp_gt in Hl. by rewrite Hl.
Qed.

Lemma bt_get_remove_ne k j m : j <> k -> bt_get j (bt_remove k m) = bt_get j m.
Proof.
  intros Hne. induction m as [|[i w] m IH]; cbn; [done|].
  destruct (cmp_spec k i) as [->|Hl|Hl]; cbn; rewrite ?IH; [|done..].
  destruct (cmp_spec j i) as [->|?|?]; done.
Qed.

Lemma bt_filter_sorted (keep : K * V -> bool) m :
  bt_sorted m -> bt_sorted (List.filter keep m).
Proof.
  unfold bt_sorted. induction 1 as [|e m Hs IH Hm]; cbn; [constructor|].
  destruct (keep e); [|done]. constructor; [done|].
  rewrite Forall_forall in *. intros e' He. apply Hm.
  apply list_elem_of_In in He. apply List.filter_In in He as [? _].
  by apply list_elem_of_In.
Qed.

Lemma bt_retain_sorted keep m : bt_sorted m -> bt_sorted (bt_retain keep m).
Proof. apply bt_filter_sorted. Qed.

Lemma elem_of_bt_retain keep e m :
  e ∈ bt_retain keep m <-> keep (fst e) (snd e) = true /\ e ∈ m.
Proof.
  unfold bt_retain. rewrite !list_elem_of_In, List.filter_In. tauto.
Qed.

Lemma bt_get_retain keep k m :
  bt_sorted m ->
  bt_get k (bt_retain keep m) =
  match bt_get k m with
  | Some v => if keep k v then Some v else None
  | None => None
  end.
Proof.
  intros Hs. pose proof (bt_retain_sorted keep m Hs) as Hs'.
  destruct (bt_get k (bt_retain keep m)) as [v|] eqn:E.
  - apply bt_get_elem in E; [|done]. apply elem_of_bt_retain in E as [Hk Hin].
    apply bt_get_elem in Hin; [|done]. rewrite Hin. cbn in Hk. by rewrite Hk.
  - destruct (bt_get k m) as [v|] eqn:E'; [|done].
    destruct (keep k v) eqn:Hk; [|done].
    apply bt_get_elem in E'; [|done].
    assert ((k, v) ∈ bt_retain keep m) as Hin by (by apply elem_of_bt_retain).
    apply bt_get_elem in Hin; [|done]. congruence.
Qed.

Lemma bt_update_keys k f m : bt_keys (bt_update k f m) = bt_keys m.
Proof.
  unfold bt_keys. induction m as [|[j w] m IH]; cbn; [done|].
  destruct (cmp k j); cbn; by rewrite ?IH.
Qed.

Lemma bt_get_update k f j m :
  bt_get j (bt_update k f m) =
  if decide (cmp j k = Eq) then f <$> bt_get j m else bt_get j m.
Proof.
  induction m as [|[i w] m IH]; cbn; [by case_decide|].
  destruct (cmp_spec k i) as [->|Hl|Hl]; cbn.
  - destruct (cmp j i) eqn:E; cbn; by case_decide.
  - rewrite IH. destruct (cmp_spec j i) as [->|?|?]; case_decide as Hd; try done.
    apply cmp_eq in Hd as ->. by apply lt_irrefl in Hl.
  - rewrite IH. destruct (cmp_spec j i) as [->|?|?]; case_decide as Hd; try done.
    apply cmp_eq in Hd as ->. by apply lt_irrefl in Hl.
Qed.

Lemma bt_sorted_keys m m' : bt_keys m = bt_keys m' -> bt_sorted m -> bt_sorted m'.
Proof.
  unfold bt_sorted, bt_keys. intros Hk Hs. revert m' Hk.
  induction Hs as [|e m Hs IH Hm]; intros [|e' m'] Hk; try done; [constructor|].
  injection Hk as He Hk. constructor; auto.
  rewrite Forall_forall in *. intros d Hd.
  assert (fst d ∈ map fst m) as Hd'.
  { rewrite Hk. apply (list_elem_of_fmap_2 fst), Hd. }
  apply (list_elem_of_fmap_1 fst) in Hd' as (c & Hc & Hin).
  unfold key_lt. rewrite <- He, Hc. by apply Hm.
Qed.

Lemma bt_update_sorted k f m : bt_sorted m -> bt_sorted (bt_update k f m).
Proof. apply bt_sorted_keys. by rewrite bt_update_keys. Qed.

Lemma bt_keys_nodup m : bt_sorted m -> NoDup (bt_keys m).
Proof.
  intros Hs. induction Hs as [|e m Hs IH Hm]; [constructor|]. apply NoDup_cons. split; [|done].
  intros (e' & Heq & Hin)%list_elem_of_fmap. rewrite Forall_forall in Hm. specialize (Hm _ Hin).
  unfold key_lt in Hm. rewrite Heq in Hm. by apply lt_irrefl in Hm.
Qed.
End BTreeMap.

#[export] Hint Resolve bt_insert_sorted bt_remove_sorted bt_retain_sorted
  bt_update_sorted sort_dedup_sorted : seds.
