(* ===== verification/Telemetry.v ===== *)
(** * Crate root ([src/lib.rs]): error values, enum conversions, metadata

    The error type and its numeric codes, the checked integer-to-enum
    conversions of the FFI boundary, the compile-time number parsers used for
    the environment overrides, and the per-type metadata every other component
    consults. *)

From Stdlib Require Export Strings.String.
From Stdlib Require Export Floats.SpecFloat.
From stdpp Require Export strings.
From S2P Require Import Prelude.

#[global] Open Scope Z_scope.

(** A Rust [&str]/[String] is its UTF-8 bytes; string literals are ASCII. *)
Abbreviation Str := (list byte).
Definition lit (s : string) : Str := list_byte_of_string s.

(** ** Errors *)

Inductive TelemetryError :=
| GenericError (msg : option Str)
| InvalidType
| SizeMismatch (expected got : Z)
| SizeMismatchError
| EmptyEndpoints
| TimestampInvalid
| MissingPayload
| HandlerError (msg : string)
| BadArg
| Serialize (msg : string)
| Deserialize (msg : string)
| Io (msg : string)
| InvalidUtf8
| TypeMismatch (expected got : Z)
| InvalidLinkId (msg : string)
| PacketTooLarge (msg : string).

Abbreviation TelemetryResult A := (Res TelemetryError A).

Inductive TelemetryErrorCode :=
| CGenericError | CInvalidType | CSizeMismatch | CSizeMismatchError
| CEmptyEndpoints | CTimestampInvalid | CMissingPayload | CHandlerError
| CBadArg | CSerialize | CDeserialize | CIo | CInvalidUtf8 | CTypeMismatch
| CInvalidLinkId | CPacketTooLarge.

#[export] Instance TelemetryErrorCode_eq_dec : EqDecision TelemetryErrorCode.
Proof. solve_decision. Defined.

Definition to_error_code (e : TelemetryError) : TelemetryErrorCode :=
  match e with
  | GenericError _ => CGenericError
  | InvalidType => CInvalidType
  | SizeMismatch _ _ => CSizeMismatch
  | SizeMismatchError => CSizeMismatchError
  | EmptyEndpoints => CEmptyEndpoints
  | TimestampInvalid => CTimestampInvalid
  | MissingPayload => CMissingPayload
  | HandlerError _ => CHandlerError
  | BadArg => CBadArg
  | Serialize _ => CSerialize
  | Deserialize _ => CDeserialize
  | Io _ => CIo
  | InvalidUtf8 => CInvalidUtf8
  | TypeMismatch _ _ => CTypeMismatch
  | InvalidLinkId _ => CInvalidLinkId
  | PacketTooLarge _ => CPacketTooLarge
  end.

(** [TelemetryErrorCode as i32]. *)
Definition error_code_repr (c : TelemetryErrorCode) : Z :=
  match c with
  | CGenericError => -2 | CInvalidType => -3 | CSizeMismatch => -4
  | CSizeMismatchError => -5 | CEmptyEndpoints => -6 | CTimestampInvalid => -7
  | CMissingPayload => -8 | CHandlerError => -9 | CBadArg => -10
  | CSerialize => -11 | CDeserialize => -12 | CIo => -13 | CInvalidUtf8 => -14
  | CTypeMismatch => -15 | CInvalidLinkId => -16 | CPacketTooLarge => -17
  end.

Definition all_error_codes : list TelemetryErrorCode :=
  [CGenericError; CInvalidType; CSizeMismatch; CSizeMismatchError;
   CEmptyEndpoints; CTimestampInvalid; CMissingPayload; CHandlerError;
   CBadArg; CSerialize; CDeserialize; CIo; CInvalidUtf8; CTypeMismatch;
   CInvalidLinkId; CPacketTooLarge].

Definition TelemetryErrorCode_MAX : Z := error_code_repr CInvalidType.
Definition TelemetryErrorCode_MIN : Z := error_code_repr CIo.

(** ** Generic enum helpers

    A fieldless [#[repr]] enum is the association list of its variants and
    discriminants.  The unsafe read of the source yields the variant with that
    discriminant; with no such variant it is undefined behaviour, [Panic]
    here, so that the absence of [Panic] is a safety property. *)

Definition variant_at {E} (repr : E -> Z) (variants : list E) (x : Z) : option E :=
  List.find (fun v => repr v =? x) variants.

Definition try_enum_from_u32 {E} (MAX : Z) (repr : E -> Z) (variants : list E)
    (x : Z) : TelemetryResult (option E) :=
  if MAX <? x then Ok None
  else v ← expect (variant_at repr variants x); Ok (Some v).

Definition try_enum_from_i32 {E} (MAX MIN : Z) (repr : E -> Z) (variants : list E)
    (x : Z) : TelemetryResult (option E) :=
  if (x <? MIN) || (MAX <? x) then Ok None
  else v ← expect (variant_at repr variants x); Ok (Some v).

Definition try_from_i32 (x : Z) : TelemetryResult (option TelemetryErrorCode) :=
  try_enum_from_i32 TelemetryErrorCode_MAX TelemetryErrorCode_MIN
    error_code_repr all_error_codes x.

Inductive RouteSelectionMode := Fanout | Weighted | Failover.

#[export] Instance RouteSelectionMode_eq_dec : EqDecision RouteSelectionMode.
Proof. solve_decision. Defined.

Definition route_mode_repr (m : RouteSelectionMode) : Z :=
  match m with Fanout => 0 | Weighted => 1 | Failover => 2 end.

(** [impl_repr_i32_enum!(RouteSelectionMode, Fanout as i32, Failover as i32)]:
    the macro's second argument is [MAX] and its third is [MIN]. *)
Definition RouteSelectionMode_MAX : Z := route_mode_repr Fanout.
Definition RouteSelectionMode_MIN : Z := route_mode_repr Failover.

Definition route_mode_try_from_i32 (x : Z) : TelemetryResult (option RouteSelectionMode) :=
  try_enum_from_i32 RouteSelectionMode_MAX RouteSelectionMode_MIN
    route_mode_repr [Fanout; Weighted; Failover] x.

(** ** Compile-time number parsers ([parse_usize], [parse_u8], [parse_u128])

    They run in [const] context on the bytes of an environment variable; a
    [panic!] is a compilation error. [parse_usize] multiplies and adds with
    the overflow check that constant evaluation always has. *)

Definition digit_of (c : byte) : option Z :=
  if (u8 c <? 48) || (57 <? u8 c) then None else Some (u8 c - 48).

Fixpoint parse_usize_from (val : Z) (bytes : list byte) : option Z :=
  match bytes with
  | [] => Some val
  | c :: bytes =>
      d ← digit_of c;
      let v := val * 10 + d in
      if usize_max <? v then None else parse_usize_from v bytes
  end.

Definition parse_usize (bytes : list byte) : option Z := parse_usize_from 0 bytes.

Fixpoint parse_u8_from (val : Z) (bytes : list byte) : option Z :=
  match bytes with
  | [] => Some val
  | c :: bytes =>
      d ← digit_of c;
      let v := val * 10 + d in
      if 255 <? v then None else parse_u8_from v bytes
  end.

Definition parse_u8 (bytes : list byte) : option Z :=
  match bytes with [] => None | _ => parse_u8_from 0 bytes end.

Definition u128_max : Z := 2 ^ 128 - 1.

Fixpoint parse_u128_from (val : Z) (bytes : list byte) : option Z :=
  match bytes with
  | [] => Some val
  | c :: bytes =>
      d ← digit_of c;
      if (u128_max - d) / 10 <? val then None
      else parse_u128_from (val * 10 + d) bytes
  end.

Definition parse_u128 (bytes : list byte) : option Z :=
  match bytes with [] => None | _ => parse_u128_from 0 bytes end.

(** [parse_f64], over the executable IEEE-754 binary64 of [SpecFloat]. *)

Abbreviation f64 := spec_float.
Definition f64_mul : f64 -> f64 -> f64 := SFmul 53 1024.
Definition f64_add : f64 -> f64 -> f64 := SFadd 53 1024.
Definition f64_div : f64 -> f64 -> f64 := SFdiv 53 1024.

(** [z as f64] for a machine integer (round to nearest even). *)
Definition f64_of_Z (z : Z) : f64 := binary_normalize 53 1024 z 0 false.

(** The integer digits: value, rest of the input, whether a digit was read. *)
Fixpoint parse_f64_int (acc : f64) (seen : bool) (bytes : list byte)
    : f64 * list byte * bool :=
  match bytes with
  | c :: bytes' =>
      match digit_of c with
      | Some d => parse_f64_int (f64_add (f64_mul acc (f64_of_Z 10)) (f64_of_Z d)) true bytes'
      | None => (acc, bytes, seen)
      end
  | [] => (acc, bytes, seen)
  end.

Fixpoint parse_f64_frac (acc scale : f64) (seen : bool) (bytes : list byte)
    : f64 * list byte * bool :=
  match bytes with
  | c :: bytes' =>
      match digit_of c with
      | Some d =>
          let scale := f64_mul scale (f64_of_Z 10) in
          parse_f64_frac (f64_add acc (f64_div (f64_of_Z d) scale)) scale true bytes'
      | None => (acc, bytes, seen)
      end
  | [] => (acc, bytes, seen)
  end.

Definition parse_f64 (bytes : list byte) : option f64 :=
  match bytes with
  | [] => None
  | c :: rest =>
      let '(sign, bytes) :=
        if u8 c =? 45 then (f64_of_Z (-1), rest)
        else if u8 c =? 43 then (f64_of_Z 1, rest)
        else (f64_of_Z 1, bytes) in
      let '(int_part, bytes, seen) := parse_f64_int (f64_of_Z 0) false bytes in
      let '(frac_part, bytes, seen) :=
        match bytes with
        | c :: bytes' =>
            if u8 c =? 46 then parse_f64_frac (f64_of_Z 0) (f64_of_Z 1) seen bytes'
            else (f64_of_Z 0, bytes, seen)
        | [] => (f64_of_Z 0, bytes, seen)
        end in
      match seen, bytes with
      | true, [] => Some (f64_mul sign (f64_add int_part frac_part))
      | _, _ => None
      end
  end.

(** ** Message metadata *)

Inductive MessageDataType :=
| Float64 | Float32 | UInt8 | UInt16 | UInt32 | UInt64 | UInt128
| Int8 | Int16 | Int32 | Int64 | Int128 | TBool | TString | Binary | NoData.

#[export] Instance MessageDataType_eq_dec : EqDecision MessageDataType.
Proof. solve_decision. Defined.

Inductive MessageClass := Data | Error | Warning.

Inductive MessageElement :=
| Static (count : Z) (dt : MessageDataType) (mc : MessageClass)
| Dynamic (dt : MessageDataType) (mc : MessageClass).

Definition element_data_type (e : MessageElement) : MessageDataType :=
  match e with Static _ dt _ => dt | Dynamic dt _ => dt end.

Definition element_message_type (e : MessageElement) : MessageClass :=
  match e with Static _ _ mc => mc | Dynamic _ mc => mc end.

(** [MessageElement::into]: the static count, or 0. *)
Definition element_into (e : MessageElement) : Z :=
  match e with Static a _ _ => a | Dynamic _ _ => 0 end.

Inductive ReliableMode := RelNone | Ordered | Unordered.

#[export] Instance ReliableMode_eq_dec : EqDecision ReliableMode.
Proof. solve_decision. Defined.

(** The generated enums are [#[repr(u32)]]: a value is its discriminant. *)
Definition DataEndpoint := Z.
Definition DataType := Z.

Record EndpointMeta := {
  em_name : string;
  link_local_only : bool
}.

Record MessageMeta := {
  mm_name : string;
  element : MessageElement;
  endpoints : list DataEndpoint;
  reliable : ReliableMode;
  priority : Z
}.

(** ** The integer conversions of the FFI boundary *)

Lemma variant_at_repr x c : variant_at error_code_repr all_error_codes x = Some c <-> error_code_repr c = x.
Proof.
  split.
  - intros Hf. apply List.find_some in Hf as [_ Hf]. by apply Z.eqb_eq in Hf.
  - intros <-. by destruct c.
Qed.

(** Between the two limits every integer is a code, so the read is safe. *)
Lemma variant_at_total x :
  TelemetryErrorCode_MIN <= x <= TelemetryErrorCode_MAX -> exists c, variant_at error_code_repr all_error_codes x = Some c.
Proof.
  unfold TelemetryErrorCode_MIN, TelemetryErrorCode_MAX. cbn [error_code_repr]. intros Hx.
  assert (x = -13 \/ x = -12 \/ x = -11 \/ x = -10 \/ x = -9 \/ x = -8 \/ x = -7 \/ x = -6 \/ x = -5 \/ x = -4 \/ x = -3)
    as Hcases by lia.
  repeat (destruct Hcases as [->|Hcases]); try subst x; eexists; reflexivity.
Qed.

Lemma try_from_i32_exact x :
  try_from_i32 x <> Panic
  /\ forall c, try_from_i32 x = Ok (Some c) <-> error_code_repr c = x /\ -13 <= x <= -3.
Proof.
  unfold try_from_i32, try_enum_from_i32.
  destruct ((x <? TelemetryErrorCode_MIN) || (TelemetryErrorCode_MAX <? x)) eqn:E.
  - split; [done|]. intros c. split; [done|]. unfold TelemetryErrorCode_MIN, TelemetryErrorCode_MAX in E.
    cbn [error_code_repr] in E. intros [_ Hx]. lia.
  - unfold TelemetryErrorCode_MIN, TelemetryErrorCode_MAX in E. cbn [error_code_repr] in E.
    destruct (variant_at_total x) as [c Hc].
    { unfold TelemetryErrorCode_MIN, TelemetryErrorCode_MAX. cbn [error_code_repr]. lia. }
    rewrite Hc. cbn. split; [done|]. apply variant_at_repr in Hc. intros c'. split.
    + intros [= <-]. split; [done|lia].
    + intros [Hr _]. f_equal. f_equal. rewrite <- Hr in Hc. by destruct c, c'.
Qed.

(** The codes of the last four errors, and [GenericError]'s, are refused; and so
    is every [RouteSelectionMode], whose limits are swapped. *)
Lemma refused_codes :
  Forall (fun c => try_from_i32 (error_code_repr c) = Ok None)
    [CGenericError; CInvalidUtf8; CTypeMismatch; CInvalidLinkId; CPacketTooLarge]
  /\ forall x, route_mode_try_from_i32 x = Ok None.
Proof.
  split; [repeat constructor|]. intros x. unfold route_mode_try_from_i32, try_enum_from_i32.
  unfold RouteSelectionMode_MIN, RouteSelectionMode_MAX. cbn [route_mode_repr].
  destruct (Z.ltb_spec x 2); cbn [orb]; [done|]. by destruct (Z.ltb_spec 0 x); [|lia].
Qed.
