(* ===== verification/Config.v ===== *)
(** * Build configuration ([src/config.rs])

    The constants the build environment may override, resolved the way the
    [option_env!] chains of the source do. Everything downstream takes them
    from the class [Config]. *)

From S2P Require Import Prelude Telemetry.

Class Config := {
  DEVICE_IDENTIFIER : Str;
  MAX_RECENT_RX_IDS : Z;
  STARTING_QUEUE_SIZE : Z;
  MAX_QUEUE_BUDGET : Z;
  QUEUE_GROW_STEP : f64;
  PAYLOAD_COMPRESS_THRESHOLD : Z;
  STATIC_STRING_LENGTH : Z;
  STATIC_HEX_LENGTH : Z;
  STRING_PRECISION : Z;
  STACK_PAYLOAD_SIZE : Z;
  MAX_HANDLER_RETRIES : Z;
  RELIABLE_RETRANSMIT_MS : Z;
  RELIABLE_MAX_RETRIES : Z;
  RELIABLE_MAX_PENDING : Z;
  RELIABLE_MAX_RETURN_ROUTES : Z;
  RELIABLE_MAX_END_TO_END_PENDING : Z;
  RELIABLE_MAX_END_TO_END_ACK_CACHE : Z
}.

(** The build environment: what [option_env!] and [std::env::var] see. *)
Definition BuildEnv := string -> option Str.

Definition env_usize (env : BuildEnv) (key : string) (default : Z) : option Z :=
  match env key with
  | Some val => parse_usize val
  | None => Some default
  end.

(** [parse_usize(val) as u32]: the cast truncates. *)
Definition env_u32 (env : BuildEnv) (key : string) (default : Z) : option Z :=
  match env key with
  | Some val => wrap 32 <$> parse_usize val
  | None => Some default
  end.

(** [MAX_QUEUE_BUDGET], with the legacy alias [MAX_QUEUE_SIZE]. *)
Definition env_queue_budget (env : BuildEnv) : option Z :=
  match env "MAX_QUEUE_BUDGET"%string with
  | Some val => parse_usize val
  | None => env_usize env "MAX_QUEUE_SIZE" (1024 * 100)
  end.

(** [read_max_from_env] of the proc macro: a runtime [str::parse::<usize>] of
    the trimmed value; absent, malformed and zero values give the default. *)
Definition ascii_ws (b : byte) : bool :=
  (u8 b =? 32) || ((9 <=? u8 b) && (u8 b <=? 13)).

(** [char::is_whitespace] beyond ASCII, as UTF-8. *)
Definition wide_spaces : list Str :=
  map (map b8)
    ([[194; 133]; [194; 160]; [225; 154; 128]; [226; 128; 168]; [226; 128; 169]; [226; 128; 175]; [226; 129; 159]; [227; 128; 128]]
     ++ map (fun n => [226; 128; 128 + n]) (seqZ 0 11)).

Fixpoint strip_prefix (p l : Str) : option Str :=
  match p, l with
  | [], l => Some l
  | a :: p, b :: l => if bool_decide (a = b) then strip_prefix p l else None
  | _ :: _, [] => None
  end.

(** The text after one leading white character of [spaces]. *)
Definition strip_space (spaces : list Str) (l : Str) : option Str :=
  match l with
  | b :: l' => if ascii_ws b then Some l' else head (omap (fun p => strip_prefix p l) spaces)
  | [] => None
  end.

Fixpoint trim_start (fuel : nat) (spaces : list Str) (l : Str) : Str :=
  match fuel with
  | O => l
  | S fuel => match strip_space spaces l with Some l => trim_start fuel spaces l | None => l end
  end.

(** [str::trim]: the end is the start of the reversed text. *)
Definition trim (l : Str) : Str :=
  let l := trim_start (length l) wide_spaces l in
  rev (trim_start (length l) (map (@rev byte) wide_spaces) (rev l)).

Definition usize_from_str (l : Str) : option Z :=
  match l with
  | [] => None
  | c :: l' => if u8 c =? 43 then match l' with [] => None | _ => parse_usize l' end
               else parse_usize l
  end.

Definition read_max_from_env (env : BuildEnv) (key : string) (default : Z) : Z :=
  match env key with
  | Some v =>
      match usize_from_str (trim v) with
      | Some n => if 0 <? n then n else default
      | None => default
      end
  | None => default
  end.

(** The whole of [config.rs]; [None] is a compilation error. *)
Definition config_of_env (env : BuildEnv) : option Config :=
  let device := match env "DEVICE_IDENTIFIER"%string with
                | Some val => val | None => lit "TEST_PLATFORM" end in
  max_recent ← env_usize env "MAX_RECENT_RX_IDS" 128;
  starting ← env_usize env "STARTING_QUEUE_SIZE" 128;
  budget ← env_queue_budget env;
  grow ← match env "QUEUE_GROW_STEP"%string with
         | Some val => parse_f64 val
         | None => Some (S754_finite false 7205759403792794 (-51)) (* 3.2 *)
         end;
  compress ← env_usize env "PAYLOAD_COMPRESS_THRESHOLD" 128;
  static_string ← env_usize env "STATIC_STRING_LENGTH" 1024;
  static_hex ← env_usize env "STATIC_HEX_LENGTH" 1024;
  precision ← env_usize env "STRING_PRECISION" 8;
  retries ← env_usize env "MAX_HANDLER_RETRIES" 3;
  retransmit ← env_usize env "RELIABLE_RETRANSMIT_MS" 200;
  rel_retries ← env_u32 env "RELIABLE_MAX_RETRIES" 8;
  rel_pending ← env_usize env "RELIABLE_MAX_PENDING" 16;
  return_routes ← env_usize env "RELIABLE_MAX_RETURN_ROUTES" max_recent;
  e2e_pending ← env_usize env "RELIABLE_MAX_END_TO_END_PENDING" rel_pending;
  e2e_acks ← env_usize env "RELIABLE_MAX_END_TO_END_ACK_CACHE" max_recent;
  Some {|
    DEVICE_IDENTIFIER := device;
    MAX_RECENT_RX_IDS := max_recent;
    STARTING_QUEUE_SIZE := starting;
    MAX_QUEUE_BUDGET := budget;
    QUEUE_GROW_STEP := grow;
    PAYLOAD_COMPRESS_THRESHOLD := compress;
    STATIC_STRING_LENGTH := static_string;
    STATIC_HEX_LENGTH := static_hex;
    STRING_PRECISION := precision;
    STACK_PAYLOAD_SIZE := read_max_from_env env "MAX_STACK_PAYLOAD" 64;
    MAX_HANDLER_RETRIES := retries;
    RELIABLE_RETRANSMIT_MS := retransmit;
    RELIABLE_MAX_RETRIES := rel_retries;
    RELIABLE_MAX_PENDING := rel_pending;
    RELIABLE_MAX_RETURN_ROUTES := return_routes;
    RELIABLE_MAX_END_TO_END_PENDING := e2e_pending;
    RELIABLE_MAX_END_TO_END_ACK_CACHE := e2e_acks
  |}.

Section Derived.
Context `{Config}.

(** [MAX_RECENT_RX_IDS.saturating_mul(size_of::<u64>())], capped. *)
Definition RECENT_RX_QUEUE_BYTES : Z :=
  let requested := sat_mul64 MAX_RECENT_RX_IDS 8 in
  if requested <? MAX_QUEUE_BUDGET then requested else MAX_QUEUE_BUDGET.
End Derived.

(** The configuration of a build with no overrides. *)
Definition default_config : Config :=
  {|
    DEVICE_IDENTIFIER := lit "TEST_PLATFORM";
    MAX_RECENT_RX_IDS := 128;
    STARTING_QUEUE_SIZE := 128;
    MAX_QUEUE_BUDGET := 102400;
    QUEUE_GROW_STEP := S754_finite false 7205759403792794 (-51);
    PAYLOAD_COMPRESS_THRESHOLD := 128;
    STATIC_STRING_LENGTH := 1024;
    STATIC_HEX_LENGTH := 1024;
    STRING_PRECISION := 8;
    STACK_PAYLOAD_SIZE := 64;
    MAX_HANDLER_RETRIES := 3;
    RELIABLE_RETRANSMIT_MS := 200;
    RELIABLE_MAX_RETRIES := 8;
    RELIABLE_MAX_PENDING := 16;
    RELIABLE_MAX_RETURN_ROUTES := 128;
    RELIABLE_MAX_END_TO_END_PENDING := 16;
    RELIABLE_MAX_END_TO_END_ACK_CACHE := 128
  |}.

Lemma default_config_ok : config_of_env (fun _ => None) = Some default_config.
Proof. reflexivity. Qed.

(** The usize ranges that the parser guarantees of a configuration. *)
Record ConfigRange (c : Config) : Prop := {
  cr_recent : 0 <= MAX_RECENT_RX_IDS <= usize_max;
  cr_budget : 0 <= MAX_QUEUE_BUDGET <= usize_max;
  cr_compress : 0 <= PAYLOAD_COMPRESS_THRESHOLD <= usize_max;
  cr_pending : 0 <= RELIABLE_MAX_PENDING <= usize_max;
  cr_routes : 0 <= RELIABLE_MAX_RETURN_ROUTES <= usize_max;
  cr_retransmit : 0 <= RELIABLE_RETRANSMIT_MS <= u64_max;
  cr_retries : 0 <= RELIABLE_MAX_RETRIES <= u32_max
}.

Lemma digit_of_range c d : digit_of c = Some d -> 0 <= d <= 9.
Proof.
  unfold digit_of. pose proof (u8_range c).
  destruct (u8 c <? 48) eqn:?, (57 <? u8 c) eqn:?; cbn; intros [= <-]; lia.
Qed.

Lemma parse_usize_from_range l z v :
  0 <= z <= usize_max -> parse_usize_from z l = Some v -> 0 <= v <= usize_max.
Proof.
  revert z. induction l as [|c l IH]; cbn; intros z Hz.
  { intros [= <-]. done. }
  destruct (digit_of c) as [d|] eqn:Hd; cbn; [|done].
  apply digit_of_range in Hd. destruct (usize_max <? _) eqn:E; [done|].
  apply IH. lia.
Qed.

Lemma parse_usize_range l v : parse_usize l = Some v -> 0 <= v <= usize_max.
Proof. apply parse_usize_from_range. zlia. Qed.

Lemma env_usize_range env key d v :
  0 <= d <= usize_max -> env_usize env key d = Some v -> 0 <= v <= usize_max.
Proof.
  unfold env_usize. intros Hd. destruct (env key).
  - apply parse_usize_range. - intros [= <-]. done.
Qed.

(** Break a binding of the option monad. *)
Ltac opt_step :=
  match goal with
  | H : (_ ≫= _) = Some _ |- _ => apply bind_Some in H as (? & ? & H)
  end.

Theorem config_of_env_range env c : config_of_env env = Some c -> ConfigRange c.
Proof.
  unfold config_of_env. intros Hc. repeat opt_step. injection Hc as <-.
  assert (forall d, 0 <= d <= 1024 * 1024 -> 0 <= d <= usize_max) as Hsmall by zlia.
  repeat match goal with
  | H : env_usize _ _ _ = Some _ |- _ =>
      apply env_usize_range in H; [|first [apply Hsmall; lia | done]]
  end.
  constructor; cbn; try done.
  - unfold env_queue_budget in *. destruct (env _) in *.
    + by eapply parse_usize_range.
    + eapply env_usize_range; [|done]. apply Hsmall. lia.
  - unfold env_u32 in *. destruct (env "RELIABLE_MAX_RETRIES"%string) as [s|] in *.
    + destruct (parse_usize s) as [z|]; [|done]. simplify_option_eq.
      pose proof (wrap_range 32 z ltac:(lia)). zlia.
    + simplify_option_eq. zlia.
Qed.
