(* ===== verification/Schema.v ===== *)
(** * The telemetry schema

    The [define_telemetry_schema!] proc macro
    ([sedsprintf_macros/src/lib.rs]) turns [telemetry_config.json] (plus an
    optional board-local IPC overlay) into the [DataEndpoint] and [DataType]
    enums and their metadata tables; [src/lib.rs] looks types up in them.
    The model runs the macro on a parsed JSON value, for a build with the
    default [timesync] and [discovery] features. *)

From S2P Require Import Prelude Telemetry Config.

(** ** The parsed JSON *)

Record JsonEndpoint := {
  je_rust : string;
  je_name : string;
  deprecated_broadcast_mode : option string;
  je_link_local_only : option bool
}.

Inductive JsonElement :=
| JStatic (count : Z) (data_type : string)
| JDynamic (data_type : string).

Record JsonType := {
  jt_rust : string;
  jt_name : string;
  jt_reliable : option bool;
  jt_reliable_mode : option string;
  jt_priority : option Z;
  jt_element : JsonElement;
  jt_class : string;
  jt_endpoints : list string
}.

Record TelemetryConfig := {
  tc_endpoints : list JsonEndpoint;
  tc_types : list JsonType
}.

(** ** Normalisation and overlay merge *)

Definition set_link_local (b : bool) (ep : JsonEndpoint) : JsonEndpoint :=
  {| je_rust := je_rust ep; je_name := je_name ep;
     deprecated_broadcast_mode := deprecated_broadcast_mode ep;
     je_link_local_only := Some b |}.

Definition is_never (ep : JsonEndpoint) : bool :=
  match deprecated_broadcast_mode ep with
  | Some mode => String.eqb mode "Never"
  | None => false
  end.

Definition normalize_endpoint_legacy_fields (ep : JsonEndpoint) : JsonEndpoint :=
  match deprecated_broadcast_mode ep with
  | None => ep
  | Some mode => if String.eqb mode "Never" then set_link_local true ep else ep
  end.

Definition normalize_base_schema (cfg : TelemetryConfig) : TelemetryConfig :=
  {| tc_endpoints :=
       map (fun ep =>
              let ep := normalize_endpoint_legacy_fields ep in
              if is_never ep then ep else set_link_local false ep)
           (tc_endpoints cfg);
     tc_types := tc_types cfg |}.

(** The macro's errors; each names the offending identifier. *)
Inductive SchemaError :=
| EndpointRustCollision (s : string)
| EndpointNameCollision (s : string)
| TypeRustCollision (s : string)
| TypeNameCollision (s : string)
| ReservedType (s : string)
| ReservedEndpoint (s : string)
| BadCapsName (s : string)
| BadIdent (s : string)
| MixedLinkLocal (s : string)
| BadReliableMode (s : string)
| Unresolved (s : string)
| DuplicateVariant.

Abbreviation SchemaResult A := (Res SchemaError A).

Definition mem (s : string) (l : list string) : bool := existsb (String.eqb s) l.

(** Per overlay entry the Rust name is inserted before the schema name. *)
Fixpoint insert_pairs (seen_r seen_n : list string) (l : list (string * string))
    (mkr mkn : string -> SchemaError) : SchemaResult unit :=
  match l with
  | [] => Ok tt
  | (r, n) :: l =>
      if mem r seen_r then Err (mkr r)
      else if mem n seen_n then Err (mkn n)
      else insert_pairs (r :: seen_r) (n :: seen_n) l mkr mkn
  end.

Definition merge_ipc_overlay (base overlay : TelemetryConfig)
    : SchemaResult TelemetryConfig :=
  let eps := map (set_link_local true) (tc_endpoints overlay) in
  _ ← insert_pairs (map je_rust (tc_endpoints base)) (map je_name (tc_endpoints base))
        (map (fun ep => (je_rust ep, je_name ep)) eps)
        EndpointRustCollision EndpointNameCollision;
  _ ← insert_pairs (map jt_rust (tc_types base)) (map jt_name (tc_types base))
        (map (fun ty => (jt_rust ty, jt_name ty)) (tc_types overlay))
        TypeRustCollision TypeNameCollision;
  Ok {| tc_endpoints := tc_endpoints base ++ eps;
        tc_types := tc_types base ++ tc_types overlay |}.

Definition load_merged_schema (base : TelemetryConfig) (overlay : option TelemetryConfig)
    : SchemaResult TelemetryConfig :=
  let cfg := normalize_base_schema base in
  match overlay with
  | None => Ok cfg
  | Some o => merge_ipc_overlay cfg o
  end.

(** ** Validation *)

Definition is_timesync_type (ty : JsonType) : bool :=
  mem (jt_rust ty) ["TimeSyncAnnounce"; "TimeSyncRequest"; "TimeSyncResponse"]%string
  || mem (jt_name ty) ["TIME_SYNC_ANNOUNCE"; "TIME_SYNC_REQUEST"; "TIME_SYNC_RESPONSE"]%string.

Definition is_discovery_json_type (ty : JsonType) : bool :=
  mem (jt_rust ty) ["DiscoveryAnnounce"; "DiscoveryTimeSyncSources"; "DiscoveryTopology"]%string
  || mem (jt_name ty) ["DISCOVERY_ANNOUNCE"; "DISCOVERY_TIMESYNC_SOURCES"; "DISCOVERY_TOPOLOGY"]%string.

Definition type_reserved (ty : JsonType) : bool :=
  String.eqb (jt_rust ty) "TelemetryError" || String.eqb (jt_name ty) "TELEMETRY_ERROR"
  || is_timesync_type ty || is_discovery_json_type ty.

Definition endpoint_reserved (ep : JsonEndpoint) : bool :=
  mem (je_rust ep) ["TelemetryError"; "TimeSync"; "Discovery"]%string
  || mem (je_name ep) ["TELEMETRY_ERROR"; "TIME_SYNC"; "DISCOVERY"]%string.

Definition caps_char (b : byte) : bool :=
  ((65 <=? u8 b) && (u8 b <=? 90)) || ((48 <=? u8 b) && (u8 b <=? 57)) || (u8 b =? 95).

Definition ensure_caps_name (s : string) : SchemaResult unit :=
  match lit s with
  | [] => Err (BadCapsName s)
  | l => if forallb caps_char l then Ok tt else Err (BadCapsName s)
  end.

(** A type may not mix link-local-only and normal endpoints. *)
Definition mixes_link_local (eps : list JsonEndpoint) (ty : JsonType) : bool :=
  let flag r := match List.find (fun ep => String.eqb (je_rust ep) r) eps with
                | Some ep => Some (default false (je_link_local_only ep))
                | None => None end in
  existsb (fun r => bool_decide (flag r = Some true)) (jt_endpoints ty)
  && existsb (fun r => bool_decide (flag r = Some false)) (jt_endpoints ty).

Definition to_ascii_lowercase (l : Str) : Str :=
  map (fun b => if (65 <=? u8 b) && (u8 b <=? 90) then b8 (u8 b + 32) else b) l.

Definition reliable_mode_token (mode : string) : SchemaResult ReliableMode :=
  let lc := to_ascii_lowercase (lit mode) in
  if decide (lc = lit "none") then Ok RelNone
  else if decide (lc = lit "ordered") then Ok Ordered
  else if decide (lc = lit "unordered") then Ok Unordered
  else Err (BadReliableMode mode).

Definition datatype_names : list (string * MessageDataType) :=
  [("Float64", Float64); ("Float32", Float32); ("UInt8", UInt8); ("UInt16", UInt16);
   ("UInt32", UInt32); ("UInt64", UInt64); ("UInt128", UInt128); ("Int8", Int8);
   ("Int16", Int16); ("Int32", Int32); ("Int64", Int64); ("Int128", Int128);
   ("Bool", TBool); ("String", TString); ("Binary", Binary); ("NoData", NoData)]%string.

Definition class_names : list (string * MessageClass) :=
  [("Data", Data); ("Error", Error); ("Warning", Warning)]%string.

(** Resolution of a path [Enum::Variant] by the compiler. *)
Fixpoint resolve {A} (names : list (string * A)) (s : string) : SchemaResult A :=
  match names with
  | [] => Err (Unresolved s)
  | (n, a) :: names => if String.eqb n s then Ok a else resolve names s
  end.

Fixpoint all_ok {A} (f : A -> SchemaResult unit) (l : list A) : SchemaResult unit :=
  match l with
  | [] => Ok tt
  | a :: l => _ ← f a; all_ok f l
  end.

(** ** The generated tables

    [Schema] holds the user part; the macro appends the built-in endpoints
    and types, so their discriminants follow the user's. *)

Class Schema := {
  user_endpoints : list EndpointMeta;
  user_types : list MessageMeta
}.

Section Tables.
Context `{Schema}.

Definition n_eps : Z := Z.of_nat (length user_endpoints).
Definition n_tys : Z := Z.of_nat (length user_types).

Definition EpTimeSync : DataEndpoint := n_eps.
Definition EpDiscovery : DataEndpoint := n_eps + 1.
Definition EpTelemetryError : DataEndpoint := n_eps + 2.

Definition builtin_endpoints : list EndpointMeta :=
  [{| em_name := "TIME_SYNC"; link_local_only := false |};
   {| em_name := "DISCOVERY"; link_local_only := false |};
   {| em_name := "TELEMETRY_ERROR"; link_local_only := false |}].

Definition TimeSyncAnnounce : DataType := n_tys.
Definition TimeSyncRequest : DataType := n_tys + 1.
Definition TimeSyncResponse : DataType := n_tys + 2.
Definition DiscoveryAnnounce : DataType := n_tys + 3.
Definition DiscoveryTimeSyncSources : DataType := n_tys + 4.
Definition DiscoveryTopology : DataType := n_tys + 5.
Definition ReliableAck : DataType := n_tys + 6.
Definition ReliablePartialAck : DataType := n_tys + 7.
Definition ReliablePacketRequest : DataType := n_tys + 8.
Definition TyTelemetryError : DataType := n_tys + 9.

Definition mk_meta (name : string) (el : MessageElement) (ep : DataEndpoint)
    (r : ReliableMode) (prio : Z) : MessageMeta :=
  {| mm_name := name; element := el; endpoints := [ep]; reliable := r; priority := prio |}.

Definition builtin_types : list MessageMeta :=
  [mk_meta "TIME_SYNC_ANNOUNCE" (Static 2 UInt64 Data) EpTimeSync RelNone 255;
   mk_meta "TIME_SYNC_REQUEST" (Static 2 UInt64 Data) EpTimeSync RelNone 255;
   mk_meta "TIME_SYNC_RESPONSE" (Static 4 UInt64 Data) EpTimeSync RelNone 255;
   mk_meta "DISCOVERY_ANNOUNCE" (Dynamic UInt32 Data) EpDiscovery RelNone 240;
   mk_meta "DISCOVERY_TIMESYNC_SOURCES" (Dynamic UInt8 Data) EpDiscovery RelNone 240;
   mk_meta "DISCOVERY_TOPOLOGY" (Dynamic UInt8 Data) EpDiscovery RelNone 240;
   mk_meta "RELIABLE_ACK" (Static 2 UInt32 Data) EpTelemetryError RelNone 250;
   mk_meta "RELIABLE_PARTIAL_ACK" (Static 2 UInt32 Data) EpTelemetryError RelNone 250;
   mk_meta "RELIABLE_PACKET_REQUEST" (Static 2 UInt32 Data) EpTelemetryError RelNone 250;
   mk_meta "TELEMETRY_ERROR" (Dynamic TString Error) EpTelemetryError Ordered 200].

Definition endpoint_table : list EndpointMeta := user_endpoints ++ builtin_endpoints.
Definition type_table : list MessageMeta := user_types ++ builtin_types.

(** [DataEndpoint::COUNT - 1], [DataType::COUNT - 1] ([lib.rs]). *)
Definition MAX_VALUE_DATA_ENDPOINT : Z := Z.of_nat (length endpoint_table) - 1.
Definition MAX_VALUE_DATA_TYPE : Z := Z.of_nat (length type_table) - 1.

(** The macro's own counts ([max_ep_value], [max_ty_value]). *)
Definition macro_max_ep_value : Z := n_eps + 1 + 1.
Definition macro_max_ty_value : Z := n_tys + 3 + 3 + 3.

Definition valid_ep (ep : DataEndpoint) : Prop := 0 <= ep <= MAX_VALUE_DATA_ENDPOINT.
Definition valid_ty (ty : DataType) : Prop := 0 <= ty <= MAX_VALUE_DATA_TYPE.

(** The generated [match]es; the defaults are unreachable on valid values. *)
Definition get_endpoint_meta (ep : DataEndpoint) : EndpointMeta :=
  nth (Z.to_nat ep) endpoint_table {| em_name := ""; link_local_only := false |}.

Definition get_message_meta (ty : DataType) : MessageMeta :=
  nth (Z.to_nat ty) type_table (mk_meta "" (Static 0 NoData Data) 0 RelNone 0).

(** ** [src/lib.rs]: lookups *)

Definition endpoint_try_from_u32 (x : Z) : option DataEndpoint :=
  if MAX_VALUE_DATA_ENDPOINT <? x then None else Some x.

Definition type_try_from_u32 (x : Z) : option DataType :=
  if MAX_VALUE_DATA_TYPE <? x then None else Some x.

Definition ep_as_str (ep : DataEndpoint) : Str := lit (em_name (get_endpoint_meta ep)).
Definition is_link_local_only (ep : DataEndpoint) : bool :=
  link_local_only (get_endpoint_meta ep).

Definition message_meta (ty : DataType) : MessageMeta := get_message_meta ty.

Definition reliable_mode (ty : DataType) : ReliableMode := reliable (get_message_meta ty).

Definition is_reliable_type (ty : DataType) : bool :=
  match reliable (get_message_meta ty) with RelNone => false | _ => true end.

Definition message_priority (ty : DataType) : Z := priority (get_message_meta ty).

Definition get_info_type (ty : DataType) : MessageClass :=
  element_message_type (element (get_message_meta ty)).

Definition get_data_type (ty : DataType) : MessageDataType :=
  element_data_type (element (get_message_meta ty)).

Definition get_message_name (ty : DataType) : Str := lit (mm_name (get_message_meta ty)).

Definition endpoints_from_datatype (ty : DataType) : list DataEndpoint :=
  endpoints (get_message_meta ty).
End Tables.

Section Sizes.
Context `{Config} `{Schema}.

Definition data_type_size (dt : MessageDataType) : Z :=
  match dt with
  | Float64 => 8 | Float32 => 4
  | UInt8 => 1 | UInt16 => 2 | UInt32 => 4 | UInt64 => 8 | UInt128 => 16
  | Int8 => 1 | Int16 => 2 | Int32 => 4 | Int64 => 8 | Int128 => 16
  | TBool => 1
  | TString => STATIC_STRING_LENGTH
  | Binary => STATIC_HEX_LENGTH
  | NoData => 0
  end.

(** The product is a [usize]. *)
Definition get_needed_message_size (ty : DataType) : Z :=
  wrap 64 (data_type_size (get_data_type ty) * element_into (element (get_message_meta ty))).
End Sizes.

(** ** [define_telemetry_schema!] *)

Section Macro.
(** [syn]'s identifier grammar. *)
Context (valid_ident : string -> bool).

Definition check_endpoint (ep : JsonEndpoint) : SchemaResult unit :=
  _ ← ensure_caps_name (je_name ep);
  if valid_ident (je_rust ep) then Ok tt else Err (BadIdent (je_rust ep)).

Definition check_type (eps : list JsonEndpoint) (ty : JsonType) : SchemaResult unit :=
  _ ← ensure_caps_name (jt_name ty);
  if mixes_link_local eps ty then Err (MixedLinkLocal (jt_rust ty))
  else if valid_ident (jt_rust ty) then Ok tt else Err (BadIdent (jt_rust ty)).

Definition endpoint_meta_of (ep : JsonEndpoint) : EndpointMeta :=
  {| em_name := je_name ep; link_local_only := default false (je_link_local_only ep) |}.

Definition builtin_endpoint_idents : list string :=
  ["TimeSync"; "Discovery"; "TelemetryError"]%string.

Definition builtin_type_idents : list string :=
  ["TimeSyncAnnounce"; "TimeSyncRequest"; "TimeSyncResponse"; "DiscoveryAnnounce";
   "DiscoveryTimeSyncSources"; "DiscoveryTopology"; "ReliableAck";
   "ReliablePartialAck"; "ReliablePacketRequest"; "TelemetryError"]%string.

(** The variants of [DataEndpoint], numbered. *)
Definition endpoint_variants (eps : list JsonEndpoint) : list (string * DataEndpoint) :=
  let names := map je_rust eps ++ builtin_endpoint_idents in
  zip names (seqZ 0 (Z.of_nat (length names))).

Definition element_of (el : JsonElement) (mc : MessageClass) : SchemaResult MessageElement :=
  match el with
  | JStatic count data_type => dt ← resolve datatype_names data_type; Ok (Static count dt mc)
  | JDynamic data_type => dt ← resolve datatype_names data_type; Ok (Dynamic dt mc)
  end.

Definition message_meta_of (eps : list JsonEndpoint) (ty : JsonType) : SchemaResult MessageMeta :=
  mode ← match jt_reliable_mode ty with
         | Some mode => reliable_mode_token mode
         | None => Ok (if default false (jt_reliable ty) then Ordered else RelNone)
         end;
  mc ← resolve class_names (jt_class ty);
  el ← element_of (jt_element ty) mc;
  targets ← mapM_res (resolve (endpoint_variants eps)) (jt_endpoints ty);
  Ok {| mm_name := jt_name ty; element := el; endpoints := targets;
        reliable := mode; priority := default 0 (jt_priority ty) |}.

(** Two variants of one enum with the same name do not compile. *)
Definition distinct (l : list string) : bool := bool_decide (NoDup l).

Definition define_telemetry_schema (base : TelemetryConfig) (overlay : option TelemetryConfig)
    : SchemaResult Schema :=
  cfg ← load_merged_schema base overlay;
  _ ← all_ok (fun ty => if type_reserved ty then Err (ReservedType (jt_rust ty)) else Ok tt)
        (tc_types cfg);
  _ ← all_ok (fun ep => if endpoint_reserved ep then Err (ReservedEndpoint (je_rust ep)) else Ok tt)
        (tc_endpoints cfg);
  _ ← all_ok check_endpoint (tc_endpoints cfg);
  _ ← all_ok (check_type (tc_endpoints cfg)) (tc_types cfg);
  if negb (distinct (map je_rust (tc_endpoints cfg) ++ builtin_endpoint_idents)
           && distinct (map jt_rust (tc_types cfg) ++ builtin_type_idents))
  then Err DuplicateVariant
  else
    metas ← mapM_res (message_meta_of (tc_endpoints cfg)) (tc_types cfg);
    Ok {| user_endpoints := map endpoint_meta_of (tc_endpoints cfg); user_types := metas |}.
End Macro.

(** ** The shipped schema ([telemetry_config.json]) and its IPC test overlay *)

Definition mk_type (rust name mode dt : string) (count : option Z) (prio : option Z)
    (eps : list string) : JsonType :=
  {| jt_rust := rust; jt_name := name; jt_reliable := None;
     jt_reliable_mode := if String.eqb mode "" then None else Some mode;
     jt_priority := prio;
     jt_element := match count with Some n => JStatic n dt | None => JDynamic dt end;
     jt_class := "Data"; jt_endpoints := eps |}.

Definition telemetry_config_json : TelemetryConfig :=
  {| tc_endpoints :=
       [{| je_rust := "SdCard"; je_name := "SD_CARD";
           deprecated_broadcast_mode := None; je_link_local_only := None |};
        {| je_rust := "Radio"; je_name := "RADIO";
           deprecated_broadcast_mode := None; je_link_local_only := None |}];
     tc_types :=
       [mk_type "GpsData" "GPS_DATA" "Ordered" "Float32" (Some 3) None ["Radio"; "SdCard"];
        mk_type "ImuData" "IMU_DATA" "" "Float32" (Some 6) None ["Radio"; "SdCard"];
        mk_type "BatteryStatus" "BATTERY_STATUS" "" "Float32" (Some 2) None ["Radio"; "SdCard"];
        mk_type "SystemStatus" "SYSTEM_STATUS" "" "Bool" (Some 1) None ["SdCard"];
        mk_type "BarometerData" "BAROMETER_DATA" "" "Float32" (Some 3) None ["Radio"; "SdCard"];
        mk_type "MessageData" "MESSAGE_DATA" "" "String" None None ["SdCard"; "Radio"];
        mk_type "Heartbeat" "HEARTBEAT" "" "NoData" (Some 0) None ["SdCard"; "Radio"]]%string |}.

Definition ipc_overlay_json : TelemetryConfig :=
  {| tc_endpoints :=
       [{| je_rust := "SoftwareBus"; je_name := "SOFTWARE_BUS";
           deprecated_broadcast_mode := None; je_link_local_only := None |}];
     tc_types :=
       [mk_type "IpcMessage" "IPC_MESSAGE" "" "String" None None ["SoftwareBus"]%string] |}.

(** Letters, digits and underscores, not starting with a digit. *)
Definition simple_ident (s : string) : bool :=
  match lit s with
  | [] => false
  | c :: _ as l =>
      forallb (fun b => caps_char b || ((97 <=? u8 b) && (u8 b <=? 122))) l
      && negb ((48 <=? u8 c) && (u8 c <=? 57))
  end.

Definition schema_or_empty (r : SchemaResult Schema) : Schema :=
  match r with Ok s => s | _ => {| user_endpoints := []; user_types := [] |} end.

Definition default_schema : Schema :=
  Eval vm_compute in
    schema_or_empty (define_telemetry_schema simple_ident telemetry_config_json None).

Definition ipc_schema : Schema :=
  Eval vm_compute in
    schema_or_empty
      (define_telemetry_schema simple_ident telemetry_config_json (Some ipc_overlay_json)).

Lemma default_schema_generated :
  define_telemetry_schema simple_ident telemetry_config_json None = Ok default_schema.
Proof. vm_compute. reflexivity. Qed.

Lemma ipc_schema_generated :
  define_telemetry_schema simple_ident telemetry_config_json (Some ipc_overlay_json)
  = Ok ipc_schema.
Proof. vm_compute. reflexivity. Qed.

(** ** Well-formed schemas *)

Definition meta_ok `{Schema} (m : MessageMeta) : Prop :=
  Forall valid_ep (endpoints m)
  /\ 0 <= element_into (element m) <= usize_max
  /\ is_u8 (priority m).

Record SchemaOk (sc : Schema) : Prop := {
  so_meta : Forall meta_ok type_table;
  so_eps : MAX_VALUE_DATA_ENDPOINT <= u32_max;
  so_tys : MAX_VALUE_DATA_TYPE <= u32_max
}.

(** What [serde] guarantees of a parsed schema: field widths, and lists short
    enough for a [u32] discriminant. *)
Definition type_in_range (ty : JsonType) : Prop :=
  (forall p, jt_priority ty = Some p -> is_u8 p)
  /\ match jt_element ty with JStatic n _ => 0 <= n <= usize_max | _ => True end.

Definition config_in_range (cfg : TelemetryConfig) : Prop :=
  Forall type_in_range (tc_types cfg)
  /\ Z.of_nat (length (tc_endpoints cfg)) < 2 ^ 30
  /\ Z.of_nat (length (tc_types cfg)) < 2 ^ 30.

Lemma resolve_in {A} (names : list (string * A)) s a :
  resolve names s = Ok a -> (s, a) ∈ names.
Proof.
  induction names as [|[n b] names IH]; cbn; [done|].
  destruct (String.eqb_spec n s) as [->|Hne].
  - intros [= ->]. set_solver.
  - intros Hr. apply elem_of_cons. auto.
Qed.

Lemma all_ok_forall {A} (f : A -> SchemaResult unit) l :
  all_ok f l = Ok tt -> Forall (fun a => f a = Ok tt) l.
Proof.
  induction l as [|a l IH]; cbn; [constructor|]. intros H.
  apply bind_ok in H as ([] & Ha & Hl). constructor; auto.
Qed.

Lemma mapM_res_forall2 {E A B} (f : A -> Res E B) l k :
  mapM_res f l = Ok k -> Forall2 (fun a b => f a = Ok b) l k.
Proof.
  revert k. induction l as [|a l IH]; cbn; intros k Hk.
  - injection Hk as <-. constructor.
  - apply bind_ok in Hk as (b & Hb & Hk). apply bind_ok in Hk as (bs & Hbs & [= <-]).
    constructor; auto.
Qed.

Lemma length_endpoint_variants eps :
  length (endpoint_variants eps) = (length eps + 3)%nat.
Proof.
  unfold endpoint_variants. rewrite length_zip_with, length_seqZ, length_app, length_map.
  cbn. lia.
Qed.

Lemma endpoint_variants_range eps s e :
  (s, e) ∈ endpoint_variants eps -> 0 <= e <= Z.of_nat (length eps) + 2.
Proof.
  unfold endpoint_variants. intros Hin.
  apply elem_of_zip_r in Hin. apply elem_of_seqZ in Hin.
  rewrite length_app, length_map in Hin. cbn in Hin. lia.
Qed.

Lemma length_endpoint_table `{Schema} :
  Z.of_nat (length endpoint_table) = n_eps + 3.
Proof. unfold endpoint_table, n_eps. rewrite length_app. cbn. lia. Qed.

Lemma length_type_table `{Schema} : Z.of_nat (length type_table) = n_tys + 10.
Proof. unfold type_table, n_tys. rewrite length_app. cbn. lia. Qed.

Lemma load_merged_types base overlay cfg :
  load_merged_schema base overlay = Ok cfg ->
  tc_types cfg = tc_types base ++ from_option tc_types [] overlay
  /\ length (tc_endpoints cfg)
     = (length (tc_endpoints base) + length (from_option tc_endpoints [] overlay))%nat.
Proof.
  unfold load_merged_schema. destruct overlay as [o|]; cbn.
  - unfold merge_ipc_overlay. intros H. repeat res_step. injection H as <-. cbn.
    by rewrite length_app, !length_map.
  - intros [= <-]. cbn. rewrite app_nil_r, length_map. split; [done|lia].
Qed.

Lemma load_merged_in_range base overlay cfg :
  load_merged_schema base overlay = Ok cfg ->
  config_in_range base -> (forall o, overlay = Some o -> config_in_range o) ->
  Forall type_in_range (tc_types cfg)
  /\ Z.of_nat (length (tc_endpoints cfg)) < 2 ^ 32 - 3
  /\ Z.of_nat (length (tc_types cfg)) < 2 ^ 32 - 10.
Proof.
  intros [-> Hlen]%load_merged_types (Hb & Hbe & Hbt) Ho.
  destruct overlay as [o|]; cbn in *.
  - destruct (Ho o eq_refl) as (Hf & He & Ht).
    rewrite Forall_app, length_app, Hlen. split_and!; [done|done|lia|lia].
  - rewrite app_nil_r, Hlen. split_and!; [done|lia|lia].
Qed.

Lemma message_meta_of_ok `{Schema} eps ty m :
  n_eps = Z.of_nat (length eps) ->
  type_in_range ty -> message_meta_of eps ty = Ok m -> meta_ok m.
Proof.
  intros Hn [Hp Hel] Hm. unfold message_meta_of in Hm. repeat res_step.
  injection Hm as <-. unfold meta_ok; cbn. split; [|split].
  - match goal with H : mapM_res _ _ = Ok _ |- _ => apply mapM_res_forall2 in H; rename H into Hr end.
    clear -Hn Hr. induction Hr as [|s e ss es Hs Hr IH]; constructor; auto.
    apply resolve_in, endpoint_variants_range in Hs.
    unfold valid_ep, MAX_VALUE_DATA_ENDPOINT. rewrite length_endpoint_table. lia.
  - match goal with H : element_of _ _ = Ok _ |- _ => rename H into He end.
    destruct (jt_element ty); cbn in He; res_step; injection He as <-; cbn; [done|zlia].
  - destruct (jt_priority ty) as [p|]; cbn; [auto|zlia].
Qed.

Lemma mk_meta_ok `{Schema} name el ep r prio :
  valid_ep ep -> 0 <= element_into el <= usize_max -> is_u8 prio ->
  meta_ok (mk_meta name el ep r prio).
Proof. intros. split_and!; cbn; [by apply Forall_singleton|lia..|done]. Qed.

Lemma builtin_eps_valid `{Schema} :
  valid_ep EpTimeSync /\ valid_ep EpDiscovery /\ valid_ep EpTelemetryError.
Proof.
  assert (0 <= n_eps) by (unfold n_eps; lia).
  unfold valid_ep, MAX_VALUE_DATA_ENDPOINT. rewrite length_endpoint_table.
  unfold EpTimeSync, EpDiscovery, EpTelemetryError. lia.
Qed.

Lemma builtin_types_ok `{Schema} : Forall meta_ok builtin_types.
Proof.
  destruct builtin_eps_valid as (?&?&?). unfold builtin_types.
  repeat (apply List.Forall_cons; [apply mk_meta_ok; cbn; [done|zlia..]|]).
  apply List.Forall_nil.
Qed.

(** C40. Every schema the macro accepts gives well-formed tables: all
    endpoint references of all message types (built-in ones included) are
    discriminants of [DataEndpoint], element counts and priorities fit their
    fields, discriminants fit [u32], and the maxima the macro emits agree with
    the [COUNT]-derived ones of the crate root. *)
Theorem define_telemetry_schema_ok valid_ident base overlay sc :
  config_in_range base -> (forall o, overlay = Some o -> config_in_range o) ->
  define_telemetry_schema valid_ident base overlay = Ok sc ->
  SchemaOk sc
  /\ @macro_max_ep_value sc = @MAX_VALUE_DATA_ENDPOINT sc
  /\ @macro_max_ty_value sc = @MAX_VALUE_DATA_TYPE sc.
Proof.
  intros Hb Ho H. unfold define_telemetry_schema in H. apply bind_ok in H as (cfg & Hcfg & H).
  destruct (load_merged_in_range _ _ _ Hcfg Hb Ho) as (Hty & Hne & Hnt).
  do 4 res_step. destruct (negb _); [done|]. res_step. injection H as <-.
  match goal with H : mapM_res _ _ = Ok ?m |- _ => rename H into Hr, m into metas end.
  apply mapM_res_forall2 in Hr.
  set (sc := {| user_endpoints := _; user_types := metas |}).
  assert (@n_eps sc = Z.of_nat (length (tc_endpoints cfg))) as Hn
    by (unfold n_eps; cbn; by rewrite length_map).
  assert (@n_tys sc = Z.of_nat (length (tc_types cfg))) as Hn'
    by (unfold n_tys; cbn; by rewrite (Forall2_length _ _ _ Hr)).
  unfold macro_max_ep_value, macro_max_ty_value.
  split; [constructor|]; unfold MAX_VALUE_DATA_ENDPOINT, MAX_VALUE_DATA_TYPE;
    rewrite ?length_endpoint_table, ?length_type_table; [|zlia..].
  apply Forall_app. split; [cbn|apply builtin_types_ok].
  clear -Hty Hr Hn. induction Hr as [|ty m tys ms Hm Hr IH]; [constructor|].
  inv Hty. constructor; [by eapply message_meta_of_ok|auto].
Qed.

Lemma resolve_zip_find (eps : list JsonEndpoint) (rest : list string) r k n e :
  resolve (zip (map je_rust eps ++ rest) (seqZ k n)) r = Ok e ->
  e < k + Z.of_nat (length eps) ->
  exists ep, eps !! Z.to_nat (e - k) = Some ep
    /\ k <= e
    /\ List.find (fun ep => String.eqb (je_rust ep) r) eps = Some ep.
Proof.
  revert k n. induction eps as [|ep eps IH]; intros k n Hr He; cbn in He.
  - apply resolve_in, elem_of_zip_r, elem_of_seqZ in Hr. lia.
  - destruct (decide (0 < n)) as [Hn|Hn]; [|by rewrite seqZ_nil in Hr by lia].
    rewrite seqZ_cons in Hr by lia. cbn in Hr |- *.
    destruct (String.eqb (je_rust ep) r).
    + injection Hr as <-. exists ep. rewrite Z.sub_diag. split_and!; [done|lia|done].
    + apply IH in Hr as (ep' & Hl & Hk & Hf); [|lia]. exists ep'.
      replace (Z.to_nat (e - k)) with (S (Z.to_nat (e - Z.succ k))) by lia.
      split_and!; [done|lia|done].
Qed.

Lemma variants_link_local `{Schema} eps r e :
  user_endpoints = map endpoint_meta_of eps ->
  resolve (endpoint_variants eps) r = Ok e -> e < n_eps ->
  exists ep, List.find (fun ep => String.eqb (je_rust ep) r) eps = Some ep
    /\ is_link_local_only e = default false (je_link_local_only ep).
Proof.
  intros Hu Hr He. unfold n_eps in He. rewrite Hu, length_map in He.
  apply resolve_zip_find in Hr as (ep & Hl & Hk & Hf); [|lia].
  exists ep. split; [done|]. rewrite Z.sub_0_r in Hl.
  unfold is_link_local_only, get_endpoint_meta, endpoint_table. rewrite Hu.
  assert (map endpoint_meta_of eps !! Z.to_nat e = Some (endpoint_meta_of ep)) as Hm
    by (by rewrite list_lookup_fmap, Hl).
  erewrite nth_lookup_Some; [|by apply lookup_app_l_Some]. done.
Qed.

Lemma not_mixed_uniform eps ty r1 r2 ep1 ep2 :
  mixes_link_local eps ty = false ->
  r1 ∈ jt_endpoints ty -> r2 ∈ jt_endpoints ty ->
  List.find (fun ep => String.eqb (je_rust ep) r1) eps = Some ep1 ->
  List.find (fun ep => String.eqb (je_rust ep) r2) eps = Some ep2 ->
  default false (je_link_local_only ep1) = true ->
  default false (je_link_local_only ep2) = true.
Proof.
  unfold mixes_link_local. intros Hm H1 H2 Hf1 Hf2 Ht.
  destruct (default false (je_link_local_only ep2)) eqn:Ht2; [done|].
  apply andb_false_iff in Hm as [Hm|Hm]; exfalso;
    apply not_true_iff_false in Hm; apply Hm, existsb_exists;
    [exists r1; rewrite Hf1, Ht|exists r2; rewrite Hf2, Ht2];
    (split; [by apply list_elem_of_In|by rewrite bool_decide_true]).
Qed.

(** In a generated schema no user type mixes link-local-only and
    ordinary user endpoints. *)
Theorem user_type_link_local_uniform valid_ident base overlay sc m e1 e2 :
  define_telemetry_schema valid_ident base overlay = Ok sc ->
  m ∈ @user_types sc -> e1 ∈ endpoints m -> e2 ∈ endpoints m ->
  e1 < @n_eps sc -> e2 < @n_eps sc ->
  @is_link_local_only sc e1 = @is_link_local_only sc e2.
Proof.
  intros H Hm He1 He2 Hn1 Hn2. unfold define_telemetry_schema in H.
  apply bind_ok in H as (cfg & _ & H). do 3 res_step. apply bind_ok in H as (u & Hct & H).
  destruct u. apply all_ok_forall in Hct. destruct (negb _); [done|]. res_step.
  injection H as <-. match goal with H : mapM_res _ _ = Ok _ |- _ => rename H into Hr end.
  apply mapM_res_forall2 in Hr. cbn in Hm.
  destruct (Forall2_elem_of_r _ _ _ _ Hm Hr) as (ty & Hty & Hmeta).
  rewrite Forall_forall in Hct. specialize (Hct ty Hty). unfold check_type in Hct.
  apply bind_ok in Hct as (? & _ & Hct). destruct (mixes_link_local _ _) eqn:Hmix; [done|].
  unfold message_meta_of in Hmeta. repeat (apply bind_ok in Hmeta as (? & ? & Hmeta)).
  injection Hmeta as <-. cbn in He1, He2.
  match goal with H : mapM_res _ _ = Ok _ |- _ => apply mapM_res_forall2 in H; rename H into Hs end.
  pose proof (Forall2_elem_of_r _ _ _ _ He1 Hs) as Hr1.
  pose proof (Forall2_elem_of_r _ _ _ _ He2 Hs) as Hr2.
  destruct Hr1 as (r1 & Hr1 & Hv1), Hr2 as (r2 & Hr2 & Hv2).
  set (sc := {| user_endpoints := _; user_types := _ |}) in *.
  apply (variants_link_local (H:=sc)) in Hv1 as (ep1 & Hf1 & ->); [|done|done].
  apply (variants_link_local (H:=sc)) in Hv2 as (ep2 & Hf2 & ->); [|done|done].
  destruct (default false (je_link_local_only ep1)) eqn:E1,
    (default false (je_link_local_only ep2)) eqn:E2; try done; exfalso.
  - pose proof (not_mixed_uniform _ _ r1 r2 _ _ Hmix Hr1 Hr2 Hf1 Hf2 E1). congruence.
  - pose proof (not_mixed_uniform _ _ r2 r1 _ _ Hmix Hr2 Hr1 Hf2 Hf1 E2). congruence.
Qed.

Lemma default_schema_ok : SchemaOk default_schema.
Proof.
  constructor; [|vm_compute; discriminate..].
  repeat (apply List.Forall_cons;
    [split; [repeat constructor; vm_compute; discriminate
            |split; [vm_compute; split; discriminate|vm_compute; split; done]]|]).
  apply List.Forall_nil.
Qed.

(** ** Witness: the shipped schema *)

Lemma telemetry_config_in_range : config_in_range telemetry_config_json.
Proof.
  split; [|split; vm_compute; reflexivity].
  repeat (apply List.Forall_cons; [split; [by intros ? [=]|vm_compute; try split; done || discriminate]|]).
  apply List.Forall_nil.
Qed.

Lemma define_telemetry_schema_ok_witness :
  SchemaOk default_schema /\ @macro_max_ty_value default_schema = 16.
Proof.
  destruct (define_telemetry_schema_ok simple_ident telemetry_config_json None default_schema
    telemetry_config_in_range ltac:(intros o [=]) default_schema_generated) as (Hok & _ & Hty).
  split; [exact Hok|rewrite Hty; vm_compute; reflexivity].
Defined.

Lemma user_type_link_local_uniform_witness :
  @is_link_local_only default_schema 0 = @is_link_local_only default_schema 1.
Proof.
  apply (user_type_link_local_uniform simple_ident telemetry_config_json None default_schema
    (nth 0 (@user_types default_schema) (@mk_meta "" (Static 0 NoData Data) 0 RelNone 0)) 0 1 default_schema_generated);
    vm_compute; try reflexivity; [left|right; left|left].
Defined.
