(* ===== verification/Queue.v ===== *)
(** * The bounded byte-budgeted deque ([src/queue.rs])

    [BoundedDeque<T>] is the queue under every RX/TX path of the router and
    the relay: a [VecDeque] with a byte budget, a hard element cap and two
    insertion disciplines, FIFO with front eviction and priority order with
    tail eviction. The state is the element list, the allocated capacity and
    the byte counter the code maintains incrementally. *)

From S2P Require Import Prelude Telemetry.

(** [trait ByteCost], with the [size_of::<T>()] the constructor uses. *)
Class ByteCost (T : Type) := {
  byte_cost : T -> Z;
  size_of : Z
}.

(** ** [float_to_ratio] *)

(** [x as usize] of an [f64]: truncation, saturating, NaN is 0. *)
Definition f64_to_usize (x : f64) : Z :=
  match x with
  | S754_zero _ => 0
  | S754_infinity s => if s then 0 else usize_max
  | S754_nan => 0
  | S754_finite s m e =>
      if s then 0
      else Z.min usize_max (if 0 <=? e then Zpos m * 2 ^ e else Zpos m / 2 ^ (- e))
  end.

(** [f64::clamp]: NaN stays NaN. *)
Definition f64_clamp (x lo hi : f64) : f64 :=
  if SFltb x lo then lo else if SFltb hi x then hi else x.

Definition f64_1_01 : f64 := S754_finite false 4548635623644201 (-52).

Definition GROW_DEN : Z := 1024.

Definition float_to_ratio (mult : f64) : Z * Z :=
  let mult := f64_clamp mult f64_1_01 (f64_of_Z 16) in
  let num := f64_to_usize (f64_mul mult (f64_of_Z GROW_DEN)) in
  let num := Z.max num (GROW_DEN + 1) in
  (num, GROW_DEN).

Record BoundedDeque (T : Type) := {
  q : list T;
  capacity : Z;
  max_bytes : Z;
  cur_bytes : Z;
  max_elems : Z;
  grow_num : Z;
  grow_den : Z
}.
#[global] Arguments q {T}. #[global] Arguments capacity {T}.
#[global] Arguments max_bytes {T}. #[global] Arguments cur_bytes {T}.
#[global] Arguments max_elems {T}. #[global] Arguments grow_num {T}.
#[global] Arguments grow_den {T}.

Section Deque.
Context {T : Type} `{ByteCost T}.
Implicit Types (st : BoundedDeque T) (v : T).

Definition set_q st (l : list T) (bytes : Z) : BoundedDeque T :=
  {| q := l; capacity := capacity st; max_bytes := max_bytes st; cur_bytes := bytes;
     max_elems := max_elems st; grow_num := grow_num st; grow_den := grow_den st |}.

Definition set_capacity st (c : Z) : BoundedDeque T :=
  {| q := q st; capacity := c; max_bytes := max_bytes st; cur_bytes := cur_bytes st;
     max_elems := max_elems st; grow_num := grow_num st; grow_den := grow_den st |}.

Definition len st : Z := Z.of_nat (length (q st)).
Definition is_empty st : bool := match q st with [] => true | _ => false end.

(** ** The [VecDeque] underneath

    Allocation requests are met exactly; zero-sized elements need none. *)
Definition vd_with_capacity (n : Z) : Z := if size_of =? 0 then usize_max else n.

Definition vd_reserve_exact st (additional : Z) : BoundedDeque T :=
  let required := len st + additional in
  if required <=? capacity st then st else set_capacity st required.

(** [VecDeque::push_back]/[insert] of a full deque doubles the allocation. *)
Definition min_non_zero_cap : Z :=
  if size_of =? 1 then 8 else if size_of <=? 1024 then 4 else 1.

Definition vd_grow_if_full st : BoundedDeque T :=
  if len st =? capacity st
  then set_capacity st (Z.max (Z.max (2 * capacity st) (capacity st + 1)) min_non_zero_cap)
  else st.

Definition vd_insert st (idx : nat) v : BoundedDeque T :=
  let st := vd_grow_if_full st in
  set_q st (take idx (q st) ++ v :: drop idx (q st)) (cur_bytes st).

Definition vd_push_back st v : BoundedDeque T :=
  let st := vd_grow_if_full st in
  set_q st (q st ++ [v]) (cur_bytes st).

(** ** Construction *)

Definition new (max_bytes starting_bytes : Z) (grow_mult : f64) : TelemetryResult (BoundedDeque T) :=
  if max_bytes <? starting_bytes then Panic
  else if max_bytes =? 0 then Panic
  else if SFleb grow_mult (f64_of_Z 1) then Panic
  else
    let min_cost := Z.max size_of 1 in
    let max_elems := Z.max (max_bytes / min_cost) 1 in
    let starting_elems := starting_bytes / min_cost in
    let start_cap := clampZ 1 max_elems starting_elems in
    let '(num, den) := float_to_ratio grow_mult in
    Ok {| q := []; capacity := vd_with_capacity start_cap; max_bytes := max_bytes;
          cur_bytes := 0; max_elems := max_elems; grow_num := num; grow_den := den |}.

Definition clear st : BoundedDeque T := set_q st [] 0.
Definition bytes_used st : Z := cur_bytes st.

(** ** Removal *)

Definition pop_front st : option T * BoundedDeque T :=
  match q st with
  | [] => (None, st)
  | v :: l => (Some v, set_q st l (sat_sub (cur_bytes st) (byte_cost v)))
  end.

Definition pop_back st : option T * BoundedDeque T :=
  match last (q st) with
  | None => (None, st)
  | Some v => (Some v, set_q st (removelast (q st)) (sat_sub (cur_bytes st) (byte_cost v)))
  end.

Definition remove_pos st (idx : nat) : option T * BoundedDeque T :=
  match q st !! idx with
  | None => (None, st)
  | Some v =>
      (Some v, set_q st (take idx (q st) ++ drop (S idx) (q st))
                 (sat_sub (cur_bytes st) (byte_cost v)))
  end.

(** [iter().position(p)]. *)
Fixpoint position {A} (p : A -> bool) (l : list A) : option nat :=
  match l with
  | [] => None
  | x :: l => if p x then Some O else S <$> position p l
  end.

Definition contains (eqb : T -> T -> bool) st v : bool := existsb (fun x => eqb x v) (q st).

Definition remove_value (eqb : T -> T -> bool) st v : BoundedDeque T :=
  match position (fun x => eqb x v) (q st) with
  | Some idx => snd (remove_pos st idx)
  | None => st
  end.

(** The loop of [retain]; [fuel] bounds [len - idx], which each turn lowers. *)
Fixpoint retain_loop (fuel : nat) (keep : T -> bool) (idx : nat) st : BoundedDeque T :=
  match fuel with
  | O => st
  | S fuel =>
      match q st !! idx with
      | None => st
      | Some v =>
          if keep v then retain_loop fuel keep (S idx) st
          else retain_loop fuel keep idx (snd (remove_pos st idx))
      end
  end.

Definition retain (keep : T -> bool) st : BoundedDeque T :=
  retain_loop (length (q st)) keep 0 st.

(** ** Insertion *)

Definition ensure_room_for_one st : BoundedDeque T :=
  let len := len st in
  let cap := capacity st in
  if len <? cap then st
  else if max_elems st <=? len then snd (pop_front st)
  else if max_elems st <=? cap then snd (pop_front st)
  else
    let scaled := sat_add64 (sat_mul64 cap (grow_num st)) (grow_den st - 1) in
    let target_cap := scaled / grow_den st in
    let target_cap := Z.max target_cap (cap + 1) in
    let target_cap := Z.min target_cap (max_elems st) in
    let add := sat_sub target_cap cap in
    if 0 <? add then vd_reserve_exact st add else snd (pop_front st).

(** [while !q.is_empty() && cur_bytes + cost > max_bytes { pop_front }];
    [fuel] bounds the number of elements. *)
Fixpoint evict_front (fuel : nat) (cost : Z) st : BoundedDeque T :=
  match fuel with
  | O => st
  | S fuel =>
      if negb (is_empty st) && (max_bytes st <? wrap 64 (cur_bytes st + cost))
      then evict_front fuel cost (snd (pop_front st))
      else st
  end.

Definition too_large : TelemetryError := PacketTooLarge "Item exceeds maximum byte budget".
Definition saturated : TelemetryError := Io "priority queue saturated".

Definition prepare_push_fifo st (cost : Z) : BoundedDeque T * TelemetryResult unit :=
  if max_bytes st <? cost then (st, Err too_large)
  else
    let st := evict_front (length (q st)) cost st in
    let st := if max_elems st <=? len st then snd (pop_front st) else st in
    (ensure_room_for_one st, Ok tt).

Definition push_back st v : BoundedDeque T * TelemetryResult unit :=
  let cost := byte_cost v in
  match prepare_push_fifo st cost with
  | (st, Ok _) =>
      let st := vd_push_back st v in
      (set_q st (q st) (sat_add64 (cur_bytes st) cost), Ok tt)
  | (st, r) => (st, r)
  end.

Section Prioritized.
Context (priority_of : T -> Z).

Definition tail_priority st : Z :=
  match last (q st) with Some v => priority_of v | None => 0 end.

(** The eviction loop: [Err] as soon as the tail outranks the new item. *)
Fixpoint evict_back (fuel : nat) (cost new_priority : Z) st
    : BoundedDeque T * TelemetryResult unit :=
  match fuel with
  | O => (st, Ok tt)
  | S fuel =>
      if negb (is_empty st) && (max_bytes st <? wrap 64 (cur_bytes st + cost))
      then if new_priority <? tail_priority st then (st, Err saturated)
           else evict_back fuel cost new_priority (snd (pop_back st))
      else (st, Ok tt)
  end.

Definition push_back_prioritized st v : BoundedDeque T * TelemetryResult unit :=
  let cost := byte_cost v in
  if max_bytes st <? cost then (st, Err too_large)
  else
    let new_priority := priority_of v in
    match evict_back (length (q st)) cost new_priority st with
    | (st, Ok _) =>
        let '(st, r) :=
          if max_elems st <=? len st
          then if new_priority <? tail_priority st then (st, Err saturated)
               else (snd (pop_back st), Ok tt)
          else (st, Ok tt) in
        match r with
        | Ok _ =>
            let st := ensure_room_for_one st in
            let st :=
              match position (fun existing => priority_of existing <? new_priority) (q st) with
              | Some idx => vd_insert st idx v
              | None => vd_push_back st v
              end in
            (set_q st (q st) (sat_add64 (cur_bytes st) cost), Ok tt)
        | _ => (st, r)
        end
    | (st, r) => (st, r)
    end.
End Prioritized.
End Deque.

(** ** The abstract queue: byte totals, fit, and the invariant *)

Section Spec.
Context {T : Type} `{ByteCost T}.
Implicit Types (st : BoundedDeque T) (v : T) (l : list T).

Fixpoint total (l : list T) : Z :=
  match l with [] => 0 | v :: l => byte_cost v + total l end.

Definition cost_ok v : Prop := 0 <= byte_cost v.

(** [l] leaves room for one more element of cost [cost]. *)
Definition fits st (cost : Z) l : Prop :=
  total l + cost <= max_bytes st /\ Z.of_nat (length l) < max_elems st.

Record bd_inv st : Prop := {
  bi_bytes : cur_bytes st = total (q st);
  bi_budget : cur_bytes st <= max_bytes st;
  bi_len : len st <= max_elems st;
  bi_cap : len st <= capacity st;
  bi_capmax : size_of <> 0 -> capacity st <= max_elems st;
  bi_elems : 1 <= max_elems st;
  bi_max : 0 < max_bytes st <= isize_max;
  bi_cost : Forall cost_ok (q st);
  bi_grow : 1 <= grow_den st
}.

Lemma total_app l k : total (l ++ k) = total l + total k.
Proof. induction l; cbn; lia. Qed.

Lemma total_nonneg l : Forall cost_ok l -> 0 <= total l.
Proof. unfold cost_ok. induction 1; cbn; lia. Qed.

Lemma total_drop_le l n : Forall cost_ok l -> total (drop n l) <= total l.
Proof.
  intros Hl. rewrite <- (take_drop n l) at 2. rewrite total_app.
  pose proof (total_nonneg (take n l) (Forall_take _ _ _ Hl)). lia.
Qed.

Lemma total_take_le l n : Forall cost_ok l -> total (take n l) <= total l.
Proof.
  intros Hl. rewrite <- (take_drop n l) at 2. rewrite total_app.
  pose proof (total_nonneg (drop n l) (Forall_drop _ _ _ Hl)). lia.
Qed.

Lemma set_q_id st : set_q st (q st) (cur_bytes st) = st.
Proof. by destruct st. Qed.

Lemma set_q_set_q st l b l' b' : set_q (set_q st l b) l' b' = set_q st l' b'.
Proof. done. Qed.

(** Replacing the contents by a sublist with the matching total. *)
Lemma bd_inv_sub st l :
  bd_inv st -> (length l <= length (q st))%nat -> total l <= total (q st) ->
  Forall cost_ok l -> bd_inv (set_q st l (total l)).
Proof.
  intros [] Hlen Htot Hc. unfold len in *.
  constructor; cbn; unfold len; cbn; try done; lia.
Qed.

Lemma bd_inv_drop st n : bd_inv st -> bd_inv (set_q st (drop n (q st)) (total (drop n (q st)))).
Proof.
  intros Hi. apply bd_inv_sub; [done|rewrite length_drop; lia| |].
  - apply total_drop_le, Hi. - apply Forall_drop, Hi.
Qed.

Lemma bd_inv_take st n : bd_inv st -> bd_inv (set_q st (take n (q st)) (total (take n (q st)))).
Proof.
  intros Hi. apply bd_inv_sub; [done|rewrite length_take; lia| |].
  - apply total_take_le, Hi. - apply Forall_take, Hi.
Qed.

Lemma pop_front_spec st :
  bd_inv st ->
  pop_front st = (head (q st), set_q st (drop 1 (q st)) (total (drop 1 (q st)))).
Proof.
  intros []. unfold pop_front. destruct st as [[|v l] c mb cb me gn gd]; cbn in *.
  - by subst.
  - inv bi_cost0 as [|?? Hv Hl]. pose proof (total_nonneg l Hl).
    unfold cost_ok in Hv. rewrite sat_sub_ge by lia. repeat f_equal. rewrite drop_0. lia.
Qed.

Lemma removelast_take l : removelast l = take (pred (length l)) l.
Proof. rewrite removelast_firstn_len. done. Qed.

Lemma pop_back_spec st :
  bd_inv st ->
  pop_back st =
  (last (q st), set_q st (take (pred (length (q st))) (q st))
                  (total (take (pred (length (q st))) (q st)))).
Proof.
  intros []. unfold pop_back. destruct (last (q st)) as [v|] eqn:E.
  - apply last_Some in E as [l E]. rewrite removelast_take.
    rewrite bi_bytes0, E in *. rewrite length_app, Nat.add_comm; cbn.
    rewrite take_app_length, total_app; cbn.
    apply Forall_app in bi_cost0 as [Hl Hv]. inv Hv as [|?? Hv' _].
    pose proof (total_nonneg l Hl). unfold cost_ok in Hv'.
    rewrite sat_sub_ge by lia. repeat f_equal. lia.
  - apply last_None in E. rewrite <- (set_q_id st) at 1. rewrite bi_bytes0, E. done.
Qed.

Lemma remove_pos_spec st i v :
  bd_inv st -> q st !! i = Some v ->
  remove_pos st i = (Some v, set_q st (delete i (q st)) (total (delete i (q st)))).
Proof.
  intros [] Hv. unfold remove_pos. rewrite Hv. rewrite delete_take_drop, total_app.
  rewrite bi_bytes0. repeat f_equal.
  rewrite <- (take_drop_middle _ _ _ Hv) at 1. rewrite total_app; cbn.
  pose proof (total_nonneg _ (Forall_take _ i _ bi_cost0)).
  pose proof (total_nonneg _ (Forall_drop _ (S i) _ bi_cost0)).
  rewrite sat_sub_ge by lia. lia.
Qed.

Lemma bd_inv_delete st i v :
  bd_inv st -> q st !! i = Some v ->
  bd_inv (set_q st (delete i (q st)) (total (delete i (q st)))).
Proof.
  intros Hi Hv. pose proof (bi_cost _ Hi) as Hc. apply bd_inv_sub; [done| | |].
  - rewrite length_delete by done. lia.
  - rewrite delete_take_drop. rewrite <- (take_drop_middle _ _ _ Hv) at 3.
    rewrite !total_app; cbn. pose proof (proj1 (Forall_lookup _ _) Hc i v Hv) as Hcv.
    unfold cost_ok in Hcv. lia.
  - rewrite delete_take_drop. apply Forall_app. auto using Forall_take, Forall_drop.
Qed.

(** ** Room for one more *)

Lemma ensure_room_spec st :
  bd_inv st -> len st < max_elems st ->
  exists c, ensure_room_for_one st = set_capacity st c
    /\ len st < c /\ (size_of <> 0 -> c <= max_elems st).
Proof.
  intros [] Hlen. unfold ensure_room_for_one.
  destruct (Z.ltb_spec (len st) (capacity st)) as [Hc|Hc].
  { exists (capacity st). by destruct st. }
  destruct (Z.leb_spec (max_elems st) (len st)); [lia|].
  destruct (Z.leb_spec (max_elems st) (capacity st)); [lia|].
  set (target := Z.min _ _).
  assert (capacity st < target <= max_elems st) as Ht by lia.
  destruct (Z.ltb_spec 0 (sat_sub target (capacity st))) as [Ha|Ha];
    [|unfold sat_sub in Ha; lia].
  unfold vd_reserve_exact. rewrite sat_sub_ge by lia.
  destruct (Z.leb_spec (len st + (target - capacity st)) (capacity st)); [lia|].
  exists (len st + (target - capacity st)). split; [done|lia].
Qed.

(** ** FIFO eviction *)

Lemma evict_front_spec fuel cost st :
  bd_inv st -> 0 <= cost <= max_bytes st -> (length (q st) <= fuel)%nat ->
  exists k,
    evict_front fuel cost st = set_q st (drop k (q st)) (total (drop k (q st)))
    /\ (k <= length (q st))%nat
    /\ total (drop k (q st)) + cost <= max_bytes st
    /\ forall j, (j < k)%nat -> max_bytes st < total (drop j (q st)) + cost.
Proof.
  revert st. induction fuel as [|fuel IH]; intros st Hi Hcost Hf; cbn.
  - destruct (q st) eqn:E; [|cbn in Hf; lia]. exists O. cbn.
    rewrite <- (set_q_id st) at 1. rewrite (bi_bytes _ Hi), E. cbn.
    split_and!; [done|lia|lia|lia].
  - assert (wrap 64 (cur_bytes st + cost) = cur_bytes st + cost) as ->.
    { apply wrap_small. destruct Hi. pose proof (total_nonneg _ bi_cost0). zlia. }
    rewrite (bi_bytes _ Hi).
    destruct (negb (is_empty st) && (max_bytes st <? total (q st) + cost)) eqn:E.
    + apply andb_true_iff in E as [He Hlt]. apply Z.ltb_lt in Hlt.
      rewrite pop_front_spec by done. cbn [snd].
      pose proof (bd_inv_drop st 1 Hi) as Hi'.
      destruct (IH _ Hi' Hcost) as (k & -> & Hk & Hfit & Hmin).
      { cbn. rewrite length_drop. unfold is_empty in He. destruct (q st); cbn in *; [done|lia]. }
      cbn in *. rewrite drop_drop in *. rewrite length_drop in Hk.
      assert (length (q st) <> O) by (unfold is_empty in He; by destruct (q st)).
      exists (1 + k)%nat. split_and!; [done|lia|done|].
      intros [|j] Hj; [done|]. specialize (Hmin j ltac:(lia)). rewrite drop_drop in Hmin. done.
    + exists O. rewrite drop_0. split_and!; [|lia| |lia].
      * by rewrite <- (bi_bytes _ Hi), set_q_id.
      * apply andb_false_iff in E as [He|Hlt].
        -- unfold is_empty in He. destruct (q st); cbn; [lia|done].
        -- apply Z.ltb_ge in Hlt. lia.
Qed.

(** The number of front elements a FIFO push evicts. *)
Definition evicts st (cost : Z) (k : nat) : Prop :=
  (k <= length (q st))%nat /\ fits st cost (drop k (q st))
  /\ forall j, (j < k)%nat -> ~ fits st cost (drop j (q st)).

Lemma prepare_push_fifo_spec st cost :
  bd_inv st -> 0 <= cost <= max_bytes st ->
  exists k c,
    prepare_push_fifo st cost
    = (set_capacity (set_q st (drop k (q st)) (total (drop k (q st)))) c, Ok tt)
    /\ evicts st cost k
    /\ Z.of_nat (length (drop k (q st))) < c /\ (size_of <> 0 -> c <= max_elems st).
Proof.
  intros Hi Hcost. unfold prepare_push_fifo.
  destruct (Z.ltb_spec (max_bytes st) cost); [lia|].
  destruct (evict_front_spec (length (q st)) cost st Hi Hcost (Nat.le_refl _))
    as (k & -> & Hk & Hfit & Hmin).
  pose proof (bd_inv_drop st k Hi) as Hi1.
  set (st1 := set_q st _ _) in *.
  assert (exists k', (if max_elems st1 <=? len st1 then snd (pop_front st1) else st1)
      = set_q st (drop k' (q st)) (total (drop k' (q st))) /\ evicts st cost k')
    as (k' & -> & Hev).
  { destruct (Z.leb_spec (max_elems st1) (len st1)) as [Hl|Hl].
    - rewrite pop_front_spec by done. cbn. rewrite drop_drop. exists (k + 1)%nat.
      split; [done|].
      pose proof (bi_len _ Hi1) as Hl1. pose proof (bi_elems _ Hi) as He.
      unfold len in Hl, Hl1; cbn in Hl, Hl1. rewrite length_drop in Hl, Hl1.
      unfold evicts, fits. rewrite length_drop. split_and!; [lia| |lia|].
      + rewrite <- drop_drop.
        pose proof (total_drop_le (drop k (q st)) 1 (Forall_drop _ _ _ (bi_cost _ Hi))) as Hd.
        clear -Hd Hfit. lia.
      + intros j Hj [Hb Hle]. destruct (decide (j < k)%nat) as [Hjk|Hjk].
        * specialize (Hmin j Hjk). lia.
        * rewrite length_drop in Hle. lia.
    - exists k. split; [done|]. unfold len in Hl; cbn in Hl. unfold evicts, fits.
      split_and!; [done|done|done|]. intros j Hj [Hb _]. specialize (Hmin j Hj). lia. }
  pose proof (bd_inv_drop st k' Hi) as Hi2. destruct Hev as (Hk' & Hf' & Hm').
  destruct (ensure_room_spec _ Hi2) as (c & -> & Hc & Hcm).
  { unfold len; cbn. apply Hf'. }
  exists k', c. split_and!; [done|done|exact Hc|exact Hcm].
Qed.

(** Appending or inserting where there is room: the bookkeeping of both pushes. *)
Lemma bd_inv_insert st l c cost l' v :
  bd_inv st -> Forall cost_ok l -> cost = byte_cost v -> cost_ok v ->
  total l + cost <= max_bytes st -> Z.of_nat (length l) < max_elems st ->
  Z.of_nat (length l) < c -> (size_of <> 0 -> c <= max_elems st) ->
  l' ≡ₚ v :: l ->
  bd_inv (set_q (set_capacity st c) l' (total l + cost)).
Proof.
  intros Hi Hl -> Hv Hb Hn Hc Hcm Hp.
  assert (total l' = byte_cost v + total l) as Ht.
  { clear -Hp. change (byte_cost v + total l) with (total (v :: l)).
    induction Hp; cbn; lia. }
  assert (length l' = S (length l)) as Hlen by (by rewrite Hp).
  destruct Hi. constructor; unfold len; cbn; rewrite ?Ht, ?Hlen; try done; try lia.
  rewrite Hp. by constructor.
Qed.

Lemma sat_add64_small a b : 0 <= a -> 0 <= b -> a + b <= isize_max -> sat_add64 a b = a + b.
Proof. zlia. Qed.

Lemma push_back_spec st v :
  bd_inv st -> cost_ok v -> byte_cost v <= max_bytes st ->
  exists k c,
    push_back st v
    = (set_q (set_capacity st c) (drop k (q st) ++ [v])
             (total (drop k (q st)) + byte_cost v), Ok tt)
    /\ evicts st (byte_cost v) k
    /\ Z.of_nat (length (drop k (q st))) < c /\ (size_of <> 0 -> c <= max_elems st).
Proof.
  intros Hi Hv Hc. unfold push_back.
  destruct (prepare_push_fifo_spec st (byte_cost v) Hi) as (k & c & -> & Hev & Hlen & Hcm);
    [done|]. exists k, c. split_and!; [|done..].
  destruct Hev as (Hk & [Hfit _] & _).
  unfold vd_push_back, vd_grow_if_full, len; cbn.
  zcase. cbn. rewrite set_q_set_q.
  pose proof (total_nonneg _ (Forall_drop _ k _ (bi_cost _ Hi))).
  rewrite sat_add64_small; [done|done|done|]. destruct (bi_max _ Hi). lia.
Qed.
End Spec.

(** FIFO push, on every branch. An item above the byte budget is
    refused and the queue is unchanged; otherwise the new contents are the old
    ones with a minimal prefix evicted (no shorter prefix would have made room
    for both the bytes and the element), followed by the new item, and the
    invariant (exact byte counter within budget, element cap, no reallocation
    beyond the cap) is kept. *)
Theorem push_back_correct {T} `{ByteCost T} (st : BoundedDeque T) v :
  bd_inv st -> cost_ok v ->
  if max_bytes st <? byte_cost v
  then push_back st v = (st, Err too_large)
  else exists k,
    q (fst (push_back st v)) = drop k (q st) ++ [v]
    /\ evicts st (byte_cost v) k
    /\ snd (push_back st v) = Ok tt
    /\ bd_inv (fst (push_back st v)).
Proof.
  intros Hi Hv. destruct (Z.ltb_spec (max_bytes st) (byte_cost v)) as [Hc|Hc].
  - unfold push_back, prepare_push_fifo. by zcase.
  - destruct (push_back_spec st v Hi Hv Hc) as (k & c & -> & Hev & Hlen & Hcm).
    exists k. split_and!; [done|done|done|]. destruct Hev as (Hk & [Hf Hn] & _).
    eapply bd_inv_insert; eauto.
    + apply Forall_drop, Hi. + by rewrite Permutation_app_comm.
Qed.

(** ** Priority insertion *)

Section PrioritySpec.
Context {T : Type} `{ByteCost T} (priority_of : T -> Z).
Implicit Types (st : BoundedDeque T) (v : T) (l : list T).

(** Highest priority first. *)
Definition prio_sorted l : Prop := StronglySorted (fun a b => priority_of b <= priority_of a) l.

Lemma prio_sorted_app l k :
  prio_sorted (l ++ k) <->
  prio_sorted l /\ prio_sorted k
  /\ forall a b, a ∈ l -> b ∈ k -> priority_of b <= priority_of a.
Proof.
  unfold prio_sorted. induction l as [|a l IH]; cbn.
  - split; [|tauto]. intros Hk. split_and!; [constructor|done|]. intros a b []%elem_of_nil.
  - split.
    + intros Hs. inv Hs as [|?? Hs' Ha]. apply IH in Hs' as (Hl & Hk & Hlk).
      apply Forall_app in Ha as [Ha1 Ha2]. rewrite Forall_forall in Ha2.
      split_and!; [by constructor|done|]. intros x y [->|Hx]%elem_of_cons Hy; auto.
    + intros (Hs & Hk & Hlk). inv Hs as [|?? Hs' Ha]. constructor.
      * apply IH. split_and!; [done|done|]. set_solver.
      * apply Forall_app. split; [done|]. apply Forall_forall. set_solver.
Qed.

Lemma prio_sorted_take l n : prio_sorted l -> prio_sorted (take n l).
Proof. rewrite <- (take_drop n l) at 1. intros Hs. by apply prio_sorted_app in Hs as [? _]. Qed.

(** The insertion point of the code, as list insertion. *)
Definition prio_insert v l : list T :=
  match position (fun e => priority_of e <? priority_of v) l with
  | Some i => take i l ++ v :: drop i l
  | None => l ++ [v]
  end.

Lemma position_spec (p : T -> bool) l :
  match position p l with
  | Some i => exists x, l !! i = Some x /\ p x = true /\ Forall (fun y => p y = false) (take i l)
  | None => Forall (fun y => p y = false) l
  end.
Proof.
  induction l as [|x l IH]; cbn; [constructor|].
  destruct (p x) eqn:Hx; [exists x; split_and!; [done|done|constructor]|].
  destruct (position p l) as [i|]; cbn.
  - destruct IH as (y & ? & ? & ?). exists y. split_and!; [done|done|by constructor].
  - by constructor.
Qed.

Lemma prio_insert_perm v l : prio_insert v l ≡ₚ v :: l.
Proof.
  unfold prio_insert. destruct (position _ l) as [i|].
  - rewrite <- Permutation_middle. by rewrite take_drop.
  - by rewrite Permutation_app_comm.
Qed.

(** In a sorted queue the insertion point separates the items of priority at
    least [v]'s from those below. *)
Lemma prio_insert_split v l :
  prio_sorted l ->
  exists hi lo, l = hi ++ lo /\ prio_insert v l = hi ++ v :: lo
    /\ Forall (fun e => priority_of v <= priority_of e) hi
    /\ Forall (fun e => priority_of e < priority_of v) lo.
Proof.
  intros Hs. unfold prio_insert.
  pose proof (position_spec (fun e => priority_of e <? priority_of v) l) as Hp.
  destruct (position _ l) as [i|].
  - destruct Hp as (x & Hi & Hx & Hf). exists (take i l), (drop i l).
    split_and!; [by rewrite take_drop|done| |].
    + eapply Forall_impl; [exact Hf|]. intros y. cbn. intros Hy%Z.ltb_ge. done.
    + rewrite <- (take_drop i l) in Hs. apply prio_sorted_app in Hs as (_ & Hd & _).
      rewrite (drop_S _ _ _ Hi) in *. inv Hd as [|?? _ Hx']. apply Z.ltb_lt in Hx.
      constructor; [done|]. eapply Forall_impl; [exact Hx'|]. cbn. lia.
  - exists l, []. split_and!; [by rewrite app_nil_r|done| |constructor].
    eapply Forall_impl; [exact Hp|]. intros y. cbn. intros Hy%Z.ltb_ge. done.
Qed.

Lemma prio_insert_sorted v l : prio_sorted l -> prio_sorted (prio_insert v l).
Proof.
  intros Hs. destruct (prio_insert_split v l Hs) as (hi & lo & -> & -> & Hhi & Hlo).
  apply prio_sorted_app in Hs as (H1 & H2 & H3). rewrite Forall_forall in Hhi.
  apply prio_sorted_app. split_and!; [done| |].
  - constructor; [done|]. eapply Forall_impl; [exact Hlo|]. cbn. lia.
  - intros a b Ha [->|Hb]%elem_of_cons; auto.
Qed.

(** FIFO among equals: the items of one priority keep their order, and the
    new item comes last among its own. *)
Lemma prio_insert_fifo v l p :
  prio_sorted l ->
  List.filter (fun e => priority_of e =? p) (prio_insert v l)
  = List.filter (fun e => priority_of e =? p) l
    ++ (if priority_of v =? p then [v] else []).
Proof.
  intros Hs. destruct (prio_insert_split v l Hs) as (hi & lo & -> & -> & Hhi & Hlo).
  rewrite !List.filter_app. cbn. destruct (Z.eqb_spec (priority_of v) p) as [<-|Hne].
  - assert (List.filter (fun e => priority_of e =? priority_of v) lo = []) as ->.
    { clear -Hlo. induction Hlo as [|e lo He Hlo IH]; cbn; [done|].
      by zcase. }
    by rewrite app_nil_r.
  - by rewrite app_nil_r.
Qed.
End PrioritySpec.

Section PrioritizedSpec.
Context {T : Type} `{ByteCost T} (priority_of : T -> Z).
Implicit Types (st : BoundedDeque T) (v : T) (l : list T).

(** [k] elements are kept: everything beyond them had at most the new item's
    priority, and keeping any more would not have left room. *)
Definition keeps st (cost prio : Z) (k : nat) : Prop :=
  (k <= length (q st))%nat
  /\ Forall (fun e => priority_of e <= prio) (drop k (q st))
  /\ forall j, (k < j <= length (q st))%nat -> ~ fits st cost (take j (q st)).

(** The last kept element outranks the new item. *)
Definition blocked st (prio : Z) l : Prop :=
  exists w, last l = Some w /\ prio < priority_of w.

Lemma take_pred_drop k l w :
  (k <= length l)%nat -> last (take k l) = Some w ->
  take (pred (length (take k l))) (take k l) = take (pred k) l
  /\ drop (pred k) l = w :: drop k l.
Proof.
  intros Hk Hw. rewrite length_take_le by done. rewrite take_take, Nat.min_l by lia.
  split; [done|]. destruct k as [|k]; [done|]. cbn [pred].
  rewrite last_lookup, length_take_le in Hw by done. cbn in Hw.
  rewrite lookup_take_lt in Hw by lia. by apply drop_S.
Qed.

Lemma keeps_pred st cost prio k w :
  keeps st cost prio k -> last (take k (q st)) = Some w -> priority_of w <= prio ->
  ~ fits st cost (take k (q st)) -> keeps st cost prio (pred k).
Proof.
  intros (Hk & Hf & Hm) Hw Hp Hn. destruct (take_pred_drop k (q st) w Hk Hw) as [_ Hd].
  split_and!; [lia|rewrite Hd; by constructor|].
  intros j Hj. destruct (decide (j = k)) as [->|]; [done|]. apply Hm. lia.
Qed.

Lemma last_take_nonempty k l : (k <= length l)%nat -> (0 < k)%nat -> exists w, last (take k l) = Some w.
Proof.
  intros Hk H0. destruct (last (take k l)) as [w|] eqn:E; [by eexists|].
  apply last_None in E. apply (f_equal length) in E. rewrite length_take_le in E by done.
  cbn in E. lia.
Qed.

(** One eviction from a queue truncated at [k]. *)
Lemma pop_back_take st k w :
  bd_inv st -> (k <= length (q st))%nat -> last (take k (q st)) = Some w ->
  snd (pop_back (set_q st (take k (q st)) (total (take k (q st)))))
  = set_q st (take (pred k) (q st)) (total (take (pred k) (q st))).
Proof.
  intros Hi Hk Hw. rewrite pop_back_spec by (by apply bd_inv_take). cbn [snd q set_q].
  by destruct (take_pred_drop k (q st) w Hk Hw) as [-> _].
Qed.

Lemma evict_back_spec fuel cost prio st k :
  bd_inv st -> 0 <= cost <= max_bytes st -> (k <= fuel)%nat -> keeps st cost prio k ->
  exists k' r,
    evict_back priority_of fuel cost prio (set_q st (take k (q st)) (total (take k (q st))))
    = (set_q st (take k' (q st)) (total (take k' (q st))), r)
    /\ keeps st cost prio k'
    /\ match r with
       | Ok _ => total (take k' (q st)) + cost <= max_bytes st
       | Err e => e = saturated /\ blocked st prio (take k' (q st))
                  /\ ~ fits st cost (take k' (q st))
       | Panic => False
       end.
Proof.
  intros Hi Hcost. revert k. induction fuel as [|fuel IH]; intros k Hf Hk; cbn.
  - exists O, (Ok tt). assert (k = O) as -> by lia. split_and!; [done|done|rewrite take_0; exact (proj2 Hcost)].
  - pose proof (bd_inv_take st k Hi) as Hi'.
    assert (wrap 64 (total (take k (q st)) + cost) = total (take k (q st)) + cost) as ->.
    { apply wrap_small. pose proof (total_nonneg _ (bi_cost _ Hi')) as Hn. cbn in Hn.
      pose proof (bi_budget _ Hi') as Hb. cbn in Hb.
      destruct (bi_max _ Hi). zlia. }
    destruct (negb _ && _) eqn:E.
    + apply andb_true_iff in E as [He Hlt]. apply Z.ltb_lt in Hlt.
      assert (0 < k)%nat as H0.
      { destruct k; [by cbn in He|lia]. }
      destruct (last_take_nonempty k (q st) (proj1 Hk) H0) as [w Hw].
      unfold tail_priority; cbn. rewrite Hw.
      assert (~ fits st cost (take k (q st))) as Hn by (intros [Hb _]; lia).
      destruct (Z.ltb_spec prio (priority_of w)) as [Hp|Hp].
      * exists k, (Err saturated). split_and!; [done|apply Hk..|done|by exists w|done].
      * rewrite (pop_back_take st k w) by (done || apply Hk).
        apply IH; [lia|]. by eapply keeps_pred.
    + exists k, (Ok tt). split_and!; [done|done|].
      apply andb_false_iff in E as [He|Hlt].
      * unfold is_empty in He. cbn in He. destruct (take k (q st)); cbn; [lia|done].
      * apply Z.ltb_ge in Hlt. lia.
Qed.

Lemma vd_place st v c l :
  Z.of_nat (length l) < c ->
  match position (fun e => priority_of e <? priority_of v) l with
  | Some idx => vd_insert (set_capacity (set_q st l (total l)) c) idx v
  | None => vd_push_back (set_capacity (set_q st l (total l)) c) v
  end = set_q (set_capacity st c) (prio_insert priority_of v l) (total l).
Proof.
  intros Hc. unfold prio_insert, vd_insert, vd_push_back, vd_grow_if_full, len. cbn.
  destruct (Z.eqb_spec (Z.of_nat (length l)) c); [lia|]. cbn. by destruct (position _ l).
Qed.
End PrioritizedSpec.

Lemma push_back_prioritized_cases {T} `{ByteCost T} priority_of (st : BoundedDeque T) v :
  bd_inv st -> cost_ok v ->
  if max_bytes st <? byte_cost v
  then push_back_prioritized priority_of st v = (st, Err too_large)
  else exists k,
    keeps priority_of st (byte_cost v) (priority_of v) k
    /\ bd_inv (fst (push_back_prioritized priority_of st v))
    /\ match snd (push_back_prioritized priority_of st v) with
       | Ok _ =>
           fits st (byte_cost v) (take k (q st))
           /\ q (fst (push_back_prioritized priority_of st v))
              = prio_insert priority_of v (take k (q st))
       | Err e =>
           e = saturated /\ blocked priority_of st (priority_of v) (take k (q st))
           /\ ~ fits st (byte_cost v) (take k (q st))
           /\ q (fst (push_back_prioritized priority_of st v)) = take k (q st)
       | Panic => False
       end.
Proof.
  intros Hi Hv. unfold push_back_prioritized.
  destruct (Z.ltb_spec (max_bytes st) (byte_cost v)) as [|Hc]; [done|].
  destruct (evict_back_spec priority_of (length (q st)) (byte_cost v) (priority_of v) st
              (length (q st)) Hi) as (k & r & Heq & Hk & Hr); [done|done| |].
  { split_and!; [done|by rewrite drop_all|lia]. }
  rewrite take_ge in Heq by done. rewrite <- (bi_bytes _ Hi), set_q_id in Heq. rewrite Heq.
  destruct r as [[]|e|]; [| |done].
  2:{ destruct Hr as (-> & Hb & Hn). exists k. cbn. split_and!; try done. by apply bd_inv_take. }
  pose proof (bd_inv_take st k Hi) as Hi1.
  change (len (set_q st (take k (q st)) (total (take k (q st)))))
    with (Z.of_nat (length (take k (q st)))).
  change (max_elems (set_q st (take k (q st)) _)) with (max_elems st).
  destruct (Z.leb_spec (max_elems st) (Z.of_nat (length (take k (q st))))) as [Hl|Hl].
  - assert (~ fits st (byte_cost v) (take k (q st))) as Hn by (intros [_ Hn]; lia).
    assert (0 < k)%nat as H0.
    { pose proof (bi_elems _ Hi). rewrite length_take in Hl. lia. }
    destruct (last_take_nonempty k (q st) (proj1 Hk) H0) as [w Hw].
    unfold tail_priority; cbn. rewrite Hw.
    destruct (Z.ltb_spec (priority_of v) (priority_of w)) as [Hp|Hp].
    { exists k. cbn. split_and!; try done. by exists w. }
    rewrite (pop_back_take st k w) by (done || apply Hk).
    pose proof (keeps_pred _ _ _ _ _ _ Hk Hw Hp Hn) as Hk'.
    assert (fits st (byte_cost v) (take (pred k) (q st))) as Hfit.
    { pose proof (bi_len _ Hi1) as Hl1. unfold len in Hl1. cbn in Hl1. split.
      - pose proof (total_take_le (take k (q st)) (pred k) (Forall_take _ _ _ (bi_cost _ Hi))) as Ht.
        rewrite take_take, Nat.min_l in Ht by lia. clear -Ht Hr. lia.
      - rewrite length_take_le in * by (destruct Hk; lia). clear -H0 Hl1. lia. }
    pose proof (bd_inv_take st (pred k) Hi) as Hi2.
    destruct (ensure_room_spec _ Hi2) as (c & -> & Hc1 & Hc2); [apply Hfit|].
    exists (pred k). cbn [q set_q set_capacity]. rewrite vd_place by exact Hc1. cbn.
    split_and!; [done| |done|done].
    pose proof (total_nonneg _ (bi_cost _ Hi2)) as Hnn. cbn in Hnn.
    rewrite sat_add64_small; [|done|done|destruct Hfit, (bi_max _ Hi); lia].
    eapply bd_inv_insert; eauto; [apply Forall_take, Hi|apply Hfit|apply Hfit|].
    apply prio_insert_perm.
  - assert (fits st (byte_cost v) (take k (q st))) as Hfit by (split; [exact Hr|exact Hl]).
    destruct (ensure_room_spec _ Hi1 Hl) as (c & -> & Hc1 & Hc2).
    exists k. cbn [q set_q set_capacity]. rewrite vd_place by exact Hc1. cbn.
    split_and!; [done| |done|done].
    pose proof (total_nonneg _ (bi_cost _ Hi1)) as Hnn. cbn in Hnn.
    rewrite sat_add64_small; [|done|done|destruct Hfit, (bi_max _ Hi); lia].
    eapply bd_inv_insert; eauto; [apply Forall_take, Hi|].
    apply prio_insert_perm.
Qed.

(** C35. Priority push, on every branch. An oversized item is refused
    unchanged. Otherwise the queue keeps a prefix: everything evicted had at
    most the new item's priority, and no longer prefix would have left room.
    Either there is then room and the item is inserted, or an element that
    outranks it blocks the tail and the push is refused; the invariant holds
    in every case, also after a refusal that has already evicted items. *)
Theorem push_back_prioritized_correct {T} `{ByteCost T} priority_of (st : BoundedDeque T) v :
  bd_inv st -> cost_ok v ->
  if max_bytes st <? byte_cost v
  then push_back_prioritized priority_of st v = (st, Err too_large)
  else exists k,
    keeps priority_of st (byte_cost v) (priority_of v) k
    /\ bd_inv (fst (push_back_prioritized priority_of st v))
    /\ match snd (push_back_prioritized priority_of st v) with
       | Ok _ =>
           fits st (byte_cost v) (take k (q st))
           /\ q (fst (push_back_prioritized priority_of st v))
              = prio_insert priority_of v (take k (q st))
       | Err e =>
           e = saturated /\ blocked priority_of st (priority_of v) (take k (q st))
           /\ ~ fits st (byte_cost v) (take k (q st))
           /\ q (fst (push_back_prioritized priority_of st v)) = take k (q st)
       | Panic => False
       end.
Proof. apply push_back_prioritized_cases. Qed.

(** Priority order is an invariant of the priority push, accepted or
    refused; and service is FIFO within a priority: among the items of one
    priority the survivors keep their order and the new item goes last. *)
Theorem push_back_prioritized_order {T} `{ByteCost T} priority_of (st : BoundedDeque T) v p :
  bd_inv st -> cost_ok v -> prio_sorted priority_of (q st) ->
  let '(st', r) := push_back_prioritized priority_of st v in
  let of_p := List.filter (fun e => priority_of e =? p) in
  prio_sorted priority_of (q st')
  /\ exists k, of_p (q st')
       = of_p (take k (q st)) ++ (if is_ok r && (priority_of v =? p) then [v] else []).
Proof.
  intros Hi Hv Hs. pose proof (push_back_prioritized_cases priority_of st v Hi Hv) as Hc.
  destruct (max_bytes st <? byte_cost v).
  { rewrite Hc. cbn. split; [done|]. exists (length (q st)). by rewrite take_ge, app_nil_r. }
  destruct Hc as (k & _ & _ & Hr). destruct (push_back_prioritized priority_of st v) as [st' r].
  cbn in Hr. pose proof (prio_sorted_take priority_of (q st) k Hs) as Hk.
  destruct r as [u|e|]; [| |done].
  - destruct Hr as [_ ->]. split; [by apply prio_insert_sorted|].
    exists k. rewrite prio_insert_fifo by done. done.
  - destruct Hr as (_ & _ & _ & ->). split; [done|]. exists k. by rewrite app_nil_r.
Qed.

(** ** The other operations *)

Section Others.
Context {T : Type} `{ByteCost T}.
Implicit Types (st : BoundedDeque T) (v : T) (l : list T).

Lemma retain_loop_spec (keep : T -> bool) fuel idx st :
  bd_inv st -> (length (q st) - idx <= fuel)%nat -> (idx <= length (q st))%nat ->
  let l := take idx (q st) ++ List.filter keep (drop idx (q st)) in
  retain_loop fuel keep idx st = set_q st l (total l).
Proof.
  revert idx st. induction fuel as [|fuel IH]; intros idx st Hi Hf Hidx; cbn.
  - rewrite drop_ge, take_ge, app_nil_r by lia. by rewrite <- (bi_bytes _ Hi), set_q_id.
  - destruct (q st !! idx) as [v|] eqn:Hv.
    + pose proof (lookup_lt_Some _ _ _ Hv). rewrite (drop_S _ _ _ Hv); cbn.
      destruct (keep v).
      * rewrite IH by (done || lia). by rewrite (take_S_r _ _ _ Hv), <- app_assoc.
      * rewrite (remove_pos_spec _ _ _ Hi Hv). cbn [snd].
        rewrite IH; [|by eapply bd_inv_delete|cbn; rewrite length_delete by done; lia..].
        cbn. rewrite delete_take_drop.
        assert (length (take idx (q st)) = idx) as Hlen by (rewrite length_take; lia).
        rewrite take_app_length' by done. by rewrite drop_app_length' by done.
    + apply lookup_ge_None in Hv. rewrite drop_ge, take_ge, app_nil_r by lia.
      by rewrite <- (bi_bytes _ Hi), set_q_id.
Qed.

Lemma total_filter_le (keep : T -> bool) l :
  Forall cost_ok l -> total (List.filter keep l) <= total l.
Proof.
  unfold cost_ok. induction 1 as [|x l Hx Hl IH]; cbn; [done|].
  destruct (keep x); cbn; lia.
Qed.

Lemma retain_spec (keep : T -> bool) st :
  bd_inv st ->
  retain keep st = set_q st (List.filter keep (q st)) (total (List.filter keep (q st)))
  /\ bd_inv (retain keep st).
Proof.
  intros Hi. unfold retain. rewrite retain_loop_spec by (done || lia). cbn.
  rewrite drop_0. split; [done|]. apply bd_inv_sub; [done| | |].
  - apply List.filter_length_le. - apply total_filter_le, Hi.
  - apply List.Forall_forall. intros x [Hx _]%List.filter_In.
    pose proof (bi_cost _ Hi) as Hc. rewrite List.Forall_forall in Hc. auto.
Qed.

Lemma float_to_ratio_range g : GROW_DEN < fst (float_to_ratio g) /\ snd (float_to_ratio g) = GROW_DEN.
Proof. unfold float_to_ratio. cbn [fst snd]. split; [lia|done]. Qed.
End Others.

Lemma new_cases {T} `{ByteCost T} mb sb g :
  0 <= sb -> 0 <= mb <= isize_max -> 0 <= size_of ->
  match new (T:=T) mb sb g with
  | Ok st =>
      bd_inv st /\ q st = []
      /\ max_elems st = Z.max (mb / Z.max size_of 1) 1
      /\ grow_den st < grow_num st
  | Err _ => False
  | Panic => mb < sb \/ mb = 0 \/ SFleb g (f64_of_Z 1) = true
  end.
Proof.
  intros Hsb Hmb Hsz. unfold new. zcase; auto.
  destruct (SFleb g (f64_of_Z 1)); [auto|].
  pose proof (float_to_ratio_range g) as [Hn Hd].
  destruct (float_to_ratio g) as [num den]. cbn in Hn, Hd. subst den.
  assert (0 <= mb / Z.max size_of 1) by (apply Z.div_pos; lia).
  split_and!; cbn; [|done|done|lia].
  constructor; unfold len; cbn; try done; try lia.
  - unfold vd_with_capacity. zcase; zlia.
  - unfold vd_with_capacity. zcase. zlia.
Qed.

(** The constructor. It panics exactly on the three misuses the code
    checks; otherwise the queue is empty, satisfies the invariant, its element
    cap is the byte budget over the element size (at least one), and its growth
    ratio is above one. *)
Theorem new_correct {T} `{ByteCost T} mb sb g :
  0 <= sb -> 0 <= mb <= isize_max -> 0 <= size_of ->
  match new (T:=T) mb sb g with
  | Ok st =>
      bd_inv st /\ q st = []
      /\ max_elems st = Z.max (mb / Z.max size_of 1) 1
      /\ grow_den st < grow_num st
  | Err _ => False
  | Panic => mb < sb \/ mb = 0 \/ SFleb g (f64_of_Z 1) = true
  end.
Proof. apply new_cases. Qed.

(** Every removal path keeps the byte counter exact and the whole
    invariant, and does what it says on the contents: [pop_front], [pop_back],
    [remove_pos], [remove_value], [retain] and [clear]. *)
Theorem removals_correct {T} `{ByteCost T} (st : BoundedDeque T) eqb keep v i :
  bd_inv st ->
  (fst (pop_front st) = head (q st) /\ q (snd (pop_front st)) = drop 1 (q st)
     /\ bd_inv (snd (pop_front st)))
  /\ (fst (pop_back st) = last (q st)
     /\ q (snd (pop_back st)) = take (pred (length (q st))) (q st)
     /\ bd_inv (snd (pop_back st)))
  /\ (fst (remove_pos st i) = q st !! i /\ q (snd (remove_pos st i)) = delete i (q st)
     /\ bd_inv (snd (remove_pos st i)))
  /\ (bd_inv (remove_value eqb st v)
     /\ (contains eqb st v = false -> remove_value eqb st v = st)
     /\ (contains eqb st v = true ->
         exists l1 x l2, q st = l1 ++ x :: l2 /\ eqb x v = true
           /\ Forall (fun y => eqb y v = false) l1
           /\ q (remove_value eqb st v) = l1 ++ l2))
  /\ (q (retain keep st) = List.filter keep (q st) /\ bd_inv (retain keep st))
  /\ (q (clear st) = [] /\ bd_inv (clear st)).
Proof.
  intros Hi. split_and!.
  - by rewrite pop_front_spec.
  - by rewrite pop_front_spec.
  - rewrite pop_front_spec by done. by apply bd_inv_drop.
  - by rewrite pop_back_spec.
  - by rewrite pop_back_spec.
  - rewrite pop_back_spec by done. by apply bd_inv_take.
  - unfold remove_pos. by destruct (q st !! i).
  - unfold remove_pos. destruct (q st !! i) eqn:E; cbn; [by rewrite delete_take_drop|].
    rewrite delete_take_drop. apply lookup_ge_None in E. rewrite take_ge, drop_ge by lia.
    by rewrite app_nil_r.
  - destruct (q st !! i) eqn:E.
    + rewrite (remove_pos_spec _ _ _ Hi E). by eapply bd_inv_delete.
    + unfold remove_pos. by rewrite E.
  - unfold remove_value. pose proof (position_spec (fun x => eqb x v) (q st)) as Hp.
    destruct (position _ (q st)) as [j|]; [|done]. destruct Hp as (x & Hx & _).
    rewrite (remove_pos_spec _ _ _ Hi Hx). by eapply bd_inv_delete.
  - unfold remove_value, contains. pose proof (position_spec (fun x => eqb x v) (q st)) as Hp.
    destruct (position _ (q st)) as [j|]; [|done]. destruct Hp as (x & Hx & He & _).
    intros Hc. apply not_true_iff_false in Hc. exfalso. apply Hc, existsb_exists.
    exists x. split; [|done]. by apply list_elem_of_In, list_elem_of_lookup_2 with j.
  - unfold remove_value, contains. pose proof (position_spec (fun x => eqb x v) (q st)) as Hp.
    destruct (position _ (q st)) as [j|].
    + destruct Hp as (x & Hx & He & Hf). intros _. exists (take j (q st)), x, (drop (S j) (q st)).
      rewrite (remove_pos_spec _ _ _ Hi Hx). cbn. rewrite delete_take_drop.
      split_and!; [|done|done|done]. symmetry. by apply take_drop_middle.
    + intros (x & Hx & He)%existsb_exists. rewrite List.Forall_forall in Hp.
      rewrite Hp in He by done. done.
  - by rewrite (proj1 (retain_spec keep st Hi)).
  - by apply retain_spec.
  - done.
  - apply bd_inv_sub with (l := []); [done|cbn; lia|apply total_nonneg, Hi|constructor].
Qed.

(** ** Concrete queues (the items of the module's own unit tests) *)

Record Item := { it_id : Z; it_cost : Z; it_prio : Z }.

#[export] Instance Item_cost : ByteCost Item := {| byte_cost := it_cost; size_of := 16 |}.

Definition item (i c p : Z) : Item := {| it_id := i; it_cost := c; it_prio := p |}.

Definition item_queue (l : list Item) : BoundedDeque Item :=
  {| q := l; capacity := 2; max_bytes := 64; cur_bytes := total l; max_elems := 4;
     grow_num := 2048; grow_den := 1024 |}.

Definition two_items : BoundedDeque Item := item_queue [item 1 32 20; item 2 32 20].

Lemma two_items_inv : bd_inv two_items.
Proof.
  constructor; unfold len; cbn; try zlia.
  repeat (apply List.Forall_cons; [unfold cost_ok; cbn; lia|]). constructor.
Qed.

(** The newcomer evicts the first item only. *)
Lemma push_back_correct_witness :
  q (fst (push_back two_items (item 3 20 10))) = [item 2 32 20; item 3 20 10]
  /\ bd_inv (fst (push_back two_items (item 3 20 10))).
Proof.
  destruct (push_back_correct two_items (item 3 20 10) two_items_inv ltac:(unfold cost_ok; cbn; lia))
    as (k & _ & _ & _ & Hi).
  split; [vm_compute; reflexivity|exact Hi].
Defined.

(** The second test of [queue.rs]: a lower priority is refused. *)
Lemma push_back_prioritized_correct_witness :
  snd (push_back_prioritized it_prio two_items (item 3 32 10)) = Err saturated
  /\ bd_inv (fst (push_back_prioritized it_prio two_items (item 3 32 10))).
Proof.
  destruct (push_back_prioritized_correct it_prio two_items (item 3 32 10) two_items_inv
              ltac:(unfold cost_ok; cbn; lia)) as (k & _ & Hi & _).
  split; [vm_compute; reflexivity|exact Hi].
Defined.

Lemma push_back_prioritized_order_witness :
  prio_sorted it_prio (q (fst (push_back_prioritized it_prio two_items (item 3 10 20))))
  /\ List.map it_id (q (fst (push_back_prioritized it_prio two_items (item 3 10 20)))) = [1; 3].
Proof.
  assert (prio_sorted it_prio (q two_items)) as Hs
    by (repeat constructor; cbn; lia).
  pose proof (push_back_prioritized_order it_prio two_items (item 3 10 20) 20 two_items_inv
                ltac:(unfold cost_ok; cbn; lia) Hs) as H.
  split; [|vm_compute; reflexivity].
  destruct (push_back_prioritized it_prio two_items (item 3 10 20)) as [st r]. exact (proj1 H).
Defined.

Lemma new_correct_witness :
  match new (T:=Item) 64 16 (f64_of_Z 2) with
  | Ok st => bd_inv st /\ max_elems st = 4 /\ grow_num st = 2048
  | _ => False
  end.
Proof.
  pose proof (new_correct (T:=Item) (H:=Item_cost) 64 16 (f64_of_Z 2)
    ltac:(lia) ltac:(zlia) ltac:(cbn; lia)) as H.
  vm_compute new in H |- *. cbn in H. split; [exact (proj1 H)|split; reflexivity].
Defined.

Lemma removals_correct_witness :
  bd_inv (remove_value (fun a b => it_id a =? it_id b) two_items (item 2 0 0))
  /\ List.map it_id (q (remove_value (fun a b => it_id a =? it_id b) two_items (item 2 0 0))) = [1].
Proof.
  pose proof (removals_correct two_items (fun a b => it_id a =? it_id b) (fun _ => true)
                (item 2 0 0) 0%nat two_items_inv) as (_ & _ & _ & (Hi & _) & _).
  split; [exact Hi|vm_compute; reflexivity].
Defined.

(** A refused priority push may already have dropped queued items: the tail
    item of priority 5 is gone although the push returns an error. *)
Example refused_push_drops_items :
  let st := item_queue [item 1 40 20; item 2 10 5] in
  let r := push_back_prioritized it_prio st (item 3 50 10) in
  snd r = Err saturated /\ List.map it_id (q st) = [1; 2] /\ List.map it_id (q (fst r)) = [1].
Proof. vm_compute. auto. Qed.
