(* ===== verification/SmallPayload.v ===== *)
(** * Payload storage ([src/small_payload.rs], [define_stack_payload!])

    Short payloads live inline in a partially initialised buffer, long ones in
    a shared heap slice.  [SmallPayload<INLINE>] is the two-variant enum;
    [StandardSmallPayload] is the enum the proc macro generates, with one
    inline variant per power of two up to the configured maximum. *)

From S2P Require Import Prelude Telemetry Config Queue.

(** Sizes chosen by the compiler's layout ([size_of]). *)
Class Layout := {
  sizeof_StandardSmallPayload : Z;
  sizeof_Packet : Z
}.

(** [size_of::<Arc<[u8]>>()]: a fat pointer. *)
Definition sizeof_arc_slice : Z := 16.

(** [[MaybeUninit<u8>; N]]: [None] is an uninitialised byte. *)
Definition InlineBuf := list (option byte).

Definition blen (l : list byte) : Z := Z.of_nat (length l).

Definition inline_from_slice (N : Z) (data : list byte) : TelemetryResult (InlineBuf * Z) :=
  if N <? blen data then Panic
  else if u8_max <? blen data then Panic
  else Ok (map Some data ++ replicate (Z.to_nat (N - blen data)) None, wrap 8 (blen data)).

(** Reading an uninitialised byte is undefined behaviour: [Panic]. *)
Definition inline_as_slice (buf : InlineBuf) (len : Z) : TelemetryResult (list byte) :=
  cells ← slice buf 0 len;
  expect (mapM id cells).

Inductive SmallPayload :=
| Inline (len : Z) (buf : InlineBuf)
| Heap (a : list byte).

Definition sp_new (INLINE : Z) (data : list byte) : TelemetryResult SmallPayload :=
  if blen data <=? INLINE
  then '(buf, len) ← inline_from_slice INLINE data; Ok (Inline len buf)
  else Ok (Heap data).

Definition sp_byte_cost (p : SmallPayload) : Z :=
  match p with
  | Inline len _ => len
  | Heap a => blen a + sizeof_arc_slice
  end.

Definition sp_as_slice (p : SmallPayload) : TelemetryResult (list byte) :=
  match p with
  | Inline len buf => inline_as_slice buf len
  | Heap a => Ok a
  end.

Definition sp_to_arc (p : SmallPayload) : TelemetryResult (list byte) :=
  match p with
  | Inline len buf => inline_as_slice buf len
  | Heap a => Ok a
  end.

Definition sp_len (p : SmallPayload) : Z :=
  match p with
  | Inline len _ => len
  | Heap a => blen a
  end.

Definition sp_is_inline (p : SmallPayload) : bool :=
  match p with Inline _ _ => true | Heap _ => false end.

Definition sp_eq (p r : SmallPayload) : TelemetryResult bool :=
  a ← sp_as_slice p; b ← sp_as_slice r; Ok (bool_decide (a = b)).

(** ** [define_stack_payload!] *)

(** [while cap <= max { caps.push(cap); cap *= 2 }]: for [max < 2^63] at most
    64 powers qualify (a larger maximum makes the macro's loop overflow, so the
    crate does not build). *)
Fixpoint powers_upto (fuel : nat) (cap max : Z) : list Z :=
  match fuel with
  | O => []
  | S fuel => if cap <=? max then cap :: powers_upto fuel (cap * 2) max else []
  end.

Definition caps (max : Z) : list Z := powers_upto 64 1 max.

Inductive StandardSmallPayload :=
| StdInline (c : Z) (inner : SmallPayload)
| StdHeap (a : list byte).

(** The generated chain of [if len <= c { return ... }]. *)
Fixpoint std_new_arms (cs : list Z) (data : list byte) : TelemetryResult StandardSmallPayload :=
  match cs with
  | [] => Ok (StdHeap data)
  | c :: cs =>
      if blen data <=? c then inner ← sp_new c data; Ok (StdInline c inner)
      else std_new_arms cs data
  end.

Definition std_as_slice (p : StandardSmallPayload) : TelemetryResult (list byte) :=
  match p with
  | StdInline _ inner => sp_as_slice inner
  | StdHeap a => Ok a
  end.

Definition std_len (p : StandardSmallPayload) : Z :=
  match p with
  | StdInline _ inner => sp_len inner
  | StdHeap a => blen a
  end.

Definition std_is_inline (p : StandardSmallPayload) : bool :=
  match p with
  | StdInline _ inner => sp_is_inline inner
  | StdHeap _ => false
  end.

Definition std_to_arc (p : StandardSmallPayload) : TelemetryResult (list byte) :=
  match p with
  | StdInline _ inner => sp_to_arc inner
  | StdHeap a => Ok a
  end.

Section Std.
Context `{Config} `{Layout}.

Definition std_new (data : list byte) : TelemetryResult StandardSmallPayload :=
  std_new_arms (caps STACK_PAYLOAD_SIZE) data.

Definition std_byte_cost (p : StandardSmallPayload) : Z :=
  match p with
  | StdInline _ inner => sp_byte_cost inner
  | StdHeap a => sizeof_StandardSmallPayload + blen a
  end.
End Std.

(** ** The inline buffer is only read where it was written *)

Lemma blen_nonneg l : 0 <= blen l.
Proof. unfold blen. lia. Qed.

Lemma mapM_id_map_Some (l : list byte) : mapM (M:=option) id (map Some l) = Some l.
Proof. induction l as [|b l IH]; [done|]. cbn in *. by rewrite IH. Qed.

Lemma inline_slice data n :
  blen data <= n ->
  inline_as_slice (map Some data ++ replicate (Z.to_nat (n - blen data)) None) (blen data)
  = Ok data.
Proof.
  intros Hn. unfold inline_as_slice. unfold blen in *.
  rewrite slice_ok; [|lia|rewrite length_app, length_map; lia].
  rewrite drop_0, Z.sub_0_r, Nat2Z.id.
  rewrite take_app_le, take_ge by (rewrite length_map; lia). cbn.
  by rewrite mapM_id_map_Some.
Qed.

Lemma sp_new_ok n data :
  (blen data <= n -> blen data <= u8_max) ->
  exists p, sp_new n data = Ok p /\ sp_as_slice p = Ok data /\ sp_len p = blen data
    /\ sp_is_inline p = (blen data <=? n)
    /\ sp_byte_cost p = blen data + (if blen data <=? n then 0 else sizeof_arc_slice).
Proof.
  intros Hsmall. pose proof (blen_nonneg data). unfold sp_new, inline_from_slice.
  destruct (Z.leb_spec (blen data) n) as [Hn|Hn].
  - specialize (Hsmall Hn). zcase. cbn. eexists. split; [done|]. cbn.
    rewrite wrap_small by zlia. split_and!; [by apply inline_slice|done|done|lia].
  - exists (Heap data). cbn. done.
Qed.

Lemma sp_new_panics n data :
  blen data <= n -> u8_max < blen data -> sp_new n data = Panic.
Proof. intros. unfold sp_new, inline_from_slice. zcase. done. Qed.

Lemma powers_upto_le fuel cap max c : c ∈ powers_upto fuel cap max -> c <= max.
Proof.
  revert cap. induction fuel as [|fuel IH]; cbn; intros cap; [by intros ?%elem_of_nil|].
  zcase; [|by intros ?%elem_of_nil]. intros [->|Hin]%elem_of_cons; [done|by eapply IH].
Qed.

(** What the payload type promises its users: the bytes it was built from. *)
Definition std_holds (data : list byte) (p : StandardSmallPayload) : Prop :=
  std_as_slice p = Ok data /\ std_to_arc p = Ok data /\ std_len p = blen data.

Lemma std_arms_ok cs data :
  (forall c, c ∈ cs -> blen data <= c -> blen data <= u8_max) ->
  exists p, std_new_arms cs data = Ok p /\ std_holds data p
    /\ (std_is_inline p = true <-> exists c, c ∈ cs /\ blen data <= c).
Proof.
  induction cs as [|c cs IH]; cbn; intros Hc.
  - exists (StdHeap data). split_and!; try done. split; [done|]. intros (c & Hin & _).
    by apply elem_of_nil in Hin.
  - destruct (Z.leb_spec (blen data) c) as [Hle|Hle].
    + destruct (sp_new_ok c data) as (p & -> & Hs & Hl & Hi & _); [set_solver|].
      exists (StdInline c p). split; [done|]. split; [done|]. cbn. rewrite Hi.
      split; [intros _; exists c; set_solver|]. intros _. lia.
    + destruct IH as (p & -> & Hh & Hi); [set_solver|]. exists p. split; [done|]. split; [done|].
      rewrite Hi. split; intros (d & Hd & Hle').
      * exists d. set_solver.
      * exists d. apply elem_of_cons in Hd as [->|Hd]; [lia|done].
Qed.

Lemma caps_bound max c : c ∈ caps max -> c <= max.
Proof. apply powers_upto_le. Qed.

Lemma powers_upto_elem fuel cap max c :
  0 < cap -> c ∈ powers_upto fuel cap max ->
  exists k : nat, c = cap * 2 ^ Z.of_nat k /\ c <= max.
Proof.
  revert cap. induction fuel as [|fuel IH]; cbn; intros cap Hc; [by intros ?%elem_of_nil|].
  zcase; [|by intros ?%elem_of_nil]. intros [->|Hin]%elem_of_cons.
  - exists 0%nat. cbn. lia.
  - apply IH in Hin as (k & -> & Hle); [|lia]. exists (S k).
    rewrite Nat2Z.inj_succ, Z.pow_succ_r by lia. lia.
Qed.

Lemma powers_upto_complete fuel cap max (k : nat) :
  0 < cap -> (k < fuel)%nat -> cap * 2 ^ Z.of_nat k <= max ->
  cap * 2 ^ Z.of_nat k ∈ powers_upto fuel cap max.
Proof.
  revert cap k. induction fuel as [|fuel IH]; cbn; intros cap k Hc Hk Hle; [lia|].
  pose proof (Z.pow_pos_nonneg 2 (Z.of_nat k) ltac:(lia) ltac:(lia)). zcase; [|nia].
  destruct k as [|k]; [apply elem_of_cons; left; cbn; lia|]. apply elem_of_cons; right.
  rewrite Nat2Z.inj_succ, Z.pow_succ_r in * by lia.
  replace (cap * (2 * 2 ^ Z.of_nat k)) with (cap * 2 * 2 ^ Z.of_nat k) in * by lia.
  apply IH; lia.
Qed.

(** The inline capacities are exactly the powers of two up to the maximum. *)
Lemma elem_of_caps max c :
  max < 2 ^ 63 -> c ∈ caps max <-> exists k : nat, c = 2 ^ Z.of_nat k /\ c <= max.
Proof.
  intros Hmax. unfold caps. split.
  - intros (k & -> & Hle)%powers_upto_elem; [|lia]. exists k. lia.
  - intros (k & -> & Hle). rewrite <- (Z.mul_1_l (2 ^ _)).
    apply powers_upto_complete; [lia| |lia].
    destruct (decide (Z.of_nat k < 63)); [lia|].
    pose proof (Z.pow_le_mono_r 2 63 (Z.of_nat k) ltac:(lia) ltac:(lia)). lia.
Qed.

Section Std_facts.
Context `{Config} `{Layout}.

(** Some inline variant is wide enough for the bytes. *)
Definition fits_inline (data : list byte) : Prop :=
  exists k : nat, blen data <= 2 ^ Z.of_nat k <= STACK_PAYLOAD_SIZE.

Lemma fits_caps data :
  STACK_PAYLOAD_SIZE < 2 ^ 63 ->
  fits_inline data <-> exists c, c ∈ caps STACK_PAYLOAD_SIZE /\ blen data <= c.
Proof.
  intros Hm. unfold fits_inline. split.
  - intros (k & Hk). exists (2 ^ Z.of_nat k). rewrite elem_of_caps by done.
    split; [exists k|]; lia.
  - intros (c & Hc & Hle). apply elem_of_caps in Hc as (k & -> & Hk); [|done].
    exists k. lia.
Qed.

Lemma std_arms_panic cs data :
  u8_max < blen data -> (exists c, c ∈ cs /\ blen data <= c) ->
  std_new_arms cs data = Panic.
Proof.
  intros Hu (c & Hc & Hle). induction cs as [|d cs IH]; cbn; [by apply elem_of_nil in Hc|].
  zcase; [by rewrite sp_new_panics|]. apply IH. apply elem_of_cons in Hc as [->|]; [lia|done].
Qed.

Lemma std_byte_cost_bound data p :
  std_holds data p ->
  std_byte_cost p <= Z.max sizeof_StandardSmallPayload sizeof_arc_slice + blen data
  \/ sizeof_arc_slice < 0.
Proof.
  destruct p as [c [l b|a]|a]; unfold std_holds; cbn; intros (_ & _ & Hl);
    pose proof (blen_nonneg data); lia.
Qed.

Lemma std_new_cases data :
  STACK_PAYLOAD_SIZE < 2 ^ 63 ->
  (fits_inline data /\ u8_max < blen data /\ std_new data = Panic)
  \/ (exists p, std_new data = Ok p /\ std_holds data p
       /\ (std_is_inline p = true <-> fits_inline data)
       /\ ~ (fits_inline data /\ u8_max < blen data)).
Proof.
  intros Hm. setoid_rewrite (fits_caps data Hm).
  destruct (decide (u8_max < blen data)) as [Hbig|Hsmall].
  - destruct (decide (Exists (fun c => blen data <= c) (caps STACK_PAYLOAD_SIZE))) as [Hex|Hex].
    + apply Exists_exists in Hex. left. split_and!; [done|done|].
      by apply std_arms_panic.
    + right. destruct (std_arms_ok (caps STACK_PAYLOAD_SIZE) data)
        as (p & Hp & Hh & Hi); [intros c Hc Hle; exfalso; apply Hex, Exists_exists; by exists c|].
      exists p. split; [done|]. split; [done|]. split; [done|]. intros [Hf _]. by apply Hex, Exists_exists.
  - right. destruct (std_arms_ok (caps STACK_PAYLOAD_SIZE) data) as (p & Hp & Hh & Hi);
      [intros; lia|]. exists p. split; [done|]. split; [done|]. split; [done|lia].
Qed.

(** Below 256 bytes of inline storage construction never fails. *)
Lemma std_new_total data :
  STACK_PAYLOAD_SIZE < 256 -> exists p, std_new data = Ok p /\ std_holds data p.
Proof.
  intros Hs. destruct (std_new_cases data ltac:(lia)) as [((k & Hk) & Hb & _)|(p & Hp & Hh & _)].
  - exfalso. zlia.
  - by exists p.
Qed.

(** [StandardSmallPayload::new] either panics or stores exactly
    the bytes it is given: [as_slice], [to_arc] and [len] return them, the
    storage is inline exactly when some power of two up to the configured
    maximum is wide enough, and no uninitialised byte is ever read.  It panics
    exactly when such an inline variant is chosen for more than 255 bytes
    (possible only if the configured maximum is at least 256). *)
Theorem std_new_correct data :
  STACK_PAYLOAD_SIZE < 2 ^ 63 ->
  (std_new data = Panic <-> fits_inline data /\ u8_max < blen data)
  /\ (std_new data = Panic \/
      exists p, std_new data = Ok p /\ std_as_slice p = Ok data /\ std_to_arc p = Ok data
        /\ std_len p = blen data /\ (std_is_inline p = true <-> fits_inline data)).
Proof.
  intros Hm. destruct (std_new_cases data Hm) as [(Hf & Hu & ->)|(p & -> & (?&?&?) & Hi & Hn)].
  - split; [done|by left].
  - split; [split; [done|intros; exfalso; tauto]|right]. by exists p.
Qed.
End Std_facts.

(** A build with 512 bytes of inline storage: a 300-byte payload panics. *)
Definition wide_config : Config :=
  match config_of_env (fun k => if String.eqb k "MAX_STACK_PAYLOAD" then Some (lit "512") else None)
  with Some c => c | None => default_config end.

Lemma std_new_correct_witness :
  @std_new wide_config (replicate 300 (b8 0)) = Panic
  /\ (forall p, @std_new default_config (replicate 65 (b8 0)) = Ok p -> std_is_inline p = false)
  /\ @STACK_PAYLOAD_SIZE wide_config = 512.
Proof.
  split; [|split; [|vm_compute; reflexivity]].
  - apply (@std_new_correct wide_config (replicate 300 (b8 0)));
      [vm_compute; reflexivity|].
    split; [exists 9%nat; vm_compute; split; discriminate|vm_compute; reflexivity].
  - intros p Hp. destruct (@std_new_correct default_config (replicate 65 (b8 0)) eq_refl)
      as (_ & [Hpan|(p' & Hp' & _ & _ & _ & Hi)]); [congruence|].
    rewrite Hp in Hp'. injection Hp' as <-. apply not_true_iff_false. rewrite Hi.
    intros (k & Hk). change (blen (replicate 65 (b8 0))) with 65 in Hk.
    change (@STACK_PAYLOAD_SIZE default_config) with 64 in Hk. lia.
Defined.
