(* ===== verification/Wire.v ===== *)
(** * Wire primitives ([src/serialize.rs], first half)

    The building blocks of the v2 wire format: ULEB128 varints, the byte
    reader, little-endian words, the CRC-32 trailer, UTF-8 decoding, the
    endpoint bitmap, the reliable header and the optional compression.  The
    CRC and the compressor are third-party code: the class [External] takes
    them as parameters and [ExternalOk] states what the code relies on. *)

From Stdlib Require Zbitwise.
From S2P Require Import Prelude Ordered Telemetry Config Schema SmallPayload.

(** [crc32fast::Hasher] and [zstd_safe].  [zstd_compress input cap] compresses
    into a buffer of [cap] bytes, [zstd_decompress input cap] likewise; both
    return the bytes written. *)
Class External := {
  crc32 : list byte -> Z;
  zstd_compress : list byte -> Z -> option (list byte);
  zstd_decompress : list byte -> Z -> option (list byte)
}.

Class ExternalOk `{External} : Prop := {
  crc32_range : forall l, is_u32 (crc32 l);
  zstd_compress_fits : forall i cap o,
    zstd_compress i cap = Some o -> 0 < blen o <= cap;
  zstd_roundtrip : forall i cap o,
    zstd_compress i cap = Some o -> zstd_decompress o (blen i) = Some i
}.

(** ** [ByteReader] *)

Record ByteReader := { buf : list byte; off : Z }.

Definition reader_new (l : list byte) : ByteReader := {| buf := l; off := 0 |}.

Definition remaining (r : ByteReader) : Z := sat_sub (blen (buf r)) (off r).

Definition read_bytes (r : ByteReader) (n : Z) : TelemetryResult (list byte * ByteReader) :=
  if remaining r <? n then Err (Deserialize "short read")
  else
    s ← slice (buf r) (off r) (wrap 64 (off r + n));
    Ok (s, {| buf := buf r; off := wrap 64 (off r + n) |}).

(** [r.read_bytes(1)?[0]]. *)
Definition read_u8 (r : ByteReader) : TelemetryResult (Z * ByteReader) :=
  '(s, r) ← read_bytes r 1; b ← elem_at s 0; Ok (u8 b, r).

(** ** ULEB128 *)

(** Ten rounds exhaust a [u64]. *)
Fixpoint write_uleb128_loop (fuel : nat) (v : Z) : list byte :=
  match fuel with
  | O => []
  | S fuel =>
      let byte := Z.land v 127 in
      let v := Z.shiftr v 7 in
      if v =? 0 then [b8 byte] else b8 (Z.lor byte 128) :: write_uleb128_loop fuel v
  end.

Definition write_uleb128 (v : Z) : list byte := write_uleb128_loop 10 v.

Fixpoint read_uleb128_loop (rounds : nat) (result shift : Z) (r : ByteReader)
    : TelemetryResult (Z * ByteReader) :=
  match rounds with
  | O => Err (Deserialize "uleb128 too long")
  | S rounds =>
      '(b, r) ← read_u8 r;
      let result := Z.lor result (wrap 64 (Z.shiftl (Z.land b 127) shift)) in
      if Z.land b 128 =? 0 then Ok (result, r)
      else read_uleb128_loop rounds result (shift + 7) r
  end.

Definition read_uleb128 (r : ByteReader) : TelemetryResult (Z * ByteReader) :=
  read_uleb128_loop 10 0 0 r.

Fixpoint uleb128_size_loop (fuel : nat) (n v : Z) : Z :=
  match fuel with
  | O => n
  | S fuel => if 128 <=? v then uleb128_size_loop fuel (n + 1) (Z.shiftr v 7) else n
  end.

Definition uleb128_size (v : Z) : Z := uleb128_size_loop 9 1 v.

(** ** Words and the checksum trailer *)

Definition CRC32_BYTES : Z := 4.

Definition write_u32_le (v : Z) : list byte := le_bytes 4 v.

Definition read_u32_le (r : ByteReader) : TelemetryResult (Z * ByteReader) :=
  '(s, r) ← read_bytes r 4;
  b0 ← elem_at s 0; b1 ← elem_at s 1; b2 ← elem_at s 2; b3 ← elem_at s 3;
  Ok (le_value [b0; b1; b2; b3], r).

Definition split_crc32 (l : list byte) : TelemetryResult (list byte * Z) :=
  if blen l <? CRC32_BYTES then Err (Deserialize "short buffer")
  else
    let data_len := blen l - CRC32_BYTES in
    b0 ← elem_at l data_len; b1 ← elem_at l (data_len + 1);
    b2 ← elem_at l (data_len + 2); b3 ← elem_at l (data_len + 3);
    data ← slice l 0 data_len;
    Ok (data, le_value [b0; b1; b2; b3]).

Section Crc.
Context `{External}.

Definition append_crc32 (out : list byte) : list byte := out ++ le_bytes 4 (crc32 out).

Definition verify_crc32 (l : list byte) : TelemetryResult (list byte) :=
  '(data, expected) ← split_crc32 l;
  if negb (crc32 data =? expected) then Err (Deserialize "crc32 mismatch") else Ok data.
End Crc.

(** ** The reliable header *)

Record ReliableHeader := { rh_flags : Z; rh_seq : Z; rh_ack : Z }.

Definition RELIABLE_FLAG_ACK_ONLY : Z := 1.
Definition RELIABLE_FLAG_UNORDERED : Z := 2.
Definition RELIABLE_FLAG_UNSEQUENCED : Z := 128.
Definition RELIABLE_HEADER_BYTES : Z := 1 + 4 + 4.

Definition write_reliable_header (h : ReliableHeader) : list byte :=
  b8 (rh_flags h) :: write_u32_le (rh_seq h) ++ write_u32_le (rh_ack h).

Definition read_reliable_header (r : ByteReader) : TelemetryResult (ReliableHeader * ByteReader) :=
  '(flags, r) ← read_u8 r;
  '(seq, r) ← read_u32_le r;
  '(ack, r) ← read_u32_le r;
  Ok ({| rh_flags := flags; rh_seq := seq; rh_ack := ack |}, r).

Definition reliable_header_ok (h : ReliableHeader) : Prop :=
  is_u8 (rh_flags h) /\ is_u32 (rh_seq h) /\ is_u32 (rh_ack h).

Definition has_flag (flags bit : Z) : bool := negb (Z.land flags bit =? 0).

(** ** UTF-8 ([core::str::from_utf8])

    The well-formed byte sequences of the Unicode standard (table 3-7). *)

Definition in_range (lo hi : Z) (b : byte) : bool := (lo <=? u8 b) && (u8 b <=? hi).
Definition cont (b : byte) : bool := in_range 128 191 b.

Fixpoint utf8_valid_fuel (fuel : nat) (l : list byte) : bool :=
  match fuel with
  | O => false
  | S fuel =>
      match l with
      | [] => true
      | b :: l =>
          if in_range 0 127 b then utf8_valid_fuel fuel l
          else match l with
          | [] => false
          | c1 :: l =>
              if in_range 194 223 b then cont c1 && utf8_valid_fuel fuel l
              else match l with
              | [] => false
              | c2 :: l =>
                  if in_range 224 239 b then
                    in_range (if u8 b =? 224 then 160 else 128)
                             (if u8 b =? 237 then 159 else 191) c1
                    && cont c2 && utf8_valid_fuel fuel l
                  else match l with
                  | [] => false
                  | c3 :: l =>
                      in_range 240 244 b
                      && in_range (if u8 b =? 240 then 144 else 128)
                                  (if u8 b =? 244 then 143 else 191) c1
                      && cont c2 && cont c3 && utf8_valid_fuel fuel l
                  end
              end
          end
      end
  end.

Definition utf8_valid (l : list byte) : bool := utf8_valid_fuel (S (length l)) l.

Definition from_utf8 (e : TelemetryError) (l : list byte) : TelemetryResult Str :=
  if utf8_valid l then Ok l else Err e.

(** ** Compression ([mod payload_compression], feature [compression]) *)

(** [vec![0u8; n]]: a request above [isize::MAX] panics. *)
Definition vec_zeroed (n : Z) : TelemetryResult unit :=
  if isize_max <? n then Panic else Ok tt.

Section Compression.
Context `{Config} `{External}.

Definition compress_to_vec_bounded (input : list byte) (max_output : Z)
    : TelemetryResult (option (list byte)) :=
  if (blen input =? 0) || (max_output =? 0) then Ok None
  else _ ← vec_zeroed max_output; Ok (zstd_compress input max_output).

Definition compress_if_beneficial (payload : list byte) : TelemetryResult (bool * list byte) :=
  if blen payload <? PAYLOAD_COMPRESS_THRESHOLD then Ok (false, payload)
  else
    c ← compress_to_vec_bounded payload (sat_sub (blen payload) 2);
    match c with
    | None => Ok (false, payload)
    | Some compressed =>
        if blen payload <=? wrap 64 (blen compressed + 1) then Ok (false, payload)
        else Ok (true, compressed)
    end.

Definition decompress (compressed : list byte) (expected_len : Z) : TelemetryResult (list byte) :=
  _ ← vec_zeroed expected_len;
  match zstd_decompress compressed expected_len with
  | None => Err (Deserialize "decompression failed")
  | Some out =>
      if negb (blen out =? expected_len) then Err (Deserialize "decompressed size mismatch")
      else Ok out
  end.

Definition decode_sender_name (wire : list byte) (compressed : bool) (sender_len : Z)
    : TelemetryResult Str :=
  if compressed then
    d ← decompress wire sender_len;
    from_utf8 (Deserialize "sender not UTF-8 after decompress") d
  else from_utf8 (Deserialize "sender not UTF-8") wire.
End Compression.

(** ** Types and endpoints on the wire *)

Section Bitmap.
Context `{Schema}.

Definition EP_BITMAP_BITS : Z := MAX_VALUE_DATA_ENDPOINT + 1.
Definition EP_BITMAP_BYTES : Z := (EP_BITMAP_BITS + 7) / 8.

(** The [u32::try_from] and discriminant checks each decoder repeats. *)
Definition data_type_from_raw (ty_v : Z) : TelemetryResult DataType :=
  if u32_max <? ty_v then Err (Deserialize "type too large")
  else if MAX_VALUE_DATA_TYPE <? ty_v then Err InvalidType
  else ok_or InvalidType (type_try_from_u32 ty_v).

Definition is_reliable_type_from_raw (ty_v : Z) : TelemetryResult bool :=
  ty ← data_type_from_raw ty_v; Ok (is_reliable_type ty).

(** [bm[byte] |= 1 << bit]. *)
Definition set_bit (bm : list byte) (idx : Z) : list byte :=
  alter (fun b => b8 (Z.lor (u8 b) (Z.shiftl 1 (idx mod 8)))) (Z.to_nat (idx / 8)) bm.

Definition build_endpoint_bitmap (eps : list DataEndpoint) : list byte :=
  fold_left (fun bm idx => if idx <? EP_BITMAP_BITS then set_bit bm idx else bm)
    eps (replicate (Z.to_nat EP_BITMAP_BYTES) (b8 0)).

(** [(bm[byte] >> bit) & 1 != 0]. *)
Definition bitmap_bit (bm : list byte) (idx : Z) : TelemetryResult bool :=
  b ← elem_at bm (idx / 8);
  Ok (negb (Z.land (Z.shiftr (u8 b) (idx mod 8)) 1 =? 0)).

Fixpoint expand_bits (bm : list byte) (idxs : list Z) : TelemetryResult (list DataEndpoint) :=
  match idxs with
  | [] => Ok []
  | idx :: idxs =>
      set ← bitmap_bit bm idx;
      if set : bool then
        ep ← ok_or (Deserialize "bad endpoint bit set") (endpoint_try_from_u32 (wrap 32 idx));
        eps ← expand_bits bm idxs;
        Ok (ep :: eps)
      else expand_bits bm idxs
  end.

(** The filled prefix of the array the code returns. *)
Definition expand_endpoint_bitmap (bm : list byte) : TelemetryResult (list DataEndpoint) :=
  if negb (blen bm =? EP_BITMAP_BYTES) then Err (Deserialize "bad endpoint bitmap size")
  else
    _ ← expect (endpoint_try_from_u32 0);
    expand_bits bm (seqZ 0 EP_BITMAP_BITS).

Definition count_ones (b : byte) : Z :=
  Z.of_nat (length (filter (fun i => Z.testbit (u8 b) i = true) (seqZ 0 8))).

Definition bitmap_popcount (bm : list byte) : Z :=
  foldr (fun b n => count_ones b + n) 0 bm.
End Bitmap.

(** ** Reading back what was written

    [at_ pre rest] is a reader that has consumed [pre] and has [rest] left. *)

Definition at_ (pre rest : list byte) : ByteReader := {| buf := pre ++ rest; off := blen pre |}.

Lemma blen_app l k : blen (l ++ k) = blen l + blen k.
Proof. unfold blen. rewrite length_app. lia. Qed.

Lemma blen_cons b l : blen (b :: l) = 1 + blen l.
Proof. unfold blen. cbn. lia. Qed.

Lemma blen_nil : blen [] = 0.
Proof. done. Qed.

Lemma blen_le_bytes n z : blen (le_bytes n z) = Z.of_nat n.
Proof. unfold blen. by rewrite length_le_bytes. Qed.

#[export] Hint Rewrite blen_app blen_cons blen_nil blen_le_bytes : seds_rw.

Lemma reader_new_at l : reader_new l = at_ [] l.
Proof. done. Qed.

Lemma remaining_at pre rest : remaining (at_ pre rest) = blen rest.
Proof.
  unfold remaining, at_. cbn. rewrite blen_app.
  pose proof (blen_nonneg pre). pose proof (blen_nonneg rest). zlia.
Qed.

(** A buffer a Rust slice can have. *)
Definition buf_ok (l : list byte) : Prop := blen l <= isize_max.

Lemma read_bytes_short pre rest n :
  blen rest < n -> read_bytes (at_ pre rest) n = Err (Deserialize "short read").
Proof. intros. unfold read_bytes. rewrite remaining_at. by zcase. Qed.

Lemma slice_middle {E A} (pre c rest : list A) lo hi :
  lo = Z.of_nat (length pre) -> hi = lo + Z.of_nat (length c) ->
  slice (E:=E) (pre ++ c ++ rest) lo hi = Ok c.
Proof.
  intros -> ->. rewrite slice_ok by (rewrite ?length_app; lia).
  rewrite Nat2Z.id, drop_app_length, Z.add_simpl_l, Nat2Z.id, take_app_length. done.
Qed.

Lemma read_bytes_at pre c rest n :
  n = blen c -> buf_ok (pre ++ c ++ rest) ->
  read_bytes (at_ pre (c ++ rest)) n = Ok (c, at_ (pre ++ c) rest).
Proof.
  intros -> Hb. unfold read_bytes, buf_ok in *. rewrite remaining_at.
  autorewrite with seds_rw in *.
  pose proof (blen_nonneg pre). pose proof (blen_nonneg c). pose proof (blen_nonneg rest).
  zcase. unfold at_; cbn [buf off]. rewrite wrap_small by zlia.
  unfold blen at 1 2 3. rewrite slice_middle by done. cbn.
  by rewrite blen_app, <- app_assoc.
Qed.

Lemma elem_at_eq {E A} (l : list A) i : 0 <= i -> elem_at (E:=E) l i = expect (l !! Z.to_nat i).
Proof. intros. unfold elem_at. by rewrite decide_True. Qed.

Lemma read_u8_at pre b rest :
  buf_ok (pre ++ b :: rest) ->
  read_u8 (at_ pre (b :: rest)) = Ok (u8 b, at_ (pre ++ [b]) rest).
Proof.
  intros Hb. unfold read_u8. change (b :: rest) with ([b] ++ rest).
  by rewrite read_bytes_at.
Qed.

Lemma read_u32_le_at pre v rest :
  is_u32 v -> buf_ok (pre ++ write_u32_le v ++ rest) ->
  read_u32_le (at_ pre (write_u32_le v ++ rest)) = Ok (v, at_ (pre ++ write_u32_le v) rest).
Proof.
  intros Hv Hb. unfold read_u32_le. rewrite read_bytes_at by done. cbn [res_bind mbind res_mbind].
  rewrite !elem_at_eq by lia.
  transitivity (Ok (E:=TelemetryError) (le_value (le_bytes 4 v), at_ (pre ++ write_u32_le v) rest));
    [reflexivity|]. by rewrite le_value_bytes_u32.
Qed.

Lemma read_reliable_header_at pre h rest :
  reliable_header_ok h -> buf_ok (pre ++ write_reliable_header h ++ rest) ->
  read_reliable_header (at_ pre (write_reliable_header h ++ rest))
  = Ok (h, at_ (pre ++ write_reliable_header h) rest).
Proof.
  destruct h as [f s a]. intros (Hf & Hs & Ha) Hb. cbn [rh_flags rh_seq rh_ack] in *.
  unfold read_reliable_header, write_reliable_header in *. cbn [rh_flags rh_seq rh_ack app] in *.
  rewrite read_u8_at by done. cbn [res_bind mbind res_mbind]. rewrite <- app_assoc in *.
  rewrite read_u32_le_at; [|done|by rewrite <- app_assoc]. cbn [res_bind mbind res_mbind].
  rewrite read_u32_le_at; [|done|by rewrite <- !app_assoc]. cbn [res_bind mbind res_mbind].
  rewrite u8_b8, Z.mod_small by (unfold is_u8 in Hf; lia).
  by rewrite <- !app_assoc.
Qed.

(** ** ULEB128 round trip *)

(** Decide a property of all small integers by evaluation. *)
Lemma check_below (n : Z) (P : Z -> bool) :
  forallb P (seqZ 0 n) = true -> forall z, 0 <= z < n -> P z = true.
Proof.
  intros Hf z Hz. rewrite forallb_forall in Hf. apply Hf.
  apply list_elem_of_In, elem_of_seqZ. lia.
Qed.

Lemma b8_small z : 0 <= z < 256 -> u8 (b8 z) = z.
Proof. intros. by rewrite u8_b8, Z.mod_small. Qed.

Lemma land_127 v : Z.land v 127 = v mod 128.
Proof. change 127 with (Z.ones 7). by rewrite Z.land_ones. Qed.

Lemma shiftr_7 v : Z.shiftr v 7 = v / 128.
Proof. by rewrite Z.shiftr_div_pow2. Qed.

(** The continuation bit: [b] is the low group, [Z.lor b 128] the byte. *)
Lemma group_bits b :
  0 <= b < 128 ->
  0 <= Z.lor b 128 < 256 /\ Z.land (Z.lor b 128) 127 = b
  /\ (Z.land (Z.lor b 128) 128 =? 0) = false
  /\ Z.land b 127 = b /\ (Z.land b 128 =? 0) = true.
Proof.
  intros Hb.
  assert ((0 <=? Z.lor b 128) && (Z.lor b 128 <? 256) && (Z.land (Z.lor b 128) 127 =? b)
    && negb (Z.land (Z.lor b 128) 128 =? 0) && (Z.land b 127 =? b)
    && (Z.land b 128 =? 0) = true) as Hc.
  { revert b Hb. apply (check_below 128). vm_compute. reflexivity. }
  rewrite !andb_true_iff, negb_true_iff, !Z.eqb_eq, Z.leb_le, Z.ltb_lt in Hc.
  rewrite Z.eqb_eq. tauto.
Qed.

(** [result | (g << shift)] adds, when the groups do not overlap. *)
Lemma lor_shiftl result g shift :
  0 <= shift -> 0 <= result < 2 ^ shift ->
  Z.lor result (Z.shiftl g shift) = result + g * 2 ^ shift.
Proof.
  intros Hs Hr.
  assert (Z.land result (Z.shiftl g shift) = 0) as Hl.
  { apply Z.bits_inj'. intros i Hi. rewrite Z.land_spec, Z.shiftl_spec, Z.bits_0 by done.
    destruct (Z.ltb_spec i shift) as [Hlt|Hge].
    - rewrite (Z.testbit_neg_r g) by lia. by rewrite andb_false_r.
    - rewrite (proj2 (Z.testbit_false result i Hi)); [done|].
      rewrite Z.div_small; [done|]. split; [lia|].
      eapply Z.lt_le_trans; [apply Hr|]. apply Z.pow_le_mono_r; lia. }
  pose proof (Zbitwise.Z.add_lor_land result (Z.shiftl g shift)) as Ha.
  rewrite Hl, Z.add_0_r in Ha. rewrite Ha. by rewrite Z.shiftl_mul_pow2.
Qed.

Lemma write_uleb128_loop_S fuel v :
  0 <= v ->
  write_uleb128_loop (S fuel) v =
  if v / 128 =? 0 then [b8 (v mod 128)]
  else b8 (Z.lor (v mod 128) 128) :: write_uleb128_loop fuel (v / 128).
Proof. intros. cbn [write_uleb128_loop]. by rewrite land_127, shiftr_7. Qed.

Lemma read_uleb128_round rounds result shift pre b rest :
  buf_ok (pre ++ b :: rest) -> 0 <= shift -> 0 <= result < 2 ^ shift ->
  Z.land (u8 b) 127 * 2 ^ shift < 2 ^ 64 ->
  read_uleb128_loop (S rounds) result shift (at_ pre (b :: rest)) =
  let result := result + Z.land (u8 b) 127 * 2 ^ shift in
  if Z.land (u8 b) 128 =? 0 then Ok (result, at_ (pre ++ [b]) rest)
  else read_uleb128_loop rounds result (shift + 7) (at_ (pre ++ [b]) rest).
Proof.
  intros Hb Hs Hr Hfit. cbn [read_uleb128_loop]. rewrite read_u8_at by done.
  cbn [res_bind mbind res_mbind]. cbn zeta. rewrite wrap_small.
  - by rewrite lor_shiftl.
  - rewrite Z.shiftl_mul_pow2 by done. split; [|done].
    apply Z.mul_nonneg_nonneg; [apply Z.land_nonneg; lia|lia].
Qed.

Lemma read_write_uleb128_loop fuel v result shift pre rest :
  shift = 7 * (10 - Z.of_nat fuel) -> (fuel <= 10)%nat ->
  0 <= v < 2 ^ (64 - shift) -> 0 <= result < 2 ^ shift ->
  buf_ok (pre ++ write_uleb128_loop fuel v ++ rest) ->
  read_uleb128_loop fuel result shift (at_ pre (write_uleb128_loop fuel v ++ rest))
  = Ok (result + v * 2 ^ shift, at_ (pre ++ write_uleb128_loop fuel v) rest).
Proof.
  revert v result shift pre. induction fuel as [|fuel IH]; intros v result shift pre Hs Hf Hv Hr Hb.
  { subst shift. cbn in Hv. lia. }
  rewrite write_uleb128_loop_S in * by lia.
  pose proof (Z.mod_pos_bound v 128 ltac:(lia)) as Hm.
  destruct (group_bits _ Hm) as (Hg & Hg1 & Hg2 & Hg3 & Hg4).
  assert (0 < 2 ^ shift) by (apply Z.pow_pos_nonneg; lia).
  assert (v * 2 ^ shift < 2 ^ 64) as Hfit.
  { destruct (Z.leb_spec shift 64) as [Hle|Hgt].
    - replace (2 ^ 64) with (2 ^ (64 - shift) * 2 ^ shift)
        by (rewrite <- Z.pow_add_r by lia; f_equal; lia).
      apply Z.mul_lt_mono_pos_r; lia.
    - rewrite (Z.pow_neg_r 2 (64 - shift)) in Hv by lia. lia. }
  pose proof (Z.div_mod v 128 ltac:(lia)) as Hdm. pose proof (Z.div_pos v 128 ltac:(lia) ltac:(lia)).
  destruct (Z.eqb_spec (v / 128) 0) as [Hz|Hz]; cbn [app] in *.
  - rewrite read_uleb128_round; [|done|lia|done|rewrite b8_small, Hg3 by lia; nia].
    rewrite b8_small, Hg3, Hg4 by lia. cbn zeta. do 2 f_equal. nia.
  - rewrite read_uleb128_round; [|done|lia|done|rewrite b8_small, Hg1 by lia; nia].
    rewrite b8_small, Hg1, Hg2 by lia. cbn zeta.
    assert (2 ^ (shift + 7) = 128 * 2 ^ shift) as Hp by (rewrite Z.pow_add_r by lia; lia).
    rewrite IH; [|lia|lia| |rewrite Hp; nia|by rewrite <- app_assoc].
    + rewrite <- app_assoc, Hp. do 2 f_equal. nia.
    + split; [done|]. apply Z.div_lt_upper_bound; [lia|].
      destruct (Z.leb_spec (shift + 7) 64) as [Hle|Hgt].
      * change 128 with (2 ^ 7). rewrite <- Z.pow_add_r by lia. replace (7 + _) with (64 - shift) by lia. lia.
      * exfalso. assert (64 - shift <= 7) by lia.
        assert (2 ^ (64 - shift) <= 2 ^ 7) by (apply Z.pow_le_mono_r; lia).
        rewrite Z.div_small in Hz; lia.
Qed.

Lemma read_write_uleb128 v pre rest :
  is_u64 v -> buf_ok (pre ++ write_uleb128 v ++ rest) ->
  read_uleb128 (at_ pre (write_uleb128 v ++ rest)) = Ok (v, at_ (pre ++ write_uleb128 v) rest).
Proof.
  intros [Hv1 Hv2] Hb. unfold read_uleb128, write_uleb128 in *.
  rewrite read_write_uleb128_loop; [|lia|lia|lia|lia|done]. by rewrite Z.mul_1_r, Z.add_0_l.
Qed.

Lemma uleb128_size_loop_spec fuel n v :
  0 <= v < 128 ^ Z.of_nat (S fuel) ->
  uleb128_size_loop fuel n v = n - 1 + blen (write_uleb128_loop (S fuel) v).
Proof.
  revert n v. induction fuel as [|fuel IH]; intros n v Hv; rewrite write_uleb128_loop_S by lia.
  - cbn. rewrite Z.div_small by (cbn in Hv; lia). cbn. unfold blen. cbn. lia.
  - cbn [uleb128_size_loop]. rewrite shiftr_7. rewrite Nat2Z.inj_succ, Z.pow_succ_r in Hv by lia.
    destruct (Z.leb_spec 128 v) as [Hge|Hlt].
    + pose proof (Z.div_le_mono 128 v 128 ltac:(lia) Hge) as Hd. rewrite Z.div_same in Hd by lia.
      zcase. rewrite IH, blen_cons by (split; [lia|apply Z.div_lt_upper_bound; lia]). lia.
    + rewrite Z.div_small by lia. cbn. unfold blen. cbn. lia.
Qed.

(** ** Decoders never panic

    [reads P f]: on every reader over a real buffer, [f] fails cleanly or
    consumes a prefix of what is left and returns a value satisfying [P]; it
    panics only if [bad] (which is [False] for all the primitives). *)

Section Reads.
Context {bad : Prop}.

Definition reads {A} (P : A -> Prop) (f : ByteReader -> TelemetryResult (A * ByteReader)) : Prop :=
  forall pre rest, buf_ok (pre ++ rest) ->
  match f (at_ pre rest) with
  | Ok (a, r) => P a /\ exists c rest', rest = c ++ rest' /\ r = at_ (pre ++ c) rest'
  | Err _ => True
  | Panic => bad
  end.

Lemma reads_bind {A B} (P : A -> Prop) (Q : B -> Prop) f g :
  reads P f -> (forall a, P a -> reads Q (g a)) -> reads Q (fun r => '(a, r) ← f r; g a r).
Proof.
  intros Hf Hg pre rest Hb. specialize (Hf pre rest Hb).
  destruct (f (at_ pre rest)) as [[a r]| |]; cbn; [|done|done].
  destruct Hf as (Ha & c & rest' & -> & ->). rewrite app_assoc in Hb.
  specialize (Hg a Ha _ _ Hb). destruct (g a _) as [[b r]| |]; [|done|done].
  destruct Hg as (HQ & c' & rest'' & -> & ->). split; [done|].
  exists (c ++ c'), rest''. by rewrite !app_assoc.
Qed.

Lemma reads_ret {A} (P : A -> Prop) a : P a -> reads P (fun r => Ok (a, r)).
Proof. intros Ha pre rest _. split; [done|]. exists [], rest. by rewrite app_nil_r. Qed.

Lemma reads_err {A} (P : A -> Prop) e : reads P (fun _ => Err e).
Proof. done. Qed.

Lemma reads_pure {A B} (P : A -> Prop) (m : TelemetryResult B) f :
  (m = Panic -> bad) -> (forall b, m = Ok b -> reads P (f b)) -> reads P (fun r => b ← m; f b r).
Proof. intros Hm Hf pre rest Hb. destruct m; cbn; [by apply Hf|done|auto]. Qed.

Lemma reads_weaken {A} (P Q : A -> Prop) f : reads P f -> (forall a, P a -> Q a) -> reads Q f.
Proof.
  intros Hf HPQ pre rest Hb. specialize (Hf pre rest Hb).
  destruct (f _) as [[a r]| |]; [|done|done]. destruct Hf as [Ha Hr]. split; auto.
Qed.

Lemma read_bytes_reads n : 0 <= n -> reads (fun s => blen s = n) (fun r => read_bytes r n).
Proof.
  intros Hn pre rest Hb. destruct (Z.ltb_spec (blen rest) n) as [Hlt|Hge].
  { by rewrite read_bytes_short. }
  rewrite <- (take_drop (Z.to_nat n) rest) in Hb |- *.
  assert (blen (take (Z.to_nat n) rest) = n) as Hlen
    by (unfold blen in *; rewrite length_take; lia).
  rewrite read_bytes_at by done. split; [done|]. by eexists _, _.
Qed.

Lemma read_u8_reads : reads is_u8 read_u8.
Proof.
  unfold read_u8. eapply reads_bind; [apply read_bytes_reads; lia|]. cbn. intros s Hs.
  destruct s as [|b s]; [done|]. apply reads_pure; [done|]. intros ? [= <-].
  apply reads_ret. apply u8_range.
Qed.

Lemma read_u32_le_reads : reads is_u32 read_u32_le.
Proof.
  unfold read_u32_le. eapply reads_bind; [apply read_bytes_reads; lia|]. cbn. intros s Hs.
  destruct s as [|b0 [|b1 [|b2 [|b3 [|b4 s]]]]]; unfold blen in Hs; cbn in Hs; try lia.
  apply (reads_ret is_u32 (le_value [b0; b1; b2; b3])).
  exact (le_value_range [b0; b1; b2; b3]).
Qed.

Lemma read_reliable_header_reads : reads reliable_header_ok read_reliable_header.
Proof.
  unfold read_reliable_header.
  eapply reads_bind; [apply read_u8_reads|]. intros f Hf.
  eapply reads_bind; [apply read_u32_le_reads|]. intros s Hs.
  eapply reads_bind; [apply read_u32_le_reads|]. intros a Ha.
  by apply reads_ret.
Qed.

Lemma lor_u64 a b : is_u64 a -> is_u64 b -> is_u64 (Z.lor a b).
Proof.
  unfold is_u64. intros Ha Hb. split; [apply Z.lor_nonneg; lia|].
  destruct (Z.eq_dec (Z.lor a b) 0) as [->|Hne]; [lia|].
  assert (0 <= Z.lor a b) by (apply Z.lor_nonneg; lia).
  apply Z.log2_lt_pow2; [lia|]. rewrite Z.log2_lor by lia.
  apply Z.max_lub_lt; (destruct (Z.eq_dec a 0) as [->|], (Z.eq_dec b 0) as [->|]);
    cbn; try lia; apply Z.log2_lt_pow2; lia.
Qed.

Lemma read_uleb128_loop_reads rounds result shift :
  is_u64 result -> reads is_u64 (read_uleb128_loop rounds result shift).
Proof.
  revert result shift. induction rounds as [|rounds IH]; intros result shift Hr;
    cbn [read_uleb128_loop]; [apply reads_err|].
  eapply reads_bind; [apply read_u8_reads|]. cbn. intros b _.
  assert (is_u64 (Z.lor result (wrap 64 (Z.shiftl (Z.land b 127) shift)))) as Hl
    by (apply lor_u64; [done|apply wrap_range; lia]).
  destruct (_ =? 0); [by apply reads_ret|]. by apply IH.
Qed.

Lemma read_uleb128_reads : reads is_u64 read_uleb128.
Proof. apply read_uleb128_loop_reads. unfold is_u64. lia. Qed.

End Reads.
#[global] Arguments reads bad {A} P f.

Lemma split_crc32_app data c :
  blen c = 4 -> split_crc32 (data ++ c) = Ok (data, le_value c).
Proof.
  intros Hc. unfold split_crc32, CRC32_BYTES. rewrite blen_app, Hc.
  pose proof (blen_nonneg data). zcase. rewrite Z.add_simpl_r.
  destruct c as [|b0 [|b1 [|b2 [|b3 [|b4 s]]]]]; unfold blen in Hc; cbn in Hc; try lia.
  assert (forall (i : nat) b, [b0; b1; b2; b3] !! i = Some b ->
    elem_at (E:=TelemetryError) (data ++ [b0; b1; b2; b3]) (blen data + Z.of_nat i) = Ok b) as He.
  { intros i b Hi. rewrite elem_at_eq by lia.
    rewrite lookup_app_r by (unfold blen; lia).
    replace (_ - _)%nat with i by (unfold blen; lia). by rewrite Hi. }
  pose proof (He 0%nat b0 eq_refl) as He0. pose proof (He 1%nat b1 eq_refl) as He1.
  pose proof (He 2%nat b2 eq_refl) as He2. pose proof (He 3%nat b3 eq_refl) as He3.
  change (Z.of_nat 1) with 1 in He1. change (Z.of_nat 2) with 2 in He2.
  change (Z.of_nat 3) with 3 in He3. rewrite Z.add_0_r in He0.
  rewrite He0, He1, He2, He3. cbn [res_bind mbind res_mbind].
  rewrite slice_ok by (rewrite ?length_app; unfold blen; cbn; lia).
  rewrite drop_0, Z.sub_0_r. unfold blen. by rewrite Nat2Z.id, take_app_length.
Qed.

Lemma split_crc32_short l : blen l < 4 -> split_crc32 l = Err (Deserialize "short buffer").
Proof. intros. unfold split_crc32, CRC32_BYTES. by zcase. Qed.

Lemma split_crc32_cases l :
  (split_crc32 l = Err (Deserialize "short buffer") /\ blen l < 4)
  \/ exists data c, l = data ++ c /\ blen c = 4 /\ split_crc32 l = Ok (data, le_value c).
Proof.
  destruct (Z.ltb_spec (blen l) 4) as [Hlt|Hge]; [left; split; [by apply split_crc32_short|done]|].
  right. set (n := Z.to_nat (blen l - 4)).
  exists (take n l), (drop n l). assert (blen (drop n l) = 4) as Hd
    by (unfold blen in *; rewrite length_drop; lia).
  split_and!; [by rewrite take_drop|done|]. rewrite <- (take_drop n l) at 1.
  by apply split_crc32_app.
Qed.

Section CrcFacts.
Context `{ExternalOk}.

Lemma verify_append data : verify_crc32 (append_crc32 data) = Ok data.
Proof.
  unfold verify_crc32, append_crc32. rewrite split_crc32_app by apply blen_le_bytes.
  cbn [res_bind mbind res_mbind]. rewrite le_value_bytes_u32 by apply crc32_range.
  by rewrite Z.eqb_refl.
Qed.

(** The checksum accepts exactly the buffers that carry it. *)
Lemma verify_crc32_ok l data : verify_crc32 l = Ok data <-> l = append_crc32 data.
Proof.
  split; [|intros ->; apply verify_append]. unfold verify_crc32, append_crc32.
  destruct (split_crc32_cases l) as [[-> _]|(d & c & -> & Hc & ->)]; cbn; [done|].
  destruct (Z.eqb_spec (crc32 d) (le_value c)) as [He|]; cbn; [|done]. intros [= <-].
  rewrite He. apply (f_equal (app d)). rewrite <- (le_bytes_value c) at 1.
  by replace (length c) with 4%nat by (unfold blen in Hc; lia).
Qed.

Lemma verify_crc32_no_panic l : no_panic (verify_crc32 l).
Proof.
  unfold verify_crc32.
  destruct (split_crc32_cases l) as [[-> _]|(d & c & -> & Hc & ->)]; cbn; [done|].
  by destruct (negb _).
Qed.
End CrcFacts.

(** ** The endpoint bitmap *)

Definition bm_test (bm : list byte) (idx : Z) : bool :=
  Z.testbit (u8 (nth (Z.to_nat (idx / 8)) bm (b8 0))) (idx mod 8).

Lemma bit_test z i : 0 <= i -> negb (Z.land (Z.shiftr z i) 1 =? 0) = Z.testbit z i.
Proof.
  intros Hi. rewrite Z.testbit_odd. change 1 with (Z.ones 1) at 1.
  rewrite Z.land_ones by lia. change (2 ^ 1) with 2. rewrite Zmod_odd. by destruct (Z.odd _).
Qed.

Lemma bitmap_bit_ok bm idx :
  0 <= idx < 8 * blen bm -> bitmap_bit bm idx = Ok (bm_test bm idx).
Proof.
  intros Hi. unfold bitmap_bit, bm_test.
  destruct (elem_at_ok (E:=TelemetryError) bm (idx / 8)) as (b & -> & Hb).
  { split; [apply Z.div_pos; lia|]. apply Z.div_lt_upper_bound; [lia|]. unfold blen in Hi. lia. }
  cbn [res_bind mbind res_mbind]. erewrite nth_lookup_Some by done.
  rewrite bit_test by (apply Z.mod_pos_bound; lia). done.
Qed.

Lemma testbit_set z i j :
  0 <= z < 256 -> 0 <= i < 8 -> 0 <= j < 8 ->
  Z.testbit (u8 (b8 (Z.lor z (Z.shiftl 1 i)))) j = Z.testbit z j || (i =? j).
Proof.
  intros Hz Hi Hj. rewrite u8_b8. change 256 with (2 ^ 8).
  rewrite Z.mod_pow2_bits_low, Z.lor_spec, Z.shiftl_spec by lia. f_equal.
  destruct (Z.eqb_spec i j) as [->|Hne]; [by rewrite Z.sub_diag|].
  destruct (Z.ltb_spec j i); [by rewrite Z.testbit_neg_r by lia|].
  apply Z.bits_above_log2; cbn; lia.
Qed.


Lemma nth_default_lookup {A} (l : list A) i d : nth i l d = default d (l !! i).
Proof. revert i; induction l as [|a l IH]; intros [|i]; cbn; auto. Qed.

Lemma bm_test_set_bit bm i j :
  0 <= i < 8 * blen bm -> 0 <= j ->
  bm_test (set_bit bm i) j = bm_test bm j || (i =? j).
Proof.
  intros Hi Hj. unfold bm_test, set_bit. rewrite !nth_default_lookup.
  pose proof (Z.mod_pos_bound i 8 ltac:(lia)). pose proof (Z.mod_pos_bound j 8 ltac:(lia)).
  pose proof (Z.div_mod i 8 ltac:(lia)). pose proof (Z.div_mod j 8 ltac:(lia)).
  assert (0 <= i / 8 < blen bm) as Hd
    by (split; [apply Z.div_pos; lia|apply Z.div_lt_upper_bound; lia]).
  pose proof (Z.div_pos j 8 ltac:(lia) ltac:(lia)).
  destruct (decide (i / 8 = j / 8)) as [He|Hne].
  - rewrite He, list_lookup_alter_eq.
    destruct (lookup_lt_is_Some_2 bm (Z.to_nat (j / 8))) as [b Hb]; [unfold blen in Hd; lia|].
    rewrite Hb. cbn -[Z.lor Z.shiftl].
    rewrite testbit_set by (try apply u8_range; lia). f_equal.
    destruct (Z.eqb_spec (i mod 8) (j mod 8)), (Z.eqb_spec i j); lia.
  - rewrite list_lookup_alter_ne by lia.
    destruct (Z.eqb_spec i j) as [->|]; [done|]. by rewrite orb_false_r.
Qed.

Section BitmapFacts.
Context `{Schema}.

Lemma bitmap_bytes_cover : EP_BITMAP_BITS <= 8 * EP_BITMAP_BYTES.
Proof. unfold EP_BITMAP_BYTES. pose proof (Z.div_mod (EP_BITMAP_BITS + 7) 8).
  pose proof (Z.mod_pos_bound (EP_BITMAP_BITS + 7) 8). lia. Qed.

Lemma bitmap_bits_pos : 0 < EP_BITMAP_BITS.
Proof. unfold EP_BITMAP_BITS, MAX_VALUE_DATA_ENDPOINT. rewrite length_endpoint_table. unfold n_eps. lia. Qed.

Lemma blen_set_bit bm i : blen (set_bit bm i) = blen bm.
Proof. unfold blen, set_bit. by rewrite length_alter. Qed.

Lemma blen_build eps : blen (build_endpoint_bitmap eps) = EP_BITMAP_BYTES.
Proof.
  unfold build_endpoint_bitmap.
  assert (blen (replicate (Z.to_nat EP_BITMAP_BYTES) (b8 0)) = EP_BITMAP_BYTES) as Hl.
  { unfold blen. rewrite length_replicate. pose proof bitmap_bits_pos.
    pose proof bitmap_bytes_cover. lia. }
  revert Hl. generalize (replicate (Z.to_nat EP_BITMAP_BYTES) (b8 0)).
  induction eps as [|e eps IH]; intros bm Hl; cbn; [done|]. apply IH.
  case_match; [by rewrite blen_set_bit|done].
Qed.

Lemma bm_test_fold eps bm j :
  Forall valid_ep eps -> blen bm = EP_BITMAP_BYTES -> 0 <= j ->
  bm_test (fold_left (fun bm idx => if idx <? EP_BITMAP_BITS then set_bit bm idx else bm) eps bm) j
  = bm_test bm j || bool_decide (j ∈ eps).
Proof.
  intros He. revert bm. induction He as [|e eps [He1 He2] Hes IH]; intros bm Hl Hj; cbn.
  { by rewrite orb_false_r. }
  pose proof bitmap_bytes_cover. assert (e < EP_BITMAP_BITS) by (unfold EP_BITMAP_BITS; lia). zcase.
  rewrite IH by (rewrite ?blen_set_bit; done). rewrite bm_test_set_bit by lia.
  destruct (Z.eqb_spec e j) as [->|Hne]; cbn.
  - rewrite (bool_decide_true (j ∈ j :: eps)) by set_solver. by rewrite !orb_true_r.
  - rewrite orb_false_r. f_equal. apply bool_decide_ext. set_solver.
Qed.

Lemma bm_test_build eps j :
  Forall valid_ep eps -> 0 <= j -> bm_test (build_endpoint_bitmap eps) j = bool_decide (j ∈ eps).
Proof.
  intros He Hj. unfold build_endpoint_bitmap. rewrite bm_test_fold; [|done| |done].
  - assert (forall k n, u8 (nth k (replicate n (b8 0)) (b8 0)) = 0) as Hz.
    { intros k n. rewrite nth_default_lookup.
      destruct (replicate n (b8 0) !! k) eqn:E; [apply lookup_replicate in E as [-> _]|]; done. }
    unfold bm_test. by rewrite Hz, Z.bits_0.
  - unfold blen. rewrite length_replicate. pose proof bitmap_bits_pos.
    pose proof bitmap_bytes_cover. lia.
Qed.

Lemma expand_bits_ok bm idxs :
  MAX_VALUE_DATA_ENDPOINT <= u32_max ->
  Forall (fun i => 0 <= i < 8 * blen bm /\ valid_ep i) idxs ->
  expand_bits bm idxs = Ok (filter (fun i => bm_test bm i = true) idxs).
Proof.
  intros Hmax. induction 1 as [|i idxs [Hi Hv] Hs IH]; [done|]. cbn [expand_bits].
  rewrite bitmap_bit_ok by done. cbn [res_bind mbind res_mbind].
  rewrite filter_cons, IH. destruct (bm_test bm i); [|done]. rewrite decide_True by done.
  unfold endpoint_try_from_u32, valid_ep in *. rewrite wrap_small by zlia. by zcase.
Qed.

Lemma bitmap_indices bm :
  blen bm = EP_BITMAP_BYTES ->
  Forall (fun i => 0 <= i < 8 * blen bm /\ valid_ep i) (seqZ 0 EP_BITMAP_BITS).
Proof.
  intros Hl. apply Forall_forall. intros i Hi%elem_of_seqZ.
  pose proof bitmap_bytes_cover. unfold valid_ep, EP_BITMAP_BITS in *. lia.
Qed.

Lemma seqZ_sorted m n : strictly_sorted (seqZ m n).
Proof.
  unfold strictly_sorted. destruct (Z.ltb_spec n 0) as [Hn|Hn]; [rewrite seqZ_nil by lia; constructor|].
  revert m. pattern n. apply natlike_ind; [intros m; rewrite seqZ_nil by lia; constructor| |done].
  intros k Hk IH m. rewrite seqZ_cons by lia. rewrite Z.pred_succ. constructor; [apply IH|].
  apply Forall_forall. intros i Hi%elem_of_seqZ. apply lt_Z. lia.
Qed.

Lemma filter_sorted (P : Z -> Prop) `{forall x, Decision (P x)} l :
  strictly_sorted l -> strictly_sorted (filter P l).
Proof.
  unfold strictly_sorted. induction 1 as [|x l Hs IH Hx]; [constructor|].
  rewrite filter_cons. destruct (decide (P x)); [|done]. constructor; [done|].
  apply Forall_forall. intros y [_ Hy]%list_elem_of_filter.
  rewrite Forall_forall in Hx. auto.
Qed.

Lemma expand_cases bm :
  MAX_VALUE_DATA_ENDPOINT <= u32_max ->
  expand_endpoint_bitmap bm =
  if blen bm =? EP_BITMAP_BYTES
  then Ok (filter (fun i => bm_test bm i = true) (seqZ 0 EP_BITMAP_BITS))
  else Err (Deserialize "bad endpoint bitmap size").
Proof.
  intros Hmax. unfold expand_endpoint_bitmap. destruct (Z.eqb_spec (blen bm) EP_BITMAP_BYTES); [|done].
  cbn [negb]. unfold endpoint_try_from_u32 at 1. pose proof bitmap_bits_pos. unfold EP_BITMAP_BITS in *.
  zcase. cbn. rewrite expand_bits_ok; [done|done|by apply bitmap_indices].
Qed.

Lemma expanded_valid bm eps :
  MAX_VALUE_DATA_ENDPOINT <= u32_max ->
  expand_endpoint_bitmap bm = Ok eps -> strictly_sorted eps /\ Forall valid_ep eps.
Proof.
  intros Hmax. rewrite expand_cases by done. case_match; [|done]. intros [= <-]. split.
  - apply filter_sorted, seqZ_sorted.
  - apply Forall_forall. intros i [_ Hi%elem_of_seqZ]%list_elem_of_filter.
    unfold valid_ep, EP_BITMAP_BITS in *. lia.
Qed.

Lemma filter_build eps n :
  Forall valid_ep eps -> EP_BITMAP_BITS <= n ->
  filter (fun i => bm_test (build_endpoint_bitmap eps) i = true) (seqZ 0 n) = sort_dedup eps.
Proof.
  intros He Hn. apply strictly_sorted_ext.
  - apply filter_sorted, seqZ_sorted.
  - apply sort_dedup_sorted.
  - intros i. rewrite elem_of_sort_dedup, list_elem_of_filter, elem_of_seqZ. split.
    + intros [Ht Hi]. rewrite bm_test_build in Ht by (done || lia). by apply bool_decide_eq_true in Ht.
    + intros Hi. pose proof He as He'. rewrite Forall_forall in He'. specialize (He' i Hi) as [H1 H2].
      rewrite bm_test_build by done. unfold EP_BITMAP_BITS in *.
      split; [by apply bool_decide_eq_true|lia].
Qed.

(** What the receiver sees is the set of endpoints in ascending order. *)
Lemma expand_build eps :
  MAX_VALUE_DATA_ENDPOINT <= u32_max -> Forall valid_ep eps ->
  expand_endpoint_bitmap (build_endpoint_bitmap eps) = Ok (sort_dedup eps).
Proof.
  intros Hmax He. rewrite expand_cases, blen_build, Z.eqb_refl by done.
  by rewrite filter_build.
Qed.

Lemma length_filter_shift (P Q : Z -> Prop) `{forall x, Decision (P x), forall x, Decision (Q x)} k m n :
  (forall i, m <= i < m + n -> P (k + i) <-> Q i) ->
  length (filter P (seqZ (k + m) n)) = length (filter Q (seqZ m n)).
Proof.
  intros HPQ. destruct (Z.ltb_spec n 0) as [Hn|Hn]; [by rewrite !seqZ_nil by lia|].
  revert m HPQ. pattern n. apply natlike_ind; [intros; by rewrite !seqZ_nil by lia| |done].
  intros j Hj IH m HPQ. rewrite !(seqZ_cons _ (Z.succ j)), !Z.pred_succ by lia.
  rewrite !filter_cons. replace (Z.succ (k + m)) with (k + Z.succ m) by lia.
  specialize (IH (Z.succ m) ltac:(intros; apply HPQ; lia)).
  specialize (HPQ m ltac:(lia)).
  destruct (decide (P (k + m))), (decide (Q m)); cbn; try tauto; by rewrite IH.
Qed.

Lemma bm_test_cons b bm i :
  0 <= i -> bm_test (b :: bm) (8 + i) = bm_test bm i.
Proof.
  intros Hi. unfold bm_test. replace (8 + i) with (i + 1 * 8) by lia.
  rewrite Z.div_add, Z.mod_add by lia.
  rewrite Z.add_1_r, Z2Nat.inj_succ by (apply Z.div_pos; lia). done.
Qed.

Lemma popcount_spec bm :
  bitmap_popcount bm
  = Z.of_nat (length (filter (fun i => bm_test bm i = true) (seqZ 0 (8 * blen bm)))).
Proof.
  induction bm as [|b bm IH]; [done|]. cbn [bitmap_popcount foldr].
  fold (bitmap_popcount bm). rewrite IH, blen_cons. pose proof (blen_nonneg bm).
  replace (8 * (1 + blen bm)) with (8 + 8 * blen bm) by lia.
  rewrite seqZ_app, filter_app, length_app, Nat2Z.inj_add by lia. unfold count_ones.
  rewrite <- (length_filter_shift (fun i => bm_test (b :: bm) i = true)
                (fun i => Z.testbit (u8 b) i = true) 0 0 8).
  2: { intros i Hi. unfold bm_test. rewrite Z.add_0_l, Z.div_small, Z.mod_small by lia. done. }
  rewrite <- (length_filter_shift (fun i => bm_test (b :: bm) i = true)
                (fun i => bm_test bm i = true) 8 0 (8 * blen bm)).
  2: { intros i Hi. by rewrite bm_test_cons by lia. }
  done.
Qed.

Lemma popcount_build eps :
  Forall valid_ep eps ->
  bitmap_popcount (build_endpoint_bitmap eps) = Z.of_nat (length (sort_dedup eps)).
Proof.
  intros He. rewrite popcount_spec, blen_build. f_equal. f_equal.
  apply filter_build; [done|apply bitmap_bytes_cover].
Qed.

(** There are at most as many unique endpoints as endpoints in the schema. *)
Lemma sort_dedup_bound eps :
  Forall valid_ep eps -> Z.of_nat (length (sort_dedup eps)) <= EP_BITMAP_BITS.
Proof.
  intros He. rewrite <- (filter_build eps EP_BITMAP_BITS) by (done || lia).
  pose proof bitmap_bits_pos.
  etransitivity; [apply inj_le, length_filter|]. rewrite length_seqZ. lia.
Qed.

Lemma data_type_from_raw_ok ty_v ty :
  data_type_from_raw ty_v = Ok ty -> 0 <= ty_v -> ty = ty_v /\ valid_ty ty.
Proof.
  unfold data_type_from_raw, type_try_from_u32. zcase; cbn; try done.
  intros [= <-] ?. unfold valid_ty. lia.
Qed.

Lemma data_type_from_raw_valid ty :
  MAX_VALUE_DATA_TYPE <= u32_max -> valid_ty ty -> data_type_from_raw ty = Ok ty.
Proof. unfold data_type_from_raw, type_try_from_u32, valid_ty. intros. by zcase. Qed.

Lemma data_type_from_raw_no_panic ty_v : no_panic (data_type_from_raw ty_v).
Proof. unfold data_type_from_raw, type_try_from_u32. by repeat case_match. Qed.
End BitmapFacts.

(** ** UTF-8 and compression facts *)

Lemma from_utf8_no_panic e l : no_panic (from_utf8 e l).
Proof. unfold from_utf8. by case_match. Qed.

Section CompressionFacts.
Context `{Config} `{ExternalOk}.

(** Compression is sound: what it returns decompresses to its input, and is
    strictly shorter than it (or is the input). *)
Lemma compress_cases payload :
  buf_ok payload ->
  compress_if_beneficial payload = Ok (false, payload)
  \/ exists c, compress_if_beneficial payload = Ok (true, c) /\ 0 < blen c
       /\ blen c + 1 < blen payload
       /\ decompress c (blen payload) = Ok payload.
Proof.
  intros Hb. unfold buf_ok in Hb. unfold compress_if_beneficial, compress_to_vec_bounded, vec_zeroed.
  destruct (Z.ltb_spec (blen payload) PAYLOAD_COMPRESS_THRESHOLD); [by left|].
  pose proof (blen_nonneg payload).
  destruct (_ || _) eqn:E; [by left|]. cbn [res_bind mbind res_mbind].
  destruct (Z.ltb_spec isize_max (sat_sub (blen payload) 2)); [zlia|]. cbn.
  destruct (zstd_compress payload _) as [c|] eqn:Hc; [|by left].
  pose proof (zstd_compress_fits _ _ _ Hc) as Hfit. apply zstd_roundtrip in Hc.
  rewrite wrap_small by zlia.
  destruct (Z.leb_spec (blen payload) (blen c + 1)); [by left|]. right. exists c.
  split_and!; [done|lia|lia|]. unfold decompress, vec_zeroed. zcase. cbn.
  by rewrite Hc, Z.eqb_refl.
Qed.

Lemma decompress_no_panic c n : n <= isize_max -> no_panic (decompress c n).
Proof. intros. unfold decompress, vec_zeroed. zcase. cbn. by repeat case_match. Qed.

Lemma decompress_len c n l : decompress c n = Ok l -> blen l = n /\ n <= isize_max.
Proof.
  unfold decompress, vec_zeroed. destruct (Z.ltb_spec isize_max n); cbn; [done|]. case_match; [|done].
  destruct (Z.eqb_spec (blen l0) n); cbn; [|done]. by intros [= <-].
Qed.

Lemma decode_sender_valid w c n s : decode_sender_name w c n = Ok s -> utf8_valid s = true.
Proof.
  unfold decode_sender_name, from_utf8. destruct c.
  - intros (d & _ & Hd)%bind_ok. case_match; [|done]. by injection Hd as <-.
  - case_match; [|done]. by intros [= <-].
Qed.

Lemma decode_sender_no_panic w c n : n <= isize_max -> no_panic (decode_sender_name w c n).
Proof.
  intros. unfold decode_sender_name. destruct c; [|apply from_utf8_no_panic].
  apply no_panic_bind; [by apply decompress_no_panic|]. intros; apply from_utf8_no_panic.
Qed.
End CompressionFacts.

Lemma blen_uleb_loop fuel v : blen (write_uleb128_loop fuel v) <= Z.of_nat fuel.
Proof.
  revert v. induction fuel as [|fuel IH]; intros v; cbn [write_uleb128_loop]; [done|].
  case_match; rewrite blen_cons; [rewrite blen_nil; lia|]. specialize (IH (Z.shiftr v 7)). lia.
Qed.

Lemma uleb128_size_spec v : is_u64 v -> uleb128_size v = blen (write_uleb128 v).
Proof.
  intros Hv. unfold uleb128_size, write_uleb128. rewrite uleb128_size_loop_spec; [lia|].
  unfold is_u64 in Hv. cbn. lia.
Qed.

(** ** Properties *)

(** A varint is read back wherever it stands in a buffer: the reader
    returns the value, stops right after it, and the size helper predicts its
    length, at most ten bytes, for every [u64]. *)
Theorem uleb128_roundtrip v pre rest :
  is_u64 v -> buf_ok (pre ++ write_uleb128 v ++ rest) ->
  read_uleb128 (at_ pre (write_uleb128 v ++ rest)) = Ok (v, at_ (pre ++ write_uleb128 v) rest)
  /\ uleb128_size v = blen (write_uleb128 v)
  /\ 1 <= blen (write_uleb128 v) <= 10.
Proof.
  intros Hv Hb. split; [by apply read_write_uleb128|]. split; [by apply uleb128_size_spec|].
  split; [|apply (blen_uleb_loop 10)].
  unfold write_uleb128. rewrite write_uleb128_loop_S by apply Hv.
  case_match; rewrite blen_cons; [done|]. pose proof (blen_nonneg (write_uleb128_loop 9 (v / 128))). lia.
Qed.

Lemma uleb128_roundtrip_witness :
  is_u64 u64_max /\ uleb128_size u64_max = 10
  /\ read_uleb128 (reader_new (write_uleb128 300 ++ [b8 7]))
     = Ok (300, at_ (write_uleb128 300) [b8 7]).
Proof.
  split; [zlia|]. split; [reflexivity|].
  apply (uleb128_roundtrip 300 [] [b8 7]); [zlia|vm_compute; discriminate].
Defined.

(** The endpoint bitmap carries the set of endpoints: expanding it
    gives them in ascending order without repetition, its population count is
    their number, and expansion of any received bitmap of the right size
    succeeds with valid endpoints only. *)
Theorem endpoint_bitmap_roundtrip `{Schema} eps bm :
  MAX_VALUE_DATA_ENDPOINT <= u32_max -> Forall valid_ep eps ->
  expand_endpoint_bitmap (build_endpoint_bitmap eps) = Ok (sort_dedup eps)
  /\ bitmap_popcount (build_endpoint_bitmap eps) = Z.of_nat (length (sort_dedup eps))
  /\ match expand_endpoint_bitmap bm with
     | Ok l => blen bm = EP_BITMAP_BYTES /\ strictly_sorted l /\ Forall valid_ep l
               /\ (forall i, valid_ep i -> i ∈ l <-> bitmap_bit bm i = Ok true)
     | Err _ => blen bm <> EP_BITMAP_BYTES
     | Panic => False
     end.
Proof.
  intros Hmax He. split; [by apply expand_build|]. split; [by apply popcount_build|].
  destruct (expand_endpoint_bitmap bm) as [l| |] eqn:E.
  - destruct (expanded_valid _ _ Hmax E) as [Hs Hv]. rewrite expand_cases in E by done.
    destruct (Z.eqb_spec (blen bm) EP_BITMAP_BYTES) as [Hl|]; [|done]. injection E as <-.
    split; [done|]. split; [done|]. split; [done|]. intros i Hi.
    pose proof bitmap_bytes_cover. unfold valid_ep, EP_BITMAP_BITS in *.
    rewrite list_elem_of_filter, elem_of_seqZ, bitmap_bit_ok by lia. split.
    + by intros [-> _].
    + intros [= ->]. split; [done|lia].
  - rewrite expand_cases in E by done. by destruct (Z.eqb_spec (blen bm) EP_BITMAP_BYTES).
  - rewrite expand_cases in E by done. by case_match.
Qed.

Lemma endpoint_bitmap_roundtrip_witness :
  @expand_endpoint_bitmap default_schema (@build_endpoint_bitmap default_schema [1; 0; 1])
  = Ok [0; 1].
Proof.
  apply (@endpoint_bitmap_roundtrip default_schema [1; 0; 1] []); [vm_compute; discriminate|].
  repeat constructor; vm_compute; discriminate.
Defined.

#[global] Arguments write_uleb128 : simpl never.
#[global] Arguments read_uleb128 : simpl never.
#[global] Arguments uleb128_size : simpl never.
