(* ===== verification/Packet.v ===== *)
(** * Packets ([src/packet.rs]) and the typed loggers ([src/router.rs])

    [Packet] with its validating constructors, its identifier hash, its typed
    accessors, and the router's [LeBytes] encoding helpers that build packets
    from typed slices. *)

From S2P Require Import Prelude Ordered Telemetry Config Schema Queue SmallPayload Wire.

(** ** Primitive element types

    [LeBytes], [LeDecode] and the raw memory copy of the constructors agree on
    a little-endian target: a value is the integer it denotes, a float its bit
    pattern. *)

Inductive Prim :=
| PF32 | PF64 | PU8 | PU16 | PU32 | PU64 | PU128 | PI8 | PI16 | PI32 | PI64 | PI128.

Definition WIDTH (T : Prim) : Z :=
  match T with
  | PU8 | PI8 => 1 | PU16 | PI16 => 2 | PF32 | PU32 | PI32 => 4
  | PF64 | PU64 | PI64 => 8 | PU128 | PI128 => 16
  end.

Definition signed (T : Prim) : bool :=
  match T with PI8 | PI16 | PI32 | PI64 | PI128 => true | _ => false end.

(** [T::from_le_bytes]; a slice of the wrong length panics. *)
Definition from_le (T : Prim) (l : list byte) : TelemetryResult Z :=
  if negb (blen l =? WIDTH T) then Panic
  else Ok (if signed T then swrap (8 * WIDTH T) (le_value l) else le_value l).

(** [v.to_le_bytes()]. *)
Definition write_le (T : Prim) (v : Z) : list byte := le_bytes (Z.to_nat (WIDTH T)) v.

Definition prim_ok (T : Prim) (v : Z) : Prop :=
  if signed T then - 2 ^ (8 * WIDTH T - 1) <= v < 2 ^ (8 * WIDTH T - 1)
  else 0 <= v < 2 ^ (8 * WIDTH T).

(** The variant each [data_as_*] accessor expects. *)
Definition prim_kind (T : Prim) : MessageDataType :=
  match T with
  | PF32 => Float32 | PF64 => Float64 | PU8 => UInt8 | PU16 => UInt16 | PU32 => UInt32
  | PU64 => UInt64 | PU128 => UInt128 | PI8 => Int8 | PI16 => Int16 | PI32 => Int32
  | PI64 => Int64 | PI128 => Int128
  end.

Definition encode_slice_le (T : Prim) (data : list Z) : list byte :=
  concat (map (write_le T) data).

(** ** Hashing *)

Definition PRIME : Z := 0x9E3779B1.
Definition HASH_SEED : Z := 0x9E3779B97F4A7C15.

Fixpoint hash_bytes_u64 (h : Z) (bytes : list byte) : Z :=
  match bytes with
  | [] => h
  | b :: bytes =>
      let h := Z.lxor h (u8 b) in
      let h := wrap 64 (h * PRIME) in
      let h := Z.lxor h (Z.shiftr h 27) in
      hash_bytes_u64 h bytes
  end.

(** ** Content validation *)

Definition element_width (dt : MessageDataType) : Z :=
  match dt with
  | UInt8 | Int8 | TBool => 1
  | UInt16 | Int16 => 2
  | UInt32 | Int32 | Float32 => 4
  | UInt64 | Int64 | Float64 => 8
  | UInt128 | Int128 => 16
  | TString | Binary => 1
  | NoData => 0
  end.

(** [iter().rposition(|&b| b != 0).map(|i| i + 1)]. *)
Fixpoint text_end (l : list byte) : option Z :=
  match l with
  | [] => None
  | b :: l =>
      match text_end l with
      | Some e => Some (e + 1)
      | None => if u8 b =? 0 then None else Some 1
      end
  end.

Record Packet := {
  ty : DataType;
  data_size : Z;
  sender : Str;
  pkt_endpoints : list DataEndpoint;
  timestamp : Z;
  payload : StandardSmallPayload
}.

Section Ops.
Context `{Config} `{Schema}.

Definition validate_dynamic_len_and_content (t : DataType) (bytes : list byte)
    : TelemetryResult unit :=
  let dt := get_data_type t in
  match dt with
  | TString =>
      let e := default 0 (text_end bytes) in
      if 0 <? e then s ← slice bytes 0 e; _ ← from_utf8 InvalidUtf8 s; Ok tt
      else Ok tt
  | Binary => Ok tt
  | _ =>
      let w := element_width dt in
      if (w =? 0) || negb (blen bytes mod w =? 0) then Err (SizeMismatch w (blen bytes))
      else Ok tt
  end.

Definition packet_new (t : DataType) (eps : list DataEndpoint) (snd : Str) (ts : Z)
    (data : list byte) : TelemetryResult Packet :=
  match eps with
  | [] => Err EmptyEndpoints
  | _ =>
      _ ← match element (message_meta t) with
          | Static need _ _ =>
              let need := wrap 64 (need * data_type_size (get_data_type t)) in
              if negb (blen data =? need) then Err (SizeMismatch need (blen data)) else Ok tt
          | Dynamic _ _ => validate_dynamic_len_and_content t data
          end;
      stored ← std_new data;
      Ok {| ty := t; data_size := blen data; sender := snd; pkt_endpoints := eps;
            timestamp := ts; payload := stored |}
  end.

(** [self.payload()]. *)
Definition payload_bytes (p : Packet) : TelemetryResult (list byte) := std_as_slice (payload p).

Definition packet_id (p : Packet) : TelemetryResult Z :=
  let h := hash_bytes_u64 HASH_SEED (sender p) in
  let h := hash_bytes_u64 h (get_message_name (ty p)) in
  let h := fold_left (fun h ep => hash_bytes_u64 h (ep_as_str ep)) (pkt_endpoints p) h in
  let h := hash_bytes_u64 h (le_bytes 8 (timestamp p)) in
  let h := hash_bytes_u64 h (le_bytes 8 (data_size p)) in
  bytes ← payload_bytes p;
  Ok (hash_bytes_u64 h bytes).

Definition validate (p : Packet) : TelemetryResult unit :=
  match pkt_endpoints p with
  | [] => Err EmptyEndpoints
  | _ =>
      if negb (std_len (payload p) =? data_size p)
      then Err (SizeMismatch (data_size p) (std_len (payload p)))
      else
        match element (message_meta (ty p)) with
        | Static need _ _ =>
            let need := wrap 64 (need * data_type_size (get_data_type (ty p))) in
            if negb (data_size p =? need) then Err (SizeMismatch need (data_size p)) else Ok tt
        | Dynamic _ _ =>
            bytes ← payload_bytes p; validate_dynamic_len_and_content (ty p) bytes
        end
  end.

(** ** Typed accessors *)

Definition ensure_kind (p : Packet) (expected : MessageDataType) : TelemetryResult unit :=
  let dt := get_data_type (ty p) in
  if decide (dt = expected) then Ok tt
  else Err (TypeMismatch (data_type_size expected) (data_type_size dt)).

(** [bytes.chunks_exact(width)]. *)
Fixpoint chunks_exact (count : nat) (width : nat) (l : list byte) : list (list byte) :=
  match count with
  | O => []
  | S count => take width l :: chunks_exact count width (drop width l)
  end.

Definition as_le_bytes (T : Prim) (p : Packet) (expected : MessageDataType)
    : TelemetryResult (list Z) :=
  _ ← ensure_kind p expected;
  bytes ← payload_bytes p;
  let width := WIDTH T in
  if negb (blen bytes mod width =? 0)
  then Err (SizeMismatch (blen bytes / width * width) (blen bytes))
  else mapM_res (from_le T)
         (chunks_exact (Z.to_nat (blen bytes / width)) (Z.to_nat width) bytes).

(** [data_as_f32], [data_as_u8], ..., [data_as_i128]. *)
Definition data_as (T : Prim) (p : Packet) : TelemetryResult (list Z) :=
  as_le_bytes T p (prim_kind T).

Definition data_as_bool (p : Packet) : TelemetryResult (list bool) :=
  _ ← ensure_kind p TBool;
  bytes ← payload_bytes p;
  Ok (map (fun b => negb (u8 b =? 0)) bytes).

Definition data_as_string (p : Packet) : TelemetryResult Str :=
  _ ← ensure_kind p TString;
  bytes ← payload_bytes p;
  let e := default 0 (text_end bytes) in
  if e =? 0 then Ok []
  else s ← slice bytes 0 e; from_utf8 InvalidUtf8 s.

Definition data_as_binary (p : Packet) : TelemetryResult (list byte) :=
  _ ← ensure_kind p Binary; payload_bytes p.

Definition data_as_utf8_ref (p : Packet) : TelemetryResult (option Str) :=
  if decide (get_data_type (ty p) = TString) then
    bytes ← payload_bytes p;
    match text_end bytes with
    | None => Ok None
    | Some e => s ← slice bytes 0 e; Ok (if utf8_valid s then Some s else None)
    end
  else Ok None.

(** ** Typed constructors *)

Definition from_prim_le_slice_with_sender (T : Prim) (t : DataType) (values : list Z)
    (eps : list DataEndpoint) (snd : Str) (ts : Z) : TelemetryResult Packet :=
  let dt := get_data_type t in
  if bool_decide (dt = TBool \/ dt = TString \/ dt = Binary) then Err BadArg
  else
    let element_size := data_type_size dt in
    if negb (element_size =? WIDTH T) then Err (TypeMismatch element_size (WIDTH T))
    else
      let total_bytes := wrap 64 (Z.of_nat (length values) * element_size) in
      _ ← match element (message_meta t) with
          | Static exact _ _ =>
              let exact_bytes := wrap 64 (exact * element_size) in
              if negb (total_bytes =? exact_bytes)
              then Err (SizeMismatch exact_bytes total_bytes) else Ok tt
          | Dynamic _ _ => Ok tt
          end;
      packet_new t eps snd ts (encode_slice_le T values).

(** [from_u8_slice], ..., [from_f64_slice]. *)
Definition from_prim_le_slice (T : Prim) (t : DataType) (values : list Z)
    (eps : list DataEndpoint) (ts : Z) : TelemetryResult Packet :=
  from_prim_le_slice_with_sender T t values eps DEVICE_IDENTIFIER ts.

Definition from_no_data (t : DataType) (eps : list DataEndpoint) (ts : Z) : TelemetryResult Packet :=
  _ ← match element (message_meta t) with
      | Static need _ _ => if negb (need =? 0) then Err (SizeMismatch need 0) else Ok tt
      | Dynamic _ _ => Ok tt
      end;
  packet_new t eps DEVICE_IDENTIFIER ts [].

Definition from_bool_slice (t : DataType) (values : list bool) (eps : list DataEndpoint) (ts : Z)
    : TelemetryResult Packet :=
  if decide (get_data_type t = TBool) then
    let total_bytes := Z.of_nat (length values) in
    _ ← match element (message_meta t) with
        | Static exact _ _ =>
            if negb (total_bytes =? exact) then Err (SizeMismatch exact total_bytes) else Ok tt
        | Dynamic _ _ => Ok tt
        end;
    packet_new t eps DEVICE_IDENTIFIER ts (map (fun b : bool => b8 (if b then 1 else 0)) values)
  else Err (TypeMismatch (data_type_size (get_data_type t)) 1).

Definition from_str_slice (t : DataType) (s : Str) (eps : list DataEndpoint) (ts : Z)
    : TelemetryResult Packet :=
  if decide (get_data_type t = TString) then packet_new t eps DEVICE_IDENTIFIER ts s
  else Err (TypeMismatch (data_type_size (get_data_type t)) 1).

(** ** The router's logging front end *)

Definition make_error_payload (msg : Str) : TelemetryResult (list byte) :=
  match element (message_meta TyTelemetryError) with
  | Static _ _ _ =>
      let max := get_needed_message_size TyTelemetryError in
      let n := Z.min max (blen msg) in
      _ ← vec_zeroed max;
      Ok (take (Z.to_nat n) msg ++ replicate (Z.to_nat (max - n)) (b8 0))
  | Dynamic _ _ => Ok msg
  end.

(** [log_raw] up to the call of [tx_function]. *)
Definition log_raw {R} (snd : Str) (t : DataType) (T : Prim) (data : list Z) (ts : Z)
    (tx_function : Packet -> TelemetryResult R) : TelemetryResult R :=
  let got := wrap 64 (Z.of_nat (length data) * WIDTH T) in
  _ ← match element (message_meta t) with
      | Static _ _ _ =>
          if negb (got =? get_needed_message_size t)
          then Err (SizeMismatch (get_needed_message_size t) got) else Ok tt
      | Dynamic _ _ =>
          if negb (got mod WIDTH T =? 0) then Err (SizeMismatch (WIDTH T) got) else Ok tt
      end;
  pkt ← packet_new t (endpoints (message_meta t)) snd ts (encode_slice_le T data);
  tx_function pkt.
End Ops.

Section Cost.
Context `{Layout}.

(** [impl ByteCost for Packet]; [DataEndpoint] is a [u32]. *)
Definition packet_byte_cost (p : Packet) : Z :=
  sizeof_Packet + blen (sender p) + Z.of_nat (length (pkt_endpoints p)) * 4
  + std_byte_cost (payload p).
End Cost.

(** ** Trailing NULs *)

Definition strip_nul (l : list byte) : list byte := take (Z.to_nat (default 0 (text_end l))) l.

Lemma text_end_bound l e : text_end l = Some e -> 1 <= e <= blen l.
Proof.
  revert e. induction l as [|b l IH]; intros e; cbn [text_end]; [done|]. rewrite blen_cons.
  pose proof (blen_nonneg l).
  destruct (text_end l) as [e'|].
  - intros [= <-]. specialize (IH e' eq_refl). lia.
  - case_match; [done|]. intros [= <-]. lia.
Qed.

Lemma text_end_range l : 0 <= default 0 (text_end l) <= blen l.
Proof.
  pose proof (blen_nonneg l). destruct (text_end l) as [e|] eqn:E; cbn; [|lia].
  apply text_end_bound in E. lia.
Qed.

(** [strip_nul] removes the longest all-NUL suffix. *)
Lemma strip_nul_spec l :
  exists n, l = strip_nul l ++ replicate n (b8 0)
    /\ (strip_nul l = [] \/ exists k b, strip_nul l = k ++ [b] /\ u8 b <> 0).
Proof.
  unfold strip_nul. induction l as [|b l (n & Hl & Hs)]; cbn [text_end].
  { exists 0%nat. cbn. by split; [|left]. }
  destruct (text_end l) as [e|] eqn:E; cbn [from_option] in *; unfold id in *.
  - apply text_end_bound in E. replace (Z.to_nat (e + 1)) with (S (Z.to_nat e)) by lia.
    exists n. cbn [take app]. split; [exact (f_equal (cons b) Hl)|]. right.
    destruct Hs as [Hs|(k & c & Hs & Hc)].
    + destruct l; [unfold blen in E; cbn in E; lia|]. by destruct (Z.to_nat e) eqn:?; [lia|].
    + exists (b :: k), c. cbn. by rewrite Hs.
  - change (Z.to_nat 0) with 0%nat in Hl. rewrite take_0 in Hl. cbn [app] in Hl.
    destruct (Z.eqb_spec (u8 b) 0) as [Hb|Hb]; cbn [from_option]; unfold id.
    + exists (S n). split; [|by left]. rewrite (u8_inj b (b8 0) Hb). cbn. by rewrite <- Hl.
    + exists n. split; [exact (f_equal (cons b) Hl)|]. right. by exists [], b.
Qed.

Lemma slice_prefix {E} (l : list byte) e :
  0 <= e <= blen l -> slice (E:=E) l 0 e = Ok (take (Z.to_nat e) l).
Proof. intros. unfold blen in *. rewrite slice_ok by lia. by rewrite drop_0, Z.sub_0_r. Qed.

Section Facts.
Context `{Config} `{Schema}.

(** What the schema demands of a payload. *)
Definition content_ok (t : DataType) (data : list byte) : Prop :=
  match element (message_meta t) with
  | Static need _ _ => blen data = wrap 64 (need * data_type_size (get_data_type t))
  | Dynamic dt _ =>
      match dt with
      | TString => utf8_valid (strip_nul data) = true
      | Binary => True
      | NoData => False
      | _ => blen data mod element_width dt = 0
      end
  end.

Definition content_error (e : TelemetryError) : Prop :=
  match e with InvalidUtf8 | SizeMismatch _ _ => True | _ => False end.

Lemma utf8_nil : utf8_valid [] = true.
Proof. done. Qed.

Lemma validate_dynamic_spec t dt mc data :
  element (message_meta t) = Dynamic dt mc ->
  (content_ok t data /\ validate_dynamic_len_and_content t data = Ok tt)
  \/ (~ content_ok t data
      /\ exists e, validate_dynamic_len_and_content t data = Err e /\ content_error e).
Proof.
  intros He. unfold content_ok, validate_dynamic_len_and_content, get_data_type.
  unfold message_meta in He |- *. rewrite He. cbn [element_data_type].
  assert (forall w, w <> 0 ->
    (blen data mod w = 0 /\ (if (w =? 0) || negb (blen data mod w =? 0)
      then Err (SizeMismatch w (blen data)) else Ok tt) = Ok tt)
    \/ (blen data mod w <> 0 /\ exists e, (if (w =? 0) || negb (blen data mod w =? 0)
      then Err (SizeMismatch w (blen data)) else Ok tt) = Err e /\ content_error e)) as Hnum.
  { intros w Hw. destruct (Z.eqb_spec w 0); [done|].
    destruct (Z.eqb_spec (blen data mod w) 0); [by left|right]. split; [done|by eexists]. }
  destruct dt; try (apply (Hnum _); cbn; lia).
  - pose proof (text_end_range data) as Hr. unfold strip_nul.
    destruct (Z.ltb_spec 0 (default 0 (text_end data))) as [Hp|Hn].
    + rewrite slice_prefix by done. cbn [res_bind mbind res_mbind]. unfold from_utf8.
      destruct (utf8_valid _); cbn; [by left|right]. split; [done|by eexists].
    + left. replace (default 0 (text_end data)) with 0 by lia. by rewrite take_0.
  - by left.
  - right. split; [tauto|]. by eexists.
Qed.

Lemma packet_new_cases t eps snd ts data :
  (eps = [] /\ packet_new t eps snd ts data = Err EmptyEndpoints)
  \/ (eps <> [] /\ ~ content_ok t data
      /\ exists e, packet_new t eps snd ts data = Err e /\ content_error e)
  \/ (eps <> [] /\ content_ok t data
      /\ packet_new t eps snd ts data =
         (stored ← std_new data;
          Ok {| ty := t; data_size := blen data; sender := snd; pkt_endpoints := eps;
                timestamp := ts; payload := stored |})).
Proof.
  unfold packet_new. destruct eps as [|ep eps]; [by left|right].
  destruct (element (message_meta t)) as [need dt mc|dt mc] eqn:He.
  - unfold content_ok. rewrite He. cbn zeta.
    destruct (Z.eqb_spec (blen data) (wrap 64 (need * data_type_size (get_data_type t)))); cbn.
    + by right.
    + left. split; [done|]. split; [done|by eexists].
  - destruct (validate_dynamic_spec t dt mc data He) as [[Hc ->]|(Hc & e & -> & Hce)].
    + by right.
    + left. split; [done|]. split; [done|by exists e].
Qed.

(** The invariant of packets: built by [packet_new] over [data]. *)
Record packet_ok (p : Packet) (data : list byte) : Prop := {
  po_eps : pkt_endpoints p <> [];
  po_content : content_ok (ty p) data;
  po_size : data_size p = blen data;
  po_payload : std_holds data (payload p)
}.

Lemma packet_new_ok t eps snd ts data p :
  STACK_PAYLOAD_SIZE < 2 ^ 63 ->
  packet_new t eps snd ts data = Ok p ->
  packet_ok p data /\ ty p = t /\ sender p = snd /\ pkt_endpoints p = eps /\ timestamp p = ts
  /\ std_new data = Ok (payload p).
Proof.
  intros Hstack. destruct (packet_new_cases t eps snd ts data)
    as [[_ ->]|[(_ & _ & e & -> & _)|(He & Hc & ->)]]; [done|done|].
  intros (stored & Hs & [= <-])%bind_ok. cbn. split_and!; [|done..].
  destruct (std_new_cases data Hstack) as [(_ & _ & Hp)|(q & Hq & Hh & _)]; [congruence|].
  rewrite Hs in Hq. injection Hq as <-. by constructor.
Qed.

Lemma validate_ok p data : packet_ok p data -> validate p = Ok tt.
Proof.
  intros [He Hc Hd (Hs & _ & Hl)]. unfold validate, payload_bytes.
  destruct (pkt_endpoints p); [done|]. rewrite Hl, Hd, Z.eqb_refl. cbn [negb].
  destruct (element (message_meta (ty p))) as [need dt mc|dt mc] eqn:E.
  - unfold content_ok in Hc. rewrite E in Hc. by rewrite Hc, Z.eqb_refl.
  - rewrite Hs. cbn. destruct (validate_dynamic_spec _ _ _ data E) as [[_ ->]|[Hn _]]; done.
Qed.

(** The constructor accepts exactly the payloads the schema allows,
    reports every refusal as an error of the documented kind, and the packet it
    returns carries its arguments unchanged, with the payload readable back and
    [validate] satisfied. *)
Theorem packet_new_correct t eps snd ts data :
  STACK_PAYLOAD_SIZE < 256 ->
  match packet_new t eps snd ts data with
  | Ok p => eps <> [] /\ content_ok t data /\ ty p = t /\ sender p = snd
            /\ pkt_endpoints p = eps /\ timestamp p = ts /\ data_size p = blen data
            /\ payload_bytes p = Ok data /\ validate p = Ok tt
  | Err e => (eps = [] /\ e = EmptyEndpoints)
             \/ (eps <> [] /\ ~ content_ok t data /\ content_error e)
  | Panic => False
  end.
Proof.
  intros Hs. destruct (packet_new t eps snd ts data) as [p|e|] eqn:E.
  - pose proof (packet_new_ok _ _ _ _ _ _ ltac:(lia) E) as (Hok & <- & <- & <- & <- & _).
    destruct Hok as [He Hc Hd Hh] eqn:?. split_and!; try done; [apply Hh|].
    by apply validate_ok with data.
  - destruct (packet_new_cases t eps snd ts data)
      as [[-> He]|[(He & Hc & e' & He' & Hce)|(He & Hc & Hp)]].
    + left. split; [done|]. congruence.
    + right. rewrite E in He'. injection He' as ->. done.
    + rewrite E in Hp. destruct (std_new_total data Hs) as (q & Hq & _). by rewrite Hq in Hp.
  - destruct (packet_new_cases t eps snd ts data)
      as [[-> He]|[(He & Hc & e' & He' & Hce)|(He & Hc & Hp)]]; [congruence..|].
    rewrite E in Hp. destruct (std_new_total data Hs) as (q & Hq & _). by rewrite Hq in Hp.
Qed.
End Facts.

(** ** Typed slices round trip *)

Lemma WIDTH_pos T : 1 <= WIDTH T <= 16.
Proof. destruct T; cbn; lia. Qed.

Lemma swrap_small w z : 0 < w -> - 2 ^ (w - 1) <= z < 2 ^ (w - 1) -> swrap w (z mod 2 ^ w) = z.
Proof.
  intros Hw Hz. unfold swrap. assert (2 ^ w = 2 * 2 ^ (w - 1)) as Hp
    by (rewrite <- Z.pow_succ_r by lia; f_equal; lia).
  rewrite Zplus_mod_idemp_l, Z.mod_small by lia. lia.
Qed.

Lemma from_le_write_le T v : prim_ok T v -> from_le T (write_le T v) = Ok v.
Proof.
  intros Hv. pose proof (WIDTH_pos T) as Hw. unfold from_le, write_le, blen.
  rewrite length_le_bytes, Z2Nat.id, Z.eqb_refl by lia. cbn [negb].
  rewrite le_value_bytes, Z2Nat.id by lia.
  replace (256 ^ WIDTH T) with (2 ^ (8 * WIDTH T)) by (destruct T; reflexivity).
  unfold prim_ok in Hv. destruct (signed T).
  - by rewrite swrap_small by lia.
  - by rewrite Z.mod_small by lia.
Qed.

Lemma length_write_le T v : length (write_le T v) = Z.to_nat (WIDTH T).
Proof. apply length_le_bytes. Qed.

Lemma length_encode T vs : length (encode_slice_le T vs) = (length vs * Z.to_nat (WIDTH T))%nat.
Proof.
  unfold encode_slice_le. induction vs as [|v vs IH]; [done|].
  cbn. by rewrite length_app, length_write_le, IH.
Qed.

Lemma blen_encode T vs : blen (encode_slice_le T vs) = Z.of_nat (length vs) * WIDTH T.
Proof. unfold blen. rewrite length_encode. pose proof (WIDTH_pos T). lia. Qed.

Lemma decode_encode T vs :
  Forall (prim_ok T) vs ->
  mapM_res (from_le T) (chunks_exact (length vs) (Z.to_nat (WIDTH T)) (encode_slice_le T vs)) = Ok vs.
Proof.
  unfold encode_slice_le. induction 1 as [|v vs Hv Hvs IH]; [done|]. cbn [length chunks_exact map concat].
  rewrite take_app_length', drop_app_length' by (symmetry; apply length_write_le).
  cbn [mapM_res]. by rewrite from_le_write_le, IH.
Qed.

Section Accessors.
Context `{Config} `{Schema}.

Lemma ensure_kind_spec p dt :
  ensure_kind p dt =
  if decide (get_data_type (ty p) = dt) then Ok tt
  else Err (TypeMismatch (data_type_size dt) (data_type_size (get_data_type (ty p)))).
Proof. done. Qed.

Lemma as_le_bytes_encoded T p vs :
  payload_bytes p = Ok (encode_slice_le T vs) -> Forall (prim_ok T) vs ->
  get_data_type (ty p) = prim_kind T -> data_as T p = Ok vs.
Proof.
  intros Hp Hv Hk. unfold data_as, as_le_bytes, ensure_kind. rewrite decide_True by done.
  rewrite Hp. cbn [res_bind mbind res_mbind]. cbn zeta. rewrite blen_encode.
  pose proof (WIDTH_pos T). rewrite Z.mod_mul, Z.div_mul, Nat2Z.id by lia. cbn.
  by apply decode_encode.
Qed.

Lemma from_prim_cases T t vs eps snd ts p :
  from_prim_le_slice_with_sender T t vs eps snd ts = Ok p ->
  packet_new t eps snd ts (encode_slice_le T vs) = Ok p
  /\ data_type_size (get_data_type t) = WIDTH T.
Proof.
  unfold from_prim_le_slice_with_sender. case_match; [done|].
  destruct (Z.eqb_spec (data_type_size (get_data_type t)) (WIDTH T)) as [He|]; cbn [negb]; [|done].
  intros (? & _ & Hn)%bind_ok. done.
Qed.

(** Typed slices round trip: the packet built from numbers decodes to the
    same numbers, with the accessor of the type's own kind, and every other
    accessor refuses it with the mismatch error; the byte view is the
    little-endian encoding. *)
Theorem typed_slice_roundtrip T T' t vs eps snd ts p :
  STACK_PAYLOAD_SIZE < 256 ->
  from_prim_le_slice_with_sender T t vs eps snd ts = Ok p ->
  Forall (prim_ok T) vs -> get_data_type t = prim_kind T ->
  data_as T p = Ok vs
  /\ payload_bytes p = Ok (encode_slice_le T vs)
  /\ data_size p = Z.of_nat (length vs) * WIDTH T
  /\ (T' <> T -> data_as T' p = Err (TypeMismatch (data_type_size (prim_kind T')) (WIDTH T))).
Proof.
  intros Hs Hp Hv Hk. apply from_prim_cases in Hp as [Hp Hw].
  apply packet_new_ok in Hp as ([_ _ Hd (Hb & _)] & <- & _); [|lia].
  split; [by eapply as_le_bytes_encoded|]. split; [done|].
  split; [by rewrite Hd, blen_encode|]. intros Hne.
  unfold data_as, as_le_bytes, ensure_kind. rewrite decide_False; [by rewrite Hw|].
  rewrite Hk. destruct T, T'; done.
Qed.

(** String packets: the constructor accepts a valid UTF-8 string, and both
    accessors give back the string without its trailing NULs. *)
Theorem string_roundtrip t s eps ts :
  STACK_PAYLOAD_SIZE < 256 ->
  get_data_type t = TString -> (exists mc, element (message_meta t) = Dynamic TString mc) ->
  eps <> [] -> utf8_valid (strip_nul s) = true ->
  exists p, from_str_slice t s eps ts = Ok p
    /\ data_as_string p = Ok (strip_nul s)
    /\ data_as_utf8_ref p = Ok (match strip_nul s with [] => None | s' => Some s' end).
Proof.
  intros Hs Ht [mc He] Hne Hu. unfold from_str_slice. rewrite decide_True by done.
  destruct (packet_new_cases t eps DEVICE_IDENTIFIER ts s)
    as [[? _]|[(_ & Hc & _)|(_ & _ & Hp)]]; [done|by unfold content_ok in Hc; rewrite He in Hc|].
  destruct (std_new_total s Hs) as (q & Hq & (Hsl & _)). rewrite Hq in Hp. cbn in Hp.
  eexists. split; [exact Hp|]. pose proof (text_end_range s) as Hr.
  unfold data_as_string, data_as_utf8_ref, ensure_kind, payload_bytes.
  cbn [ty payload]. rewrite !decide_True by done. rewrite Hsl. cbn [res_bind mbind res_mbind].
  unfold strip_nul in *. destruct (text_end s) as [e|] eqn:Hte; cbn [from_option] in *; unfold id in *.
  - pose proof (text_end_bound _ _ Hte). destruct (Z.eqb_spec e 0); [lia|].
    rewrite !slice_prefix by lia. cbn [res_bind mbind res_mbind]. unfold from_utf8. rewrite Hu.
    split; [done|]. destruct s as [|b s]; [unfold blen in *; cbn in *; lia|].
    by destruct (Z.to_nat e) eqn:?; [lia|].
  - by rewrite take_0.
Qed.
End Accessors.

(** The metadata of a built-in type. *)
Section Builtin.
Context `{Schema}.

Lemma builtin_type_meta (i : nat) m :
  builtin_types !! i = Some m -> get_message_meta (n_tys + Z.of_nat i) = m.
Proof.
  intros Hi. unfold get_message_meta, type_table, n_tys. rewrite nth_default_lookup.
  rewrite lookup_app_r by lia. by replace (Z.to_nat _ - _)%nat with i by lia; rewrite Hi.
Qed.

End Builtin.

(** The shipped GPS type: three [f32] (here 1.0, 2.0 and -3.5 as bit patterns). *)
Definition gps_values : list Z := [0x3F800000; 0x40000000; 0xC0600000].

Lemma packet_new_correct_witness :
  match @packet_new default_config default_schema 0 [1; 0] (lit "TEST_PLATFORM") 1
          (encode_slice_le PF32 gps_values) with
  | Ok p => data_size p = 12 /\ @validate default_config default_schema p = Ok tt
  | _ => False
  end.
Proof.
  pose proof (@packet_new_correct default_config default_schema 0 [1; 0] (lit "TEST_PLATFORM") 1
    (encode_slice_le PF32 gps_values) eq_refl) as Hc.
  destruct (packet_new _ _ _ _ _) as [p|e|] eqn:E; [|discriminate E|exact Hc].
  destruct Hc as (_ & _ & _ & _ & _ & _ & Hd & _ & Hv). split; [exact Hd|exact Hv].
Defined.

Lemma typed_slice_roundtrip_witness :
  match @from_prim_le_slice_with_sender default_config default_schema PF32 0 gps_values [1; 0]
          (lit "TEST_PLATFORM") 1 with
  | Ok p => @data_as default_config default_schema PF32 p = Ok gps_values
            /\ @data_as default_config default_schema PU32 p = Err (TypeMismatch 4 4)
  | _ => False
  end.
Proof.
  pose proof (@typed_slice_roundtrip default_config default_schema PF32 PU32 0 gps_values [1; 0]
    (lit "TEST_PLATFORM") 1) as Hc.
  destruct (from_prim_le_slice_with_sender _ _ _ _ _ _) as [p|e|] eqn:E; [|discriminate E..].
  destruct (Hc p eq_refl eq_refl) as (Hd & _ & _ & Hm).
  - unfold gps_values. repeat (apply List.Forall_cons; [vm_compute; split; [discriminate|reflexivity]|]).
    apply List.Forall_nil.
  - reflexivity.
  - split; [exact Hd|apply Hm; discriminate].
Defined.

Lemma string_roundtrip_witness :
  exists p, @from_str_slice default_config default_schema 5 (lit "hi" ++ [b8 0]) [0; 1] 7 = Ok p
    /\ @data_as_string default_config default_schema p = Ok (lit "hi").
Proof.
  destruct (@string_roundtrip default_config default_schema 5 (lit "hi" ++ [b8 0]) [0; 1] 7)
    as (p & Hp & Hd & _); [reflexivity|reflexivity|by eexists|discriminate|reflexivity|].
  exists p. split; [exact Hp|exact Hd].
Defined.
