(* ===== verification/Serialize.v ===== *)
(** * The v2 wire format ([src/serialize.rs], second half)

    [serialize_packet] and its reliable variants, and the five decoders that
    walk the same header: the full decoder, the envelope and frame peeks, the
    reliable-header locator and rewriter, and the packet identifier computed
    from the wire.  [read_header] is the code all five begin with. *)

From S2P Require Import Prelude Ordered Telemetry Config Schema SmallPayload Wire Packet.

Definition FLAG_COMPRESSED_PAYLOAD : Z := 1.
Definition FLAG_COMPRESSED_SENDER : Z := 2.

Record TelemetryEnvelope := {
  env_ty : DataType;
  env_endpoints : list DataEndpoint;
  env_sender : Str;
  env_timestamp_ms : Z
}.

Record TelemetryFrameInfo := {
  envelope : TelemetryEnvelope;
  fi_reliable : option ReliableHeader
}.

Definition ack_only (fi : TelemetryFrameInfo) : bool :=
  match fi_reliable fi with
  | Some h => has_flag (rh_flags h) RELIABLE_FLAG_ACK_ONLY
  | None => false
  end.

(** The fields every decoder reads first. *)
Record Header := {
  h_flags : Z;
  h_nep : Z;
  h_ty : Z;
  h_dsz : Z;
  h_ts : Z;
  h_slen : Z;
  h_sender_wire_len : Z
}.

Definition sender_is_compressed (h : Header) : bool := has_flag (h_flags h) FLAG_COMPRESSED_SENDER.
Definition payload_is_compressed (h : Header) : bool := has_flag (h_flags h) FLAG_COMPRESSED_PAYLOAD.

Definition read_header (r : ByteReader) : TelemetryResult (Header * ByteReader) :=
  '(flags, r) ← read_u8 r;
  '(nep, r) ← read_u8 r;
  '(ty_v, r) ← read_uleb128 r;
  '(dsz, r) ← read_uleb128 r;
  '(ts_v, r) ← read_uleb128 r;
  '(slen, r) ← read_uleb128 r;
  '(wire_len, r) ← (if has_flag flags FLAG_COMPRESSED_SENDER then read_uleb128 r else Ok (slen, r));
  Ok ({| h_flags := flags; h_nep := nep; h_ty := ty_v; h_dsz := dsz; h_ts := ts_v;
         h_slen := slen; h_sender_wire_len := wire_len |}, r).

Section Ops.
Context `{Config} `{Schema} `{External}.

(** ** Serialization *)

(** The bytes before the bitmap. *)
Definition write_header (h : Header) : list byte :=
  b8 (h_flags h) :: b8 (h_nep h)
  :: write_uleb128 (h_ty h) ++ write_uleb128 (h_dsz h) ++ write_uleb128 (h_ts h)
  ++ write_uleb128 (h_slen h)
  ++ (if has_flag (h_flags h) FLAG_COMPRESSED_SENDER then write_uleb128 (h_sender_wire_len h) else []).

Definition make_flags (payload_compressed sender_compressed : bool) : Z :=
  Z.lor (if payload_compressed then FLAG_COMPRESSED_PAYLOAD else 0)
        (if sender_compressed then FLAG_COMPRESSED_SENDER else 0).

Definition serialize_packet_inner (p : Packet) (reliable : option ReliableHeader)
    : TelemetryResult (list byte) :=
  let bm := build_endpoint_bitmap (pkt_endpoints p) in
  '(sender_compressed, sender_wire) ← compress_if_beneficial (sender p);
  data ← payload_bytes p;
  '(payload_compressed, payload_wire) ← compress_if_beneficial data;
  let nep_unique := bitmap_popcount bm in
  if u8_max <? nep_unique then Panic
  else
    let h := {| h_flags := make_flags payload_compressed sender_compressed;
                h_nep := nep_unique; h_ty := ty p; h_dsz := data_size p;
                h_ts := timestamp p; h_slen := blen (sender p);
                h_sender_wire_len := blen sender_wire |} in
    Ok (append_crc32
          (write_header h ++ bm ++ sender_wire
           ++ from_option write_reliable_header [] reliable
           ++ payload_wire)).

Definition serialize_packet_with_reliable (p : Packet) (header : ReliableHeader)
    : TelemetryResult (list byte) :=
  serialize_packet_inner p (Some header).

Definition unsequenced_header : ReliableHeader :=
  {| rh_flags := RELIABLE_FLAG_UNSEQUENCED; rh_seq := 0; rh_ack := 0 |}.

Definition serialize_packet (p : Packet) : TelemetryResult (list byte) :=
  if is_reliable_type (ty p) then serialize_packet_with_reliable p unsequenced_header
  else serialize_packet_inner p None.

Definition serialize_reliable_ack (snd : Str) (t : DataType) (timestamp_ms ack : Z)
    : TelemetryResult (list byte) :=
  let bm := replicate (Z.to_nat EP_BITMAP_BYTES) (b8 0) in
  '(sender_compressed, sender_wire) ← compress_if_beneficial snd;
  let h := {| h_flags := make_flags false sender_compressed; h_nep := 0; h_ty := t; h_dsz := 0;
              h_ts := timestamp_ms; h_slen := blen snd;
              h_sender_wire_len := blen sender_wire |} in
  Ok (append_crc32
        (write_header h ++ bm ++ sender_wire
         ++ write_reliable_header
              {| rh_flags := RELIABLE_FLAG_ACK_ONLY; rh_seq := 0; rh_ack := ack |})).

(** ** Decoding *)

(** [r.read_bytes(EP_BITMAP_BYTES)?], its expansion and the NEP check. *)
Definition read_endpoints (nep : Z) (r : ByteReader)
    : TelemetryResult (list DataEndpoint * ByteReader) :=
  '(bm, r) ← read_bytes r EP_BITMAP_BYTES;
  eps ← expand_endpoint_bitmap bm;
  if negb (Z.of_nat (length eps) =? nep) then Err (Deserialize "endpoint count mismatch")
  else Ok (eps, r).

Definition read_sender (h : Header) (r : ByteReader) : TelemetryResult (Str * ByteReader) :=
  '(wire, r) ← read_bytes r (h_sender_wire_len h);
  s ← decode_sender_name wire (sender_is_compressed h) (h_slen h);
  Ok (s, r).

Definition reliable_len (b : bool) : Z := if b then RELIABLE_HEADER_BYTES else 0.

Definition read_payload (h : Header) (r : ByteReader) : TelemetryResult (list byte) :=
  if negb (payload_is_compressed h) then '(s, _) ← read_bytes r (h_dsz h); Ok s
  else
    '(comp, _) ← read_bytes r (remaining r);
    decompress comp (h_dsz h).

Definition deserialize_packet (l : list byte) : TelemetryResult Packet :=
  data ← verify_crc32 l;
  if blen data =? 0 then Err (Deserialize "short prelude")
  else
    '(h, r) ← read_header (reader_new data);
    rel ← is_reliable_type_from_raw (h_ty h);
    let tail := if payload_is_compressed h then 1 else h_dsz h in
    if remaining r <? wrap 64 (EP_BITMAP_BYTES + h_sender_wire_len h + reliable_len rel + tail)
    then Err (Deserialize "short buffer")
    else
      '(eps, r) ← read_endpoints (h_nep h) r;
      '(snd, r) ← read_sender h r;
      t ← data_type_from_raw (h_ty h);
      '(_, r) ← (if is_reliable_type t then
                   '(hdr, r) ← read_reliable_header r;
                   if has_flag (rh_flags hdr) RELIABLE_FLAG_ACK_ONLY
                   then Err (Deserialize "reliable control frame") else Ok (Some hdr, r)
                 else Ok (None, r));
      body ← read_payload h r;
      packet_new t eps snd (h_ts h) body.

(** The envelope part shared by the two peeks. *)
Definition read_envelope (r : ByteReader) : TelemetryResult (TelemetryEnvelope * ByteReader) :=
  '(h, r) ← read_header r;
  if remaining r <? wrap 64 (EP_BITMAP_BYTES + h_sender_wire_len h)
  then Err (Deserialize "short buffer")
  else
    '(eps, r) ← read_endpoints (h_nep h) r;
    '(snd, r) ← read_sender h r;
    t ← data_type_from_raw (h_ty h);
    Ok ({| env_ty := t; env_endpoints := eps; env_sender := snd; env_timestamp_ms := h_ts h |}, r).

Definition peek_envelope (l : list byte) : TelemetryResult TelemetryEnvelope :=
  data ← verify_crc32 l;
  if blen data =? 0 then Err (Deserialize "short prelude")
  else '(env, _) ← read_envelope (reader_new data); Ok env.

Definition peek_frame_info_inner (l : list byte) : TelemetryResult TelemetryFrameInfo :=
  if blen l =? 0 then Err (Deserialize "short prelude")
  else
    '(env, r) ← read_envelope (reader_new l);
    rel ← (if is_reliable_type (env_ty env) then
             if remaining r <? RELIABLE_HEADER_BYTES then Err (Deserialize "short buffer")
             else '(hdr, _) ← read_reliable_header r; Ok (Some hdr)
           else Ok None);
    Ok {| envelope := env; fi_reliable := rel |}.

Definition peek_frame_info (l : list byte) : TelemetryResult TelemetryFrameInfo :=
  data ← verify_crc32 l; peek_frame_info_inner data.

Definition peek_frame_info_unchecked (l : list byte) : TelemetryResult TelemetryFrameInfo :=
  '(data, _) ← split_crc32 l; peek_frame_info_inner data.

Definition reliable_header_offset (l : list byte) : TelemetryResult (option Z) :=
  if blen l <? CRC32_BYTES + 1 then Err (Deserialize "short prelude")
  else
    let data_len := sat_sub (blen l) CRC32_BYTES in
    data ← slice l 0 data_len;
    '(h, r) ← read_header (reader_new data);
    if remaining r <? wrap 64 (EP_BITMAP_BYTES + h_sender_wire_len h)
    then Err (Deserialize "short buffer")
    else
      '(_, r) ← read_bytes r EP_BITMAP_BYTES;
      '(_, r) ← read_bytes r (h_sender_wire_len h);
      t ← data_type_from_raw (h_ty h);
      if negb (is_reliable_type t) then Ok None else Ok (Some (off r)).

(** [buf[at..at + src.len()].copy_from_slice(src)]. *)
Definition overwrite (l : list byte) (at_off : Z) (src : list byte) : TelemetryResult (list byte) :=
  _ ← slice l at_off (at_off + blen src);
  Ok (take (Z.to_nat at_off) l ++ src ++ drop (Z.to_nat (at_off + blen src)) l).

(** The result and the buffer after the call; on an error it is unchanged. *)
Definition rewrite_reliable_header (l : list byte) (flags seq ack : Z)
    : TelemetryResult (bool * list byte) :=
  o ← reliable_header_offset l;
  match o with
  | None => Ok (false, l)
  | Some o =>
      let data_len := sat_sub (blen l) CRC32_BYTES in
      if sat_sub data_len o <? RELIABLE_HEADER_BYTES then Err (Deserialize "short buffer")
      else
        l ← overwrite l o [b8 flags];
        l ← overwrite l (o + 1) (le_bytes 4 seq);
        l ← overwrite l (o + 5) (le_bytes 4 ack);
        if blen l <? CRC32_BYTES then Err (Deserialize "short buffer")
        else
          data ← slice l 0 data_len;
          l ← overwrite l data_len (le_bytes 4 (crc32 data));
          Ok (true, l)
  end.

(** ** Sizes *)

Definition header_size_bytes (p : Packet) : TelemetryResult Z :=
  '(sender_compressed, sender_wire) ← compress_if_beneficial (sender p);
  Ok (2 + uleb128_size (wrap 32 (ty p)) + uleb128_size (data_size p) + uleb128_size (timestamp p)
      + uleb128_size (blen (sender p))
      + if sender_compressed : bool then uleb128_size (blen sender_wire) else 0).

Definition packet_wire_size (p : Packet) : TelemetryResult Z :=
  header ← header_size_bytes p;
  '(_, sender_wire) ← compress_if_beneficial (sender p);
  data ← payload_bytes p;
  '(_, payload_wire) ← compress_if_beneficial data;
  Ok (header + EP_BITMAP_BYTES + blen sender_wire + reliable_len (is_reliable_type (ty p))
      + blen payload_wire + CRC32_BYTES).

(** ** Packet identifiers from the wire *)

(** [packet_id_from_wire] checks the bitmap while it hashes. *)
Fixpoint hash_endpoints_from_bitmap (bm : list byte) (h : Z) (idxs : list Z) : TelemetryResult Z :=
  match idxs with
  | [] => Ok h
  | idx :: idxs =>
      set ← bitmap_bit bm idx;
      if set : bool then
        let v := wrap 32 idx in
        if MAX_VALUE_DATA_ENDPOINT <? v then Err (Deserialize "bad endpoint bit set")
        else
          ep ← ok_or (Deserialize "bad endpoint bit set") (endpoint_try_from_u32 v);
          hash_endpoints_from_bitmap bm (hash_bytes_u64 h (ep_as_str ep)) idxs
      else hash_endpoints_from_bitmap bm h idxs
  end.

Definition packet_id_from_wire (l : list byte) : TelemetryResult Z :=
  data ← verify_crc32 l;
  if blen data <? 2 then Err (Deserialize "short prelude")
  else
    '(h, r) ← read_header (reader_new data);
    if remaining r <? wrap 64 (EP_BITMAP_BYTES + h_sender_wire_len h)
    then Err (Deserialize "short buffer")
    else
      '(bm, r) ← read_bytes r EP_BITMAP_BYTES;
      t ← data_type_from_raw (h_ty h);
      '(wire, r) ← read_bytes r (h_sender_wire_len h);
      snd ← (if sender_is_compressed h then decompress wire (h_slen h) else Ok wire);
      '(_, r) ← (if is_reliable_type t then
                   '(hdr, r) ← read_reliable_header r;
                   if has_flag (rh_flags hdr) RELIABLE_FLAG_ACK_ONLY
                   then Err (Deserialize "reliable control frame") else Ok (tt, r)
                 else Ok (tt, r));
      body ← (if negb (payload_is_compressed h) then
                if remaining r <? h_dsz h then Err (Deserialize "short buffer")
                else '(s, _) ← read_bytes r (h_dsz h); Ok s
              else
                if remaining r <? 1 then Err (Deserialize "short buffer")
                else '(comp, _) ← read_bytes r (remaining r); decompress comp (h_dsz h));
      let hh := hash_bytes_u64 HASH_SEED snd in
      let hh := hash_bytes_u64 hh (get_message_name t) in
      hh ← hash_endpoints_from_bitmap bm hh (seqZ 0 EP_BITMAP_BITS);
      let hh := hash_bytes_u64 hh (le_bytes 8 (h_ts h)) in
      let hh := hash_bytes_u64 hh (le_bytes 8 (h_dsz h)) in
      Ok (hash_bytes_u64 hh body).
End Ops.

(** ** Header facts *)

Lemma slice_app_prefix {E} (l k : list byte) : slice (E:=E) (l ++ k) 0 (blen l) = Ok l.
Proof.
  pose proof (blen_nonneg l). pose proof (blen_nonneg k).
  rewrite slice_prefix by (rewrite blen_app; lia). unfold blen. by rewrite Nat2Z.id, take_app_length.
Qed.

Definition header_ok (h : Header) : Prop :=
  is_u8 (h_flags h) /\ is_u8 (h_nep h) /\ is_u64 (h_ty h) /\ is_u64 (h_dsz h) /\ is_u64 (h_ts h)
  /\ is_u64 (h_slen h) /\ is_u64 (h_sender_wire_len h)
  /\ (sender_is_compressed h = false -> h_sender_wire_len h = h_slen h).

(** The buffer of a reader, whatever the association of its pieces. *)
Ltac buf_done :=
  unfold buf_ok in *; do 2 (rewrite <- ?app_assoc in *; cbn [app] in * ); assumption.

Lemma read_header_at pre h rest :
  header_ok h -> buf_ok (pre ++ write_header h ++ rest) ->
  read_header (at_ pre (write_header h ++ rest)) = Ok (h, at_ (pre ++ write_header h) rest).
Proof.
  destruct h as [fl nep t d ts sl wl]. unfold header_ok, sender_is_compressed.
  cbn [h_flags h_nep h_ty h_dsz h_ts h_slen h_sender_wire_len].
  intros (Hf & Hn & Ht & Hd & Hts & Hs & Hw & Hc) Hb.
  unfold write_header, read_header in *. cbn [h_flags h_nep h_ty h_dsz h_ts h_slen h_sender_wire_len] in *.
  rewrite <- ?app_assoc in *. cbn [app] in *. rewrite <- ?app_assoc in *.
  rewrite read_u8_at by done. cbn [res_bind mbind res_mbind].
  rewrite read_u8_at by buf_done. cbn [res_bind mbind res_mbind].
  rewrite !b8_small by (unfold is_u8 in *; lia).
  rewrite <- ?app_assoc. cbn [app].
  do 4 (rewrite read_write_uleb128;
    [cbn [res_bind mbind res_mbind]; rewrite <- ?app_assoc; cbn [app]
    |done|buf_done]).
  destruct (has_flag fl FLAG_COMPRESSED_SENDER).
  - rewrite read_write_uleb128; [|done|buf_done]. cbn [res_bind mbind res_mbind].
    rewrite <- ?app_assoc. cbn [app]. rewrite <- ?app_assoc. reflexivity.
  - rewrite (Hc eq_refl). cbn [res_bind mbind res_mbind].
    rewrite app_nil_r, <- ?app_assoc. cbn [app]. by rewrite <- ?app_assoc.
Qed.

Lemma read_header_reads bad : reads bad header_ok read_header.
Proof.
  unfold read_header.
  eapply reads_bind; [apply read_u8_reads|]. intros fl Hf.
  eapply reads_bind; [apply read_u8_reads|]. intros nep Hn.
  eapply reads_bind; [apply read_uleb128_reads|]. intros t Ht.
  eapply reads_bind; [apply read_uleb128_reads|]. intros d Hd.
  eapply reads_bind; [apply read_uleb128_reads|]. intros ts Hts.
  eapply reads_bind; [apply read_uleb128_reads|]. intros sl Hs.
  eapply (reads_bind (bad:=bad) (fun wl => is_u64 wl /\ (has_flag fl FLAG_COMPRESSED_SENDER = false -> wl = sl))).
  - destruct (has_flag fl FLAG_COMPRESSED_SENDER).
    + eapply reads_weaken; [apply read_uleb128_reads|]. done.
    + by apply reads_ret.
  - intros wl [Hw Hc]. apply reads_ret. unfold header_ok. cbn. split_and!; try done; try apply Hf; apply Hn.
Qed.

Lemma flags_bits pc sc :
  has_flag (make_flags pc sc) FLAG_COMPRESSED_SENDER = sc
  /\ has_flag (make_flags pc sc) FLAG_COMPRESSED_PAYLOAD = pc
  /\ is_u8 (make_flags pc sc).
Proof. destruct pc, sc; vm_compute; split_and!; done. Qed.

Lemma blen_write_header h : header_ok h -> 2 <= blen (write_header h) <= 52.
Proof.
  intros _. unfold write_header. rewrite !blen_cons, !blen_app.
  pose proof (blen_uleb_loop 10 (h_ty h)). pose proof (blen_uleb_loop 10 (h_dsz h)).
  pose proof (blen_uleb_loop 10 (h_ts h)). pose proof (blen_uleb_loop 10 (h_slen h)).
  pose proof (blen_uleb_loop 10 (h_sender_wire_len h)).
  pose proof (blen_nonneg (write_uleb128 (h_ty h))). pose proof (blen_nonneg (write_uleb128 (h_dsz h))).
  pose proof (blen_nonneg (write_uleb128 (h_ts h))). pose proof (blen_nonneg (write_uleb128 (h_slen h))).
  unfold write_uleb128 in *. case_match; rewrite ?blen_nil; [|lia].
  pose proof (blen_nonneg (write_uleb128_loop 10 (h_sender_wire_len h))). lia.
Qed.

Section RoundTrip.
Context `{Config} `{Schema} `{ExternalOk}.

(** [w] is what compression put on the wire for [s]. *)
Definition encoded (s : list byte) (c : bool) (w : list byte) : Prop :=
  compress_if_beneficial s = Ok (c, w)
  /\ if c then 0 < blen w /\ blen w + 1 < blen s /\ decompress w (blen s) = Ok s else w = s.

Lemma compress_encoded s : buf_ok s -> exists c w, encoded s c w.
Proof.
  intros Hb. destruct (compress_cases s Hb) as [Hc|(w & Hc & Hl & Hw & Hd)].
  - by exists false, s.
  - by exists true, w.
Qed.

Lemma encoded_short s c w : encoded s c w -> blen w <= blen s.
Proof. intros [_ He]. destruct c; [lia|by subst]. Qed.

(** What the wire needs of a packet: its cached size and storage are right, its
    fields have the types of the source, and sizes fit in memory together. *)
Record wire_ok (p : Packet) (data : list byte) : Prop := {
  wo_size : data_size p = blen data;
  wo_payload : std_holds data (payload p);
  wo_ty : valid_ty (ty p);
  wo_eps : Forall valid_ep (pkt_endpoints p);
  wo_utf8 : utf8_valid (sender p) = true;
  wo_ts : is_u64 (timestamp p);
  wo_len : blen (sender p) + blen data < 2 ^ 62
}.

Definition unique_endpoints (p : Packet) : Z := Z.of_nat (length (sort_dedup (pkt_endpoints p))).

Definition rel_bytes (rel : option ReliableHeader) : list byte :=
  from_option write_reliable_header [] rel.

(** A frame for type [t] carries a reliable header exactly when [t] is reliable. *)
Definition rel_ok (t : DataType) (rel : option ReliableHeader) : Prop :=
  match rel with
  | Some h => is_reliable_type t = true /\ reliable_header_ok h
  | None => is_reliable_type t = false
  end.

Lemma blen_rel rel t :
  rel_ok t rel -> blen (rel_bytes rel) = reliable_len (is_reliable_type t).
Proof. destruct rel as [h|]; cbn; [intros [-> _]|intros ->]; done. Qed.

(** The header of a packet whose sender and payload were encoded as given. *)
Definition packet_header (p : Packet) (sc : bool) (sw : list byte) (pc : bool) : Header :=
  {| h_flags := make_flags pc sc; h_nep := unique_endpoints p; h_ty := ty p;
     h_dsz := data_size p; h_ts := timestamp p; h_slen := blen (sender p);
     h_sender_wire_len := blen sw |}.

Definition frame_body (h : Header) (bm sw : list byte) (rel : option ReliableHeader)
    (pw : list byte) : list byte :=
  write_header h ++ bm ++ sw ++ rel_bytes rel ++ pw.

Lemma packet_wire_ok p data :
  packet_ok p data -> valid_ty (ty p) -> Forall valid_ep (pkt_endpoints p) ->
  utf8_valid (sender p) = true -> is_u64 (timestamp p) -> blen (sender p) + blen data < 2 ^ 62 ->
  wire_ok p data.
Proof. intros []. by constructor. Qed.

Lemma serialize_form p data rel :
  wire_ok p data ->
  exists sc sw pc pw,
    encoded (sender p) sc sw /\ encoded data pc pw
    /\ serialize_packet_inner p rel =
       if u8_max <? unique_endpoints p then Panic
       else Ok (append_crc32 (frame_body (packet_header p sc sw pc)
                  (build_endpoint_bitmap (pkt_endpoints p)) sw rel pw)).
Proof.
  intros [_ (Hp & _) _ He _ _ Hl]. pose proof (blen_nonneg data). pose proof (blen_nonneg (sender p)).
  destruct (compress_encoded (sender p)) as (sc & sw & Hs); [unfold buf_ok; zlia|].
  destruct (compress_encoded data) as (pc & pw & Hd); [unfold buf_ok; zlia|].
  exists sc, sw, pc, pw. split; [done|]. split; [done|].
  unfold serialize_packet_inner, payload_bytes. rewrite (proj1 Hs). cbn [res_bind mbind res_mbind].
  rewrite Hp. cbn [res_bind mbind res_mbind]. rewrite (proj1 Hd). cbn [res_bind mbind res_mbind].
  by rewrite popcount_build by done.
Qed.

Context (Hschema : SchemaOk _).

Lemma bitmap_bytes_small : 0 < EP_BITMAP_BYTES <= 2 ^ 30.
Proof.
  pose proof bitmap_bits_pos. pose proof (so_eps _ Hschema). unfold EP_BITMAP_BYTES, EP_BITMAP_BITS in *.
  split; [apply Z.div_str_pos; lia|]. apply Z.div_le_upper_bound; zlia.
Qed.

Lemma packet_header_ok p data sc sw pc :
  wire_ok p data -> encoded (sender p) sc sw -> unique_endpoints p <= u8_max ->
  header_ok (packet_header p sc sw pc).
Proof.
  intros [Hd _ Ht _ _ Hts Hl] Hs Hu. unfold header_ok, sender_is_compressed, packet_header. cbn.
  destruct (flags_bits pc sc) as (Hfs & _ & Hf8). rewrite Hfs.
  pose proof (encoded_short _ _ _ Hs). pose proof (blen_nonneg sw). pose proof (blen_nonneg data).
  pose proof (blen_nonneg (sender p)). pose proof (so_tys _ Hschema).
  unfold valid_ty in Ht. unfold unique_endpoints in *.
  split; [done|]. split; [unfold is_u8; zlia|]. split; [zlia|]. split; [zlia|].
  split; [done|]. split; [zlia|]. split; [zlia|]. intros ->. by rewrite (proj2 Hs).
Qed.

Lemma frame_buf_ok p data sc sw pc pw rel :
  wire_ok p data -> encoded (sender p) sc sw -> encoded data pc pw -> unique_endpoints p <= u8_max ->
  rel_ok (ty p) rel ->
  buf_ok (frame_body (packet_header p sc sw pc) (build_endpoint_bitmap (pkt_endpoints p)) sw rel pw).
Proof.
  intros Hw Hs Hp Hu Hrel. pose proof (packet_header_ok p data sc sw pc Hw Hs Hu) as Hh.
  destruct Hw as [_ _ _ _ _ _ Hl]. unfold buf_ok, frame_body.
  rewrite !blen_app, blen_build, (blen_rel _ _ Hrel). pose proof (blen_write_header _ Hh).
  pose proof (encoded_short _ _ _ Hs). pose proof (encoded_short _ _ _ Hp).
  pose proof bitmap_bytes_small.
  assert (reliable_len (is_reliable_type (ty p)) <= 9) by (destruct (is_reliable_type _); done).
  zlia.
Qed.

Lemma read_endpoints_at pre p rest :
  Forall valid_ep (pkt_endpoints p) ->
  buf_ok (pre ++ build_endpoint_bitmap (pkt_endpoints p) ++ rest) ->
  read_endpoints (unique_endpoints p) (at_ pre (build_endpoint_bitmap (pkt_endpoints p) ++ rest))
  = Ok (sort_dedup (pkt_endpoints p), at_ (pre ++ build_endpoint_bitmap (pkt_endpoints p)) rest).
Proof.
  intros He Hb. unfold read_endpoints. rewrite read_bytes_at; [|by rewrite blen_build|done].
  cbn [res_bind mbind res_mbind]. rewrite expand_build; [|apply (so_eps _ Hschema)|done].
  cbn [res_bind mbind res_mbind]. unfold unique_endpoints. by rewrite Z.eqb_refl.
Qed.

Lemma read_sender_at pre p sc sw pc rest :
  encoded (sender p) sc sw -> utf8_valid (sender p) = true -> buf_ok (pre ++ sw ++ rest) ->
  read_sender (packet_header p sc sw pc) (at_ pre (sw ++ rest)) = Ok (sender p, at_ (pre ++ sw) rest).
Proof.
  intros [_ Hs] Hu Hb. unfold read_sender, sender_is_compressed, packet_header.
  cbn [h_sender_wire_len h_flags h_slen]. destruct (flags_bits pc sc) as (-> & _ & _).
  rewrite read_bytes_at by done. cbn [res_bind mbind res_mbind].
  unfold decode_sender_name, from_utf8. destruct sc.
  - destruct Hs as (_ & _ & ->). cbn [res_bind mbind res_mbind]. by rewrite Hu.
  - subst. by rewrite Hu.
Qed.

Lemma read_payload_at pre p data sc sw pc pw :
  encoded data pc pw -> data_size p = blen data -> buf_ok (pre ++ pw) ->
  read_payload (packet_header p sc sw pc) (at_ pre pw) = Ok data.
Proof.
  intros [_ Hd] Hsz Hb. unfold read_payload, payload_is_compressed, packet_header.
  cbn [h_flags h_dsz]. destruct (flags_bits pc sc) as (_ & -> & _).
  rewrite remaining_at.
  assert (forall n, n = blen pw -> read_bytes (at_ pre pw) n = Ok (pw, at_ (pre ++ pw) [])) as Hr.
  { intros n Hn. pose proof (read_bytes_at pre pw [] n Hn) as Hr. rewrite app_nil_r in Hr. auto. }
  destruct pc; cbn [negb].
  - rewrite Hr by done. cbn [res_bind mbind res_mbind]. rewrite Hsz. apply Hd.
  - rewrite Hr by (by subst). by subst.
Qed.

Lemma read_rel_at pre hdr rest :
  reliable_header_ok hdr -> buf_ok (pre ++ rel_bytes (Some hdr) ++ rest) ->
  read_reliable_header (at_ pre (rel_bytes (Some hdr) ++ rest))
  = Ok (hdr, at_ (pre ++ rel_bytes (Some hdr)) rest).
Proof. intros. by apply read_reliable_header_at. Qed.

Lemma read_rel_checked_at pre t rel rest :
  rel_ok t rel -> buf_ok (pre ++ rel_bytes rel ++ rest) ->
  (forall hdr, rel = Some hdr -> has_flag (rh_flags hdr) RELIABLE_FLAG_ACK_ONLY = false) ->
  (if is_reliable_type t then
     '(hdr, r) ← read_reliable_header (at_ pre (rel_bytes rel ++ rest));
     if has_flag (rh_flags hdr) RELIABLE_FLAG_ACK_ONLY
     then Err (Deserialize "reliable control frame") else Ok (Some hdr, r)
   else Ok (None, at_ pre (rel_bytes rel ++ rest)))
  = Ok (rel, at_ (pre ++ rel_bytes rel) rest).
Proof.
  destruct rel as [hdr|]; cbn [rel_ok].
  - intros [-> Hh] Hb Hack. rewrite read_rel_at by done. cbn [res_bind mbind res_mbind].
    by rewrite Hack.
  - intros -> _ _. cbn [rel_bytes from_option app]. by rewrite app_nil_r.
Qed.

Lemma read_rel_peek_at pre t rel rest :
  rel_ok t rel -> buf_ok (pre ++ rel_bytes rel ++ rest) ->
  (if is_reliable_type t then
     if remaining (at_ pre (rel_bytes rel ++ rest)) <? RELIABLE_HEADER_BYTES
     then Err (Deserialize "short buffer")
     else '(hdr, _) ← read_reliable_header (at_ pre (rel_bytes rel ++ rest)); Ok (Some hdr)
   else Ok None) = Ok rel.
Proof.
  destruct rel as [hdr|]; cbn [rel_ok]; [|by intros ->].
  intros [Ht Hh] Hb. rewrite Ht, remaining_at, blen_app, (blen_rel (Some hdr) t) by done.
  rewrite Ht. unfold reliable_len. pose proof (blen_nonneg rest). zcase.
  by rewrite read_rel_at.
Qed.

(** One packet, one way its sender and payload were encoded, one reliable
    header or none: the situation of every decoding lemma below. *)
Section Frame.
Context (p : Packet) (data : list byte) (sc : bool) (sw : list byte) (pc : bool) (pw : list byte).
Context (rel : option ReliableHeader).
Context (Hwire : wire_ok p data) (Hsw : encoded (sender p) sc sw) (Hpw : encoded data pc pw).
Context (Hnep : unique_endpoints p <= u8_max) (Hrel : rel_ok (ty p) rel).

Let h := packet_header p sc sw pc.
Let bm := build_endpoint_bitmap (pkt_endpoints p).
Let frame := frame_body h bm sw rel pw.

Lemma frame_header_ok : header_ok h.
Proof. by apply (packet_header_ok p data). Qed.

Lemma frame_ok : buf_ok frame.
Proof. by apply (frame_buf_ok p data). Qed.

Lemma frame_ty : data_type_from_raw (h_ty h) = Ok (ty p).
Proof. apply data_type_from_raw_valid; [apply (so_tys _ Hschema)|apply Hwire]. Qed.

Lemma frame_len : blen frame = blen (write_header h) + EP_BITMAP_BYTES + blen sw
                               + reliable_len (is_reliable_type (ty p)) + blen pw.
Proof.
  unfold frame, frame_body, bm. rewrite !blen_app, blen_build, (blen_rel _ _ Hrel). lia.
Qed.

Lemma frame_len_min : 3 <= blen frame.
Proof.
  rewrite frame_len. pose proof (blen_write_header h frame_header_ok). pose proof bitmap_bytes_small.
  pose proof (blen_nonneg sw). pose proof (blen_nonneg pw).
  assert (0 <= reliable_len (is_reliable_type (ty p))) by (destruct (is_reliable_type _); done). lia.
Qed.

Lemma frame_read_header :
  read_header (reader_new frame) = Ok (h, at_ (write_header h) (bm ++ sw ++ rel_bytes rel ++ pw)).
Proof.
  rewrite reader_new_at. unfold frame, frame_body. rewrite read_header_at; [done| |].
  - apply frame_header_ok. - apply frame_ok.
Qed.

(** No length check of a decoder wraps or rejects an honest frame. *)
Lemma frame_room tail :
  0 <= tail <= reliable_len (is_reliable_type (ty p)) + blen pw ->
  (remaining (at_ (write_header h) (bm ++ sw ++ rel_bytes rel ++ pw))
   <? wrap 64 (EP_BITMAP_BYTES + h_sender_wire_len h + tail)) = false.
Proof.
  intros Ht. rewrite remaining_at, !blen_app, (blen_rel _ _ Hrel). unfold bm. rewrite blen_build.
  pose proof frame_ok as Hb. unfold buf_ok in Hb. rewrite frame_len in Hb.
  pose proof (blen_nonneg (write_header h)). pose proof bitmap_bytes_small. pose proof (blen_nonneg sw).
  change (h_sender_wire_len h) with (blen sw). rewrite wrap_small by zlia. by zcase.
Qed.

Lemma frame_read_endpoints :
  read_endpoints (h_nep h) (at_ (write_header h) (bm ++ sw ++ rel_bytes rel ++ pw))
  = Ok (sort_dedup (pkt_endpoints p), at_ (write_header h ++ bm) (sw ++ rel_bytes rel ++ pw)).
Proof. apply read_endpoints_at; [apply Hwire|apply frame_ok]. Qed.

Lemma frame_read_sender :
  read_sender h (at_ (write_header h ++ bm) (sw ++ rel_bytes rel ++ pw))
  = Ok (sender p, at_ ((write_header h ++ bm) ++ sw) (rel_bytes rel ++ pw)).
Proof.
  apply read_sender_at; [done|apply Hwire|]. rewrite <- app_assoc. apply frame_ok.
Qed.

Lemma frame_tail_ok : buf_ok (((write_header h ++ bm) ++ sw) ++ rel_bytes rel ++ pw).
Proof. rewrite <- !app_assoc. apply frame_ok. Qed.

Lemma frame_read_payload :
  read_payload h (at_ (((write_header h ++ bm) ++ sw) ++ rel_bytes rel) pw) = Ok data.
Proof.
  apply read_payload_at; [done|apply Hwire|]. rewrite <- !app_assoc. apply frame_ok.
Qed.

Lemma pw_nonempty : pc = true -> 1 <= blen pw.
Proof. intros Hc. destruct Hpw as [_ He]. rewrite Hc in He. lia. Qed.

(** The frame, decoded up to its reliable header. *)
Lemma deserialize_frame_prefix :
  deserialize_packet (append_crc32 frame) =
  let r := at_ ((write_header h ++ bm) ++ sw) (rel_bytes rel ++ pw) in
  '(_, r) ← (if is_reliable_type (ty p) then
               '(hdr, r) ← read_reliable_header r;
               if has_flag (rh_flags hdr) RELIABLE_FLAG_ACK_ONLY
               then Err (Deserialize "reliable control frame") else Ok (Some hdr, r)
             else Ok (None, r));
  body ← read_payload h r;
  packet_new (ty p) (sort_dedup (pkt_endpoints p)) (sender p) (timestamp p) body.
Proof.
  unfold deserialize_packet. rewrite verify_append. cbn [res_bind mbind res_mbind].
  pose proof frame_len_min. destruct (Z.eqb_spec (blen frame) 0); [lia|].
  rewrite frame_read_header. cbn [res_bind mbind res_mbind].
  unfold is_reliable_type_from_raw. rewrite frame_ty. cbn [res_bind mbind res_mbind]. cbn zeta.
  rewrite <- Z.add_assoc. rewrite frame_room.
  2: { unfold payload_is_compressed. destruct (flags_bits pc sc) as (_ & Hpc & _).
       change (h_flags h) with (make_flags pc sc). rewrite Hpc. pose proof pw_nonempty.
       assert (0 <= reliable_len (is_reliable_type (ty p))) by (by destruct (is_reliable_type _)).
       change (h_dsz h) with (data_size p). rewrite (wo_size _ _ Hwire).
       pose proof (blen_nonneg data). destruct Hpw as [_ He]. destruct pc; subst; lia. }
  rewrite frame_read_endpoints. cbn [res_bind mbind res_mbind].
  by rewrite frame_read_sender.
Qed.

Lemma deserialize_frame :
  (forall hdr, rel = Some hdr -> has_flag (rh_flags hdr) RELIABLE_FLAG_ACK_ONLY = false) ->
  deserialize_packet (append_crc32 frame)
  = packet_new (ty p) (sort_dedup (pkt_endpoints p)) (sender p) (timestamp p) data.
Proof.
  intros Hack. rewrite deserialize_frame_prefix. cbn zeta.
  pose proof (read_rel_checked_at _ _ _ _ Hrel frame_tail_ok Hack) as Hrd. fold h bm in Hrd.
  match goal with |- (?m ≫= _) = _ => replace m with
    (Ok (E:=TelemetryError) (rel, at_ (((write_header h ++ bm) ++ sw) ++ rel_bytes rel) pw)) end.
  cbn [res_bind mbind res_mbind]. by rewrite frame_read_payload.
Qed.

Lemma deserialize_control_frame hdr :
  rel = Some hdr -> has_flag (rh_flags hdr) RELIABLE_FLAG_ACK_ONLY = true ->
  deserialize_packet (append_crc32 frame) = Err (Deserialize "reliable control frame").
Proof.
  intros Hr Hack. rewrite deserialize_frame_prefix. cbn zeta. pose proof frame_tail_ok as Hb.
  pose proof Hrel as Hrel'. rewrite Hr in Hrel', Hb |- *. destruct Hrel' as [Ht Hh].
  rewrite Ht, read_rel_at by done. cbn [res_bind mbind res_mbind]. by rewrite Hack.
Qed.

Lemma read_envelope_frame :
  read_envelope (reader_new frame)
  = Ok ({| env_ty := ty p; env_endpoints := sort_dedup (pkt_endpoints p);
           env_sender := sender p; env_timestamp_ms := timestamp p |},
        at_ ((write_header h ++ bm) ++ sw) (rel_bytes rel ++ pw)).
Proof.
  unfold read_envelope. rewrite frame_read_header. cbn [res_bind mbind res_mbind].
  rewrite <- (Z.add_0_r (EP_BITMAP_BYTES + _)), frame_room.
  2: { pose proof (blen_nonneg pw).
       assert (0 <= reliable_len (is_reliable_type (ty p))) by (by destruct (is_reliable_type _)). lia. }
  rewrite frame_read_endpoints. cbn [res_bind mbind res_mbind].
  rewrite frame_read_sender. cbn [res_bind mbind res_mbind]. by rewrite frame_ty.
Qed.

Lemma peek_frame :
  peek_frame_info_inner frame
  = Ok {| envelope := {| env_ty := ty p; env_endpoints := sort_dedup (pkt_endpoints p);
                         env_sender := sender p; env_timestamp_ms := timestamp p |};
          fi_reliable := rel |}.
Proof.
  unfold peek_frame_info_inner. pose proof frame_len_min.
  destruct (Z.eqb_spec (blen frame) 0); [lia|].
  rewrite read_envelope_frame. cbn [res_bind mbind res_mbind env_ty].
  pose proof (read_rel_peek_at _ _ _ _ Hrel frame_tail_ok) as Hrd. by rewrite Hrd.
Qed.

Lemma header_offset_frame :
  reliable_header_offset (append_crc32 frame)
  = Ok (if is_reliable_type (ty p) then Some (blen (write_header h) + EP_BITMAP_BYTES + blen sw) else None).
Proof.
  unfold reliable_header_offset, append_crc32. rewrite blen_app, blen_le_bytes.
  pose proof frame_len_min. unfold CRC32_BYTES. zcase. rewrite sat_sub_ge by lia.
  rewrite Z.add_simpl_r, slice_app_prefix. cbn [res_bind mbind res_mbind].
  rewrite frame_read_header. cbn [res_bind mbind res_mbind].
  rewrite <- (Z.add_0_r (EP_BITMAP_BYTES + _)), frame_room.
  2: { pose proof (blen_nonneg pw).
       assert (0 <= reliable_len (is_reliable_type (ty p))) by (by destruct (is_reliable_type _)). lia. }
  rewrite read_bytes_at; [|by unfold bm; rewrite blen_build|apply frame_ok].
  cbn [res_bind mbind res_mbind].
  rewrite read_bytes_at; [|done|rewrite <- app_assoc; apply frame_ok].
  cbn [res_bind mbind res_mbind]. rewrite frame_ty. cbn [res_bind mbind res_mbind].
  destruct (is_reliable_type (ty p)); [|done]. cbn [negb]. unfold at_. cbn [off].
  rewrite !blen_app. unfold bm. by rewrite blen_build.
Qed.

Lemma hash_bitmap idxs hh :
  Forall valid_ep (pkt_endpoints p) ->
  Forall (fun i => 0 <= i < 8 * blen bm /\ valid_ep i) idxs ->
  hash_endpoints_from_bitmap bm hh idxs
  = Ok (fold_left (fun hh ep => hash_bytes_u64 hh (ep_as_str ep))
          (filter (fun i => bm_test bm i = true) idxs) hh).
Proof.
  intros He Hi. revert hh. induction Hi as [|i idxs [Hi Hv] Hs IH]; intros hh; [done|].
  cbn [hash_endpoints_from_bitmap]. rewrite bitmap_bit_ok by done. cbn [res_bind mbind res_mbind].
  rewrite filter_cons. destruct (bm_test bm i); [|by rewrite decide_False].
  rewrite decide_True by done. pose proof (so_eps _ Hschema).
  unfold endpoint_try_from_u32, valid_ep in *. rewrite wrap_small by zlia. zcase.
  cbn [res_bind mbind res_mbind ok_or fold_left]. apply IH.
Qed.

(** The identifier read off the wire is that of the packet a receiver would
    rebuild, with its endpoints in ascending order. *)
Lemma packet_id_frame :
  (forall hdr, rel = Some hdr -> has_flag (rh_flags hdr) RELIABLE_FLAG_ACK_ONLY = false) ->
  packet_id_from_wire (append_crc32 frame)
  = packet_id {| ty := ty p; data_size := data_size p; sender := sender p;
                 pkt_endpoints := sort_dedup (pkt_endpoints p); timestamp := timestamp p;
                 payload := payload p |}.
Proof.
  intros Hack. unfold packet_id_from_wire. rewrite verify_append. cbn [res_bind mbind res_mbind].
  pose proof frame_len_min. destruct (Z.ltb_spec (blen frame) 2); [lia|].
  rewrite frame_read_header. cbn [res_bind mbind res_mbind].
  rewrite <- (Z.add_0_r (EP_BITMAP_BYTES + _)), frame_room.
  2: { pose proof (blen_nonneg pw).
       assert (0 <= reliable_len (is_reliable_type (ty p))) by (by destruct (is_reliable_type _)). lia. }
  rewrite read_bytes_at; [|by unfold bm; rewrite blen_build|apply frame_ok].
  cbn [res_bind mbind res_mbind]. rewrite frame_ty. cbn [res_bind mbind res_mbind].
  rewrite read_bytes_at; [|done|rewrite <- app_assoc; apply frame_ok].
  cbn [res_bind mbind res_mbind].
  replace (if sender_is_compressed h then decompress sw (h_slen h) else Ok sw)
    with (Ok (E:=TelemetryError) (sender p)).
  2: { change (h_slen h) with (blen (sender p)). unfold sender_is_compressed. destruct (flags_bits pc sc) as (Hsc & _ & _).
       change (h_flags h) with (make_flags pc sc). rewrite Hsc. destruct Hsw as [_ Hs].
       destruct sc; [by destruct Hs as (_ & _ & ->)|by subst]. }
  cbn [res_bind mbind res_mbind].
  match goal with |- (?m ≫= _) = _ => assert (m =
    Ok (E:=TelemetryError) (tt, at_ (((write_header h ++ bm) ++ sw) ++ rel_bytes rel) pw)) as Hm end.
  { pose proof (read_rel_checked_at _ _ _ _ Hrel frame_tail_ok Hack) as Hrd. fold h bm in Hrd.
    destruct (is_reliable_type (ty p)); [|congruence].
    destruct (read_reliable_header _) as [[hdr r]| |]; cbn in Hrd |- *; [|done|done].
    destruct (has_flag _ _); congruence. }
  rewrite Hm. cbn [res_bind mbind res_mbind]. clear Hm.
  match goal with |- (?m ≫= _) = _ => assert (m = Ok data) as Hm end.
  { pose proof frame_read_payload as Hrp. unfold read_payload in Hrp. rewrite remaining_at in *.
    unfold payload_is_compressed in *. destruct (flags_bits pc sc) as (_ & Hpc & _).
    change (h_flags h) with (make_flags pc sc) in *. rewrite Hpc in *. destruct Hpw as [_ He].
    change (h_dsz h) with (data_size p) in *. pose proof (wo_size _ _ Hwire).
    destruct pc; cbn [negb] in *; [|subst pw]; zcase; done. }
  rewrite Hm. cbn [res_bind mbind res_mbind].
  rewrite hash_bitmap; [|apply Hwire|apply bitmap_indices; unfold bm; by rewrite blen_build].
  cbn [res_bind mbind res_mbind]. unfold bm. rewrite filter_build; [|apply Hwire|done].
  unfold packet_id, payload_bytes. cbn [ty data_size sender pkt_endpoints timestamp payload].
  rewrite (proj1 (wo_payload _ _ Hwire)). done.
Qed.
End Frame.

(** ** Rewriting the reliable header in place *)

Lemma overwrite_at pre old new post at_off :
  at_off = blen pre -> blen new = blen old ->
  overwrite (pre ++ old ++ post) at_off new = Ok (pre ++ new ++ post).
Proof.
  intros -> Hl. unfold overwrite. rewrite Hl. rewrite slice_middle by done.
  cbn [res_bind mbind res_mbind]. unfold blen in *. rewrite <- Nat2Z.inj_add, !Nat2Z.id.
  rewrite take_app_length, drop_app_add, drop_app_length. done.
Qed.

Lemma blen_write_rel h : blen (write_reliable_header h) = 9.
Proof. unfold write_reliable_header. by rewrite blen_cons, blen_app. Qed.

Lemma rewrite_frame p data sc sw pc pw hdr fl sq ak :
  wire_ok p data -> encoded (sender p) sc sw -> encoded data pc pw ->
  unique_endpoints p <= u8_max -> rel_ok (ty p) (Some hdr) ->
  let h := packet_header p sc sw pc in
  let bm := build_endpoint_bitmap (pkt_endpoints p) in
  rewrite_reliable_header (append_crc32 (frame_body h bm sw (Some hdr) pw)) fl sq ak
  = Ok (true, append_crc32 (frame_body h bm sw
                (Some {| rh_flags := fl; rh_seq := sq; rh_ack := ak |}) pw)).
Proof.
  intros Hw Hs Hp Hu Hr h bm. unfold rewrite_reliable_header.
  unfold h, bm. rewrite (header_offset_frame p data sc sw pc pw (Some hdr)) by done. fold h bm.
  rewrite (proj1 Hr). cbn [res_bind mbind res_mbind].
  set (pre := write_header h ++ bm ++ sw).
  assert (blen (write_header h) + EP_BITMAP_BYTES + blen sw = blen pre) as ->
    by (unfold pre; rewrite !blen_app; unfold bm; rewrite blen_build; lia).
  set (crc := le_bytes 4 (crc32 (frame_body h bm sw (Some hdr) pw))).
  assert (blen crc = 4) as Hcrc by apply blen_le_bytes.
  assert (append_crc32 (frame_body h bm sw (Some hdr) pw)
    = pre ++ [b8 (rh_flags hdr)] ++ le_bytes 4 (rh_seq hdr) ++ le_bytes 4 (rh_ack hdr) ++ pw ++ crc) as Hl.
  { unfold append_crc32. fold crc. unfold pre, frame_body, rel_bytes, write_reliable_header, write_u32_le.
    cbn [from_option]. rewrite <- !app_assoc. cbn [app]. by rewrite <- !app_assoc. }
  rewrite Hl. clearbody crc.
  assert (forall a b c, length a = 1%nat -> length b = 4%nat -> length c = 4%nat ->
    blen (pre ++ a ++ b ++ c ++ pw ++ crc) = blen pre + 9 + blen pw + 4) as Hlen.
  { intros a b c Ha Hb Hc. rewrite !blen_app, Hcrc. unfold blen. lia. }
  pose proof (blen_nonneg pre). pose proof (blen_nonneg pw).
  rewrite Hlen by (rewrite ?length_le_bytes; done). unfold CRC32_BYTES, RELIABLE_HEADER_BYTES.
  rewrite (sat_sub_ge _ 4) by lia. rewrite sat_sub_ge by lia. zcase.
  rewrite overwrite_at by done. cbn [res_bind mbind res_mbind].
  rewrite (app_assoc pre [b8 fl]). rewrite overwrite_at;
    [|rewrite blen_app; done|by rewrite !blen_le_bytes]. cbn [res_bind mbind res_mbind].
  rewrite (app_assoc (pre ++ [b8 fl])). rewrite overwrite_at;
    [|rewrite !blen_app, blen_le_bytes, blen_cons, blen_nil; lia|by rewrite !blen_le_bytes].
  cbn [res_bind mbind res_mbind]. rewrite <- !(app_assoc pre), <- !(app_assoc [b8 fl]).
  rewrite Hlen by (rewrite ?length_le_bytes; done). zcase.
  assert (pre ++ [b8 fl] ++ le_bytes 4 sq ++ le_bytes 4 ak ++ pw ++ crc
    = frame_body h bm sw (Some {| rh_flags := fl; rh_seq := sq; rh_ack := ak |}) pw ++ crc) as ->.
  { unfold pre, frame_body, rel_bytes, write_reliable_header, write_u32_le.
    cbn [from_option rh_flags rh_seq rh_ack]. rewrite <- !app_assoc. cbn [app]. by rewrite <- !app_assoc. }
  set (fr := frame_body _ _ _ _ _).
  assert (blen fr = blen pre + 9 + blen pw + 4 - 4) as Hfr.
  { unfold fr, frame_body. rewrite !blen_app. unfold pre. rewrite !blen_app.
    cbn [rel_bytes from_option]. rewrite blen_write_rel. lia. }
  rewrite <- Hfr. rewrite slice_app_prefix. cbn [res_bind mbind res_mbind].
  rewrite <- (app_nil_r crc). rewrite overwrite_at; [|done|by rewrite blen_le_bytes].
  cbn [res_bind mbind res_mbind]. by rewrite app_nil_r.
Qed.

(** ** Decoding arbitrary bytes *)

Lemma reads_if {A} (bad : Prop) (P : A -> Prop) (b : bool) e f :
  (b = false -> reads bad P f) -> reads bad P (fun r => if b then Err e else f r).
Proof. destruct b; [intros _; apply reads_err|auto]. Qed.

Lemma read_endpoints_reads bad nep :
  reads bad (fun eps => strictly_sorted eps /\ Forall valid_ep eps) (read_endpoints nep).
Proof.
  unfold read_endpoints. pose proof bitmap_bytes_small. pose proof (so_eps _ Hschema) as Hmax.
  eapply reads_bind; [apply read_bytes_reads; lia|]. cbn. intros bm Hl.
  apply reads_pure.
  - rewrite expand_cases by done. by case_match.
  - intros eps Heps. apply reads_if. intros _. apply reads_ret.
    by apply expanded_valid in Heps.
Qed.

Lemma read_sender_reads (bad : Prop) h :
  header_ok h -> (sender_is_compressed h = true -> isize_max < h_slen h -> bad) ->
  reads bad (fun s => utf8_valid s = true) (read_sender h).
Proof.
  intros Hh Hbad. unfold read_sender. destruct Hh as (_ & _ & _ & _ & _ & _ & Hw & _).
  eapply reads_bind; [apply read_bytes_reads; apply Hw|]. cbn. intros w _.
  apply reads_pure.
  - intros Hp. unfold decode_sender_name in Hp.
    destruct (sender_is_compressed h); [|by apply from_utf8_no_panic in Hp].
    destruct (Z.ltb_spec isize_max (h_slen h)); [by apply Hbad|]. exfalso.
    revert Hp. apply no_panic_bind; [by apply decompress_no_panic|]. intros; apply from_utf8_no_panic.
  - intros s Hs. apply reads_ret. by apply decode_sender_valid in Hs.
Qed.

(** [read_payload] ends the decoding: its reader is dropped. *)
Lemma read_payload_no_panic h pre rest :
  header_ok h -> buf_ok (pre ++ rest) ->
  read_payload h (at_ pre rest) = Panic -> payload_is_compressed h = true /\ isize_max < h_dsz h.
Proof.
  intros (_ & _ & _ & Hd & _) Hb. unfold read_payload.
  destruct (payload_is_compressed h); cbn [negb].
  - rewrite remaining_at. pose proof (read_bytes_reads (bad:=False) (blen rest) (blen_nonneg _) pre rest Hb) as Hr. cbn beta in Hr.
    destruct (read_bytes _ _) as [[c r]| |]; cbn in *; [|done|done]. intros Hp. split; [done|].
    destruct (Z.ltb_spec isize_max (h_dsz h)); [done|]. exfalso. revert Hp. by apply decompress_no_panic.
  - pose proof (read_bytes_reads (bad:=False) (h_dsz h) (proj1 Hd) pre rest Hb) as Hr. cbn beta in Hr.
    destruct (read_bytes _ _) as [[c r]| |]; cbn in *; done.
Qed.

Lemma read_rel_reads bad t :
  reads bad (fun _ : option ReliableHeader => True)
    (fun r => if is_reliable_type t then
                '(hdr, r) ← read_reliable_header r;
                if has_flag (rh_flags hdr) RELIABLE_FLAG_ACK_ONLY
                then Err (Deserialize "reliable control frame") else Ok (Some hdr, r)
              else Ok (None, r)).
Proof.
  destruct (is_reliable_type t); [|by apply reads_ret].
  eapply reads_bind; [apply read_reliable_header_reads|]. cbn. intros hdr _.
  destruct (has_flag _ _); [apply reads_err|by apply reads_ret].
Qed.

(** The fields of a decoded frame, and what is known of them. *)
Definition fields_ok (f : Header * list DataEndpoint * Str * DataType) : Prop :=
  let '(h, eps, s, t) := f in
  header_ok h /\ (strictly_sorted eps /\ Forall valid_ep eps) /\ utf8_valid s = true /\ valid_ty t.

(** A frame whose header announces a decompressed size no allocation can hold. *)
Definition bomb (l : list byte) : Prop :=
  exists h r, read_header (reader_new (take (Z.to_nat (blen l - 4)) l)) = Ok (h, r)
    /\ ((sender_is_compressed h = true /\ isize_max < h_slen h)
        \/ (payload_is_compressed h = true /\ isize_max < h_dsz h)).

Lemma bomb_of data h r : read_header (reader_new data) = Ok (h, r) ->
  (sender_is_compressed h = true /\ isize_max < h_slen h) \/ (payload_is_compressed h = true /\ isize_max < h_dsz h) ->
  bomb (append_crc32 data).
Proof.
  intros Hr Hx. exists h, r. unfold append_crc32. rewrite blen_app, blen_le_bytes.
  replace (blen data + _ - 4) with (blen data) by lia. unfold blen. by rewrite Nat2Z.id, take_app_length.
Qed.

(** [deserialize_packet] as a reader of fields followed by the payload. *)
Definition read_fields (h : Header) (r : ByteReader)
    : TelemetryResult (Header * list DataEndpoint * Str * DataType * ByteReader) :=
  '(eps, r) ← read_endpoints (h_nep h) r;
  '(s, r) ← read_sender h r;
  t ← data_type_from_raw (h_ty h);
  '(_, r) ← (if is_reliable_type t then
               '(hdr, r) ← read_reliable_header r;
               if has_flag (rh_flags hdr) RELIABLE_FLAG_ACK_ONLY
               then Err (Deserialize "reliable control frame") else Ok (Some hdr, r)
             else Ok (None, r));
  Ok ((h, eps, s, t), r).

Lemma read_fields_reads (bad : Prop) h :
  header_ok h -> (sender_is_compressed h = true -> isize_max < h_slen h -> bad) ->
  reads bad (fun f => fields_ok f /\ f.1.1.1 = h) (read_fields h).
Proof.
  intros Hh Hbad. unfold read_fields.
  eapply reads_bind; [apply read_endpoints_reads|]. cbn. intros eps Heps.
  eapply reads_bind; [by apply read_sender_reads|]. cbn. intros s Hs.
  apply reads_pure; [by intros ?%data_type_from_raw_no_panic|]. intros t Ht.
  eapply reads_bind; [apply read_rel_reads|]. intros _ _. apply reads_ret.
  split; [|done]. split; [done|]. split; [done|]. split; [done|].
  destruct Hh as (_ & _ & (Hty & _) & _). by apply (data_type_from_raw_ok (h_ty h)).
Qed.

Lemma deserialize_fields data :
  deserialize_packet (append_crc32 data) =
  if blen data =? 0 then Err (Deserialize "short prelude")
  else
    '(h, r) ← read_header (reader_new data);
    rel ← is_reliable_type_from_raw (h_ty h);
    let tail := if payload_is_compressed h then 1 else h_dsz h in
    if remaining r <? wrap 64 (EP_BITMAP_BYTES + h_sender_wire_len h + reliable_len rel + tail)
    then Err (Deserialize "short buffer")
    else
      '(h, eps, s, t, r) ← read_fields h r;
      body ← read_payload h r;
      packet_new t eps s (h_ts h) body.
Proof.
  unfold deserialize_packet. rewrite verify_append. cbn [res_bind mbind res_mbind].
  case_match; [done|]. destruct (read_header _) as [[h r]| |]; cbn [res_bind mbind res_mbind]; [|done..].
  destruct (is_reliable_type_from_raw _) as [rel| |]; cbn [res_bind mbind res_mbind]; [|done..].
  cbn zeta. case_match; [done|]. unfold read_fields.
  destruct (read_endpoints _ _) as [[eps r']| |]; cbn [res_bind mbind res_mbind]; [|done..].
  destruct (read_sender _ _) as [[s r'']| |]; cbn [res_bind mbind res_mbind]; [|done..].
  destruct (data_type_from_raw _) as [t| |]; cbn [res_bind mbind res_mbind]; [|done..].
  destruct (if is_reliable_type t then _ else _) as [[? r3]| |]; cbn [res_bind mbind res_mbind]; done.
Qed.

(** What a decoded packet is known to satisfy. *)
Definition decoded_ok (p : Packet) : Prop :=
  valid_ty (ty p) /\ strictly_sorted (pkt_endpoints p) /\ Forall valid_ep (pkt_endpoints p)
  /\ utf8_valid (sender p) = true /\ is_u64 (timestamp p) /\ exists data, packet_ok p data.

Lemma deserialize_cases l :
  buf_ok l -> STACK_PAYLOAD_SIZE < 256 ->
  match deserialize_packet l with
  | Ok p => decoded_ok p
  | Err _ => True
  | Panic => bomb l
  end.
Proof.
  intros Hb Hstack. destruct (verify_crc32 l) as [data|e|] eqn:Hv.
  2: { unfold deserialize_packet. by rewrite Hv. }
  2: { by apply verify_crc32_no_panic in Hv. }
  apply verify_crc32_ok in Hv as ->. rewrite deserialize_fields.
  destruct (blen data =? 0); [done|].
  assert (buf_ok ([] ++ data)) as Hbd.
  { unfold buf_ok, append_crc32 in *. rewrite blen_app, blen_le_bytes in Hb. cbn. lia. }
  assert (forall h r, read_header (reader_new data) = Ok (h, r) ->
    (sender_is_compressed h = true /\ isize_max < h_slen h)
    \/ (payload_is_compressed h = true /\ isize_max < h_dsz h) -> bomb (append_crc32 data)) as Hbomb
    by apply bomb_of.
  pose proof (read_header_reads False [] data Hbd) as Hrh. rewrite <- reader_new_at in Hrh.
  destruct (read_header (reader_new data)) as [[h r]|e|] eqn:Er; cbn [res_bind mbind res_mbind]; [|done|done].
  specialize (Hbomb h r eq_refl). destruct Hrh as (Hh & c & rest & Hdata & ->).
  unfold is_reliable_type_from_raw.
  pose proof (data_type_from_raw_no_panic (h_ty h)) as Hnp.
  destruct (data_type_from_raw (h_ty h)) as [t0| |]; cbn [res_bind mbind res_mbind]; [|done|done].
  cbn zeta. destruct (_ <? _); [done|].
  pose proof (read_fields_reads (bomb (append_crc32 data)) h Hh ltac:(auto) ([] ++ c) rest) as Hf.
  rewrite Hdata in Hbd. rewrite <- app_assoc in Hf. specialize (Hf Hbd).
  destruct (read_fields h _) as [[[[[h' eps] s] t] r]|e|]; cbn [res_bind mbind res_mbind]; [|done|done].
  destruct Hf as [[(_ & (He & Hev) & Hs & Ht) Hh'] (c' & rest' & -> & ->)]. cbn in Hh'. subst h'.
  pose proof (read_payload_no_panic h (([] ++ c) ++ c') rest' Hh) as Hpp.
  rewrite app_assoc in Hbd. rewrite <- app_assoc in Hpp.
  destruct (read_payload _ _) as [body|e|]; cbn [res_bind mbind res_mbind]; [|done|].
  2: { apply Hbomb. right. apply Hpp; [|done]. by rewrite <- app_assoc in Hbd |- *. }
  destruct (packet_new_cases t eps s (h_ts h) body) as [[_ Hn]|[(_ & _ & e & Hn & _)|(_ & _ & Hn)]].
  - by rewrite Hn. - by rewrite Hn.
  - destruct (packet_new t eps s (h_ts h) body) as [p|e|] eqn:Hp; [|done|].
    + apply packet_new_ok in Hp as (Hok & E1 & E2 & E3 & E4 & _); [|lia].
      unfold decoded_ok. rewrite E1, E2, E3, E4. destruct Hh as (_ & _ & _ & _ & Hts & _).
      split_and!; try done; try apply Hts. by exists body.
    + destruct (std_new_total body Hstack) as (q & Hq & _). by rewrite Hq in Hn.
Qed.

(** ** The other decoders *)

Lemma reads_check {A} (bad : Prop) (P : A -> Prop) (c : ByteReader -> bool) e f :
  reads bad P f -> reads bad P (fun r => if c r then Err e else f r).
Proof. intros Hf pre rest Hb. destruct (c _); [done|]. by apply Hf. Qed.

(** What a decoded envelope, and a decoded frame description, satisfy. *)
Definition envelope_ok (e : TelemetryEnvelope) : Prop :=
  valid_ty (env_ty e) /\ strictly_sorted (env_endpoints e) /\ Forall valid_ep (env_endpoints e)
  /\ utf8_valid (env_sender e) = true /\ is_u64 (env_timestamp_ms e).

Definition frame_info_ok (fi : TelemetryFrameInfo) : Prop :=
  envelope_ok (envelope fi)
  /\ match fi_reliable fi with
     | Some h => is_reliable_type (env_ty (envelope fi)) = true /\ reliable_header_ok h
     | None => is_reliable_type (env_ty (envelope fi)) = false
     end.

Definition packet_envelope (p : Packet) : TelemetryEnvelope :=
  {| env_ty := ty p; env_endpoints := pkt_endpoints p; env_sender := sender p; env_timestamp_ms := timestamp p |}.

(** The envelope after its header. *)
Definition envelope_rest (h : Header) (r : ByteReader) : TelemetryResult (TelemetryEnvelope * ByteReader) :=
  if remaining r <? wrap 64 (EP_BITMAP_BYTES + h_sender_wire_len h) then Err (Deserialize "short buffer")
  else
    '(eps, r) ← read_endpoints (h_nep h) r;
    '(snd, r) ← read_sender h r;
    t ← data_type_from_raw (h_ty h);
    Ok ({| env_ty := t; env_endpoints := eps; env_sender := snd; env_timestamp_ms := h_ts h |}, r).

Lemma envelope_rest_reads (bad : Prop) h :
  header_ok h -> (sender_is_compressed h = true -> isize_max < h_slen h -> bad) -> reads bad envelope_ok (envelope_rest h).
Proof.
  intros Hh Hbad. unfold envelope_rest. apply (reads_check bad envelope_ok (fun r => remaining r <? _)).
  eapply reads_bind; [apply read_endpoints_reads|]. cbn. intros eps [Hs Hv].
  eapply reads_bind; [by apply read_sender_reads|]. cbn. intros s Hutf.
  apply reads_pure; [by intros ?%data_type_from_raw_no_panic|]. intros t Ht. apply reads_ret.
  destruct Hh as (_ & _ & (Hty & _) & _ & Hts & _).
  split; [by apply (data_type_from_raw_ok (h_ty h))|]. by repeat split; try apply Hts.
Qed.

(** The decompressed length of a sender that no allocation can hold. *)
Definition sender_bomb (data : list byte) : Prop :=
  exists h r, read_header (reader_new data) = Ok (h, r) /\ sender_is_compressed h = true /\ isize_max < h_slen h.

Lemma read_envelope_cases data : buf_ok data ->
  match read_envelope (reader_new data) with
  | Ok (e, r) => envelope_ok e /\ exists c rest, data = c ++ rest /\ r = at_ c rest
  | Err _ => True
  | Panic => sender_bomb data
  end.
Proof.
  intros Hb. change (read_envelope (reader_new data)) with ('(h, r) ← read_header (reader_new data); envelope_rest h r).
  pose proof (read_header_reads False [] data Hb) as Hr. rewrite <- reader_new_at in Hr.
  destruct (read_header (reader_new data)) as [[h r]|e|] eqn:Er; cbn [res_bind mbind res_mbind]; [|done|done].
  destruct Hr as (Hh & c & rest & -> & ->).
  assert (sender_is_compressed h = true -> isize_max < h_slen h -> sender_bomb (c ++ rest)) as Hbomb
    by (intros; by exists h, (at_ ([] ++ c) rest)).
  pose proof (envelope_rest_reads _ h Hh Hbomb ([] ++ c) rest Hb) as He.
  destruct (envelope_rest _ _) as [[e r]| |]; [|done|done]. destruct He as (He & c' & rest' & -> & ->).
  split; [done|]. exists (c ++ c'), rest'. by rewrite <- app_assoc.
Qed.

Lemma peek_inner_cases data : buf_ok data ->
  match peek_frame_info_inner data with Ok fi => frame_info_ok fi | Err _ => True | Panic => sender_bomb data end.
Proof.
  intros Hb. unfold peek_frame_info_inner. destruct (blen data =? 0); [done|].
  pose proof (read_envelope_cases data Hb) as He.
  destruct (read_envelope _) as [[e r]|er|]; cbn [res_bind mbind res_mbind]; [|done|done].
  destruct He as (He & c & rest & -> & ->). destruct (is_reliable_type (env_ty e)) eqn:Hrel; [|done].
  destruct (_ <? _); [done|]. pose proof (read_reliable_header_reads (bad:=False) c rest Hb) as Hr.
  destruct (read_reliable_header _) as [[hdr r]| |]; cbn [res_bind mbind res_mbind]; [|done|done].
  split; [done|]. split; [done|apply Hr].
Qed.

(** [packet_id_from_wire] up to its payload. *)
Definition id_fields (h : Header) (r : ByteReader) : TelemetryResult (list byte * DataType * Str * ByteReader) :=
  if remaining r <? wrap 64 (EP_BITMAP_BYTES + h_sender_wire_len h) then Err (Deserialize "short buffer")
  else
    '(bm, r) ← read_bytes r EP_BITMAP_BYTES;
    t ← data_type_from_raw (h_ty h);
    '(wire, r) ← read_bytes r (h_sender_wire_len h);
    snd ← (if sender_is_compressed h then decompress wire (h_slen h) else Ok wire);
    '(_, r) ← (if is_reliable_type t then
                 '(hdr, r) ← read_reliable_header r;
                 if has_flag (rh_flags hdr) RELIABLE_FLAG_ACK_ONLY
                 then Err (Deserialize "reliable control frame") else Ok (Some hdr, r)
               else Ok (None, r));
    Ok ((bm, t, snd), r).

Lemma id_fields_reads (bad : Prop) h :
  header_ok h -> (sender_is_compressed h = true -> isize_max < h_slen h -> bad) ->
  reads bad (fun f => blen f.1.1 = EP_BITMAP_BYTES) (id_fields h).
Proof.
  intros Hh Hbad. unfold id_fields. pose proof bitmap_bytes_small.
  apply (reads_check bad (fun f : list byte * DataType * Str => blen f.1.1 = EP_BITMAP_BYTES) (fun r => remaining r <? _)).
  eapply reads_bind; [apply read_bytes_reads; lia|]. cbn. intros bm Hbm.
  apply reads_pure; [by intros ?%data_type_from_raw_no_panic|]. intros t _.
  destruct Hh as (_ & _ & _ & _ & _ & Hsl & Hw & _).
  eapply reads_bind; [apply read_bytes_reads; apply Hw|]. cbn. intros w _.
  apply reads_pure.
  - destruct (sender_is_compressed h) eqn:Hc; [|done]. intros Hp.
    destruct (Z.ltb_spec isize_max (h_slen h)); [by apply Hbad|]. exfalso. revert Hp. by apply decompress_no_panic.
  - intros s _. eapply reads_bind; [apply read_rel_reads|]. intros _ _. by apply reads_ret.
Qed.

Lemma hash_bitmap_no_panic bm h idxs : blen bm = EP_BITMAP_BYTES -> (forall i, i ∈ idxs -> 0 <= i < EP_BITMAP_BITS) ->
  no_panic (hash_endpoints_from_bitmap bm h idxs).
Proof.
  intros Hbm. revert h. induction idxs as [|i idxs IH]; intros h Hi; [done|]. cbn [hash_endpoints_from_bitmap].
  pose proof (Hi i ltac:(set_solver)). pose proof bitmap_bits_pos.
  rewrite bitmap_bit_ok by (rewrite Hbm; unfold EP_BITMAP_BYTES; Z.to_euclidean_division_equations; lia).
  cbn [res_bind mbind res_mbind]. destruct (bm_test bm i); [|apply IH; set_solver]. cbn zeta. destruct (_ <? _); [done|].
  unfold ok_or. destruct (endpoint_try_from_u32 _); cbn [res_bind mbind res_mbind]; [|done]. apply IH. set_solver.
Qed.

(** Its payload, and the hash of the fields. *)
Definition id_payload (h : Header) (r : ByteReader) : TelemetryResult (list byte) :=
  if remaining r <? (if payload_is_compressed h then 1 else h_dsz h) then Err (Deserialize "short buffer")
  else read_payload h r.

Definition id_hash (h : Header) (bm : list byte) (t : DataType) (snd : Str) (body : list byte) : TelemetryResult Z :=
  hh ← hash_endpoints_from_bitmap bm (hash_bytes_u64 (hash_bytes_u64 HASH_SEED snd) (get_message_name t))
         (seqZ 0 EP_BITMAP_BITS);
  Ok (hash_bytes_u64 (hash_bytes_u64 (hash_bytes_u64 hh (le_bytes 8 (h_ts h))) (le_bytes 8 (h_dsz h))) body).

Lemma packet_id_fields data :
  packet_id_from_wire (append_crc32 data) =
  if blen data <? 2 then Err (Deserialize "short prelude")
  else
    '(h, r) ← read_header (reader_new data);
    '(bm, t, s, r) ← id_fields h r;
    body ← id_payload h r;
    id_hash h bm t s body.
Proof.
  unfold packet_id_from_wire. rewrite verify_append. cbn [res_bind mbind res_mbind].
  case_match; [done|]. destruct (read_header _) as [[h r]| |]; cbn [res_bind mbind res_mbind]; [|done..].
  unfold id_fields. case_match; [done|].
  destruct (read_bytes r _) as [[bm r1]| |]; cbn [res_bind mbind res_mbind]; [|done..].
  destruct (data_type_from_raw _) as [t| |]; cbn [res_bind mbind res_mbind]; [|done..].
  destruct (read_bytes r1 _) as [[w r2]| |]; cbn [res_bind mbind res_mbind]; [|done..].
  destruct (if sender_is_compressed h then _ else _) as [s| |]; cbn [res_bind mbind res_mbind]; [|done..].
  assert (forall r3, (body ← (if negb (payload_is_compressed h) then
                if remaining r3 <? h_dsz h then Err (Deserialize "short buffer")
                else '(s, _) ← read_bytes r3 (h_dsz h); Ok s
              else
                if remaining r3 <? 1 then Err (Deserialize "short buffer")
                else '(comp, _) ← read_bytes r3 (remaining r3); decompress comp (h_dsz h));
      hh ← hash_endpoints_from_bitmap bm (hash_bytes_u64 (hash_bytes_u64 HASH_SEED s) (get_message_name t))
             (seqZ 0 EP_BITMAP_BITS);
      Ok (hash_bytes_u64 (hash_bytes_u64 (hash_bytes_u64 hh (le_bytes 8 (h_ts h))) (le_bytes 8 (h_dsz h))) body))
    = body ← id_payload h r3; id_hash h bm t s body) as Hpay.
  { intros r3. unfold id_payload, read_payload, id_hash. by destruct (payload_is_compressed h); cbn [negb]; case_match. }
  destruct (is_reliable_type t).
  - destruct (read_reliable_header r2) as [[hdr r3]| |]; cbn [res_bind mbind res_mbind]; [|done..].
    destruct (has_flag _ _); cbn [res_bind mbind res_mbind]; [done|]. apply Hpay.
  - cbn [res_bind mbind res_mbind]. apply Hpay.
Qed.

Lemma packet_id_wire_cases data : buf_ok data -> packet_id_from_wire (append_crc32 data) = Panic -> bomb (append_crc32 data).
Proof.
  intros Hb. rewrite packet_id_fields. destruct (blen data <? 2); [done|].
  pose proof (read_header_reads False [] data Hb) as Hr. rewrite <- reader_new_at in Hr.
  destruct (read_header (reader_new data)) as [[h r]|e|] eqn:Er; cbn [res_bind mbind res_mbind]; [|done|done].
  destruct Hr as (Hh & c & rest & Hdata & ->). rewrite app_nil_l in Er.
  assert ((sender_is_compressed h = true /\ isize_max < h_slen h)
          \/ (payload_is_compressed h = true /\ isize_max < h_dsz h) -> bomb (append_crc32 data)) as Hbomb
    by (apply bomb_of with (at_ c rest); done).
  assert (buf_ok (c ++ rest)) as Hb' by (by rewrite <- Hdata).
  pose proof (id_fields_reads (bomb (append_crc32 data)) h Hh ltac:(auto) c rest Hb') as Hf. rewrite app_nil_l.
  destruct (id_fields _ _) as [[[[bm t] s] r]| |]; cbn [res_bind mbind res_mbind]; [|done|done].
  destruct Hf as (Hbm & c' & rest' & -> & ->). cbn in Hbm. unfold id_payload.
  destruct (_ <? _); [done|]. rewrite app_assoc in Hb'.
  pose proof (read_payload_no_panic h (c ++ c') rest' Hh Hb') as Hpp.
  destruct (read_payload _ _) as [body|e|]; cbn [res_bind mbind res_mbind]; [|done|intros _; apply Hbomb; right; by apply Hpp].
  intros Hp. exfalso. revert Hp. unfold id_hash. apply no_panic_bind; [|done].
  apply hash_bitmap_no_panic; [done|]. intros i. rewrite elem_of_seqZ. lia.
Qed.

(** ** Sent frames *)

Definition canonical (p : Packet) : Packet :=
  {| ty := ty p; data_size := data_size p; sender := sender p;
     pkt_endpoints := sort_dedup (pkt_endpoints p); timestamp := timestamp p;
     payload := payload p |}.

(** [sent p rel w]: the serializers put [w] on the wire for [p], with the
    reliable header [rel]. *)
Inductive sent (p : Packet) : option ReliableHeader -> list byte -> Prop :=
| sent_plain w :
    serialize_packet p = Ok w ->
    sent p (if is_reliable_type (ty p) then Some unsequenced_header else None) w
| sent_reliable hdr w :
    is_reliable_type (ty p) = true -> reliable_header_ok hdr ->
    serialize_packet_with_reliable p hdr = Ok w -> sent p (Some hdr) w.

Definition is_ack (rel : option ReliableHeader) : bool :=
  from_option (fun hdr => has_flag (rh_flags hdr) RELIABLE_FLAG_ACK_ONLY) false rel.

Lemma serialize_packet_inner_eq p :
  serialize_packet p
  = serialize_packet_inner p (if is_reliable_type (ty p) then Some unsequenced_header else None).
Proof. unfold serialize_packet. by destruct (is_reliable_type _). Qed.

Lemma unsequenced_ok : reliable_header_ok unsequenced_header.
Proof. vm_compute. split_and!; done. Qed.

Lemma sent_inner p rel w :
  sent p rel w -> serialize_packet_inner p rel = Ok w /\ rel_ok (ty p) rel.
Proof.
  intros [w' Hw|hdr w' Ht Hh Hw].
  - rewrite serialize_packet_inner_eq in Hw. split; [done|].
    destruct (is_reliable_type (ty p)) eqn:E; cbn; [|done]. split; [done|apply unsequenced_ok].
  - done.
Qed.

Lemma sent_frame p data rel w :
  wire_ok p data -> sent p rel w ->
  exists sc sw pc pw, encoded (sender p) sc sw /\ encoded data pc pw
    /\ unique_endpoints p <= u8_max /\ rel_ok (ty p) rel
    /\ w = append_crc32 (frame_body (packet_header p sc sw pc)
             (build_endpoint_bitmap (pkt_endpoints p)) sw rel pw).
Proof.
  intros Hw [Hs Hr]%sent_inner. destruct (serialize_form p data rel Hw) as (sc & sw & pc & pw & Hes & Hed & Hf).
  rewrite Hs in Hf. destruct (Z.ltb_spec u8_max (unique_endpoints p)); [done|]. injection Hf as ->.
  by exists sc, sw, pc, pw.
Qed.

Lemma sent_decoded t eps s ts data p rel w :
  STACK_PAYLOAD_SIZE < 2 ^ 63 -> packet_new t eps s ts data = Ok p -> wire_ok p data ->
  sent p rel w -> is_ack rel = false ->
  deserialize_packet w = Ok (canonical p) /\ validate (canonical p) = Ok tt.
Proof.
  intros Hstack Hp Hw Hsent Hack. apply packet_new_ok in Hp as (Hok & _ & _ & _ & _ & Hstore); [|done].
  apply (sent_frame p data) in Hsent as (sc & sw & pc & pw & Hes & Hed & Hu & Hr & ->); [|done].
  rewrite (deserialize_frame p data) by (try done; intros hdr ->; done).
  assert (packet_new (ty p) (sort_dedup (pkt_endpoints p)) (sender p) (timestamp p) data = Ok (canonical p)) as E.
  { destruct (packet_new_cases (ty p) (sort_dedup (pkt_endpoints p)) (sender p) (timestamp p) data)
      as [[Hnil _]|[(_ & Hc & _)|(_ & _ & ->)]].
    + exfalso. apply (po_eps _ _ Hok). apply elem_of_nil_inv. intros e Hin.
      apply elem_of_sort_dedup in Hin. rewrite Hnil in Hin. by apply elem_of_nil in Hin.
    + by destruct (Hc (po_content _ _ Hok)).
    + rewrite Hstore. cbn. unfold canonical. by rewrite (po_size _ _ Hok). }
  split; [done|]. apply packet_new_ok in E as (Hok' & _); [|done]. by apply validate_ok with data.
Qed.

(** C18. Every frame the serializers emit for a constructed packet decodes to
    that packet with its endpoints in ascending order without repetition;
    serialization succeeds unless more than 255 distinct endpoints are
    selected, in which case it panics. *)
Theorem serialize_roundtrip t eps s ts data p :
  STACK_PAYLOAD_SIZE < 2 ^ 63 -> packet_new t eps s ts data = Ok p ->
  valid_ty t -> Forall valid_ep eps -> utf8_valid s = true -> is_u64 ts ->
  blen s + blen data < 2 ^ 62 ->
  (forall rel w, sent p rel w -> is_ack rel = false -> deserialize_packet w = Ok (canonical p))
  /\ (if u8_max <? unique_endpoints p then serialize_packet p = Panic
      else exists w, serialize_packet p = Ok w).
Proof.
  intros Hstack Hp Ht He Hs Hts Hl. pose proof Hp as Hnew.
  apply packet_new_ok in Hp as (Hok & E1 & E2 & E3 & E4 & Hstore); [|done]. subst.
  pose proof (packet_wire_ok p data Hok Ht He Hs Hts Hl) as Hw. split.
  - intros rel w Hsent Hack. by eapply sent_decoded.
  - rewrite serialize_packet_inner_eq.
    destruct (serialize_form p data (if is_reliable_type (ty p) then Some unsequenced_header else None) Hw)
      as (sc & sw & pc & pw & _ & _ & ->).
    destruct (_ <? _); [done|by eexists].
Qed.

(** Peeking agrees with decoding: on every sent frame the envelope peek
    returns the type, ascending endpoints, sender and timestamp of the packet,
    and the frame peeks, checked or not, also return the reliable header that
    was written, if the type is reliable. *)
Theorem peek_sent p data rel w :
  wire_ok p data -> sent p rel w ->
  let env := {| env_ty := ty p; env_endpoints := sort_dedup (pkt_endpoints p);
                env_sender := sender p; env_timestamp_ms := timestamp p |} in
  peek_envelope w = Ok env
  /\ peek_frame_info w = Ok {| envelope := env; fi_reliable := rel |}
  /\ peek_frame_info_unchecked w = Ok {| envelope := env; fi_reliable := rel |}.
Proof.
  intros Hw Hs env. destruct (sent_frame p data rel w Hw Hs) as (sc & sw & pc & pw & Hes & Hed & Hu & Hr & ->).
  pose proof (peek_frame p data sc sw pc pw rel Hw Hes Hed Hu Hr) as Hpf.
  unfold peek_envelope, peek_frame_info, peek_frame_info_unchecked. rewrite !verify_append.
  unfold append_crc32 at 1. rewrite split_crc32_app by apply blen_le_bytes.
  cbn [res_bind mbind res_mbind]. split; [|done].
  pose proof (frame_len_min p data sc sw pc pw rel Hw Hes Hu Hr).
  destruct (Z.eqb_spec (blen (frame_body (packet_header p sc sw pc)
    (build_endpoint_bitmap (pkt_endpoints p)) sw rel pw)) 0); [lia|].
  by rewrite (read_envelope_frame p data).
Qed.

(** Rewriting the reliable header in place is the same as serializing
    the packet again with the new header, checksum included; frames of
    unreliable types are left alone. *)
Theorem rewrite_is_reserialize p data rel w fl sq ak :
  wire_ok p data -> sent p rel w ->
  match rel with
  | Some _ => exists w', rewrite_reliable_header w fl sq ak = Ok (true, w')
      /\ serialize_packet_with_reliable p {| rh_flags := fl; rh_seq := sq; rh_ack := ak |} = Ok w'
  | None => rewrite_reliable_header w fl sq ak = Ok (false, w)
  end.
Proof.
  intros Hw Hs. destruct (sent_inner _ _ _ Hs) as [Hsi Hr].
  destruct (serialize_form p data rel Hw) as (sc & sw & pc & pw & Hes & Hed & Hf).
  rewrite Hsi in Hf. destruct (Z.ltb_spec u8_max (unique_endpoints p)) as [|Hu]; [done|]. injection Hf as ->.
  destruct rel as [hdr|].
  - eexists. split; [by apply (rewrite_frame p data)|].
    unfold serialize_packet_with_reliable, serialize_packet_inner, payload_bytes.
    rewrite (proj1 Hes). cbn [res_bind mbind res_mbind]. rewrite (proj1 (wo_payload _ _ Hw)).
    cbn [res_bind mbind res_mbind]. rewrite (proj1 Hed). cbn [res_bind mbind res_mbind].
    rewrite popcount_build by apply Hw. fold (unique_endpoints p).
    destruct (Z.ltb_spec u8_max (unique_endpoints p)); [lia|]. done.
  - unfold rewrite_reliable_header. rewrite (header_offset_frame p data) by done.
    cbn in Hr. by rewrite Hr.
Qed.

(** The identifier computed from a sent frame without decoding it is the
    identifier of the packet the receiver decodes; it is the sender's own
    identifier whenever the packet listed its endpoints in ascending order. *)
Theorem packet_id_from_wire_correct p data rel w :
  wire_ok p data -> sent p rel w -> is_ack rel = false ->
  packet_id_from_wire w = packet_id (canonical p)
  /\ (strictly_sorted (pkt_endpoints p) -> packet_id_from_wire w = packet_id p).
Proof.
  intros Hw Hs Hack. destruct (sent_frame p data rel w Hw Hs) as (sc & sw & pc & pw & Hes & Hed & Hu & Hr & ->).
  assert (forall hdr, rel = Some hdr -> has_flag (rh_flags hdr) RELIABLE_FLAG_ACK_ONLY = false) as Ha
    by (intros hdr ->; done).
  rewrite (packet_id_frame p data sc sw pc pw rel) by done. split; [done|].
  intros Hsorted. rewrite sort_dedup_id by done. by destruct p.
Qed.

Lemma uleb_size_wrap v n : 0 <= v < 2 ^ 32 -> n = 32 -> uleb128_size (wrap n v) = blen (write_uleb128 v).
Proof. intros Hv ->. rewrite wrap_small by done. apply uleb128_size_spec. zlia. Qed.

(** The size helper is exact: it returns the length of the frame
    [serialize_packet] emits. *)
Theorem packet_wire_size_exact p data w :
  wire_ok p data -> serialize_packet p = Ok w -> packet_wire_size p = Ok (blen w).
Proof.
  intros Hw Hs. pose proof (sent_plain p w Hs) as Hsent. rewrite serialize_packet_inner_eq in Hs.
  destruct (sent_frame p data _ w Hw Hsent) as (sc & sw & pc & pw & Hes & Hed & Hu & Hr & ->).
  unfold append_crc32. rewrite blen_app, blen_le_bytes, (frame_len p sc sw pc pw _ Hr).
  pose proof (packet_header_ok p data sc sw pc Hw Hes Hu) as Hh.
  destruct Hh as (_ & _ & Ht & Hd & Hts & Hsl & Hwl & _).
  cbn [packet_header h_ty h_dsz h_ts h_slen h_sender_wire_len] in *.
  unfold packet_wire_size, header_size_bytes, payload_bytes. rewrite (proj1 Hes).
  cbn [res_bind mbind res_mbind]. rewrite (proj1 (wo_payload _ _ Hw)). cbn [res_bind mbind res_mbind].
  rewrite (proj1 Hed). cbn [res_bind mbind res_mbind]. unfold write_header.
  cbn [packet_header h_flags h_ty h_dsz h_ts h_slen h_sender_wire_len].
  destruct (flags_bits pc sc) as (-> & _). rewrite !blen_cons, !blen_app.
  rewrite (uleb_size_wrap (ty p)); [|pose proof (so_tys _ Hschema); pose proof (wo_ty _ _ Hw); unfold valid_ty in *; zlia|done].
  rewrite !uleb128_size_spec by done. unfold CRC32_BYTES.
  f_equal. destruct sc; rewrite ?blen_nil; lia.
Qed.

(** A frame that decodes is described by its packet: the peeks agree. *)
Lemma read_bytes_inv pre rest n c r : 0 <= n -> buf_ok (pre ++ rest) -> read_bytes (at_ pre rest) n = Ok (c, r) ->
  exists rest', rest = c ++ rest' /\ blen c = n /\ r = at_ (pre ++ c) rest'.
Proof.
  intros Hn Hb Hr. destruct (Z.ltb_spec (blen rest) n) as [Hlt|Hge]; [by rewrite read_bytes_short in Hr|].
  rewrite <- (take_drop (Z.to_nat n) rest) in Hb, Hr.
  assert (blen (take (Z.to_nat n) rest) = n) as Hlen by (unfold blen in *; rewrite length_take; lia).
  rewrite read_bytes_at in Hr by done. injection Hr as <- <-. exists (drop (Z.to_nat n) rest). by rewrite take_drop.
Qed.

Lemma reliable_header_len pre rest hdr r : buf_ok (pre ++ rest) ->
  read_reliable_header (at_ pre rest) = Ok (hdr, r) -> RELIABLE_HEADER_BYTES <= blen rest.
Proof.
  intros Hb. unfold read_reliable_header, read_u8, read_u32_le. intros Hr.
  apply bind_ok in Hr as ([f r1] & Ha & Hr). apply bind_ok in Ha as ([c r1'] & Ha & Hf).
  apply read_bytes_inv in Ha as (rest1 & -> & Hl1 & ->); [|lia|done].
  apply bind_ok in Hf as (b & _ & [= <- <-]). rewrite app_assoc in Hb.
  apply bind_ok in Hr as ([sq r2] & Hc & Hr). apply bind_ok in Hc as ([c2 r2'] & Hc & Hs).
  apply read_bytes_inv in Hc as (rest2 & -> & Hl2 & ->); [|lia|done].
  do 4 apply bind_ok in Hs as (? & _ & Hs). injection Hs as <- <-. rewrite app_assoc in Hb.
  apply bind_ok in Hr as ([ak r3] & Hd & _). apply bind_ok in Hd as ([c3 r3'] & Hd & _).
  apply read_bytes_inv in Hd as (rest3 & -> & Hl3 & _); [|lia|done].
  rewrite !blen_app. unfold RELIABLE_HEADER_BYTES. pose proof (blen_nonneg rest3). lia.
Qed.

Lemma envelope_rest_answers h c rest eps s t r1 r2 :
  header_ok h -> buf_ok (c ++ rest) ->
  read_endpoints (h_nep h) (at_ c rest) = Ok (eps, r1) -> read_sender h r1 = Ok (s, r2) ->
  data_type_from_raw (h_ty h) = Ok t ->
  envelope_rest h (at_ c rest)
  = Ok ({| env_ty := t; env_endpoints := eps; env_sender := s; env_timestamp_ms := h_ts h |}, r2)
  /\ exists c' rest', rest = c' ++ rest' /\ r2 = at_ (c ++ c') rest'.
Proof.
  intros Hh Hb He Hs Ht. unfold envelope_rest. pose proof bitmap_bytes_small.
  destruct Hh as (_ & _ & _ & _ & _ & _ & Hw & _).
  assert (exists c' rest', rest = c' ++ rest' /\ r2 = at_ (c ++ c') rest' /\ blen c' = EP_BITMAP_BYTES + h_sender_wire_len h)
    as (c' & rest' & -> & -> & Hl).
  { unfold read_endpoints in He. apply bind_ok in He as ([bm r] & Hbm & He).
    apply read_bytes_inv in Hbm as (rest1 & -> & Hl1 & ->); [|lia|done]. rewrite app_assoc in Hb.
    apply bind_ok in He as (eps' & _ & He). destruct (negb _); [done|]. injection He as -> <-.
    unfold read_sender in Hs. apply bind_ok in Hs as ([w r] & Hwr & Hs).
    apply read_bytes_inv in Hwr as (rest2 & -> & Hl2 & ->); [|apply Hw|done].
    apply bind_ok in Hs as (s' & _ & [= -> <-]). exists (bm ++ w), rest2. rewrite !app_assoc, blen_app. split_and!; [done|done|lia]. }
  split; [|by eauto]. rewrite remaining_at, wrap_small; [|split; [unfold is_u64 in Hw; lia|]].
  - rewrite blen_app. pose proof (blen_nonneg rest'). zcase. rewrite He. cbn [res_bind mbind res_mbind].
    rewrite Hs. cbn [res_bind mbind res_mbind]. by rewrite Ht.
  - unfold buf_ok in Hb. rewrite !blen_app in Hb. pose proof (blen_nonneg c). pose proof (blen_nonneg rest').
    unfold isize_max in *. lia.
Qed.

Lemma decoded_peeks l p : buf_ok l -> STACK_PAYLOAD_SIZE < 256 -> deserialize_packet l = Ok p ->
  peek_envelope l = Ok (packet_envelope p)
  /\ exists rel, peek_frame_info l = Ok {| envelope := packet_envelope p; fi_reliable := rel |}
     /\ is_ack rel = false.
Proof.
  intros Hb Hstack Hd. destruct (verify_crc32 l) as [data|e|] eqn:Hv.
  2, 3: unfold deserialize_packet in Hd; by rewrite Hv in Hd.
  unfold peek_envelope, peek_frame_info, peek_frame_info_inner. rewrite Hv. cbn [res_bind mbind res_mbind].
  apply verify_crc32_ok in Hv as ->. rewrite deserialize_fields in Hd.
  destruct (blen data =? 0); [done|]. apply bind_ok in Hd as ([h r] & Hh & Hd).
  assert (buf_ok data) as Hbd by (unfold buf_ok, append_crc32 in *; rewrite blen_app, blen_le_bytes in Hb; lia).
  pose proof (read_header_reads False [] data Hbd) as Hrh. rewrite <- reader_new_at, Hh in Hrh.
  destruct Hrh as (Hhok & c & rest & Hdata & ->).
  apply bind_ok in Hd as (relb & _ & Hd). cbn zeta in Hd. destruct (_ <? _); [done|].
  apply bind_ok in Hd as ([[[[h' eps] s] t] r4] & Hf & Hd). unfold read_fields in Hf.
  apply bind_ok in Hf as ([eps' r1] & He & Hf). apply bind_ok in Hf as ([s' r2] & Hs & Hf).
  apply bind_ok in Hf as (t' & Ht & Hf). apply bind_ok in Hf as ([rel r3] & Hrel & [= <- <- <- <- <-]).
  apply bind_ok in Hd as (body & _ & Hp). apply packet_new_ok in Hp as (_ & E1 & E2 & E3 & E4 & _); [|lia].
  subst data. destruct (envelope_rest_answers h ([] ++ c) rest eps' s' t' r1 r2 Hhok Hbd He Hs Ht) as (Henv & c' & rest' & -> & ->).
  change (read_envelope (reader_new ?d)) with ('(h, r) ← read_header (reader_new d); envelope_rest h r).
  rewrite Hh. cbn [res_bind mbind res_mbind]. rewrite Henv. cbn [res_bind mbind res_mbind env_ty].
  unfold packet_envelope. rewrite E1, E2, E3, E4. split; [done|].
  destruct (is_reliable_type t'); [|by exists None].
  apply bind_ok in Hrel as ([hdr r] & Hr & Hrel). destruct (has_flag _ _) eqn:Hack; [done|].
  cbn [app] in *. rewrite app_assoc in Hbd. pose proof (reliable_header_len _ _ _ _ Hbd Hr).
  rewrite remaining_at. zcase. rewrite Hr. exists (Some hdr). by split.
Qed.

(** The bytes before the checksum. *)
Definition unchecked_data (l : list byte) : list byte := take (Z.to_nat (blen l - 4)) l.

Lemma unchecked_app data c : blen c = 4 -> unchecked_data (data ++ c) = data.
Proof.
  intros Hc. unfold unchecked_data. rewrite blen_app, Hc, Z.add_simpl_r. unfold blen. by rewrite Nat2Z.id, take_app_length.
Qed.

Lemma data_buf_ok data : buf_ok (append_crc32 data) -> buf_ok data.
Proof. unfold buf_ok, append_crc32. rewrite blen_app, blen_le_bytes. lia. Qed.

Lemma peek_envelope_cases l : buf_ok l ->
  match peek_envelope l with Ok e => envelope_ok e | Err _ => True | Panic => sender_bomb (unchecked_data l) end.
Proof.
  intros Hb. unfold peek_envelope. pose proof (verify_crc32_no_panic l) as Hnp.
  destruct (verify_crc32 l) as [data|e|] eqn:Hv; cbn [res_bind mbind res_mbind]; [|done|done].
  apply verify_crc32_ok in Hv as ->. apply data_buf_ok in Hb.
  destruct (blen data =? 0); [done|]. unfold append_crc32. rewrite unchecked_app by apply blen_le_bytes.
  pose proof (read_envelope_cases data Hb) as He. destruct (read_envelope _) as [[e r]| |]; cbn; [apply He|done|done].
Qed.

Lemma peek_checked_cases l : buf_ok l ->
  match peek_frame_info l with
  | Ok fi => frame_info_ok fi /\ peek_frame_info_unchecked l = Ok fi
  | Err _ => True
  | Panic => sender_bomb (unchecked_data l)
  end.
Proof.
  intros Hb. unfold peek_frame_info. pose proof (verify_crc32_no_panic l) as Hnp.
  destruct (verify_crc32 l) as [data|e|] eqn:Hv; cbn [res_bind mbind res_mbind]; [|done|done].
  apply verify_crc32_ok in Hv as ->. apply data_buf_ok in Hb. pose proof (peek_inner_cases data Hb) as Hi.
  unfold peek_frame_info_unchecked, append_crc32. rewrite split_crc32_app by apply blen_le_bytes. cbn [res_bind mbind res_mbind].
  rewrite unchecked_app by apply blen_le_bytes. by destruct (peek_frame_info_inner data).
Qed.

Lemma peek_unchecked_cases l : buf_ok l ->
  match peek_frame_info_unchecked l with
  | Ok fi => frame_info_ok fi
  | Err _ => True
  | Panic => sender_bomb (unchecked_data l)
  end.
Proof.
  intros Hb. unfold peek_frame_info_unchecked.
  destruct (split_crc32_cases l) as [[-> _]|(d & c & -> & Hc & ->)]; cbn [res_bind mbind res_mbind]; [done|].
  rewrite unchecked_app by done. apply peek_inner_cases. unfold buf_ok in *. rewrite blen_app in Hb. lia.
Qed.

(** C19. No input makes a decoder misbehave silently.  For every buffer: a
    decoded packet is well formed (valid type, valid ascending endpoints,
    UTF-8 sender, payload accepted by the schema), and the envelope and the
    frame description peeked from its frame are the packet's own; the peeks
    answer well-formed values or an error, whatever the frame, and describe a
    reliable header exactly for the reliable types.  The only panic of any
    decoder is the allocation of an announced decompressed size above
    [isize::MAX]: of the payload or the sender when a packet is decoded or
    identified, of the sender when a frame is peeked. *)
Theorem deserialize_safe l :
  buf_ok l -> STACK_PAYLOAD_SIZE < 256 ->
  match deserialize_packet l with
  | Ok p => decoded_ok p /\ peek_envelope l = Ok (packet_envelope p)
      /\ exists rel, peek_frame_info l = Ok {| envelope := packet_envelope p; fi_reliable := rel |} /\ is_ack rel = false
  | Err _ => True
  | Panic => bomb l
  end
  /\ match peek_envelope l with Ok e => envelope_ok e | Err _ => True | Panic => sender_bomb (unchecked_data l) end
  /\ match peek_frame_info l with
     | Ok fi => frame_info_ok fi /\ peek_frame_info_unchecked l = Ok fi
     | Err _ => True
     | Panic => sender_bomb (unchecked_data l)
     end
  /\ match peek_frame_info_unchecked l with
     | Ok fi => frame_info_ok fi
     | Err _ => True
     | Panic => sender_bomb (unchecked_data l)
     end
  /\ (packet_id_from_wire l = Panic -> bomb l).
Proof.
  intros Hb Hstack. split; [|split; [|split; [|split]]].
  - pose proof (deserialize_cases l Hb Hstack) as Hd.
    destruct (deserialize_packet l) as [p| |] eqn:E; [|done|done]. split; [done|]. by apply decoded_peeks.
  - by apply peek_envelope_cases.
  - by apply peek_checked_cases.
  - by apply peek_unchecked_cases.
  - destruct (verify_crc32 l) as [data|e|] eqn:Hv.
    2, 3: unfold packet_id_from_wire; rewrite Hv; cbn; try done; by apply verify_crc32_no_panic in Hv.
    apply verify_crc32_ok in Hv as ->. apply packet_id_wire_cases. by apply data_buf_ok.
Qed.

(** The acknowledgement frame is the frame of an empty pseudo-packet. *)
Definition ack_packet (s : Str) (t : DataType) (ts : Z) : Packet :=
  {| ty := t; data_size := 0; sender := s; pkt_endpoints := []; timestamp := ts;
     payload := StdHeap [] |}.

Definition ack_header (ack : Z) : ReliableHeader :=
  {| rh_flags := RELIABLE_FLAG_ACK_ONLY; rh_seq := 0; rh_ack := ack |}.

Lemma compress_nil : compress_if_beneficial [] = Ok (false, []).
Proof. unfold compress_if_beneficial. by destruct (_ <? _). Qed.

Lemma serialize_ack_inner s t ts ack :
  serialize_reliable_ack s t ts ack = serialize_packet_inner (ack_packet s t ts) (Some (ack_header ack)).
Proof.
  unfold serialize_reliable_ack, serialize_packet_inner, payload_bytes. cbn [ack_packet sender payload].
  destruct (compress_if_beneficial s) as [[sc sw]| |]; cbn [res_bind mbind res_mbind]; [|done..].
  cbn [std_as_slice res_bind mbind res_mbind]. rewrite compress_nil. cbn [res_bind mbind res_mbind pkt_endpoints].
  rewrite popcount_build by done. cbn [ty data_size timestamp]. unfold build_endpoint_bitmap.
  cbn [fold_left from_option]. by rewrite app_nil_r.
Qed.

Lemma ack_wire_ok s t ts :
  valid_ty t -> utf8_valid s = true -> is_u64 ts -> blen s < 2 ^ 62 -> wire_ok (ack_packet s t ts) [].
Proof. intros. constructor; try done; cbn [ack_packet sender]; rewrite ?blen_nil; first [lia|by constructor]. Qed.

(** Acknowledgement frames: for a reliable type the frame peek recognises
    them and returns the sequence number acknowledged, and the packet decoder
    refuses them as control frames. *)
Theorem reliable_ack_recognised s t ts ack :
  valid_ty t -> is_reliable_type t = true -> utf8_valid s = true -> is_u64 ts -> is_u32 ack ->
  blen s < 2 ^ 62 ->
  exists w fi, serialize_reliable_ack s t ts ack = Ok w
    /\ peek_frame_info w = Ok fi /\ ack_only fi = true
    /\ env_ty (envelope fi) = t /\ env_sender (envelope fi) = s
    /\ option_map rh_ack (fi_reliable fi) = Some ack
    /\ deserialize_packet w = Err (Deserialize "reliable control frame").
Proof.
  intros Ht Hrel Hs Hts Ha Hl. pose proof (ack_wire_ok s t ts Ht Hs Hts Hl) as Hw.
  assert (rel_ok t (Some (ack_header ack))) as Hr by (split; [done|]; split; [done|]; done).
  rewrite serialize_ack_inner.
  destruct (serialize_form _ _ (Some (ack_header ack)) Hw) as (sc & sw & pc & pw & Hes & Hed & ->).
  change (unique_endpoints (ack_packet s t ts)) with 0. cbn [Z.ltb].
  eexists _, _. split; [done|]. unfold peek_frame_info. rewrite verify_append. cbn [res_bind mbind res_mbind].
  split; [by rewrite (peek_frame _ [] sc sw pc pw (Some (ack_header ack)))|].
  split; [done|]. split; [done|]. split; [done|]. split; [done|].
  by apply (deserialize_control_frame _ [] sc sw pc pw _ Hw Hes Hed ltac:(done) Hr (ack_header ack)).
Qed.
End RoundTrip.

(** ** A concrete world: the shipped schema, and stand-ins for the external code

    The checksum sums bytes; the compressor handles runs of one byte. *)

Definition run_compress (i : list byte) (cap : Z) : option (list byte) :=
  match i with
  | b :: _ => if forallb (fun c => u8 c =? u8 b) i && (1 <=? cap) then Some [b] else None
  | [] => None
  end.

Definition run_decompress (o : list byte) (cap : Z) : option (list byte) :=
  match o with
  | [b] => Some (replicate (Z.to_nat cap) b)
  | _ => None
  end.

Definition run_external : External :=
  {| crc32 := fun l => wrap 32 (foldr (fun b n => u8 b + 31 * n) 0 l);
     zstd_compress := run_compress; zstd_decompress := run_decompress |}.

Lemma run_external_ok : @ExternalOk run_external.
Proof.
  constructor; cbn.
  - intros l. apply wrap_range. lia.
  - intros [|b i] cap o; cbn; [done|]. destruct (_ && _) eqn:E; [|done]. intros [= <-].
    apply andb_true_iff in E as [_ E]. apply Z.leb_le in E. unfold blen. cbn. lia.
  - intros [|b i] cap o; cbn [run_compress]; [done|]. destruct (_ && _) eqn:E; [|done]. intros [= <-].
    apply andb_true_iff in E as [E _]. rewrite forallb_forall in E. cbn [run_decompress]. f_equal.
    unfold blen. rewrite Nat2Z.id.
    apply replicate_as_elem_of. split; [done|].
    intros c Hc. apply list_elem_of_In, E, Z.eqb_eq in Hc. by apply u8_inj.
Qed.

Definition long_sender : Str := replicate 200 (b8 65).

Definition the_packet (r : TelemetryResult Packet) : Packet :=
  match r with
  | Ok p => p
  | _ => {| ty := 0; data_size := 0; sender := []; pkt_endpoints := []; timestamp := 0; payload := StdHeap [] |}
  end.

Definition the_frame (r : TelemetryResult (list byte)) : list byte :=
  match r with Ok w => w | _ => [] end.

(** A GPS packet for [[Radio; SdCard]], the order the schema lists them in. *)
Definition gps_packet : Packet :=
  the_packet (@packet_new default_config default_schema 0 [1; 0] long_sender 1000
                (encode_slice_le PF32 gps_values)).

Definition gps_frame : list byte :=
  the_frame (@serialize_packet default_config default_schema run_external gps_packet).

Lemma gps_packet_built :
  @packet_new default_config default_schema 0 [1; 0] long_sender 1000
    (encode_slice_le PF32 gps_values) = Ok gps_packet.
Proof. vm_compute. reflexivity. Qed.

Lemma gps_serialized :
  @serialize_packet default_config default_schema run_external gps_packet = Ok gps_frame.
Proof. vm_compute. reflexivity. Qed.

Lemma gps_wire_ok : @wire_ok default_schema gps_packet (encode_slice_le PF32 gps_values).
Proof.
  constructor.
  - vm_compute; reflexivity.
  - split; [|split]; vm_compute; reflexivity.
  - vm_compute; split; discriminate.
  - repeat (apply List.Forall_cons; [vm_compute; split; discriminate|]). apply List.Forall_nil.
  - vm_compute; reflexivity.
  - vm_compute; split; [discriminate|reflexivity].
  - vm_compute; reflexivity.
Qed.

Lemma gps_sent :
  @sent default_config default_schema run_external gps_packet (Some unsequenced_header) gps_frame.
Proof.
  exact (@sent_plain default_config default_schema run_external gps_packet gps_frame gps_serialized).
Qed.

Lemma serialize_roundtrip_witness :
  @deserialize_packet default_config default_schema run_external gps_frame = Ok (canonical gps_packet)
  /\ blen gps_frame < blen long_sender.
Proof.
  split; [|vm_compute; reflexivity].
  apply (@serialize_roundtrip default_config default_schema run_external run_external_ok default_schema_ok
    0 [1; 0] long_sender 1000 (encode_slice_le PF32 gps_values) gps_packet) with (rel := Some unsequenced_header).
  - vm_compute; reflexivity.
  - exact gps_packet_built.
  - vm_compute; split; discriminate.
  - repeat (apply List.Forall_cons; [vm_compute; split; discriminate|]). apply List.Forall_nil.
  - vm_compute; reflexivity.
  - vm_compute; split; [discriminate|reflexivity].
  - vm_compute; reflexivity.
  - exact gps_sent.
  - reflexivity.
Defined.

Lemma peek_sent_witness :
  match @peek_frame_info default_schema run_external gps_frame with
  | Ok fi => fi_reliable fi = Some unsequenced_header /\ env_endpoints (envelope fi) = [0; 1]
  | _ => False
  end.
Proof.
  destruct (@peek_sent default_config default_schema run_external run_external_ok default_schema_ok
    gps_packet _ _ _ gps_wire_ok gps_sent) as (_ & Hp & _).
  rewrite Hp. split; reflexivity.
Defined.

Lemma rewrite_is_reserialize_witness :
  exists w', @rewrite_reliable_header default_schema run_external gps_frame 0 7 3 = Ok (true, w')
    /\ @peek_frame_info default_schema run_external w' <> Panic.
Proof.
  destruct (@rewrite_is_reserialize default_config default_schema run_external run_external_ok
    default_schema_ok gps_packet _ (Some unsequenced_header) gps_frame 0 7 3 gps_wire_ok gps_sent)
    as (w' & Hw & Hs).
  exists w'. split; [exact Hw|]. vm_compute in Hs. injection Hs as <-. vm_compute. discriminate.
Defined.

Lemma packet_id_from_wire_correct_witness :
  @packet_id_from_wire default_schema run_external gps_frame
  = @packet_id default_schema (canonical gps_packet).
Proof.
  apply (@packet_id_from_wire_correct default_config default_schema run_external run_external_ok
    default_schema_ok gps_packet _ (Some unsequenced_header) gps_frame gps_wire_ok gps_sent eq_refl).
Defined.

Lemma packet_wire_size_exact_witness :
  @packet_wire_size default_config default_schema run_external gps_packet = Ok (blen gps_frame).
Proof.
  apply (@packet_wire_size_exact default_config default_schema run_external run_external_ok
    default_schema_ok gps_packet _ gps_frame gps_wire_ok gps_serialized).
Defined.

Lemma reliable_ack_recognised_witness :
  exists w fi, @serialize_reliable_ack default_config default_schema run_external (lit "node") 0 5 42 = Ok w
    /\ @peek_frame_info default_schema run_external w = Ok fi /\ ack_only fi = true.
Proof.
  destruct (@reliable_ack_recognised default_config default_schema run_external run_external_ok
    default_schema_ok (lit "node") 0 5 42) as (w & fi & Hw & Hf & Ha & _).
  - vm_compute; split; discriminate.
  - reflexivity.
  - reflexivity.
  - vm_compute; split; [discriminate|reflexivity].
  - vm_compute; split; [discriminate|reflexivity].
  - vm_compute; reflexivity.
  - exists w, fi. split; [exact Hw|split; [exact Hf|exact Ha]].
Defined.

(** A frame that announces a 2^63-byte payload: 24 bytes that panic the decoder. *)
Definition bomb_frame : list byte :=
  @append_crc32 run_external
    (write_header {| h_flags := 1; h_nep := 1; h_ty := 1; h_dsz := 2 ^ 63; h_ts := 0; h_slen := 0;
                     h_sender_wire_len := 0 |}
     ++ @build_endpoint_bitmap default_schema [0] ++ [b8 0]).

Lemma deserialize_safe_witness :
  @deserialize_packet default_config default_schema run_external bomb_frame = Panic /\ bomb bomb_frame.
Proof.
  assert (@deserialize_packet default_config default_schema run_external bomb_frame = Panic) as Hp
    by (vm_compute; reflexivity).
  split; [exact Hp|].
  pose proof (@deserialize_safe default_config default_schema run_external run_external_ok
    default_schema_ok bomb_frame ltac:(vm_compute; discriminate) eq_refl) as Hs.
  rewrite Hp in Hs. exact (proj1 Hs).
Defined.

(** [packet_id_from_wire] is documented as computing the same identifier as
    [Packet::packet_id]: not for the endpoint order of the shipped schema. *)
Example gps_packet_id_differs :
  @packet_id_from_wire default_schema run_external gps_frame
  <> @packet_id default_schema gps_packet.
Proof. vm_compute. discriminate. Qed.
