(* ===== verification/Calendar.v ===== *)
(** * Calendar arithmetic ([src/timesync.rs], [src/packet.rs])

    The civil-date conversions of the network clock and of the packet printer,
    [NetworkTime] and [PartialNetworkTime], and the human-readable timestamps.
    The specification is the proleptic Gregorian calendar, given by its
    successor function. *)

From S2P Require Import Prelude Telemetry.

(** ** The conversions

    Rust's [/] truncates: [Z.quot]. The years are [i32], the day counts [i64]. *)

Definition i32 (z : Z) : Z := swrap 32 z.
Definition i64 (z : Z) : Z := swrap 64 z.

Definition civil_from_days (z : Z) : Z * Z * Z :=
  let z := i64 (z + 719468) in
  let era := Z.quot (if 0 <=? z then z else i64 (z - 146096)) 146097 in
  let doe := i64 (z - i64 (era * 146097)) in
  let yoe := Z.quot (doe - Z.quot doe 1460 + Z.quot doe 36524 - Z.quot doe 146096) 365 in
  let y := i32 (i32 yoe + i32 (i32 era * 400)) in
  let doy := doe - (365 * yoe + Z.quot yoe 4 - Z.quot yoe 100) in
  let mp := Z.quot (5 * doy + 2) 153 in
  let d := doy - Z.quot (153 * mp + 2) 5 + 1 in
  let m := mp + (if mp <? 10 then 3 else -9) in
  let y := i32 (y + (if m <=? 2 then 1 else 0)) in
  (y, wrap 32 m, wrap 32 d).

(** The printer's copy keeps the day of the year in an [i32]. *)
Definition packet_civil_from_days (z : Z) : Z * Z * Z :=
  let z := i64 (z + 719468) in
  let era := Z.quot (if 0 <=? z then z else i64 (z - 146096)) 146097 in
  let doe := i64 (z - i64 (era * 146097)) in
  let yoe := Z.quot (doe - Z.quot doe 1460 + Z.quot doe 36524 - Z.quot doe 146096) 365 in
  let y := i32 (i32 yoe + i32 (i32 era * 400)) in
  let doy := i32 (doe - (365 * yoe + Z.quot yoe 4 - Z.quot yoe 100)) in
  let mp := Z.quot (i32 (5 * doy + 2)) 153 in
  let d := i32 (doy - Z.quot (i32 (153 * mp + 2)) 5 + 1) in
  let m := i32 (mp + (if mp <? 10 then 3 else -9)) in
  let y := i32 (y + (if m <=? 2 then 1 else 0)) in
  (y, wrap 32 m, wrap 32 d).

(** All in [i32] until the last cast. *)
Definition days_from_civil (year month day : Z) : Z :=
  let year := i32 (year - (if month <=? 2 then 1 else 0)) in
  let era := Z.quot (if 0 <=? year then year else i32 (year - 399)) 400 in
  let yoe := i32 (year - i32 (era * 400)) in
  let mp := i32 (i32 month + (if 2 <? month then -3 else 9)) in
  let doy := i32 (Z.quot (i32 (153 * mp + 2)) 5 + i32 day - 1) in
  let doe := i32 (yoe * 365 + Z.quot yoe 4 - Z.quot yoe 100 + doy) in
  i32 (i32 (era * 146097) + doe - 719468).

(** ** [NetworkTime] and [PartialNetworkTime] *)

Record NetworkTime := {
  year : Z; month : Z; day : Z; hour : Z; minute : Z; second : Z; nanosecond : Z
}.

Record PartialNetworkTime := {
  p_year : option Z; p_month : option Z; p_day : option Z;
  p_hour : option Z; p_minute : option Z; p_second : option Z; p_nanosecond : option Z
}.

Definition partial_default : PartialNetworkTime :=
  {| p_year := None; p_month := None; p_day := None; p_hour := None; p_minute := None;
     p_second := None; p_nanosecond := None |}.

Definition from_unix_ns (unix_ns : Z) : option NetworkTime :=
  if unix_ns <? 0 then None
  else
    let secs := unix_ns / 1000000000 in
    let nanos := unix_ns mod 1000000000 in
    let days := i64 (secs / 86400) in
    let sod := secs mod 86400 in
    let '(y, m, d) := civil_from_days days in
    Some {| year := y; month := wrap 8 m; day := wrap 8 d; hour := wrap 8 (sod / 3600);
            minute := wrap 8 (sod mod 3600 / 60); second := wrap 8 (sod mod 60);
            nanosecond := nanos |}.

Definition in_field (lo hi v : Z) : bool := (lo <=? v) && (v <=? hi).

Definition as_unix_ns (t : NetworkTime) : option Z :=
  if negb (in_field 1 12 (month t)) || negb (in_field 1 31 (day t))
     || (23 <? hour t) || (59 <? minute t) || (59 <? second t) || (1000000000 <=? nanosecond t)
  then None
  else
    let days := days_from_civil (year t) (month t) (day t) in
    let secs := days * 86400 + hour t * 3600 + minute t * 60 + second t in
    Some (secs * 1000000000 + nanosecond t).

Definition as_unix_ms (t : NetworkTime) : option Z :=
  unix_ns ← as_unix_ns t;
  if unix_ns <? 0 then None
  else
    let ms := Z.quot unix_ns 1000000 in
    if u64_max <? ms then None else Some ms.

Definition partial_of (t : NetworkTime) : PartialNetworkTime :=
  {| p_year := Some (year t); p_month := Some (month t); p_day := Some (day t);
     p_hour := Some (hour t); p_minute := Some (minute t); p_second := Some (second t);
     p_nanosecond := Some (nanosecond t) |}.

Definition partial_from_unix_ms (unix_ms : Z) : PartialNetworkTime :=
  match from_unix_ns (unix_ms * 1000000) with
  | Some full => partial_of full
  | None => partial_default
  end.

Definition some {A} (o : option A) : bool := match o with Some _ => true | None => false end.

Definition is_complete_date (t : PartialNetworkTime) : bool :=
  some (p_year t) && some (p_month t) && some (p_day t).

Definition is_complete_time (t : PartialNetworkTime) : bool :=
  some (p_hour t) && some (p_minute t) && some (p_second t).

Definition to_network_time (t : PartialNetworkTime) : option NetworkTime :=
  y ← p_year t; mo ← p_month t; d ← p_day t; h ← p_hour t; mi ← p_minute t; s ← p_second t;
  Some {| year := y; month := mo; day := d; hour := h; minute := mi; second := s;
          nanosecond := default 0 (p_nanosecond t) |}.

(** [base.as_unix_ns()? + elapsed], back to a calendar time. *)
Definition advance_network_time (base : NetworkTime) (elapsed_ns : Z) : option NetworkTime :=
  unix_ns ← as_unix_ns base; from_unix_ns (unix_ns + elapsed_ns).

(** ** Human-readable timestamps ([append_human_time]) *)

(** [{}] of an unsigned integer: the fuel bounds the digits of a [u64]. *)
Fixpoint decimal_digits (fuel : nat) (n : Z) (acc : Str) : Str :=
  match fuel with
  | O => acc
  | S fuel =>
      let acc := b8 (48 + n mod 10) :: acc in
      if n / 10 =? 0 then acc else decimal_digits fuel (n / 10) acc
  end.

Definition decimal (n : Z) : Str := decimal_digits 20 n [].

(** [{:0w}]: zero padded to [w] characters, sign included. *)
Definition padded (w : nat) (n : Z) : Str :=
  if 0 <=? n then replicate (w - length (decimal n)) (b8 48) ++ decimal n
  else b8 45 :: replicate (w - 1 - length (decimal (- n))) (b8 48) ++ decimal (- n).

Definition EPOCH_MS_THRESHOLD : Z := 1000000000000.

Definition human_time (total_ms : Z) : Str :=
  if EPOCH_MS_THRESHOLD <=? total_ms then
    let secs := total_ms / 1000 in
    let sub_ms := total_ms mod 1000 in
    let days := i64 (secs / 86400) in
    let sod := wrap 32 (secs mod 86400) in
    let '(y, m, d) := packet_civil_from_days days in
    let hour := sod / 3600 in
    let min := sod mod 3600 / 60 in
    let sec := sod mod 60 in
    padded 4 y ++ lit "-" ++ padded 2 m ++ lit "-" ++ padded 2 d ++ lit " "
    ++ padded 2 hour ++ lit ":" ++ padded 2 min ++ lit ":" ++ padded 2 sec ++ lit "."
    ++ padded 3 (wrap 32 sub_ms) ++ lit "Z"
  else
    let hours := total_ms / 3600000 in
    let minutes := total_ms mod 3600000 / 60000 in
    let seconds := total_ms mod 60000 / 1000 in
    let milliseconds := total_ms mod 1000 in
    if 0 <? hours then
      decimal hours ++ lit "h " ++ padded 2 minutes ++ lit "m " ++ padded 2 seconds
      ++ lit "s " ++ padded 3 milliseconds ++ lit "ms"
    else if 0 <? minutes then
      decimal minutes ++ lit "m " ++ padded 2 seconds ++ lit "s " ++ padded 3 milliseconds ++ lit "ms"
    else decimal seconds ++ lit "s " ++ padded 3 milliseconds ++ lit "ms".

Example human_time_epoch : human_time 1735689600123 = lit "2025-01-01 00:00:00.123Z".
Proof. vm_compute. reflexivity. Qed.

Example human_time_uptime : human_time 754567 = lit "12m 34s 567ms".
Proof. vm_compute. reflexivity. Qed.

(** ** The calendar itself *)

Definition is_leap (y : Z) : bool :=
  (y mod 4 =? 0) && (negb (y mod 100 =? 0) || (y mod 400 =? 0)).

Definition days_in_month (y m : Z) : Z :=
  if m =? 2 then if is_leap y then 29 else 28
  else if (m =? 4) || (m =? 6) || (m =? 9) || (m =? 11) then 30 else 31.

Definition valid_date (c : Z * Z * Z) : bool :=
  let '(y, m, d) := c in in_field 1 12 m && in_field 1 (days_in_month y m) d.

Definition next_date (c : Z * Z * Z) : Z * Z * Z :=
  let '(y, m, d) := c in
  if d <? days_in_month y m then (y, m, d + 1)
  else if m <? 12 then (y, m + 1, 1) else (y + 1, 1, 1).

(** ** Day numbers

    [day_number] counts days from 1970-01-01 with floor division. *)

Definition month_days (m : Z) : Z := (153 * (m + (if 2 <? m then -3 else 9)) + 2) / 5.

Definition day_number (c : Z * Z * Z) : Z :=
  let '(y, m, d) := c in
  let y := y - (if m <=? 2 then 1 else 0) in
  y * 365 + y / 4 - y / 100 + y / 400 + month_days m + d - 1 - 719468.

Definition leap (y : Z) : Z := if is_leap y then 1 else 0.

(** Days before the first of month [m], in a year of leapness [l]. *)
Definition month_start (l m : Z) : Z :=
  if m <=? 2 then month_days m - 306 else month_days m + 59 + l.

Definition year_start (y : Z) : Z := day_number (y, 1, 1).

Ltac divlia := zify; Z.to_euclidean_division_equations; lia.

(** The twelve months. *)
Ltac months m :=
  assert (m = 1 \/ m = 2 \/ m = 3 \/ m = 4 \/ m = 5 \/ m = 6 \/ m = 7 \/ m = 8 \/ m = 9
          \/ m = 10 \/ m = 11 \/ m = 12) as Hmonths by lia;
  destruct Hmonths as [->|[->|[->|[->|[->|[->|[->|[->|[->|[->|[->| ->]]]]]]]]]]].

Lemma in_field_spec lo hi v : in_field lo hi v = true <-> lo <= v <= hi.
Proof. unfold in_field. rewrite andb_true_iff, !Z.leb_le. done. Qed.

Lemma leap_cases y :
  (leap y = 1 /\ y / 4 - (y - 1) / 4 - (y / 100 - (y - 1) / 100) + (y / 400 - (y - 1) / 400) = 1)
  \/ (leap y = 0 /\ y / 4 - (y - 1) / 4 - (y / 100 - (y - 1) / 100) + (y / 400 - (y - 1) / 400) = 0).
Proof.
  unfold leap, is_leap.
  destruct (Z.eqb_spec (y mod 4) 0), (Z.eqb_spec (y mod 100) 0), (Z.eqb_spec (y mod 400) 0);
    cbn; divlia.
Qed.

Lemma day_number_split y m d :
  1 <= m <= 12 -> day_number (y, m, d) = year_start y + month_start (leap y) m + d - 1.
Proof.
  intros Hm. unfold year_start, day_number, month_start. cbn [Z.leb Z.ltb].
  destruct (leap_cases y) as [[-> Hl]|[-> Hl]]; months m; cbv [month_days];
    cbn -[Z.div Z.mul Z.add Z.sub]; change (153 * (1 + 9) + 2) with 1532; divlia.
Qed.

Lemma year_start_S y : year_start (y + 1) = year_start y + 365 + leap y.
Proof.
  unfold year_start, day_number. cbn -[Z.div Z.mul Z.add Z.sub].
  replace (y + 1 - 1) with y by lia. destruct (leap_cases y) as [[-> Hl]|[-> Hl]]; lia.
Qed.

Lemma leap_range y : 0 <= leap y <= 1.
Proof. unfold leap. case_match; lia. Qed.

Lemma year_start_le y y' : y <= y' -> year_start y <= year_start y'.
Proof.
  intros Hle. replace y' with (y + (y' - y)) by lia. generalize (Z.le_0_sub y y').
  intros [_ Hp]. specialize (Hp Hle). revert Hp. generalize (y' - y). clear y' Hle.
  apply natlike_ind; [by rewrite Z.add_0_r|]. intros k Hk IH.
  replace (y + Z.succ k) with (y + k + 1) by lia. rewrite year_start_S. pose proof (leap_range (y + k)). lia.
Qed.

Lemma days_in_month_start y m :
  1 <= m <= 12 ->
  days_in_month y m = (if m =? 12 then 365 + leap y else month_start (leap y) (m + 1)) - month_start (leap y) m.
Proof. intros Hm. unfold days_in_month, leap. destruct (is_leap y); months m; reflexivity. Qed.

Lemma month_start_mono l m m' : 0 <= l <= 1 -> 1 <= m < m' -> m' <= 12 -> month_start l (m + 1) <= month_start l m'.
Proof.
  intros Hl Hm Hm'. assert (l = 0 \/ l = 1) as [-> | ->] by lia;
    months m; months m'; try lia; vm_compute; discriminate.
Qed.

Lemma valid_date_spec y m d :
  valid_date (y, m, d) = true <-> 1 <= m <= 12 /\ 1 <= d <= days_in_month y m.
Proof. unfold valid_date. by rewrite andb_true_iff, !in_field_spec. Qed.

Lemma month_end l m : 0 <= l <= 1 -> 1 <= m <= 12 ->
  0 <= month_start l m /\ (if m =? 12 then 365 + l else month_start l (m + 1)) <= 365 + l.
Proof.
  intros Hl Hm. assert (l = 0 \/ l = 1) as [-> | ->] by lia; months m; vm_compute; split; discriminate.
Qed.

Lemma valid_in_year y m d :
  valid_date (y, m, d) = true -> year_start y <= day_number (y, m, d) < year_start (y + 1).
Proof.
  rewrite valid_date_spec. intros [Hm Hd]. rewrite day_number_split, year_start_S by done.
  rewrite days_in_month_start in Hd by done. pose proof (month_end (leap y) m (leap_range y) Hm). lia.
Qed.

(** A date is determined by its day number. *)
Lemma day_number_inj c c' :
  valid_date c = true -> valid_date c' = true -> day_number c = day_number c' -> c = c'.
Proof.
  destruct c as [[y m] d], c' as [[y' m'] d']. intros Hv Hv' He.
  pose proof (valid_in_year _ _ _ Hv) as Hy. pose proof (valid_in_year _ _ _ Hv') as Hy'.
  assert (y = y') as <-.
  { destruct (Z.lt_trichotomy y y') as [Hlt|[?|Hlt]]; [|done|].
    - pose proof (year_start_le (y + 1) y' ltac:(lia)). lia.
    - pose proof (year_start_le (y' + 1) y ltac:(lia)). lia. }
  apply valid_date_spec in Hv as [Hm Hd], Hv' as [Hm' Hd'].
  rewrite !day_number_split in He by done. rewrite days_in_month_start in Hd, Hd' by done.
  pose proof (leap_range y) as Hl.
  assert (m = m') as <-; [|by replace d' with d by lia].
  destruct (Z.lt_trichotomy m m') as [Hlt|[?|Hlt]]; [|done|].
  - pose proof (month_start_mono (leap y) m m' Hl ltac:(lia) ltac:(lia)).
    destruct (Z.eqb_spec m 12); lia.
  - pose proof (month_start_mono (leap y) m' m Hl ltac:(lia) ltac:(lia)).
    destruct (Z.eqb_spec m' 12); lia.
Qed.

Lemma next_date_valid c : valid_date c = true -> valid_date (next_date c) = true.
Proof.
  destruct c as [[y m] d]. rewrite valid_date_spec. intros [Hm Hd]. unfold next_date.
  assert (forall y m, 1 <= days_in_month y m) as Hpos
    by (intros; unfold days_in_month; repeat case_match; lia).
  destruct (Z.ltb_spec d (days_in_month y m)); [|destruct (Z.ltb_spec m 12)];
    apply valid_date_spec; [lia|pose proof (Hpos y (m + 1)); lia|pose proof (Hpos (y + 1) 1); lia].
Qed.

Lemma next_date_number c : valid_date c = true -> day_number (next_date c) = day_number c + 1.
Proof.
  destruct c as [[y m] d]. rewrite valid_date_spec. intros [Hm Hd]. unfold next_date.
  pose proof (days_in_month_start y m Hm) as Hdm.
  destruct (Z.ltb_spec d (days_in_month y m)); [|destruct (Z.ltb_spec m 12)];
    rewrite !day_number_split by lia; [lia| |].
  - destruct (Z.eqb_spec m 12); lia.
  - assert (m = 12) as -> by lia. rewrite Z.eqb_refl in Hdm. rewrite year_start_S.
    replace (month_start (leap (y + 1)) 1) with 0 by reflexivity. lia.
Qed.

(** ** The conversions compute the calendar *)

Lemma i32_small z : - 2 ^ 31 <= z < 2 ^ 31 -> i32 z = z.
Proof. intros. unfold i32, swrap. rewrite Z.mod_small; cbn in *; lia. Qed.

Lemma i64_small z : - 2 ^ 63 <= z < 2 ^ 63 -> i64 z = z.
Proof. intros. unfold i64, swrap. rewrite Z.mod_small; cbn in *; lia. Qed.

(** The era arithmetic without machine integers. *)
Definition yoe_of (doe : Z) : Z := (doe - doe / 1460 + doe / 36524 - doe / 146096) / 365.
Definition doy_of (doe : Z) : Z :=
  doe - (365 * yoe_of doe + yoe_of doe / 4 - yoe_of doe / 100).

Definition era_start (y : Z) : Z := 365 * y + y / 4 - y / 100.

Lemma yoe_bounds doe : 0 <= doe < 146097 -> 0 <= yoe_of doe <= 399.
Proof. unfold yoe_of. intros. divlia. Qed.

Lemma yoe_bracket doe :
  0 <= doe < 146096 -> era_start (yoe_of doe) <= doe < era_start (yoe_of doe + 1).
Proof. unfold yoe_of, era_start. intros. divlia. Qed.

Lemma yoe_last : yoe_of 146096 = 399 /\ doy_of 146096 = 365.
Proof. split; reflexivity. Qed.

(** The day of the (March-based) year, and its length. *)
Lemma doy_bounds doe :
  0 <= doe < 146097 ->
  0 <= doy_of doe <= 364 + leap (yoe_of doe + 1).
Proof.
  intros Hd. destruct (Z.eq_dec doe 146096) as [->|Hne].
  { vm_compute. split; discriminate. }
  pose proof (yoe_bracket doe ltac:(lia)) as Hb. pose proof (yoe_bounds doe Hd) as Hy.
  unfold era_start, doy_of in *. revert Hb Hy. generalize (yoe_of doe). intros y Hb Hy.
  destruct (leap_cases (y + 1)) as [[-> Hl]|[-> Hl]]; rewrite Z.add_simpl_r in Hl; divlia.
Qed.

Definition date_of (era doe : Z) : Z * Z * Z :=
  let mp := (5 * doy_of doe + 2) / 153 in
  let m := mp + (if mp <? 10 then 3 else -9) in
  (yoe_of doe + era * 400 + (if m <=? 2 then 1 else 0), m, doy_of doe - (153 * mp + 2) / 5 + 1).

Lemma leap_period y era : leap (y + era * 400) = leap y.
Proof.
  unfold leap, is_leap.
  replace (y + era * 400) with (y + (era * 100) * 4) at 1 by lia. rewrite Z.mod_add by lia.
  replace (y + era * 400) with (y + (era * 4) * 100) at 1 by lia. rewrite Z.mod_add by lia.
  by rewrite Z.mod_add by lia.
Qed.

Lemma date_of_spec era doe :
  0 <= doe < 146097 ->
  valid_date (date_of era doe) = true /\ day_number (date_of era doe) = era * 146097 + doe - 719468.
Proof.
  intros Hd. pose proof (yoe_bounds doe Hd) as Hy. pose proof (doy_bounds doe Hd) as Hdoy.
  unfold date_of. set (mp := (5 * doy_of doe + 2) / 153).
  assert (0 <= mp <= 11) as Hmp by (pose proof (leap_range (yoe_of doe + 1)); unfold mp; divlia).
  assert (doy_of doe <= 364 \/ mp = 11) as Hcase
    by (destruct (decide (doy_of doe <= 364)); [by left|right; unfold mp;
        pose proof (leap_range (yoe_of doe + 1)); divlia]).
  assert ((153 * mp + 2) / 5 <= doy_of doe < (153 * (mp + 1) + 2) / 5) as Hm1 by (unfold mp; divlia).
  clearbody mp.
  assert (month_days (mp + (if mp <? 10 then 3 else -9)) = (153 * mp + 2) / 5) as Hmd.
  { unfold month_days. repeat f_equal. zcase. }
  split.
  - apply valid_date_spec. split; [zcase|].
    assert (days_in_month (yoe_of doe + era * 400 + (if mp + (if mp <? 10 then 3 else -9) <=? 2 then 1 else 0))
              (mp + (if mp <? 10 then 3 else -9))
            = if mp =? 11 then 28 + leap (yoe_of doe + 1)
              else (153 * (mp + 1) + 2) / 5 - (153 * mp + 2) / 5) as ->.
    { assert (forall y, (if is_leap y then 29 else 28) = 28 + leap y) as Hfeb
        by (intros y; unfold leap; by destruct (is_leap y)).
      assert (mp = 0 \/ mp = 1 \/ mp = 2 \/ mp = 3 \/ mp = 4 \/ mp = 5 \/ mp = 6 \/ mp = 7 \/ mp = 8
              \/ mp = 9 \/ mp = 10 \/ mp = 11) as Hmc by lia.
      destruct Hmc as [->|[->|[->|[->|[->|[->|[->|[->|[->|[->|[->| ->]]]]]]]]]]]; try reflexivity.
      unfold days_in_month. change (11 + (if 11 <? 10 then 3 else -9)) with 2.
      rewrite !Z.eqb_refl. change (2 <=? 2) with true. cbv iota. rewrite Hfeb.
      replace (yoe_of doe + era * 400 + 1) with (yoe_of doe + 1 + era * 400) by lia.
      by rewrite leap_period. }
    destruct (Z.eqb_spec mp 11) as [->|]; [|lia].
    change ((153 * 11 + 2) / 5) with 337 in *. lia.
  - cbn [day_number]. rewrite Hmd. unfold doy_of. revert Hy.
    generalize (yoe_of doe). intros y Hy.
    replace (y + era * 400 + (if mp + (if mp <? 10 then 3 else -9) <=? 2 then 1 else 0)
             - (if mp + (if mp <? 10 then 3 else -9) <=? 2 then 1 else 0))
      with (y + era * 400) by lia.
    replace ((y + era * 400) / 4) with (y / 4 + era * 100) by divlia.
    replace ((y + era * 400) / 100) with (y / 100 + era * 4) by divlia.
    replace ((y + era * 400) / 400) with era by divlia. lia.
Qed.

Lemma quot_era z :
  - 2 ^ 62 <= z < 2 ^ 62 ->
  Z.quot (if 0 <=? z then z else i64 (z - 146096)) 146097 = z / 146097.
Proof. intros Hz. destruct (Z.leb_spec 0 z); [|rewrite i64_small by lia]; divlia. Qed.

Lemma quot_nonneg a b : 0 <= a -> 0 < b -> Z.quot a b = a / b.
Proof. intros. apply Z.quot_div_nonneg; lia. Qed.

Lemma yoe_quot doe :
  0 <= doe < 146097 ->
  Z.quot (doe - Z.quot doe 1460 + Z.quot doe 36524 - Z.quot doe 146096) 365 = yoe_of doe.
Proof.
  intros Hd. rewrite !(quot_nonneg doe) by lia. apply quot_nonneg; [divlia|lia].
Qed.

Lemma doy_mp doy : 0 <= doy <= 365 -> 0 <= (5 * doy + 2) / 153 <= 11 /\
  0 <= (153 * ((5 * doy + 2) / 153) + 2) / 5 <= doy.
Proof. intros. divlia. Qed.

Lemma civil_is_date z :
  - 2 ^ 39 <= z < 2 ^ 39 ->
  let era := (z + 719468) / 146097 in
  civil_from_days z = date_of era ((z + 719468) mod 146097)
  /\ packet_civil_from_days z = date_of era ((z + 719468) mod 146097).
Proof.
  intros Hz era. unfold civil_from_days, packet_civil_from_days. cbn zeta.
  rewrite (i64_small (z + 719468)) by lia. rewrite quot_era by lia. fold era.
  assert (- 2 ^ 22 <= era < 2 ^ 22) as Hera by (unfold era; divlia).
  rewrite (i64_small (era * 146097)) by lia.
  assert (z + 719468 - era * 146097 = (z + 719468) mod 146097) as ->
    by (unfold era; pose proof (Z.div_mod (z + 719468) 146097); lia).
  pose proof (Z.mod_pos_bound (z + 719468) 146097 ltac:(lia)) as Hd. clearbody era.
  revert Hd. generalize ((z + 719468) mod 146097). intros doe Hd.
  rewrite (i64_small doe) by lia. rewrite yoe_quot by done.
  pose proof (yoe_bounds doe Hd) as Hy. pose proof (doy_bounds doe Hd) as Hdoy.
  pose proof (leap_range (yoe_of doe + 1)) as Hl.
  rewrite !(quot_nonneg (yoe_of doe)) by lia. fold (doy_of doe).
  rewrite (i32_small (yoe_of doe)), (i32_small era), (i32_small (era * 400)) by lia.
  rewrite (i32_small (yoe_of doe + era * 400)), (i32_small (doy_of doe)) by lia.
  rewrite (i32_small (5 * doy_of doe + 2)), !(quot_nonneg (5 * doy_of doe + 2)) by lia.
  destruct (doy_mp (doy_of doe) ltac:(lia)) as [Hmp Hs].
  rewrite (i32_small (153 * _ + 2)), !(quot_nonneg (153 * _ + 2)) by lia.
  rewrite (i32_small (doy_of doe - _ + 1)) by lia.
  rewrite (i32_small (_ + (if _ <? 10 then 3 else -9))) by zcase.
  unfold date_of. destruct (date_of_spec era doe Hd) as [Hv _].
  unfold date_of in Hv. apply valid_date_spec in Hv as [Hm Hd1].
  rewrite i32_small by (case_match; lia).
  assert (forall y m, days_in_month y m <= 31) as H31 by (intros; unfold days_in_month; repeat case_match; lia).
  match goal with H : 1 <= _ <= days_in_month ?y ?m |- _ => pose proof (H31 y m) end.
  rewrite !wrap_small by lia. done.
Qed.

Lemma civil_spec z :
  - 2 ^ 39 <= z < 2 ^ 39 ->
  valid_date (civil_from_days z) = true /\ day_number (civil_from_days z) = z
  /\ packet_civil_from_days z = civil_from_days z.
Proof.
  intros Hz. destruct (civil_is_date z Hz) as [Hc Hp]. rewrite Hc, Hp.
  pose proof (Z.mod_pos_bound (z + 719468) 146097 ltac:(lia)) as Hd.
  destruct (date_of_spec ((z + 719468) / 146097) _ Hd) as [Hv Hn]. split; [done|]. split; [|done].
  rewrite Hn. pose proof (Z.div_mod (z + 719468) 146097). lia.
Qed.

Lemma days_from_civil_spec y m d :
  - 5000000 <= y <= 5000000 -> 1 <= m <= 12 -> 1 <= d <= 31 ->
  days_from_civil y m d = day_number (y, m, d).
Proof.
  intros Hy Hm Hd. unfold days_from_civil, day_number. cbn zeta.
  set (k := if m <=? 2 then 1 else 0). assert (0 <= k <= 1) as Hk by (unfold k; case_match; lia).
  rewrite (i32_small (y - k)) by lia. set (y' := y - k). assert (- 5000001 <= y' <= 5000000) as Hy' by lia.
  clearbody y' k.
  assert (Z.quot (if 0 <=? y' then y' else i32 (y' - 399)) 400 = y' / 400) as ->.
  { destruct (Z.leb_spec 0 y'); [|rewrite i32_small by lia]; divlia. }
  assert (- 12501 <= y' / 400 <= 12500) as He by divlia.
  rewrite (i32_small (y' / 400 * 400)) by lia.
  assert (y' - y' / 400 * 400 = y' mod 400) as -> by (pose proof (Z.div_mod y' 400); lia).
  pose proof (Z.mod_pos_bound y' 400 ltac:(lia)). rewrite (i32_small (y' mod 400)) by lia.
  rewrite (i32_small m) by lia.
  assert (0 <= m + (if 2 <? m then -3 else 9) <= 11) by (zcase).
  rewrite (i32_small (m + _)) by lia. rewrite (i32_small (153 * _ + 2)) by lia.
  rewrite (quot_nonneg (153 * _ + 2)) by lia. fold (month_days m).
  assert (0 <= month_days m <= 337) by (unfold month_days; divlia).
  rewrite (i32_small d) by lia. rewrite (i32_small (month_days m + d - 1)) by lia.
  rewrite !quot_nonneg by lia.
  assert (0 <= y' mod 400 / 4 - y' mod 400 / 100 <= 100) by divlia.
  rewrite (i32_small (y' mod 400 * 365 + _ - _ + _)) by lia.
  rewrite (i32_small (y' / 400 * 146097)) by lia.
  rewrite i32_small by lia.
  assert (y' / 4 = y' mod 400 / 4 + y' / 400 * 100) as -> by divlia.
  assert (y' / 100 = y' mod 400 / 100 + y' / 400 * 4) as -> by divlia.
  pose proof (Z.div_mod y' 400). lia.
Qed.

(** C39. The day-count conversion is the Gregorian calendar: day 0 is
    1970-01-01, every day maps to a valid date, consecutive days map to
    consecutive dates (leap years included), the printer's copy of the function
    agrees, and [days_from_civil] inverts it while the year fits. *)
Theorem civil_from_days_correct z :
  - 2 ^ 39 <= z < 2 ^ 39 - 1 ->
  civil_from_days 0 = (1970, 1, 1)
  /\ valid_date (civil_from_days z) = true
  /\ civil_from_days (z + 1) = next_date (civil_from_days z)
  /\ packet_civil_from_days z = civil_from_days z
  /\ (let '(y, m, d) := civil_from_days z in
      - 5000000 <= y <= 5000000 -> days_from_civil y m d = z).
Proof.
  intros Hz. destruct (civil_spec z ltac:(lia)) as (Hv & Hn & Hp).
  destruct (civil_spec (z + 1) ltac:(lia)) as (Hv' & Hn' & _).
  split; [reflexivity|]. split; [done|]. split.
  - apply day_number_inj; [done|by apply next_date_valid|].
    rewrite Hn', next_date_number by done. lia.
  - split; [done|]. destruct (civil_from_days z) as [[y m] d]. intros Hy.
    apply valid_date_spec in Hv as [Hm Hd].
    assert (days_in_month y m <= 31) by (unfold days_in_month; repeat case_match; lia).
    rewrite days_from_civil_spec by lia. done.
Qed.

Lemma civil_from_days_correct_witness :
  civil_from_days 19782 = (2024, 2, 29) /\ civil_from_days 19783 = next_date (2024, 2, 29).
Proof.
  split; [reflexivity|].
  exact (proj1 (proj2 (proj2 (civil_from_days_correct 19782 ltac:(lia))))).
Defined.

Definition NS_PER_DAY : Z := 86400 * 1000000000.

Lemma year_start_floor y : 365 * (y - 1) - 719162 + ((y - 1) / 4 - (y - 1) / 100 + (y - 1) / 400) = year_start y.
Proof. unfold year_start, day_number, month_days. cbn -[Z.div Z.mul Z.add Z.sub]. change (153 * (1 + 9) + 2) with 1532. divlia. Qed.

Lemma civil_year_bound z y m d :
  0 <= z < 2 ^ 30 -> civil_from_days z = (y, m, d) -> 1970 <= y <= 3000000.
Proof.
  intros Hz Hc. destruct (civil_spec z ltac:(lia)) as (Hv & Hn & _). rewrite Hc in Hv, Hn.
  pose proof (valid_in_year _ _ _ Hv) as Hy. rewrite Hn in Hy.
  rewrite <- !year_start_floor in Hy. divlia.
Qed.

(** What is known of the time [from_unix_ns] returns. *)
Lemma from_unix_ns_spec n :
  0 <= n < 2 ^ 30 * NS_PER_DAY ->
  exists t, from_unix_ns n = Some t /\ as_unix_ns t = Some n
    /\ valid_date (year t, month t, day t) = true /\ 0 <= hour t <= 23 /\ 0 <= minute t <= 59
    /\ 0 <= second t <= 59 /\ 0 <= nanosecond t < 1000000000.
Proof.
  unfold NS_PER_DAY. intros Hn. unfold from_unix_ns. destruct (Z.ltb_spec n 0); [lia|].
  set (secs := n / 1000000000). assert (0 <= secs < 2 ^ 30 * 86400) as Hs by (unfold secs; divlia).
  assert (0 <= secs / 86400 < 2 ^ 30) as Hd by divlia.
  rewrite (i64_small (secs / 86400)) by lia.
  destruct (civil_from_days (secs / 86400)) as [[y m] d] eqn:Hc.
  pose proof (civil_year_bound _ _ _ _ Hd Hc) as Hy.
  destruct (civil_spec (secs / 86400) ltac:(lia)) as (Hv & Hdn & _). rewrite Hc in Hv, Hdn.
  pose proof Hv as Hv'. apply valid_date_spec in Hv as [Hm Hdd].
  assert (days_in_month y m <= 31) by (unfold days_in_month; repeat case_match; lia).
  pose proof (Z.mod_pos_bound secs 86400 ltac:(lia)) as Hsod.
  pose proof (Z.mod_pos_bound n 1000000000 ltac:(lia)) as Hns.
  set (sod := secs mod 86400) in *.
  assert (0 <= sod / 3600 <= 23 /\ 0 <= sod mod 3600 / 60 <= 59 /\ 0 <= sod mod 60 <= 59
    /\ sod / 3600 * 3600 + sod mod 3600 / 60 * 60 + sod mod 60 = sod) as (Hh & Hmi & Hse & Hsum)
    by divlia.
  assert (86400 * (secs / 86400) + sod = secs) as Hsecs by (unfold sod; pose proof (Z.div_mod secs 86400); lia).
  assert (1000000000 * secs + n mod 1000000000 = n) as Hnn
    by (unfold secs; pose proof (Z.div_mod n 1000000000); lia).
  rewrite !wrap_small by lia. eexists. split; [done|]. unfold as_unix_ns.
  cbn [year month day hour minute second nanosecond].
  rewrite (proj2 (in_field_spec 1 12 m)), (proj2 (in_field_spec 1 31 d)) by lia. cbn [negb orb].
  clearbody secs sod. zcase. cbn [orb].
  rewrite days_from_civil_spec by lia. split; [|done]. rewrite Hdn. f_equal. lia.
Qed.

(** Unix time and calendar time are inverse: for every instant from 1970 over
    2^30 days, the calendar fields are in range and give the instant back, to
    the nanosecond and, truncated, to the millisecond; advancing a calendar
    time by an elapsed duration adds it to the instant. *)
Theorem network_time_roundtrip n e :
  0 <= n < 2 ^ 30 * NS_PER_DAY ->
  exists t, from_unix_ns n = Some t
    /\ valid_date (year t, month t, day t) = true
    /\ 0 <= hour t <= 23 /\ 0 <= minute t <= 59 /\ 0 <= second t <= 59
    /\ 0 <= nanosecond t < 1000000000
    /\ as_unix_ns t = Some n /\ as_unix_ms t = Some (n / 1000000)
    /\ advance_network_time t e = from_unix_ns (n + e)
    /\ to_network_time (partial_of t) = Some t.
Proof.
  intros Hn. destruct (from_unix_ns_spec n Hn) as (t & Ht & Hu & Hv & Hh & Hm & Hs & Hns).
  exists t. split; [done|]. do 5 (split; [done|]). split; [done|].
  unfold as_unix_ms, advance_network_time. rewrite Hu. cbn [mbind option_bind].
  unfold NS_PER_DAY in Hn.
  split; [|split; [done|by destruct t]]. destruct (Z.ltb_spec n 0); [lia|].
  rewrite quot_nonneg by lia.
  destruct (Z.ltb_spec u64_max (n / 1000000)) as [Hlt|]; [|done]. exfalso.
  assert (n / 1000000 < 2 ^ 64) by (apply Z.div_lt_upper_bound; lia). zlia.
Qed.

Lemma network_time_roundtrip_witness :
  exists t, from_unix_ns 1709208930123456789 = Some t /\ as_unix_ns t = Some 1709208930123456789
    /\ (year t, month t, day t, hour t) = (2024, 2, 29, 12).
Proof.
  destruct (network_time_roundtrip 1709208930123456789 0) as (t & Ht & _ & _ & _ & _ & _ & Hu & _);
    [vm_compute; split; [discriminate|reflexivity]|].
  exists t. split; [exact Ht|]. split; [exact Hu|]. vm_compute in Ht. injection Ht as <-. reflexivity.
Defined.

(** [as_unix_ns] checks each field alone: 30 February is read as 1 or 2 March. *)
Example february_30_accepted :
  as_unix_ns {| year := 2023; month := 2; day := 30; hour := 0; minute := 0; second := 0; nanosecond := 0 |}
  = as_unix_ns {| year := 2023; month := 3; day := 2; hour := 0; minute := 0; second := 0; nanosecond := 0 |}.
Proof. vm_compute. reflexivity. Qed.

(** Past year 5.88 million the 32-bit day count wraps, although a [u64] of
    milliseconds reaches year 584 million. *)
Example days_from_civil_wraps :
  days_from_civil 5900000 1 1 < 0.
Proof. vm_compute. reflexivity. Qed.
