(* ===== verification/TimeSync.v ===== *)
(** * Time synchronisation ([src/timesync.rs])

    The slewed clock, the multi-source network clock, the tracker that elects
    the time leader, the four-timestamp estimators, and the time-sync packets.
    The router's use of them (sending, pending requests) is in the router. *)

From S2P Require Import Prelude Ordered Telemetry Config Schema SmallPayload Wire Packet Calendar.

(** ** [SlewedNetworkClock] *)

Record SlewedNetworkClock := {
  anchor_mono_ns : Z;
  anchor_unix_ns : Z;
  pending_adjust_ns : Z;
  max_slew_ppm : Z;
  initialized : bool
}.

Definition slewed_new (ppm : Z) : SlewedNetworkClock :=
  {| anchor_mono_ns := 0; anchor_unix_ns := 0; pending_adjust_ns := 0;
     max_slew_ppm := Z.min ppm 999999; initialized := false |}.

(** [-x] on an [i128]. *)
Definition neg_i128 (x : Z) : Z := swrap 128 (- x).

Definition elapsed_since (c : SlewedNetworkClock) (now : Z) : Z := sat_sub now (anchor_mono_ns c).

Definition applied_adjust_ns (c : SlewedNetworkClock) (now : Z) : Z :=
  let max_adjust_ns := Z.quot (sat_mul_i128 (elapsed_since c now) (max_slew_ppm c)) 1000000 in
  if 0 <=? pending_adjust_ns c then Z.min (pending_adjust_ns c) max_adjust_ns
  else neg_i128 (Z.min (neg_i128 (pending_adjust_ns c)) max_adjust_ns).

Definition read_unix_ns (c : SlewedNetworkClock) (now : Z) : option Z :=
  if negb (initialized c) then None
  else Some (sat_add_i128 (sat_add_i128 (anchor_unix_ns c) (elapsed_since c now))
               (applied_adjust_ns c now)).

Definition read_unix_ms (c : SlewedNetworkClock) (now : Z) : option Z :=
  unix_ns ← read_unix_ns c now;
  if unix_ns <? 0 then None
  else
    let ms := Z.quot unix_ns 1000000 in
    if u64_max <? ms then None else Some ms.

Definition steer_unix_ms (c : SlewedNetworkClock) (now target_unix_ms : Z) : SlewedNetworkClock :=
  let target_unix_ns := target_unix_ms * 1000000 in
  if negb (initialized c) then
    {| anchor_mono_ns := now; anchor_unix_ns := target_unix_ns; pending_adjust_ns := 0;
       max_slew_ppm := max_slew_ppm c; initialized := true |}
  else
    let current_unix_ns := default target_unix_ns (read_unix_ns c now) in
    let remaining_adjust_ns := sat_sub_i128 (pending_adjust_ns c) (applied_adjust_ns c now) in
    {| anchor_mono_ns := now; anchor_unix_ns := current_unix_ns;
       pending_adjust_ns :=
         sat_add_i128 remaining_adjust_ns (sat_sub_i128 target_unix_ns current_unix_ns);
       max_slew_ppm := max_slew_ppm c; initialized := true |}.

(** ** [NetworkClock] *)

Record NetworkTimeSourceState := {
  nt_priority : Z;
  updated_mono_ms : Z;
  nt_anchor_mono_ns : Z;
  ttl_ms : option Z;
  time : PartialNetworkTime
}.

Definition NetworkClock := list (Str * NetworkTimeSourceState).

Record NetworkTimeReading := {
  reading_time : PartialNetworkTime;
  unix_time_ms : option Z
}.

Definition update_source (src : Str) (prio : Z) (t : PartialNetworkTime) (updated anchor : Z)
    (ttl : option Z) (c : NetworkClock) : NetworkClock :=
  bt_insert src {| nt_priority := prio; updated_mono_ms := updated; nt_anchor_mono_ns := anchor;
                   ttl_ms := ttl; time := t |} c.

Definition remove_source (src : Str) (c : NetworkClock) : NetworkClock := bt_remove src c.

Definition prune_expired (now_mono_ms : Z) (c : NetworkClock) : NetworkClock :=
  bt_retain (fun _ src =>
    match ttl_ms src with
    | Some ttl => sat_sub now_mono_ms (updated_mono_ms src) <=? ttl
    | None => true
    end) c.

(** The comparison of [best_source]: lower priority, then smaller name. *)
Definition source_better (a b : Str * NetworkTimeSourceState) : bool :=
  (nt_priority (snd a) <? nt_priority (snd b))
  || ((nt_priority (snd a) =? nt_priority (snd b)) && Ordered.ltb (fst a) (fst b)).

Fixpoint best_source_from (best : option (Str * NetworkTimeSourceState))
    (predicate : NetworkTimeSourceState -> bool) (sources : NetworkClock)
    : option (Str * NetworkTimeSourceState) :=
  match sources with
  | [] => best
  | e :: sources =>
      if negb (predicate (snd e)) then best_source_from best predicate sources
      else
        let best := match best with
                    | None => e
                    | Some b => if source_better e b then e else b
                    end in
        best_source_from (Some best) predicate sources
  end.

Definition best_source (sources : NetworkClock) (predicate : NetworkTimeSourceState -> bool)
    : option NetworkTimeSourceState :=
  snd <$> best_source_from None predicate sources.

Definition reading_of (t : NetworkTime) : NetworkTimeReading :=
  {| reading_time := partial_of t; unix_time_ms := as_unix_ms t |}.

Definition or_else {A} (a b : option A) : option A := match a with Some _ => a | None => b end.

(** A complete source, advanced to now. *)
Definition full_reading (c : NetworkClock) (now : Z) : option NetworkTimeReading :=
  src ← best_source c (fun s => some (to_network_time (time s)));
  base ← to_network_time (time src);
  advanced ← advance_network_time base (sat_sub now (nt_anchor_mono_ns src));
  Some (reading_of advanced).

Definition merged_time (c : NetworkClock) : PartialNetworkTime :=
  let field f := s ← best_source c (fun s => some (f (time s))); f (time s) in
  {| p_year := field p_year; p_month := field p_month; p_day := field p_day;
     p_hour := field p_hour; p_minute := field p_minute; p_second := field p_second;
     p_nanosecond := field p_nanosecond |}.

(** The source whose anchor dates the merged time of day. *)
Definition tod_source (c : NetworkClock) : option NetworkTimeSourceState :=
  or_else (best_source c (fun s => some (p_second (time s))))
    (or_else (best_source c (fun s => some (p_minute (time s))))
             (best_source c (fun s => some (p_hour (time s))))).

Definition with_ns (t : PartialNetworkTime) : PartialNetworkTime :=
  {| p_year := p_year t; p_month := p_month t; p_day := p_day t; p_hour := p_hour t;
     p_minute := p_minute t; p_second := p_second t;
     p_nanosecond := or_else (p_nanosecond t) (Some 0) |}.

Definition merged_reading (c : NetworkClock) (now : Z) : option NetworkTimeReading :=
  let merged := merged_time c in
  match tod_source c with
  | Some src =>
      if is_complete_date merged && is_complete_time merged then
        let merged := with_ns merged in
        base ← to_network_time merged;
        match advance_network_time base (sat_sub now (nt_anchor_mono_ns src)) with
        | Some advanced => Some (reading_of advanced)
        | None => Some {| reading_time := merged; unix_time_ms := None |}
        end
      else Some {| reading_time := merged; unix_time_ms := None |}
  | None => Some {| reading_time := merged; unix_time_ms := None |}
  end.

Definition current_time (c : NetworkClock) (now_mono_ns : Z) : option NetworkTimeReading :=
  match c with
  | [] => None
  | _ => match full_reading c now_mono_ns with
         | Some r => Some r
         | None => merged_reading c now_mono_ns
         end
  end.

(** ** [TimeSyncTracker] *)

Inductive TimeSyncRole := Consumer | Source | Auto.

Record TimeSyncConfig := {
  role : TimeSyncRole;
  ts_priority : Z;
  source_timeout_ms : Z;
  announce_interval_ms : Z;
  request_interval_ms : Z;
  consumer_promotion_enabled : bool;
  cfg_max_slew_ppm : Z
}.

Definition default_timesync : TimeSyncConfig :=
  {| role := Consumer; ts_priority := 100; source_timeout_ms := 5000; announce_interval_ms := 1000;
     request_interval_ms := 1000; consumer_promotion_enabled := true; cfg_max_slew_ppm := 50000 |}.

Record TimeSyncSource := {
  src_sender : Str;
  src_priority : Z;
  last_announce_ms : Z;
  last_time_ms : Z
}.

Inductive TimeSyncLeader := Local (priority : Z) | Remote (src : TimeSyncSource).

Inductive TimeSyncUpdate := NoChange | SourceChanged.

Record TimeSyncTracker := {
  cfg : TimeSyncConfig;
  local_id : Str;
  sources : list (Str * TimeSyncSource);
  current_source_id : option Str
}.

Definition with_sources (t : TimeSyncTracker) (m : list (Str * TimeSyncSource)) : TimeSyncTracker :=
  {| cfg := cfg t; local_id := local_id t; sources := m; current_source_id := current_source_id t |}.

Definition with_current (t : TimeSyncTracker) (c : option Str) : TimeSyncTracker :=
  {| cfg := cfg t; local_id := local_id t; sources := sources t; current_source_id := c |}.

Definition tracker_new `{Config} (c : TimeSyncConfig) : TimeSyncTracker :=
  {| cfg := c; local_id := DEVICE_IDENTIFIER; sources := []; current_source_id := None |}.

Definition source_is_active (src : TimeSyncSource) (now_ms timeout_ms : Z) : bool :=
  sat_sub now_ms (last_announce_ms src) <=? timeout_ms.

Definition current_source (t : TimeSyncTracker) : option TimeSyncSource :=
  s ← current_source_id t; bt_get s (sources t).

(** [a.priority.cmp(&b.priority).then_with(|| a.sender.cmp(&b.sender))] is less. *)
Definition better (a b : TimeSyncSource) : bool :=
  (src_priority a <? src_priority b)
  || ((src_priority a =? src_priority b) && Ordered.ltb (src_sender a) (src_sender b)).

(** [Iterator::min_by]: the first of the minima. *)
Fixpoint min_by (l : list TimeSyncSource) : option TimeSyncSource :=
  match l with
  | [] => None
  | a :: l => match min_by l with
              | None => Some a
              | Some b => Some (if better b a then b else a)
              end
  end.

Definition active_sources (t : TimeSyncTracker) (now_ms : Z) : list TimeSyncSource :=
  List.filter (fun s => source_is_active s now_ms (source_timeout_ms (cfg t))) (bt_values (sources t)).

Definition best_active_source (t : TimeSyncTracker) (now_ms : Z) : option TimeSyncSource :=
  min_by (active_sources t now_ms).

Definition update_eqb (a b : option Str) : bool := bool_decide (a = b).

Definition reselect_source (t : TimeSyncTracker) (now_ms : Z) : TimeSyncTracker * TimeSyncUpdate :=
  let next := src_sender <$> best_active_source t now_ms in
  (with_current t next,
   if update_eqb next (current_source_id t) then NoChange else SourceChanged).

Definition refresh (t : TimeSyncTracker) (now_ms : Z) : TimeSyncTracker * TimeSyncUpdate :=
  reselect_source
    (with_sources t (bt_retain (fun _ s => source_is_active s now_ms (source_timeout_ms (cfg t))) (sources t)))
    now_ms.

Definition local_candidate_priority (t : TimeSyncTracker) (now_ms : Z) (has_usable_time : bool)
    : option Z :=
  match role (cfg t) with
  | Consumer =>
      if has_usable_time && consumer_promotion_enabled (cfg t)
         && negb (some (best_active_source t now_ms))
      then Some (ts_priority (cfg t)) else None
  | Source => Some (ts_priority (cfg t))
  | Auto =>
      if has_usable_time && negb (some (best_active_source t now_ms))
      then Some (ts_priority (cfg t)) else None
  end.

Definition leader (t : TimeSyncTracker) (now_ms : Z) (has_usable_time : bool) : option TimeSyncLeader :=
  match local_candidate_priority t now_ms has_usable_time, best_active_source t now_ms with
  | Some p, Some r =>
      if (p <? src_priority r) || ((p =? src_priority r) && Ordered.ltb (local_id t) (src_sender r))
      then Some (Local p) else Some (Remote r)
  | Some p, None => Some (Local p)
  | None, Some r => Some (Remote r)
  | None, None => None
  end.

Definition local_announce_priority (t : TimeSyncTracker) (now_ms : Z) (has_usable_time : bool)
    : option Z :=
  match leader t now_ms has_usable_time with
  | Some (Local p) =>
      let tie_exists := existsb (fun s => src_priority s =? p) (active_sources t now_ms) in
      Some (if tie_exists then sat_sub p 1 else p)
  | _ => None
  end.

Definition should_announce (t : TimeSyncTracker) (now_ms : Z) (has_usable_time : bool) : bool :=
  some (local_announce_priority t now_ms has_usable_time).

Definition should_serve (t : TimeSyncTracker) (now_ms : Z) (has_usable_time : bool) : bool :=
  should_announce t now_ms has_usable_time.

Definition is_source_active (t : TimeSyncTracker) (now_ms : Z) : bool :=
  match current_source t with
  | Some s => source_is_active s now_ms (source_timeout_ms (cfg t))
  | None => false
  end.

(** ** Estimators *)

Record TimeSyncSample := { offset_ms : Z; delay_ms : Z }.

Definition compute_offset_delay (t1 t2 t3 t4 : Z) : TimeSyncSample :=
  let offset := Z.quot ((t2 - t1) + (t3 - t4)) 2 in
  let delay := (t4 - t1) - (t3 - t2) in
  {| offset_ms := i64 offset; delay_ms := if delay <? 0 then 0 else wrap 64 delay |}.

Definition compute_network_time_sample (t1 t2 t3 t4 : Z) : Z * Z :=
  let round_trip := sat_sub t4 t1 in
  let server_processing := sat_sub t3 t2 in
  let one_way_delay := sat_sub round_trip server_processing / 2 in
  (sat_add64 t3 one_way_delay, one_way_delay).

(** ** Packets *)

Definition TIMESYNC_ANNOUNCE_WORDS : Z := 2.
Definition TIMESYNC_REQUEST_WORDS : Z := 2.
Definition TIMESYNC_RESPONSE_WORDS : Z := 4.

Section Packets.
Context `{Config} `{Schema}.

Definition build_timesync_announce (priority time_ms : Z) : TelemetryResult Packet :=
  from_prim_le_slice PU64 TimeSyncAnnounce [priority; time_ms]
    (endpoints (message_meta TimeSyncAnnounce)) time_ms.

Definition build_timesync_announce_with_sender (s : Str) (priority time_ms : Z)
    : TelemetryResult Packet :=
  packet_new TimeSyncAnnounce [EpTimeSync] s time_ms (encode_slice_le PU64 [priority; time_ms]).

Definition build_timesync_request (seq t1_ms : Z) : TelemetryResult Packet :=
  from_prim_le_slice PU64 TimeSyncRequest [seq; t1_ms]
    (endpoints (message_meta TimeSyncRequest)) t1_ms.

Definition build_timesync_response (seq t1_ms t2_ms t3_ms : Z) : TelemetryResult Packet :=
  from_prim_le_slice PU64 TimeSyncResponse [seq; t1_ms; t2_ms; t3_ms]
    (endpoints (message_meta TimeSyncResponse)) t3_ms.

Definition decode_u64_payload (p : Packet) (expected_ty : DataType) (expected_words : Z)
    : TelemetryResult (list Z) :=
  if negb (ty p =? expected_ty) then Err InvalidType
  else
    vals ← data_as PU64 p;
    if negb (Z.of_nat (length vals) =? expected_words)
    then Err (SizeMismatch (expected_words * 8) (Z.of_nat (length vals) * 8))
    else Ok vals.

Record TimeSyncAnnounceFields := { ann_priority : Z; ann_time_ms : Z }.
Record TimeSyncRequestFields := { req_seq : Z; req_t1_ms : Z }.
Record TimeSyncResponseFields := { rsp_seq : Z; rsp_t1_ms : Z; rsp_t2_ms : Z; rsp_t3_ms : Z }.

Definition decode_timesync_announce (p : Packet) : TelemetryResult TimeSyncAnnounceFields :=
  vals ← decode_u64_payload p TimeSyncAnnounce TIMESYNC_ANNOUNCE_WORDS;
  v0 ← elem_at vals 0; v1 ← elem_at vals 1;
  Ok {| ann_priority := v0; ann_time_ms := v1 |}.

Definition decode_timesync_request (p : Packet) : TelemetryResult TimeSyncRequestFields :=
  vals ← decode_u64_payload p TimeSyncRequest TIMESYNC_REQUEST_WORDS;
  v0 ← elem_at vals 0; v1 ← elem_at vals 1;
  Ok {| req_seq := v0; req_t1_ms := v1 |}.

Definition decode_timesync_response (p : Packet) : TelemetryResult TimeSyncResponseFields :=
  vals ← decode_u64_payload p TimeSyncResponse TIMESYNC_RESPONSE_WORDS;
  v0 ← elem_at vals 0; v1 ← elem_at vals 1; v2 ← elem_at vals 2; v3 ← elem_at vals 3;
  Ok {| rsp_seq := v0; rsp_t1_ms := v1; rsp_t2_ms := v2; rsp_t3_ms := v3 |}.

Definition handle_announce (t : TimeSyncTracker) (p : Packet) (recv_ms : Z)
    : TelemetryResult (TimeSyncTracker * TimeSyncUpdate) :=
  ann ← decode_timesync_announce p;
  if bool_decide (sender p = local_id t) then Ok (t, NoChange)
  else
    let incoming := {| src_sender := sender p; src_priority := ann_priority ann;
                       last_announce_ms := recv_ms; last_time_ms := ann_time_ms ann |} in
    Ok (reselect_source (with_sources t (bt_insert (sender p) incoming (sources t))) recv_ms).
End Packets.

(** ** The slewed clock *)

Record slew_ok (B : Z) (c : SlewedNetworkClock) : Prop := {
  sl_mono : is_u64 (anchor_mono_ns c);
  sl_unix : - B <= anchor_unix_ns c <= B;
  sl_pending : - B <= pending_adjust_ns c <= B;
  sl_ppm : 0 <= max_slew_ppm c <= 999999
}.

(** The adjustment allowed after [e] nanoseconds, and the part of [p] applied. *)
Definition allowance (ppm e : Z) : Z := e * ppm / 1000000.
Definition adjusted (p m : Z) : Z := if 0 <=? p then Z.min p m else - Z.min (- p) m.

Lemma allowance_range ppm e : 0 <= e -> 0 <= ppm <= 999999 -> 0 <= allowance ppm e <= e.
Proof.
  intros He Hp. unfold allowance. split; [apply Z.div_pos; nia|].
  apply Z.div_le_upper_bound; nia.
Qed.

Lemma allowance_step ppm e x :
  0 <= e -> 0 <= x -> 0 <= ppm <= 999999 ->
  allowance ppm e <= allowance ppm (e + x)
  /\ allowance ppm (e + x) - allowance ppm e <= x
  /\ allowance ppm (e + x) - allowance ppm e <= allowance ppm x + 1.
Proof.
  intros He Hx Hp. unfold allowance. rewrite Z.mul_add_distr_r.
  assert (0 <= x * ppm <= 999999 * x) as Hv by nia. revert Hv. generalize (x * ppm).
  generalize (e * ppm). intros u v Hv. divlia.
Qed.

Lemma neg_i128_small z : - 2 ^ 127 < z < 2 ^ 127 -> neg_i128 z = - z.
Proof. intros. unfold neg_i128, swrap. change (128 - 1) with 127. rewrite Z.mod_small; lia. Qed.

Section Slew.
Context (B : Z) (HB : 0 <= B <= 2 ^ 120).

Lemma applied_exact c now :
  slew_ok B c -> anchor_mono_ns c <= now <= u64_max ->
  applied_adjust_ns c now
  = adjusted (pending_adjust_ns c) (allowance (max_slew_ppm c) (now - anchor_mono_ns c)).
Proof.
  intros [[Hm1 Hm2] Hu Hp Hs] Hn. unfold applied_adjust_ns, elapsed_since.
  rewrite sat_sub_ge by lia. set (e := now - anchor_mono_ns c).
  assert (0 <= e <= u64_max) as He by zlia.
  assert (0 <= e * max_slew_ppm c <= u64_max * 999999) as Hprod by zlia || nia.
  assert (sat_mul_i128 e (max_slew_ppm c) = e * max_slew_ppm c) as -> by zlia.
  rewrite quot_nonneg by lia. fold (allowance (max_slew_ppm c) e).
  pose proof (allowance_range (max_slew_ppm c) e ltac:(lia) Hs) as Ha.
  unfold adjusted. destruct (Z.leb_spec 0 (pending_adjust_ns c)); [done|].
  rewrite (neg_i128_small (pending_adjust_ns c)) by lia.
  apply neg_i128_small. clear Hprod. clearbody e. zlia.
Qed.

Lemma adjusted_range p m : 0 <= m -> - m <= adjusted p m <= m /\ - Z.abs p <= adjusted p m <= Z.abs p.
Proof. unfold adjusted. intros. case_match; lia. Qed.

Lemma read_exact c now :
  slew_ok B c -> initialized c = true -> anchor_mono_ns c <= now <= u64_max ->
  read_unix_ns c now
  = Some (anchor_unix_ns c + (now - anchor_mono_ns c)
          + adjusted (pending_adjust_ns c) (allowance (max_slew_ppm c) (now - anchor_mono_ns c))).
Proof.
  intros Hok Hi Hn. unfold read_unix_ns. rewrite Hi. cbn [negb].
  rewrite (applied_exact c now Hok Hn). destruct Hok as [[Hm1 Hm2] Hu Hp Hs]. unfold elapsed_since.
  rewrite sat_sub_ge by lia.
  pose proof (allowance_range (max_slew_ppm c) (now - anchor_mono_ns c) ltac:(lia) Hs).
  pose proof (adjusted_range (pending_adjust_ns c) (allowance (max_slew_ppm c) (now - anchor_mono_ns c))
                ltac:(lia)). f_equal. zlia.
Qed.

Lemma steer_exact c now target :
  slew_ok B c -> initialized c = true -> anchor_mono_ns c <= now <= u64_max -> is_u64 target ->
  let m := allowance (max_slew_ppm c) (now - anchor_mono_ns c) in
  let current := anchor_unix_ns c + (now - anchor_mono_ns c) + adjusted (pending_adjust_ns c) m in
  steer_unix_ms c now target =
  {| anchor_mono_ns := now; anchor_unix_ns := current;
     pending_adjust_ns := pending_adjust_ns c - adjusted (pending_adjust_ns c) m
                          + (target * 1000000 - current);
     max_slew_ppm := max_slew_ppm c; initialized := true |}.
Proof.
  intros Hok Hi Hn Ht m current. unfold steer_unix_ms. rewrite Hi. cbn [negb].
  rewrite (read_exact c now Hok Hi Hn). cbn [from_option]. unfold id.
  rewrite (applied_exact c now Hok Hn). fold m. fold current.
  destruct Hok as [[Hm1 Hm2] Hu Hp Hs].
  pose proof (allowance_range (max_slew_ppm c) (now - anchor_mono_ns c) ltac:(lia) Hs) as Ha.
  pose proof (adjusted_range (pending_adjust_ns c) m ltac:(unfold m; lia)) as Hadj.
  assert (- 2 ^ 121 <= current <= 2 ^ 121) as Hc by (unfold current; fold m in Ha; zlia).
  unfold is_u64 in Ht. f_equal. fold m in Ha. clearbody m current. zlia.
Qed.
End Slew.

(** C38. The slewed clock never steps and never runs backwards: between two reads
    it advances by the elapsed time up to the configured slew rate (plus one
    nanosecond of rounding); steering does not change what it reads at that
    instant; and a target steered at [now] is reached exactly and then followed
    as soon as the slew rate allows, provided the adjustment steered before is
    used up by [now] ([repeated_steering_overshoots] shows what happens
    otherwise). *)
Theorem slewed_clock_correct B c now later target :
  0 <= B <= 2 ^ 118 -> slew_ok B c -> initialized c = true ->
  anchor_mono_ns c <= now <= later -> later <= u64_max -> is_u64 target ->
  let ppm := max_slew_ppm c in
  let c' := steer_unix_ms c now target in
  exists a b, read_unix_ns c now = Some a /\ read_unix_ns c later = Some b
    /\ a <= b /\ Z.abs (b - a - (later - now)) <= allowance ppm (later - now) + 1
    /\ read_unix_ns c' now = Some a
    /\ slew_ok (2 * B + 2 ^ 86) c'
    /\ (Z.abs (pending_adjust_ns c) <= allowance ppm (now - anchor_mono_ns c) ->
        Z.abs (target * 1000000 - a) <= allowance ppm (later - now) ->
        read_unix_ns c' later = Some (target * 1000000 + (later - now))).
Proof.
  intros HB0 Hok Hi Hn Hl Ht ppm c'. assert (0 <= B <= 2 ^ 120) as HB by lia. pose proof Hok as [[Hm1 Hm2] Hu Hp Hs].
  rewrite (read_exact B HB c now Hok Hi ltac:(lia)), (read_exact B HB c later Hok Hi ltac:(lia)).
  set (e := now - anchor_mono_ns c). set (x := later - now).
  replace (later - anchor_mono_ns c) with (e + x) by lia.
  destruct (allowance_step ppm e x ltac:(lia) ltac:(lia) Hs) as (Ha1 & Ha2 & Ha3).
  pose proof (allowance_range ppm e ltac:(lia) Hs) as Hr. fold ppm.
  pose proof (adjusted_range (pending_adjust_ns c) (allowance ppm e) ltac:(lia)) as Hadj.
  eexists _, _. split; [done|]. split; [done|].
  assert (forall p m m', 0 <= m <= m' -> Z.abs (adjusted p m' - adjusted p m) <= m' - m) as Hlip
    by (intros; unfold adjusted; case_match; lia).
  pose proof (Hlip (pending_adjust_ns c) (allowance ppm e) (allowance ppm (e + x)) ltac:(lia)) as Hd.
  split; [lia|]. split; [lia|].
  assert (c' = steer_unix_ms c now target) as Hc' by done.
  rewrite (steer_exact B HB c now target Hok Hi ltac:(lia) Ht) in Hc'. fold ppm e in Hc'.
  unfold is_u64 in Ht.
  assert (slew_ok (2 * B + 2 ^ 86) c') as Hok'.
  { rewrite Hc'. constructor; cbn; [unfold is_u64; zlia|zlia|zlia|done]. }
  split; [|split; [done|]].
  - rewrite (read_exact (2 * B + 2 ^ 86)); [|lia|done|by rewrite Hc'|rewrite Hc'; cbn; lia].
    rewrite Hc'. cbn [anchor_unix_ns anchor_mono_ns pending_adjust_ns max_slew_ppm].
    rewrite Z.sub_diag. change (allowance ppm 0) with 0. f_equal. unfold adjusted at 2. case_match; lia.
  - intros Hdone Hreach.
    rewrite (read_exact (2 * B + 2 ^ 86)); [|lia|done|by rewrite Hc'|rewrite Hc'; cbn; lia].
    rewrite Hc'. cbn [anchor_unix_ns anchor_mono_ns pending_adjust_ns max_slew_ppm].
    fold x. f_equal.
    assert (adjusted (pending_adjust_ns c) (allowance ppm e) = pending_adjust_ns c) as Hp0
      by (unfold adjusted; case_match; lia).
    rewrite Hp0 in *. unfold adjusted. case_match; lia.
Qed.

Definition steered_clock : SlewedNetworkClock := steer_unix_ms (slewed_new 50000) 0 1000.

(** One second after the first sample, a target 20 ms ahead is reached within
    another second. *)
Lemma slewed_clock_correct_witness :
  read_unix_ns (steer_unix_ms steered_clock 1000000000 2020) 2000000000 = Some 3020000000.
Proof.
  destruct (slewed_clock_correct (2 ^ 40) steered_clock 1000000000 2000000000 2020)
    as (a & b & Ha & _ & _ & _ & _ & _ & Hc).
  - lia.
  - constructor; vm_compute; split; discriminate || reflexivity.
  - reflexivity.
  - vm_compute; split; discriminate.
  - vm_compute; discriminate.
  - vm_compute; split; [discriminate|reflexivity].
  - vm_compute in Ha. injection Ha as <-. exact (Hc ltac:(vm_compute; discriminate) ltac:(vm_compute; discriminate)).
Defined.

(** Steering again before the first correction is exhausted adds the remainder
    to an error that already contains it: two samples of the same target leave
    the clock 100 ms past the target once the slew is complete. *)
Example repeated_steering_overshoots :
  let c := steer_unix_ms (steer_unix_ms steered_clock 1000000000 2100) 1000000000 2100 in
  pending_adjust_ns c = 200000000
  /\ read_unix_ns c 11000000000 = Some (12100000000 + 100000000).
Proof. vm_compute. auto. Qed.

(** ** Elections *)

Lemma better_spec a b :
  better a b = true <->
  src_priority a < src_priority b
  \/ (src_priority a = src_priority b /\ Ordered.lt (src_sender a) (src_sender b)).
Proof.
  unfold better. rewrite orb_true_iff, andb_true_iff, Z.ltb_lt, Z.eqb_eq, ltb_lt. done.
Qed.

Lemma better_trans a b c : better a b = true -> better b c = true -> better a c = true.
Proof.
  rewrite !better_spec. intros [|[]] [|[]]; try (left; lia).
  right. split; [lia|by eapply lt_trans].
Qed.

Lemma better_total a b : better a b = true \/ better b a = true \/
  (src_priority a = src_priority b /\ src_sender a = src_sender b).
Proof.
  rewrite !better_spec. destruct (Z.lt_trichotomy (src_priority a) (src_priority b)) as [|[|]]; [tauto| |tauto].
  destruct (lt_total (src_sender a) (src_sender b)) as [|[|]]; auto 6.
Qed.

Lemma better_asym a b : better a b = true -> better b a = false.
Proof.
  intros Hab. destruct (better b a) eqn:Hba; [|done]. exfalso.
  pose proof (better_trans _ _ _ Hab Hba) as Haa. apply better_spec in Haa as [|[_ Hl]]; [lia|].
  by apply lt_irrefl in Hl.
Qed.

(** [min_by] returns an element no other element beats. *)
Lemma min_by_spec l :
  match min_by l with
  | None => l = []
  | Some b => b ∈ l /\ forall a, a ∈ l -> better a b = false
  end.
Proof.
  induction l as [|a l IH]; cbn; [done|]. destruct (min_by l) as [b|].
  - destruct IH as [Hin Hb]. destruct (better b a) eqn:E.
    + split; [set_solver|]. intros c [->|Hc]%elem_of_cons; [by apply better_asym|auto].
    + split; [set_solver|]. intros c [->|Hc]%elem_of_cons.
      * destruct (better a a) eqn:Haa; [|done]. by rewrite (better_asym _ _ Haa) in Haa.
      * destruct (better c a) eqn:Hca; [|done]. specialize (Hb c Hc).
        destruct (better_total a b) as [Hab|[Hba|[He1 He2]]].
        -- by rewrite (better_trans _ _ _ Hca Hab) in Hb.
        -- congruence.
        -- exfalso. apply better_spec in Hca. assert (better c b = true); [|congruence].
           apply better_spec. by rewrite <- He1, <- He2.
  - subst. split; [set_solver|]. intros c ->%list_elem_of_singleton.
    destruct (better a a) eqn:Haa; [|done]. by rewrite (better_asym _ _ Haa) in Haa.
Qed.

#[export] Instance TimeSyncSource_eq_dec : EqDecision TimeSyncSource.
Proof. solve_decision. Defined.

(** The tracker's map is keyed by the sender of each source. *)
Definition tracker_ok (t : TimeSyncTracker) : Prop :=
  bt_sorted (sources t) /\ Forall (fun e => fst e = src_sender (snd e)) (sources t).

Definition active (t : TimeSyncTracker) (now : Z) (s : TimeSyncSource) : Prop :=
  bt_get (src_sender s) (sources t) = Some s
  /\ now - last_announce_ms s <= source_timeout_ms (cfg t).

Lemma elem_of_active t now s :
  tracker_ok t -> 0 <= source_timeout_ms (cfg t) -> s ∈ active_sources t now <-> active t now s.
Proof.
  intros [Hs Hk] Ht. unfold active_sources, active, bt_values, source_is_active.
  rewrite list_elem_of_In, List.filter_In, <- list_elem_of_In, list_elem_of_fmap, Z.leb_le.
  rewrite (bt_get_elem _ _ _ Hs). rewrite Forall_forall in Hk. split.
  - intros [([k s'] & -> & Hin) Ha]. cbn in *. specialize (Hk _ Hin). cbn in Hk. subst k. split; [done|zlia].
  - intros [Hin Ha]. split; [by exists (src_sender s, s)|zlia].
Qed.

(** The best active source: active, and ahead of every other active source. *)
Definition is_best (t : TimeSyncTracker) (now : Z) (b : TimeSyncSource) : Prop :=
  active t now b /\ forall a, active t now a -> a <> b -> better b a = true.

Lemma best_active_spec t now :
  tracker_ok t -> 0 <= source_timeout_ms (cfg t) ->
  match best_active_source t now with
  | Some b => is_best t now b
  | None => forall a, ~ active t now a
  end.
Proof.
  intros Hok Ht. unfold best_active_source. pose proof (min_by_spec (active_sources t now)) as Hm.
  destruct (min_by _) as [b|].
  - destruct Hm as [Hin Hb]. apply elem_of_active in Hin; [|done..]. split; [done|].
    intros a Ha Hne. assert (better a b = false) as Hab by (apply Hb; by apply elem_of_active).
    destruct (better_total a b) as [?|[?|[_ He]]]; [congruence|done|]. exfalso. apply Hne.
    destruct Ha as [Ha _], Hin as [Hb' _]. rewrite He in Ha. congruence.
  - intros a Ha. apply elem_of_active in Ha; [|done..]. rewrite Hm in Ha. by apply elem_of_nil in Ha.
Qed.

Lemma best_active_none t now :
  some (best_active_source t now) = false <-> best_active_source t now = None.
Proof. by destruct (best_active_source t now). Qed.

(** The local node as a competitor. *)
Definition local_source (t : TimeSyncTracker) : TimeSyncSource :=
  {| src_sender := local_id t; src_priority := ts_priority (cfg t); last_announce_ms := 0; last_time_ms := 0 |}.

(** The role rules: who may lead locally. *)
Definition may_lead (t : TimeSyncTracker) (now : Z) (usable : bool) : Prop :=
  match role (cfg t) with
  | Source => True
  | Auto => usable = true /\ forall a, ~ active t now a
  | Consumer => usable = true /\ consumer_promotion_enabled (cfg t) = true /\ forall a, ~ active t now a
  end.

Lemma candidate_spec t now usable :
  tracker_ok t -> 0 <= source_timeout_ms (cfg t) ->
  match local_candidate_priority t now usable with
  | Some p => p = ts_priority (cfg t) /\ may_lead t now usable
  | None => ~ may_lead t now usable
  end.
Proof.
  intros Hok Ht. pose proof (best_active_spec t now Hok Ht) as Hb.
  unfold local_candidate_priority, may_lead.
  destruct (role (cfg t)), usable, (consumer_promotion_enabled (cfg t)); cbn; try (split; tauto); try naive_solver;
    destruct (best_active_source t now) as [b|]; cbn; try (split; [done|tauto]); destruct Hb as [Ha _];
    intros; naive_solver.
Qed.

(** The election: the local node leads exactly when its role allows it and no
    active remote source has a better (priority, name); otherwise the leader is
    the unique best active remote source; there is no leader exactly when
    neither exists. Nodes that know each other's announcements therefore order
    candidates identically. *)
Theorem leader_correct t now usable :
  tracker_ok t -> 0 <= source_timeout_ms (cfg t) ->
  match leader t now usable with
  | Some (Local p) => p = ts_priority (cfg t) /\ may_lead t now usable
      /\ forall a, active t now a -> better (local_source t) a = true
  | Some (Remote b) => is_best t now b
      /\ (may_lead t now usable -> better (local_source t) b = false)
  | None => ~ may_lead t now usable /\ forall a, ~ active t now a
  end.
Proof.
  intros Hok Ht. pose proof (best_active_spec t now Hok Ht) as Hb.
  pose proof (candidate_spec t now usable Hok Ht) as Hc. unfold leader.
  destruct (local_candidate_priority t now usable) as [p|], (best_active_source t now) as [b|].
  - destruct Hc as [-> Hl].
    destruct (better (local_source t) b) eqn:E.
    + change ((ts_priority (cfg t) <? src_priority b) || (ts_priority (cfg t) =? src_priority b)
              && Ordered.ltb (local_id t) (src_sender b)) with (better (local_source t) b).
      rewrite E. split; [done|]. split; [done|]. intros a Ha.
      destruct (decide (a = b)) as [->|Hne]; [done|]. eapply better_trans; [exact E|]. by apply Hb.
    + change ((ts_priority (cfg t) <? src_priority b) || (ts_priority (cfg t) =? src_priority b)
              && Ordered.ltb (local_id t) (src_sender b)) with (better (local_source t) b).
      by rewrite E.
  - destruct Hc as [-> Hl]. split; [done|]. split; [done|]. intros a Ha. by apply Hb in Ha.
  - split; [done|]. intros Hl. by destruct Hc.
  - done.
Qed.

(** What every operation of the tracker leaves behind at time [now]. *)
Definition selected (t : TimeSyncTracker) (now : Z) : Prop :=
  match current_source_id t with
  | Some s => exists b, src_sender b = s /\ is_best t now b /\ current_source t = Some b
              /\ is_source_active t now = true
  | None => forall a, ~ active t now a
  end.

Lemma active_with_current t c now a : active (with_current t c) now a <-> active t now a.
Proof. done. Qed.

Lemma reselect_spec t now t' u :
  tracker_ok t -> 0 <= source_timeout_ms (cfg t) -> reselect_source t now = (t', u) ->
  tracker_ok t' /\ cfg t' = cfg t /\ sources t' = sources t /\ selected t' now
  /\ (u = NoChange <-> current_source_id t' = current_source_id t).
Proof.
  intros Hok Ht. unfold reselect_source. intros [= <- <-]. split; [done|]. split; [done|]. split; [done|].
  split.
  - unfold selected. cbn [current_source_id with_current]. pose proof (best_active_spec t now Hok Ht) as Hb.
    destruct (best_active_source t now) as [b|]; [|done]. cbn. exists b. split; [done|]. split; [done|].
    unfold current_source, is_source_active, current_source, source_is_active.
    cbn [current_source_id with_current mbind option_bind sources cfg].
    destruct Hb as [[Hg Ha] _]. rewrite Hg. split; [done|]. apply Z.leb_le. zlia.
  - cbn. unfold update_eqb. case_bool_decide; split; done.
Qed.

Lemma retain_active_ok t f :
  tracker_ok t -> tracker_ok (with_sources t (bt_retain f (sources t))).
Proof.
  intros [Hs Hk]. split; cbn; [by apply bt_retain_sorted|]. rewrite Forall_forall in *.
  intros e [_ He]%elem_of_bt_retain. auto.
Qed.

Lemma refresh_spec t now t' u :
  tracker_ok t -> 0 <= source_timeout_ms (cfg t) -> refresh t now = (t', u) ->
  tracker_ok t' /\ cfg t' = cfg t /\ selected t' now
  /\ (forall a, bt_get (src_sender a) (sources t') = Some a <-> active t now a)
  /\ (u = NoChange <-> current_source_id t' = current_source_id t).
Proof.
  intros Hok Ht Hr. apply reselect_spec in Hr as (Hok' & Hc & Hs & Hsel & Hu); [|by apply retain_active_ok|done].
  split; [done|]. split; [done|]. split; [done|]. split; [|done]. intros a. rewrite Hs. cbn [sources with_sources].
  rewrite bt_get_retain by apply Hok. unfold active, source_is_active. split.
  - destruct (bt_get _ _) as [s|]; [|done]. case_match eqn:E; [|done]. intros [= ->].
    apply Z.leb_le in E. split; [done|zlia].
  - intros [-> Ha]. destruct (Z.leb_spec (sat_sub now (last_announce_ms a)) (source_timeout_ms (cfg t))); [done|zlia].
Qed.

Section Announce.
Context `{Config} `{Schema}.

(** The tracker: refreshing keeps exactly the active sources; a valid announcement
    from another node records its sender, priority and time, and our own
    announcements are ignored; after either operation the current source is the
    best active one (none if there is none) and the returned flag says exactly
    whether the selection changed. *)
Theorem tracker_operations_correct t p now :
  tracker_ok t -> 0 <= source_timeout_ms (cfg t) ->
  (let '(t', u) := refresh t now in
     tracker_ok t' /\ selected t' now
     /\ (forall a, bt_get (src_sender a) (sources t') = Some a <-> active t now a)
     /\ (u = NoChange <-> current_source_id t' = current_source_id t))
  /\ match handle_announce t p now, decode_timesync_announce p with
     | Ok (t', u), Ok ann =>
         tracker_ok t'
         /\ (sender p = local_id t -> t' = t /\ u = NoChange)
         /\ (sender p <> local_id t ->
             selected t' now
             /\ bt_get (sender p) (sources t')
                = Some {| src_sender := sender p; src_priority := ann_priority ann;
                          last_announce_ms := now; last_time_ms := ann_time_ms ann |}
             /\ (forall s, s <> sender p -> bt_get s (sources t') = bt_get s (sources t))
             /\ (u = NoChange <-> current_source_id t' = current_source_id t))
     | Err e, Err e' => e = e'
     | Panic, Panic => True
     | _, _ => False
     end.
Proof.
  intros Hok Ht. split.
  { destruct (refresh t now) as [t' u] eqn:E. apply refresh_spec in E; [|done..]. tauto. }
  unfold handle_announce. destruct (decode_timesync_announce p) as [ann|e|]; cbn [res_bind mbind res_mbind]; [|done..].
  case_bool_decide as Hs; [by split|].
  set (incoming := {| src_sender := sender p; src_priority := _; last_announce_ms := _; last_time_ms := _ |}).
  destruct (reselect_source _ now) as [t' u] eqn:E.
  apply reselect_spec in E as (Hok' & Hc & Hsrc & Hsel & Hu); [|split|done].
  - split; [done|]. split; [done|]. intros _. split; [done|]. rewrite Hsrc. cbn [sources with_sources].
    split; [apply bt_get_insert_eq|]. split; [intros s Hne; by apply bt_get_insert_ne|done].
  - apply bt_insert_sorted, Hok.
  - cbn. apply Forall_forall. intros e [->|He]%bt_insert_elem; [done|].
    destruct Hok as [_ Hk]. rewrite Forall_forall in Hk. auto.
Qed.
End Announce.

(** ** Estimators *)

(** The estimators are sound. Take a server whose clock is [theta] ahead,
    forward and return delays [d1], [d2] and a processing time: the offset
    estimate errs by at most half the asymmetry of the path, the delay estimate
    is exactly the round trip, and the network time computed at reception errs
    by at most half the round trip. *)
Theorem estimators_sound t1 theta d1 d2 proc :
  0 <= d1 -> 0 <= d2 -> 0 <= proc -> 0 <= t1 ->
  let t2 := t1 + d1 + theta in
  let t3 := t2 + proc in
  let t4 := t1 + d1 + proc + d2 in
  0 <= t2 -> t3 + d1 + d2 < 2 ^ 62 -> t4 < 2 ^ 62 ->
  let s := compute_offset_delay t1 t2 t3 t4 in
  let '(now, one_way) := compute_network_time_sample t1 t2 t3 t4 in
  2 * Z.abs (offset_ms s - theta) <= Z.abs (d1 - d2) + 1
  /\ delay_ms s = d1 + d2
  /\ one_way = (d1 + d2) / 2
  /\ 2 * Z.abs (now - (t4 + theta)) <= d1 + d2 + 1.
Proof.
  intros Hd1 Hd2 Hp Ht1 t2 t3 t4 Ht2 Hb3 Hb4. unfold compute_offset_delay, compute_network_time_sample.
  cbn [offset_ms delay_ms].
  replace (t4 - t1 - (t3 - t2)) with (d1 + d2) by (unfold t4, t3; lia).
  rewrite (sat_sub_ge t4 t1), (sat_sub_ge t3 t2) by (unfold t4, t3; lia).
  rewrite sat_sub_ge by (unfold t4, t3; lia).
  replace (t4 - t1 - (t3 - t2)) with (d1 + d2) by (unfold t4, t3; lia).
  destruct (Z.ltb_spec (d1 + d2) 0); [lia|].
  assert (- 2 ^ 63 <= Z.quot (t2 - t1 + (t3 - t4)) 2 < 2 ^ 63) as Hq by (unfold t2, t3, t4 in *; divlia).
  rewrite i64_small by done. rewrite wrap_small by (unfold t3, t2 in *; lia).
  assert (sat_add64 t3 ((d1 + d2) / 2) = t3 + (d1 + d2) / 2) as ->.
  { unfold sat_add64. assert (0 <= (d1 + d2) / 2 <= d1 + d2) by divlia. zlia. }
  split; [unfold t2, t3, t4 in *; divlia|]. split; [done|]. split; [done|].
  unfold t2, t3, t4 in *. divlia.
Qed.

Lemma estimators_sound_witness :
  offset_ms (compute_offset_delay 1000 6010 6015 1030) = 4997
  /\ 2 * Z.abs (4997 - 5000) <= Z.abs (10 - 15) + 1.
Proof.
  split; [reflexivity|].
  apply (estimators_sound 1000 5000 10 15 5); lia.
Defined.

(** ** Packets *)

Section PacketFacts.
Context `{Config} `{Schema}.

Lemma announce_meta : message_meta TimeSyncAnnounce = mk_meta "TIME_SYNC_ANNOUNCE" (Static 2 UInt64 Data) EpTimeSync RelNone 255.
Proof. unfold message_meta, TimeSyncAnnounce. rewrite <- (Z.add_0_r n_tys). by apply (builtin_type_meta 0). Qed.

Lemma request_meta : message_meta TimeSyncRequest = mk_meta "TIME_SYNC_REQUEST" (Static 2 UInt64 Data) EpTimeSync RelNone 255.
Proof. by apply (builtin_type_meta 1). Qed.

Lemma response_meta : message_meta TimeSyncResponse = mk_meta "TIME_SYNC_RESPONSE" (Static 4 UInt64 Data) EpTimeSync RelNone 255.
Proof. by apply (builtin_type_meta 2). Qed.

(** A packet of [u64] words for a static schema entry of that many words. *)
Lemma words_packet t name n ep r prio vs s ts :
  STACK_PAYLOAD_SIZE < 256 ->
  message_meta t = mk_meta name (Static n UInt64 Data) ep r prio ->
  n = Z.of_nat (length vs) -> n < 2 ^ 32 -> Forall (prim_ok PU64) vs ->
  exists p, packet_new t [ep] s ts (encode_slice_le PU64 vs) = Ok p
    /\ ty p = t /\ sender p = s /\ pkt_endpoints p = [ep] /\ timestamp p = ts /\ data_as PU64 p = Ok vs.
Proof.
  intros Hstack Hm Hn Hlt Hv.
  assert (get_data_type t = UInt64) as Hdt
    by (unfold get_data_type; unfold message_meta in Hm; by rewrite Hm).
  assert (content_ok t (encode_slice_le PU64 vs)) as Hc.
  { unfold content_ok. rewrite Hm. cbn [element mk_meta]. rewrite Hdt, blen_encode. cbn [data_type_size WIDTH].
    rewrite wrap_small by lia. lia. }
  destruct (packet_new_cases t [ep] s ts (encode_slice_le PU64 vs)) as [[? _]|[(_ & Hnc & _)|(_ & _ & Hp)]];
    [done|done|].
  destruct (std_new_total (encode_slice_le PU64 vs) Hstack) as (q & Hq & Hh). rewrite Hq in Hp. cbn in Hp.
  eexists. split; [exact Hp|]. do 4 (split; [done|]).
  apply as_le_bytes_encoded; [apply Hh|done|done].
Qed.

Lemma built_words_packet t name n ep r prio vs ts :
  STACK_PAYLOAD_SIZE < 256 ->
  message_meta t = mk_meta name (Static n UInt64 Data) ep r prio ->
  n = Z.of_nat (length vs) -> n < 2 ^ 32 -> Forall (prim_ok PU64) vs ->
  exists p, from_prim_le_slice PU64 t vs (endpoints (message_meta t)) ts = Ok p
    /\ ty p = t /\ data_as PU64 p = Ok vs.
Proof.
  intros Hstack Hm Hn Hlt Hv.
  destruct (words_packet t name n ep r prio vs DEVICE_IDENTIFIER ts Hstack Hm Hn Hlt Hv)
    as (p & Hp & Hty & _ & _ & _ & Hd).
  assert (get_data_type t = UInt64) as Hdt
    by (unfold get_data_type; unfold message_meta in Hm; by rewrite Hm).
  exists p. split; [|done]. unfold from_prim_le_slice, from_prim_le_slice_with_sender. rewrite Hdt.
  rewrite bool_decide_false by naive_solver. cbn [data_type_size WIDTH]. rewrite Z.eqb_refl. cbn [negb].
  rewrite Hm. cbn [element mk_meta endpoints]. rewrite <- Hn, Z.eqb_refl. cbn. exact Hp.
Qed.

Lemma decode_words p t n vs :
  ty p = t -> data_as PU64 p = Ok vs -> n = Z.of_nat (length vs) -> decode_u64_payload p t n = Ok vs.
Proof. intros <- Hd ->. unfold decode_u64_payload. rewrite Z.eqb_refl, Hd. cbn. by rewrite Z.eqb_refl. Qed.

Lemma prim_ok_u64 v : is_u64 v -> prim_ok PU64 v.
Proof. done. Qed.

(** Time-sync packets round trip through their codecs, and each decoder
    refuses every other packet type. *)
Theorem timesync_packets_roundtrip a b c d s p :
  STACK_PAYLOAD_SIZE < 256 -> is_u64 a -> is_u64 b -> is_u64 c -> is_u64 d ->
  (exists q, build_timesync_announce a b = Ok q
     /\ decode_timesync_announce q = Ok {| ann_priority := a; ann_time_ms := b |})
  /\ (exists q, build_timesync_announce_with_sender s a b = Ok q /\ sender q = s
     /\ decode_timesync_announce q = Ok {| ann_priority := a; ann_time_ms := b |})
  /\ (exists q, build_timesync_request a b = Ok q
     /\ decode_timesync_request q = Ok {| req_seq := a; req_t1_ms := b |})
  /\ (exists q, build_timesync_response a b c d = Ok q
     /\ decode_timesync_response q = Ok {| rsp_seq := a; rsp_t1_ms := b; rsp_t2_ms := c; rsp_t3_ms := d |})
  /\ (ty p <> TimeSyncAnnounce -> decode_timesync_announce p = Err InvalidType)
  /\ (ty p <> TimeSyncRequest -> decode_timesync_request p = Err InvalidType)
  /\ (ty p <> TimeSyncResponse -> decode_timesync_response p = Err InvalidType).
Proof.
  intros Hst Ha Hb Hc Hd.
  assert (Forall (prim_ok PU64) [a; b]) as H2 by (repeat (apply List.Forall_cons; [done|]); apply List.Forall_nil).
  assert (Forall (prim_ok PU64) [a; b; c; d]) as H4 by (repeat (apply List.Forall_cons; [done|]); apply List.Forall_nil).
  split; [|split; [|split; [|split; [|split; [|split]]]]].
  - destruct (built_words_packet _ _ _ _ _ _ [a; b] b Hst announce_meta) as (q & Hq & Hty & Hd'); [done..|].
    exists q. split; [done|]. unfold decode_timesync_announce. by rewrite (decode_words q _ _ [a; b]).
  - destruct (words_packet _ _ _ _ _ _ [a; b] s b Hst announce_meta) as (q & Hq & Hty & Hs & _ & _ & Hd'); [done..|].
    exists q. split; [done|]. split; [done|]. unfold decode_timesync_announce. by rewrite (decode_words q _ _ [a; b]).
  - destruct (built_words_packet _ _ _ _ _ _ [a; b] b Hst request_meta) as (q & Hq & Hty & Hd'); [done..|].
    exists q. split; [done|]. unfold decode_timesync_request. by rewrite (decode_words q _ _ [a; b]).
  - destruct (built_words_packet _ _ _ _ _ _ [a; b; c; d] d Hst response_meta) as (q & Hq & Hty & Hd'); [done..|].
    exists q. split; [done|]. unfold decode_timesync_response. by rewrite (decode_words q _ _ [a; b; c; d]).
  - intros Hne. unfold decode_timesync_announce, decode_u64_payload. by destruct (Z.eqb_spec (ty p) TimeSyncAnnounce).
  - intros Hne. unfold decode_timesync_request, decode_u64_payload. by destruct (Z.eqb_spec (ty p) TimeSyncRequest).
  - intros Hne. unfold decode_timesync_response, decode_u64_payload. by destruct (Z.eqb_spec (ty p) TimeSyncResponse).
Qed.
End PacketFacts.

(** ** The network clock *)

Lemma source_better_trans a b c :
  source_better a b = true -> source_better b c = true -> source_better a c = true.
Proof.
  unfold source_better. rewrite !orb_true_iff, !andb_true_iff, !Z.ltb_lt, !Z.eqb_eq, !ltb_lt.
  intros [|[]] [|[]]; try (left; lia). right. split; [lia|by eapply lt_trans].
Qed.

Lemma source_better_total a b :
  fst a <> fst b -> source_better a b = true \/ source_better b a = true.
Proof.
  unfold source_better. rewrite !orb_true_iff, !andb_true_iff, !Z.ltb_lt, !Z.eqb_eq, !ltb_lt. intros Hne.
  destruct (Z.lt_trichotomy (nt_priority (snd a)) (nt_priority (snd b))) as [|[|]]; [tauto| |tauto].
  destruct (lt_total (fst a) (fst b)) as [|[|]]; [auto 6|done|auto 6].
Qed.

(** [b] beats every accepted entry of [l] other than itself. *)
Definition beats (pred : NetworkTimeSourceState -> bool) (b : Str * NetworkTimeSourceState) (l : NetworkClock) : Prop :=
  forall e, e ∈ l -> pred (snd e) = true -> fst e <> fst b -> source_better b e = true.

Lemma best_source_from_spec pred l best :
  (forall b, best = Some b -> Forall (fun e => fst e <> fst b) l) -> bt_sorted l ->
  match best_source_from best pred l with
  | None => best = None /\ Forall (fun e => pred (snd e) = false) l
  | Some b => beats pred b l
      /\ ((best = Some b) \/ (b ∈ l /\ pred (snd b) = true))
      /\ (forall b0, best = Some b0 -> b = b0 \/ source_better b b0 = true)
  end.
Proof.
  intros Hbest Hs. revert best Hbest. induction Hs as [|e l Hs IH Hlt]; intros best Hbest; cbn [best_source_from].
  { destruct best as [b|]; [|done]. split; [by intros ? ?%elem_of_nil|]. split; [by left|].
    intros b0 [= ->]. by left. }
  destruct (pred (snd e)) eqn:Hp; cbn [negb].
  - set (best' := match best with None => e | Some b => if source_better e b then e else b end).
    specialize (IH (Some best')).
    assert (Forall (fun e0 => fst e0 <> fst best') l) as Hdist.
    { unfold best'. destruct best as [b|].
      - specialize (Hbest b eq_refl). inv Hbest as [|?? Hne Hb].
        destruct (source_better e b); [|exact Hb]. eapply Forall_impl; [exact Hlt|]. intros x Hx Heq.
        unfold key_lt in Hx. rewrite Heq in Hx. by apply lt_irrefl in Hx.
      - eapply Forall_impl; [exact Hlt|]. intros x Hx Heq. unfold key_lt in Hx. rewrite Heq in Hx.
        by apply lt_irrefl in Hx. }
    specialize (IH ltac:(by intros b [= <-])).
    destruct (best_source_from (Some best') pred l) as [b|]; [|by destruct IH].
    destruct IH as (Hb & Hin & Hover). specialize (Hover best' eq_refl).
    assert (best' = e \/ source_better best' e = true) as He.
    { unfold best'. destruct best as [b0|]; [|by left]. destruct (source_better e b0) eqn:E; [by left|].
      right. specialize (Hbest b0 eq_refl). inv Hbest as [|?? Hne _].
      destruct (source_better_total e b0 Hne); congruence. }
    split; [|split].
    + intros x [->|Hx]%elem_of_cons Hpx Hne; [|auto].
      destruct Hover as [->|Ho], He as [He|He]; try done.
      * rewrite He in Hne. done. * by rewrite He in Ho. * by eapply source_better_trans.
    + destruct Hin as [[= <-]|[Hin Hpb]]; [|right; split; [set_solver|done]].
      unfold best'. destruct best as [b0|]; [|right; split; [set_solver|done]].
      case_match; [right; split; [set_solver|done]|by left].
    + intros b0 ->. unfold best' in *. cbn in *.
      destruct (source_better e b0) eqn:E; [|destruct Hover as [->|]; auto].
      right. destruct Hover as [->|Ho]; [done|by eapply source_better_trans].
  - specialize (IH best). assert (forall b, best = Some b -> Forall (fun e => fst e <> fst b) l) as Hbest'.
    { intros b Hb. specialize (Hbest b Hb). by inv Hbest. }
    specialize (IH Hbest'). destruct (best_source_from best pred l) as [b|].
    + destruct IH as (Hb & Hin & Hover). split; [|split; [|done]].
      * intros x [->|Hx]%elem_of_cons Hpx Hne; [congruence|auto].
      * destruct Hin as [?|[? ?]]; [by left|right; split; [set_solver|done]].
    + destruct IH as [-> Hf]. split; [done|]. by constructor.
Qed.

(** The network clock: every field is taken from the accepted source of lowest
    (priority, name); a complete source wins over any merge of partial ones and
    is advanced by the time since its anchor; there is a reading exactly when
    there is a source; and pruning drops exactly the sources past their TTL. *)
Theorem current_time_correct c now now_ms pred n s :
  bt_sorted c ->
  match best_source c pred with
  | Some b => pred b = true /\ exists name, bt_get name c = Some b
      /\ forall n' b', bt_get n' c = Some b' -> pred b' = true -> n' <> name ->
                       source_better (name, b) (n', b') = true
  | None => bt_get n c = Some s -> pred s = false
  end
  /\ (current_time c now = None <-> c = [])
  /\ (forall src base advanced,
      best_source c (fun s => some (to_network_time (time s))) = Some src ->
      to_network_time (time src) = Some base ->
      advance_network_time base (sat_sub now (nt_anchor_mono_ns src)) = Some advanced ->
      current_time c now = Some (reading_of advanced))
  /\ (bt_get n (prune_expired now_ms c) = Some s <->
      bt_get n c = Some s
      /\ match ttl_ms s with Some ttl => sat_sub now_ms (updated_mono_ms s) <= ttl | None => True end).
Proof.
  intros Hs. split; [|split; [|split]].
  - pose proof (best_source_from_spec pred c None ltac:(done) Hs) as Hb. unfold best_source.
    destruct (best_source_from None pred c) as [[name b]|]; cbn.
    + destruct Hb as (Hb & [|[Hin Hp]] & _); [done|]. split; [done|]. exists name.
      split; [by apply bt_get_elem|]. intros n' b' Hg. apply bt_get_elem in Hg; [|done]. intros Hp' Hne.
      by apply (Hb (n', b')).
    + destruct Hb as [_ Hf]. intros Hg%bt_get_elem; [|done]. rewrite Forall_forall in Hf. by apply Hf in Hg.
  - unfold current_time. destruct c as [|e c]; [done|]. split; [|done].
    destruct (full_reading _ _); [done|]. unfold merged_reading.
    destruct (tod_source (e :: c)); [|done].
    destruct (is_complete_date (merged_time (e :: c)) && is_complete_time (merged_time (e :: c))) eqn:E; [|done].
    unfold is_complete_date, is_complete_time in E. destruct (merged_time (e :: c)) as [[] [] [] [] [] [] ?]; try done.
    cbn -[advance_network_time]. by destruct (advance_network_time _ _).
  - intros src base adv Hsrc Hbase Hadv. unfold current_time, full_reading. destruct c as [|e c]; [done|].
    rewrite Hsrc. cbn [mbind option_bind]. rewrite Hbase. cbn [mbind option_bind]. by rewrite Hadv.
  - unfold prune_expired. rewrite bt_get_retain by done. destruct (bt_get n c) as [s'|]; [|naive_solver].
    destruct (ttl_ms s') as [ttl|] eqn:Et.
    + destruct (Z.leb_spec (sat_sub now_ms (updated_mono_ms s')) ttl) as [Hle|Hgt].
      * split; [intros [= <-]; by rewrite Et|tauto].
      * split; [done|]. intros [[= <-] Hx]. rewrite Et in Hx. lia.
    + split; [intros [= <-]; by rewrite Et|tauto].
Qed.

(** ** Concrete trackers and clocks *)

Definition two_source_tracker : TimeSyncTracker :=
  {| cfg := default_timesync; local_id := lit "node";
     sources := [(lit "a", {| src_sender := lit "a"; src_priority := 10; last_announce_ms := 1000; last_time_ms := 5 |});
                 (lit "b", {| src_sender := lit "b"; src_priority := 5; last_announce_ms := 900; last_time_ms := 6 |})];
     current_source_id := None |}.

Lemma two_source_tracker_ok : tracker_ok two_source_tracker.
Proof.
  split.
  - repeat constructor.
  - repeat (apply List.Forall_cons; [reflexivity|]). apply List.Forall_nil.
Qed.

Lemma leader_correct_witness :
  match leader two_source_tracker 1500 true with
  | Some (Remote b) => src_sender b = lit "b" /\ is_best two_source_tracker 1500 b
  | _ => False
  end.
Proof.
  pose proof (leader_correct two_source_tracker 1500 true two_source_tracker_ok ltac:(vm_compute; discriminate)) as Hl.
  destruct (leader two_source_tracker 1500 true) as [[p|b]|] eqn:E; [discriminate E| |discriminate E].
  split; [|exact (proj1 Hl)]. vm_compute in E. injection E as <-. reflexivity.
Defined.

Lemma tracker_operations_correct_witness :
  let '(t', u) := refresh two_source_tracker 5950 in
  selected t' 5950 /\ current_source_id t' = Some (lit "a") /\ u = SourceChanged.
Proof.
  pose proof (@tracker_operations_correct default_config default_schema two_source_tracker
    {| ty := 0; data_size := 0; sender := []; pkt_endpoints := []; timestamp := 0; payload := StdHeap [] |} 5950
    two_source_tracker_ok ltac:(vm_compute; discriminate)) as [Hr _].
  destruct (refresh two_source_tracker 5950) as [t' u] eqn:E.
  split; [exact (proj1 (proj2 Hr))|]. vm_compute in E. injection E as <- <-. split; reflexivity.
Defined.

Lemma timesync_packets_roundtrip_witness :
  exists q, @build_timesync_response default_config default_schema 7 100 2000 2001 = Ok q
    /\ @decode_timesync_response default_config default_schema q
       = Ok {| rsp_seq := 7; rsp_t1_ms := 100; rsp_t2_ms := 2000; rsp_t3_ms := 2001 |}.
Proof.
  apply (@timesync_packets_roundtrip default_config default_schema 7 100 2000 2001 []
    {| ty := 0; data_size := 0; sender := []; pkt_endpoints := []; timestamp := 0; payload := StdHeap [] |});
    [reflexivity|unfold is_u64; lia..].
Defined.

Definition date_and_tod : NetworkClock :=
  update_source (lit "tod") 2
    {| p_year := None; p_month := None; p_day := None; p_hour := Some 12; p_minute := Some 0;
       p_second := Some 0; p_nanosecond := None |} 0 0 (Some 100)
    (update_source (lit "date") 1
       {| p_year := Some 2024; p_month := Some 2; p_day := Some 29; p_hour := None; p_minute := None;
          p_second := None; p_nanosecond := None |} 0 0 None []).

Lemma current_time_correct_witness :
  bt_get (lit "tod") (prune_expired 101 date_and_tod) = None
  /\ (unix_time_ms <$> current_time date_and_tod 1500000000) = Some (Some 1709208001500).
Proof.
  assert (bt_sorted date_and_tod) as Hs by (apply bt_insert_sorted, bt_insert_sorted; constructor).
  split; [|vm_compute; reflexivity].
  destruct (bt_get (lit "tod") (prune_expired 101 date_and_tod)) as [s|] eqn:E; [|reflexivity].
  apply (current_time_correct date_and_tod 0 101 (fun _ => true) (lit "tod") s Hs) in E as [Hg Ht].
  vm_compute in Hg. injection Hg as <-. vm_compute in Ht. destruct (Ht eq_refl).
Defined.
