(* ===== verification/Discovery.v ===== *)
(** * Discovery ([src/discovery.rs])

    The announce cadence, the normal form and merge of topology views, and the
    three discovery payload codecs (endpoints, time-sync sources, topology).

    [sort_unstable] leaves the order of equal keys open; equal strings and
    endpoints are indistinguishable, and for two boards with the same sender in
    one list the model keeps the first. *)

From S2P Require Import Prelude Ordered Telemetry Config Schema SmallPayload Wire Packet.

Definition DISCOVERY_ROUTE_TTL_MS : Z := 30000.
Definition DISCOVERY_FAST_INTERVAL_MS : Z := 250.
Definition DISCOVERY_SLOW_INTERVAL_MS : Z := 5000.

(** ** Cadence *)

Record DiscoveryCadenceState := { current_interval_ms : Z; next_announce_ms : Z }.

Definition cadence_default : DiscoveryCadenceState :=
  {| current_interval_ms := DISCOVERY_FAST_INTERVAL_MS; next_announce_ms := 0 |}.

Definition on_topology_change (s : DiscoveryCadenceState) (now_ms : Z) : DiscoveryCadenceState :=
  {| current_interval_ms := DISCOVERY_FAST_INTERVAL_MS; next_announce_ms := now_ms |}.

Definition on_announce_sent (s : DiscoveryCadenceState) (now_ms : Z) : DiscoveryCadenceState :=
  {| next_announce_ms := sat_add64 now_ms (current_interval_ms s);
     current_interval_ms :=
       Z.min (sat_mul64 (current_interval_ms s) 2) DISCOVERY_SLOW_INTERVAL_MS |}.

Definition due (s : DiscoveryCadenceState) (now_ms : Z) : bool := next_announce_ms s <=? now_ms.

(** ** Topology boards *)

Record TopologyBoardNode := {
  sender_id : Str;
  reachable_endpoints : list DataEndpoint;
  reachable_timesync_sources : list Str;
  connections : list Str
}.

Definition normalize_board (b : TopologyBoardNode) : TopologyBoardNode :=
  {| sender_id := sender_id b;
     reachable_endpoints := sort_dedup (reachable_endpoints b);
     reachable_timesync_sources := sort_dedup (reachable_timesync_sources b);
     connections :=
       sort_dedup (List.filter (fun peer => negb (bool_decide (peer = sender_id b))) (connections b)) |}.

Definition normalize_topology_boards (boards : list TopologyBoardNode) : list TopologyBoardNode :=
  dedup_by_key sender_id (sort_by_key sender_id (map normalize_board boards)).

Definition empty_board (s : Str) : TopologyBoardNode :=
  {| sender_id := s; reachable_endpoints := []; reachable_timesync_sources := []; connections := [] |}.

Definition extend_board (b src : TopologyBoardNode) : TopologyBoardNode :=
  {| sender_id := sender_id b;
     reachable_endpoints := reachable_endpoints b ++ reachable_endpoints src;
     reachable_timesync_sources := reachable_timesync_sources b ++ reachable_timesync_sources src;
     connections := connections b ++ connections src |}.

(** [merged.entry(id).or_insert_with(..)] and the three [extend]s. *)
Definition merge_board (m : list (Str * TopologyBoardNode)) (b : TopologyBoardNode)
    : list (Str * TopologyBoardNode) :=
  let entry := default (empty_board (sender_id b)) (bt_get (sender_id b) m) in
  bt_insert (sender_id b) (extend_board entry b) m.

Definition merge_topology_boards (dst src : list TopologyBoardNode) : list TopologyBoardNode :=
  let merged := fold_left (fun m b => bt_insert (sender_id b) b m) dst [] in
  let merged := fold_left merge_board src merged in
  normalize_topology_boards (bt_values merged).

Definition summarize_topology_boards (boards : list TopologyBoardNode) : list DataEndpoint * list Str :=
  (sort_dedup (concat (map reachable_endpoints boards)),
   sort_dedup (concat (map reachable_timesync_sources boards))).

(** ** Codecs *)

(** [u32::try_from(bytes.len())], the length, the bytes. *)
Definition encode_string (label : string) (s : Str) : TelemetryResult (list byte) :=
  if u32_max <? blen s then Err (Serialize label) else Ok (write_u32_le (blen s) ++ s).

(** [len() as u32] truncates. *)
Definition encode_count {A} (l : list A) : list byte := write_u32_le (wrap 32 (Z.of_nat (length l))).

Definition encode_strings (label : string) (l : list Str) : TelemetryResult (list byte) :=
  parts ← mapM_res (encode_string label) l; Ok (encode_count l ++ concat parts).

(** The length check before each field, then the field. *)
Definition read_count (label : string) (r : ByteReader) : TelemetryResult (Z * ByteReader) :=
  if remaining r <? 4 then Err (Deserialize label) else read_u32_le r.

Definition read_string (len_label bytes_label utf8_label : string) (r : ByteReader)
    : TelemetryResult (Str * ByteReader) :=
  '(len, r) ← read_count len_label r;
  if remaining r <? len then Err (Deserialize bytes_label)
  else
    '(raw, r) ← read_bytes r len;
    s ← from_utf8 (Deserialize utf8_label) raw;
    Ok (s, r).

Definition decode_string (label : string) : ByteReader -> TelemetryResult (Str * ByteReader) :=
  read_string label label label.

(** [for _ in 0..count]. *)
Fixpoint read_many {A} (f : ByteReader -> TelemetryResult (A * ByteReader)) (count : nat)
    (r : ByteReader) : TelemetryResult (list A * ByteReader) :=
  match count with
  | O => Ok ([], r)
  | S count => '(a, r) ← f r; '(l, r) ← read_many f count r; Ok (a :: l, r)
  end.

Definition nonempty (l : list Str) : list Str := List.filter (fun s => negb (bool_decide (s = []))) l.

Definition read_list {A} (label : string) (f : ByteReader -> TelemetryResult (A * ByteReader))
    (r : ByteReader) : TelemetryResult (list A * ByteReader) :=
  '(count, r) ← read_count label r; read_many f (Z.to_nat count) r.

Section Ops.
Context `{Config} `{Schema}.

Definition is_discovery_endpoint (ep : DataEndpoint) : bool := ep =? EpDiscovery.

Definition is_discovery_type (t : DataType) : bool :=
  (t =? DiscoveryAnnounce) || (t =? DiscoveryTimeSyncSources) || (t =? DiscoveryTopology).

Definition drop_discovery (eps : list DataEndpoint) : list DataEndpoint :=
  List.filter (fun ep => negb (is_discovery_endpoint ep)) eps.

Definition build_discovery_announce (s : Str) (timestamp_ms : Z) (eps : list DataEndpoint)
    : TelemetryResult Packet :=
  packet_new DiscoveryAnnounce [EpDiscovery] s timestamp_ms (encode_slice_le PU32 eps).

(** One [chunks_exact(4)] chunk. *)
Definition decode_endpoint_chunk (chunk : list byte) : TelemetryResult DataEndpoint :=
  raw ← from_le PU32 chunk;
  ok_or (Deserialize "bad discovery endpoint") (endpoint_try_from_u32 raw).

Definition decode_discovery_payload (l : list byte) : TelemetryResult (list DataEndpoint) :=
  if negb (blen l mod 4 =? 0) then Err (Deserialize "discovery payload width")
  else
    eps ← mapM_res decode_endpoint_chunk (chunks_exact (Z.to_nat (blen l / 4)) 4 l);
    Ok (sort_dedup (drop_discovery eps)).

Definition decode_discovery_announce (p : Packet) : TelemetryResult (list DataEndpoint) :=
  if negb (ty p =? DiscoveryAnnounce) then Err InvalidType
  else bytes ← payload_bytes p; decode_discovery_payload bytes.

Definition build_discovery_timesync_sources (s : Str) (timestamp_ms : Z) (srcs : list Str)
    : TelemetryResult Packet :=
  data ← encode_strings "discovery source id too long" (sort_dedup srcs);
  packet_new DiscoveryTimeSyncSources [EpDiscovery] s timestamp_ms data.

(** The cursor must end at the end. *)
Definition at_end (label : string) (r : ByteReader) : TelemetryResult unit :=
  if negb (off r =? blen (buf r)) then Err (Deserialize label) else Ok tt.

Definition decode_discovery_timesync_sources_payload (l : list byte) : TelemetryResult (list Str) :=
  '(out, r) ← read_list "discovery timesync source count"
    (read_string "discovery timesync source len" "discovery timesync source bytes"
       "discovery timesync source utf8") (reader_new l);
  _ ← at_end "discovery timesync trailing bytes" r;
  Ok (sort_dedup (nonempty out)).

Definition decode_discovery_timesync_sources (p : Packet) : TelemetryResult (list Str) :=
  if negb (ty p =? DiscoveryTimeSyncSources) then Err InvalidType
  else bytes ← payload_bytes p; decode_discovery_timesync_sources_payload bytes.

Definition encode_board (b : TopologyBoardNode) : TelemetryResult (list byte) :=
  id_bytes ← encode_string "discovery topology sender id too long" (sender_id b);
  srcs ← encode_strings "discovery topology source id too long" (reachable_timesync_sources b);
  conns ← encode_strings "discovery topology connection id too long" (connections b);
  Ok (id_bytes ++ (encode_count (reachable_endpoints b) ++ encode_slice_le PU32 (reachable_endpoints b))
      ++ srcs ++ conns).

Definition build_discovery_topology (s : Str) (timestamp_ms : Z) (boards : list TopologyBoardNode)
    : TelemetryResult Packet :=
  let normalized := normalize_topology_boards boards in
  parts ← mapM_res encode_board normalized;
  packet_new DiscoveryTopology [EpDiscovery] s timestamp_ms (encode_count normalized ++ concat parts).

Definition read_endpoint (r : ByteReader) : TelemetryResult (DataEndpoint * ByteReader) :=
  '(raw, r) ← read_count "discovery topology endpoint" r;
  ep ← ok_or (Deserialize "bad discovery endpoint") (endpoint_try_from_u32 raw);
  Ok (ep, r).

Definition read_board (r : ByteReader) : TelemetryResult (TopologyBoardNode * ByteReader) :=
  '(s, r) ← decode_string "discovery topology sender id" r;
  '(eps, r) ← read_list "discovery topology endpoint count" read_endpoint r;
  '(srcs, r) ← read_list "discovery topology timesync source count"
    (decode_string "discovery topology timesync source") r;
  '(conns, r) ← read_list "discovery topology connection count"
    (decode_string "discovery topology connection") r;
  Ok ({| sender_id := s; reachable_endpoints := drop_discovery eps;
         reachable_timesync_sources := nonempty srcs; connections := nonempty conns |}, r).

Definition decode_discovery_topology_payload (l : list byte) : TelemetryResult (list TopologyBoardNode) :=
  '(boards, r) ← read_list "discovery topology board count" read_board (reader_new l);
  _ ← at_end "discovery topology trailing bytes" r;
  Ok (normalize_topology_boards boards).

Definition decode_discovery_topology (p : Packet) : TelemetryResult (list TopologyBoardNode) :=
  if negb (ty p =? DiscoveryTopology) then Err InvalidType
  else bytes ← payload_bytes p; decode_discovery_topology_payload bytes.
End Ops.

(** ** Normal forms *)

Definition board_normal (b : TopologyBoardNode) : Prop :=
  strictly_sorted (reachable_endpoints b) /\ strictly_sorted (reachable_timesync_sources b)
  /\ strictly_sorted (connections b) /\ sender_id b ∉ connections b.

Definition topology_normal (l : list TopologyBoardNode) : Prop :=
  StronglySorted (key_lt sender_id) l /\ Forall board_normal l.

Lemma elem_of_List_filter {A} (f : A -> bool) x l : x ∈ List.filter f l <-> x ∈ l /\ f x = true.
Proof. by rewrite !list_elem_of_In, List.filter_In. Qed.

Lemma List_filter_sorted {A} (R : A -> A -> Prop) (f : A -> bool) l :
  StronglySorted R l -> StronglySorted R (List.filter f l).
Proof.
  induction 1 as [|x l Hs IH Hx]; cbn; [constructor|]. destruct (f x); [|done]. constructor; [done|].
  rewrite Forall_forall in *. intros y [Hy _]%elem_of_List_filter. auto.
Qed.

Lemma normalize_board_normal b : board_normal (normalize_board b).
Proof.
  unfold board_normal, normalize_board. cbn. split_and!; try apply sort_dedup_sorted.
  rewrite elem_of_sort_dedup, elem_of_List_filter. intros [_ Hne].
  by rewrite bool_decide_true in Hne.
Qed.

Lemma List_filter_id {A} (f : A -> bool) l : (forall x, x ∈ l -> f x = true) -> List.filter f l = l.
Proof.
  induction l as [|x l IH]; intros Hf; cbn; [done|]. rewrite Hf by set_solver. f_equal. apply IH. set_solver.
Qed.

Lemma normalize_board_id b : board_normal b -> normalize_board b = b.
Proof.
  intros (H1 & H2 & H3 & H4). unfold normalize_board.
  rewrite (List_filter_id _ (connections b)).
  - rewrite !sort_dedup_id by done. by destruct b.
  - intros x Hx. apply negb_true_iff, bool_decide_false. by intros ->.
Qed.

Lemma key_sorted_map (f : TopologyBoardNode -> TopologyBoardNode) l :
  (forall b, sender_id (f b) = sender_id b) ->
  StronglySorted (key_lt sender_id) l -> StronglySorted (key_lt sender_id) (map f l).
Proof.
  intros Hf. induction 1 as [|b l Hs IH Hb]; cbn; [constructor|]. constructor; [done|].
  apply Forall_map. eapply Forall_impl; [exact Hb|]. intros x Hx. unfold key_lt in *. cbn. by rewrite !Hf.
Qed.

Lemma normalize_normal l : topology_normal (normalize_topology_boards l).
Proof.
  unfold normalize_topology_boards. split.
  - apply dedup_sorted, sort_sorted.
  - apply Forall_forall. intros b Hb. apply dedup_subset, elem_of_sort, list_elem_of_fmap in Hb as (b' & -> & _).
    apply normalize_board_normal.
Qed.

Lemma normalize_id l : topology_normal l -> normalize_topology_boards l = l.
Proof.
  intros [Hs Hb]. unfold normalize_topology_boards.
  assert (map normalize_board l = l) as ->.
  { clear Hs. induction Hb as [|b l Hb Hl IH]; cbn; [done|]. by rewrite normalize_board_id, IH. }
  rewrite sort_id by done. by apply dedup_id.
Qed.

(** What the wire carries of a board. *)
Section Codec.
Context `{Config} `{Schema}.

Definition strip_board (b : TopologyBoardNode) : TopologyBoardNode :=
  {| sender_id := sender_id b; reachable_endpoints := drop_discovery (reachable_endpoints b);
     reachable_timesync_sources := nonempty (reachable_timesync_sources b);
     connections := nonempty (connections b) |}.

Lemma strip_normal l : topology_normal l -> topology_normal (map strip_board l).
Proof.
  intros [Hs Hb]. split; [by apply key_sorted_map|].
  apply Forall_map. eapply Forall_impl; [exact Hb|]. intros b (H1 & H2 & H3 & H4).
  unfold board_normal, strip_board. cbn. split_and!; try by apply List_filter_sorted.
  unfold nonempty. rewrite elem_of_List_filter. tauto.
Qed.

(** *** Strings, counts and lists *)

Definition str_bytes (s : Str) : list byte := write_u32_le (blen s) ++ s.

Definition str_ok (s : Str) : Prop := blen s <= u32_max /\ utf8_valid s = true.

Lemma read_count_at label pre n rest :
  is_u32 n -> buf_ok (pre ++ write_u32_le n ++ rest) ->
  read_count label (at_ pre (write_u32_le n ++ rest)) = Ok (n, at_ (pre ++ write_u32_le n) rest).
Proof.
  intros Hn Hb. unfold read_count. rewrite remaining_at, blen_app. unfold write_u32_le at 1.
  rewrite blen_le_bytes. pose proof (blen_nonneg rest). zcase. by apply read_u32_le_at.
Qed.

Lemma read_string_at l1 l2 l3 pre s rest :
  str_ok s -> buf_ok (pre ++ str_bytes s ++ rest) ->
  read_string l1 l2 l3 (at_ pre (str_bytes s ++ rest)) = Ok (s, at_ (pre ++ str_bytes s) rest).
Proof.
  unfold str_bytes. intros [Hl Hu] Hb. rewrite <- app_assoc in *. unfold read_string.
  pose proof (blen_nonneg s). pose proof (blen_nonneg rest).
  rewrite read_count_at by (done || (unfold is_u32; zlia)). cbn [res_bind mbind res_mbind].
  rewrite remaining_at, blen_app. zcase.
  rewrite read_bytes_at by (done || by rewrite <- app_assoc). cbn [res_bind mbind res_mbind].
  unfold from_utf8. rewrite Hu. cbn. by rewrite <- app_assoc.
Qed.

Lemma read_many_at {A B} (f : ByteReader -> TelemetryResult (B * ByteReader)) (enc : A -> list byte)
    (g : A -> B) l pre rest :
  (forall a pre rest, a ∈ l -> buf_ok (pre ++ enc a ++ rest) ->
     f (at_ pre (enc a ++ rest)) = Ok (g a, at_ (pre ++ enc a) rest)) ->
  buf_ok (pre ++ concat (map enc l) ++ rest) ->
  read_many f (length l) (at_ pre (concat (map enc l) ++ rest))
  = Ok (map g l, at_ (pre ++ concat (map enc l)) rest).
Proof.
  revert pre. induction l as [|a l IH]; intros pre Hf Hb; cbn [length read_many map concat app].
  { by rewrite app_nil_r. }
  cbn [map concat] in Hb. rewrite <- app_assoc in Hb |- *.
  rewrite Hf by (set_solver || done). cbn [res_bind mbind res_mbind].
  rewrite IH; [|intros; apply Hf; [set_solver|done]|by rewrite <- app_assoc].
  cbn [res_bind mbind res_mbind]. by rewrite <- app_assoc.
Qed.

Lemma read_list_at {A B} label (f : ByteReader -> TelemetryResult (B * ByteReader)) (enc : A -> list byte)
    (g : A -> B) l pre rest :
  Z.of_nat (length l) <= u32_max ->
  (forall a pre rest, a ∈ l -> buf_ok (pre ++ enc a ++ rest) ->
     f (at_ pre (enc a ++ rest)) = Ok (g a, at_ (pre ++ enc a) rest)) ->
  buf_ok (pre ++ (encode_count l ++ concat (map enc l)) ++ rest) ->
  read_list label f (at_ pre ((encode_count l ++ concat (map enc l)) ++ rest))
  = Ok (map g l, at_ (pre ++ encode_count l ++ concat (map enc l)) rest).
Proof.
  intros Hl Hf Hb. unfold read_list, encode_count in *. rewrite wrap_small in * by zlia.
  rewrite <- app_assoc in *. rewrite read_count_at by (done || (unfold is_u32; zlia)).
  cbn [res_bind mbind res_mbind]. rewrite Nat2Z.id.
  rewrite (read_many_at f enc g) by (done || by rewrite <- app_assoc). by rewrite <- app_assoc.
Qed.

Lemma encode_strings_ok label l :
  Forall str_ok l -> encode_strings label l = Ok (encode_count l ++ concat (map str_bytes l)).
Proof.
  intros Hl. unfold encode_strings.
  rewrite (mapM_res_ok _ str_bytes); [done|]. intros s Hin. rewrite Forall_forall in Hl.
  destruct (Hl s Hin) as [Hs _]. unfold encode_string.
  by destruct (Z.ltb_spec u32_max (blen s)); [lia|].
Qed.

Lemma map_id_eq {A} (l : list A) : map (fun x => x) l = l.
Proof. induction l as [|x l IH]; cbn; [done|]. by rewrite IH. Qed.

Lemma read_strings_at label l1 l2 l3 l pre rest :
  Z.of_nat (length l) <= u32_max -> Forall str_ok l ->
  buf_ok (pre ++ (encode_count l ++ concat (map str_bytes l)) ++ rest) ->
  read_list label (read_string l1 l2 l3) (at_ pre ((encode_count l ++ concat (map str_bytes l)) ++ rest))
  = Ok (l, at_ (pre ++ encode_count l ++ concat (map str_bytes l)) rest).
Proof.
  intros Hl Hs Hb. rewrite (read_list_at label _ str_bytes (fun s => s)); [by rewrite map_id_eq|done| |done].
  intros s pre' rest' Hin Hb'. rewrite Forall_forall in Hs. apply read_string_at; auto.
Qed.

Lemma at_end_at label l : at_end label (at_ l []) = Ok tt.
Proof. unfold at_end, at_. cbn. by rewrite app_nil_r, Z.eqb_refl. Qed.

Lemma discovery_ep_bytes eps :
  encode_slice_le PU32 eps = concat (map (write_le PU32) eps).
Proof. done. Qed.

Lemma endpoint_from_u32 ep : valid_ep ep -> endpoint_try_from_u32 ep = Some ep.
Proof. unfold valid_ep, endpoint_try_from_u32. intros. by zcase. Qed.

Context (Hschema : SchemaOk _).

Lemma valid_ep_u32 ep : valid_ep ep -> is_u32 ep.
Proof. pose proof (so_eps _ Hschema). unfold valid_ep, is_u32. zlia. Qed.

Lemma read_endpoint_at ep pre rest :
  valid_ep ep -> buf_ok (pre ++ write_le PU32 ep ++ rest) ->
  read_endpoint (at_ pre (write_le PU32 ep ++ rest)) = Ok (ep, at_ (pre ++ write_le PU32 ep) rest).
Proof.
  intros Hep Hb. unfold read_endpoint. change (write_le PU32 ep) with (write_u32_le ep) in *.
  rewrite read_count_at by (done || by apply valid_ep_u32). cbn [res_bind mbind res_mbind].
  by rewrite endpoint_from_u32.
Qed.

(** *** Boards *)

Record board_ok (b : TopologyBoardNode) : Prop := {
  bo_sender : str_ok (sender_id b);
  bo_eps : Forall valid_ep (reachable_endpoints b) /\ Z.of_nat (length (reachable_endpoints b)) <= u32_max;
  bo_srcs : Forall str_ok (reachable_timesync_sources b)
            /\ Z.of_nat (length (reachable_timesync_sources b)) <= u32_max;
  bo_conns : Forall str_ok (connections b) /\ Z.of_nat (length (connections b)) <= u32_max
}.

Definition strs_bytes (l : list Str) : list byte := encode_count l ++ concat (map str_bytes l).

Definition board_bytes (b : TopologyBoardNode) : list byte :=
  str_bytes (sender_id b)
  ++ (encode_count (reachable_endpoints b) ++ concat (map (write_le PU32) (reachable_endpoints b)))
  ++ strs_bytes (reachable_timesync_sources b) ++ strs_bytes (connections b).

Lemma encode_board_ok b : board_ok b -> encode_board b = Ok (board_bytes b).
Proof.
  intros [[Hs _] _ [Hsr _] [Hc _]]. unfold encode_board, encode_string.
  destruct (Z.ltb_spec u32_max (blen (sender_id b))); [lia|]. cbn [res_bind mbind res_mbind].
  by rewrite !encode_strings_ok.
Qed.

Lemma read_board_at b pre rest :
  board_ok b -> buf_ok (pre ++ board_bytes b ++ rest) ->
  read_board (at_ pre (board_bytes b ++ rest)) = Ok (strip_board b, at_ (pre ++ board_bytes b) rest).
Proof.
  intros [Hs [He Hel] [Hsr Hsl] [Hc Hcl]] Hb. unfold read_board, decode_string, board_bytes in *.
  rewrite <- !app_assoc in *. rewrite read_string_at by done. cbn [res_bind mbind res_mbind].
  rewrite (app_assoc (encode_count (reachable_endpoints b))) in *.
  rewrite (read_list_at _ _ (write_le PU32) (fun e => e)); [|done| |by rewrite <- app_assoc].
  2: { intros e pre' rest' Hin Hb'. rewrite Forall_forall in He. apply read_endpoint_at; auto. }
  cbn [res_bind mbind res_mbind]. rewrite map_id_eq. unfold strs_bytes in *.
  rewrite read_strings_at; [|done|done|by rewrite <- !app_assoc in *]. cbn [res_bind mbind res_mbind].
  rewrite read_strings_at; [|done|done|by rewrite <- !app_assoc in *]. cbn [res_bind mbind res_mbind].
  by rewrite <- !app_assoc.
Qed.
End Codec.

(** *** Payloads and packets *)

Section Packets.
Context `{Config} `{Schema} (Hschema : SchemaOk _) (Hstack : STACK_PAYLOAD_SIZE < 256).

Lemma discovery_meta (i : nat) :
  (3 <= i <= 5)%nat ->
  exists name dt, element (message_meta (n_tys + Z.of_nat i)) = Dynamic dt Data
    /\ (i = 3%nat /\ dt = UInt32 \/ dt = UInt8) /\ builtin_types !! i = Some (mk_meta name (Dynamic dt Data) EpDiscovery RelNone 240).
Proof.
  intros Hi. unfold message_meta.
  assert (i = 3 \/ i = 4 \/ i = 5)%nat as [-> | [-> | ->]] by lia;
    (erewrite builtin_type_meta by reflexivity); do 2 eexists; cbn; split_and!; eauto.
Qed.

Lemma discovery_packet (i : nat) s ts data :
  (3 <= i <= 5)%nat -> (i = 3%nat -> blen data mod 4 = 0) ->
  exists p, packet_new (n_tys + Z.of_nat i) [EpDiscovery] s ts data = Ok p
    /\ ty p = n_tys + Z.of_nat i /\ sender p = s /\ data_size p = blen data /\ payload_bytes p = Ok data.
Proof.
  intros Hi Hw. destruct (discovery_meta i Hi) as (name & dt & He & Hdt & _).
  assert (content_ok (n_tys + Z.of_nat i) data) as Hc.
  { unfold content_ok. rewrite He. destruct Hdt as [[Hi3 ->] | ->]; [exact (Hw Hi3)|]. cbn. apply Z.mod_1_r. }
  destruct (packet_new_cases (n_tys + Z.of_nat i) [EpDiscovery] s ts data)
    as [[? _]|[(_ & Hnc & _)|(_ & _ & Hp)]]; [done|done|].
  destruct (std_new_total data Hstack) as (q & Hq & Hh). rewrite Hq in Hp. cbn in Hp.
  eexists. split; [exact Hp|]. do 3 (split; [done|]). apply Hh.
Qed.

Lemma decode_endpoint_chunk_at e : valid_ep e -> decode_endpoint_chunk (write_le PU32 e) = Ok e.
Proof.
  intros He. unfold decode_endpoint_chunk.
  rewrite from_le_write_le by (by apply valid_ep_u32). cbn [res_bind mbind res_mbind].
  by rewrite endpoint_from_u32.
Qed.

Lemma decode_announce_payload eps :
  Forall valid_ep eps ->
  decode_discovery_payload (encode_slice_le PU32 eps) = Ok (sort_dedup (drop_discovery eps)).
Proof.
  intros He. unfold decode_discovery_payload. rewrite blen_encode. cbn [WIDTH].
  rewrite Z.mod_mul, Z.div_mul, Nat2Z.id by lia. rewrite Z.eqb_refl. cbn [negb].
  match goal with |- context [mapM_res ?f ?l] => assert (mapM_res f l = Ok eps) as ->; [|done] end.
  unfold encode_slice_le. induction He as [|e eps Hv Hvs IH]; [done|]. cbn [length chunks_exact map concat].
  rewrite take_app_length', drop_app_length' by (symmetry; apply (length_write_le PU32)).
  cbn [mapM_res]. rewrite decode_endpoint_chunk_at by done. cbn [res_bind mbind res_mbind]. by rewrite IH.
Qed.

Lemma encode_strings_fail label l :
  Exists (fun s => u32_max < blen s) l -> encode_strings label l = Err (Serialize label).
Proof.
  intros Hl. unfold encode_strings.
  assert (mapM_res (encode_string label) l = Err (Serialize label)) as ->; [|done].
  induction Hl as [s l Hs|s l Hl IH]; cbn [mapM_res].
  - assert (encode_string label s = Err (Serialize label)) as ->; [|done].
    unfold encode_string. destruct (Z.ltb_spec u32_max (blen s)); [done|lia].
  - assert (encode_string label s = Err (Serialize label) \/ exists b, encode_string label s = Ok b)
      as [-> | [b ->]]; [|done|cbn [res_bind mbind res_mbind]; by rewrite IH].
    unfold encode_string. destruct (u32_max <? blen s); eauto.
Qed.

Lemma Forall_sort_dedup {A} `{Ord A} (P : A -> Prop) l : Forall P l -> Forall P (sort_dedup l).
Proof. rewrite !Forall_forall. intros Hl x Hx. rewrite elem_of_sort_dedup in Hx. auto. Qed.

(** Endpoint announces and time-sync source lists round trip:
    the receiver obtains the sorted, duplicate-free list of what was announced,
    without the discovery endpoint and without empty names.  Building fails
    only for a name of 4 GiB or more. *)
Theorem discovery_lists_roundtrip s ts eps srcs :
  Forall valid_ep eps -> Forall str_ok srcs -> Z.of_nat (length srcs) <= u32_max ->
  (exists p, build_discovery_announce s ts eps = Ok p
     /\ decode_discovery_announce p = Ok (sort_dedup (drop_discovery eps)))
  /\ (exists p, build_discovery_timesync_sources s ts srcs = Ok p
        /\ (data_size p <= isize_max ->
            decode_discovery_timesync_sources p = Ok (sort_dedup (nonempty srcs))))
  /\ (forall srcs', Exists (fun s => u32_max < blen s) srcs' ->
        build_discovery_timesync_sources s ts srcs' = Err (Serialize "discovery source id too long")).
Proof.
  intros He Hs Hl. split; [|split].
  - destruct (discovery_packet 3 s ts (encode_slice_le PU32 eps)) as (p & Hp & Ht & _ & _ & Hd); [lia| |].
    { intros _. rewrite blen_encode. apply Z.mod_mul. lia. }
    exists p. split; [exact Hp|]. unfold decode_discovery_announce, DiscoveryAnnounce. rewrite Ht, Z.eqb_refl, Hd.
    cbn. by apply decode_announce_payload.
  - unfold build_discovery_timesync_sources. rewrite encode_strings_ok by (by apply Forall_sort_dedup).
    cbn [res_bind mbind res_mbind].
    destruct (discovery_packet 4 s ts (strs_bytes (sort_dedup srcs))) as (p & Hp & Ht & _ & Hn & Hd); [lia|lia|].
    exists p. split; [exact Hp|]. rewrite Hn. intros Hb.
    unfold decode_discovery_timesync_sources, DiscoveryTimeSyncSources. rewrite Ht, Z.eqb_refl, Hd.
    cbn [negb res_bind mbind res_mbind]. unfold decode_discovery_timesync_sources_payload.
    rewrite <- (app_nil_r (strs_bytes _)) at 1. change (reader_new ?x) with (at_ [] x).
    unfold strs_bytes in *. rewrite read_strings_at; [| |by apply Forall_sort_dedup|].
    + cbn [res_bind mbind res_mbind app]. rewrite at_end_at. cbn [res_bind mbind res_mbind]. f_equal.
      apply sort_dedup_ext. intros x. unfold nonempty. by rewrite !elem_of_List_filter, elem_of_sort_dedup.
    + pose proof (sort_dedup_sub_length srcs). lia.
    + unfold buf_ok. by rewrite app_nil_l, app_nil_r.
  - intros srcs' Hx. unfold build_discovery_timesync_sources. rewrite encode_strings_fail; [done|].
    rewrite Exists_exists in *. destruct Hx as (x & Hx & Hx'). exists x. by rewrite elem_of_sort_dedup.
Qed.

(** Normalising only drops entries. *)
Lemma normalize_board_ok b : board_ok b -> board_ok (normalize_board b).
Proof.
  intros [Hs [He Hel] [Hsr Hsl] [Hc Hcl]].
  pose proof (sort_dedup_sub_length (reachable_endpoints b)).
  pose proof (sort_dedup_sub_length (reachable_timesync_sources b)).
  split; [done|split|split|]; cbn [normalize_board reachable_endpoints reachable_timesync_sources connections];
    [by apply Forall_sort_dedup|lia|by apply Forall_sort_dedup|lia|].
  set (keep := List.filter _ _). pose proof (sort_dedup_sub_length keep).
  assert (length keep <= length (connections b))%nat by apply List.filter_length_le. split; [|lia].
  apply Forall_sort_dedup. rewrite Forall_forall in *. intros x [Hx _]%elem_of_List_filter. auto.
Qed.

Lemma normalize_boards_ok l : Forall board_ok l -> Forall board_ok (normalize_topology_boards l).
Proof.
  rewrite !Forall_forall. unfold normalize_topology_boards. intros Hl b Hb.
  apply dedup_subset, elem_of_sort, list_elem_of_fmap in Hb as (b' & -> & Hb'). by apply normalize_board_ok, Hl.
Qed.

Lemma length_normalize l : (length (normalize_topology_boards l) <= length l)%nat.
Proof.
  unfold normalize_topology_boards.
  etransitivity; [apply dedup_sub_length|]. by rewrite length_sort, length_map.
Qed.

(** A topology announcement round trips: the receiver obtains
    the sender's boards in normal form (ordered by sender, each board's lists
    sorted and duplicate-free, without a link to itself), less the discovery
    endpoint and empty names. *)
Theorem discovery_topology_roundtrip s ts boards :
  Forall board_ok boards -> Z.of_nat (length boards) <= u32_max ->
  exists p, build_discovery_topology s ts boards = Ok p
    /\ topology_normal (map strip_board (normalize_topology_boards boards))
    /\ (data_size p <= isize_max ->
        decode_discovery_topology p = Ok (map strip_board (normalize_topology_boards boards))).
Proof.
  intros Hok Hl. apply normalize_boards_ok in Hok. pose proof (length_normalize boards) as Hn.
  pose proof (strip_normal _ (normalize_normal boards)) as Hnorm.
  unfold build_discovery_topology. set (nb := normalize_topology_boards boards) in *.
  rewrite (mapM_res_ok _ board_bytes).
  2: { intros b Hb. rewrite Forall_forall in Hok. apply encode_board_ok. auto. }
  cbn [res_bind mbind res_mbind].
  destruct (discovery_packet 5 s ts (encode_count nb ++ concat (map board_bytes nb)))
    as (p & Hp & Ht & _ & Hsz & Hd); [lia|lia|].
  exists p. split; [exact Hp|]. split; [done|]. rewrite Hsz. intros Hb.
  unfold decode_discovery_topology, DiscoveryTopology. rewrite Ht, Z.eqb_refl, Hd.
  cbn [negb res_bind mbind res_mbind]. unfold decode_discovery_topology_payload.
  rewrite <- (app_nil_r (encode_count nb ++ _)) at 1. change (reader_new ?x) with (at_ [] x).
  rewrite (read_list_at _ read_board board_bytes strip_board); [|lia| |].
  - cbn [res_bind mbind res_mbind app]. rewrite at_end_at. cbn [res_bind mbind res_mbind].
    by rewrite normalize_id.
  - intros b pre rest Hin Hb'. rewrite Forall_forall in Hok. apply read_board_at; auto.
  - unfold buf_ok. by rewrite app_nil_l, app_nil_r.
Qed.
End Packets.

(** ** Merging *)

(** [l] lists a board of sender [s]; field [F] of such a board contains [x]. *)
Definition listed (l : list TopologyBoardNode) (s : Str) : Prop :=
  exists b, b ∈ l /\ sender_id b = s.

Definition knows {X} (F : TopologyBoardNode -> list X) (l : list TopologyBoardNode) (s : Str) (x : X) : Prop :=
  exists b, b ∈ l /\ sender_id b = s /\ x ∈ F b.

(** The fields that merging extends. *)
Class Extended {X} (F : TopologyBoardNode -> list X) : Prop := {
  extended_empty s : F (empty_board s) = [];
  extended_app a b : F (extend_board a b) = F a ++ F b
}.

#[export] Instance endpoints_extended : Extended reachable_endpoints.
Proof. done. Qed.
#[export] Instance sources_extended : Extended reachable_timesync_sources.
Proof. done. Qed.
#[export] Instance connections_extended : Extended connections.
Proof. done. Qed.

(** The map [merge_topology_boards] works on: each board under its sender. *)
Record boards_by_sender (m : list (Str * TopologyBoardNode)) : Prop := {
  bs_sorted : bt_sorted m;
  bs_key s b : (s, b) ∈ m -> sender_id b = s
}.

Lemma values_listed m s : boards_by_sender m -> listed (bt_values m) s <-> is_Some (bt_get s m).
Proof.
  intros [Hs Hk]. split.
  - intros (b & ([k b'] & -> & Hin)%list_elem_of_fmap & <-). cbn.
    rewrite (Hk _ _ Hin). exists b'. by apply bt_get_elem.
  - intros [b Hb%bt_get_elem]; [|done]. exists b. split; [|by apply Hk].
    apply list_elem_of_fmap. by exists (s, b).
Qed.

Lemma values_knows {X} (F : TopologyBoardNode -> list X) m s x :
  boards_by_sender m -> knows F (bt_values m) s x <-> exists b, bt_get s m = Some b /\ x ∈ F b.
Proof.
  intros [Hs Hk]. split.
  - intros (b & ([k b'] & -> & Hin)%list_elem_of_fmap & <- & Hx). cbn in *. exists b'.
    split; [|done]. rewrite (Hk _ _ Hin). by apply bt_get_elem.
  - intros (b & Hb%bt_get_elem & Hx); [|done]. exists b. split; [|split; [by apply Hk|done]].
    apply list_elem_of_fmap. by exists (s, b).
Qed.

Lemma insert_by_sender m b :
  boards_by_sender m -> boards_by_sender (bt_insert (sender_id b) b m).
Proof.
  intros [Hs Hk]. split; [by apply bt_insert_sorted|].
  intros s b' [[= -> ->]|Hin]%bt_insert_elem; [done|auto].
Qed.

Lemma collect_boards dst m :
  boards_by_sender m -> NoDup (map sender_id dst) -> (forall b, b ∈ dst -> bt_get (sender_id b) m = None) ->
  let m' := fold_left (fun m b => bt_insert (sender_id b) b m) dst m in
  boards_by_sender m'
  /\ forall s b, bt_get s m' = Some b <-> bt_get s m = Some b \/ (b ∈ dst /\ sender_id b = s).
Proof.
  revert m. induction dst as [|d dst IH]; intros m Hm Hnd Hfresh; cbn [fold_left].
  { split; [done|]. set_solver. }
  cbn [map] in Hnd. apply NoDup_cons in Hnd as [Hd Hnd].
  destruct (IH (bt_insert (sender_id d) d m)) as [H1 H2]; [by apply insert_by_sender|done| |].
  { intros b Hb. rewrite bt_get_insert_ne; [apply Hfresh; set_solver|].
    intros Heq. apply Hd. rewrite <- Heq. apply list_elem_of_fmap. by exists b. }
  split; [done|]. intros s b. rewrite H2, elem_of_cons.
  destruct (decide (s = sender_id d)) as [->|Hne].
  - rewrite bt_get_insert_eq, (Hfresh d) by set_solver. split; [|].
    + intros [[= ->]|?]; tauto.
    + intros [?|[[->|Hb] Heq]]; [done|by left|right; done].
  - rewrite bt_get_insert_ne by done. split; [tauto|]. intros [?|[[->|?] <-]]; tauto.
Qed.

Lemma merge_board_by_sender m b : boards_by_sender m -> boards_by_sender (merge_board m b).
Proof.
  intros [Hs Hk]. unfold merge_board. split; [by apply bt_insert_sorted|].
  intros s b' [[= -> ->]|Hin]%bt_insert_elem; [|auto]. cbn.
  destruct (bt_get (sender_id b) m) as [e|] eqn:E; cbn; [|done].
  apply bt_get_elem in E; [|done]. by apply Hk.
Qed.

Lemma merge_board_listed m b s :
  is_Some (bt_get s (merge_board m b)) <-> is_Some (bt_get s m) \/ sender_id b = s.
Proof.
  unfold merge_board. destruct (decide (s = sender_id b)) as [->|Hne].
  - rewrite bt_get_insert_eq. split; [tauto|]. intros _. by eexists.
  - rewrite bt_get_insert_ne by done. naive_solver.
Qed.

Lemma merge_board_knows {X} (F : TopologyBoardNode -> list X) `{Extended X F} m b s x :
  (exists e, bt_get s (merge_board m b) = Some e /\ x ∈ F e)
  <-> (exists e, bt_get s m = Some e /\ x ∈ F e) \/ (sender_id b = s /\ x ∈ F b).
Proof.
  unfold merge_board. destruct (decide (s = sender_id b)) as [->|Hne].
  - rewrite bt_get_insert_eq. destruct (bt_get (sender_id b) m) as [e|]; cbn.
    + setoid_rewrite (inj_iff Some). split.
      * intros (? & <- & Hx). rewrite extended_app in Hx. set_solver.
      * intros Hx. eexists. split; [done|]. rewrite extended_app. set_solver.
    + setoid_rewrite (inj_iff Some). split.
      * intros (? & <- & Hx). rewrite extended_app, extended_empty in Hx. by right.
      * intros [(? & ? & _)|[_ Hx]]; [done|]. eexists. split; [done|].
        by rewrite extended_app, extended_empty.
  - rewrite bt_get_insert_ne by done. naive_solver.
Qed.

Lemma merge_fold src m :
  boards_by_sender m ->
  let m' := fold_left merge_board src m in
  boards_by_sender m'
  /\ (forall s, is_Some (bt_get s m') <-> is_Some (bt_get s m) \/ listed src s)
  /\ (forall X (F : TopologyBoardNode -> list X) `{Extended X F} s x,
        (exists e, bt_get s m' = Some e /\ x ∈ F e)
        <-> (exists e, bt_get s m = Some e /\ x ∈ F e) \/ knows F src s x).
Proof.
  revert m. induction src as [|b src IH]; intros m Hm; cbn [fold_left].
  { split; [done|]. unfold listed, knows. set_solver. }
  destruct (IH (merge_board m b)) as (H1 & H2 & H3); [by apply merge_board_by_sender|].
  split; [done|]. split.
  - intros s. rewrite H2, merge_board_listed. unfold listed. set_solver.
  - intros X F HF s x. rewrite H3, merge_board_knows by done. unfold knows. set_solver.
Qed.

Lemma normal_nodup l : topology_normal l -> NoDup (map sender_id l).
Proof.
  intros [Hs _]. induction Hs as [|b l Hs IH Hb]; cbn; [constructor|]. apply NoDup_cons. split; [|done].
  intros (b' & Heq & Hin)%list_elem_of_fmap. rewrite Forall_forall in Hb. specialize (Hb _ Hin).
  unfold key_lt in Hb. rewrite Heq in Hb. by apply lt_irrefl in Hb.
Qed.

(** Distinct senders in order: normalising keeps every board. *)
Lemma normalize_sorted_boards l :
  StronglySorted (key_lt sender_id) l -> normalize_topology_boards l = map normalize_board l.
Proof.
  intros Hs. unfold normalize_topology_boards.
  assert (StronglySorted (key_lt sender_id) (map normalize_board l)) as Hs' by (by apply key_sorted_map).
  rewrite sort_id by done. by apply dedup_id.
Qed.

Lemma values_sorted m : boards_by_sender m -> StronglySorted (key_lt sender_id) (bt_values m).
Proof.
  intros [Hs Hk]. unfold bt_sorted, bt_values in *.
  induction Hs as [|[s b] m Hs IH Hb]; cbn; [constructor|]. constructor; [apply IH; set_solver|].
  apply Forall_map. rewrite Forall_forall in *. intros [s' b'] Hin. specialize (Hb _ Hin).
  unfold key_lt in *. cbn in *. rewrite (Hk s b), (Hk s' b') by set_solver. done.
Qed.

Lemma merge_views dst src :
  NoDup (map sender_id dst) ->
  let r := merge_topology_boards dst src in
  topology_normal r
  /\ (forall s, listed r s <-> listed dst s \/ listed src s)
  /\ (forall s e, knows reachable_endpoints r s e
        <-> knows reachable_endpoints dst s e \/ knows reachable_endpoints src s e)
  /\ (forall s x, knows reachable_timesync_sources r s x
        <-> knows reachable_timesync_sources dst s x \/ knows reachable_timesync_sources src s x)
  /\ (forall s x, knows connections r s x
        <-> x <> s /\ (knows connections dst s x \/ knows connections src s x)).
Proof.
  intros Hn. cbn zeta. split; [apply normalize_normal|]. unfold merge_topology_boards.
  destruct (collect_boards dst []) as [Hm Hg]; [split; [constructor|set_solver]|done|done|].
  set (m := fold_left _ dst []) in *.
  destruct (merge_fold src m Hm) as (Hm' & Hl & Hk). set (m' := fold_left merge_board src m) in *.
  rewrite normalize_sorted_boards by (by apply values_sorted).
  assert (forall s b, bt_get s m = Some b <-> b ∈ dst /\ sender_id b = s) as Hgm
    by (intros s b; rewrite Hg; cbn; naive_solver).
  assert (forall X (F : TopologyBoardNode -> list X) `{Extended X F} s x,
    knows F (bt_values m') s x <-> knows F dst s x \/ knows F src s x) as Hv.
  { intros X F HF s x. rewrite values_knows, Hk by done. unfold knows. setoid_rewrite Hgm. naive_solver. }
  assert (forall X (F : TopologyBoardNode -> list X) s x,
    knows F (map normalize_board (bt_values m')) s x
    <-> knows (fun b => F (normalize_board b)) (bt_values m') s x) as Hmap.
  { intros X F s x. unfold knows. split.
    - intros (b & (b' & -> & Hin)%list_elem_of_fmap & Hs & Hx). by exists b'.
    - intros (b & Hin & Hs & Hx). exists (normalize_board b). split; [|done]. apply list_elem_of_fmap. by exists b. }
  split; [|split; [|split]].
  - intros s. transitivity (listed (bt_values m') s).
    + unfold listed. split.
      * intros (b & (b' & -> & Hin)%list_elem_of_fmap & Hs). by exists b'.
      * intros (b & Hin & Hs). exists (normalize_board b). split; [|done]. apply list_elem_of_fmap. by exists b.
    + rewrite values_listed, Hl by done. unfold listed, is_Some. setoid_rewrite Hgm. naive_solver.
  - intros s e. rewrite Hmap, <- Hv by apply _. unfold knows. cbn. by setoid_rewrite elem_of_sort_dedup.
  - intros s e. rewrite Hmap, <- Hv by apply _. unfold knows. cbn. by setoid_rewrite elem_of_sort_dedup.
  - intros s x. rewrite Hmap, <- Hv by apply _. unfold knows. cbn.
    setoid_rewrite elem_of_sort_dedup. setoid_rewrite elem_of_List_filter. split.
    + intros (b & Hb & <- & Hx & Hne). apply negb_true_iff, bool_decide_eq_false in Hne. eauto.
    + intros (Hne & b & Hb & <- & Hx). exists b. do 3 (split; [done|]).
      by apply negb_true_iff, bool_decide_eq_false.
Qed.

(** A normal topology is determined by what it says of each sender. *)
Lemma topology_ext l k :
  topology_normal l -> topology_normal k ->
  (forall s, listed l s <-> listed k s) ->
  (forall s e, knows reachable_endpoints l s e <-> knows reachable_endpoints k s e) ->
  (forall s x, knows reachable_timesync_sources l s x <-> knows reachable_timesync_sources k s x) ->
  (forall s x, knows connections l s x <-> knows connections k s x) -> l = k.
Proof.
  assert (forall l X (F : TopologyBoardNode -> list X) b x, topology_normal l -> b ∈ l ->
    knows F l (sender_id b) x <-> x ∈ F b) as Huniq.
  { intros l0 X F b x Hn%normal_nodup Hb. unfold knows. split; [|by eauto].
    intros (b' & Hb' & Heq & Hx).
    assert (b' = b) as ->; [|done]. apply list_elem_of_lookup in Hb as [i Hi], Hb' as [j Hj].
    assert (j = i) as ->; [|congruence].
    apply (NoDup_lookup _ _ _ (sender_id b) Hn); rewrite list_lookup_fmap, ?Hi, ?Hj; cbn; congruence. }
  assert (forall l k, topology_normal l -> topology_normal k ->
    (forall s, listed l s <-> listed k s) ->
    (forall s e, knows reachable_endpoints l s e <-> knows reachable_endpoints k s e) ->
    (forall s x, knows reachable_timesync_sources l s x <-> knows reachable_timesync_sources k s x) ->
    (forall s x, knows connections l s x <-> knows connections k s x) -> forall b, b ∈ l -> b ∈ k) as Hincl.
  { intros l0 k0 Hnl Hnk Hl He Hs Hc b Hb.
    destruct (proj1 (Hl (sender_id b))) as (b' & Hb' & Heq); [by exists b|].
    assert (b = b') as ->; [|done].
    pose proof (proj1 (Forall_forall _ _) (proj2 Hnl) _ Hb) as (N1 & N2 & N3 & _).
    pose proof (proj1 (Forall_forall _ _) (proj2 Hnk) _ Hb') as (M1 & M2 & M3 & _).
    assert (reachable_endpoints b = reachable_endpoints b') as E1.
    { apply strictly_sorted_ext; [done..|]. intros x. by rewrite <- (Huniq l0), He, <- Heq, (Huniq k0). }
    assert (reachable_timesync_sources b = reachable_timesync_sources b') as E2.
    { apply strictly_sorted_ext; [done..|]. intros x. by rewrite <- (Huniq l0), Hs, <- Heq, (Huniq k0). }
    assert (connections b = connections b') as E3.
    { apply strictly_sorted_ext; [done..|]. intros x. by rewrite <- (Huniq l0), Hc, <- Heq, (Huniq k0). }
    destruct b, b'; cbn in *; congruence. }
  intros Hl Hk H1 H2 H3 H4. apply (key_sorted_ext sender_id); [apply Hl|apply Hk|].
  intros b. split; [by apply Hincl|]. apply Hincl; naive_solver.
Qed.

(** C36. Merging a view into a normal topology takes, for every
    sender, the union of what both sides say of it, drops links to itself, and
    yields a normal topology again. *)
Theorem merge_topology_correct dst src :
  topology_normal dst ->
  let r := merge_topology_boards dst src in
  topology_normal r
  /\ (forall s, listed r s <-> listed dst s \/ listed src s)
  /\ (forall s e, knows reachable_endpoints r s e
        <-> knows reachable_endpoints dst s e \/ knows reachable_endpoints src s e)
  /\ (forall s x, knows reachable_timesync_sources r s x
        <-> knows reachable_timesync_sources dst s x \/ knows reachable_timesync_sources src s x)
  /\ (forall s x, knows connections r s x
        <-> x <> s /\ (knows connections dst s x \/ knows connections src s x)).
Proof. intros Hn. apply merge_views. by apply normal_nodup. Qed.

Lemma knows_self l s : topology_normal l -> ~ knows connections l s s.
Proof.
  intros [_ Hb] (b & Hin & <- & Hx). rewrite Forall_forall in Hb.
  by destruct (Hb b Hin) as (_ & _ & _ & Hs).
Qed.

(** Views may be merged in any order and any number of times:
    on normal topologies merging is commutative, associative and idempotent. *)
Theorem merge_topology_semilattice a b c :
  topology_normal a -> topology_normal b -> topology_normal c ->
  merge_topology_boards a b = merge_topology_boards b a
  /\ merge_topology_boards (merge_topology_boards a b) c = merge_topology_boards a (merge_topology_boards b c)
  /\ merge_topology_boards a a = a.
Proof.
  intros Ha Hb Hc.
  destruct (merge_views a b (normal_nodup _ Ha)) as (Nab & Lab & Eab & Sab & Cab).
  destruct (merge_views b a (normal_nodup _ Hb)) as (Nba & Lba & Eba & Sba & Cba).
  destruct (merge_views b c (normal_nodup _ Hb)) as (Nbc & Lbc & Ebc & Sbc & Cbc).
  destruct (merge_views _ c (normal_nodup _ Nab)) as (N1 & L1 & E1 & S1 & C1).
  destruct (merge_views a (merge_topology_boards b c) (normal_nodup _ Ha)) as (N2 & L2 & E2 & S2 & C2).
  destruct (merge_views a a (normal_nodup _ Ha)) as (Naa & Laa & Eaa & Saa & Caa).
  split; [|split]; apply topology_ext; try done; intros s; try intros x.
  - rewrite Lab, Lba. tauto.
  - rewrite Eab, Eba. tauto.
  - rewrite Sab, Sba. tauto.
  - rewrite Cab, Cba. tauto.
  - rewrite L1, L2, Lab, Lbc. tauto.
  - rewrite E1, E2, Eab, Ebc. tauto.
  - rewrite S1, S2, Sab, Sbc. tauto.
  - rewrite C1, C2, Cab, Cbc. tauto.
  - rewrite Laa. tauto.
  - rewrite Eaa. tauto.
  - rewrite Saa. tauto.
  - rewrite Caa. split; [tauto|]. intros Hx. split; [|tauto]. intros ->. by apply (knows_self a s Ha).
Qed.

(** ** Arbitrary input *)

Section Safety.
Context `{Config} `{Schema}.

Lemma reads_guard {A} bad (P : A -> Prop) (g : ByteReader -> bool) e f :
  reads bad P f -> reads bad P (fun r => if g r then Err e else f r).
Proof. intros Hf pre rest Hb. destruct (g _); [done|]. by apply Hf. Qed.

Lemma read_count_reads bad label : reads bad is_u32 (read_count label).
Proof. apply reads_guard, read_u32_le_reads. Qed.

Lemma read_string_reads bad l1 l2 l3 : reads bad (fun s => utf8_valid s = true) (read_string l1 l2 l3).
Proof.
  unfold read_string. eapply reads_bind; [apply read_count_reads|]. cbn. intros n Hn.
  apply reads_guard. eapply reads_bind; [apply read_bytes_reads; unfold is_u32 in Hn; lia|]. cbn. intros raw _.
  apply reads_pure; [by intros ?%from_utf8_no_panic|]. intros s Hs. apply reads_ret.
  unfold from_utf8 in Hs. destruct (utf8_valid raw) eqn:E; [|done]. by injection Hs as <-.
Qed.

Lemma read_many_reads {A} bad (P : A -> Prop) f count :
  reads bad P f -> reads bad (Forall P) (read_many f count).
Proof.
  intros Hf. induction count as [|count IH]; cbn [read_many]; [by apply reads_ret|].
  eapply reads_bind; [exact Hf|]. cbn. intros a Ha. eapply reads_bind; [exact IH|]. cbn. intros l Hl.
  apply reads_ret. by constructor.
Qed.

Lemma read_list_reads {A} bad (P : A -> Prop) label f :
  reads bad P f -> reads bad (Forall P) (read_list label f).
Proof.
  intros Hf. unfold read_list. eapply reads_bind; [apply read_count_reads|]. cbn. intros n _.
  by apply read_many_reads.
Qed.

Lemma endpoint_valid raw ep : 0 <= raw -> endpoint_try_from_u32 raw = Some ep -> valid_ep ep.
Proof.
  unfold endpoint_try_from_u32, valid_ep. intros Hr. destruct (Z.ltb_spec MAX_VALUE_DATA_ENDPOINT raw); [done|].
  intros [= <-]. lia.
Qed.

Lemma read_endpoint_reads bad : reads bad valid_ep read_endpoint.
Proof.
  unfold read_endpoint. eapply reads_bind; [apply read_count_reads|]. cbn. intros raw Hr.
  apply reads_pure; [by destruct (endpoint_try_from_u32 raw)|]. intros ep Hep. apply reads_ret.
  destruct (endpoint_try_from_u32 raw) as [e|] eqn:E; [|done]. injection Hep as <-.
  apply (endpoint_valid raw); [unfold is_u32 in Hr; lia|done].
Qed.

Definition name_ok (s : Str) : Prop := s <> [] /\ utf8_valid s = true.
Definition announced_ep (e : DataEndpoint) : Prop := valid_ep e /\ e <> EpDiscovery.

(** What the decoders guarantee of a board. *)
Definition board_clean (b : TopologyBoardNode) : Prop :=
  utf8_valid (sender_id b) = true /\ Forall announced_ep (reachable_endpoints b)
  /\ Forall name_ok (reachable_timesync_sources b) /\ Forall name_ok (connections b).

Lemma nonempty_ok l : Forall (fun s => utf8_valid s = true) l -> Forall name_ok (nonempty l).
Proof.
  rewrite !Forall_forall. intros Hl s [Hs Hne]%elem_of_List_filter. split; [|auto].
  by apply negb_true_iff, bool_decide_eq_false in Hne.
Qed.

Lemma drop_discovery_ok l : Forall valid_ep l -> Forall announced_ep (drop_discovery l).
Proof.
  rewrite !Forall_forall. intros Hl s [Hs Hne]%elem_of_List_filter. split; [auto|].
  unfold is_discovery_endpoint in Hne. by apply negb_true_iff, Z.eqb_neq in Hne.
Qed.

Lemma read_board_reads bad : reads bad board_clean read_board.
Proof.
  unfold read_board. eapply reads_bind; [apply read_string_reads|]. cbn. intros s Hs.
  eapply reads_bind; [apply read_list_reads, read_endpoint_reads|]. cbn. intros eps He.
  eapply reads_bind; [apply read_list_reads, read_string_reads|]. cbn. intros srcs Hsr.
  eapply reads_bind; [apply read_list_reads, read_string_reads|]. cbn. intros conns Hc.
  apply reads_ret. split; [done|]. cbn.
  split; [by apply drop_discovery_ok|]. split; by apply nonempty_ok.
Qed.

Lemma normalize_clean b : board_clean b -> board_clean (normalize_board b).
Proof.
  intros (H1 & H2 & H3 & H4). split; [done|]. cbn.
  split; [by apply Forall_sort_dedup|]. split; [by apply Forall_sort_dedup|].
  apply Forall_sort_dedup. rewrite Forall_forall in *. intros x [Hx _]%elem_of_List_filter. auto.
Qed.

Lemma mapM_res_safe {A B} (P : B -> Prop) (f : A -> TelemetryResult B) l :
  (forall a, a ∈ l -> match f a with Ok b => P b | Err _ => True | Panic => False end) ->
  match mapM_res f l with Ok bs => Forall P bs | Err _ => True | Panic => False end.
Proof.
  induction l as [|a l IH]; intros Hf; [constructor|]. cbn [mapM_res].
  pose proof (Hf a ltac:(set_solver)) as Ha. destruct (f a); cbn [res_bind mbind res_mbind]; [|done|done].
  specialize (IH ltac:(intros; apply Hf; set_solver)).
  destruct (mapM_res f l); cbn [res_bind mbind res_mbind]; [by constructor|done|done].
Qed.

Lemma chunks_width count width l c :
  (count * width <= length l)%nat -> c ∈ chunks_exact count width l -> length c = width.
Proof.
  revert l. induction count as [|count IH]; intros l Hl; cbn [chunks_exact]; [by intros ?%elem_of_nil|].
  intros [->|Hin]%elem_of_cons; [rewrite length_take; lia|].
  apply (IH (drop width l)); [rewrite length_drop; lia|done].
Qed.

Lemma decode_chunk_safe c :
  length c = 4%nat ->
  match decode_endpoint_chunk c with Ok e => valid_ep e | Err _ => True | Panic => False end.
Proof.
  intros Hc. destruct c as [|b0 [|b1 [|b2 [|b3 [|]]]]]; try done.
  unfold decode_endpoint_chunk. set (l := [b0; b1; b2; b3]).
  assert (from_le PU32 l = Ok (le_value l)) as -> by done. cbn [res_bind mbind res_mbind].
  destruct (endpoint_try_from_u32 (le_value l)) as [e|] eqn:E; [|done].
  apply (endpoint_valid (le_value l)); [apply (le_value_range l)|done].
Qed.

(** On any payload bytes the three decoders return an error or a
    clean, normalised value, and never panic: endpoints are valid, sorted,
    distinct and not the discovery endpoint, names are non-empty UTF-8, and
    boards are in normal form. *)
Theorem discovery_decoders_safe l :
  buf_ok l ->
  match decode_discovery_payload l with
  | Ok eps => strictly_sorted eps /\ Forall announced_ep eps | Err _ => True | Panic => False
  end
  /\ match decode_discovery_timesync_sources_payload l with
     | Ok srcs => strictly_sorted srcs /\ Forall name_ok srcs | Err _ => True | Panic => False
     end
  /\ match decode_discovery_topology_payload l with
     | Ok boards => topology_normal boards /\ Forall board_clean boards | Err _ => True | Panic => False
     end.
Proof.
  intros Hl. split; [|split].
  - unfold decode_discovery_payload. destruct (Z.eqb_spec (blen l mod 4) 0) as [Hw|]; cbn [negb]; [|done].
    assert (Z.to_nat (blen l / 4) * 4 <= length l)%nat as Hfit
      by (pose proof (Z.mul_div_le (blen l) 4); pose proof (Z.div_pos (blen l) 4); unfold blen in *; lia).
    pose proof (mapM_res_safe valid_ep decode_endpoint_chunk (chunks_exact (Z.to_nat (blen l / 4)) 4 l)) as Hm.
    destruct (mapM_res _ _) as [eps| |]; cbn [res_bind mbind res_mbind].
    + split; [apply sort_dedup_sorted|]. apply Forall_sort_dedup, drop_discovery_ok, Hm.
      intros c Hc%chunks_width; [by apply decode_chunk_safe|]. exact Hfit.
    + done.
    + apply Hm. intros c Hc%chunks_width; [by apply decode_chunk_safe|]. exact Hfit.
  - unfold decode_discovery_timesync_sources_payload. change (reader_new l) with (at_ [] l).
    epose proof (read_list_reads False _ "discovery timesync source count" _
      (read_string_reads False "discovery timesync source len" "discovery timesync source bytes"
         "discovery timesync source utf8") [] l Hl) as Hr.
    destruct (read_list _ _ _) as [[out r]| |]; cbn [res_bind mbind res_mbind]; [|done|done].
    unfold at_end. destruct (negb _); cbn [res_bind mbind res_mbind]; [done|].
    split; [apply sort_dedup_sorted|]. apply Forall_sort_dedup, nonempty_ok, Hr.
  - unfold decode_discovery_topology_payload. change (reader_new l) with (at_ [] l).
    pose proof (read_list_reads False _ "discovery topology board count" _ (read_board_reads False) [] l Hl) as Hr.
    destruct (read_list _ _ _) as [[out r]| |]; cbn [res_bind mbind res_mbind]; [|done|done].
    unfold at_end. destruct (negb _); cbn [res_bind mbind res_mbind]; [done|].
    split; [apply normalize_normal|]. destruct Hr as [Hr _]. rewrite Forall_forall in *.
    unfold normalize_topology_boards. intros b Hb.
    apply dedup_subset, elem_of_sort, list_elem_of_fmap in Hb as (b' & -> & Hb'). by apply normalize_clean, Hr.
Qed.
End Safety.

(** ** Cadence *)

Definition announces (times : list Z) (s : DiscoveryCadenceState) : DiscoveryCadenceState :=
  fold_left on_announce_sent times s.

Lemma announces_interval times s :
  DISCOVERY_FAST_INTERVAL_MS <= current_interval_ms s <= DISCOVERY_SLOW_INTERVAL_MS ->
  current_interval_ms (announces times s)
  = Z.min (current_interval_ms s * 2 ^ Z.of_nat (length times)) DISCOVERY_SLOW_INTERVAL_MS.
Proof.
  unfold announces. revert s. induction times as [|t times IH]; intros s Hs; cbn [fold_left length].
  { rewrite Z.pow_0_r. lia. }
  assert (current_interval_ms (on_announce_sent s t)
          = Z.min (2 * current_interval_ms s) DISCOVERY_SLOW_INTERVAL_MS) as Hc.
  { cbn. unfold DISCOVERY_FAST_INTERVAL_MS, DISCOVERY_SLOW_INTERVAL_MS in *. zlia. }
  unfold DISCOVERY_FAST_INTERVAL_MS, DISCOVERY_SLOW_INTERVAL_MS in *.
  rewrite IH by lia. rewrite Hc, Nat2Z.inj_succ, Z.pow_succ_r by lia.
  assert (1 <= 2 ^ Z.of_nat (length times)) by (apply (Z.pow_le_mono_r 2 0); lia).
  set (P := 2 ^ _) in *. set (c := current_interval_ms s) in *.
  destruct (Z.min_spec (2 * c) 5000) as [[Hlt ->]|[Hge ->]]; [f_equal; lia|].
  rewrite !Z.min_r by nia. done.
Qed.

(** After a topology change an announce is due at once; the n
    announces that follow leave an interval of [min(250 * 2^n, 5000)] ms; and an
    announce sent at [now] makes the next one due exactly when the interval in
    force has elapsed. *)
Theorem cadence_backoff s times changed now t :
  now + DISCOVERY_SLOW_INTERVAL_MS <= u64_max ->
  let s' := announces times (on_topology_change s changed) in
  due (on_topology_change s changed) changed = true
  /\ current_interval_ms s'
     = Z.min (DISCOVERY_FAST_INTERVAL_MS * 2 ^ Z.of_nat (length times)) DISCOVERY_SLOW_INTERVAL_MS
  /\ (due (on_announce_sent s' now) t = true <-> now + current_interval_ms s' <= t).
Proof.
  intros Hn. cbn zeta. split; [apply Z.leb_refl|].
  assert (current_interval_ms (announces times (on_topology_change s changed))
    = Z.min (DISCOVERY_FAST_INTERVAL_MS * 2 ^ Z.of_nat (length times)) DISCOVERY_SLOW_INTERVAL_MS) as Hi
    by (rewrite announces_interval; [done|done]).
  split; [exact Hi|]. unfold due, on_announce_sent. cbn [next_announce_ms].
  rewrite Z.leb_le. unfold DISCOVERY_FAST_INTERVAL_MS, DISCOVERY_SLOW_INTERVAL_MS in *. zlia.
Qed.

(** ** Witnesses *)

Definition board_of (s : string) (eps : list DataEndpoint) (conns : list Str) : TopologyBoardNode :=
  {| sender_id := lit s; reachable_endpoints := eps; reachable_timesync_sources := []; connections := conns |}.

Lemma board_of_ok `{Schema} s eps conns :
  str_ok (lit s) -> Forall valid_ep eps -> Z.of_nat (length eps) <= u32_max ->
  Forall str_ok conns -> Z.of_nat (length conns) <= u32_max -> board_ok (board_of s eps conns).
Proof. intros. split; [done|done| |done]. split; [apply List.Forall_nil|done]. Qed.

Definition gps_board : TopologyBoardNode := board_of "GPS" [1; 0; 1] [lit "GPS"; lit "RADIO"].
Definition radio_board : TopologyBoardNode := board_of "RADIO" [0] [].

Lemma discovery_lists_roundtrip_witness :
  exists p, @build_discovery_announce default_config default_schema (lit "GPS") 5 [1; 0; 1] = Ok p
    /\ @decode_discovery_announce default_schema p = Ok [0; 1].
Proof.
  destruct (@discovery_lists_roundtrip default_config default_schema default_schema_ok eq_refl
    (lit "GPS") 5 [1; 0; 1] []) as [(p & Hp & Hd) _].
  - repeat (apply List.Forall_cons; [unfold valid_ep; vm_compute; split; discriminate|]). apply List.Forall_nil.
  - apply List.Forall_nil.
  - vm_compute. discriminate.
  - exists p. split; [exact Hp|]. rewrite Hd. vm_compute. reflexivity.
Defined.

Lemma discovery_topology_roundtrip_witness :
  exists p, @build_discovery_topology default_config default_schema (lit "GPS") 5 [radio_board; gps_board] = Ok p
    /\ @decode_discovery_topology default_schema p
       = Ok [board_of "GPS" [0; 1] [lit "RADIO"]; radio_board].
Proof.
  destruct (@discovery_topology_roundtrip default_config default_schema default_schema_ok eq_refl
    (lit "GPS") 5 [radio_board; gps_board]) as (p & Hp & _ & Hd).
  - apply List.Forall_cons; [|apply List.Forall_cons; [|apply List.Forall_nil]]; apply board_of_ok;
      repeat (apply List.Forall_cons || apply List.Forall_nil);
      first [split; vm_compute; [discriminate|reflexivity]|vm_compute; split; discriminate|vm_compute; discriminate].
  - vm_compute. discriminate.
  - exists p. split; [exact Hp|]. vm_compute in Hp. injection Hp as <-.
    rewrite Hd by (vm_compute; discriminate). vm_compute. reflexivity.
Defined.

Definition seen_a : list TopologyBoardNode := [board_of "GPS" [0] [lit "RADIO"]].
Definition seen_b : list TopologyBoardNode := [board_of "GPS" [1] []; board_of "RADIO" [0] [lit "GPS"]].

Lemma seen_normal : topology_normal seen_a /\ topology_normal seen_b.
Proof.
  assert (normalize_topology_boards seen_a = seen_a) as Ha by (vm_compute; reflexivity).
  assert (normalize_topology_boards seen_b = seen_b) as Hb by (vm_compute; reflexivity).
  rewrite <- Ha, <- Hb. split; apply normalize_normal.
Qed.

Lemma merge_topology_correct_witness :
  knows reachable_endpoints (merge_topology_boards seen_a seen_b) (lit "GPS") 1
  /\ ~ knows connections (merge_topology_boards seen_a [gps_board]) (lit "GPS") (lit "GPS").
Proof.
  split.
  - apply (merge_topology_correct seen_a seen_b (proj1 seen_normal)). right. exists (board_of "GPS" [1] []).
    split; [left|]. split; [reflexivity|left].
  - intros Hk. apply (merge_topology_correct seen_a [gps_board] (proj1 seen_normal)) in Hk as [Hne _].
    by apply Hne.
Defined.

Lemma merge_topology_semilattice_witness :
  merge_topology_boards seen_a seen_b = merge_topology_boards seen_b seen_a
  /\ length (merge_topology_boards seen_a seen_b) = 2%nat.
Proof.
  split; [|vm_compute; reflexivity].
  apply (merge_topology_semilattice seen_a seen_b seen_a); apply seen_normal.
Defined.

(** A board list that claims one board but ends after its sender id. *)
Definition truncated_topology : list byte := write_u32_le 1 ++ str_bytes (lit "GPS").

Lemma discovery_decoders_safe_witness :
  @decode_discovery_topology_payload default_schema truncated_topology <> Panic
  /\ @decode_discovery_topology_payload default_schema truncated_topology
     = Err (Deserialize "discovery topology endpoint count").
Proof.
  split; [|vm_compute; reflexivity]. intros Hp.
  destruct (@discovery_decoders_safe default_schema truncated_topology) as (_ & _ & Hs);
    [vm_compute; discriminate|]. by rewrite Hp in Hs.
Defined.

Lemma cadence_backoff_witness :
  current_interval_ms (announces [0; 250; 750] (on_topology_change cadence_default 0)) = 2000
  /\ due (on_announce_sent (announces [0; 250; 750] (on_topology_change cadence_default 0)) 1750) 3749 = false.
Proof.
  destruct (cadence_backoff cadence_default [0; 250; 750] 0 1750 3749) as (_ & Hi & Hd); [vm_compute; discriminate|].
  split; [rewrite Hi; reflexivity|]. apply not_true_is_false. rewrite Hd, Hi. vm_compute. intros H. by apply H.
Defined.
