(* ===== verification/RouterState.v ===== *)
(** * Router state and the shared queue budget ([src/router.rs])

    The data of [RouterInner], its queues and reliable state, and the operations
    that keep all queues together within [MAX_QUEUE_BUDGET]: the byte accounting,
    the choice and eviction of a victim, and the four insertions.

    Operations on the locked state are computations [RM A]: they return the new
    state and a result, and keep the changes made before an error.  Maps that
    are only looked up are [gmap]s; [BTreeMap]s whose order the code observes
    are the sorted lists of [Ordered.v]. *)

From stdpp Require Import gmap.
From S2P Require Import Prelude Ordered Telemetry Config Schema Queue SmallPayload Wire Packet Discovery.

(** ** Data *)

(** [size_of] of the router's own types. *)
Class RouterLayout := {
  sizeof_RouterRxItem : Z;
  sizeof_TxQueued : Z;
  sizeof_DiscoverySenderState : Z;
  sizeof_DiscoverySideState : Z
}.

Definition RouterSideId := Z.

Inductive RouterItem := RPacket (pkt : Packet) | RSerialized (bytes : list byte).

Record RouterRxItem := { rx_src : option RouterSideId; rx_data : RouterItem; rx_priority : Z }.

Inductive RouterTxItem :=
| Broadcast (data : RouterItem)
| EndToEndReplay (packet_id : Z)
| ToSide (src : option RouterSideId) (dst : RouterSideId) (data : RouterItem)
| ReliableReplay (dst : RouterSideId) (bytes : list byte).

Record TxQueued := { txq_item : RouterTxItem; ignore_local : bool; txq_priority : Z }.

Record ReliableSent := {
  sent_bytes : list byte;
  last_send_ms : Z;
  retries : Z;
  queued : bool;
  partial_acked : bool
}.

Record ReliableTxState := { next_seq : Z; sent_order : list Z; tx_sent : list (Z * ReliableSent) }.

Record ReliableRxState := { expected_seq : Z; buffered : list (Z * list byte) }.

Record EndToEndReliableSent := {
  e2e_data : RouterItem;
  pending_destinations : list (Z * RouterSideId);
  tracked_destinations : bool;
  e2e_last_send_ms : Z;
  e2e_retries : Z;
  e2e_queued : bool
}.

Record DiscoverySenderState := {
  ds_reachable : list DataEndpoint;
  ds_timesync_sources : list Str;
  topology_boards : list TopologyBoardNode;
  ds_last_seen_ms : Z
}.

Record DiscoverySideState := {
  reachable : list DataEndpoint;
  side_timesync_sources : list Str;
  side_last_seen_ms : Z;
  announcers : list (Str * DiscoverySenderState)
}.

Record AdaptiveRouteStats := { estimated_bandwidth_bps : Z; last_observed_ms : Z }.

(** Which callback a side has; the callback itself is the user's. *)
Inductive RouterTxHandlerFn := HSerialized | HPacket.

Record RouterSideOptions := {
  reliable_enabled : bool;
  link_local_enabled : bool;
  ingress_enabled : bool;
  egress_enabled : bool
}.

Definition side_options_default : RouterSideOptions :=
  {| reliable_enabled := false; link_local_enabled := false; ingress_enabled := true;
     egress_enabled := true |}.

Record RouterSide := { side_name : Str; tx_handler : RouterTxHandlerFn; opts : RouterSideOptions }.

Record RouterInner := {
  sides : list (option RouterSide);
  route_overrides : gmap (option RouterSideId * RouterSideId) bool;
  typed_route_overrides : gmap (option RouterSideId * Z * RouterSideId) bool;
  route_weights : gmap (option RouterSideId * RouterSideId) Z;
  route_priorities : gmap (option RouterSideId * RouterSideId) Z;
  source_route_modes : gmap (option RouterSideId) RouteSelectionMode;
  route_selection_cursors : gmap (option RouterSideId) Z;
  adaptive_route_stats : gmap RouterSideId AdaptiveRouteStats;
  received_queue : BoundedDeque RouterRxItem;
  transmit_queue : BoundedDeque TxQueued;
  recent_rx : BoundedDeque Z;
  reliable_tx : list ((RouterSideId * Z) * ReliableTxState);
  reliable_rx : list ((RouterSideId * Z) * ReliableRxState);
  reliable_return_routes : gmap Z RouterSideId;
  reliable_return_route_order : list Z;
  end_to_end_reliable_tx : list (Z * EndToEndReliableSent);
  end_to_end_reliable_tx_order : list Z;
  discovery_routes : list (RouterSideId * DiscoverySideState);
  discovery_cadence : DiscoveryCadenceState
}.

(** Field updates. *)
Definition set_sides x (s : RouterInner) : RouterInner :=
  Build_RouterInner x (route_overrides s) (typed_route_overrides s) (route_weights s) (route_priorities s)
    (source_route_modes s) (route_selection_cursors s) (adaptive_route_stats s) (received_queue s)
    (transmit_queue s) (recent_rx s) (reliable_tx s) (reliable_rx s) (reliable_return_routes s)
    (reliable_return_route_order s) (end_to_end_reliable_tx s) (end_to_end_reliable_tx_order s)
    (discovery_routes s) (discovery_cadence s).
Definition set_route_overrides x (s : RouterInner) : RouterInner :=
  Build_RouterInner (sides s) x (typed_route_overrides s) (route_weights s) (route_priorities s) (source_route_modes
    s) (route_selection_cursors s) (adaptive_route_stats s) (received_queue s) (transmit_queue s)
    (recent_rx s) (reliable_tx s) (reliable_rx s) (reliable_return_routes s)
    (reliable_return_route_order s) (end_to_end_reliable_tx s) (end_to_end_reliable_tx_order s)
    (discovery_routes s) (discovery_cadence s).
Definition set_typed_route_overrides x (s : RouterInner) : RouterInner :=
  Build_RouterInner (sides s) (route_overrides s) x (route_weights s) (route_priorities s) (source_route_modes s)
    (route_selection_cursors s) (adaptive_route_stats s) (received_queue s) (transmit_queue s)
    (recent_rx s) (reliable_tx s) (reliable_rx s) (reliable_return_routes s)
    (reliable_return_route_order s) (end_to_end_reliable_tx s) (end_to_end_reliable_tx_order s)
    (discovery_routes s) (discovery_cadence s).
Definition set_route_weights x (s : RouterInner) : RouterInner :=
  Build_RouterInner (sides s) (route_overrides s) (typed_route_overrides s) x (route_priorities s)
    (source_route_modes s) (route_selection_cursors s) (adaptive_route_stats s) (received_queue s)
    (transmit_queue s) (recent_rx s) (reliable_tx s) (reliable_rx s) (reliable_return_routes s)
    (reliable_return_route_order s) (end_to_end_reliable_tx s) (end_to_end_reliable_tx_order s)
    (discovery_routes s) (discovery_cadence s).
Definition set_route_priorities x (s : RouterInner) : RouterInner :=
  Build_RouterInner (sides s) (route_overrides s) (typed_route_overrides s) (route_weights s) x (source_route_modes
    s) (route_selection_cursors s) (adaptive_route_stats s) (received_queue s) (transmit_queue s)
    (recent_rx s) (reliable_tx s) (reliable_rx s) (reliable_return_routes s)
    (reliable_return_route_order s) (end_to_end_reliable_tx s) (end_to_end_reliable_tx_order s)
    (discovery_routes s) (discovery_cadence s).
Definition set_source_route_modes x (s : RouterInner) : RouterInner :=
  Build_RouterInner (sides s) (route_overrides s) (typed_route_overrides s) (route_weights s) (route_priorities s) x
    (route_selection_cursors s) (adaptive_route_stats s) (received_queue s) (transmit_queue s)
    (recent_rx s) (reliable_tx s) (reliable_rx s) (reliable_return_routes s)
    (reliable_return_route_order s) (end_to_end_reliable_tx s) (end_to_end_reliable_tx_order s)
    (discovery_routes s) (discovery_cadence s).
Definition set_route_selection_cursors x (s : RouterInner) : RouterInner :=
  Build_RouterInner (sides s) (route_overrides s) (typed_route_overrides s) (route_weights s) (route_priorities s)
    (source_route_modes s) x (adaptive_route_stats s) (received_queue s) (transmit_queue s)
    (recent_rx s) (reliable_tx s) (reliable_rx s) (reliable_return_routes s)
    (reliable_return_route_order s) (end_to_end_reliable_tx s) (end_to_end_reliable_tx_order s)
    (discovery_routes s) (discovery_cadence s).
Definition set_adaptive_route_stats x (s : RouterInner) : RouterInner :=
  Build_RouterInner (sides s) (route_overrides s) (typed_route_overrides s) (route_weights s) (route_priorities s)
    (source_route_modes s) (route_selection_cursors s) x (received_queue s) (transmit_queue s)
    (recent_rx s) (reliable_tx s) (reliable_rx s) (reliable_return_routes s)
    (reliable_return_route_order s) (end_to_end_reliable_tx s) (end_to_end_reliable_tx_order s)
    (discovery_routes s) (discovery_cadence s).
Definition set_received_queue x (s : RouterInner) : RouterInner :=
  Build_RouterInner (sides s) (route_overrides s) (typed_route_overrides s) (route_weights s) (route_priorities s)
    (source_route_modes s) (route_selection_cursors s) (adaptive_route_stats s) x (transmit_queue s)
    (recent_rx s) (reliable_tx s) (reliable_rx s) (reliable_return_routes s)
    (reliable_return_route_order s) (end_to_end_reliable_tx s) (end_to_end_reliable_tx_order s)
    (discovery_routes s) (discovery_cadence s).
Definition set_transmit_queue x (s : RouterInner) : RouterInner :=
  Build_RouterInner (sides s) (route_overrides s) (typed_route_overrides s) (route_weights s) (route_priorities s)
    (source_route_modes s) (route_selection_cursors s) (adaptive_route_stats s) (received_queue s) x
    (recent_rx s) (reliable_tx s) (reliable_rx s) (reliable_return_routes s)
    (reliable_return_route_order s) (end_to_end_reliable_tx s) (end_to_end_reliable_tx_order s)
    (discovery_routes s) (discovery_cadence s).
Definition set_recent_rx x (s : RouterInner) : RouterInner :=
  Build_RouterInner (sides s) (route_overrides s) (typed_route_overrides s) (route_weights s) (route_priorities s)
    (source_route_modes s) (route_selection_cursors s) (adaptive_route_stats s) (received_queue s)
    (transmit_queue s) x (reliable_tx s) (reliable_rx s) (reliable_return_routes s)
    (reliable_return_route_order s) (end_to_end_reliable_tx s) (end_to_end_reliable_tx_order s)
    (discovery_routes s) (discovery_cadence s).
Definition set_reliable_tx x (s : RouterInner) : RouterInner :=
  Build_RouterInner (sides s) (route_overrides s) (typed_route_overrides s) (route_weights s) (route_priorities s)
    (source_route_modes s) (route_selection_cursors s) (adaptive_route_stats s) (received_queue s)
    (transmit_queue s) (recent_rx s) x (reliable_rx s) (reliable_return_routes s)
    (reliable_return_route_order s) (end_to_end_reliable_tx s) (end_to_end_reliable_tx_order s)
    (discovery_routes s) (discovery_cadence s).
Definition set_reliable_rx x (s : RouterInner) : RouterInner :=
  Build_RouterInner (sides s) (route_overrides s) (typed_route_overrides s) (route_weights s) (route_priorities s)
    (source_route_modes s) (route_selection_cursors s) (adaptive_route_stats s) (received_queue s)
    (transmit_queue s) (recent_rx s) (reliable_tx s) x (reliable_return_routes s)
    (reliable_return_route_order s) (end_to_end_reliable_tx s) (end_to_end_reliable_tx_order s)
    (discovery_routes s) (discovery_cadence s).
Definition set_reliable_return_routes x (s : RouterInner) : RouterInner :=
  Build_RouterInner (sides s) (route_overrides s) (typed_route_overrides s) (route_weights s) (route_priorities s)
    (source_route_modes s) (route_selection_cursors s) (adaptive_route_stats s) (received_queue s)
    (transmit_queue s) (recent_rx s) (reliable_tx s) (reliable_rx s) x (reliable_return_route_order
    s) (end_to_end_reliable_tx s) (end_to_end_reliable_tx_order s) (discovery_routes s)
    (discovery_cadence s).
Definition set_reliable_return_route_order x (s : RouterInner) : RouterInner :=
  Build_RouterInner (sides s) (route_overrides s) (typed_route_overrides s) (route_weights s) (route_priorities s)
    (source_route_modes s) (route_selection_cursors s) (adaptive_route_stats s) (received_queue s)
    (transmit_queue s) (recent_rx s) (reliable_tx s) (reliable_rx s) (reliable_return_routes s) x
    (end_to_end_reliable_tx s) (end_to_end_reliable_tx_order s) (discovery_routes s)
    (discovery_cadence s).
Definition set_end_to_end_reliable_tx x (s : RouterInner) : RouterInner :=
  Build_RouterInner (sides s) (route_overrides s) (typed_route_overrides s) (route_weights s) (route_priorities s)
    (source_route_modes s) (route_selection_cursors s) (adaptive_route_stats s) (received_queue s)
    (transmit_queue s) (recent_rx s) (reliable_tx s) (reliable_rx s) (reliable_return_routes s)
    (reliable_return_route_order s) x (end_to_end_reliable_tx_order s) (discovery_routes s)
    (discovery_cadence s).
Definition set_end_to_end_reliable_tx_order x (s : RouterInner) : RouterInner :=
  Build_RouterInner (sides s) (route_overrides s) (typed_route_overrides s) (route_weights s) (route_priorities s)
    (source_route_modes s) (route_selection_cursors s) (adaptive_route_stats s) (received_queue s)
    (transmit_queue s) (recent_rx s) (reliable_tx s) (reliable_rx s) (reliable_return_routes s)
    (reliable_return_route_order s) (end_to_end_reliable_tx s) x (discovery_routes s)
    (discovery_cadence s).
Definition set_discovery_routes x (s : RouterInner) : RouterInner :=
  Build_RouterInner (sides s) (route_overrides s) (typed_route_overrides s) (route_weights s) (route_priorities s)
    (source_route_modes s) (route_selection_cursors s) (adaptive_route_stats s) (received_queue s)
    (transmit_queue s) (recent_rx s) (reliable_tx s) (reliable_rx s) (reliable_return_routes s)
    (reliable_return_route_order s) (end_to_end_reliable_tx s) (end_to_end_reliable_tx_order s) x
    (discovery_cadence s).
Definition set_discovery_cadence x (s : RouterInner) : RouterInner :=
  Build_RouterInner (sides s) (route_overrides s) (typed_route_overrides s) (route_weights s) (route_priorities s)
    (source_route_modes s) (route_selection_cursors s) (adaptive_route_stats s) (received_queue s)
    (transmit_queue s) (recent_rx s) (reliable_tx s) (reliable_rx s) (reliable_return_routes s)
    (reliable_return_route_order s) (end_to_end_reliable_tx s) (end_to_end_reliable_tx_order s)
    (discovery_routes s) x.

(** ** Computations on the locked state *)

Definition RM (A : Type) : Type := RouterInner -> RouterInner * TelemetryResult A.

#[export] Instance RM_bind : MBind RM := fun A B f m s =>
  let '(s, r) := m s in
  match r with Ok a => f a s | Err e => (s, Err e) | Panic => (s, Panic) end.
#[export] Instance RM_ret : MRet RM := fun A a s => (s, Ok a).

Lemma RM_run {A B} (m : RM A) (f : A -> RM B) s :
  (m ≫= f) s = match m s with
               | (s, Ok a) => f a s | (s, Err e) => (s, Err e) | (s, Panic) => (s, Panic)
               end.
Proof. unfold mbind, RM_bind. by destruct (m s) as [s' []]. Qed.

Definition lift {A} (r : TelemetryResult A) : RM A := fun s => (s, r).
Definition get {A} (f : RouterInner -> A) : RM A := fun s => (s, Ok (f s)).
Definition modify (f : RouterInner -> RouterInner) : RM unit := fun s => (f s, Ok tt).

(** ** Byte costs *)

(** [iter().sum::<usize>()] and [usize] products, which wrap. *)
Definition usum (l : list Z) : Z := wrap 64 (fold_right Z.add 0 l).
Definition umul (a b : Z) : Z := wrap 64 (a * b).
Definition nlen {A} (l : list A) : Z := Z.of_nat (length l).

Section Costs.
Context `{Layout} `{RouterLayout}.

Definition item_byte_cost (d : RouterItem) : Z :=
  match d with
  | RPacket pkt => packet_byte_cost pkt
  | RSerialized bytes => sizeof_arc_slice + blen bytes
  end.

#[export] Instance RouterRxItem_cost : ByteCost RouterRxItem :=
  {| byte_cost i := item_byte_cost (rx_data i); size_of := sizeof_RouterRxItem |}.

Definition tx_item_byte_cost (i : RouterTxItem) : Z :=
  match i with
  | Broadcast data => item_byte_cost data
  | EndToEndReplay _ => 8
  | ToSide _ _ data => item_byte_cost data
  | ReliableReplay _ bytes => sizeof_arc_slice + blen bytes
  end.

#[export] Instance TxQueued_cost : ByteCost TxQueued :=
  {| byte_cost t := tx_item_byte_cost (txq_item t) + 1 + 1; size_of := sizeof_TxQueued |}.

(** [impl ByteCost for u64]. *)
Definition u64_cost : ByteCost Z := {| byte_cost _ := 8; size_of := 8 |}.

Definition topology_board_byte_cost (b : TopologyBoardNode) : Z :=
  let c := sat_add64 (blen (sender_id b)) (umul (nlen (reachable_endpoints b)) 4) in
  let c := sat_add64 c (usum (map blen (reachable_timesync_sources b))) in
  sat_add64 c (usum (map blen (connections b))).

Definition discovery_sender_byte_cost (sender : Str) (st : DiscoverySenderState) : Z :=
  let c := sat_add64 (blen sender) (umul (nlen (ds_reachable st)) 4) in
  let c := sat_add64 c (usum (map blen (ds_timesync_sources st))) in
  let c := sat_add64 c (usum (map topology_board_byte_cost (topology_boards st))) in
  sat_add64 c sizeof_DiscoverySenderState.

Definition discovery_route_byte_cost (side : RouterSideId) (route : DiscoverySideState) : Z :=
  let c := sat_add64 8 sizeof_DiscoverySideState in
  let c := sat_add64 c (umul (nlen (reachable route)) 4) in
  let c := sat_add64 c (usum (map blen (side_timesync_sources route))) in
  let c := sat_add64 c
    (usum (map (fun e => discovery_sender_byte_cost (fst e) (snd e)) (announcers route))) in
  sat_add64 c (sat_sub side side).

Definition discovery_bytes_used (st : RouterInner) : Z :=
  usum (map (fun e => discovery_route_byte_cost (fst e) (snd e)) (discovery_routes st)).

Definition rx_buffered (st : RouterInner) : list (Z * list byte) :=
  concat (map (fun e => buffered (snd e)) (reliable_rx st)).

Definition reliable_rx_buffered_bytes (st : RouterInner) : Z :=
  usum (map (fun e => sizeof_arc_slice + blen (snd e)) (rx_buffered st)).

Definition shared_queue_bytes_used (st : RouterInner) : Z :=
  let c := sat_add64 (bytes_used (received_queue st)) (bytes_used (transmit_queue st)) in
  let c := sat_add64 c (max_bytes (recent_rx st)) in
  let c := sat_add64 c (reliable_rx_buffered_bytes st) in
  sat_add64 c (discovery_bytes_used st).

Definition reliable_rx_buffer_len (st : RouterInner) : Z :=
  usum (map (fun e => nlen (buffered (snd e))) (reliable_rx st)).

(** ** Eviction *)

Inductive RouterQueueKind := Received | Transmit | Recent | ReliableRxBuffer | DiscoveryKind.

(** [iter().find_map(..)], then [pop_first] of that buffer. *)
Definition pop_reliable_rx_buffered (st : RouterInner) : option (list byte) * RouterInner :=
  match List.find (fun e => match buffered (snd e) with [] => false | _ => true end) (reliable_rx st) with
  | None => (None, st)
  | Some (key, rx) =>
      match buffered rx with
      | [] => (None, st)
      | (_, v) :: rest =>
          (Some v, set_reliable_rx
             (bt_update key (fun rx => {| expected_seq := expected_seq rx; buffered := rest |})
                (reliable_rx st)) st)
      end
  end.

(** [min_by_key(last_seen_ms)]: the first of the oldest. *)
Fixpoint oldest_route (l : list (RouterSideId * DiscoverySideState))
    : option (RouterSideId * DiscoverySideState) :=
  match l with
  | [] => None
  | e :: l =>
      match oldest_route l with
      | Some e' => if side_last_seen_ms (snd e') <? side_last_seen_ms (snd e) then Some e' else Some e
      | None => Some e
      end
  end.

Definition pop_discovery_route (st : RouterInner) : bool * RouterInner :=
  match oldest_route (discovery_routes st) with
  | None => (false, st)
  | Some (side, _) => (true, set_discovery_routes (bt_remove side (discovery_routes st)) st)
  end.

Definition is_some {A} (o : option A) : bool := match o with Some _ => true | None => false end.

Definition pop_shared_queue_item (preferred : RouterQueueKind) (st : RouterInner) : bool * RouterInner :=
  match preferred with
  | Received => let '(o, q) := pop_front (received_queue st) in (is_some o, set_received_queue q st)
  | Transmit => let '(o, q) := pop_front (transmit_queue st) in (is_some o, set_transmit_queue q st)
  | Recent => let '(o, q) := pop_front (H := u64_cost) (recent_rx st) in (is_some o, set_recent_rx q st)
  | ReliableRxBuffer => let '(o, st) := pop_reliable_rx_buffered st in (is_some o, st)
  | DiscoveryKind => pop_discovery_route st
  end.

(** [max_by_key]: the last of the greatest keys. *)
Fixpoint max_candidate (l : list (RouterQueueKind * Z * Z)) : option (RouterQueueKind * (Z * Z)) :=
  match l with
  | [] => None
  | (kind, bytes, _) :: l =>
      let key := (bytes, match kind with ReliableRxBuffer => 0 | _ => 1 end) in
      match max_candidate l with
      | Some (kind', key') =>
          if Ordered.ltb key' key then Some (kind, key) else Some (kind', key')
      | None => Some (kind, key)
      end
  end.

Definition largest_shared_queue (st : RouterInner) : option RouterQueueKind :=
  let candidates :=
    [(Received, bytes_used (received_queue st), len (received_queue st));
     (Transmit, bytes_used (transmit_queue st), len (transmit_queue st));
     (Recent, 0, 0);
     (ReliableRxBuffer, reliable_rx_buffered_bytes st, reliable_rx_buffer_len st);
     (DiscoveryKind, discovery_bytes_used st, nlen (discovery_routes st))] in
  fst <$> max_candidate (List.filter (fun '(_, bytes, len) => (0 <? bytes) && (0 <? len)) candidates).
End Costs.

Section Budget.
Context `{Config} `{Layout} `{RouterLayout}.

Definition budget_error : TelemetryError := PacketTooLarge "Item exceeds maximum shared queue budget".

(** One round of the [while]: [None] when both pops fail. *)
Definition evict_once (preferred : RouterQueueKind) (st : RouterInner) : bool * RouterInner :=
  let victim := default preferred (largest_shared_queue st) in
  let '(popped, st) := pop_shared_queue_item victim st in
  if popped then (true, st) else pop_shared_queue_item preferred st.

Fixpoint make_room_loop (fuel : nat) (incoming_cost : Z) (preferred : RouterQueueKind) : RM unit :=
  fun st =>
  if MAX_QUEUE_BUDGET <? sat_add64 (shared_queue_bytes_used st) incoming_cost then
    match fuel with
    | O => (st, Panic)
    | S fuel =>
        let '(popped, st) := evict_once preferred st in
        if popped then make_room_loop fuel incoming_cost preferred st else (st, Err budget_error)
    end
  else (st, Ok tt).

(** How many items the queues hold: each round pops one, so one more round is
    fuel enough. *)
Definition queued_items (st : RouterInner) : nat :=
  length (q (received_queue st)) + length (q (transmit_queue st)) + length (q (recent_rx st))
  + length (rx_buffered st) + length (discovery_routes st).

Definition make_shared_queue_room (incoming_cost : Z) (preferred : RouterQueueKind) : RM unit :=
  fun st =>
  if MAX_QUEUE_BUDGET <? incoming_cost then (st, Err budget_error)
  else make_room_loop (S (queued_items st)) incoming_cost preferred st.

Fixpoint fit_discovery_loop (fuel : nat) (st : RouterInner) : RouterInner :=
  if MAX_QUEUE_BUDGET <? shared_queue_bytes_used st then
    let '(popped, st) := pop_discovery_route st in
    match fuel with
    | O => st
    | S fuel => if popped then fit_discovery_loop fuel st else st
    end
  else st.

Definition fit_discovery_budget (st : RouterInner) : RouterInner :=
  fit_discovery_loop (length (discovery_routes st)) st.

Definition push_received (i : RouterRxItem) : RM unit :=
  _ ← make_shared_queue_room (byte_cost i) Received;
  (fun st => let '(q, r) := push_back_prioritized rx_priority (received_queue st) i in
             (set_received_queue q st, r)) : RM unit.

Definition push_transmit (i : TxQueued) : RM unit :=
  _ ← make_shared_queue_room (byte_cost i) Transmit;
  (fun st => let '(q, r) := push_back_prioritized txq_priority (transmit_queue st) i in
             (set_transmit_queue q st, r)) : RM unit.

(** [while len >= MAX { pop_front }].  The length is fuel enough unless
    [MAX_RECENT_RX_IDS] is 0, when the loop never ends ([Panic] here). *)
Fixpoint trim_recent (fuel : nat) : RM unit := fun st =>
  if MAX_RECENT_RX_IDS <=? len (recent_rx st) then
    match fuel with
    | O => (st, Panic)
    | S fuel => trim_recent fuel (set_recent_rx (snd (pop_front (H := u64_cost) (recent_rx st))) st)
    end
  else (st, Ok tt).

Definition push_recent_rx (id : Z) : RM unit :=
  n ← get (fun st => length (q (recent_rx st)));
  _ ← trim_recent n;
  _ ← make_shared_queue_room 0 Recent;
  (fun st => let '(q, r) := push_back (H := u64_cost) (recent_rx st) id in (set_recent_rx q st, r)) : RM unit.

Definition reliable_key (side : RouterSideId) (ty : DataType) : RouterSideId * Z := (side, ty).

Definition rx_state_new : ReliableRxState := {| expected_seq := 1; buffered := [] |}.

(** [entry(key).or_insert_with(..)] and a change to the entry. *)
Definition update_rx (key : RouterSideId * Z) (f : ReliableRxState -> ReliableRxState)
    (st : RouterInner) : RouterInner :=
  set_reliable_rx (bt_insert key (f (default rx_state_new (bt_get key (reliable_rx st)))) (reliable_rx st)) st.

(** [if buffered.len() >= MAX { pop_first }; insert(seq, bytes)]. *)
Definition buffer_frame (seq : Z) (bytes : list byte) (rx : ReliableRxState) : ReliableRxState :=
  let kept := if RELIABLE_MAX_PENDING <=? nlen (buffered rx) then tail (buffered rx) else buffered rx in
  {| expected_seq := expected_seq rx; buffered := bt_insert seq bytes kept |}.

Definition buffer_reliable_rx (side : RouterSideId) (ty : DataType) (seq : Z) (bytes : list byte)
    : RM unit := fun st =>
  let key := reliable_key side ty in
  match bt_get key (reliable_rx st) with
  | Some rx => if bt_contains seq (buffered rx) then (st, Ok tt) else
      (_ ← make_shared_queue_room (sizeof_arc_slice + blen bytes) ReliableRxBuffer;
       modify (update_rx key (buffer_frame seq bytes))) st
  | None =>
      (_ ← make_shared_queue_room (sizeof_arc_slice + blen bytes) ReliableRxBuffer;
       modify (update_rx key (buffer_frame seq bytes))) st
  end.
End Budget.

(** ** The initial state ([Router::new_with_clock]) *)

Section Initial.
Context `{Config} `{RouterLayout} `{Layout}.

Definition router_inner_new : TelemetryResult RouterInner :=
  rx ← new (T := RouterRxItem) MAX_QUEUE_BUDGET STARTING_QUEUE_SIZE QUEUE_GROW_STEP;
  tx ← new (T := TxQueued) MAX_QUEUE_BUDGET STARTING_QUEUE_SIZE QUEUE_GROW_STEP;
  recent ← new (T := Z) (H := u64_cost) (Z.max RECENT_RX_QUEUE_BYTES 1) (Z.max RECENT_RX_QUEUE_BYTES 1)
             QUEUE_GROW_STEP;
  Ok {| sides := []; route_overrides := ∅; typed_route_overrides := ∅; route_weights := ∅;
        route_priorities := ∅; source_route_modes := ∅; route_selection_cursors := ∅;
        adaptive_route_stats := ∅; received_queue := rx; transmit_queue := tx; recent_rx := recent;
        reliable_tx := []; reliable_rx := []; reliable_return_routes := ∅;
        reliable_return_route_order := []; end_to_end_reliable_tx := [];
        end_to_end_reliable_tx_order := []; discovery_routes := [];
        discovery_cadence := cadence_default |}.
End Initial.

(** ** The budget invariant *)

(** What eviction never touches. *)
Definition empty_queue {T} : BoundedDeque T :=
  {| q := []; capacity := 0; max_bytes := 0; cur_bytes := 0; max_elems := 0; grow_num := 0; grow_den := 0 |}.

Definition control (st : RouterInner) : RouterInner :=
  set_received_queue empty_queue (set_transmit_queue empty_queue (set_recent_rx empty_queue
    (set_reliable_rx [] (set_discovery_routes [] st)))).

(** [l'] is [l] without some of its first elements. *)
Definition popped {A} (l l' : list A) : Prop := exists n, l' = drop n l.

Lemma popped_refl {A} (l : list A) : popped l l.
Proof. by exists 0%nat. Qed.

Lemma popped_trans {A} (l k m : list A) : popped l k -> popped k m -> popped l m.
Proof. intros [n ->] [j ->]. exists (n + j)%nat. by rewrite drop_drop. Qed.

Lemma popped_drop {A} n (l : list A) : popped l (drop n l).
Proof. by exists n. Qed.

(** A receive state lost some of its oldest buffered frames. *)
Definition rx_popped (o o' : option ReliableRxState) : Prop :=
  match o, o' with
  | Some rx, Some rx' => expected_seq rx' = expected_seq rx /\ popped (buffered rx) (buffered rx')
  | None, None => True
  | _, _ => False
  end.

Lemma rx_popped_refl o : rx_popped o o.
Proof. destruct o as [rx|]; cbn; [|done]. split; [done|apply popped_refl]. Qed.

Lemma rx_popped_trans a b c : rx_popped a b -> rx_popped b c -> rx_popped a c.
Proof.
  destruct a as [a|], b as [b|], c as [c|]; cbn; try done. intros [H1 H2] [H3 H4].
  split; [congruence|by eapply popped_trans].
Qed.

Record evicted (st st' : RouterInner) : Prop := {
  ev_control : control st' = control st;
  ev_received : popped (q (received_queue st)) (q (received_queue st'));
  ev_transmit : popped (q (transmit_queue st)) (q (transmit_queue st'));
  ev_recent : popped (q (recent_rx st)) (q (recent_rx st'));
  ev_rx key : rx_popped (bt_get key (reliable_rx st)) (bt_get key (reliable_rx st'));
  ev_routes e : e ∈ discovery_routes st' -> e ∈ discovery_routes st;
  ev_received_max : max_bytes (received_queue st') = max_bytes (received_queue st);
  ev_transmit_max : max_bytes (transmit_queue st') = max_bytes (transmit_queue st);
  ev_recent_max : max_bytes (recent_rx st') = max_bytes (recent_rx st)
}.

Lemma evicted_refl st : evicted st st.
Proof. split; try apply popped_refl; try done. intros; apply rx_popped_refl. Qed.

Lemma evicted_trans a b c : evicted a b -> evicted b c -> evicted a c.
Proof.
  intros [] []. split; try (eapply popped_trans; eassumption).
  - congruence.
  - intros key. eapply rx_popped_trans; eauto.
  - auto.
  - congruence.
  - congruence.
  - congruence.
Qed.

Section Invariant.
Context `{Config} `{Layout} `{RouterLayout}.

Definition route_costs (st : RouterInner) : list Z :=
  map (fun e => discovery_route_byte_cost (fst e) (snd e)) (discovery_routes st).

Definition buffer_costs (st : RouterInner) : list Z :=
  map (fun e => sizeof_arc_slice + blen (snd e)) (rx_buffered st).

Definition zsum (l : list Z) : Z := fold_right Z.add 0 l.

(** The bytes in use, without wrapping or saturation. *)
Definition exact_used (st : RouterInner) : Z :=
  cur_bytes (received_queue st) + cur_bytes (transmit_queue st) + max_bytes (recent_rx st)
  + zsum (buffer_costs st) + zsum (route_costs st).

Record inner_ok (st : RouterInner) : Prop := {
  io_received : bd_inv (received_queue st);
  io_transmit : bd_inv (transmit_queue st);
  io_recent : bd_inv (H := u64_cost) (recent_rx st);
  io_rx : bt_sorted (reliable_rx st);
  io_buffers key rx : (key, rx) ∈ reliable_rx st -> bt_sorted (buffered rx);
  io_routes : bt_sorted (discovery_routes st);
  io_memory : exact_used st <= isize_max
}.

Lemma zsum_app l k : zsum (l ++ k) = zsum l + zsum k.
Proof. induction l as [|x l IH]; cbn; [done|]. unfold zsum in *. lia. Qed.

Lemma zsum_nonneg l : Forall (fun x => 0 <= x) l -> 0 <= zsum l.
Proof. unfold zsum. induction 1; cbn; lia. Qed.

Lemma zsum_perm l k : l ≡ₚ k -> zsum l = zsum k.
Proof. unfold zsum. induction 1; cbn; lia. Qed.

Lemma buffer_costs_nonneg st : Forall (fun x => 16 <= x) (buffer_costs st).
Proof. apply Forall_map, Forall_forall. intros e _. pose proof (blen_nonneg (snd e)). unfold sizeof_arc_slice. lia. Qed.

Lemma sat_add64_ge a b c : 0 <= a -> 0 <= b -> c <= a -> c <= u64_max -> c <= sat_add64 a b.
Proof. zlia. Qed.

Lemma usum_range l : 0 <= usum l.
Proof. apply wrap_range. lia. Qed.

Lemma route_cost_pos side route :
  0 <= sizeof_DiscoverySideState -> 8 <= discovery_route_byte_cost side route.
Proof.
  intros Hs. unfold discovery_route_byte_cost, umul. cbn zeta.
  pose proof (wrap_range 64 (nlen (reachable route) * 4) ltac:(lia)).
  pose proof (usum_range (map blen (side_timesync_sources route))).
  pose proof (usum_range (map (fun e => discovery_sender_byte_cost (fst e) (snd e)) (announcers route))).
  repeat (apply sat_add64_ge; [| | |zlia]); try zlia.
Qed.

Context (Hsize : 0 <= sizeof_DiscoverySideState).

Lemma route_costs_pos st : Forall (fun x => 8 <= x) (route_costs st).
Proof. apply Forall_map, Forall_forall. intros e _. by apply route_cost_pos. Qed.

Lemma exact_parts st :
  inner_ok st ->
  0 <= cur_bytes (received_queue st) /\ 0 <= cur_bytes (transmit_queue st) /\ 0 < max_bytes (recent_rx st)
  /\ 0 <= zsum (buffer_costs st) /\ 0 <= zsum (route_costs st).
Proof.
  intros []. rewrite (bi_bytes _ io_received0), (bi_bytes _ io_transmit0).
  pose proof (bi_max _ io_recent0).
  split; [apply total_nonneg, (bi_cost _ io_received0)|].
  split; [apply total_nonneg, (bi_cost _ io_transmit0)|]. split; [lia|].
  split; apply zsum_nonneg; (eapply Forall_impl; [apply buffer_costs_nonneg || apply route_costs_pos|]);
    cbn; lia.
Qed.

(** The program's own count is exact. *)
Lemma used_exact st : inner_ok st -> shared_queue_bytes_used st = exact_used st.
Proof.
  intros Hi. pose proof (exact_parts st Hi) as (?&?&?&?&?). pose proof (io_memory _ Hi) as Hm.
  unfold exact_used in *. unfold shared_queue_bytes_used, reliable_rx_buffered_bytes, discovery_bytes_used, usum.
  fold (buffer_costs st) (route_costs st). fold (zsum (buffer_costs st)) (zsum (route_costs st)).
  unfold bytes_used. rewrite !wrap_small by zlia. zlia.
Qed.
End Invariant.

Section Pops.
Context `{Config} `{Layout} `{RouterLayout} (Hsize : 0 <= sizeof_DiscoverySideState).

Lemma total_drop1 {T} `{ByteCost T} (d : BoundedDeque T) :
  bd_inv d -> total (drop 1 (q d)) <= cur_bytes d.
Proof. intros Hi. rewrite (bi_bytes _ Hi). apply total_drop_le, Hi. Qed.

Lemma is_some_head {A} (l : list A) : is_some (head l) = negb (match l with [] => true | _ => false end).
Proof. by destruct l. Qed.

(** A pop that succeeds removes one item; one that fails changes nothing. *)
Definition pop_ok (st : RouterInner) (r : bool * RouterInner) : Prop :=
  inner_ok (snd r) /\ evicted st (snd r) /\ exact_used (snd r) <= exact_used st
  /\ if fst r then queued_items st = S (queued_items (snd r)) else queued_items (snd r) = queued_items st.

Lemma pop_queue_step {T} `{ByteCost T} (d : BoundedDeque T) :
  bd_inv d ->
  let '(o, d') := pop_front d in
  bd_inv d' /\ popped (q d) (q d') /\ cur_bytes d' <= cur_bytes d /\ max_bytes d' = max_bytes d
  /\ if is_some o then length (q d) = S (length (q d')) else length (q d') = length (q d).
Proof.
  intros Hi. rewrite pop_front_spec by done. split; [by apply bd_inv_drop|].
  split; [apply popped_drop|]. split; [by apply total_drop1|]. split; [done|].
  rewrite is_some_head. cbn. by destruct (q d).
Qed.

Lemma set_received_facts d st :
  exact_used (set_received_queue d st) = exact_used st - cur_bytes (received_queue st) + cur_bytes d
  /\ (queued_items (set_received_queue d st) + length (q (received_queue st)) = queued_items st + length (q d))%nat.
Proof.
  unfold exact_used, queued_items. set (st' := set_received_queue d st).
  change (buffer_costs st') with (buffer_costs st). change (route_costs st') with (route_costs st).
  change (rx_buffered st') with (rx_buffered st). change (received_queue st') with d.
  change (transmit_queue st') with (transmit_queue st). change (recent_rx st') with (recent_rx st).
  change (discovery_routes st') with (discovery_routes st). split; lia.
Qed.

Lemma set_transmit_facts d st :
  exact_used (set_transmit_queue d st) = exact_used st - cur_bytes (transmit_queue st) + cur_bytes d
  /\ (queued_items (set_transmit_queue d st) + length (q (transmit_queue st)) = queued_items st + length (q d))%nat.
Proof.
  unfold exact_used, queued_items. set (st' := set_transmit_queue d st).
  change (buffer_costs st') with (buffer_costs st). change (route_costs st') with (route_costs st).
  change (rx_buffered st') with (rx_buffered st). change (received_queue st') with (received_queue st).
  change (transmit_queue st') with d. change (recent_rx st') with (recent_rx st).
  change (discovery_routes st') with (discovery_routes st). split; lia.
Qed.

Lemma set_recent_facts d st :
  exact_used (set_recent_rx d st) = exact_used st - max_bytes (recent_rx st) + max_bytes d
  /\ (queued_items (set_recent_rx d st) + length (q (recent_rx st)) = queued_items st + length (q d))%nat.
Proof.
  unfold exact_used, queued_items. set (st' := set_recent_rx d st).
  change (buffer_costs st') with (buffer_costs st). change (route_costs st') with (route_costs st).
  change (rx_buffered st') with (rx_buffered st). change (received_queue st') with (received_queue st).
  change (transmit_queue st') with (transmit_queue st). change (recent_rx st') with d.
  change (discovery_routes st') with (discovery_routes st). split; lia.
Qed.

(** The three queues are popped alike. *)
Ltac pop_queue_solve facts :=
  match goal with
  | Hp : _ /\ _ |- pop_ok ?st (_, ?st') =>
      destruct Hp as (Hinv & Hpop & Hb & Hmax & Hlen); destruct (facts) as [He Hn];
      unfold pop_ok; cbn [fst snd];
      split; [split; try done; lia|]; split;
      [split; try done; try apply popped_refl; intros; apply rx_popped_refl|];
      split; [lia|destruct (is_some _); lia]
  end.

Lemma pop_received_ok st : inner_ok st -> pop_ok st (pop_shared_queue_item Received st).
Proof.
  intros Hi. pose proof Hi as []. cbn [pop_shared_queue_item].
  pose proof (pop_queue_step _ io_received0) as Hp. destruct (pop_front (received_queue st)) as [o d].
  pop_queue_solve (set_received_facts d st).
Qed.

Lemma pop_transmit_ok st : inner_ok st -> pop_ok st (pop_shared_queue_item Transmit st).
Proof.
  intros Hi. pose proof Hi as []. cbn [pop_shared_queue_item].
  pose proof (pop_queue_step _ io_transmit0) as Hp. destruct (pop_front (transmit_queue st)) as [o d].
  pop_queue_solve (set_transmit_facts d st).
Qed.

Lemma pop_recent_ok st : inner_ok st -> pop_ok st (pop_shared_queue_item Recent st).
Proof.
  intros Hi. pose proof Hi as []. cbn [pop_shared_queue_item].
  pose proof (@pop_queue_step _ u64_cost _ io_recent0) as Hp.
  destruct (pop_front (H := u64_cost) (recent_rx st)) as [o d].
  pop_queue_solve (set_recent_facts d st).
Qed.

(** The first non-empty buffer loses its first frame. *)
Lemma rx_split (l : list ((RouterSideId * Z) * ReliableRxState)) :
  bt_sorted l ->
  match List.find (fun e => match buffered (snd e) with [] => false | _ => true end) l with
  | Some (key, rx) => exists f rest, buffered rx = f :: rest /\ (key, rx) ∈ l
      /\ concat (map (fun e => buffered (snd e)) l) ≡ₚ
         f :: concat (map (fun e => buffered (snd e))
                (bt_update key (fun rx => {| expected_seq := expected_seq rx; buffered := rest |}) l))
  | None => concat (map (fun e => buffered (snd e)) l) = []
  end.
Proof using.
  clear Hsize.
  unfold bt_sorted. induction 1 as [|[key rx] l Hs IH Hl]; cbn [List.find map concat]; [done|]. cbn [snd].
  destruct (buffered rx) as [|f rest] eqn:Eb.
  - destruct (List.find _ l) as [[key' rx']|]; cbn [app]; [|exact IH].
    destruct IH as (f & rest & Hf & Hin & Hperm). exists f, rest. split; [done|]. split; [set_solver|].
    cbn [bt_update]. assert (cmp key' key <> Eq) as Hne.
    { rewrite cmp_eq. intros ->. rewrite Forall_forall in Hl. specialize (Hl _ Hin). unfold key_lt in Hl.
      by apply lt_irrefl in Hl. }
    destruct (cmp key' key); [done| |]; cbn [map concat snd]; by rewrite Eb.
  - exists f, rest. split; [done|]. split; [set_solver|]. cbn [bt_update]. rewrite cmp_refl. done.
Qed.

Lemma pop_rx_ok st : inner_ok st -> pop_ok st (pop_shared_queue_item ReliableRxBuffer st).
Proof.
  intros Hi. pose proof Hi as []. cbn [pop_shared_queue_item]. unfold pop_reliable_rx_buffered.
  pose proof (rx_split (reliable_rx st) io_rx0) as Hsp.
  destruct (List.find _ _) as [[key rx]|]; cbn [is_some].
  2: { split; [done|]. split; [apply evicted_refl|]. split; [done|done]. }
  destruct Hsp as ([sq f] & rest & Hb & Hin & Hperm). rewrite Hb. unfold pop_ok. cbn [fst snd is_some].
  set (m' := bt_update _ _ _) in *. set (st' := set_reliable_rx m' st).
  assert (buffer_costs st ≡ₚ (sizeof_arc_slice + blen f) :: buffer_costs st') as Hc.
  { unfold buffer_costs, rx_buffered. cbn. change (reliable_rx st') with m'. rewrite Hperm. done. }
  assert (exact_used st' <= exact_used st) as He.
  { unfold exact_used. rewrite (zsum_perm _ _ Hc). cbn [zsum fold_right].
    fold (zsum (buffer_costs st')). change (route_costs st') with (route_costs st).
    change (received_queue st') with (received_queue st). change (transmit_queue st') with (transmit_queue st).
    change (recent_rx st') with (recent_rx st). pose proof (blen_nonneg f). unfold sizeof_arc_slice. lia. }
  assert (bt_sorted m') as Hs' by (by apply bt_update_sorted).
  split; [split; try done|split; [split; try apply popped_refl; try done|split; [done|]]].
  - intros key' rx' Hin'. change (reliable_rx st') with m' in Hin'. apply bt_get_elem in Hin'; [|done]. unfold m' in Hin'.
    rewrite bt_get_update in Hin'. destruct (decide _) as [->%cmp_eq|].
    + apply bt_get_elem in Hin; [|done]. rewrite Hin in Hin'. injection Hin' as <-. cbn.
      apply bt_get_elem in Hin; [|done]. apply io_buffers0 in Hin. rewrite Hb in Hin. by inv Hin.
    + apply bt_get_elem in Hin'; [|done]. eauto.
  - lia.
  - intros key'. change (reliable_rx st') with m'. unfold m'. rewrite bt_get_update.
    destruct (decide _) as [->%cmp_eq|]; [|apply rx_popped_refl].
    apply bt_get_elem in Hin; [|done]. rewrite Hin. cbn. split; [done|]. rewrite Hb. by exists 1%nat.
  - unfold queued_items. change (discovery_routes st') with (discovery_routes st).
    unfold rx_buffered. change (reliable_rx st') with m'. rewrite Hperm. cbn. lia.
Qed.

Lemma oldest_route_elem l e : oldest_route l = Some e -> e ∈ l.
Proof using.
  clear Hsize.
  revert e. induction l as [|x l IH]; cbn; [done|]. intros e.
  destruct (oldest_route l) as [e'|]; [|intros [= ->]; set_solver].
  specialize (IH e' eq_refl). case_match; intros [= <-]; set_solver.
Qed.

Lemma oldest_route_none l : oldest_route l = None -> l = [].
Proof. destruct l as [|x l]; cbn; [done|]. destruct (oldest_route l); [by case_match|done]. Qed.

Lemma bt_remove_perm {K V} `{Ord K} k (v : V) m :
  bt_sorted m -> (k, v) ∈ m -> m ≡ₚ (k, v) :: bt_remove k m.
Proof.
  unfold bt_sorted. induction 1 as [|[j w] m Hs IH Hm]; [by intros ?%elem_of_nil|].
  cbn [bt_remove]. intros [[= -> ->]|Hin]%elem_of_cons; [by rewrite cmp_refl|].
  assert (cmp k j <> Eq) as Hne.
  { rewrite cmp_eq. intros ->. rewrite Forall_forall in Hm. specialize (Hm _ Hin). unfold key_lt in Hm.
    by apply lt_irrefl in Hm. }
  rewrite (IH Hin) at 1. destruct (cmp k j); [done| |]; apply Permutation_swap.
Qed.

Lemma pop_discovery_ok st : inner_ok st -> pop_ok st (pop_shared_queue_item DiscoveryKind st).
Proof.
  intros Hi. pose proof Hi as []. cbn [pop_shared_queue_item]. unfold pop_discovery_route.
  destruct (oldest_route _) as [[side route]|] eqn:E.
  2: { split; [done|]. split; [apply evicted_refl|]. split; [done|done]. }
  apply oldest_route_elem in E. pose proof (bt_remove_perm _ _ _ io_routes0 E) as Hp. unfold pop_ok. cbn [fst snd].
  set (m' := bt_remove _ _) in *. set (st' := set_discovery_routes m' st).
  assert (route_costs st ≡ₚ discovery_route_byte_cost side route :: route_costs st') as Hc.
  { unfold route_costs. change (discovery_routes st') with m'. by rewrite Hp at 1. }
  assert (exact_used st' <= exact_used st) as He.
  { unfold exact_used. rewrite (zsum_perm _ _ Hc). cbn [zsum fold_right].
    fold (zsum (route_costs st')). change (buffer_costs st') with (buffer_costs st).
    change (received_queue st') with (received_queue st). change (transmit_queue st') with (transmit_queue st).
    change (recent_rx st') with (recent_rx st). pose proof (route_cost_pos side route Hsize). lia. }
  split; [split; try done; [by apply bt_remove_sorted|lia]|split; [split; try apply popped_refl; try done|split; [done|]]].
  - intros; apply rx_popped_refl.
  - intros e He'. change (discovery_routes st') with m' in He'. by apply bt_remove_elem in He'.
  - unfold queued_items. change (discovery_routes st') with m'. change (rx_buffered st') with (rx_buffered st).
    change (received_queue st') with (received_queue st). change (transmit_queue st') with (transmit_queue st).
    change (recent_rx st') with (recent_rx st). rewrite Hp at 1. cbn. lia.
Qed.

Lemma pop_item_ok kind st : inner_ok st -> pop_ok st (pop_shared_queue_item kind st).
Proof.
  destruct kind; [apply pop_received_ok|apply pop_transmit_ok|apply pop_recent_ok|apply pop_rx_ok|
    apply pop_discovery_ok].
Qed.

Lemma max_candidate_elem l kind key :
  max_candidate l = Some (kind, key) -> exists b n, (kind, b, n) ∈ l.
Proof.
  revert kind key. induction l as [|[[k b] n] l IH]; cbn; [done|]. intros kind key.
  destruct (max_candidate l) as [[k' key']|].
  - case_match; intros [= <- <-]; [exists b, n; set_solver|].
    destruct (IH k' key' eq_refl) as (b' & n' & Hin). exists b', n'. set_solver.
  - intros [= <- <-]. exists b, n. set_solver.
Qed.

Lemma max_candidate_none l : max_candidate l = None -> l = [].
Proof.
  destruct l as [|[[k b] n] l]; cbn; [done|]. destruct (max_candidate l) as [[k' key']|]; [by case_match|done].
Qed.

Lemma zsum_count l c : Forall (fun x => c <= x) l -> c * Z.of_nat (length l) <= zsum l.
Proof. induction 1 as [|x l Hx Hl IH]; cbn; [lia|]. unfold zsum in *. lia. Qed.

Lemma nonempty_length {A} (l : list A) : 0 < Z.of_nat (length l) <-> l <> [].
Proof. destruct l; cbn; split; (done || lia). Qed.

Lemma buffer_len_exact st :
  inner_ok st -> reliable_rx_buffer_len st = Z.of_nat (length (rx_buffered st)).
Proof.
  intros Hi. unfold reliable_rx_buffer_len, usum.
  assert (fold_right Z.add 0 (map (fun e => nlen (buffered (snd e))) (reliable_rx st))
          = Z.of_nat (length (rx_buffered st))) as ->.
  { unfold rx_buffered, nlen. induction (reliable_rx st) as [|e l IH]; cbn; [done|].
    rewrite IH, length_app. lia. }
  apply wrap_small. pose proof (zsum_count _ 16 (buffer_costs_nonneg st)) as Hc.
  unfold buffer_costs in Hc. rewrite length_map in Hc. fold (buffer_costs st) in Hc.
  pose proof (exact_parts Hsize st Hi) as (?&?&?&?&?). pose proof (io_memory _ Hi). unfold exact_used in *. zlia.
Qed.

Lemma candidates_elem st k b n :
  (k, b, n) ∈ List.filter (fun '(_, bytes, len) => (0 <? bytes) && (0 <? len))
    [(Received, bytes_used (received_queue st), len (received_queue st));
     (Transmit, bytes_used (transmit_queue st), len (transmit_queue st)); (Recent, 0, 0);
     (ReliableRxBuffer, reliable_rx_buffered_bytes st, reliable_rx_buffer_len st);
     (DiscoveryKind, discovery_bytes_used st, nlen (discovery_routes st))] ->
  0 < b /\ 0 < n /\
  match k with
  | Received => n = len (received_queue st)
  | Transmit => n = len (transmit_queue st)
  | Recent => False
  | ReliableRxBuffer => n = reliable_rx_buffer_len st
  | DiscoveryKind => n = nlen (discovery_routes st)
  end.
Proof.
  rewrite elem_of_List_filter. intros [Hin [Hb Hn]%andb_true_iff].
  apply Z.ltb_lt in Hb, Hn. split; [done|]. split; [done|].
  repeat (apply elem_of_cons in Hin as [[= -> -> ->]|Hin]; [done || lia|]). by apply elem_of_nil in Hin.
Qed.

(** The victim always has something to give. *)
Lemma largest_poppable st k :
  inner_ok st -> largest_shared_queue st = Some k -> fst (pop_shared_queue_item k st) = true.
Proof.
  intros Hi Hl. unfold largest_shared_queue in Hl. cbn zeta in Hl.
  destruct (max_candidate _) as [[k' key]|] eqn:E; [|done]. injection Hl as <-.
  apply max_candidate_elem in E as (b & n & Hin). apply candidates_elem in Hin as (_ & Hn & Hk).
  destruct k' as [| | | |]; [| |done| |]; subst n; cbn [pop_shared_queue_item].
  - unfold pop_front, len in *. by destruct (q (received_queue st)); [cbn in Hn; lia|].
  - unfold pop_front, len in *. by destruct (q (transmit_queue st)); [cbn in Hn; lia|].
  - rewrite buffer_len_exact in Hn by done. apply nonempty_length in Hn.
    unfold pop_reliable_rx_buffered. pose proof (rx_split (reliable_rx st) (io_rx _ Hi)) as Hsp.
    destruct (List.find _ _) as [[key' rx]|]; [|done]. by destruct Hsp as ([] & rest & -> & _).
  - unfold pop_discovery_route. destruct (oldest_route _) as [[]|] eqn:E; [done|].
    apply oldest_route_none in E. by rewrite E in Hn.
Qed.

Lemma bd_empty_bytes {T} `{ByteCost T} (d : BoundedDeque T) :
  bd_inv d -> (0 <? bytes_used d) && (0 <? len d) = false -> cur_bytes d = 0.
Proof.
  intros Hi Hf. pose proof (bi_bytes _ Hi) as Hb. pose proof (total_nonneg _ (bi_cost _ Hi)) as Hn.
  unfold bytes_used, len in Hf. apply andb_false_iff in Hf as [Hf|Hf]; apply Z.ltb_ge in Hf; [lia|].
  rewrite Hb. by destruct (q d); [|cbn in Hf; lia].
Qed.

(** Without a victim only the fixed share of [recent_rx] is in use. *)
Lemma largest_none st :
  inner_ok st -> largest_shared_queue st = None -> exact_used st = max_bytes (recent_rx st).
Proof.
  intros Hi Hl. unfold largest_shared_queue in Hl. cbn zeta in Hl.
  destruct (max_candidate _) eqn:E; [done|]. apply max_candidate_none in E. cbn [List.filter] in E.
  repeat match type of E with (if ?b then _ else _) = [] => destruct b eqn:?; [done|] end.
  pose proof (exact_parts Hsize st Hi) as (?&?&?&Hbn&Hrn). pose proof (io_memory _ Hi) as Hm.
  assert (zsum (buffer_costs st) = 0 /\ zsum (route_costs st) = 0) as [Z1 Z2].
  { unfold exact_used in Hm.
    rewrite buffer_len_exact in * by done. unfold reliable_rx_buffered_bytes, discovery_bytes_used, usum in *.
    fold (buffer_costs st) (route_costs st) in *. fold (zsum (buffer_costs st)) (zsum (route_costs st)) in *.
    rewrite !wrap_small in * by zlia.
    repeat match goal with H : (_ <? _) && _ = false |- _ => apply andb_false_iff in H; rewrite !Z.ltb_ge in H end.
    split; match goal with |- ?z = 0 => assert (z <= 0); [|lia] end.
    - assert (rx_buffered st = [] -> zsum (buffer_costs st) = 0) by (unfold buffer_costs; by intros ->).
      destruct (rx_buffered st) eqn:Eb; [naive_solver lia|]. cbn in *. lia.
    - assert (discovery_routes st = [] -> zsum (route_costs st) = 0) by (unfold route_costs; by intros ->).
      unfold nlen in *. destruct (discovery_routes st) eqn:Eb; [naive_solver lia|]. cbn in *. lia. }
  unfold exact_used. rewrite Z1, Z2.
  rewrite (bd_empty_bytes (received_queue st)), (bd_empty_bytes (transmit_queue st)); [lia|apply Hi|done|apply Hi|done].
Qed.

Lemma evict_once_ok pref st :
  inner_ok st -> pop_ok st (evict_once pref st) /\
  (fst (evict_once pref st) = false -> exact_used st = max_bytes (recent_rx st)).
Proof.
  intros Hi. unfold evict_once. destruct (largest_shared_queue st) as [k|] eqn:El.
  - change (default pref (Some k)) with k. pose proof (largest_poppable st k Hi El) as Hp. pose proof (pop_item_ok k st Hi) as Hok.
    destruct (pop_shared_queue_item k st) as [b st']. cbn in Hp. subst b. split; [exact Hok|done].
  - pose proof (pop_item_ok pref st Hi) as Hok. pose proof (largest_none st Hi El) as Hn. change (default pref None) with pref.
    destruct (pop_shared_queue_item pref st) as [[] st']; [split; [exact Hok|done]|].
    destruct Hok as (Hi' & Hev & He & Hq). cbn [fst snd] in *.
    pose proof (pop_item_ok pref st' Hi') as (Hi2 & Hev2 & He2 & Hq2).
    split; [|done]. split; [done|]. split; [by eapply evicted_trans|]. split; [lia|].
    destruct (pop_shared_queue_item pref st') as [[] st2]; cbn in *; lia.
Qed.

(** Making room: enough is evicted and no more, or the item cannot fit. *)
Definition room_ok (st : RouterInner) (cost : Z) (r : RouterInner * TelemetryResult unit) : Prop :=
  inner_ok (fst r) /\ evicted st (fst r) /\ exact_used (fst r) <= exact_used st
  /\ match snd r with
     | Ok _ => exact_used (fst r) + cost <= MAX_QUEUE_BUDGET
     | Err e => e = budget_error /\ MAX_QUEUE_BUDGET < max_bytes (recent_rx st) + cost
     | Panic => False
     end.

Lemma make_room_ok cost pref fuel st :
  inner_ok st -> 0 <= cost -> MAX_QUEUE_BUDGET <= isize_max -> (queued_items st < fuel)%nat ->
  room_ok st cost (make_room_loop fuel cost pref st).
Proof.
  intros Hi Hc Hmax. revert st Hi. induction fuel as [|fuel IH]; intros st Hi Hf; [lia|]. cbn [make_room_loop].
  pose proof (exact_parts Hsize st Hi) as (?&?&?&?&?). pose proof (io_memory _ Hi) as Hm.
  destruct (Z.ltb_spec MAX_QUEUE_BUDGET (sat_add64 (shared_queue_bytes_used st) cost)) as [Hover|Hfit].
  - destruct (evict_once_ok pref st Hi) as [(Hi' & Hev & He & Hq) Hnone].
    destruct (evict_once pref st) as [[] st'] eqn:E; cbn [fst snd] in *.
    + destruct (IH st' Hi' ltac:(lia)) as (Hi2 & Hev2 & He2 & Hr).
      split; [done|]. split; [by eapply evicted_trans|]. split; [lia|].
      rewrite (ev_recent_max _ _ Hev) in Hr. exact Hr.
    + split; [done|]. split; [done|]. split; [done|]. cbn. split; [done|].
      rewrite used_exact in Hover by done. specialize (Hnone eq_refl). unfold exact_used in *. zlia.
  - split; [done|]. split; [apply evicted_refl|]. split; [cbn; lia|]. cbn.
    rewrite used_exact in Hfit by done. unfold exact_used in *. zlia.
Qed.

(** [make_shared_queue_room] on every branch. *)
Lemma make_shared_room_ok cost pref st :
  inner_ok st -> 0 <= cost -> MAX_QUEUE_BUDGET <= isize_max ->
  let r := make_shared_queue_room cost pref st in
  room_ok st cost r
  /\ (exact_used st + cost <= MAX_QUEUE_BUDGET -> r = (st, Ok tt)).
Proof.
  intros Hi Hc Hmax. unfold make_shared_queue_room.
  pose proof (exact_parts Hsize st Hi) as (?&?&?&?&?). pose proof (io_memory _ Hi) as Hm.
  destruct (Z.ltb_spec MAX_QUEUE_BUDGET cost) as [Hbig|Hsmall].
  { split; [|unfold exact_used in *; lia]. split; [done|]. split; [apply evicted_refl|]. split; [cbn; lia|].
    cbn. split; [done|]. lia. }
  split; [apply make_room_ok; (done || lia)|]. intros Hfit. cbn [make_room_loop].
  rewrite used_exact by done. destruct (Z.ltb_spec MAX_QUEUE_BUDGET (sat_add64 (exact_used st) cost)); [|done].
  unfold exact_used in *. zlia.
Qed.

(** *** The four insertions *)

Lemma zsum_concat (l : list (list Z)) : zsum (concat l) = zsum (map zsum l).
Proof. induction l as [|x l IH]; cbn; [done|]. rewrite zsum_app. unfold zsum in *. lia. Qed.

Lemma bt_insert_sum {K V} `{Ord K} (g : V -> Z) k v (m : list (K * V)) :
  bt_sorted m ->
  zsum (map (fun e => g (snd e)) (bt_insert k v m))
  = zsum (map (fun e => g (snd e)) m) - from_option g 0 (bt_get k m) + g v.
Proof.
  unfold bt_sorted. induction 1 as [|[j w] m Hs IH Hm]; cbn [bt_insert bt_get].
  { cbn. lia. }
  destruct (cmp k j) eqn:E; cbn [map snd zsum fold_right from_option].
  - unfold zsum in *. lia.
  - rewrite bt_get_above; [cbn; unfold zsum in *; lia|].
    eapply Forall_impl; [exact Hm|]. intros [k' v']. unfold key_lt. cbn. apply lt_trans. by unfold Ordered.lt.
  - fold (zsum (map (fun e => g (snd e)) (bt_insert k v m))). rewrite IH. unfold zsum. lia.
Qed.

Definition frames_cost (l : list (Z * list byte)) : Z :=
  zsum (map (fun e => sizeof_arc_slice + blen (snd e)) l).

Lemma buffer_costs_sum st :
  zsum (buffer_costs st) = zsum (map (fun e => frames_cost (buffered (snd e))) (reliable_rx st)).
Proof.
  unfold buffer_costs, rx_buffered, frames_cost. rewrite concat_map, zsum_concat, !map_map. done.
Qed.

Lemma update_rx_used key f st :
  inner_ok st ->
  exact_used (update_rx key f st)
  = exact_used st - frames_cost (buffered (default rx_state_new (bt_get key (reliable_rx st))))
    + frames_cost (buffered (f (default rx_state_new (bt_get key (reliable_rx st))))).
Proof.
  intros Hi. unfold exact_used. rewrite !buffer_costs_sum.
  change (reliable_rx (update_rx key f st)) with
    (bt_insert key (f (default rx_state_new (bt_get key (reliable_rx st)))) (reliable_rx st)).
  change (route_costs (update_rx key f st)) with (route_costs st).
  change (received_queue (update_rx key f st)) with (received_queue st).
  change (transmit_queue (update_rx key f st)) with (transmit_queue st).
  change (recent_rx (update_rx key f st)) with (recent_rx st).
  rewrite (bt_insert_sum (fun rx => frames_cost (buffered rx))) by apply Hi.
  destruct (bt_get key (reliable_rx st)); cbn; unfold frames_cost, zsum; cbn; lia.
Qed.

Lemma frames_cost_tail l : frames_cost (tail l) <= frames_cost l.
Proof.
  destruct l as [|e l]; cbn; [done|]. unfold frames_cost. cbn. pose proof (blen_nonneg (snd e)).
  unfold zsum, sizeof_arc_slice in *. lia.
Qed.

(** Buffering a new frame costs at most its own cost. *)
Lemma buffer_frame_cost sq bytes rx :
  bt_sorted (buffered rx) ->
  frames_cost (buffered (buffer_frame sq bytes rx)) <= frames_cost (buffered rx) + (sizeof_arc_slice + blen bytes).
Proof.
  intros Hs. unfold buffer_frame. cbn [buffered]. set (kept := if RELIABLE_MAX_PENDING <=? nlen (buffered rx) then tail (buffered rx) else buffered rx).
  assert (bt_sorted kept /\ frames_cost kept <= frames_cost (buffered rx)) as [Hk Hc].
  { unfold kept. destruct (_ <=? _); [|done]. split; [|apply frames_cost_tail].
    destruct (buffered rx); [done|]. by inv Hs. }
  pose proof (bt_insert_sum (fun b => sizeof_arc_slice + blen b) sq bytes kept Hk) as Hsum.
  unfold frames_cost in *. rewrite Hsum. destruct (bt_get sq kept) as [b|]; cbn; [|lia].
  pose proof (blen_nonneg b). unfold sizeof_arc_slice in *. lia.
Qed.

Lemma buffer_frame_sorted sq bytes rx : bt_sorted (buffered rx) -> bt_sorted (buffered (buffer_frame sq bytes rx)).
Proof.
  intros Hs. apply bt_insert_sorted. destruct (_ <=? _); [|done]. destruct (buffered rx); [done|]. by inv Hs.
Qed.

Lemma update_rx_inner_ok key f st :
  inner_ok st ->
  bt_sorted (buffered (f (default rx_state_new (bt_get key (reliable_rx st))))) ->
  exact_used (update_rx key f st) <= isize_max -> inner_ok (update_rx key f st).
Proof.
  intros Hi Hf Hm. pose proof Hi as []. split; try done.
  - by apply bt_insert_sorted.
  - intros k rx Hin. change (reliable_rx (update_rx key f st)) with
      (bt_insert key (f (default rx_state_new (bt_get key (reliable_rx st)))) (reliable_rx st)) in Hin.
    apply bt_insert_elem in Hin as [[= -> ->]|Hin]; [done|eauto].
Qed.

Lemma rx_default_sorted key st :
  inner_ok st -> bt_sorted (buffered (default rx_state_new (bt_get key (reliable_rx st)))).
Proof.
  intros Hi. destruct (bt_get key (reliable_rx st)) as [rx|] eqn:E; cbn; [|constructor].
  apply bt_get_elem in E; [|apply Hi]. by apply (io_buffers _ Hi) in E.
Qed.

(** The invariant the router keeps of its queues. *)
Definition budget_ok (st : RouterInner) : Prop :=
  inner_ok st /\ shared_queue_bytes_used st <= MAX_QUEUE_BUDGET.

Definition keeps_budget (r : RouterInner * TelemetryResult unit) : Prop :=
  budget_ok (fst r) /\ snd r <> Panic.

Lemma set_received_inner_ok d st :
  inner_ok st -> bd_inv d -> exact_used (set_received_queue d st) <= isize_max ->
  inner_ok (set_received_queue d st).
Proof. intros [] Hd Hm. by split. Qed.

Lemma set_transmit_inner_ok d st :
  inner_ok st -> bd_inv d -> exact_used (set_transmit_queue d st) <= isize_max ->
  inner_ok (set_transmit_queue d st).
Proof. intros [] Hd Hm. by split. Qed.

Lemma set_recent_inner_ok d st :
  inner_ok st -> bd_inv (H := u64_cost) d -> exact_used (set_recent_rx d st) <= isize_max ->
  inner_ok (set_recent_rx d st).
Proof. intros [] Hd Hm. by split. Qed.

Lemma prioritized_bytes {T} `{ByteCost T} prio (d : BoundedDeque T) v :
  bd_inv d -> cost_ok v ->
  let '(d', r) := push_back_prioritized prio d v in
  bd_inv d' /\ cur_bytes d' <= cur_bytes d + byte_cost v /\ r <> Panic.
Proof.
  intros Hi Hv. pose proof (push_back_prioritized_cases prio d v Hi Hv) as Hc.
  destruct (max_bytes d <? byte_cost v).
  { rewrite Hc. unfold cost_ok in Hv. split; [done|]. split; [lia|done]. }
  destruct Hc as (k & _ & Hinv & Hr). destruct (push_back_prioritized prio d v) as [d' r]. cbn in *.
  pose proof (total_take_le (q d) k (bi_cost _ Hi)) as Ht. rewrite (bi_bytes _ Hinv), (bi_bytes _ Hi).
  unfold cost_ok in Hv. split; [done|]. destruct r as [[]|e|]; [| |done].
  - destruct Hr as [_ ->]. split; [|done]. clear -Ht.
    assert (total (prio_insert prio v (take k (q d))) = byte_cost v + total (take k (q d))) as ->; [|lia].
    pose proof (prio_insert_perm prio v (take k (q d))) as Hp.
    change (byte_cost v + total (take k (q d))) with (total (v :: take k (q d))).
    clear Ht. induction Hp; cbn; lia.
  - destruct Hr as (_ & _ & _ & ->). split; [lia|done].
Qed.

Lemma push_back_inv {T} `{ByteCost T} (d : BoundedDeque T) v :
  bd_inv d -> cost_ok v ->
  let '(d', r) := push_back d v in bd_inv d' /\ max_bytes d' = max_bytes d /\ r <> Panic.
Proof.
  intros Hi Hv. destruct (Z.ltb_spec (max_bytes d) (byte_cost v)) as [Hc|Hc].
  { unfold push_back, prepare_push_fifo. destruct (Z.ltb_spec (max_bytes d) (byte_cost v)); [done|lia]. }
  destruct (push_back_spec d v Hi Hv Hc) as (k & c & -> & (Hk & [Hfit Hn] & _) & Hlen & Hcm).
  split; [|done]. eapply bd_inv_insert; eauto; [apply Forall_drop, Hi|by rewrite Permutation_app_comm].
Qed.

Lemma budget_exact st : inner_ok st -> (budget_ok st <-> exact_used st <= MAX_QUEUE_BUDGET).
Proof. intros Hi. unfold budget_ok. rewrite used_exact by done. tauto. Qed.

Lemma control_max_evicted st st' cost r :
  room_ok st cost (st', r) -> exact_used st <= MAX_QUEUE_BUDGET -> exact_used st' <= MAX_QUEUE_BUDGET.
Proof. intros (_ & _ & He & _) Hm. cbn in He. lia. Qed.

Lemma push_received_ok i st :
  MAX_QUEUE_BUDGET <= isize_max -> cost_ok i -> budget_ok st ->
  keeps_budget (push_received i st)
  /\ (shared_queue_bytes_used st + byte_cost i <= MAX_QUEUE_BUDGET ->
      push_received i st = let '(d, r) := push_back_prioritized rx_priority (received_queue st) i in
                           (set_received_queue d st, r)).
Proof.
  intros Hmax Hc [Hi Hb]. rewrite used_exact in Hb by done.
  unfold push_received.
  destruct (make_shared_room_ok (byte_cost i) Received st Hi Hc Hmax) as [Hr Hid].
  split; [|intros Hfit; rewrite used_exact in Hfit by done; by rewrite RM_run, Hid].
  rewrite RM_run. destruct (make_shared_queue_room _ _ st) as [st' [[]|e|]]; destruct Hr as (Hi' & Hev & He & Hr); cbn [fst snd] in *.
  - pose proof (prioritized_bytes rx_priority (received_queue st') i (io_received _ Hi') Hc) as Hp.
    destruct (push_back_prioritized _ _ _) as [d r]. destruct Hp as (Hd & Hcb & Hnp).
    destruct (set_received_facts d st') as [Hu _].
    assert (inner_ok (set_received_queue d st')) as Hi2
      by (apply set_received_inner_ok; [done|done|unfold isize_max in *; lia]).
    split; [|done]. apply budget_exact; [done|]. cbn [fst]. lia.
  - split; [|done]. apply budget_exact; [done|]. cbn. lia.
  - done.
Qed.

Lemma push_transmit_ok i st :
  MAX_QUEUE_BUDGET <= isize_max -> cost_ok i -> budget_ok st ->
  keeps_budget (push_transmit i st)
  /\ (shared_queue_bytes_used st + byte_cost i <= MAX_QUEUE_BUDGET ->
      push_transmit i st = let '(d, r) := push_back_prioritized txq_priority (transmit_queue st) i in
                           (set_transmit_queue d st, r)).
Proof.
  intros Hmax Hc [Hi Hb]. rewrite used_exact in Hb by done.
  unfold push_transmit.
  destruct (make_shared_room_ok (byte_cost i) Transmit st Hi Hc Hmax) as [Hr Hid].
  split; [|intros Hfit; rewrite used_exact in Hfit by done; by rewrite RM_run, Hid].
  rewrite RM_run. destruct (make_shared_queue_room _ _ st) as [st' [[]|e|]]; destruct Hr as (Hi' & Hev & He & Hr); cbn [fst snd] in *.
  - pose proof (prioritized_bytes txq_priority (transmit_queue st') i (io_transmit _ Hi') Hc) as Hp.
    destruct (push_back_prioritized _ _ _) as [d r]. destruct Hp as (Hd & Hcb & Hnp).
    destruct (set_transmit_facts d st') as [Hu _].
    assert (inner_ok (set_transmit_queue d st')) as Hi2
      by (apply set_transmit_inner_ok; [done|done|unfold isize_max in *; lia]).
    split; [|done]. apply budget_exact; [done|]. cbn [fst]. lia.
  - split; [|done]. apply budget_exact; [done|]. cbn. lia.
  - done.
Qed.

Lemma trim_recent_ok fuel st :
  1 <= MAX_RECENT_RX_IDS -> inner_ok st -> (length (q (recent_rx st)) <= fuel)%nat ->
  let '(st', r) := trim_recent fuel st in
  inner_ok st' /\ exact_used st' = exact_used st /\ r = Ok tt /\ len (recent_rx st') < MAX_RECENT_RX_IDS
  /\ popped (q (recent_rx st)) (q (recent_rx st')).
Proof.
  intros Hm. revert st. induction fuel as [|fuel IH]; intros st Hi Hf; cbn [trim_recent].
  - unfold len. destruct (Z.leb_spec MAX_RECENT_RX_IDS (Z.of_nat (length (q (recent_rx st))))); [lia|].
    do 3 (split; [done|]). split; [done|apply popped_refl].
  - unfold len at 1. destruct (Z.leb_spec MAX_RECENT_RX_IDS (Z.of_nat (length (q (recent_rx st))))) as [Hle|Hlt].
    2: { do 3 (split; [done|]). split; [done|apply popped_refl]. }
    pose proof (@pop_queue_step _ u64_cost _ (io_recent _ Hi)) as Hp.
    assert (fst (pop_front (H := u64_cost) (recent_rx st)) = head (q (recent_rx st))) as Ho
      by (rewrite pop_front_spec; [done|apply Hi]).
    destruct (pop_front (H := u64_cost) (recent_rx st)) as [o d]. cbn [fst] in Ho. destruct Hp as (Hinv & Hpop & Hb & Hmb & Hlen).
    destruct (set_recent_facts d st) as [Hu _]. cbn [snd].
    assert (inner_ok (set_recent_rx d st)) as Hi2.
    { apply set_recent_inner_ok; [done|done|]. pose proof (io_memory _ Hi). lia. }
    specialize (IH (set_recent_rx d st) Hi2). destruct (trim_recent fuel (set_recent_rx d st)) as [st' r].
    destruct IH as (I1 & I2 & I3 & I4 & I5).
    { change (recent_rx (set_recent_rx d st)) with d. destruct (is_some o) eqn:Eo; [lia|].
      exfalso. rewrite Ho in Eo. destruct (q (recent_rx st)); [cbn in *; lia|done]. }
    split; [done|]. split; [lia|]. split; [done|]. split; [done|]. by eapply popped_trans.
Qed.

Lemma push_recent_ok id st :
  MAX_QUEUE_BUDGET <= isize_max -> 1 <= MAX_RECENT_RX_IDS -> budget_ok st ->
  keeps_budget (push_recent_rx id st).
Proof.
  intros Hmax Hids [Hi Hb]. rewrite used_exact in Hb by done. unfold push_recent_rx.
  rewrite RM_run. cbn [get]. rewrite RM_run.
  pose proof (trim_recent_ok (length (q (recent_rx st))) st Hids Hi (Nat.le_refl _)) as Ht.
  destruct (trim_recent _ st) as [st1 r1]. destruct Ht as (Hi1 & Hu1 & -> & _). rewrite RM_run.
  destruct (make_shared_room_ok 0 Recent st1 Hi1 ltac:(lia) Hmax) as [Hr _].
  destruct (make_shared_queue_room _ _ st1) as [st2 [[]|e|]]; destruct Hr as (Hi2 & _ & He & Hp); cbn [fst snd] in *; [clear Hp| |done].
  - pose proof (@push_back_inv _ u64_cost (recent_rx st2) id (io_recent _ Hi2) ltac:(unfold cost_ok; cbn; lia)) as Hp.
    destruct (push_back _ _) as [d r]. destruct Hp as (Hd & Hmb & Hnp). destruct (set_recent_facts d st2) as [Hu _].
    split; [|done]. cbn [fst].
    assert (inner_ok (set_recent_rx d st2)) by (apply set_recent_inner_ok; [done|done|unfold isize_max in *; lia]).
    apply budget_exact; [done|]. lia.
  - split; [|done]. apply budget_exact; [done|]. cbn. lia.
Qed.

Lemma buffer_frame_ok key sq bytes st :
  MAX_QUEUE_BUDGET <= isize_max -> budget_ok st ->
  keeps_budget ((_ ← make_shared_queue_room (sizeof_arc_slice + blen bytes) ReliableRxBuffer;
                 modify (update_rx key (buffer_frame sq bytes))) st).
Proof.
  intros Hmax [Hi Hb]. rewrite used_exact in Hb by done. rewrite RM_run.
  pose proof (blen_nonneg bytes).
  destruct (make_shared_room_ok (sizeof_arc_slice + blen bytes) ReliableRxBuffer st Hi) as [Hr _];
    [unfold sizeof_arc_slice; lia|done|].
  destruct (make_shared_queue_room _ _ st) as [st' [[]|e|]]; destruct Hr as (Hi' & _ & He & Hr); cbn [fst snd] in *.
  - pose proof (rx_default_sorted key st' Hi') as Hs.
    pose proof (update_rx_used key (buffer_frame sq bytes) st' Hi') as Hu.
    pose proof (buffer_frame_cost sq bytes _ Hs) as Hc. unfold modify. split; [|done]. cbn [fst].
    assert (inner_ok (update_rx key (buffer_frame sq bytes) st')) as Hi2.
    { apply update_rx_inner_ok; [done|by apply buffer_frame_sorted|lia]. }
    apply budget_exact; [done|]. lia.
  - split; [|done]. apply budget_exact; [done|]. cbn. lia.
  - done.
Qed.

Lemma buffer_rx_ok side t sq bytes st :
  MAX_QUEUE_BUDGET <= isize_max -> budget_ok st -> keeps_budget (buffer_reliable_rx side t sq bytes st).
Proof.
  intros Hmax Hb. unfold buffer_reliable_rx. destruct (bt_get _ _) as [rx|]; [destruct (bt_contains _ _); [done|]|];
    by apply buffer_frame_ok.
Qed.

Lemma fit_discovery_ok st :
  inner_ok st ->
  let st' := fit_discovery_budget st in
  inner_ok st' /\ evicted st st' /\ received_queue st' = received_queue st
  /\ transmit_queue st' = transmit_queue st /\ reliable_rx st' = reliable_rx st
  /\ (shared_queue_bytes_used st' <= MAX_QUEUE_BUDGET \/ discovery_routes st' = []).
Proof.
  unfold fit_discovery_budget. intros Hi.
  assert (forall fuel st, inner_ok st -> (length (discovery_routes st) <= fuel)%nat ->
    let st' := fit_discovery_loop fuel st in
    inner_ok st' /\ evicted st st' /\ received_queue st' = received_queue st
    /\ transmit_queue st' = transmit_queue st /\ reliable_rx st' = reliable_rx st
    /\ (shared_queue_bytes_used st' <= MAX_QUEUE_BUDGET \/ discovery_routes st' = [])) as Hloop; [|by apply Hloop].
  clear st Hi. induction fuel as [|fuel IH]; intros st Hi Hf; cbn [fit_discovery_loop].
  all: destruct (Z.ltb_spec MAX_QUEUE_BUDGET (shared_queue_bytes_used st)) as [Hover|Hfit];
    [|split; [done|]; split; [apply evicted_refl|]; do 3 (split; [done|]); by left].
  all: unfold pop_discovery_route; destruct (oldest_route (discovery_routes st)) as [[side route]|] eqn:E;
    [|apply oldest_route_none in E; split; [done|]; split; [apply evicted_refl|]; do 3 (split; [done|]); by right].
  all: pose proof (pop_discovery_ok st Hi) as Hp; cbn [pop_shared_queue_item] in Hp;
    unfold pop_discovery_route in Hp; rewrite E in Hp; destruct Hp as (Hi' & Hev & _ & Hq); cbn [fst snd] in *;
    apply oldest_route_elem in E; pose proof (bt_remove_perm _ _ _ (io_routes _ Hi) E) as Hperm;
    apply Permutation_length in Hperm; cbn [length] in Hperm.
  - lia.
  - destruct (IH (set_discovery_routes (bt_remove side (discovery_routes st)) st) Hi') as (F1 & F2 & F3 & F4 & F5 & F6).
    { change (discovery_routes (set_discovery_routes ?m ?s)) with m. lia. }
    split; [done|]. split; [by eapply evicted_trans|]. by rewrite F3, F4, F5.
Qed.

(** C7. The shared queue budget is an invariant: the four insertions
    keep the memory in use, counted the way the program counts it, within
    [MAX_QUEUE_BUDGET], keep every queue well formed, and always terminate with
    an answer; an item for which there is room evicts nothing from the other
    queues; and trimming the topology ends within the budget or with no route
    left. *)
Theorem shared_budget_invariant st i t id side ty sq bytes :
  MAX_QUEUE_BUDGET <= isize_max -> 1 <= MAX_RECENT_RX_IDS -> cost_ok i -> cost_ok t -> budget_ok st ->
  (keeps_budget (push_received i st) /\ keeps_budget (push_transmit t st)
   /\ keeps_budget (push_recent_rx id st) /\ keeps_budget (buffer_reliable_rx side ty sq bytes st))
  /\ (shared_queue_bytes_used st + byte_cost i <= MAX_QUEUE_BUDGET ->
      fst (push_received i st)
      = set_received_queue (fst (push_back_prioritized rx_priority (received_queue st) i)) st)
  /\ (shared_queue_bytes_used st + byte_cost t <= MAX_QUEUE_BUDGET ->
      fst (push_transmit t st)
      = set_transmit_queue (fst (push_back_prioritized txq_priority (transmit_queue st) t)) st)
  /\ (forall st0, inner_ok st0 ->
      budget_ok (fit_discovery_budget st0) \/ discovery_routes (fit_discovery_budget st0) = []).
Proof.
  intros Hmax Hids Hci Hct Hb.
  destruct (push_received_ok i st Hmax Hci Hb) as [Hr Hr'].
  destruct (push_transmit_ok t st Hmax Hct Hb) as [Ht Ht'].
  split; [|split; [|split]].
  - split; [done|]. split; [done|]. split; [by apply push_recent_ok|by apply buffer_rx_ok].
  - intros Hfit. rewrite (Hr' Hfit). by destruct (push_back_prioritized _ _ _).
  - intros Hfit. rewrite (Ht' Hfit). by destruct (push_back_prioritized txq_priority (transmit_queue st) t).
  - intros st0 Hi0. destruct (fit_discovery_ok st0 Hi0) as (Hi & _ & _ & _ & _ & [Hu|Hn]); [left; by split|by right].
Qed.

(** Making room, exactly: with enough space nothing changes;
    otherwise items are evicted from the front of the queues, oldest first,
    until the newcomer fits.  Only an item that cannot fit beside the fixed
    share of the duplicate filter is refused, and nothing but queued items,
    buffered frames and topology routes is ever dropped. *)
Theorem make_shared_queue_room_correct st cost preferred :
  inner_ok st -> 0 <= cost -> MAX_QUEUE_BUDGET <= isize_max ->
  let '(st', r) := make_shared_queue_room cost preferred st in
  evicted st st' /\ inner_ok st'
  /\ match r with
     | Ok _ => shared_queue_bytes_used st' + cost <= MAX_QUEUE_BUDGET
     | Err e => e = budget_error /\ MAX_QUEUE_BUDGET < max_bytes (recent_rx st) + cost
     | Panic => False
     end
  /\ (shared_queue_bytes_used st + cost <= MAX_QUEUE_BUDGET -> st' = st /\ r = Ok tt).
Proof.
  intros Hi Hc Hmax. destruct (make_shared_room_ok cost preferred st Hi Hc Hmax) as [Hr Hid].
  rewrite used_exact by done. destruct (make_shared_queue_room cost preferred st) as [st' r].
  destruct Hr as (Hi' & Hev & _ & Hr). cbn [fst snd] in *.
  split; [done|]. split; [done|]. split; [|intros Hfit; specialize (Hid Hfit); by injection Hid as -> ->].
  destruct r; [|done..]. by rewrite used_exact.
Qed.
End Pops.

(** The state a router starts in satisfies the invariant. *)
Lemma router_inner_new_ok `{Config} `{Layout} `{RouterLayout} st :
  0 <= sizeof_DiscoverySideState -> 0 <= sizeof_RouterRxItem -> 0 <= sizeof_TxQueued ->
  0 <= STARTING_QUEUE_SIZE -> 1 <= MAX_QUEUE_BUDGET <= isize_max -> 0 <= MAX_RECENT_RX_IDS ->
  router_inner_new = Ok st -> budget_ok st /\ max_bytes (recent_rx st) = Z.max RECENT_RX_QUEUE_BYTES 1.
Proof.
  intros Hs Hr Ht Hst Hmax Hids. unfold router_inner_new.
  assert (0 <= RECENT_RX_QUEUE_BYTES <= MAX_QUEUE_BUDGET) as Hrec
    by (unfold RECENT_RX_QUEUE_BYTES; cbn zeta; zcase; zlia).
  assert (0 <= MAX_QUEUE_BUDGET <= isize_max) as Hb0 by lia.
  pose proof (new_cases (T := RouterRxItem) MAX_QUEUE_BUDGET STARTING_QUEUE_SIZE QUEUE_GROW_STEP Hst Hb0 Hr) as N1.
  pose proof (new_cases (T := TxQueued) MAX_QUEUE_BUDGET STARTING_QUEUE_SIZE QUEUE_GROW_STEP Hst Hb0 Ht) as N2.
  assert (0 <= Z.max RECENT_RX_QUEUE_BYTES 1 <= isize_max) as Hb1 by lia.
  pose proof (@new_cases Z u64_cost (Z.max RECENT_RX_QUEUE_BYTES 1) (Z.max RECENT_RX_QUEUE_BYTES 1) QUEUE_GROW_STEP
    (proj1 Hb1) Hb1 ltac:(cbn; lia)) as N3.
  assert (forall d, new (T := Z) (H := u64_cost) (Z.max RECENT_RX_QUEUE_BYTES 1) (Z.max RECENT_RX_QUEUE_BYTES 1)
    QUEUE_GROW_STEP = Ok d -> max_bytes d = Z.max RECENT_RX_QUEUE_BYTES 1) as Hmb.
  { unfold new. intros d. repeat case_match; intros Hn; try done; by injection Hn as <-. }
  destruct (new (T := RouterRxItem) _ _ _) as [rx| |]; cbn [res_bind mbind res_mbind]; [|done..].
  destruct (new (T := TxQueued) _ _ _) as [tx| |]; cbn [res_bind mbind res_mbind]; [|done..].
  destruct (new (T := Z) _ _ _) as [recent| |] eqn:E; cbn [res_bind mbind res_mbind]; [|done..].
  intros [= <-]. destruct N1 as (B1 & Q1 & _), N2 as (B2 & Q2 & _), N3 as (B3 & Q3 & _). specialize (Hmb _ eq_refl).
  match goal with |- budget_ok ?s /\ _ => set (st := s) end.
  assert (exact_used st = Z.max RECENT_RX_QUEUE_BYTES 1) as Hu.
  { unfold exact_used. cbn. rewrite (bi_bytes _ B1), (bi_bytes _ B2), Q1, Q2, Hmb. cbn. lia. }
  assert (inner_ok st) as Hi.
  { split; try done; try constructor; [|rewrite Hu; lia]. intros key rx' Hin. by apply elem_of_nil in Hin. }
  split; [|done]. apply budget_exact; [done|done|]. lia.
Qed.

(** ** Witnesses *)

(** Some sizes for the layout parameters. *)
Definition some_layout : Layout := {| sizeof_StandardSmallPayload := 80; sizeof_Packet := 144 |}.
Definition some_router_layout : RouterLayout :=
  {| sizeof_RouterRxItem := 168; sizeof_TxQueued := 184; sizeof_DiscoverySenderState := 80;
     sizeof_DiscoverySideState := 80 |}.

Definition the_inner (r : TelemetryResult RouterInner) (d : RouterInner) : RouterInner :=
  match r with Ok st => st | _ => d end.

(** A freshly built router with the default configuration. *)
Definition fresh_inner : RouterInner :=
  the_inner (@router_inner_new default_config some_router_layout some_layout)
    {| sides := []; route_overrides := ∅; typed_route_overrides := ∅; route_weights := ∅;
       route_priorities := ∅; source_route_modes := ∅; route_selection_cursors := ∅;
       adaptive_route_stats := ∅; received_queue := empty_queue; transmit_queue := empty_queue;
       recent_rx := empty_queue; reliable_tx := []; reliable_rx := []; reliable_return_routes := ∅;
       reliable_return_route_order := []; end_to_end_reliable_tx := [];
       end_to_end_reliable_tx_order := []; discovery_routes := []; discovery_cadence := cadence_default |}.

Lemma fresh_inner_ok :
  @budget_ok default_config some_layout some_router_layout fresh_inner
  /\ max_bytes (recent_rx fresh_inner) = 1024.
Proof.
  destruct (@router_inner_new_ok default_config some_layout some_router_layout fresh_inner) as [H1 H2];
    [vm_compute; discriminate..|vm_compute; split; discriminate|vm_compute; discriminate|vm_compute; reflexivity|].
  split; [exact H1|]. rewrite H2. vm_compute. reflexivity.
Qed.

(** Two frames of 60 kB: the second evicts the first from the other queue. *)
Definition big_rx : RouterRxItem := {| rx_src := None; rx_data := RSerialized (replicate (Z.to_nat 60000) (b8 0)); rx_priority := 10 |}.
Definition big_tx : TxQueued :=
  {| txq_item := Broadcast (RSerialized (replicate (Z.to_nat 60000) (b8 0))); ignore_local := false; txq_priority := 10 |}.

Lemma shared_budget_invariant_witness :
  @keeps_budget default_config some_layout some_router_layout
    (@push_received default_config some_layout some_router_layout big_rx fresh_inner)
  /\ length (q (received_queue (fst (@push_transmit default_config some_layout some_router_layout big_tx
       (fst (@push_received default_config some_layout some_router_layout big_rx fresh_inner)))))) = 0%nat.
Proof.
  destruct (@shared_budget_invariant default_config some_layout some_router_layout ltac:(vm_compute; discriminate)
    fresh_inner big_rx big_tx 7 0 0 2 []) as [(Hk & _) _];
    [vm_compute; discriminate|vm_compute; discriminate|vm_compute; discriminate|vm_compute; discriminate|
     apply fresh_inner_ok|].
  split; [exact Hk|vm_compute; reflexivity].
Defined.

Lemma make_shared_queue_room_correct_witness :
  let '(st', r) := @make_shared_queue_room default_config some_layout some_router_layout 102000 Received fresh_inner in
  r = Err budget_error /\ 102400 < max_bytes (recent_rx fresh_inner) + 102000.
Proof.
  pose proof (@make_shared_queue_room_correct default_config some_layout some_router_layout
    ltac:(vm_compute; discriminate) fresh_inner 102000 Received (proj1 (proj1 fresh_inner_ok))
    ltac:(lia) ltac:(vm_compute; discriminate)) as Hr.
  destruct (make_shared_queue_room _ _ _) as [st' r] eqn:E. vm_compute in E. injection E as <- <-.
  destruct Hr as (_ & _ & (He & Hm) & _). split; [reflexivity|exact Hm].
Defined.
