(* ===== verification/Routes.v ===== *)
(** * Sides, route policy and route selection ([src/router.rs])

    The administration of sides and rules ([add_side_*], [remove_side],
    [set_*], [clear_*]), the policy [route_allowed_locked], and the choice of
    the sides a packet goes to ([apply_route_selection_locked] with its fanout,
    weighted, failover and adaptive modes, and the bandwidth estimate the last
    one uses).  [now_ms] is what the router's clock returns to the call. *)

From stdpp Require Import gmap.
From S2P Require Import Prelude Ordered Telemetry Config Schema Queue SmallPayload Wire Packet Discovery RouterState.

(** ** Adaptive statistics *)

Definition stats_default : AdaptiveRouteStats :=
  {| estimated_bandwidth_bps := 0; last_observed_ms := 0 |}.

Definition observe (a : AdaptiveRouteStats) (sample_bps now_ms : Z) : AdaptiveRouteStats :=
  let est := estimated_bandwidth_bps a in
  {| estimated_bandwidth_bps :=
       if est =? 0 then sample_bps
       else if est <=? sample_bps then sat_add64 (sat_mul64 est 3) (sat_mul64 sample_bps 5) / 8
       else sat_add64 (sat_mul64 est 7) sample_bps / 8;
     last_observed_ms := now_ms |}.

Definition weight (a : AdaptiveRouteStats) : Z := Z.max (estimated_bandwidth_bps a) 1.

(** [u128] arithmetic, capped to [u64]. *)
Definition sample_bps (bytes started_ms ended_ms : Z) : Z :=
  let sample_ms := Z.max (sat_sub ended_ms started_ms) 1 in
  Z.min (Z.min (bytes * 1000) u128_max / sample_ms) u64_max.

Definition record_side_tx_sample (side : RouterSideId) (bytes started_ms ended_ms : Z)
    (st : RouterInner) : RouterInner :=
  let old := default stats_default (adaptive_route_stats st !! side) in
  set_adaptive_route_stats
    (<[side := observe old (sample_bps bytes started_ms ended_ms) ended_ms]> (adaptive_route_stats st)) st.

(** ** Policy *)

(** [sides.get(side).and_then(..as_ref)]. *)
Definition side_at (st : RouterInner) (side : RouterSideId) : option RouterSide :=
  mjoin (sides st !! Z.to_nat side).

Definition side_ref (st : RouterInner) (side : RouterSideId) : TelemetryResult RouterSide :=
  ok_or (HandlerError "router: invalid side id") (side_at st side).

Definition ensure_side_ingress_enabled (st : RouterInner) (side : RouterSideId) : TelemetryResult unit :=
  s ← side_ref st side;
  if ingress_enabled (opts s) then Ok tt else Err (HandlerError "router: ingress disabled for side id").

Definition default_route_enabled (src : option RouterSideId) (dst : RouterSideId) : bool :=
  negb (bool_decide (src = Some dst)).

(** [typed_route_overrides.keys().any(..)]. *)
Definition has_typed_rule (st : RouterInner) (src : option RouterSideId) (t : DataType) : bool :=
  existsb (fun '((s, t', _), _) => bool_decide (s = src) && (t' =? t))
    (map_to_list (typed_route_overrides st)).

Definition route_allowed_locked (st : RouterInner) (src : option RouterSideId) (t : option DataType)
    (dst : RouterSideId) : bool :=
  match side_at st dst with
  | None => false
  | Some dst_side =>
      if negb (egress_enabled (opts dst_side)) then false
      else if match src with
              | None => false
              | Some src_id =>
                  match side_at st src_id with
                  | None => true
                  | Some src_side => negb (ingress_enabled (opts src_side))
                  end
              end then false
      else
        let base_allowed := default (default_route_enabled src dst) (route_overrides st !! (src, dst)) in
        if negb base_allowed then false
        else match t with
             | None => true
             | Some t =>
                 if has_typed_rule st src t then default false (typed_route_overrides st !! (src, t, dst))
                 else true
             end
  end.

Definition side_eligible (st : RouterInner) (src : option RouterSideId) (t : option DataType)
    (restrict_link_local : bool) (side_id : RouterSideId) : bool :=
  match side_at st side_id with
  | None => false
  | Some side =>
      if restrict_link_local && negb (link_local_enabled (opts side)) then false
      else route_allowed_locked st src t side_id
  end.

Definition eligible_side_ids_locked (st : RouterInner) (src : option RouterSideId)
    (t : option DataType) (restrict_link_local : bool) : list RouterSideId :=
  List.filter (side_eligible st src t restrict_link_local) (seqZ 0 (nlen (sides st))).

(** ** Selection *)

Inductive RouteSelectionOrigin := Flood | Discovered.

#[export] Instance RouteSelectionOrigin_eq_dec : EqDecision RouteSelectionOrigin.
Proof. solve_decision. Defined.

Definition route_weight (st : RouterInner) (src : option RouterSideId) (side : RouterSideId) : Z :=
  default 1 (route_weights st !! (src, side)).

Definition adaptive_weight (st : RouterInner) (side : RouterSideId) : Z :=
  default 1 (weight <$> adaptive_route_stats st !! side).

(** The [u64] fold. *)
Definition total_weight (w : RouterSideId -> Z) (l : list RouterSideId) : Z := wrap 64 (zsum (map w l)).

(** [for side in sides { if remaining < weight {return}; remaining -= weight }]. *)
Fixpoint pick_weighted (w : RouterSideId -> Z) (remaining : Z) (l : list RouterSideId) : list RouterSideId :=
  match l with
  | [] => []
  | side :: l => if remaining <? w side then [side] else pick_weighted w (wrap 64 (remaining - w side)) l
  end.

Definition cursor_of (st : RouterInner) (src : option RouterSideId) : Z :=
  default 0 (route_selection_cursors st !! src).

(** [*cursor = cursor.wrapping_add(1)]. *)
Definition bump_cursor (src : option RouterSideId) (st : RouterInner) : RouterInner :=
  set_route_selection_cursors (<[src := wrap 64 (cursor_of st src + 1)]> (route_selection_cursors st)) st.

Definition apply_adaptive_discovery_selection_locked (src : option RouterSideId) (l : list RouterSideId)
    (st : RouterInner) : RouterInner * list RouterSideId :=
  let l := sort_by_key id l in
  let unmeasured := List.filter (fun side => negb (is_some (adaptive_route_stats st !! side))) l in
  match unmeasured with
  | _ :: _ =>
      let pick := cursor_of st src mod nlen unmeasured in
      (bump_cursor src st, match unmeasured !! Z.to_nat pick with Some side => [side] | None => [] end)
  | [] =>
      let total := total_weight (adaptive_weight st) l in
      if total =? 0 then (st, take 1 l)
      else (bump_cursor src st, pick_weighted (adaptive_weight st) (cursor_of st src mod total) l)
  end.

Definition apply_route_selection_locked (src : option RouterSideId) (l : list RouterSideId)
    (origin : RouteSelectionOrigin) (st : RouterInner) : RouterInner * list RouterSideId :=
  if (nlen l <=? 1) then (st, l)
  else
    let selection_mode := source_route_modes st !! src in
    if negb (is_some selection_mode) && bool_decide (origin = Discovered)
    then apply_adaptive_discovery_selection_locked src l st
    else
      match default Fanout selection_mode with
      | Fanout => (st, l)
      | Weighted =>
          let l := sort_by_key id l in
          let total := total_weight (route_weight st src) l in
          if total =? 0 then (st, [])
          else (bump_cursor src st, pick_weighted (route_weight st src) (cursor_of st src mod total) l)
      | Failover =>
          (st, take 1 (sort_by_key (fun side => (default 0 (route_priorities st !! (src, side)), side)) l))
      end.

(** ** Administration *)

Definition note_discovery_topology_change_locked (now_ms : Z) (st : RouterInner) : RouterInner :=
  set_discovery_cadence (on_topology_change (discovery_cadence st) now_ms) st.

(** [side_ref(..).map_err(|_| BadArg)] of the destination, then of the source. *)
Definition sides_known (st : RouterInner) (src : option RouterSideId) (dst : option RouterSideId) : bool :=
  match dst with Some d => is_some (side_at st d) | None => true end
  && match src with Some s => is_some (side_at st s) | None => true end.

(** The shape of every rule update: check the ids, change, note the change. *)
Definition admin (src dst : option RouterSideId) (now_ms : Z) (f : RouterInner -> RouterInner) : RM unit :=
  fun st => if sides_known st src dst then (note_discovery_topology_change_locked now_ms (f st), Ok tt)
            else (st, Err BadArg).

Definition reset_cursor (src : option RouterSideId) (st : RouterInner) : RouterInner :=
  set_route_selection_cursors (delete src (route_selection_cursors st)) st.

Definition set_source_route_mode (src : option RouterSideId) (mode : RouteSelectionMode) (now_ms : Z) : RM unit :=
  admin src None now_ms (fun st =>
    let modes := if decide (mode = Fanout) then delete src (source_route_modes st)
                 else <[src := mode]> (source_route_modes st) in
    reset_cursor src (set_source_route_modes modes st)).

Definition clear_source_route_mode (src : option RouterSideId) (now_ms : Z) : RM unit :=
  set_source_route_mode src Fanout now_ms.

Definition set_route_weight (src : option RouterSideId) (dst : RouterSideId) (w : Z) (now_ms : Z) : RM unit :=
  admin src (Some dst) now_ms (fun st =>
    reset_cursor src (set_route_weights (<[(src, dst) := w]> (route_weights st)) st)).

Definition clear_route_weight (src : option RouterSideId) (dst : RouterSideId) (now_ms : Z) : RM unit :=
  admin src (Some dst) now_ms (fun st =>
    reset_cursor src (set_route_weights (delete (src, dst) (route_weights st)) st)).

Definition set_route_priority (src : option RouterSideId) (dst : RouterSideId) (p : Z) (now_ms : Z) : RM unit :=
  admin src (Some dst) now_ms (fun st =>
    set_route_priorities (<[(src, dst) := p]> (route_priorities st)) st).

Definition clear_route_priority (src : option RouterSideId) (dst : RouterSideId) (now_ms : Z) : RM unit :=
  admin src (Some dst) now_ms (fun st =>
    set_route_priorities (delete (src, dst) (route_priorities st)) st).

Definition set_route (src : option RouterSideId) (dst : RouterSideId) (enabled : bool) (now_ms : Z) : RM unit :=
  admin src (Some dst) now_ms (fun st =>
    set_route_overrides (<[(src, dst) := enabled]> (route_overrides st)) st).

Definition clear_route (src : option RouterSideId) (dst : RouterSideId) (now_ms : Z) : RM unit :=
  admin src (Some dst) now_ms (fun st =>
    set_route_overrides (delete (src, dst) (route_overrides st)) st).

Definition set_typed_route (src : option RouterSideId) (t : DataType) (dst : RouterSideId) (enabled : bool)
    (now_ms : Z) : RM unit :=
  admin src (Some dst) now_ms (fun st =>
    set_typed_route_overrides (<[(src, t, dst) := enabled]> (typed_route_overrides st)) st).

Definition clear_typed_route (src : option RouterSideId) (t : DataType) (dst : RouterSideId) (now_ms : Z) : RM unit :=
  admin src (Some dst) now_ms (fun st =>
    set_typed_route_overrides (delete (src, t, dst) (typed_route_overrides st)) st).

Definition update_side (side : RouterSideId) (s : option RouterSide) (st : RouterInner) : RouterInner :=
  set_sides (<[Z.to_nat side := s]> (sides st)) st.

(** [sides.push(Some(..))]; the new id is the old length. *)
Definition add_side (name : Str) (handler : RouterTxHandlerFn) (o : RouterSideOptions) (now_ms : Z)
    (st : RouterInner) : RouterInner * RouterSideId :=
  let id := nlen (sides st) in
  (note_discovery_topology_change_locked now_ms
     (set_sides (sides st ++ [Some {| side_name := name; tx_handler := handler; opts := o |}]) st), id).

Definition with_opts (o : RouterSideOptions) (s : RouterSide) : RouterSide :=
  {| side_name := side_name s; tx_handler := tx_handler s; opts := o |}.

Section SideAdmin.
Context `{Layout} `{RouterLayout}.

Definition set_side_ingress_enabled (side : RouterSideId) (enabled : bool) (now_ms : Z) : RM unit := fun st =>
  match side_at st side with
  | None => (st, Err BadArg)
  | Some s =>
      let o := opts s in
      let o := {| reliable_enabled := reliable_enabled o; link_local_enabled := link_local_enabled o;
                  ingress_enabled := enabled; egress_enabled := egress_enabled o |} in
      (note_discovery_topology_change_locked now_ms (update_side side (Some (with_opts o s)) st), Ok tt)
  end.

(** The queued items addressed to a side. *)
Definition tx_to_side (side : RouterSideId) (queued : TxQueued) : bool :=
  match txq_item queued with
  | ToSide _ dst _ => dst =? side
  | ReliableReplay dst _ => dst =? side
  | _ => false
  end.

Definition retain_transmit (side : RouterSideId) (st : RouterInner) : RouterInner :=
  set_transmit_queue (retain (fun queued => negb (tx_to_side side queued)) (transmit_queue st)) st.

Definition set_side_egress_enabled (side : RouterSideId) (enabled : bool) (now_ms : Z) : RM unit := fun st =>
  match side_at st side with
  | None => (st, Err BadArg)
  | Some s =>
      let o := opts s in
      let o := {| reliable_enabled := reliable_enabled o; link_local_enabled := link_local_enabled o;
                  ingress_enabled := ingress_enabled o; egress_enabled := enabled |} in
      let st := update_side side (Some (with_opts o s)) st in
      let st := if enabled then st else retain_transmit side st in
      (note_discovery_topology_change_locked now_ms st, Ok tt)
  end.

Definition rx_from (side : RouterSideId) (i : RouterRxItem) : bool := bool_decide (rx_src i = Some side).

(** The part of [remove_side] under the state lock. *)
Definition forget_side (side : RouterSideId) (st : RouterInner) : RouterInner :=
  let st := update_side side None st in
  let keep2 := fun k : option RouterSideId * RouterSideId => fst k <> Some side /\ snd k <> side in
  let st := set_route_overrides (filter (fun e => keep2 (fst e)) (route_overrides st)) st in
  let st := set_typed_route_overrides
    (filter (fun e => fst (fst (fst e)) <> Some side /\ snd (fst e) <> side) (typed_route_overrides st)) st in
  let st := set_route_weights (filter (fun e => keep2 (fst e)) (route_weights st)) st in
  let st := set_route_priorities (filter (fun e => keep2 (fst e)) (route_priorities st)) st in
  let st := set_source_route_modes (delete (Some side) (source_route_modes st)) st in
  let st := set_route_selection_cursors (delete (Some side) (route_selection_cursors st)) st in
  let st := set_adaptive_route_stats (delete side (adaptive_route_stats st)) st in
  let st := set_reliable_return_routes (filter (fun e => snd e <> side) (reliable_return_routes st)) st in
  let st := retain_transmit side st in
  let st := set_received_queue (retain (fun queued => negb (rx_from side queued)) (received_queue st)) st in
  let st := set_reliable_tx (bt_retain (fun k _ => negb (fst k =? side)) (reliable_tx st)) st in
  let st := set_reliable_rx (bt_retain (fun k _ => negb (fst k =? side)) (reliable_rx st)) st in
  set_discovery_routes (bt_remove side (discovery_routes st)) st.

(** The interrupt-safe queue: its try-lock flag and its contents. *)
Record IsrRxQueue := { busy : bool; isr_q : BoundedDeque RouterRxItem }.

(** [try_lock()?], then the operation; the guard releases the flag. *)
Definition isr_with {A} (f : BoundedDeque RouterRxItem -> BoundedDeque RouterRxItem * TelemetryResult A)
    (i : IsrRxQueue) : IsrRxQueue * TelemetryResult A :=
  if busy i then (i, Err (Io "rx queue busy"))
  else let '(d, r) := f (isr_q i) in ({| busy := false; isr_q := d |}, r).

Definition isr_push_back (i : RouterRxItem) : IsrRxQueue -> IsrRxQueue * TelemetryResult unit :=
  isr_with (fun d => push_back d i).
Definition isr_push_back_prioritized (i : RouterRxItem) : IsrRxQueue -> IsrRxQueue * TelemetryResult unit :=
  isr_with (fun d => push_back_prioritized rx_priority d i).
Definition isr_pop_front : IsrRxQueue -> IsrRxQueue * TelemetryResult (option RouterRxItem) :=
  isr_with (fun d => let '(o, d) := pop_front d in (d, Ok o)).
Definition isr_clear : IsrRxQueue -> IsrRxQueue * TelemetryResult unit :=
  isr_with (fun d => (clear d, Ok tt)).

Definition remove_side (side : RouterSideId) (now_ms : Z) (st : RouterInner) (isr : IsrRxQueue)
    : (RouterInner * IsrRxQueue) * TelemetryResult unit :=
  match side_at st side with
  | None => ((st, isr), Err BadArg)
  | Some _ =>
      let st := note_discovery_topology_change_locked now_ms (forget_side side st) in
      let '(isr, r) := isr_with (fun d => (retain (fun queued => negb (rx_from side queued)) d, Ok tt)) isr in
      ((st, isr), r)
  end.
End SideAdmin.

(** ** Policy *)

(** The documented rule: the destination sends, the source receives, the base
    route is not blocked, and a typed rule for the source and type, if any,
    allows the destination. *)
Definition route_policy (st : RouterInner) (src : option RouterSideId) (t : option DataType)
    (dst : RouterSideId) : Prop :=
  (exists d, side_at st dst = Some d /\ egress_enabled (opts d) = true)
  /\ (forall s, src = Some s -> exists x, side_at st s = Some x /\ ingress_enabled (opts x) = true)
  /\ (route_overrides st !! (src, dst) = Some true
      \/ route_overrides st !! (src, dst) = None /\ src <> Some dst)
  /\ (forall ty, t = Some ty -> (exists d b, typed_route_overrides st !! (src, ty, d) = Some b) ->
      typed_route_overrides st !! (src, ty, dst) = Some true).

Lemma has_typed_rule_spec st src t :
  has_typed_rule st src t = true <-> exists d b, typed_route_overrides st !! (src, t, d) = Some b.
Proof.
  unfold has_typed_rule. rewrite existsb_exists. split.
  - intros ([[[s t'] d] b] & Hin & [->%bool_decide_eq_true ->%Z.eqb_eq]%andb_true_iff).
    exists d, b. by apply elem_of_map_to_list, list_elem_of_In.
  - intros (d & b & Hb). exists ((src, t, d), b). split; [by apply list_elem_of_In, elem_of_map_to_list|].
    by rewrite bool_decide_true, Z.eqb_refl.
Qed.

Lemma default_true (o : option bool) (d : bool) :
  default d o = true <-> o = Some true \/ o = None /\ d = true.
Proof. destruct o as [[]|]; cbn; naive_solver. Qed.

Lemma route_allowed_spec st src t dst : route_allowed_locked st src t dst = true <-> route_policy st src t dst.
Proof.
  unfold route_allowed_locked, route_policy. destruct (side_at st dst) as [d|]; [|naive_solver].
  destruct (egress_enabled (opts d)) eqn:Ee; cbn [negb]; [|naive_solver congruence].
  match goal with |- context [if ?b then false else _] => destruct b eqn:Ei end.
  { split; [done|]. intros (_ & Hs & _). destruct src as [s|]; [|done].
    destruct (Hs s eq_refl) as (x & Hx & Hin). rewrite Hx, Hin in Ei. done. }
  assert (forall s, src = Some s -> exists x, side_at st s = Some x /\ ingress_enabled (opts x) = true) as Hin.
  { intros s ->. destruct (side_at st s) as [x|]; [|done]. apply negb_false_iff in Ei. eauto. }
  cbn zeta. destruct (default (default_route_enabled src dst) (route_overrides st !! (src, dst))) eqn:Eb; cbn [negb].
  2: { split; [done|]. intros (_ & _ & Hb & _). apply not_true_iff_false in Eb. exfalso. apply Eb, default_true.
       unfold default_route_enabled. rewrite negb_true_iff, bool_decide_eq_false. done. }
  apply default_true in Eb. unfold default_route_enabled in Eb. rewrite negb_true_iff, bool_decide_eq_false in Eb.
  destruct t as [ty|]; [|split; [|done]; intros _; split; [eauto|]; split; [done|]; by split].
  destruct (has_typed_rule st src ty) eqn:Et.
  - rewrite default_true. split.
    + intros [Hb|[_ [=]]]. split; [eauto|]. split; [done|]. split; [done|]. by intros ty' [= <-].
    + intros (_ & _ & _ & Hb). left. apply Hb; [done|]. by apply has_typed_rule_spec.
  - split; [|done]. intros _. split; [eauto|]. split; [done|]. split; [done|].
    intros ty' [= <-] Hex. apply has_typed_rule_spec in Hex. congruence.
Qed.

Lemma side_at_range st side s : 0 <= side -> side_at st side = Some s -> side < nlen (sides st).
Proof.
  unfold side_at, nlen. intros Hs. destruct (sides st !! Z.to_nat side) as [o|] eqn:E; [|done].
  apply lookup_lt_Some in E. lia.
Qed.

Lemma seqZ_key_sorted m n : StronglySorted (key_lt (A := Z) id) (seqZ m n).
Proof.
  destruct (Z.le_gt_cases 0 n) as [Hn|Hn].
  2: { rewrite seqZ_nil by lia. constructor. }
  revert m. pattern n. apply natlike_ind; [rewrite ?seqZ_nil by lia; intros; rewrite seqZ_nil by lia; constructor| |done].
  clear n Hn. intros n Hn IH m. rewrite seqZ_cons by lia. rewrite Z.pred_succ. constructor; [apply IH|].
  apply Forall_forall. intros x Hx%elem_of_seqZ. unfold key_lt, Ordered.lt. cbn. apply Z.compare_lt_iff. lia.
Qed.

(** C26. Routing policy: a side is admitted exactly by the documented
    rules, and the eligible sides are exactly the admitted existing sides (with
    link-local permission when the packet needs it), each once and in order of
    their ids. *)
Theorem route_policy_correct st src t restrict_link_local :
  (forall dst, route_allowed_locked st src t dst = true <-> route_policy st src t dst)
  /\ strictly_sorted (eligible_side_ids_locked st src t restrict_link_local)
  /\ (forall dst, dst ∈ eligible_side_ids_locked st src t restrict_link_local <->
        0 <= dst /\ route_policy st src t dst
        /\ (restrict_link_local = true ->
            exists d, side_at st dst = Some d /\ link_local_enabled (opts d) = true)).
Proof.
  split; [intros; apply route_allowed_spec|]. unfold eligible_side_ids_locked.
  split; [apply List_filter_sorted, seqZ_key_sorted|]. intros dst.
  rewrite elem_of_List_filter, elem_of_seqZ. unfold side_eligible. split.
  - intros [Hr He]. destruct (side_at st dst) as [d|] eqn:Ed; [|done].
    destruct (restrict_link_local && negb (link_local_enabled (opts d))) eqn:El; [done|].
    split; [lia|]. split; [by apply route_allowed_spec|]. intros ->. exists d. split; [done|].
    by destruct (link_local_enabled (opts d)).
  - intros (H0 & Hp & Hl). destruct Hp as ((d & Hd & He) & Hrest). rewrite Hd.
    pose proof (side_at_range _ _ _ H0 Hd). split; [lia|].
    destruct restrict_link_local; cbn [andb].
    + destruct (Hl eq_refl) as (d' & Hd' & Hll). rewrite Hd in Hd'. injection Hd' as <-. rewrite Hll. cbn. apply route_allowed_spec. split; eauto.
    + apply route_allowed_spec. split; eauto.
Qed.

(** ** Selection *)

Definition sum_weights (w : RouterSideId -> Z) (l : list RouterSideId) : Z := zsum (map w l).

Lemma sum_weights_nonneg w l : (forall s, 0 <= w s) -> 0 <= sum_weights w l.
Proof. intros Hw. induction l as [|x l IH]; cbn; [done|]. pose proof (Hw x). unfold sum_weights, zsum in *. cbn. lia. Qed.

Lemma sum_weights_perm w l k : l ≡ₚ k -> sum_weights w l = sum_weights w k.
Proof. intros Hp. apply zsum_perm. by rewrite Hp. Qed.

(** The picks for the remainders [0, 1, .., total - 1]: each side in turn, as
    many times as its weight. *)
Lemma picks_expand w l :
  (forall s, 0 <= w s) -> sum_weights w l < 2 ^ 64 ->
  map (fun r => pick_weighted w r l) (seqZ 0 (sum_weights w l))
  = concat (map (fun s => replicate (Z.to_nat (w s)) [s]) l).
Proof.
  intros Hw. induction l as [|x l IH]; intros Hs; [done|]. cbn [map concat].
  pose proof (Hw x) as Hx. pose proof (sum_weights_nonneg w l Hw) as Hl.
  assert (sum_weights w (x :: l) = w x + sum_weights w l) as Hsum by done.
  rewrite Hsum in *. rewrite seqZ_app by lia. rewrite map_app. f_equal.
  - apply list_eq_same_length with (n := Z.to_nat (w x));
      [by rewrite length_replicate|by rewrite length_map, length_seqZ|].
    intros i y z Hi. rewrite list_lookup_fmap, lookup_replicate.
    intros Hy [-> _]. destruct (seqZ 0 (w x) !! i) as [r|] eqn:E; [|done]. apply lookup_seqZ in E as [-> Hr].
    cbn in Hy. destruct (Z.ltb_spec (0 + Z.of_nat i) (w x)); [by injection Hy as <-|lia].
  - rewrite <- IH by lia. rewrite Z.add_0_l.
    assert (seqZ (w x) (sum_weights w l) = map (Z.add (w x)) (seqZ 0 (sum_weights w l))) as ->.
    { etransitivity; [|symmetry; apply (fmap_add_seqZ (w x) 0)]. by rewrite Z.add_0_r. }
    rewrite map_map. apply map_ext_in. intros r Hr.
    apply list_elem_of_In, elem_of_seqZ in Hr. cbn [pick_weighted].
    destruct (Z.ltb_spec (w x + r) (w x)); [lia|]. rewrite wrap_small by lia. f_equal. lia.
Qed.

(** [n] consecutive cursor values, reduced, are a rotation of [0 .. n-1]. *)
Lemma rotation c n :
  0 <= c -> 0 < n -> map (fun i => (c + i) mod n) (seqZ 0 n) ≡ₚ seqZ 0 n.
Proof.
  intros Hc Hn. set (k := c mod n). pose proof (Z.mod_pos_bound c n Hn) as Hk. fold k in Hk.
  assert (forall i, (c + i) mod n = (k + i) mod n) as Hmod
    by (intros i; unfold k; by rewrite Zplus_mod_idemp_l).
  replace (seqZ 0 n) with (seqZ 0 (n - k) ++ seqZ (n - k) k) at 1
    by (rewrite <- (Z.add_0_l (n - k)) at 2; rewrite <- seqZ_app by lia; f_equal; lia).
  rewrite map_app.
  assert (map (fun i => (c + i) mod n) (seqZ 0 (n - k)) = seqZ k (n - k)) as ->.
  { rewrite <- (Z.add_0_r k) at 2. rewrite <- fmap_add_seqZ. apply map_ext_in.
    intros i Hi%list_elem_of_In%elem_of_seqZ. rewrite Hmod. apply Z.mod_small. lia. }
  assert (map (fun i => (c + i) mod n) (seqZ (n - k) k) = seqZ 0 k) as ->.
  { replace 0 with ((k - n) + (n - k)) by lia. rewrite <- fmap_add_seqZ. apply map_ext_in.
    intros i Hi%list_elem_of_In%elem_of_seqZ. rewrite Hmod.
    replace (k + i) with ((k - n + i) + 1 * n) by lia. rewrite Z.mod_add by lia. apply Z.mod_small. lia. }
  rewrite Permutation_app_comm. replace (seqZ k (n - k)) with (seqZ (0 + k) (n - k)) by (f_equal; lia).
  rewrite <- seqZ_app by lia. by replace (k + (n - k)) with n by lia.
Qed.

(** A pick below the total is one side, of positive weight. *)
Lemma pick_weighted_one w r l :
  (forall s, 0 <= w s) -> sum_weights w l < 2 ^ 64 -> 0 <= r < sum_weights w l ->
  exists s, pick_weighted w r l = [s] /\ s ∈ l /\ 0 < w s.
Proof.
  intros Hw. revert r. induction l as [|x l IH]; intros r Hs Hr; [cbn in Hr; lia|]. cbn [pick_weighted].
  assert (sum_weights w (x :: l) = w x + sum_weights w l) as Hsum by done.
  pose proof (Hw x). pose proof (sum_weights_nonneg w l Hw).
  destruct (Z.ltb_spec r (w x)); [exists x; split; [done|]; split; [set_solver|lia]|].
  rewrite wrap_small by lia. destruct (IH (r - w x)) as (s & Hp & Hin & Hpos); [lia..|].
  exists s. split; [done|]. split; [set_solver|done].
Qed.

(** The weights the code reads are [u32]s, or bandwidths. *)
Definition weights_ok (st : RouterInner) : Prop :=
  (forall k v, route_weights st !! k = Some v -> 0 <= v)
  /\ (forall k c, route_selection_cursors st !! k = Some c -> 0 <= c < 2 ^ 64).

Lemma route_weight_nonneg st src s : weights_ok st -> 0 <= route_weight st src s.
Proof.
  intros [Hw _]. unfold route_weight. destruct (route_weights st !! (src, s)) as [v|] eqn:E; cbn; [eauto|lia].
Qed.

Lemma adaptive_weight_pos st s : 0 < adaptive_weight st s.
Proof. unfold adaptive_weight, weight. destruct (adaptive_route_stats st !! s); cbn; lia. Qed.

Lemma cursor_range st src : weights_ok st -> 0 <= cursor_of st src < 2 ^ 64.
Proof.
  intros [_ Hc]. unfold cursor_of. destruct (route_selection_cursors st !! src) as [c|] eqn:E; cbn; [eauto|lia].
Qed.

(** The total the code computes is the sum, as long as it fits [u64]. *)
Lemma total_weight_sum w l :
  (forall s, 0 <= w s) -> sum_weights w l < 2 ^ 64 -> total_weight w l = sum_weights w l.
Proof. intros Hw Hs. apply wrap_small. split; [by apply sum_weights_nonneg|done]. Qed.

Lemma total_weight_sorted w l :
  (forall s, 0 <= w s) -> sum_weights w l < 2 ^ 64 ->
  total_weight w (sort_by_key id l) = sum_weights w l.
Proof.
  intros Hw Hs. rewrite <- (sum_weights_perm w _ _ (sort_perm id l)) in *. by apply total_weight_sum.
Qed.

Lemma sum_weights_zero w l s : (forall x, 0 <= w x) -> sum_weights w l = 0 -> s ∈ l -> w s = 0.
Proof.
  intros Hw. induction l as [|x l IH]; [by intros _ ?%elem_of_nil|].
  assert (sum_weights w (x :: l) = w x + sum_weights w l) as -> by done.
  pose proof (Hw x). pose proof (sum_weights_nonneg w l Hw). intros Hz [->|Hin]%elem_of_cons; [lia|].
  apply IH; [lia|done].
Qed.

Lemma weighted_step w src l st :
  (forall s, 0 <= w s) -> sum_weights w l < 2 ^ 64 -> weights_ok st ->
  0 < sum_weights w l ->
  exists s, pick_weighted w (cursor_of st src mod total_weight w (sort_by_key id l)) (sort_by_key id l) = [s]
    /\ s ∈ l /\ 0 < w s.
Proof.
  intros Hw Hs Hok Hpos. rewrite <- (sum_weights_perm w _ _ (sort_perm id l)) in Hs, Hpos.
  rewrite total_weight_sum by done. pose proof (cursor_range st src Hok).
  destruct (pick_weighted_one w (cursor_of st src mod sum_weights w (sort_by_key id l)) (sort_by_key id l) Hw Hs)
    as (s & Hp & Hin & Hws); [by apply Z.mod_pos_bound|].
  exists s. split; [done|]. split; [by rewrite sort_perm in Hin|done].
Qed.

Definition priority_of (st : RouterInner) (src : option RouterSideId) (s : RouterSideId) : Z * Z :=
  (default 0 (route_priorities st !! (src, s)), s).

Lemma failover_least st src l s :
  take 1 (sort_by_key (priority_of st src) l) = [s] ->
  s ∈ l /\ forall x, x ∈ l -> ~ Ordered.lt (priority_of st src x) (priority_of st src s).
Proof.
  intros Ht. pose proof (sort_perm (priority_of st src) l) as Hp.
  pose proof (sort_sorted (priority_of st src) l) as Hs.
  destruct (sort_by_key (priority_of st src) l) as [|y k]; [done|]. injection Ht as ->.
  split; [rewrite <- Hp; set_solver|]. intros x Hx. rewrite <- Hp in Hx.
  apply elem_of_cons in Hx as [->|Hx]; [apply lt_irrefl|].
  inv Hs as [|?? Hs' Hall]. rewrite Forall_forall in Hall. specialize (Hall x Hx). unfold key_le in Hall.
  intros Hlt. by apply Hall.
Qed.

(** Every selection of [n] consecutive packets from one source. *)
Fixpoint select_times (n : nat) (src : option RouterSideId) (l : list RouterSideId)
    (origin : RouteSelectionOrigin) (st : RouterInner) : list (list RouterSideId) :=
  match n with
  | O => []
  | S n => let '(st, r) := apply_route_selection_locked src l origin st in
           r :: select_times n src l origin st
  end.

(** [st] with another cursor for [src]. *)
Definition with_cursor (src : option RouterSideId) (c : Z) (st : RouterInner) : RouterInner :=
  set_route_selection_cursors (<[src := c]> (route_selection_cursors st)) st.

Lemma cursor_with src c st : cursor_of (with_cursor src c st) src = c.
Proof. unfold cursor_of, with_cursor. cbn. by rewrite lookup_insert_eq. Qed.

Lemma bump_with src c st :
  bump_cursor src (with_cursor src c st) = with_cursor src (wrap 64 (c + 1)) st.
Proof.
  unfold bump_cursor. rewrite cursor_with. unfold with_cursor. cbn. by rewrite insert_insert_eq.
Qed.

Lemma bump_start src st : bump_cursor src st = with_cursor src (wrap 64 (cursor_of st src + 1)) st.
Proof. done. Qed.

(** A selection that reads its cursor modulo a total and advances it picks, in
    [n] consecutive calls, what the next [n] cursor values designate. *)
Lemma select_times_rr (w : RouterSideId -> Z) W src l sl origin st n :
  (forall st', st' = st \/ (exists c, st' = with_cursor src c st) ->
     apply_route_selection_locked src l origin st'
     = (bump_cursor src st', pick_weighted w (cursor_of st' src mod W) sl)) ->
  0 <= cursor_of st src -> cursor_of st src + Z.of_nat n <= 2 ^ 64 ->
  select_times n src l origin st
  = map (fun i => pick_weighted w ((cursor_of st src + i) mod W) sl) (seqZ 0 (Z.of_nat n)).
Proof.
  intros Hstep Hc0.
  assert (forall n c, 0 <= c -> c + Z.of_nat n <= 2 ^ 64 ->
    select_times n src l origin (with_cursor src c st)
    = map (fun i => pick_weighted w ((c + i) mod W) sl) (seqZ 0 (Z.of_nat n))) as Hgen.
  { clear n. induction n as [|n IH]; intros c Hc Hb; [done|].
    cbn [select_times]. rewrite Hstep by eauto. rewrite bump_with, cursor_with.
    rewrite seqZ_cons by lia. cbn [map]. rewrite Z.add_0_r. f_equal.
    destruct n as [|n]; [done|].
    rewrite wrap_small by lia. rewrite IH by lia.
    replace (Z.pred (Z.of_nat (S (S n)))) with (Z.of_nat (S n)) by lia.
    replace (seqZ (Z.succ 0) (Z.of_nat (S n))) with (map (Z.add 1) (seqZ 0 (Z.of_nat (S n))))
      by apply (fmap_add_seqZ 1 0).
    rewrite map_map. apply map_ext. intros i. do 2 f_equal. lia. }
  destruct n as [|n]; intros Hb; [done|]. cbn [select_times]. rewrite Hstep by auto.
  rewrite seqZ_cons by lia. cbn [map]. rewrite Z.add_0_r. f_equal.
  destruct n as [|n]; [done|].
  rewrite bump_start, wrap_small by lia. rewrite Hgen by lia.
  replace (Z.pred (Z.of_nat (S (S n)))) with (Z.of_nat (S n)) by lia.
  replace (seqZ (Z.succ 0) (Z.of_nat (S n))) with (map (Z.add 1) (seqZ 0 (Z.of_nat (S n))))
    by apply (fmap_add_seqZ 1 0).
  rewrite map_map. apply map_ext. intros i. do 2 f_equal. lia.
Qed.

Lemma nlen_two {A} (l : list A) : (2 <= length l)%nat -> nlen l <=? 1 = false.
Proof. unfold nlen. intros. apply Z.leb_gt. lia. Qed.

(** One full turn of a weighted selection. *)
Lemma full_turn w src l origin st :
  (forall s, 0 <= w s) -> 0 < sum_weights w l < 2 ^ 64 ->
  (forall st', st' = st \/ (exists c, st' = with_cursor src c st) ->
     apply_route_selection_locked src l origin st'
     = (bump_cursor src st', pick_weighted w (cursor_of st' src mod sum_weights w l) (sort_by_key id l))) ->
  0 <= cursor_of st src -> cursor_of st src + sum_weights w l <= 2 ^ 64 ->
  select_times (Z.to_nat (sum_weights w l)) src l origin st
  ≡ₚ concat (map (fun s => replicate (Z.to_nat (w s)) [s]) l).
Proof.
  intros Hw Hs Hstep Hc Hb. rewrite (select_times_rr w (sum_weights w l) src l (sort_by_key id l)) by (done || lia).
  rewrite Z2Nat.id by lia.
  rewrite <- (map_map (fun i => (cursor_of st src + i) mod sum_weights w l)
                (fun r => pick_weighted w r (sort_by_key id l))).
  rewrite (rotation (cursor_of st src) (sum_weights w l)) by lia.
  rewrite <- (sum_weights_perm w _ _ (sort_perm id l)) in *.
  rewrite picks_expand by (done || lia). by rewrite (sort_perm id l).
Qed.

Lemma weighted_call src l origin st :
  source_route_modes st !! src = Some Weighted -> (2 <= length l)%nat ->
  (forall s, 0 <= route_weight st src s) -> 0 < sum_weights (route_weight st src) l < 2 ^ 64 ->
  apply_route_selection_locked src l origin st
  = (bump_cursor src st, pick_weighted (route_weight st src)
       (cursor_of st src mod sum_weights (route_weight st src) l) (sort_by_key id l)).
Proof.
  intros Hm Hl Hw Hs. unfold apply_route_selection_locked. rewrite nlen_two, Hm by done. cbn [is_some negb andb default].
  cbn zeta. rewrite total_weight_sorted by (done || lia).
  change (default Fanout (Some Weighted)) with Weighted.
  cbv match. destruct (Z.eqb_spec (sum_weights (route_weight st src) l) 0); [lia|done].
Qed.

Lemma adaptive_call src l st :
  source_route_modes st !! src = None -> (2 <= length l)%nat ->
  (forall s, s ∈ l -> is_Some (adaptive_route_stats st !! s)) ->
  0 < sum_weights (adaptive_weight st) l < 2 ^ 64 ->
  apply_route_selection_locked src l Discovered st
  = (bump_cursor src st, pick_weighted (adaptive_weight st)
       (cursor_of st src mod sum_weights (adaptive_weight st) l) (sort_by_key id l)).
Proof.
  intros Hm Hl Hall Hs. unfold apply_route_selection_locked. rewrite nlen_two, Hm by done. cbn [is_some negb andb].
  rewrite bool_decide_true by done. unfold apply_adaptive_discovery_selection_locked. cbn zeta.
  assert (List.filter (fun side => negb (is_some (adaptive_route_stats st !! side))) (sort_by_key id l) = []) as ->.
  { assert (forall s, s ∈ sort_by_key id l -> is_Some (adaptive_route_stats st !! s)) as Hall'
      by (intros s Hin; apply Hall; by rewrite sort_perm in Hin).
    induction (sort_by_key id l) as [|x k IH]; cbn; [done|].
    destruct (Hall' x) as [v Hv]; [set_solver|]. rewrite Hv. cbn. apply IH. set_solver. }
  rewrite total_weight_sorted by ((intros s; pose proof (adaptive_weight_pos st s); lia) || lia).
  destruct (Z.eqb_spec (sum_weights (adaptive_weight st) l) 0); [lia|done].
Qed.

(** C28. Weighted routing is exact round robin: as long as the cursor
    does not pass [u64::MAX], any run of as many consecutive selections as the
    weights add up to picks every side exactly as often as its weight, whatever
    the cursor starts from.  The same holds of the adaptive mode once every
    side has been measured, with the bandwidth estimates as weights.  (It is a
    fact of consecutive selections: planning one packet may take several of
    them, as [Plan.broadcast_skips_slots] shows.) *)
Theorem weighted_round_robin st src l :
  weights_ok st -> (2 <= length l)%nat ->
  (source_route_modes st !! src = Some Weighted ->
   forall origin, let W := sum_weights (route_weight st src) l in
   0 < W < 2 ^ 64 -> cursor_of st src + W <= 2 ^ 64 ->
   select_times (Z.to_nat W) src l origin st
   ≡ₚ concat (map (fun s => replicate (Z.to_nat (route_weight st src s)) [s]) l))
  /\ (source_route_modes st !! src = None ->
      (forall s, s ∈ l -> is_Some (adaptive_route_stats st !! s)) ->
      let W := sum_weights (adaptive_weight st) l in
      0 < W < 2 ^ 64 -> cursor_of st src + W <= 2 ^ 64 ->
      select_times (Z.to_nat W) src l Discovered st
      ≡ₚ concat (map (fun s => replicate (Z.to_nat (adaptive_weight st s)) [s]) l)).
Proof.
  intros Hok Hl. pose proof (cursor_range st src Hok) as Hc. split.
  - intros Hm origin W HW Hb.
    apply full_turn; [intros; by apply route_weight_nonneg|lia| |lia|done].
    intros st' [->|[c ->]]; (rewrite weighted_call; [done|done|done|exact (fun s => route_weight_nonneg st src s Hok)|exact HW]).
  - intros Hm Hall W HW Hb. apply full_turn; [intros s; pose proof (adaptive_weight_pos st s); lia|lia| |lia|done].
    intros st' [->|[c ->]]; (rewrite adaptive_call; [done|done|done|exact Hall|exact HW]).
Qed.

(** What a selection may answer, by the mode stored for its source.  The mode
    table holds [Weighted] and [Failover] only ([modes_stored] below): a source
    without an entry fans a flood out and sends discovered traffic to one side. *)
Definition selected_ok (st : RouterInner) (src : option RouterSideId) (l : list RouterSideId)
    (origin : RouteSelectionOrigin) (r : list RouterSideId) : Prop :=
  match source_route_modes st !! src with
  | None =>
      match origin with
      | Flood => r = l
      | Discovered => exists s, r = [s] /\ s ∈ l
          /\ ((exists u, u ∈ l /\ adaptive_route_stats st !! u = None) -> adaptive_route_stats st !! s = None)
      end
  | Some Weighted =>
      (exists s, r = [s] /\ s ∈ l /\ 0 < route_weight st src s)
      \/ r = [] /\ forall s, s ∈ l -> route_weight st src s = 0
  | Some Failover =>
      exists s, r = [s] /\ s ∈ l
        /\ forall x, x ∈ l -> ~ Ordered.lt (priority_of st src x) (priority_of st src s)
  | Some Fanout => False
  end.

(** The mode table never holds [Fanout]: the only setter removes the entry instead. *)
Definition modes_stored (st : RouterInner) : Prop := map_Forall (fun _ m => m <> Fanout) (source_route_modes st).

Lemma set_mode_stored src m now st :
  modes_stored st -> modes_stored (set_source_route_mode src m now st).1.
Proof.
  unfold set_source_route_mode, modes_stored. intros H. unfold admin.
  destruct (sides_known _ _ _); [|done].
  change (source_route_modes (note_discovery_topology_change_locked ?n ?s, Ok tt).1) with (source_route_modes s).
  change (source_route_modes (reset_cursor src ?s)) with (source_route_modes s).
  cbn. destruct (decide (m = Fanout)).
  - by apply map_Forall_delete.
  - by apply map_Forall_insert_2.
Qed.

Lemma weighted_selected st src l :
  weights_ok st -> sum_weights (route_weight st src) l < 2 ^ 64 ->
  let l' := sort_by_key id l in
  let total := total_weight (route_weight st src) l' in
  let r := if total =? 0 then [] else pick_weighted (route_weight st src) (cursor_of st src mod total) l' in
  (exists s, r = [s] /\ s ∈ l /\ 0 < route_weight st src s)
  \/ r = [] /\ forall s, s ∈ l -> route_weight st src s = 0.
Proof.
  intros Hok Hs. cbn zeta.
  assert (forall s, 0 <= route_weight st src s) as Hw by (intros; by apply route_weight_nonneg).
  pose proof (sum_weights_nonneg _ l Hw).
  destruct (Z.eqb_spec (total_weight (route_weight st src) (sort_by_key id l)) 0) as [Hz|Hnz];
    rewrite total_weight_sorted in * by done.
  - right. split; [done|]. intros s. by apply sum_weights_zero.
  - left. destruct (weighted_step (route_weight st src) src l st) as (s & Hp & Hin & Hpos); [done..|lia|].
    rewrite total_weight_sorted in Hp by done. eauto.
Qed.

Lemma adaptive_selected st src l st' r :
  weights_ok st -> (2 <= length l)%nat -> sum_weights (adaptive_weight st) l < 2 ^ 64 ->
  apply_adaptive_discovery_selection_locked src l st = (st', r) ->
  exists s, r = [s] /\ s ∈ l
    /\ ((exists u, u ∈ l /\ adaptive_route_stats st !! u = None) -> adaptive_route_stats st !! s = None).
Proof.
  intros Hok Hl Hs. unfold apply_adaptive_discovery_selection_locked. cbn zeta.
  set (un := List.filter _ (sort_by_key id l)).
  assert (forall u, u ∈ un <-> u ∈ l /\ adaptive_route_stats st !! u = None) as Hun.
  { intros u. unfold un. rewrite elem_of_List_filter, (sort_perm id l).
    destruct (adaptive_route_stats st !! u); cbn; naive_solver. }
  assert (forall s, 0 <= adaptive_weight st s) as Hw by (intros s; pose proof (adaptive_weight_pos st s); lia).
  destruct un as [|x k] eqn:E.
  - rewrite total_weight_sorted by done. destruct (Z.eqb_spec (sum_weights (adaptive_weight st) l) 0) as [Hz|Hnz].
    + destruct l as [|y l]; [cbn in Hl; lia|].
      pose proof (sum_weights_zero (adaptive_weight st) (y :: l) y Hw Hz ltac:(set_solver)).
      pose proof (adaptive_weight_pos st y). lia.
    + pose proof (sum_weights_nonneg _ l Hw).
      destruct (weighted_step (adaptive_weight st) src l st) as (s & Hp & Hin & Hpos); [done..|lia|].
      rewrite total_weight_sorted in Hp by done. rewrite Hp. intros [= <- <-]. exists s. split; [done|].
      split; [done|]. intros (u & Hu & Hnu). exfalso. by apply (not_elem_of_nil u), Hun.
  - intros [= <- <-]. pose proof (cursor_range st src Hok).
    assert (0 < nlen (x :: k)) by (unfold nlen; cbn; lia).
    pose proof (Z.mod_pos_bound (cursor_of st src) (nlen (x :: k)) ltac:(done)).
    destruct (lookup_lt_is_Some_2 (x :: k) (Z.to_nat (cursor_of st src mod nlen (x :: k)))) as [s Hs'];
      [unfold nlen in *; lia|]. rewrite Hs'. exists s. split; [done|].
    apply list_elem_of_lookup_2, Hun in Hs' as [Hin Hnone]. by split.
Qed.

(** C27. Route selection, by the mode stored for the source: zero or one
    candidate is left as it is; failover keeps the one of least (priority, id);
    weighted picks one side of positive weight, and none only when every weight
    is zero; without a stored mode a flood keeps every candidate, and traffic
    routed by discovery goes to one side, an unmeasured one while there is any.
    ([Fanout] set through the API is stored as absence, so that it selects as
    the last case does.)  Nothing but the cursor of the source changes. *)
Theorem route_selection_correct st src l origin :
  modes_stored st -> weights_ok st -> sum_weights (route_weight st src) l < 2 ^ 64 -> sum_weights (adaptive_weight st) l < 2 ^ 64 ->
  let '(st', r) := apply_route_selection_locked src l origin st in
  (st' = st \/ exists c, st' = with_cursor src c st)
  /\ ((length l <= 1)%nat -> r = l)
  /\ ((2 <= length l)%nat -> selected_ok st src l origin r).
Proof.
  intros Hmodes Hok Hs Ha. destruct (apply_route_selection_locked src l origin st) as [st' r] eqn:E.
  assert (st' = st \/ exists c, st' = with_cursor src c st) as Hst.
  { unfold apply_route_selection_locked, apply_adaptive_discovery_selection_locked, bump_cursor in E. cbn zeta in E.
    repeat case_match; simplify_eq; eauto; right; eexists; reflexivity. }
  split; [done|]. split.
  - intros Hl. unfold apply_route_selection_locked in E. destruct (Z.leb_spec (nlen l) 1); [by injection E|].
    unfold nlen in *. lia.
  - intros Hl. unfold apply_route_selection_locked in E. rewrite nlen_two in E by done. unfold selected_ok.
    destruct (source_route_modes st !! src) as [[]|] eqn:Em; cbn [is_some negb andb] in E.
    + exact (Hmodes src Fanout Em eq_refl).
    + change (default Fanout (Some Weighted)) with Weighted in E. cbn zeta in E.
      pose proof (weighted_selected st src l Hok Hs) as Hw. cbn zeta in Hw.
      destruct (_ =? 0); injection E as <- <-; exact Hw.
    + change (default Fanout (Some Failover)) with Failover in E.
      assert (r = take 1 (sort_by_key (priority_of st src) l)) as -> by (by injection E).
      pose proof (sort_perm (priority_of st src) l) as Hp.
      destruct (sort_by_key (priority_of st src) l) as [|s k] eqn:Es.
      { apply Permutation_length in Hp. cbn in *. lia. }
      exists s. split; [reflexivity|]. apply (failover_least st src l s). by rewrite Es.
    + destruct origin; [rewrite bool_decide_false in E by done|rewrite bool_decide_true in E by done].
      * change (default Fanout None) with Fanout in E. by injection E as _ <-.
      * by apply adaptive_selected in E.
Qed.

(** ** Administration *)

(** [a] refuses unknown sides unchanged; otherwise it makes the change [f] of
    the routing rules and schedules an announce at once. *)
Definition rule_update (src dst : option RouterSideId) (now : Z) (a : RM unit) (f : RouterInner -> RouterInner) : Prop :=
  forall st, if sides_known st src dst
             then a st = (note_discovery_topology_change_locked now (f st), Ok tt)
             else a st = (st, Err BadArg).

Lemma admin_update src dst now f : rule_update src dst now (admin src dst now f) f.
Proof. intros st. unfold admin. by destruct (sides_known st src dst). Qed.

Lemma policy_ext st st' src t dst :
  sides st' = sides st -> route_overrides st' = route_overrides st ->
  typed_route_overrides st' = typed_route_overrides st ->
  route_policy st' src t dst <-> route_policy st src t dst.
Proof. intros Hs Ho Ht. unfold route_policy, side_at. by rewrite Hs, Ho, Ht. Qed.

Lemma set_typed_policy st src ty d b src' t' dst :
  route_policy (set_typed_route_overrides (<[(src, ty, d) := b]> (typed_route_overrides st)) st) src' t' dst
  <-> route_policy st src' None dst
      /\ forall u, t' = Some u ->
           if decide (src' = src /\ u = ty) then
             (dst = d /\ b = true) \/ (dst <> d /\ typed_route_overrides st !! (src, ty, dst) = Some true)
           else (exists e x, typed_route_overrides st !! (src', u, e) = Some x) ->
                typed_route_overrides st !! (src', u, dst) = Some true.
Proof.
  unfold route_policy. change (side_at (set_typed_route_overrides ?m st)) with (side_at st).
  change (typed_route_overrides (set_typed_route_overrides ?m st)) with m.
  change (route_overrides (set_typed_route_overrides ?m st)) with (route_overrides st).
  assert (forall u, t' = Some u ->
    ((exists e x, <[(src, ty, d) := b]> (typed_route_overrides st) !! (src', u, e) = Some x) ->
       <[(src, ty, d) := b]> (typed_route_overrides st) !! (src', u, dst) = Some true)
    <-> (if decide (src' = src /\ u = ty) then
           (dst = d /\ b = true) \/ (dst <> d /\ typed_route_overrides st !! (src, ty, dst) = Some true)
         else (exists e x, typed_route_overrides st !! (src', u, e) = Some x) ->
              typed_route_overrides st !! (src', u, dst) = Some true)) as Heq.
  { intros u _. destruct (decide _) as [[-> ->]|Hne].
    - split.
      + intros Himp. destruct (decide (dst = d)) as [->|Hd].
        * left. split; [done|]. rewrite lookup_insert_eq in Himp. assert (Some b = Some true); [|congruence].
          apply Himp. exists d, b. by rewrite lookup_insert_eq.
        * right. split; [done|]. rewrite lookup_insert_ne in Himp by congruence. apply Himp.
          exists d, b. by rewrite lookup_insert_eq.
      + intros [[-> ->]|[Hd Hx]] _; [by rewrite lookup_insert_eq|by rewrite lookup_insert_ne by congruence].
    - assert (forall e, <[(src, ty, d) := b]> (typed_route_overrides st) !! (src', u, e)
                        = typed_route_overrides st !! (src', u, e)) as Hl
        by (intros e; apply lookup_insert_ne; intros [= -> ->]; by apply Hne).
      setoid_rewrite Hl. done. }
  split.
  - intros (H1 & H2 & H3 & H4). split; [split; [done|]; split; [done|]; split; [done|]; done|].
    intros u Hu. by apply Heq, H4.
  - intros ((H1 & H2 & H3 & _) & H4). split; [done|]. split; [done|]. split; [done|].
    intros u Hu. by apply Heq, H4.
Qed.

(** Rule updates. Every setter refuses unknown sides with [BadArg]
    and no change, and otherwise changes its own table, resets the round-robin
    position where the candidates' weights change, and schedules an announce.
    Their effect on routing: an explicit rule decides its pair; a typed rule
    turns its source and type into an allow-list and leaves every other source
    and type as it was. *)
Theorem route_rules_correct src dst ty b w p m now st :
  rule_update src (Some dst) now (set_route src dst b now)
    (fun st => set_route_overrides (<[(src, dst) := b]> (route_overrides st)) st)
  /\ rule_update src (Some dst) now (set_route_weight src dst w now)
       (fun st => reset_cursor src (set_route_weights (<[(src, dst) := w]> (route_weights st)) st))
  /\ rule_update src (Some dst) now (set_route_priority src dst p now)
       (fun st => set_route_priorities (<[(src, dst) := p]> (route_priorities st)) st)
  /\ rule_update src (Some dst) now (set_typed_route src ty dst b now)
       (fun st => set_typed_route_overrides (<[(src, ty, dst) := b]> (typed_route_overrides st)) st)
  /\ rule_update src None now (set_source_route_mode src m now)
       (fun st => reset_cursor src (set_source_route_modes
          (if decide (m = Fanout) then delete src (source_route_modes st)
           else <[src := m]> (source_route_modes st)) st))
  /\ (forall st', set_route src dst b now st = (st', Ok tt) ->
      forall t, route_allowed_locked st' src t dst = true -> b = true)
  /\ (forall st', set_typed_route src ty dst b now st = (st', Ok tt) ->
      forall src' t' d,
      route_policy st' src' t' d <->
      route_policy st src' None d
      /\ forall u, t' = Some u ->
           if decide (src' = src /\ u = ty) then
             (d = dst /\ b = true) \/ (d <> dst /\ typed_route_overrides st !! (src, ty, d) = Some true)
           else (exists e x, typed_route_overrides st !! (src', u, e) = Some x) ->
                typed_route_overrides st !! (src', u, d) = Some true).
Proof.
  do 5 (split; [apply admin_update|]). split.
  - intros st' Hs t Ha. unfold set_route, admin in Hs. destruct (sides_known _ _ _); [|done]. injection Hs as <-.
    apply route_allowed_spec in Ha as (_ & _ & Ho & _).
    change (route_overrides _) with (<[(src, dst) := b]> (route_overrides st)) in Ho.
    rewrite lookup_insert_eq in Ho. naive_solver.
  - intros st' Hs src' t' d. unfold set_typed_route, admin in Hs. destruct (sides_known _ _ _); [|done].
    injection Hs as <-. rewrite <- set_typed_policy. by apply policy_ext.
Qed.

(** ** Removing a side *)

Section Removal.
Context `{Config} `{Layout} `{RouterLayout}.

(** Nothing in the state names [side] any more. *)
Record forgotten (side : RouterSideId) (st : RouterInner) : Prop := {
  fo_side : side_at st side = None;
  fo_overrides s d v : route_overrides st !! (s, d) = Some v -> s <> Some side /\ d <> side;
  fo_typed s t d v : typed_route_overrides st !! (s, t, d) = Some v -> s <> Some side /\ d <> side;
  fo_weights s d v : route_weights st !! (s, d) = Some v -> s <> Some side /\ d <> side;
  fo_priorities s d v : route_priorities st !! (s, d) = Some v -> s <> Some side /\ d <> side;
  fo_mode : source_route_modes st !! Some side = None;
  fo_cursor : route_selection_cursors st !! Some side = None;
  fo_stats : adaptive_route_stats st !! side = None;
  fo_return id s : reliable_return_routes st !! id = Some s -> s <> side;
  fo_transmit i : i ∈ q (transmit_queue st) -> tx_to_side side i = false;
  fo_received i : i ∈ q (received_queue st) -> rx_src i <> Some side;
  fo_tx k v : (k, v) ∈ reliable_tx st -> fst k <> side;
  fo_rx k v : (k, v) ∈ reliable_rx st -> fst k <> side;
  fo_routes : bt_get side (discovery_routes st) = None
}.

Lemma side_at_update side s st other :
  0 <= side -> 0 <= other -> is_Some (side_at st side) ->
  side_at (update_side side s st) other = if decide (other = side) then s else side_at st other.
Proof.
  intros Hs Ho [x Hx]. pose proof (side_at_range _ _ _ Hs Hx) as Hr. unfold side_at, update_side. cbn. unfold nlen in Hr.
  destruct (decide (other = side)) as [->|Hne].
  - rewrite list_lookup_insert_eq by lia. done.
  - rewrite list_lookup_insert_ne by lia. done.
Qed.

Lemma forget_side_forgotten side st :
  0 <= side -> is_Some (side_at st side) -> inner_ok st -> forgotten side (forget_side side st).
Proof.
  intros Hpos Hside Hi. pose proof Hi as []. split.
  - change (side_at (forget_side side st) side) with (side_at (update_side side None st) side).
    rewrite side_at_update by done. by rewrite decide_True.
  - intros s d v. cbn. rewrite map_lookup_filter_Some. cbn. tauto.
  - intros s t d v. cbn. rewrite map_lookup_filter_Some. cbn. tauto.
  - intros s d v. cbn. rewrite map_lookup_filter_Some. cbn. tauto.
  - intros s d v. cbn. rewrite map_lookup_filter_Some. cbn. tauto.
  - cbn. apply lookup_delete_eq.
  - cbn. apply lookup_delete_eq.
  - cbn. apply lookup_delete_eq.
  - intros id s. cbn. rewrite map_lookup_filter_Some. cbn. tauto.
  - intros i. cbn. destruct (retain_spec (fun queued => negb (tx_to_side side queued)) (transmit_queue st)) as [Hq _]; [done|].
    unfold retain_transmit. cbn. rewrite Hq. cbn [q set_q]. rewrite elem_of_List_filter, negb_true_iff. tauto.
  - intros i. cbn. destruct (retain_spec (fun queued => negb (rx_from side queued)) (received_queue st)) as [Hq _]; [done|].
    cbn. rewrite Hq. cbn [q set_q]. rewrite elem_of_List_filter, negb_true_iff. unfold rx_from. rewrite bool_decide_eq_false. tauto.
  - intros k v. change (reliable_tx (forget_side side st)) with (bt_retain (fun k _ => negb (fst k =? side)) (reliable_tx st)).
    rewrite elem_of_bt_retain. cbn [fst snd]. rewrite negb_true_iff, Z.eqb_neq. tauto.
  - intros k v. change (reliable_rx (forget_side side st)) with (bt_retain (fun k _ => negb (fst k =? side)) (reliable_rx st)).
    rewrite elem_of_bt_retain. cbn [fst snd]. rewrite negb_true_iff, Z.eqb_neq. tauto.
  - change (discovery_routes (forget_side side st)) with (bt_remove side (discovery_routes st)).
    by apply bt_get_remove_eq.
Qed.

Lemma zsum_filter_le {A} (g : A -> Z) (f : A -> bool) l :
  (forall x, 0 <= g x) -> zsum (map g (List.filter f l)) <= zsum (map g l).
Proof.
  intros Hg. induction l as [|x l IH]; cbn; [done|]. pose proof (Hg x).
  destruct (f x); cbn; unfold zsum in *; lia.
Qed.

Lemma zsum_remove_le {K V} `{Ord K} (g : K * V -> Z) k m :
  (forall x, 0 <= g x) -> zsum (map g (bt_remove k m)) <= zsum (map g m).
Proof.
  intros Hg. induction m as [|[j w] m IH]; cbn [bt_remove map]; [done|]. pose proof (Hg (j, w)).
  destruct (cmp k j); cbn [map]; unfold zsum in *; cbn; lia.
Qed.

Lemma frames_cost_nonneg l : 0 <= frames_cost l.
Proof.
  apply zsum_nonneg, Forall_map, Forall_forall. intros e _. pose proof (blen_nonneg (snd e)).
  cbn. unfold sizeof_arc_slice. lia.
Qed.

Context (Hsize : 0 <= sizeof_DiscoverySideState).

Lemma forget_side_budget side st : budget_ok st -> budget_ok (forget_side side st).
Proof.
  intros [Hi Hb]. rewrite used_exact in Hb by done.
  destruct (retain_spec (fun queued => negb (tx_to_side side queued)) (transmit_queue st)) as [Ht Hti]; [apply Hi|].
  destruct (retain_spec (fun queued => negb (rx_from side queued)) (received_queue st)) as [Hr Hri]; [apply Hi|].
  set (st' := forget_side side st).
  assert (exact_used st' <= exact_used st) as He.
  { unfold exact_used. rewrite !buffer_costs_sum.
    change (received_queue st') with (retain (fun queued => negb (rx_from side queued)) (received_queue st)).
    change (transmit_queue st') with (retain (fun queued => negb (tx_to_side side queued)) (transmit_queue st)).
    change (recent_rx st') with (recent_rx st).
    change (reliable_rx st') with (bt_retain (fun k _ => negb (fst k =? side)) (reliable_rx st)).
    unfold route_costs. change (discovery_routes st') with (bt_remove side (discovery_routes st)).
    rewrite Ht, Hr. cbn [cur_bytes set_q].
    rewrite (bi_bytes _ (io_received _ Hi)), (bi_bytes _ (io_transmit _ Hi)).
    repeat apply Z.add_le_mono.
    - apply total_filter_le, (io_received _ Hi).
    - apply total_filter_le, (io_transmit _ Hi).
    - done.
    - apply zsum_filter_le. intros; apply frames_cost_nonneg.
    - apply zsum_remove_le. intros [sd rt]. pose proof (route_cost_pos sd rt Hsize). cbn. lia. }
  assert (inner_ok st') as Hi'.
  { split; [exact Hri|exact Hti|apply Hi|apply bt_retain_sorted, Hi| |apply bt_remove_sorted, Hi|].
    - intros k rx Hin. apply (elem_of_bt_retain (fun k _ => negb (fst k =? side))) in Hin as [_ Hin].
      by eapply (io_buffers _ Hi).
    - pose proof (io_memory _ Hi). lia. }
  apply budget_exact; [done|done|]. lia.
Qed.

Lemma note_change_budget now st :
  budget_ok st -> budget_ok (note_discovery_topology_change_locked now st).
Proof. intros [[] Hu]. split; [by split|exact Hu]. Qed.

Lemma note_change_forgotten side now st :
  forgotten side st -> forgotten side (note_discovery_topology_change_locked now st).
Proof. intros []. by split. Qed.

(** Removing a side: an unknown or already removed id is refused
    unchanged; otherwise the id is tombstoned, no rule, queued item, reliable
    state or topology route names it any more, no packet is routed to or from
    it, the other sides keep their ids and settings, and the queue budget is
    kept.  The answer is [Ok] when the interrupt queue is free, which is then
    purged too; when it is busy the call fails although the side is gone. *)
Theorem remove_side_correct side now st isr :
  0 <= side -> budget_ok st -> bd_inv (isr_q isr) ->
  match side_at st side with
  | None => remove_side side now st isr = ((st, isr), Err BadArg)
  | Some _ =>
      let '((st', isr'), r) := remove_side side now st isr in
      forgotten side st' /\ budget_ok st'
      /\ (forall other, 0 <= other -> other <> side -> side_at st' other = side_at st other)
      /\ (forall src t, route_allowed_locked st' src t side = false)
      /\ (forall t dst, route_allowed_locked st' (Some side) t dst = false)
      /\ (busy isr = true -> isr' = isr /\ r = Err (Io "rx queue busy"))
      /\ (busy isr = false -> r = Ok tt /\ forall i, i ∈ q (isr_q isr') -> rx_src i <> Some side)
  end.
Proof.
  intros Hpos Hb Hisr. unfold remove_side. destruct (side_at st side) as [s|] eqn:Es; [|done].
  set (st1 := note_discovery_topology_change_locked now (forget_side side st)).
  assert (forgotten side st1) as Hf.
  { apply note_change_forgotten, forget_side_forgotten; [done|by eexists|apply Hb]. }
  assert (budget_ok st1) as Hb1 by (by apply note_change_budget, forget_side_budget).
  assert (side_at st1 side = None) as Hgone by apply Hf.
  assert (forall other, 0 <= other -> other <> side -> side_at st1 other = side_at st other) as Ho.
  { intros other Hother Hne. change (side_at st1 other) with (side_at (update_side side None st) other).
    rewrite side_at_update by (done || by eexists). by rewrite decide_False. }
  assert (forall src t, route_allowed_locked st1 src t side = false) as Hto.
  { intros src t. apply not_true_iff_false. rewrite route_allowed_spec. intros ((d & Hd & _) & _). congruence. }
  assert (forall t dst, route_allowed_locked st1 (Some side) t dst = false) as Hfrom.
  { intros t dst. apply not_true_iff_false. rewrite route_allowed_spec. intros (_ & Hs & _).
    destruct (Hs side eq_refl) as (x & Hx & _). congruence. }
  unfold isr_with. destruct (busy isr) eqn:Eb; cbn [fst snd].
  - split; [done|]. split; [done|]. split; [done|]. split; [done|]. split; [done|]. by split.
  - split; [done|]. split; [done|]. split; [done|]. split; [done|]. split; [done|]. split; [done|].
    intros _. split; [done|]. intros i.
    destruct (retain_spec (fun queued => negb (rx_from side queued)) (isr_q isr) Hisr) as [Hq _].
    cbn [isr_q]. rewrite Hq. cbn [q set_q]. rewrite elem_of_List_filter, negb_true_iff.
    unfold rx_from. rewrite bool_decide_eq_false. tauto.
Qed.
End Removal.

(** ** Witnesses *)

(** A router with three sides; side 2 allows link-local traffic. *)
Definition three_sides : RouterInner :=
  let o := side_options_default in
  let ll := {| reliable_enabled := false; link_local_enabled := true; ingress_enabled := true; egress_enabled := true |} in
  fst (add_side (lit "C") HPacket ll 0 (fst (add_side (lit "B") HSerialized o 0
    (fst (add_side (lit "A") HSerialized o 0 fresh_inner))))).

(** Local traffic is weighted 1 : 3 between sides 0 and 1. *)
Definition weighted_sides : RouterInner :=
  fst (set_route_weight None 1 3 0 (fst (set_source_route_mode None Weighted 0 three_sides))).

Lemma route_policy_correct_witness :
  eligible_side_ids_locked three_sides (Some 1) (Some 0) false = [0; 2]
  /\ route_policy three_sides (Some 1) (Some 0) 2
  /\ eligible_side_ids_locked three_sides None None true = [2].
Proof.
  split; [vm_compute; reflexivity|]. split; [|vm_compute; reflexivity].
  apply (proj1 (proj1 (route_policy_correct three_sides (Some 1) (Some 0) false) 2)). vm_compute. reflexivity.
Defined.

Lemma weighted_weights_ok : weights_ok weighted_sides.
Proof.
  split; intros k v Hv.
  - change (route_weights weighted_sides) with ({[(None, 1) := 3]} : gmap (option RouterSideId * RouterSideId) Z) in Hv.
    apply lookup_singleton_Some in Hv as [_ <-]. lia.
  - vm_compute in Hv. destruct k; discriminate.
Qed.

Lemma weighted_modes_stored : modes_stored weighted_sides.
Proof.
  apply (map_Forall_singleton (fun _ m => m <> Fanout) None Weighted). discriminate.
Qed.

Lemma route_selection_correct_witness :
  selected_ok weighted_sides None [0; 1] Discovered (snd (apply_route_selection_locked None [0; 1] Discovered weighted_sides))
  /\ snd (apply_route_selection_locked None [0; 1] Discovered weighted_sides) = [0].
Proof.
  pose proof (route_selection_correct weighted_sides None [0; 1] Discovered weighted_modes_stored weighted_weights_ok
    ltac:(vm_compute; reflexivity) ltac:(vm_compute; reflexivity)) as Hs.
  destruct (apply_route_selection_locked None [0; 1] Discovered weighted_sides) as [st' r] eqn:E.
  destruct Hs as (_ & _ & Hs). split; [apply Hs; apply le_n|]. vm_compute in E. by injection E.
Defined.

(** [Fanout] set by the application is stored as no mode at all: of two sides
    found by discovery, unreliable traffic then takes one. *)
Example fanout_set_sends_one :
  let st := fst (set_source_route_mode None Fanout 0 weighted_sides) in
  source_route_modes st !! None = None
  /\ snd (apply_route_selection_locked None [0; 1] Discovered st) = [0]
  /\ snd (apply_route_selection_locked None [0; 1] Flood st) = [0; 1].
Proof. split; [|split]; vm_compute; reflexivity. Qed.

Lemma weighted_round_robin_witness :
  select_times 4 None [0; 1] Flood weighted_sides ≡ₚ [[0]; [1]; [1]; [1]]
  /\ select_times 4 None [0; 1] Flood weighted_sides = [[0]; [1]; [1]; [1]].
Proof.
  split; [|vm_compute; reflexivity].
  destruct (weighted_round_robin weighted_sides None [0; 1] weighted_weights_ok (le_n 2)) as [Hw _].
  exact (Hw ltac:(vm_compute; reflexivity) Flood ltac:(vm_compute; split; reflexivity) ltac:(vm_compute; discriminate)).
Defined.

Lemma route_rules_correct_witness :
  exists st', set_typed_route None 0 1 true 7 three_sides = (st', Ok tt)
     /\ ~ route_policy st' None (Some 0) 0 /\ route_policy st' None (Some 1) 0.
Proof.
  eexists. assert (set_typed_route None 0 1 true 7 three_sides = (_, Ok tt)) as Hs by reflexivity.
  split; [exact Hs|]. destruct (route_rules_correct None 1 0 true 0 0 Fanout 7 three_sides) as (_ & _ & _ & _ & _ & _ & Ht).
  specialize (Ht _ Hs). split; rewrite Ht.
  - intros [_ Hu]. specialize (Hu 0 eq_refl). cbn in Hu. destruct Hu as [[? _]|[_ Hu]]; [discriminate|].
    vm_compute in Hu. discriminate.
  - split.
    + apply route_allowed_spec. vm_compute. reflexivity.
    + intros u [= <-]. cbn. intros (e & x & Hx). exfalso. vm_compute in Hx. destruct e; discriminate.
Defined.

Lemma remove_side_correct_witness :
  forgotten 0 (fst (fst (@remove_side some_layout some_router_layout 0 7 weighted_sides
    {| busy := true; isr_q := received_queue fresh_inner |})))
  /\ snd (@remove_side some_layout some_router_layout 0 7 weighted_sides
    {| busy := true; isr_q := received_queue fresh_inner |}) = Err (Io "rx queue busy").
Proof.
  assert (@budget_ok default_config some_layout some_router_layout weighted_sides) as Hb.
  { destruct (proj1 fresh_inner_ok) as [[] Hu]. split; [by split|exact Hu]. }
  pose proof (@remove_side_correct default_config some_layout some_router_layout ltac:(vm_compute; discriminate) 0 7
    weighted_sides {| busy := true; isr_q := received_queue fresh_inner |} ltac:(lia) Hb
    (@io_received some_layout some_router_layout _ (proj1 (proj1 fresh_inner_ok)))) as Hr.
  replace (side_at weighted_sides 0) with
    (Some {| side_name := lit "A"; tx_handler := HSerialized; opts := side_options_default |}) in Hr by (vm_compute; reflexivity).
  destruct (remove_side _ _ _ _) as [[st' isr'] r]. destruct Hr as (Hf & _ & _ & _ & _ & Hbusy & _).
  split; [exact Hf|]. by apply Hbusy.
Defined.
