(* ===== verification/Reliable.v ===== *)
(** * Per-link reliable delivery ([src/router.rs])

    The sender and receiver state of one (side, type) link and the router
    operations on them: sequence allocation and the send history, cumulative,
    selective and partial acknowledgements, packet requests, retransmission
    timeouts, and the front part of [rx_item] that acknowledges, reorders and
    releases sequenced frames.

    Clock readings and packet timestamps are arguments; what a side's transmit
    callback returns is an argument too. *)

From stdpp Require Import gmap.
From S2P Require Import Prelude Ordered Telemetry Config Schema Queue SmallPayload Wire Packet Serialize Discovery RouterState Routes.

(** ** Link state *)

Definition tx_state_new : ReliableTxState := {| next_seq := 1; sent_order := []; tx_sent := [] |}.

Definition update_tx (key : RouterSideId * Z) (f : ReliableTxState -> ReliableTxState)
    (st : RouterInner) : RouterInner :=
  set_reliable_tx (bt_insert key (f (default tx_state_new (bt_get key (reliable_tx st)))) (reliable_tx st)) st.

Definition tx_state (key : RouterSideId * Z) (st : RouterInner) : ReliableTxState :=
  default tx_state_new (bt_get key (reliable_tx st)).

Definition rx_state (key : RouterSideId * Z) (st : RouterInner) : ReliableRxState :=
  default rx_state_new (bt_get key (reliable_rx st)).

Definition set_tx_sent (m : list (Z * ReliableSent)) (tx : ReliableTxState) : ReliableTxState :=
  {| next_seq := next_seq tx; sent_order := sent_order tx; tx_sent := m |}.

(** [if next == 0 { 1 } else { next }]. *)
Definition seq_after (s : Z) : Z := let next := wrap 32 (s + 1) in if next =? 0 then 1 else next.

(** *** Acknowledgements *)

Fixpoint ack_cumulative (order : list Z) (ack : Z) (m : list (Z * ReliableSent))
    : list Z * list (Z * ReliableSent) :=
  match order with
  | [] => ([], m)
  | s :: rest => if ack <? s then (order, m) else ack_cumulative rest ack (bt_remove s m)
  end.

Definition ack_state (mode : ReliableMode) (ack : Z) (tx : ReliableTxState) : ReliableTxState :=
  match mode with
  | Unordered =>
      {| next_seq := next_seq tx; sent_order := List.filter (fun s => negb (s =? ack)) (sent_order tx);
         tx_sent := bt_remove ack (tx_sent tx) |}
  | _ =>
      let '(order, m) := ack_cumulative (sent_order tx) ack (tx_sent tx) in
      {| next_seq := next_seq tx; sent_order := order; tx_sent := m |}
  end.

Definition set_partial_acked (b : bool) (s : ReliableSent) : ReliableSent :=
  {| sent_bytes := sent_bytes s; last_send_ms := last_send_ms s; retries := retries s;
     queued := queued s; partial_acked := b |}.

Definition set_queued (b : bool) (s : ReliableSent) : ReliableSent :=
  {| sent_bytes := sent_bytes s; last_send_ms := last_send_ms s; retries := retries s;
     queued := b; partial_acked := partial_acked s |}.

(** *** Retransmission timeouts *)

(** One pass over [sent_order]: the new state and the sequences to requeue. *)
Fixpoint scan_timeouts `{Config} (now : Z) (order : list Z) (tx : ReliableTxState)
    : ReliableTxState * list Z :=
  match order with
  | [] => (tx, [])
  | s :: order =>
      match bt_get s (tx_sent tx) with
      | None => scan_timeouts now order tx
      | Some e =>
          if queued e || (wrap 64 (now - last_send_ms e) <? RELIABLE_RETRANSMIT_MS) then scan_timeouts now order tx
          else if partial_acked e then scan_timeouts now order tx
          else if RELIABLE_MAX_RETRIES <=? retries e then
            scan_timeouts now order
              {| next_seq := next_seq tx; sent_order := List.filter (fun x => negb (x =? s)) (sent_order tx);
                 tx_sent := bt_remove s (tx_sent tx) |}
          else
            let e' := {| sent_bytes := sent_bytes e; last_send_ms := last_send_ms e;
                         retries := wrap 32 (retries e + 1); queued := queued e;
                         partial_acked := partial_acked e |} in
            let '(tx, requeue) := scan_timeouts now order (set_tx_sent (bt_insert s e' (tx_sent tx)) tx) in
            (tx, s :: requeue)
      end
  end.

(** *** In-order release *)

(** [while let Some(buf) = buffered.remove(&next_expected)]: the frames
    released, the last sequence delivered and the next one expected.  Each
    round removes a frame, so the buffer length is fuel enough. *)
Fixpoint release_loop (fuel : nat) (next last : Z) (buf : list (Z * list byte))
    : list (list byte) * Z * Z * list (Z * list byte) :=
  match fuel with
  | O => ([], last, next, buf)
  | S fuel =>
      match bt_get next buf with
      | None => ([], last, next, buf)
      | Some f =>
          let '(rel, last, next', buf) := release_loop fuel (seq_after next) next (bt_remove next buf) in
          (f :: rel, last, next', buf)
      end
  end.

Inductive verdict :=
| OldFrame (ack : Z)
| GapFrame (expected : Z)
| InOrder (released : list (list byte)) (last : Z).

Section Receiver.
Context `{Config}.

(** The receiver's decision on a sequenced ordered frame; a gap also buffers
    the frame unless that sequence is buffered already. *)
Definition recv_ordered (seq : Z) (bytes : list byte) (rx : ReliableRxState) : ReliableRxState * verdict :=
  if seq <? expected_seq rx then (rx, OldFrame (sat_sub (expected_seq rx) 1))
  else if expected_seq rx <? seq then
    (if bt_contains seq (buffered rx) then rx else buffer_frame seq bytes rx, GapFrame (expected_seq rx))
  else
    let '(rel, last, next, buf) :=
      release_loop (length (buffered rx)) (wrap 32 (seq + 1)) seq (buffered rx) in
    ({| expected_seq := next; buffered := buf |}, InOrder rel last).
End Receiver.

(** ** Router operations *)

Section Ops.
Context `{Config} `{Schema} `{External} `{Layout} `{RouterLayout}.

(** [self.sender] and [packet_timestamp_ms()]. *)
Context (self_sender : Str) (timestamp_ms : Z).

Definition message_priority_bumped (t : DataType) : Z := sat_add_u8 (message_priority t) 16.

Definition tx_queue_item_with_priority (i : RouterTxItem) (ignore : bool) (prio : Z) : RM unit :=
  push_transmit {| txq_item := i; ignore_local := ignore; txq_priority := prio |}.

Definition router_item_priority (d : RouterItem) : TelemetryResult Z :=
  match d with
  | RPacket pkt => Ok (message_priority (ty pkt))
  | RSerialized bytes => env ← peek_envelope bytes; Ok (message_priority (env_ty env))
  end.

Definition tx_queue_item_with_flags (i : RouterTxItem) (ignore : bool) : RM unit :=
  prio ← lift (match i with
               | Broadcast data => router_item_priority data
               | EndToEndReplay _ => Ok (message_priority_bumped ReliableAck)
               | ToSide _ _ data => router_item_priority data
               | ReliableReplay _ bytes => env ← peek_envelope bytes; Ok (message_priority_bumped (env_ty env))
               end);
  tx_queue_item_with_priority i ignore prio.

Definition reliable_control_packet (control_ty t : DataType) (seq : Z) : TelemetryResult Packet :=
  packet_new control_ty (endpoints (message_meta control_ty)) self_sender timestamp_ms
    (encode_slice_le PU32 [t; seq]).

(** The three [queue_reliable_*] control messages. *)
Definition queue_reliable_control (control_ty : DataType) (side : RouterSideId) (t : DataType) (seq : Z) : RM unit :=
  pkt ← lift (reliable_control_packet control_ty t seq);
  tx_queue_item_with_priority (ToSide None side (RPacket pkt)) true (message_priority control_ty).

Definition queue_reliable_ack := queue_reliable_control ReliableAck.
Definition queue_reliable_packet_request := queue_reliable_control ReliablePacketRequest.
Definition queue_reliable_partial_ack := queue_reliable_control ReliablePartialAck.

Definition handle_reliable_ack (side : RouterSideId) (t : DataType) (ack : Z) : RM unit :=
  modify (update_tx (reliable_key side t) (ack_state (reliable_mode t) ack)).

Definition partial_ack_state (seq : Z) (tx : ReliableTxState) : ReliableTxState :=
  match bt_get seq (tx_sent tx) with
  | Some _ => set_tx_sent (bt_update seq (set_partial_acked true) (tx_sent tx)) tx
  | None => tx
  end.

Definition handle_reliable_partial_ack (side : RouterSideId) (t : DataType) (seq : Z) : RM unit :=
  modify (update_tx (reliable_key side t) (partial_ack_state seq)).

(** What a retransmission request finds: the frame to replay, once. *)
Definition retransmit_state (seq : Z) (tx : ReliableTxState) : ReliableTxState * option (list byte) :=
  match bt_get seq (tx_sent tx) with
  | Some e =>
      if queued e then (tx, None)
      else (set_tx_sent (bt_update seq (fun e => set_queued true (set_partial_acked false e)) (tx_sent tx)) tx,
            Some (sent_bytes e))
  | None => (tx, None)
  end.

Definition queue_reliable_retransmit (side : RouterSideId) (t : DataType) (seq : Z) : RM unit :=
  fun st =>
  let key := reliable_key side t in
  let '(tx, found) := retransmit_state seq (tx_state key st) in
  let st := update_tx key (fun _ => tx) st in
  match found with
  | Some bytes =>
      tx_queue_item_with_priority (ReliableReplay side bytes) true (message_priority_bumped t) st
  | None => (st, Ok tt)
  end.

(** A replay that went out: the entry may be asked for again. *)
Definition replay_sent_state (seq now : Z) (tx : ReliableTxState) : ReliableTxState :=
  set_tx_sent (bt_update seq (fun e =>
    {| sent_bytes := sent_bytes e; last_send_ms := now; retries := retries e;
       queued := false; partial_acked := partial_acked e |}) (tx_sent tx)) tx.

(** [for .. in reliable_tx.iter_mut()]: every link scanned, then the requeues. *)
Fixpoint scan_links (now : Z) (l : list ((RouterSideId * Z) * ReliableTxState))
    : list ((RouterSideId * Z) * ReliableTxState) * list (RouterSideId * DataType * Z) :=
  match l with
  | [] => ([], [])
  | ((side, raw), tx) :: l =>
      let '(l', requeue) := scan_links now l in
      match type_try_from_u32 raw with
      | None => (((side, raw), tx) :: l', requeue)
      | Some t =>
          let '(tx, seqs) := scan_timeouts now (sent_order tx) tx in
          (((side, raw), tx) :: l', map (fun s => (side, t, s)) seqs ++ requeue)
      end
  end.

Fixpoint requeue_all (l : list (RouterSideId * DataType * Z)) : RM unit :=
  match l with
  | [] => mret tt
  | (side, t, seq) :: l => _ ← queue_reliable_retransmit side t seq; requeue_all l
  end.

Definition process_reliable_timeouts (now : Z) : RM unit := fun st =>
  let '(links, requeue) := scan_links now (reliable_tx st) in
  requeue_all requeue (set_reliable_tx links st).

(** *** Sending *)

(** [seq] and [flags] for the next frame of a link. *)
Definition allocate_seq (side : RouterSideId) (t : DataType) : RM (Z * Z) := fun st =>
  let key := reliable_key side t in
  let tx := tx_state key st in
  let st := update_tx key (fun tx => tx) st in
  if RELIABLE_MAX_PENDING <=? nlen (tx_sent tx) then
    (st, Err (PacketTooLarge "router reliable history full"))
  else
    (update_tx key (fun tx => {| next_seq := seq_after (next_seq tx); sent_order := sent_order tx;
                                 tx_sent := tx_sent tx |}) st,
     Ok (next_seq tx, match reliable_mode t with Unordered => RELIABLE_FLAG_UNORDERED | _ => 0 end)).

Definition record_sent (side : RouterSideId) (t : DataType) (seq : Z) (bytes : list byte) (now : Z)
    : RouterInner -> RouterInner :=
  update_tx (reliable_key side t) (fun tx =>
    {| next_seq := next_seq tx; sent_order := sent_order tx ++ [seq];
       tx_sent := bt_insert seq {| sent_bytes := bytes; last_send_ms := now; retries := 0;
                                   queued := false; partial_acked := false |} (tx_sent tx) |}).

(** [sender.last_seen_ms] within the route lifetime. *)
Definition sender_fresh (now : Z) (s : DiscoverySenderState) : bool :=
  sat_sub now (ds_last_seen_ms s) <=? DISCOVERY_ROUTE_TTL_MS.

Definition side_has_multiple_announcers_locked (st : RouterInner) (side : RouterSideId) (now : Z) : bool :=
  match bt_get side (discovery_routes st) with
  | Some route =>
      1 <? nlen (take 2 (List.filter (fun e => sender_fresh now (snd e)) (announcers route)))
  | None => false
  end.

(** [cfg_reliable] is the router's own switch. *)
Definition hop_reliable (cfg_reliable : bool) (st : RouterInner) (s : RouterSide) (side : RouterSideId)
    (now : Z) : bool :=
  reliable_enabled (opts s) && cfg_reliable && negb (side_has_multiple_announcers_locked st side now).

(** [adjust_reliable_for_side]: what a side without hop reliability is sent. *)
Definition adjust_reliable_for_side (side_reliable : bool) (d : RouterItem) : TelemetryResult (option RouterItem) :=
  if side_reliable then Ok (Some d)
  else match d with
  | RSerialized bytes =>
      frame ← peek_frame_info bytes;
      match fi_reliable frame with
      | Some hdr =>
          if negb (is_reliable_type (env_ty (envelope frame))) then Ok (Some (RSerialized bytes))
          else if has_flag (rh_flags hdr) RELIABLE_FLAG_ACK_ONLY then Ok None
          else if negb (has_flag (rh_flags hdr) RELIABLE_FLAG_UNSEQUENCED) then
            '(_, v) ← rewrite_reliable_header bytes RELIABLE_FLAG_UNSEQUENCED (rh_seq hdr) 0;
            Ok (Some (RSerialized v))
          else Ok (Some (RSerialized bytes))
      | None => Ok (Some (RSerialized bytes))
      end
  | RPacket pkt =>
      if (ty pkt =? ReliableAck) || (ty pkt =? ReliablePartialAck) || (ty pkt =? ReliablePacketRequest)
      then Ok None else Ok (Some (RPacket pkt))
  end.

(** The frame for the wire; [false]: a frame without reliable header, which is
    sent as it is and not tracked. *)
Definition sequenced_frame (d : RouterItem) (flags seq : Z) : TelemetryResult (bool * list byte) :=
  match d with
  | RPacket pkt =>
      w ← serialize_packet_with_reliable pkt {| rh_flags := flags; rh_seq := seq; rh_ack := 0 |};
      Ok (true, w)
  | RSerialized bytes => rewrite_reliable_header bytes flags seq 0
  end.

(** What a side answers to one transmission: whether another transmission is
    on the stack ([try_enter_side_tx] fails), and its callback, per attempt. *)
Record SideCall := {
  side_busy : bool;
  on_bytes : nat -> list byte -> TelemetryResult unit;
  on_packet : nat -> Packet -> TelemetryResult unit;
  started_ms : Z;
  ended_ms : Z
}.

Definition side_tx_busy : TelemetryError := Io "side tx busy".

Definition is_side_tx_busy (e : TelemetryError) : bool :=
  match e with Io msg => String.eqb msg "side tx busy" | _ => false end.

(** [expect("times > 0")] panics when no attempt is allowed. *)
Fixpoint retry_from {T} (times i : nat) (f : nat -> TelemetryResult T) (last_err : option TelemetryError)
    : TelemetryResult T :=
  match times with
  | O => match last_err with Some e => Err e | None => Panic end
  | S times =>
      match f i with
      | Err e => retry_from times (S i) f (Some e)
      | r => r
      end
  end.

Definition retry {T} (times : Z) (f : nat -> TelemetryResult T) : TelemetryResult T :=
  retry_from (Z.to_nat times) 0 f None.

Definition router_item_wire_len (d : RouterItem) : TelemetryResult Z :=
  match d with
  | RPacket pkt => w ← serialize_packet pkt; Ok (blen w)
  | RSerialized bytes => Ok (blen bytes)
  end.

Definition sample (call : SideCall) (side : RouterSideId) (bytes : Z) : RM unit :=
  modify (record_side_tx_sample side bytes (started_ms call) (ended_ms call)).

(** One retried call with the serialized bytes and its bandwidth sample. *)
Definition call_with_bytes (call : SideCall) (side : RouterSideId) (bytes : list byte) : RM unit :=
  if side_busy call then lift (Err side_tx_busy)
  else
    _ ← lift (retry MAX_HANDLER_RETRIES (fun i => on_bytes call i bytes));
    sample call side (blen bytes).

Definition call_side_tx_handler (call : SideCall) (side : RouterSideId) (handler : RouterTxHandlerFn)
    (d : RouterItem) : RM unit :=
  if side_busy call then lift (Err side_tx_busy)
  else
    _ ← lift (retry MAX_HANDLER_RETRIES (fun i =>
          match handler, d with
          | HSerialized, RSerialized bytes => on_bytes call i bytes
          | HPacket, RPacket pkt => on_packet call i pkt
          | HSerialized, RPacket pkt => owned ← serialize_packet pkt; on_bytes call i owned
          | HPacket, RSerialized bytes => pkt ← deserialize_packet bytes; on_packet call i pkt
          end));
    (match router_item_wire_len d with
     | Ok n => sample call side n
     | Err _ => mret tt
     | Panic => lift Panic
     end) : RM unit.

(** The sequenced branch of [send_reliable_to_side]. *)
Definition send_sequenced (call : SideCall) (side : RouterSideId) (t : DataType) (d : RouterItem) (now : Z)
    : RM unit :=
  '(seq, flags) ← allocate_seq side t;
  '(tracked, bytes) ← lift (sequenced_frame d flags seq);
  _ ← call_with_bytes call side bytes;
  (if tracked : bool then modify (record_sent side t seq bytes now) else mret tt) : RM unit.

(** What [send_reliable_to_side] does with an item, before transmitting. *)
Inductive send_plan :=
| CallHandler (d : RouterItem)
| Sequenced (t : DataType)
| SendNothing.

Definition item_type (d : RouterItem) : TelemetryResult DataType :=
  match d with
  | RPacket pkt => Ok (ty pkt)
  | RSerialized bytes => frame ← peek_frame_info bytes; Ok (env_ty (envelope frame))
  end.

Definition plan_adjusted (o : option RouterItem) : send_plan :=
  match o with Some d => CallHandler d | None => SendNothing end.

Definition plan_send (cfg_reliable : bool) (side : RouterSideId) (d : RouterItem) (now : Z)
    (st : RouterInner) : TelemetryResult send_plan :=
  s ← side_ref st side;
  match tx_handler s with
  | HPacket => Ok (CallHandler d)
  | HSerialized =>
      if negb (hop_reliable cfg_reliable st s side now) then
        o ← adjust_reliable_for_side false d; Ok (plan_adjusted o)
      else
        t ← item_type d;
        if negb (is_reliable_type t) then
          o ← adjust_reliable_for_side (reliable_enabled (opts s)) d; Ok (plan_adjusted o)
        else Ok (Sequenced t)
  end.

(** [sent_ms]: the clock's second reading, after the transmission. *)
Definition send_reliable_to_side (cfg_reliable : bool) (call : SideCall) (side : RouterSideId) (d : RouterItem)
    (now sent_ms : Z) : RM unit :=
  s ← (fun st => (st, side_ref st side)) : RM RouterSide;
  plan ← (fun st => (st, plan_send cfg_reliable side d now st)) : RM send_plan;
  match plan with
  | CallHandler d => call_side_tx_handler call side (tx_handler s) d
  | Sequenced t => send_sequenced call side t d sent_ms
  | SendNothing => mret tt
  end.

(** *** Replays *)

(** [map_err(|_| TelemetryError::Io("reliable retransmit failed"))]. *)
Definition retransmit_failed (r : TelemetryResult unit) : TelemetryResult unit :=
  match r with Err _ => Err (Io "reliable retransmit failed") | r => r end.

Definition send_reliable_raw_to_side (call : SideCall) (side : RouterSideId) (bytes : list byte) : RM unit :=
  s ← (fun st => (st, side_ref st side)) : RM RouterSide;
  if negb (egress_enabled (opts s)) then mret tt
  else if side_busy call then lift (Err side_tx_busy)
  else
    _ ← (match tx_handler s with
         | HSerialized =>
             lift (retransmit_failed (retry MAX_HANDLER_RETRIES (fun i => on_bytes call i bytes)))
         | HPacket =>
             pkt ← lift (deserialize_packet bytes);
             lift (retransmit_failed (retry MAX_HANDLER_RETRIES (fun i => on_packet call i pkt)))
         end) : RM unit;
    sample call side (blen bytes).

(** The lookup of the replayed sequence ([reliable_tx_state_mut] creates the
    link's entry), then the transmission and its bookkeeping. *)
Definition replay_known (key : RouterSideId * Z) (seq : Z) : RM bool :=
  fun st => (update_tx key (fun tx => tx) st, Ok (bt_contains seq (tx_sent (tx_state key st)))).

Definition on_busy (m : RM unit) (busy : RM unit) : RM unit := fun st =>
  match m st with
  | (st, Err e) => if is_side_tx_busy e then busy st else (st, Err e)
  | r => r
  end.

(** The [ReliableReplay] arm of [tx_item_impl]. *)
Definition tx_reliable_replay (call : SideCall) (now : Z) (dst : RouterSideId) (bytes : list byte) : RM unit :=
  frame ← lift (peek_frame_info bytes);
  match fi_reliable frame with
  | None => mret tt
  | Some hdr =>
      let key := reliable_key dst (env_ty (envelope frame)) in
      known ← replay_known key (rh_seq hdr);
      if negb known then mret tt
      else
        on_busy
          (_ ← send_reliable_raw_to_side call dst bytes;
           modify (update_tx key (replay_sent_state (rh_seq hdr) now)))
          (tx_queue_item_with_flags (ReliableReplay dst bytes) true)
  end.

(** *** Receiving: the hop section of [rx_item] *)

(** [HopStop]: [rx_item] returns; [HopContinue]: the frame goes on to
    duplicate filtering and dispatch, and then the released ones. *)
Inductive hop_result := HopStop | HopContinue (released : list (list byte)).

Definition crc_mismatch (e : TelemetryError) : bool :=
  match e with Deserialize msg => String.eqb msg "crc32 mismatch" | _ => false end.

(** [reliable_rx_state_mut] and a look at the entry. *)
Definition touch_rx (key : RouterSideId * Z) : RM ReliableRxState :=
  fun st => (update_rx key (fun rx => rx) st, Ok (rx_state key st)).

(** The locked block on a sequenced ordered frame. *)
Definition hop_ordered_state (src : RouterSideId) (t : DataType) (seq : Z) (bytes : list byte) : RM verdict :=
  let key := reliable_key src t in
  rx ← touch_rx key;
  if expected_seq rx <? seq then
    _ ← buffer_reliable_rx src t seq bytes; mret (GapFrame (expected_seq rx))
  else
    let '(rx', v) := recv_ordered seq bytes rx in
    _ ← modify (update_rx key (fun _ => rx')); mret v.

(** The rest queues control messages between its critical sections: [locked]
    runs one of those, [queue_control] queues one message. *)
Section Hop.
Context {M : Type -> Type} `{MBind M} `{MRet M}.
Context (locked : forall {A}, RM A -> M A) (queue_control : DataType -> RouterSideId -> DataType -> Z -> M unit).
Arguments locked {_} _.

(** A frame whose checksum fails may still name the sequence to ask for. *)
Definition hop_corrupt_in (src : RouterSideId) (bytes : list byte) : M hop_result :=
  match peek_frame_info_unchecked bytes with
  | Ok frame =>
      let t := env_ty (envelope frame) in
      match fi_reliable frame with
      | Some hdr =>
          if negb (is_reliable_type t) || has_flag (rh_flags hdr) RELIABLE_FLAG_UNSEQUENCED then mret HopStop
          else
            requested ← (if has_flag (rh_flags hdr) RELIABLE_FLAG_UNORDERED then mret (rh_seq hdr)
                         else rx ← locked (touch_rx (reliable_key src t)); mret (Z.min (expected_seq rx) (rh_seq hdr)));
            _ ← queue_control ReliablePacketRequest src t requested;
            mret HopStop
      | None => mret HopStop
      end
  | Err _ => mret HopStop
  | Panic => locked (lift Panic)
  end.

Definition hop_ordered_in (src : RouterSideId) (t : DataType) (seq : Z) (bytes : list byte) : M hop_result :=
  v ← locked (hop_ordered_state src t seq bytes);
  match v with
  | OldFrame ack => _ ← queue_control ReliableAck src t ack; mret HopStop
  | GapFrame expected =>
      _ ← queue_control ReliablePartialAck src t seq;
      _ ← queue_control ReliablePacketRequest src t expected;
      mret HopStop
  | InOrder released last => _ ← queue_control ReliableAck src t last; mret (HopContinue released)
  end.

Definition hop_sequenced_in (src : RouterSideId) (t : DataType) (hdr : ReliableHeader) (bytes : list byte)
    : M hop_result :=
  if has_flag (rh_flags hdr) RELIABLE_FLAG_UNSEQUENCED then mret (HopContinue [])
  else if has_flag (rh_flags hdr) RELIABLE_FLAG_UNORDERED then
    _ ← queue_control ReliableAck src t (rh_seq hdr); mret (HopContinue [])
  else hop_ordered_in src t (rh_seq hdr) bytes.

Definition hop_receive_in (cfg_reliable : bool) (src : RouterSideId) (bytes : list byte) (now : Z) : M hop_result :=
  s ← locked (fun st => (st, side_ref st src));
  enabled ← locked (get (fun st => hop_reliable cfg_reliable st s src now
                           && match tx_handler s with HSerialized => true | HPacket => false end));
  if (enabled : bool) then
    match peek_frame_info bytes with
    | Ok frame =>
        match fi_reliable frame with
        | Some hdr =>
            if is_reliable_type (env_ty (envelope frame))
            then hop_sequenced_in src (env_ty (envelope frame)) hdr bytes else mret (HopContinue [])
        | None => mret (HopContinue [])
        end
    | Err e => if crc_mismatch e then hop_corrupt_in src bytes else locked (lift (Err e))
    | Panic => locked (lift Panic)
    end
  else
    match peek_frame_info bytes with
    | Ok frame => mret (if ack_only frame then HopStop else HopContinue [])
    | Err e => if crc_mismatch e then mret HopStop else locked (lift (Err e))
    | Panic => locked (lift Panic)
    end.
End Hop.

(** The same within the state, for one value of the packet timestamp. *)
Definition hop_ordered : RouterSideId -> DataType -> Z -> list byte -> RM hop_result :=
  hop_ordered_in (fun _ m => m) queue_reliable_control.
End Ops.

(** ** Retransmission *)

(** What a timeout scan does with one unacknowledged frame. *)
Inductive timeout_action := Wait | GiveUp | Resend.

Definition timeout_of `{Config} (now : Z) (e : ReliableSent) : timeout_action :=
  if queued e || (wrap 64 (now - last_send_ms e) <? RELIABLE_RETRANSMIT_MS) || partial_acked e then Wait
  else if RELIABLE_MAX_RETRIES <=? retries e then GiveUp
  else Resend.

Definition bump_retries (e : ReliableSent) : ReliableSent :=
  {| sent_bytes := sent_bytes e; last_send_ms := last_send_ms e; retries := wrap 32 (retries e + 1);
     queued := queued e; partial_acked := partial_acked e |}.

Section Retransmission.
Context `{Config}.

Definition action_at (now : Z) (tx : ReliableTxState) (s : Z) : timeout_action :=
  match bt_get s (tx_sent tx) with Some e => timeout_of now e | None => Wait end.

Definition is_resend (a : timeout_action) : bool := match a with Resend => true | _ => false end.
Definition is_give_up (a : timeout_action) : bool := match a with GiveUp => true | _ => false end.

(** The entry of [s] after the scan. *)
Definition scanned (now : Z) (tx : ReliableTxState) (s : Z) : option ReliableSent :=
  match action_at now tx s with
  | Wait => bt_get s (tx_sent tx)
  | GiveUp => None
  | Resend => bump_retries <$> bt_get s (tx_sent tx)
  end.

Lemma filter_all {A} (f : A -> bool) l : (forall x, x ∈ l -> f x = true) -> List.filter f l = l.
Proof. induction l as [|x l IH]; intros Hf; cbn; [done|]. rewrite Hf by set_solver. f_equal. apply IH. set_solver. Qed.

Lemma filter_filter {A} (f g : A -> bool) l : List.filter f (List.filter g l) = List.filter (fun x => g x && f x) l.
Proof. induction l as [|x l IH]; cbn; [done|]. destruct (g x); cbn; [|done]. destruct (f x); by rewrite IH. Qed.

Lemma filter_ext_in {A} (f g : A -> bool) l : (forall x, x ∈ l -> f x = g x) -> List.filter f l = List.filter g l.
Proof. induction l as [|x l IH]; intros Hf; cbn; [done|]. rewrite Hf, IH by set_solver. done. Qed.

(** One step of the scan, by action. *)
Lemma scan_timeouts_cons now s order tx :
  scan_timeouts now (s :: order) tx =
  match action_at now tx s with
  | Wait => scan_timeouts now order tx
  | GiveUp =>
      scan_timeouts now order
        {| next_seq := next_seq tx; sent_order := List.filter (fun x => negb (x =? s)) (sent_order tx);
           tx_sent := bt_remove s (tx_sent tx) |}
  | Resend =>
      let '(tx', rq) :=
        scan_timeouts now order
          (set_tx_sent (bt_insert s (default {| sent_bytes := []; last_send_ms := 0; retries := 0; queued := false;
             partial_acked := false |} (bump_retries <$> bt_get s (tx_sent tx))) (tx_sent tx)) tx) in
      (tx', s :: rq)
  end.
Proof.
  cbn [scan_timeouts]. unfold action_at, timeout_of. destruct (bt_get s (tx_sent tx)) as [e|]; [|done].
  cbn [fmap option_fmap option_map default]. fold (bump_retries e).
  destruct (queued e), (wrap 64 _ <? _), (partial_acked e), (_ <=? _); reflexivity.
Qed.

(** The scan looks at every frame once. *)
Lemma scan_timeouts_spec now order tx :
  NoDup order -> bt_sorted (tx_sent tx) ->
  let '(tx', rq) := scan_timeouts now order tx in
  rq = List.filter (fun s => is_resend (action_at now tx s)) order
  /\ next_seq tx' = next_seq tx
  /\ sent_order tx' = List.filter (fun s => negb (bool_decide (s ∈ order) && is_give_up (action_at now tx s))) (sent_order tx)
  /\ bt_sorted (tx_sent tx')
  /\ forall s, bt_get s (tx_sent tx') = if decide (s ∈ order) then scanned now tx s else bt_get s (tx_sent tx).
Proof.
  revert tx. induction order as [|s order IH]; intros tx Hnd Hs.
  { cbn. split; [done|]. split; [done|]. split; [|by split].
    symmetry. apply filter_all. done. }
  apply NoDup_cons in Hnd as [Hnew Hnd]. rewrite scan_timeouts_cons.
  assert (forall tx' : ReliableTxState, (forall x, x <> s -> bt_get x (tx_sent tx') = bt_get x (tx_sent tx)) ->
    (forall x, x ∈ order -> action_at now tx' x = action_at now tx x)
    /\ forall x, x ∈ order -> scanned now tx' x = scanned now tx x) as Hsame.
  { intros tx' He. split; intros x Hx; unfold scanned, action_at; rewrite He by set_solver; done. }
  assert (forall x, (bool_decide (x ∈ s :: order) && is_give_up (action_at now tx x))
    = ((x =? s) && is_give_up (action_at now tx s)) || (bool_decide (x ∈ order) && is_give_up (action_at now tx x))) as Hgone.
  { intros x. destruct (Z.eqb_spec x s) as [->|Hx].
    - rewrite bool_decide_true by set_solver. rewrite (bool_decide_false (s ∈ order)) by done. cbn.
      by rewrite orb_false_r.
    - cbn [andb orb]. f_equal. apply bool_decide_ext. set_solver. }
  cbn [List.filter]. destruct (action_at now tx s) eqn:Ea.
  - specialize (IH tx Hnd Hs). destruct (scan_timeouts now order tx) as [tx' rq]. destruct IH as (I1 & I2 & I3 & I4 & I5).
    cbn [is_resend]. split; [done|]. split; [done|]. split; [|split; [done|]].
    + rewrite I3. apply filter_ext_in. intros x _. rewrite Hgone. cbn. by rewrite andb_false_r.
    + intros x. rewrite I5. destruct (decide (x ∈ order)); [by rewrite decide_True by set_solver|].
      destruct (decide (x ∈ s :: order)) as [Hx|]; [|done]. assert (x = s) as -> by set_solver.
      unfold scanned. by rewrite Ea.
  - set (tx1 := {| next_seq := next_seq tx; sent_order := _; tx_sent := bt_remove s (tx_sent tx) |}).
    destruct (Hsame tx1) as [Hact Hsc]; [intros x Hx; by apply bt_get_remove_ne|].
    specialize (IH tx1 Hnd (bt_remove_sorted _ _ Hs)). destruct (scan_timeouts now order tx1) as [tx' rq].
    destruct IH as (I1 & I2 & I3 & I4 & I5). cbn [is_resend]. split; [|split; [done|split; [|split; [done|]]]].
    + rewrite I1. apply filter_ext_in. intros x Hx. by rewrite Hact.
    + rewrite I3. unfold tx1. cbn [sent_order]. rewrite filter_filter. apply filter_ext_in. intros x _.
      rewrite Hgone. cbn [is_give_up]. rewrite andb_true_r. destruct (x =? s); cbn; [done|].
      case_bool_decide; [|done]. by rewrite <- Hact.
    + intros x. rewrite I5. destruct (decide (x ∈ order)) as [Hx|Hx].
      * rewrite decide_True by set_solver. by apply Hsc.
      * unfold tx1. cbn [tx_sent]. destruct (decide (x = s)) as [->|Hne].
        -- rewrite bt_get_remove_eq by done. rewrite decide_True by set_solver. unfold scanned. by rewrite Ea.
        -- rewrite bt_get_remove_ne by done. rewrite decide_False by set_solver. done.
  - destruct (bt_get s (tx_sent tx)) as [e|] eqn:Eg; [|unfold action_at in Ea; by rewrite Eg in Ea].
    cbn [fmap option_fmap option_map default]. set (tx1 := set_tx_sent _ tx).
    destruct (Hsame tx1) as [Hact Hsc]; [intros x Hx; by apply bt_get_insert_ne|].
    specialize (IH tx1 Hnd (bt_insert_sorted _ _ _ Hs)). destruct (scan_timeouts now order tx1) as [tx' rq].
    destruct IH as (I1 & I2 & I3 & I4 & I5). cbn [is_resend]. split; [|split; [done|split; [|split; [done|]]]].
    + rewrite I1. f_equal. apply filter_ext_in. intros x Hx. by rewrite Hact.
    + rewrite I3. apply filter_ext_in. intros x _. rewrite Hgone. cbn [is_give_up]. rewrite andb_false_r. cbn.
      case_bool_decide; [|done]. by rewrite <- Hact.
    + intros x. rewrite I5. destruct (decide (x ∈ order)) as [Hx|Hx].
      * rewrite decide_True by set_solver. by apply Hsc.
      * unfold tx1. cbn [tx_sent set_tx_sent]. destruct (decide (x = s)) as [->|Hne].
        -- rewrite bt_get_insert_eq. rewrite decide_True by set_solver. unfold scanned. by rewrite Ea, Eg.
        -- rewrite bt_get_insert_ne by done. rewrite decide_False by set_solver. done.
Qed.

(** C33. Retransmission timeouts: one scan asks again for exactly the
    frames that are due, in the order sent, and counts the retry; it forgets a
    frame whose retries are used up and leaves every other frame alone.  A
    frame whose replay is queued is not due and is not queued twice, whatever
    asks for it, so a replay that the transmit queue lost is never made again;
    sending the replay makes the frame due again. *)
Theorem retransmission_correct now tx s :
  NoDup (sent_order tx) -> bt_sorted (tx_sent tx) ->
  (let '(tx', due) := scan_timeouts now (sent_order tx) tx in
   due = List.filter (fun s => is_resend (action_at now tx s)) (sent_order tx)
   /\ sent_order tx' = List.filter (fun s => negb (is_give_up (action_at now tx s))) (sent_order tx)
   /\ (s ∈ sent_order tx -> bt_get s (tx_sent tx') = scanned now tx s)
   /\ (s ∉ sent_order tx -> bt_get s (tx_sent tx') = bt_get s (tx_sent tx)))
  /\ (forall e, bt_get s (tx_sent tx) = Some e -> queued e = true ->
        retransmit_state s tx = (tx, None) /\ action_at now tx s = Wait)
  /\ (forall e, bt_get s (tx_sent tx) = Some e -> queued e = false ->
        snd (retransmit_state s tx) = Some (sent_bytes e)
        /\ forall later, exists e', bt_get s (tx_sent (replay_sent_state s later (fst (retransmit_state s tx)))) = Some e'
             /\ sent_bytes e' = sent_bytes e /\ queued e' = false /\ partial_acked e' = false /\ last_send_ms e' = later).
Proof.
  intros Hnd Hs. split; [|split].
  - pose proof (scan_timeouts_spec now (sent_order tx) tx Hnd Hs) as Hsp.
    destruct (scan_timeouts now (sent_order tx) tx) as [tx' due]. destruct Hsp as (S1 & S2 & S3 & S4 & S5).
    split; [done|]. split; [|split; intros Hin; rewrite S5; [by rewrite decide_True|by rewrite decide_False]].
    rewrite S3. apply filter_ext_in. intros x Hx. by rewrite bool_decide_true.
  - intros e He Hq. unfold retransmit_state, action_at, timeout_of. rewrite He, Hq. done.
  - intros e He Hq. unfold retransmit_state. rewrite He, Hq. cbn [fst snd]. split; [done|]. intros later.
    unfold replay_sent_state. cbn [tx_sent set_tx_sent]. rewrite !bt_get_update. destruct (decide _) as [|Hne]; [|destruct Hne; apply cmp_refl]. rewrite He. cbn.
    by eexists.
Qed.
End Retransmission.

(** A frame waiting for an answer for 250 ms, and one whose replay is queued. *)
Definition waiting_tx : ReliableTxState :=
  {| next_seq := 3; sent_order := [1; 2];
     tx_sent := [(1, {| sent_bytes := [b8 7]; last_send_ms := 50; retries := 0; queued := false; partial_acked := false |});
                 (2, {| sent_bytes := [b8 8]; last_send_ms := 50; retries := 0; queued := true; partial_acked := false |})] |}.

Lemma retransmission_correct_witness :
  snd (@scan_timeouts default_config 300 [1; 2] waiting_tx) = [1] /\ retransmit_state 2 waiting_tx = (waiting_tx, None).
Proof.
  destruct (@retransmission_correct default_config 300 waiting_tx 2) as (Hscan & Hq & _).
  - repeat constructor; set_solver.
  - repeat constructor.
  - split; [|by eapply Hq]. change [1; 2] with (sent_order waiting_tx).
    destruct (scan_timeouts _ _ _) as [tx' due]. rewrite (proj1 Hscan). vm_compute. reflexivity.
Defined.
