(* ===== verification/Link.v ===== *)
(** * The ordered link as a protocol

    The sender and receiver transitions of [Reliable] put together over a
    network that may lose, repeat, delay and reorder frames, as a step
    relation with a ghost history of what was sent and what was handed on. *)

From stdpp Require Import gmap relations.
From S2P Require Import Prelude Ordered Telemetry Config Schema Queue SmallPayload Wire Packet Serialize Discovery RouterState Routes Reliable.

(** ** Links

    One ordered link: its two ends, every frame ever put on the wire (each may
    arrive any number of times, in any order, or never), the acknowledgements
    sent, and the frames handed on.  Entry [i] of the history is what sequence
    [i + 1] was given to; [None] is a sequence whose transmission failed. *)

Record Link := {
  lk_tx : ReliableTxState;
  lk_rx : ReliableRxState;
  lk_hist : list (option (list byte));
  lk_net : list (Z * list byte);
  lk_acks : list Z;
  lk_out : list (list byte)
}.

Definition link_new : Link :=
  {| lk_tx := tx_state_new; lk_rx := rx_state_new; lk_hist := []; lk_net := []; lk_acks := []; lk_out := [] |}.

Definition with_tx (tx : ReliableTxState) (l : Link) : Link :=
  {| lk_tx := tx; lk_rx := lk_rx l; lk_hist := lk_hist l; lk_net := lk_net l; lk_acks := lk_acks l;
     lk_out := lk_out l |}.

Definition with_rx (rx : ReliableRxState) (l : Link) : Link :=
  {| lk_tx := lk_tx l; lk_rx := rx; lk_hist := lk_hist l; lk_net := lk_net l; lk_acks := lk_acks l;
     lk_out := lk_out l |}.

Definition alloc_state (tx : ReliableTxState) : ReliableTxState :=
  {| next_seq := seq_after (next_seq tx); sent_order := sent_order tx; tx_sent := tx_sent tx |}.

Definition record_state (seq : Z) (bytes : list byte) (now : Z) (tx : ReliableTxState) : ReliableTxState :=
  {| next_seq := next_seq tx; sent_order := sent_order tx ++ [seq];
     tx_sent := bt_insert seq {| sent_bytes := bytes; last_send_ms := now; retries := 0;
                                 queued := false; partial_acked := false |} (tx_sent tx) |}.

Definition verdict_out (bytes : list byte) (v : verdict) : list (list byte) :=
  match v with InOrder released _ => bytes :: released | _ => [] end.

Definition verdict_acks (v : verdict) : list Z :=
  match v with InOrder _ last => [last] | OldFrame ack => [ack] | GapFrame _ => [] end.

Section Protocol.
Context `{Config}.

Inductive link_step (l : Link) : Link -> Prop :=
| ls_send f now :
    nlen (tx_sent (lk_tx l)) < RELIABLE_MAX_PENDING ->
    link_step l {| lk_tx := record_state (next_seq (lk_tx l)) f now (alloc_state (lk_tx l)); lk_rx := lk_rx l;
                   lk_hist := lk_hist l ++ [Some f]; lk_net := (next_seq (lk_tx l), f) :: lk_net l;
                   lk_acks := lk_acks l; lk_out := lk_out l |}
| ls_burn :
    nlen (tx_sent (lk_tx l)) < RELIABLE_MAX_PENDING ->
    link_step l {| lk_tx := alloc_state (lk_tx l); lk_rx := lk_rx l; lk_hist := lk_hist l ++ [None];
                   lk_net := lk_net l; lk_acks := lk_acks l; lk_out := lk_out l |}
| ls_deliver s f rx v :
    (s, f) ∈ lk_net l -> recv_ordered s f (lk_rx l) = (rx, v) ->
    link_step l {| lk_tx := lk_tx l; lk_rx := rx; lk_hist := lk_hist l; lk_net := lk_net l;
                   lk_acks := verdict_acks v ++ lk_acks l; lk_out := lk_out l ++ verdict_out f v |}
| ls_evict rx :
    rx_popped (Some (lk_rx l)) (Some rx) -> link_step l (with_rx rx l)
| ls_ack a : a ∈ lk_acks l -> link_step l (with_tx (ack_state Ordered a (lk_tx l)) l)
| ls_partial s : link_step l (with_tx (partial_ack_state s (lk_tx l)) l)
| ls_retransmit s : link_step l (with_tx (fst (retransmit_state s (lk_tx l))) l)
| ls_replayed s now : link_step l (with_tx (replay_sent_state s now (lk_tx l)) l)
| ls_timeout now : link_step l (with_tx (fst (scan_timeouts now (sent_order (lk_tx l)) (lk_tx l))) l).

(** *** Invariant *)

(** What sequence [s] was given to. *)
Definition hist_at (h : list (option (list byte))) (s : Z) : option (option (list byte)) :=
  if s <=? 0 then None else h !! Z.to_nat (s - 1).

Record link_inv (l : Link) : Prop := {
  li_next : next_seq (lk_tx l) = nlen (lk_hist l) + 1;
  li_net s f : (s, f) ∈ lk_net l -> hist_at (lk_hist l) s = Some (Some f);
  li_buffered s f : (s, f) ∈ buffered (lk_rx l) -> hist_at (lk_hist l) s = Some (Some f);
  li_sorted : bt_sorted (buffered (lk_rx l));
  li_expected : 1 <= expected_seq (lk_rx l) <= nlen (lk_hist l) + 1;
  li_out : map Some (lk_out l) = take (Z.to_nat (expected_seq (lk_rx l) - 1)) (lk_hist l);
  li_acks a : a ∈ lk_acks l -> a < expected_seq (lk_rx l);
  li_sent s e : bt_get s (tx_sent (lk_tx l)) = Some e -> hist_at (lk_hist l) s = Some (Some (sent_bytes e));
  li_tx_sorted : bt_sorted (tx_sent (lk_tx l))
}.

Lemma hist_at_app h s o x : hist_at h s = Some x -> hist_at (h ++ o) s = Some x.
Proof. unfold hist_at. destruct (s <=? 0); [done|]. intros Hx. by apply lookup_app_l_Some. Qed.

Lemma hist_at_range h s x : hist_at h s = Some x -> 1 <= s <= nlen h.
Proof.
  unfold hist_at, nlen. destruct (Z.leb_spec s 0); [done|]. intros Hx%lookup_lt_Some. lia.
Qed.

Lemma take_snoc_hist h s x :
  1 <= s -> hist_at h s = Some x -> take (Z.to_nat s) h = take (Z.to_nat (s - 1)) h ++ [x].
Proof.
  unfold hist_at. destruct (Z.leb_spec s 0); [lia|]. intros Hs Hx.
  replace (Z.to_nat s) with (S (Z.to_nat (s - 1))) by lia. by apply take_S_r.
Qed.

Lemma seq_after_small s : 0 <= s < 2 ^ 32 - 1 -> seq_after s = s + 1.
Proof. intros Hs. unfold seq_after. rewrite wrap_small by lia. cbn zeta. by zcase. Qed.

(** The release loop hands on the longest run of buffered frames from [next]. *)
Lemma release_loop_spec h fuel next last buf :
  nlen h < 2 ^ 32 - 1 -> 1 <= next <= nlen h + 1 -> last = next - 1 -> bt_sorted buf ->
  (forall s f, (s, f) ∈ buf -> hist_at h s = Some (Some f)) ->
  let '(rel, last', next', buf') := release_loop fuel next last buf in
  next <= next' <= nlen h + 1 /\ last' = next' - 1
  /\ take (Z.to_nat (next' - 1)) h = take (Z.to_nat (next - 1)) h ++ map Some rel
  /\ bt_sorted buf' /\ (forall e, e ∈ buf' -> e ∈ buf).
Proof.
  intros Hlen. revert next last buf. induction fuel as [|fuel IH]; intros next last buf Hn Hl Hs Hb; cbn [release_loop].
  { split; [lia|]. split; [done|]. split; [by rewrite app_nil_r|]. by split. }
  destruct (bt_get next buf) as [f|] eqn:E.
  2: { split; [lia|]. split; [done|]. split; [by rewrite app_nil_r|]. by split. }
  apply bt_get_elem in E; [|done]. apply Hb in E as Hf. pose proof (hist_at_range _ _ _ Hf).
  rewrite seq_after_small by lia.
  specialize (IH (next + 1) next (bt_remove next buf)).
  destruct (release_loop fuel (next + 1) next (bt_remove next buf)) as [[[rel last'] next'] buf'].
  destruct IH as (I1 & I2 & I3 & I4 & I5); [lia|lia|by apply bt_remove_sorted| |].
  { intros s g Hin%bt_remove_elem. auto. }
  split; [lia|]. split; [done|]. split.
  - rewrite I3. replace (next + 1 - 1) with next by lia. rewrite (take_snoc_hist h next (Some f)) by (done || lia).
    by rewrite <- app_assoc.
  - split; [done|]. intros e He%I5. by eapply bt_remove_elem.
Qed.

Lemma recv_ordered_spec h s f rx rx' v out :
  nlen h < 2 ^ 32 - 1 -> hist_at h s = Some (Some f) ->
  (forall s f, (s, f) ∈ buffered rx -> hist_at h s = Some (Some f)) -> bt_sorted (buffered rx) ->
  1 <= expected_seq rx <= nlen h + 1 -> map Some out = take (Z.to_nat (expected_seq rx - 1)) h ->
  recv_ordered s f rx = (rx', v) ->
  (forall s f, (s, f) ∈ buffered rx' -> hist_at h s = Some (Some f)) /\ bt_sorted (buffered rx')
  /\ expected_seq rx <= expected_seq rx' <= nlen h + 1
  /\ map Some (out ++ verdict_out f v) = take (Z.to_nat (expected_seq rx' - 1)) h
  /\ (forall a, a ∈ verdict_acks v -> a < expected_seq rx')
  /\ (s = expected_seq rx -> expected_seq rx < expected_seq rx').
Proof.
  intros Hlen Hf Hb Hs He Ho Hr. pose proof (hist_at_range _ _ _ Hf) as Hrange. unfold recv_ordered in Hr.
  destruct (Z.ltb_spec s (expected_seq rx)) as [Hold|Hnew].
  { injection Hr as <- <-. cbn [verdict_out verdict_acks]. rewrite app_nil_r. split; [done|]. split; [done|].
    split; [lia|]. split; [done|]. split; [|lia]. intros a ->%list_elem_of_singleton. zlia. }
  destruct (Z.ltb_spec (expected_seq rx) s) as [Hgap|Heq].
  { injection Hr as <- <-. cbn [verdict_out verdict_acks]. rewrite app_nil_r.
    split; [|split; [|split; [destruct (bt_contains _ _); cbn; lia|]]].
    - destruct (bt_contains s (buffered rx)); [done|]. cbn. intros s' f' [[= -> ->]|Hin]%bt_insert_elem; [done|].
      apply Hb. destruct (_ <=? _); [|done]. destruct (buffered rx); [done|]. set_solver.
    - destruct (bt_contains s (buffered rx)); [done|]. by apply buffer_frame_sorted.
    - split; [by destruct (bt_contains _ _)|]. split; [by intros a ?%elem_of_nil|]. lia. }
  assert (s = expected_seq rx) as -> by lia. rewrite wrap_small in Hr by lia.
  pose proof (release_loop_spec h (length (buffered rx)) (expected_seq rx + 1) (expected_seq rx) (buffered rx)) as Hloop.
  destruct (release_loop _ _ _ _) as [[[rel last] next] buf]. injection Hr as <- <-.
  destruct Hloop as (L1 & L2 & L3 & L4 & L5); [done|lia|lia|done|done|]. cbn [buffered expected_seq verdict_out verdict_acks].
  split; [intros; auto|]. split; [done|]. split; [lia|]. split; [|split; [|lia]].
  - rewrite map_app, Ho, L3. cbn [map]. replace (expected_seq rx + 1 - 1) with (expected_seq rx) by lia.
    rewrite (take_snoc_hist h (expected_seq rx) (Some f)) by (done || lia). by rewrite <- app_assoc.
  - intros a ->%list_elem_of_singleton. lia.
Qed.

(** *** The sender's operations keep what is in the history *)

Definition sent_sub (m m' : list (Z * ReliableSent)) : Prop :=
  forall s e, bt_get s m' = Some e -> exists e', bt_get s m = Some e' /\ sent_bytes e = sent_bytes e'.

Lemma sent_sub_refl m : sent_sub m m.
Proof. intros s e He. by exists e. Qed.

Lemma sent_sub_trans a b c : sent_sub a b -> sent_sub b c -> sent_sub a c.
Proof.
  intros H1 H2 s e He. destruct (H2 s e He) as (e' & He' & Hb). destruct (H1 s e' He') as (e2 & He2 & Hb2).
  exists e2. split; [done|congruence].
Qed.

Lemma sent_sub_remove k m : bt_sorted m -> sent_sub m (bt_remove k m).
Proof.
  intros Hs s e He. destruct (decide (s = k)) as [->|Hne].
  - by rewrite bt_get_remove_eq in He.
  - rewrite bt_get_remove_ne in He by done. by exists e.
Qed.

Lemma sent_sub_update k g m : (forall e, sent_bytes (g e) = sent_bytes e) -> sent_sub m (bt_update k g m).
Proof.
  intros Hg s e. rewrite bt_get_update. destruct (decide _); [|intros He; by exists e].
  destruct (bt_get s m) as [e'|]; [|done]. intros [= <-]. exists e'. split; [done|apply Hg].
Qed.

Lemma sent_sub_insert k e e' m :
  bt_get k m = Some e -> sent_bytes e' = sent_bytes e -> sent_sub m (bt_insert k e' m).
Proof.
  intros Hk Hb s x. rewrite bt_get_insert. destruct (decide _) as [->%cmp_eq|].
  - intros [= <-]. by exists e.
  - intros Hx. by exists x.
Qed.

(** The sender's later transitions only forget entries or change their marks. *)
Definition tx_shrinks (tx tx' : ReliableTxState) : Prop :=
  next_seq tx' = next_seq tx /\ bt_sorted (tx_sent tx') /\ sent_sub (tx_sent tx) (tx_sent tx').

Lemma ack_cumulative_shrinks order ack m :
  bt_sorted m -> bt_sorted (snd (ack_cumulative order ack m)) /\ sent_sub m (snd (ack_cumulative order ack m)).
Proof.
  revert m. induction order as [|s order IH]; intros m Hs; cbn [ack_cumulative]; [split; [done|apply sent_sub_refl]|].
  destruct (ack <? s); [split; [done|apply sent_sub_refl]|].
  destruct (IH (bt_remove s m)) as [I1 I2]; [by apply bt_remove_sorted|]. split; [done|].
  eapply sent_sub_trans; [by apply sent_sub_remove|done].
Qed.

Lemma ack_shrinks mode a tx : bt_sorted (tx_sent tx) -> tx_shrinks tx (ack_state mode a tx).
Proof.
  intros Hs. pose proof (ack_cumulative_shrinks (sent_order tx) a (tx_sent tx) Hs) as [H1 H2].
  unfold ack_state. destruct mode.
  1, 2: destruct (ack_cumulative _ _ _) as [order m]; by split.
  split; [done|]. split; [by apply bt_remove_sorted|by apply sent_sub_remove].
Qed.

Lemma partial_shrinks s tx : bt_sorted (tx_sent tx) -> tx_shrinks tx (partial_ack_state s tx).
Proof.
  intros Hs. unfold partial_ack_state. destruct (bt_get s (tx_sent tx)).
  - split; [done|]. split; [by apply bt_update_sorted|by apply sent_sub_update].
  - split; [done|]. split; [done|apply sent_sub_refl].
Qed.

Lemma retransmit_shrinks s tx : bt_sorted (tx_sent tx) -> tx_shrinks tx (fst (retransmit_state s tx)).
Proof.
  intros Hs. unfold retransmit_state. destruct (bt_get s (tx_sent tx)) as [e|]; [destruct (queued e)|].
  2: split; [done|]; split; [by apply bt_update_sorted|by apply sent_sub_update].
  all: split; [done|]; split; [done|apply sent_sub_refl].
Qed.

Lemma replayed_shrinks s now tx : bt_sorted (tx_sent tx) -> tx_shrinks tx (replay_sent_state s now tx).
Proof. intros Hs. split; [done|]. split; [by apply bt_update_sorted|by apply sent_sub_update]. Qed.

Lemma timeouts_shrink now order tx : bt_sorted (tx_sent tx) -> tx_shrinks tx (fst (scan_timeouts now order tx)).
Proof.
  revert tx. induction order as [|s order IH]; intros tx Hs; cbn [scan_timeouts].
  { split; [done|]. split; [done|apply sent_sub_refl]. }
  destruct (bt_get s (tx_sent tx)) as [e|] eqn:E; [|by apply IH].
  destruct (queued e || _); [by apply IH|]. destruct (partial_acked e); [by apply IH|].
  destruct (RELIABLE_MAX_RETRIES <=? retries e).
  - match goal with |- tx_shrinks _ (fst (scan_timeouts _ _ ?t)) => destruct (IH t) as (I1 & I2 & I3) end.
    { by apply bt_remove_sorted. }
    split; [exact I1|]. split; [done|]. eapply sent_sub_trans; [|exact I3]. by apply sent_sub_remove.
  - match goal with |- context [scan_timeouts _ _ ?t] => destruct (IH t) as (I1 & I2 & I3) end.
    { by apply bt_insert_sorted. }
    destruct (scan_timeouts _ _ _) as [tx' rq]. cbn [fst] in *. split; [exact I1|]. split; [done|].
    eapply sent_sub_trans; [|exact I3]. by eapply sent_sub_insert.
Qed.

Lemma link_inv_tx l tx : link_inv l -> tx_shrinks (lk_tx l) tx -> link_inv (with_tx tx l).
Proof.
  intros [] (Hn & Hs & Hsub). split; cbn; try done; [congruence|].
  intros s e He. destruct (Hsub s e He) as (e' & He' & ->). auto.
Qed.

Lemma elem_of_drop_in {A} (x : A) n l : x ∈ drop n l -> x ∈ l.
Proof. intros Hx. rewrite <- (take_drop n l). set_solver. Qed.

Lemma drop_sorted {K V} `{Ord K} n (m : list (K * V)) : bt_sorted m -> bt_sorted (drop n m).
Proof.
  unfold bt_sorted. revert m. induction n as [|n IH]; intros m Hs; [done|]. destruct Hs as [|e m Hs Hm]; cbn; [constructor|auto].
Qed.

Lemma link_inv_step l l' :
  link_inv l -> link_step l l' -> nlen (lk_hist l') < 2 ^ 32 - 1 -> link_inv l'.
Proof.
  intros Hi Hstep Hlen. pose proof Hi as [].
  destruct Hstep as [f now Hroom|Hroom|s f rx v Hin Hr|rx Hp|a Ha|s|s|s now|now].
  - cbn in Hlen. unfold nlen in Hlen. rewrite length_app in Hlen. cbn in Hlen.
    assert (hist_at (lk_hist l ++ [Some f]) (next_seq (lk_tx l)) = Some (Some f)) as Hself.
    { unfold hist_at. rewrite li_next0. unfold nlen. destruct (Z.leb_spec (Z.of_nat (length (lk_hist l)) + 1) 0); [lia|].
      replace (Z.to_nat _) with (length (lk_hist l)) by lia. by rewrite lookup_app_r, Nat.sub_diag by done. }
    split; cbn; try done.
    + rewrite seq_after_small by (rewrite li_next0; unfold nlen; lia). rewrite li_next0. unfold nlen. rewrite length_app. cbn. lia.
    + intros s g [[= -> ->]|Hin]%elem_of_cons; [exact Hself|]. by apply hist_at_app, li_net0.
    + intros s g Hin. by apply hist_at_app, li_buffered0.
    + unfold nlen in *. rewrite length_app. cbn. lia.
    + rewrite take_app_le; [done|]. unfold nlen in *. lia.
    + intros s e. rewrite bt_get_insert. destruct (decide _) as [->%cmp_eq|]; [intros [= <-]; exact Hself|].
      intros He. by apply hist_at_app, li_sent0.
    + by apply bt_insert_sorted.
  - cbn in Hlen. unfold nlen in Hlen. rewrite length_app in Hlen. cbn in Hlen.
    split; cbn; try done.
    + rewrite seq_after_small by (rewrite li_next0; unfold nlen; lia). rewrite li_next0. unfold nlen. rewrite length_app. cbn. lia.
    + intros s g Hin. by apply hist_at_app, li_net0.
    + intros s g Hin. by apply hist_at_app, li_buffered0.
    + unfold nlen in *. rewrite length_app. cbn. lia.
    + rewrite take_app_le; [done|]. unfold nlen in *. lia.
    + intros s e He. by apply hist_at_app, li_sent0.
  - cbn in Hlen.
    destruct (recv_ordered_spec (lk_hist l) s f (lk_rx l) rx v (lk_out l)) as (R1 & R2 & R3 & R4 & R5 & R6);
      [done|by apply li_net0|done..|].
    split; cbn; try done; [lia|]. intros a [Ha|Ha]%elem_of_app; [by apply R5|]. specialize (li_acks0 a Ha). lia.
  - destruct Hp as [He [n Hb]]. split; cbn; try done.
    + intros s f Hin. apply li_buffered0. rewrite Hb in Hin. by apply elem_of_drop_in in Hin.
    + rewrite Hb. by apply drop_sorted.
    + by rewrite He.
    + by rewrite He.
    + rewrite He. done.
  - apply link_inv_tx; [done|by apply ack_shrinks].
  - apply link_inv_tx; [done|by apply partial_shrinks].
  - apply link_inv_tx; [done|by apply retransmit_shrinks].
  - apply link_inv_tx; [done|by apply replayed_shrinks].
  - apply link_inv_tx; [done|by apply timeouts_shrink].
Qed.

Lemma link_hist_grows l l' : link_step l l' -> nlen (lk_hist l) <= nlen (lk_hist l').
Proof. unfold nlen. destruct 1; cbn; rewrite ?length_app; cbn; lia. Qed.

Lemma link_new_inv : link_inv link_new.
Proof.
  split; cbn; try done; try constructor; try (by intros ? ? ?%elem_of_nil); by intros ? ?%elem_of_nil.
Qed.

Lemma link_reachable_inv l :
  rtc link_step link_new l -> nlen (lk_hist l) < 2 ^ 32 - 1 -> link_inv l.
Proof.
  intros Hr. revert l Hr. apply (rtc_ind_r (fun l => nlen (lk_hist l) < 2 ^ 32 - 1 -> link_inv l)).
  - intros _. apply link_new_inv.
  - intros l l' Hr Hstep IH Hn. eapply link_inv_step; [|exact Hstep|done]. apply IH.
    pose proof (link_hist_grows _ _ Hstep). lia.
Qed.

Lemma ack_cumulative_removed order a m s e :
  bt_get s m = Some e -> bt_get s (snd (ack_cumulative order a m)) = None -> s <= a.
Proof.
  revert m. induction order as [|x order IH]; intros m Hs; cbn [ack_cumulative snd]; [by rewrite Hs|].
  destruct (Z.ltb_spec a x) as [|Hx]; [cbn [snd]; by rewrite Hs|]. intros Hn. destruct (decide (s = x)) as [->|Hne]; [done|].
  apply (IH (bt_remove x m)); [by rewrite bt_get_remove_ne|done].
Qed.

Lemma out_length l : link_inv l -> nlen (lk_out l) = expected_seq (lk_rx l) - 1.
Proof.
  intros []. apply (f_equal length) in li_out0. rewrite length_map, length_take in li_out0. unfold nlen in *. lia.
Qed.

(** C6. Ordered reliable links deliver in order, exactly once: whatever
    the network loses, repeats, reorders or delays, and whatever the receiver's
    buffer evicts, the frames handed on are the first ones sent, in the order
    sent, until [2^32 - 2] frames have been sent.  An acknowledgement never
    covers a frame that was not handed on, so the sender forgets a frame on an
    acknowledgement only after its delivery; a retransmission repeats the
    original frame; and the arrival of the frame the receiver waits for always
    advances it. *)
Theorem reliable_link_in_order l :
  rtc link_step link_new l -> nlen (lk_hist l) < 2 ^ 32 - 1 ->
  map Some (lk_out l) = take (length (lk_out l)) (lk_hist l)
  /\ expected_seq (lk_rx l) = nlen (lk_out l) + 1
  /\ (forall a, a ∈ lk_acks l -> a <= nlen (lk_out l))
  /\ (forall a s e, a ∈ lk_acks l -> bt_get s (tx_sent (lk_tx l)) = Some e ->
        bt_get s (tx_sent (ack_state Ordered a (lk_tx l))) = None ->
        lk_out l !! Z.to_nat (s - 1) = Some (sent_bytes e))
  /\ (forall s bytes, snd (retransmit_state s (lk_tx l)) = Some bytes ->
        hist_at (lk_hist l) s = Some (Some bytes))
  /\ (forall f, (expected_seq (lk_rx l), f) ∈ lk_net l ->
        expected_seq (lk_rx l) < expected_seq (fst (recv_ordered (expected_seq (lk_rx l)) f (lk_rx l)))).
Proof.
  intros Hr Hn. pose proof (link_reachable_inv l Hr Hn) as Hi. pose proof (out_length l Hi) as Ho. pose proof Hi as [].
  assert (length (lk_out l) = Z.to_nat (expected_seq (lk_rx l) - 1)) as Hlen by (unfold nlen in Ho; lia).
  split; [by rewrite Hlen|]. split; [lia|].
  split; [intros a Ha; specialize (li_acks0 a Ha); lia|]. split; [|split].
  - intros a s e Ha He Hnone. specialize (li_acks0 a Ha). apply li_sent0 in He as Hh.
    pose proof (hist_at_range _ _ _ Hh) as Hs.
    assert (s <= a) as Hle.
    { unfold ack_state in Hnone. destruct (ack_cumulative _ _ _) as [order m] eqn:E. cbn in Hnone.
      apply (ack_cumulative_removed (sent_order (lk_tx l)) a (tx_sent (lk_tx l)) s e); [done|by rewrite E]. }
    unfold hist_at in Hh. destruct (Z.leb_spec s 0); [done|].
    assert (map Some (lk_out l) !! Z.to_nat (s - 1) = Some (Some (sent_bytes e))) as Hm.
    { rewrite li_out0, lookup_take_lt by lia. done. }
    change (map Some (lk_out l)) with (Some <$> lk_out l) in Hm. rewrite list_lookup_fmap in Hm.
    by destruct (lk_out l !! Z.to_nat (s - 1)); [injection Hm as ->|].
  - intros s bytes. unfold retransmit_state. destruct (bt_get s (tx_sent (lk_tx l))) as [e|] eqn:E; [|done].
    destruct (queued e); [done|]. intros [= <-]. by apply li_sent0.
  - intros f Hin. destruct (recv_ordered _ f (lk_rx l)) as [rx v] eqn:E.
    destruct (recv_ordered_spec (lk_hist l) _ f (lk_rx l) rx v (lk_out l) Hn (li_net0 _ _ Hin)
      li_buffered0 li_sorted0 li_expected0 li_out0 E) as (_ & _ & _ & _ & _ & Hp). by apply Hp.
Qed.

(** A sequence number whose transmission failed is never repaired:
    the sender keeps no record of it, and the receiver of an ordered link never
    gets past it, whatever is sent or acknowledged later. *)
Theorem failed_transmission_stalls l s :
  rtc link_step link_new l -> nlen (lk_hist l) < 2 ^ 32 - 1 -> hist_at (lk_hist l) s = Some None ->
  expected_seq (lk_rx l) <= s /\ nlen (lk_out l) < s
  /\ bt_get s (tx_sent (lk_tx l)) = None /\ snd (retransmit_state s (lk_tx l)) = None.
Proof.
  intros Hr Hn Hs. pose proof (link_reachable_inv l Hr Hn) as Hi. pose proof (out_length l Hi) as Ho. pose proof Hi as [].
  pose proof (hist_at_range _ _ _ Hs) as Hrange.
  assert (expected_seq (lk_rx l) <= s) as He.
  { apply Z.nlt_ge. intros Hlt. unfold hist_at in Hs. destruct (Z.leb_spec s 0); [done|].
    assert (map Some (lk_out l) !! Z.to_nat (s - 1) = Some None) as Hm by (by rewrite li_out0, lookup_take_lt by lia).
    change (map Some (lk_out l)) with (Some <$> lk_out l) in Hm. rewrite list_lookup_fmap in Hm.
    by destruct (lk_out l !! Z.to_nat (s - 1)). }
  split; [done|]. split; [lia|].
  assert (bt_get s (tx_sent (lk_tx l)) = None) as Hnone.
  { destruct (bt_get s (tx_sent (lk_tx l))) as [e|] eqn:E; [|done]. apply li_sent0 in E. congruence. }
  split; [done|]. unfold retransmit_state. by rewrite Hnone.
Qed.
End Protocol.

(** At the wrap-around the two ends disagree: the sender skips sequence 0, the
    receiver waits for it and treats everything that follows as a gap. *)
Example sequence_wrap_stalls `{Config} f g :
  let rx := {| expected_seq := 2 ^ 32 - 1; buffered := [] |} in
  let rx' := {| expected_seq := 0; buffered := [] |} in
  recv_ordered (2 ^ 32 - 1) f rx = (rx', InOrder [] (2 ^ 32 - 1))
  /\ seq_after (2 ^ 32 - 1) = 1
  /\ forall s, 1 <= s -> snd (recv_ordered s g rx') = GapFrame 0 /\ expected_seq (fst (recv_ordered s g rx')) = 0.
Proof.
  cbn zeta. split; [vm_compute; reflexivity|]. split; [vm_compute; reflexivity|].
  intros s Hs. unfold recv_ordered. cbn [expected_seq buffered]. zcase. done.
Qed.

(** ** Witnesses *)

(** Two frames sent, the second arrives first and is buffered. *)
Definition out_of_order : Link :=
  {| lk_tx := record_state 2 [b8 8] 5 (alloc_state (record_state 1 [b8 7] 5 (alloc_state tx_state_new)));
     lk_rx := {| expected_seq := 1; buffered := [(2, [b8 8])] |};
     lk_hist := [Some [b8 7]; Some [b8 8]]; lk_net := [(2, [b8 8]); (1, [b8 7])]; lk_acks := []; lk_out := [] |}.

(** Then the first: both are handed on. *)
Definition caught_up : Link :=
  {| lk_tx := lk_tx out_of_order; lk_rx := {| expected_seq := 3; buffered := [] |};
     lk_hist := lk_hist out_of_order; lk_net := lk_net out_of_order; lk_acks := [2];
     lk_out := [[b8 7]; [b8 8]] |}.

Definition burned : Link :=
  {| lk_tx := alloc_state tx_state_new; lk_rx := rx_state_new; lk_hist := [None]; lk_net := []; lk_acks := [];
     lk_out := [] |}.

Lemma hist_small l n : length (lk_hist l) = n -> (n < 10)%nat -> nlen (lk_hist l) < 2 ^ 32 - 1.
Proof. unfold nlen. lia. Qed.

Lemma caught_up_reachable : rtc (@link_step default_config) link_new caught_up.
Proof.
  eapply rtc_l; [apply (@ls_send default_config link_new [b8 7] 5); vm_compute; reflexivity|].
  eapply rtc_l; [eapply (@ls_send default_config _ [b8 8] 5); vm_compute; reflexivity|].
  eapply rtc_l; [eapply (@ls_deliver default_config _ 2 [b8 8]); [vm_compute; left|vm_compute; reflexivity]|].
  eapply rtc_l; [eapply (@ls_deliver default_config _ 1 [b8 7]); [vm_compute; right; left|vm_compute; reflexivity]|].
  apply rtc_refl.
Qed.

Lemma burned_reachable : rtc (@link_step default_config) link_new burned.
Proof. eapply rtc_l; [apply (@ls_burn default_config link_new); vm_compute; reflexivity|apply rtc_refl]. Qed.

Lemma reliable_link_in_order_witness :
  map Some (lk_out caught_up) = take (length (lk_out caught_up)) (lk_hist caught_up) /\ length (lk_out caught_up) = 2%nat
  /\ lk_out caught_up !! 0%nat = Some [b8 7].
Proof.
  destruct (@reliable_link_in_order default_config caught_up caught_up_reachable
    (hist_small caught_up 2 eq_refl ltac:(lia))) as (Ho & _ & _ & Hforget & _).
  split; [exact Ho|]. split; [reflexivity|].
  apply (Hforget 2 1 _ ltac:(left) eq_refl). vm_compute. reflexivity.
Defined.

Lemma failed_transmission_stalls_witness :
  expected_seq (lk_rx burned) <= 1 /\ snd (retransmit_state 1 (lk_tx burned)) = None.
Proof.
  destruct (@failed_transmission_stalls default_config burned 1 burned_reachable
    (hist_small burned 1 eq_refl ltac:(lia)) eq_refl) as (He & _ & _ & Hr).
  split; [exact He|exact Hr].
Defined.
