(* ===== verification/LinkRouter.v ===== *)
(** * The router implements the link protocol ([rx_item] of [src/router.rs])

    The hop section of the receive path, run on the router's state with its
    shared memory budget and its transmit queue, is matched step by step by
    the protocol of [Link]; what it hands on to dispatch is therefore a prefix
    of what the peer sent. *)

From stdpp Require Import gmap relations.
From S2P Require Import Prelude Ordered Telemetry Config Schema Queue SmallPayload Wire Packet Serialize Discovery RouterState Routes Reliable Link.


(** ** The router implements the protocol *)

Section Refinement.
Context `{Config} `{Schema} `{External} `{Layout} `{RouterLayout}.
Context (self_sender : Str) (ts : Z).
Context (Hsize : 0 <= sizeof_DiscoverySideState) (Hpacket : 0 <= sizeof_Packet)
  (Hpayload : 0 <= sizeof_StandardSmallPayload).
Context (Hstack : STACK_PAYLOAD_SIZE < 256) (Hmax : MAX_QUEUE_BUDGET <= isize_max).

Lemma payload_cost_nonneg data p : std_holds data p -> 0 <= std_byte_cost p.
Proof.
  destruct p as [c [l b|a]|a]; unfold std_holds; cbn; intros (_ & _ & Hl); pose proof (blen_nonneg data);
    unfold sizeof_arc_slice; lia.
Qed.

Lemma control_packet_ok (i : nat) t sq :
  (6 <= i <= 8)%nat ->
  exists p, reliable_control_packet self_sender ts (n_tys + Z.of_nat i) t sq = Ok p /\ 0 <= packet_byte_cost p.
Proof.
  intros Hi. unfold reliable_control_packet.
  assert (exists name r prio, message_meta (n_tys + Z.of_nat i) = mk_meta name (Static 2 UInt32 Data) EpTelemetryError r prio)
    as (name & r & prio & Hm).
  { unfold message_meta. assert (i = 6 \/ i = 7 \/ i = 8)%nat as [-> | [-> | ->]] by lia;
      (erewrite builtin_type_meta by reflexivity); eauto. }
  assert (content_ok (n_tys + Z.of_nat i) (encode_slice_le PU32 [t; sq])) as Hc.
  { unfold content_ok, get_data_type. unfold message_meta in Hm. rewrite blen_encode. unfold message_meta. rewrite Hm. cbn.
    by rewrite wrap_small by lia. }
  rewrite Hm. cbn [endpoints mk_meta].
  destruct (packet_new_cases (n_tys + Z.of_nat i) [EpTelemetryError] self_sender ts (encode_slice_le PU32 [t; sq]))
    as [[? _]|[(_ & Hnc & _)|(_ & _ & ->)]]; [done|done|].
  destruct (std_new_total (encode_slice_le PU32 [t; sq]) Hstack) as (st & -> & Hst). cbn [res_bind mbind res_mbind].
  eexists. split; [reflexivity|]. apply payload_cost_nonneg in Hst. unfold packet_byte_cost. cbn [sender pkt_endpoints payload].
  pose proof (blen_nonneg self_sender). lia.
Qed.

(** After a push to the transmit queue the receive buffers may only have lost
    their oldest frames. *)
Lemma push_transmit_rx i st :
  cost_ok i -> budget_ok st ->
  let '(st', r) := push_transmit i st in
  budget_ok st' /\ r <> Panic /\ forall key, rx_popped (bt_get key (reliable_rx st)) (bt_get key (reliable_rx st')).
Proof.
  intros Hc Hb. destruct (push_transmit_ok Hsize i st Hmax Hc Hb) as [[Hk Hnp] _].
  destruct (push_transmit i st) as [st' r] eqn:E. split; [done|]. split; [done|]. intros key.
  unfold push_transmit in E. rewrite RM_run in E.
  destruct (make_shared_room_ok Hsize (byte_cost i) Transmit st (proj1 Hb) Hc Hmax) as [(_ & Hev & _) _].
  destruct (make_shared_queue_room _ _ st) as [st1 [[]|e|]]; cbn [fst] in Hev; [|injection E as <- _; apply Hev..].
  destruct (push_back_prioritized _ _ _) as [d r']. injection E as <- _. apply (ev_rx _ _ Hev).
Qed.

Lemma queue_control_rx (i : nat) side t sq st :
  (6 <= i <= 8)%nat -> budget_ok st ->
  let '(st', r) := queue_reliable_control self_sender ts (n_tys + Z.of_nat i) side t sq st in
  budget_ok st' /\ r <> Panic /\ forall key, rx_popped (bt_get key (reliable_rx st)) (bt_get key (reliable_rx st')).
Proof.
  intros Hi Hb. unfold queue_reliable_control. rewrite RM_run.
  destruct (control_packet_ok i t sq Hi) as (p & Hp & Hc). rewrite Hp. cbn [lift].
  apply push_transmit_rx; [|done].
  match goal with |- cost_ok ?x => change (0 <= packet_byte_cost p + 1 + 1) end. lia.
Qed.

Lemma touch_rx_ok key st :
  budget_ok st ->
  budget_ok (update_rx key (fun rx => rx) st)
  /\ (forall k, bt_get k (reliable_rx (update_rx key (fun rx => rx) st))
       = if decide (k = key) then Some (rx_state key st) else bt_get k (reliable_rx st)).
Proof.
  intros [Hi Hb]. rewrite used_exact in Hb by done.
  pose proof (update_rx_used key (fun rx => rx) st Hi) as Hu. cbn beta in Hu. pose proof (io_memory _ Hi).
  split.
  - assert (inner_ok (update_rx key (fun rx => rx) st)) as Hi'.
    { apply update_rx_inner_ok; [done|by apply rx_default_sorted|lia]. }
    apply budget_exact; [done|done|lia].
  - intros k. unfold update_rx. cbn. rewrite bt_get_insert. destruct (decide (cmp k key = Eq)) as [->%cmp_eq|Hne].
    + by rewrite decide_True.
    + rewrite decide_False; [done|]. intros ->. by rewrite cmp_refl in Hne.
Qed.

(** The state of a link as the handlers see it: absent means fresh. *)
Definition link_popped (rx rx' : ReliableRxState) : Prop := rx_popped (Some rx) (Some rx').

Lemma link_popped_refl rx : link_popped rx rx.
Proof. apply rx_popped_refl. Qed.

Lemma rx_state_update key f st : rx_state key (update_rx key f st) = f (rx_state key st).
Proof. unfold rx_state, update_rx. cbn [reliable_rx set_reliable_rx]. by rewrite bt_get_insert_eq. Qed.

Lemma rx_popped_state key st st' :
  rx_popped (bt_get key (reliable_rx st)) (bt_get key (reliable_rx st')) -> link_popped (rx_state key st) (rx_state key st').
Proof.
  unfold rx_state, link_popped. destruct (bt_get key (reliable_rx st)), (bt_get key (reliable_rx st')); cbn; try done.
  split; [done|apply popped_refl].
Qed.

(** One arrival, seen on one link: evictions, at most one protocol step, and
    evictions again. *)
Definition arrival (seq : Z) (bytes : list byte) (rx rx' : ReliableRxState) (v : verdict) : Prop :=
  exists rx0, link_popped rx rx0 /\ snd (recv_ordered seq bytes rx0) = v
    /\ link_popped (fst (recv_ordered seq bytes rx0)) rx'.

Lemma bt_get_none {V} k (m : list (Z * V)) : bt_get k m = None <-> forall v, (k, v) ∉ m.
Proof.
  induction m as [|[j w] m IH]; cbn [bt_get]; [set_solver|]. destruct (cmp k j) eqn:E.
  - apply cmp_eq in E as ->. split; [done|]. intros Hv. exfalso. apply (Hv w). set_solver.
  - rewrite IH. assert (k <> j) by (intros ->; by rewrite cmp_refl in E). set_solver.
  - rewrite IH. assert (k <> j) by (intros ->; by rewrite cmp_refl in E). set_solver.
Qed.

Lemma contains_popped sq (m m' : list (Z * list byte)) :
  popped m m' -> bt_contains sq m = false -> bt_contains sq m' = false.
Proof.
  intros [n ->]. unfold bt_contains. destruct (bt_get sq m) eqn:E; [done|]. intros _.
  assert (bt_get sq (drop n m) = None) as ->; [|done].
  rewrite bt_get_none in *. intros v Hv%elem_of_drop_in. by apply (E v).
Qed.

Lemma buffer_arrival side t sq bytes st :
  budget_ok st -> expected_seq (rx_state (reliable_key side t) st) < sq ->
  let '(st', r) := buffer_reliable_rx side t sq bytes st in
  budget_ok st' /\ r <> Panic
  /\ (r = Ok tt -> arrival sq bytes (rx_state (reliable_key side t) st) (rx_state (reliable_key side t) st')
        (GapFrame (expected_seq (rx_state (reliable_key side t) st))))
  /\ (r <> Ok tt -> link_popped (rx_state (reliable_key side t) st) (rx_state (reliable_key side t) st'))
  /\ (forall k, k <> reliable_key side t -> rx_popped (bt_get k (reliable_rx st)) (bt_get k (reliable_rx st'))).
Proof.
  intros Hb Hgap. set (key := reliable_key side t) in *.
  destruct (buffer_rx_ok Hsize side t sq bytes st Hmax Hb) as [Hk Hnp].
  destruct (buffer_reliable_rx side t sq bytes st) as [st' r] eqn:E. cbn [fst snd] in *.
  split; [done|]. split; [done|].
  destruct (bt_contains sq (buffered (rx_state key st))) eqn:Ec.
  { unfold buffer_reliable_rx, rx_state, key in *. destruct (bt_get (reliable_key side t) (reliable_rx st)) as [rx|] eqn:Eg.
    2: { cbn in Ec. done. }
    cbn in Ec, Hgap. rewrite Ec in E. injection E as <- <-. rewrite Eg. split; [|split; [done|intros; apply rx_popped_refl]].
    intros _. exists rx. split; [apply link_popped_refl|]. unfold recv_ordered. cbn. rewrite Ec. zcase.
    split; [done|apply link_popped_refl]. }
  assert ((_ ← make_shared_queue_room (sizeof_arc_slice + blen bytes) ReliableRxBuffer;
           modify (update_rx key (buffer_frame sq bytes))) st = (st', r)) as Em.
  { unfold buffer_reliable_rx, rx_state, key in *. destruct (bt_get (reliable_key side t) (reliable_rx st)) as [rx|]; [|done].
    cbn in Ec. by rewrite Ec in E. }
  rewrite RM_run in Em. pose proof (blen_nonneg bytes).
  destruct (make_shared_room_ok Hsize (sizeof_arc_slice + blen bytes) ReliableRxBuffer st (proj1 Hb)) as [(_ & Hev & _) _];
    [unfold sizeof_arc_slice; lia|done|].
  destruct (make_shared_queue_room _ _ st) as [st1 [[]|e|]]; cbn [fst] in Hev.
  2, 3: injection Em as <- <-; split; [done|]; split; [intros _; apply rx_popped_state, (ev_rx _ _ Hev)|];
    intros k _; apply (ev_rx _ _ Hev).
  injection Em as <- <-. pose proof (rx_popped_state key _ _ (ev_rx _ _ Hev key)) as Hp.
  split; [|split; [done|]].
  - intros _. exists (rx_state key st1). split; [done|]. destruct Hp as [He Hpb].
    unfold recv_ordered. rewrite He. rewrite (contains_popped _ _ _ Hpb Ec). zcase. split; [done|].
    rewrite rx_state_update. apply link_popped_refl.
  - intros k Hne. unfold update_rx. cbn. rewrite bt_get_insert_ne by done. apply (ev_rx _ _ Hev).
Qed.

Lemma link_popped_trans a b c : link_popped a b -> link_popped b c -> link_popped a c.
Proof. apply rx_popped_trans. Qed.

Lemma rx_state_update_ne k key f st : k <> key -> rx_state k (update_rx key f st) = rx_state k st.
Proof. intros Hne. unfold rx_state, update_rx. cbn [reliable_rx set_reliable_rx]. by rewrite bt_get_insert_ne. Qed.

Lemma release_cost fuel next last buf :
  bt_sorted buf ->
  let '(_, _, _, buf') := release_loop fuel next last buf in
  frames_cost buf' <= frames_cost buf /\ bt_sorted buf'.
Proof.
  revert next last buf. induction fuel as [|fuel IH]; intros next last buf Hs; cbn [release_loop]; [done|].
  destruct (bt_get next buf) as [f|] eqn:E; [|done].
  specialize (IH (seq_after next) next (bt_remove next buf) (bt_remove_sorted _ _ Hs)).
  destruct (release_loop fuel _ _ _) as [[[rel last'] next'] buf']. destruct IH as [IH1 IH2]. split; [|done].
  apply bt_get_elem in E; [|done]. pose proof (bt_remove_perm next f buf Hs E) as Hp. apply (Permutation_map (fun e => sizeof_arc_slice + blen (snd e))) in Hp.
  apply zsum_perm in Hp. unfold frames_cost in *. rewrite Hp. cbn [map zsum fold_right snd]. unfold zsum, sizeof_arc_slice in *.
  pose proof (blen_nonneg f). lia.
Qed.

Lemma recv_cost sq bytes rx rx' v :
  bt_sorted (buffered rx) -> sq <= expected_seq rx -> recv_ordered sq bytes rx = (rx', v) ->
  frames_cost (buffered rx') <= frames_cost (buffered rx) /\ bt_sorted (buffered rx').
Proof.
  intros Hs Hle. unfold recv_ordered. destruct (sq <? _); [by intros [= <- _]|].
  destruct (Z.ltb_spec (expected_seq rx) sq); [lia|].
  pose proof (release_cost (length (buffered rx)) (wrap 32 (sq + 1)) sq (buffered rx) Hs) as Hr.
  destruct (release_loop _ _ _ _) as [[[rel last] next] buf]. by intros [= <- _].
Qed.

(** What the hop section leaves of the links: [src]'s link took [v] (or only
    lost buffered frames), every other link at most lost buffered frames. *)
Definition link_effect (key : RouterSideId * Z) (seq : Z) (bytes : list byte) (st st' : RouterInner)
    (o : option verdict) : Prop :=
  match o with
  | Some v => arrival seq bytes (rx_state key st) (rx_state key st') v
  | None => link_popped (rx_state key st) (rx_state key st')
  end
  /\ forall k, k <> key -> link_popped (rx_state k st) (rx_state k st').

Lemma link_effect_popped key sq bytes st st' st'' o :
  link_effect key sq bytes st st' o ->
  (forall k, link_popped (rx_state k st') (rx_state k st'')) -> link_effect key sq bytes st st'' o.
Proof.
  intros [Hl Ho] Hp. split; [|intros k Hk; eapply link_popped_trans; [by apply Ho|done]].
  destruct o as [v|]; [|by eapply link_popped_trans].
  destruct Hl as (rx0 & A1 & A2 & A3). exists rx0. split; [done|]. split; [done|]. by eapply link_popped_trans.
Qed.

Lemma hop_state_ok src t sq bytes st :
  budget_ok st ->
  let '(st', r) := hop_ordered_state src t sq bytes st in
  budget_ok st' /\ r <> Panic
  /\ link_effect (reliable_key src t) sq bytes st st' (match r with Ok v => Some v | _ => None end).
Proof.
  intros Hb. set (key := reliable_key src t). unfold hop_ordered_state. fold key. rewrite RM_run. unfold touch_rx at 1.
  destruct (touch_rx_ok key st Hb) as [Hb1 _]. set (st1 := update_rx key (fun rx => rx) st) in *.
  assert (rx_state key st1 = rx_state key st) as Hk by apply rx_state_update.
  assert (forall k, k <> key -> rx_state k st1 = rx_state k st) as Hn by (intros k Hne; by apply rx_state_update_ne).
  destruct (Z.ltb_spec (expected_seq (rx_state key st)) sq) as [Hgap|Hle].
  - rewrite RM_run. pose proof (buffer_arrival src t sq bytes st1 Hb1) as Ha. fold key in Ha. rewrite Hk in Ha.
    specialize (Ha Hgap). destruct (buffer_reliable_rx src t sq bytes st1) as [st' r]. destruct Ha as (B1 & B2 & B3 & B4 & B5).
    assert (forall k, k <> key -> link_popped (rx_state k st) (rx_state k st')) as Hother.
    { intros k Hne. rewrite <- (Hn k Hne). by apply rx_popped_state, B5. }
    destruct r as [[]|e|]; (split; [exact B1|]; split; [done|]; split; [|exact Hother]); [by apply B3|by apply B4|done].
  - destruct (recv_ordered sq bytes (rx_state key st)) as [rx' v] eqn:Er. rewrite RM_run. unfold modify at 1.
    pose proof Hb1 as [Hi1 Hu1]. rewrite used_exact in Hu1 by done.
    pose proof (rx_default_sorted key st1 Hi1) as Hs. fold (rx_state key st1) in Hs. rewrite Hk in Hs.
    destruct (recv_cost sq bytes _ rx' v Hs Hle Er) as [Hc Hs'].
    pose proof (update_rx_used key (fun _ => rx') st1 Hi1) as Hu. cbn beta in Hu. fold (rx_state key st1) in Hu. rewrite Hk in Hu.
    pose proof (io_memory _ Hi1).
    assert (inner_ok (update_rx key (fun _ => rx') st1)) as Hi2 by (apply update_rx_inner_ok; [done|done|lia]).
    split; [apply budget_exact; [done|done|lia]|]. split; [done|]. split.
    + rewrite rx_state_update. exists (rx_state key st). rewrite Er. split; [apply link_popped_refl|].
      split; [done|apply link_popped_refl].
    + intros k Hne. rewrite rx_state_update_ne, Hn by done. apply link_popped_refl.
Qed.

(** What [rx_item] does next after [v]. *)
Definition verdict_result (v : verdict) : hop_result :=
  match v with InOrder released _ => HopContinue released | _ => HopStop end.

Lemma control_link_ok (i : nat) side t sq st :
  (6 <= i <= 8)%nat -> budget_ok st ->
  let '(st', r) := queue_reliable_control self_sender ts (n_tys + Z.of_nat i) side t sq st in
  budget_ok st' /\ r <> Panic /\ forall k, link_popped (rx_state k st) (rx_state k st').
Proof.
  intros Hi Hb. pose proof (queue_control_rx i side t sq st Hi Hb) as Hq.
  destruct (queue_reliable_control _ _ _ _ _ _ st) as [st' r]. destruct Hq as (Q1 & Q2 & Q3).
  split; [done|]. split; [done|]. intros k. by apply rx_popped_state.
Qed.

Lemma hop_ordered_ok src t sq bytes st :
  budget_ok st ->
  let '(st', r) := hop_ordered self_sender ts src t sq bytes st in
  budget_ok st' /\ r <> Panic
  /\ exists o, link_effect (reliable_key src t) sq bytes st st' o
     /\ forall x, r = Ok x -> exists v, o = Some v /\ x = verdict_result v.
Proof.
  intros Hb. unfold hop_ordered, hop_ordered_in. rewrite RM_run. pose proof (hop_state_ok src t sq bytes st Hb) as Hh.
  destruct (hop_ordered_state src t sq bytes st) as [st1 r]. destruct Hh as (B1 & Hnp & He).
  destruct r as [v|e|]; [|by (split; [done|]; split; [done|]; exists None)|done].
  destruct v as [ack|expected|released last]; rewrite RM_run.
  - unfold queue_reliable_ack. pose proof (control_link_ok 6 src t ack st1 ltac:(lia) B1) as Hq.
    change (n_tys + Z.of_nat 6) with ReliableAck in Hq.
    destruct (queue_reliable_control _ _ _ _ _ _ st1) as [st2 [[]|e|]]; destruct Hq as (Q1 & Q2 & Q3); [| |done];
      (split; [done|]; split; [done|]; exists (Some (OldFrame ack)); split; [by eapply link_effect_popped|]);
      intros x [= <-]; by eexists.
  - unfold queue_reliable_partial_ack. pose proof (control_link_ok 7 src t sq st1 ltac:(lia) B1) as Hq.
    change (n_tys + Z.of_nat 7) with ReliablePartialAck in Hq.
    destruct (queue_reliable_control _ _ _ _ _ _ st1) as [st2 [[]|e|]]; destruct Hq as (Q1 & Q2 & Q3); [| |done].
    2: { split; [done|]; split; [done|]; exists (Some (GapFrame expected)); split; [by eapply link_effect_popped|done]. }
    rewrite RM_run. unfold queue_reliable_packet_request.
    pose proof (control_link_ok 8 src t expected st2 ltac:(lia) Q1) as Hq.
    change (n_tys + Z.of_nat 8) with ReliablePacketRequest in Hq.
    destruct (queue_reliable_control _ _ _ _ _ _ st2) as [st3 [[]|e|]]; destruct Hq as (R1 & R2 & R3); [| |done];
      (split; [done|]; split; [done|]; exists (Some (GapFrame expected));
       split; [eapply link_effect_popped; [by eapply link_effect_popped|done]|]); intros x [= <-]; by eexists.
  - unfold queue_reliable_ack. pose proof (control_link_ok 6 src t last st1 ltac:(lia) B1) as Hq.
    change (n_tys + Z.of_nat 6) with ReliableAck in Hq.
    destruct (queue_reliable_control _ _ _ _ _ _ st1) as [st2 [[]|e|]]; destruct Hq as (Q1 & Q2 & Q3); [| |done];
      (split; [done|]; split; [done|]; exists (Some (InOrder released last)); split; [by eapply link_effect_popped|]);
      intros x [= <-]; by eexists.
Qed.

(** Steps of the protocol that touch only the receiver. *)
Definition receiver_steps (l l' : Link) (handed : list (list byte)) : Prop :=
  rtc link_step l l' /\ lk_out l' = lk_out l ++ handed /\ lk_net l' = lk_net l /\ lk_hist l' = lk_hist l
  /\ lk_tx l' = lk_tx l.

Lemma receiver_steps_trans l k m a b :
  receiver_steps l k a -> receiver_steps k m b -> receiver_steps l m (a ++ b).
Proof.
  intros (A1 & A2 & A3 & A4 & A5) (B1 & B2 & B3 & B4 & B5). split; [by etrans|]. rewrite B2, A2, app_assoc.
  split; [done|]. split; [congruence|]. split; congruence.
Qed.

Lemma evict_steps l rx : link_popped (lk_rx l) rx -> receiver_steps l (with_rx rx l) [].
Proof. intros Hp. split; [by apply rtc_once, ls_evict|]. cbn. by rewrite app_nil_r. Qed.

Lemma arrival_steps l sq bytes rx v :
  (sq, bytes) ∈ lk_net l -> arrival sq bytes (lk_rx l) rx v ->
  exists l', receiver_steps l l' (verdict_out bytes v) /\ lk_rx l' = rx.
Proof.
  intros Hin (rx0 & A1 & A2 & A3). destruct (recv_ordered sq bytes rx0) as [rx1 v'] eqn:E. cbn [fst snd] in *. subst v'.
  set (l1 := with_rx rx0 l).
  set (l2 := {| lk_tx := lk_tx l1; lk_rx := rx1; lk_hist := lk_hist l1; lk_net := lk_net l1;
                lk_acks := verdict_acks v ++ lk_acks l1; lk_out := lk_out l1 ++ verdict_out bytes v |}).
  exists (with_rx rx l2). split; [|done].
  rewrite <- (app_nil_l (verdict_out bytes v)), <- (app_nil_r (verdict_out bytes v)).
  apply (receiver_steps_trans l l1); [by apply evict_steps|].
  apply (receiver_steps_trans l1 l2); [|by apply (evict_steps l2)].
  split; [by apply rtc_once, (ls_deliver l1 sq bytes rx1 v)|done].
Qed.

(** The frames of one link handed to the hop section one after the other, and
    what goes on to dispatch. *)
Definition handed_on (bytes : list byte) (r : hop_result) : list (list byte) :=
  match r with HopStop => [] | HopContinue released => bytes :: released end.

Fixpoint hop_run (src : RouterSideId) (t : DataType) (l : list (Z * list byte)) : RM (list (list byte)) :=
  match l with
  | [] => mret []
  | (seq, bytes) :: l =>
      r ← hop_ordered self_sender ts src t seq bytes;
      out ← hop_run src t l;
      mret (handed_on bytes r ++ out)
  end.

Lemma hop_run_steps src t arrivals st l :
  budget_ok st -> lk_rx l = rx_state (reliable_key src t) st -> (forall e, e ∈ arrivals -> e ∈ lk_net l) ->
  let '(st', r) := hop_run src t arrivals st in
  budget_ok st' /\ r <> Panic
  /\ (forall k, k <> reliable_key src t -> link_popped (rx_state k st) (rx_state k st'))
  /\ exists l' handed, receiver_steps l l' handed /\ lk_rx l' = rx_state (reliable_key src t) st'
     /\ forall out, r = Ok out -> out = handed.
Proof.
  revert st l. induction arrivals as [|[sq bytes] arrivals IH]; intros st l Hb Hl Hin; cbn [hop_run].
  { split; [done|]. split; [done|]. split; [intros; apply link_popped_refl|]. exists l, []. split.
    - split; [apply rtc_refl|]. by rewrite app_nil_r.
    - split; [done|]. by intros out [= <-]. }
  rewrite RM_run. pose proof (hop_ordered_ok src t sq bytes st Hb) as Ho.
  destruct (hop_ordered self_sender ts src t sq bytes st) as [st1 r]. destruct Ho as (B1 & Hnp & o & [He Hother] & Hr).
  assert (exists l1 handed, receiver_steps l l1 handed /\ lk_rx l1 = rx_state (reliable_key src t) st1
          /\ forall x, r = Ok x -> handed = handed_on bytes x) as (l1 & h1 & S1 & Hl1 & Hx).
  { rewrite <- Hl in He. destruct o as [v|].
    - destruct (arrival_steps l sq bytes _ v (Hin (sq, bytes) ltac:(set_solver)) He) as (l1 & S1 & Hl1).
      exists l1, (verdict_out bytes v). split; [done|]. split; [done|]. intros x Hx.
      destruct (Hr x Hx) as (v' & [= <-] & ->). by destruct v.
    - exists (with_rx (rx_state (reliable_key src t) st1) l), []. split; [by apply evict_steps|]. split; [done|].
      intros x Hx. by destruct (Hr x Hx) as (v & Hv & _). }
  destruct r as [x|e|]; [|split; [done|]; split; [done|]; split; [done|]; by exists l1, h1|done].
  rewrite RM_run. specialize (IH st1 l1 B1 Hl1).
  destruct (hop_run src t arrivals st1) as [st2 r2].
  destruct IH as (I1 & I2 & I3 & l2 & h2 & S2 & Hl2 & Hx2).
  { intros e Ha. rewrite (proj1 (proj2 (proj2 S1))). apply Hin. set_solver. }
  assert (forall k, k <> reliable_key src t -> link_popped (rx_state k st) (rx_state k st2)) as Hk2.
  { intros k Hk. eapply link_popped_trans; [by apply Hother|by apply I3]. }
  destruct r2 as [out|e|]; [| |done]; (split; [done|]; split; [done|]; split; [done|]; exists l2, (h1 ++ h2);
    split; [by eapply receiver_steps_trans|]; split; [done|]); intros y [= <-].
  by rewrite (Hx x eq_refl), (Hx2 out eq_refl).
Qed.

(** C1. The router's receive path implements the link protocol: on a
    router within its memory budget, whose entry for the link is the receiver
    of a reachable protocol state, handing it any sequence of frames that were
    put on that link's wire (repeated, reordered, with gaps) keeps the budget,
    never panics, touches other links only by evicting buffered frames, and is
    matched by protocol steps; when no call fails, the frames that go on to
    dispatch extend what was handed on before to a longer prefix of the frames
    sent, in the order sent, none lost and none repeated. *)
Theorem hop_section_refines src t arrivals st l :
  budget_ok st -> rtc link_step link_new l -> nlen (lk_hist l) < 2 ^ 32 - 1 ->
  lk_rx l = rx_state (reliable_key src t) st -> (forall e, e ∈ arrivals -> e ∈ lk_net l) ->
  let '(st', r) := hop_run src t arrivals st in
  budget_ok st' /\ r <> Panic
  /\ (forall k, k <> reliable_key src t -> link_popped (rx_state k st) (rx_state k st'))
  /\ (exists l', rtc link_step l l' /\ lk_rx l' = rx_state (reliable_key src t) st')
  /\ forall out, r = Ok out ->
       map Some (lk_out l ++ out) = take (length (lk_out l ++ out)) (lk_hist l)
       /\ expected_seq (rx_state (reliable_key src t) st') = nlen (lk_out l ++ out) + 1.
Proof.
  intros Hb Hreach Hn Hl Hin. pose proof (hop_run_steps src t arrivals st l Hb Hl Hin) as Hr.
  destruct (hop_run src t arrivals st) as [st' r]. destruct Hr as (R1 & R2 & R3 & l' & handed & (S1 & S2 & S3 & S4 & S5) & Hl' & Hx).
  split; [done|]. split; [done|]. split; [done|]. split; [by exists l'|].
  intros out Hout. rewrite (Hx out Hout), <- Hl', <- S2, <- S4.
  pose proof (link_reachable_inv l' ltac:(by etrans) ltac:(by rewrite S4)) as Hi.
  pose proof (out_length l' Hi) as Ho. pose proof (li_out _ Hi) as Hprefix. pose proof (li_expected _ Hi) as Hexp.
  split; [|lia]. rewrite Hprefix. f_equal. unfold nlen in Ho. lia.
Qed.
End Refinement.

(** ** Witness: two frames that arrive in the wrong order *)

Definition sent_two : Link :=
  {| lk_tx := lk_tx out_of_order; lk_rx := rx_state_new; lk_hist := lk_hist out_of_order;
     lk_net := lk_net out_of_order; lk_acks := []; lk_out := [] |}.

Lemma sent_two_reachable : rtc (@link_step default_config) link_new sent_two.
Proof.
  eapply rtc_l; [apply (@ls_send default_config link_new [b8 7] 5); vm_compute; reflexivity|].
  eapply rtc_l; [eapply (@ls_send default_config _ [b8 8] 5); vm_compute; reflexivity|apply rtc_refl].
Qed.

Lemma hop_section_refines_witness :
  let '(st', r) := @hop_run default_config default_schema some_layout some_router_layout (lit "GPS") 5 0 0
                     [(2, [b8 8]); (1, [b8 7])] fresh_inner in
  r = Ok [[b8 7]; [b8 8]] /\ [Some [b8 7]; Some [b8 8]] = take 2 (lk_hist sent_two)
  /\ @budget_ok default_config some_layout some_router_layout st'.
Proof.
  pose proof (@hop_section_refines default_config default_schema some_layout some_router_layout (lit "GPS") 5
    ltac:(vm_compute; discriminate) ltac:(vm_compute; discriminate) ltac:(vm_compute; discriminate) ltac:(vm_compute; reflexivity) ltac:(vm_compute; discriminate)
    0 0 [(2, [b8 8]); (1, [b8 7])] fresh_inner sent_two (proj1 fresh_inner_ok) sent_two_reachable
    (hist_small sent_two 2 eq_refl ltac:(lia)) eq_refl ltac:(intros e He; exact He)) as Href.
  destruct (hop_run _ _ _ _ _ _) as [st' r] eqn:E.
  assert (r = Ok [[b8 7]; [b8 8]]) as -> by (apply (f_equal snd) in E; vm_compute in E; symmetry; exact E).
  destruct Href as (Hb & _ & _ & _ & Hout). split; [reflexivity|]. split; [|exact Hb].
  exact (proj1 (Hout _ eq_refl)).
Defined.
