(* ===== verification/TimeRuntime.v ===== *)
(** * The router's time-sync state ([src/router.rs])

    [TimeSyncRuntime]: the state behind the router's second lock, around the
    tracker and the two clocks of [TimeSync], and the parts of the router's
    operations that run under that lock. Clock readings are arguments, one per
    call of the clock. *)

From S2P Require Import Prelude Ordered Telemetry Config Schema SmallPayload Wire Packet Calendar TimeSync.

Record PendingTimeSyncRequest := { pr_seq : Z; pr_t1_mono_ms : Z; pr_source : Str }.

Record RemoteTimeSyncSource := { rt_priority : Z; rt_last_sample_mono_ms : Z; rt_sample_unix_ms : Z }.

Record TimeSyncRuntime := {
  rt_cfg : option TimeSyncConfig;
  rt_tracker : option TimeSyncTracker;
  rt_clock : NetworkClock;
  disciplined_clock : SlewedNetworkClock;
  remote_sources : list (Str * RemoteTimeSyncSource);
  rt_next_seq : Z;
  next_announce_mono_ms : Z;
  next_request_mono_ms : Z;
  pending_request : option PendingTimeSyncRequest
}.

Definition set_clock (c : NetworkClock) (rt : TimeSyncRuntime) : TimeSyncRuntime :=
  {| rt_cfg := rt_cfg rt; rt_tracker := rt_tracker rt; rt_clock := c; disciplined_clock := disciplined_clock rt;
     remote_sources := remote_sources rt; rt_next_seq := rt_next_seq rt;
     next_announce_mono_ms := next_announce_mono_ms rt; next_request_mono_ms := next_request_mono_ms rt;
     pending_request := pending_request rt |}.

Definition set_tracker (t : option TimeSyncTracker) (rt : TimeSyncRuntime) : TimeSyncRuntime :=
  {| rt_cfg := rt_cfg rt; rt_tracker := t; rt_clock := rt_clock rt; disciplined_clock := disciplined_clock rt;
     remote_sources := remote_sources rt; rt_next_seq := rt_next_seq rt;
     next_announce_mono_ms := next_announce_mono_ms rt; next_request_mono_ms := next_request_mono_ms rt;
     pending_request := pending_request rt |}.

Definition set_disciplined (c : SlewedNetworkClock) (rt : TimeSyncRuntime) : TimeSyncRuntime :=
  {| rt_cfg := rt_cfg rt; rt_tracker := rt_tracker rt; rt_clock := rt_clock rt; disciplined_clock := c;
     remote_sources := remote_sources rt; rt_next_seq := rt_next_seq rt;
     next_announce_mono_ms := next_announce_mono_ms rt; next_request_mono_ms := next_request_mono_ms rt;
     pending_request := pending_request rt |}.

Definition set_remote_sources (m : list (Str * RemoteTimeSyncSource)) (rt : TimeSyncRuntime) : TimeSyncRuntime :=
  {| rt_cfg := rt_cfg rt; rt_tracker := rt_tracker rt; rt_clock := rt_clock rt;
     disciplined_clock := disciplined_clock rt; remote_sources := m; rt_next_seq := rt_next_seq rt;
     next_announce_mono_ms := next_announce_mono_ms rt; next_request_mono_ms := next_request_mono_ms rt;
     pending_request := pending_request rt |}.

Definition set_next_announce (at_ms : Z) (rt : TimeSyncRuntime) : TimeSyncRuntime :=
  {| rt_cfg := rt_cfg rt; rt_tracker := rt_tracker rt; rt_clock := rt_clock rt;
     disciplined_clock := disciplined_clock rt; remote_sources := remote_sources rt; rt_next_seq := rt_next_seq rt;
     next_announce_mono_ms := at_ms; next_request_mono_ms := next_request_mono_ms rt;
     pending_request := pending_request rt |}.

Definition set_request (seq next_ms : Z) (p : option PendingTimeSyncRequest) (rt : TimeSyncRuntime) : TimeSyncRuntime :=
  {| rt_cfg := rt_cfg rt; rt_tracker := rt_tracker rt; rt_clock := rt_clock rt;
     disciplined_clock := disciplined_clock rt; remote_sources := remote_sources rt; rt_next_seq := seq;
     next_announce_mono_ms := next_announce_mono_ms rt; next_request_mono_ms := next_ms; pending_request := p |}.

Definition runtime_new `{Config} (c : option TimeSyncConfig) : TimeSyncRuntime :=
  {| rt_cfg := c; rt_tracker := tracker_new <$> c; rt_clock := [];
     disciplined_clock := slewed_new (default (cfg_max_slew_ppm default_timesync) (cfg_max_slew_ppm <$> c));
     remote_sources := []; rt_next_seq := 1; next_announce_mono_ms := 0; next_request_mono_ms := 0;
     pending_request := None |}.

Definition timesync_has_usable_time_locked (st : TimeSyncRuntime) (now_mono_ns : Z) : bool :=
  match read_unix_ms (disciplined_clock st) now_mono_ns with
  | Some _ => true
  | None =>
      match current_time (rt_clock st) now_mono_ns with
      | Some reading => match unix_time_ms reading with Some _ => true | None => false end
      | None => false
      end
  end.

(** A request to a source that no longer leads is dropped, and a new one is due. *)
Definition reconcile_pending_timesync_request_locked (leader : option TimeSyncLeader) (now_ms : Z)
    (st : TimeSyncRuntime) : TimeSyncRuntime :=
  let active_remote := match leader with Some (Remote remote) => Some (src_sender remote) | _ => None end in
  match pending_request st with
  | Some pending =>
      if bool_decide (Some (pr_source pending) = active_remote) then st
      else set_request (rt_next_seq st) now_ms None st
  | None => st
  end.

(** ** Refreshing *)

(** The three lines every operation starts with: expired clock sources and
    silent remote sources are dropped. *)
Definition expire (now_ms : Z) (st : TimeSyncRuntime) : TimeSyncRuntime :=
  let st := set_clock (prune_expired now_ms (rt_clock st)) st in
  let timeout_ms := default 0 (source_timeout_ms <$> rt_cfg st) in
  set_remote_sources (bt_retain (fun _ src => sat_sub now_ms (rt_last_sample_mono_ms src) <=? timeout_ms)
                        (remote_sources st)) st.

(** [tracker.refresh] and the leader it then elects. *)
Definition elect (now_ms : Z) (usable : bool) (st : TimeSyncRuntime) : TimeSyncRuntime * option TimeSyncLeader :=
  match rt_tracker st with
  | Some tracker =>
      let tracker := fst (refresh tracker now_ms) in
      (set_tracker (Some tracker) st, leader tracker now_ms usable)
  | None => (st, None)
  end.

(** The disciplined clock follows the leader's last sample. *)
Definition follow (now_ns : Z) (l : option TimeSyncLeader) (st : TimeSyncRuntime) : TimeSyncRuntime :=
  match l with
  | Some (Remote remote) =>
      match bt_get (src_sender remote) (remote_sources st) with
      | Some src => set_disciplined (steer_unix_ms (disciplined_clock st) now_ns (rt_sample_unix_ms src)) st
      | None => st
      end
  | _ => st
  end.

Definition refresh_timesync_state (now_ms now_ns : Z) (st : TimeSyncRuntime) : TimeSyncRuntime :=
  let st := expire now_ms st in
  let '(st, l) := elect now_ms (timesync_has_usable_time_locked st now_ns) st in
  follow now_ns l (reconcile_pending_timesync_request_locked l now_ms st).

(** [now_ns'] is the reading of [refresh_timesync_state]. *)
Definition network_time (now_ms now_ns now_ns' : Z) (st : TimeSyncRuntime)
    : TimeSyncRuntime * option NetworkTimeReading :=
  let st := refresh_timesync_state now_ms now_ns' st in
  (st, match read_unix_ms (disciplined_clock st) now_ns with
       | Some unix_ms => Some {| reading_time := partial_from_unix_ms unix_ms; unix_time_ms := Some unix_ms |}
       | None => current_time (rt_clock st) now_ns
       end).

Definition network_time_ms (now_ms now_ns now_ns' : Z) (st : TimeSyncRuntime) : TimeSyncRuntime * option Z :=
  let '(st, r) := network_time now_ms now_ns now_ns' st in (st, r ≫= unix_time_ms).

(** [later_ms] is read only when there is no network time. *)
Definition packet_timestamp_ms (now_ms now_ns now_ns' later_ms : Z) (st : TimeSyncRuntime) : TimeSyncRuntime * Z :=
  let '(st, r) := network_time_ms now_ms now_ns now_ns' st in (st, default later_ms r).

(** ** Sources set by the application *)

Definition steer_to (now_ns : Z) (t : PartialNetworkTime) (st : TimeSyncRuntime) : TimeSyncRuntime :=
  match to_network_time t ≫= as_unix_ms with
  | Some unix_ms => set_disciplined (steer_unix_ms (disciplined_clock st) now_ns unix_ms) st
  | None => st
  end.

Definition update_network_time_source (source : Str) (prio : Z) (t : PartialNetworkTime) (ttl : option Z)
    (now_ms now_ns : Z) (st : TimeSyncRuntime) : TimeSyncRuntime :=
  steer_to now_ns t (set_clock (update_source source prio t now_ms now_ns ttl (rt_clock st)) st).

(** What a time observed before the lock has become when it is committed. *)
Definition adjusted_time (t : PartialNetworkTime) (elapsed_ns : Z) : PartialNetworkTime :=
  match to_network_time t with
  | Some base =>
      match advance_network_time base elapsed_ns with Some t' => partial_of t' | None => t end
  | None => t
  end.

Definition set_network_time_source_impl (source : Str) (prio : Z) (t : PartialNetworkTime) (ttl : option Z)
    (observed_ms observed_ns commit_ms commit_ns : Z) (st : TimeSyncRuntime) : TimeSyncRuntime :=
  let adjusted := adjusted_time t (sat_sub commit_ns observed_ns) in
  let adjusted_ms := sat_add64 observed_ms (sat_sub commit_ms observed_ms) in
  steer_to commit_ns adjusted
    (set_clock (update_source source prio adjusted (Z.max commit_ms adjusted_ms) commit_ns ttl (rt_clock st)) st).

Definition INTERNAL_TIMESYNC_SOURCE_ID : Str := lit "__timesync_remote__".
Definition LOCAL_TIMESYNC_FULL_SOURCE_ID : Str := lit "__timesync_local_full__".
Definition LOCAL_TIMESYNC_DATE_SOURCE_ID : Str := lit "__timesync_local_date__".
Definition LOCAL_TIMESYNC_TOD_SOURCE_ID : Str := lit "__timesync_local_tod__".
Definition LOCAL_TIMESYNC_SUBSEC_SOURCE_ID : Str := lit "__timesync_local_subsec__".

Definition local_network_time_priority (st : TimeSyncRuntime) : Z := default 0 (ts_priority <$> rt_cfg st).

Definition drop_sources (l : list Str) (st : TimeSyncRuntime) : TimeSyncRuntime :=
  set_clock (foldl (fun c s => remove_source s c) (rt_clock st) l) st.

(** The readings of one [set_network_time_source_impl]. *)
Record Readings := { observed_ms : Z; observed_ns : Z; commit_ms : Z; commit_ns : Z }.

Definition set_local_part (source : Str) (prio : Z) (t : PartialNetworkTime) (r : Readings)
    : TimeSyncRuntime -> TimeSyncRuntime :=
  set_network_time_source_impl source prio t None (observed_ms r) (observed_ns r) (commit_ms r) (commit_ns r).

Definition date_part (t : PartialNetworkTime) : PartialNetworkTime :=
  {| p_year := p_year t; p_month := p_month t; p_day := p_day t; p_hour := None; p_minute := None;
     p_second := None; p_nanosecond := None |}.
Definition tod_part (t : PartialNetworkTime) : PartialNetworkTime :=
  {| p_year := None; p_month := None; p_day := None; p_hour := p_hour t; p_minute := p_minute t;
     p_second := p_second t; p_nanosecond := p_nanosecond t |}.
Definition subsec_part (t : PartialNetworkTime) : PartialNetworkTime :=
  {| p_year := None; p_month := None; p_day := None; p_hour := None; p_minute := None;
     p_second := None; p_nanosecond := p_nanosecond t |}.

(** A complete time replaces every local part; otherwise each part given
    replaces its own. *)
Definition set_local_network_time (t : PartialNetworkTime) (r_date r_tod r_subsec : Readings)
    (st : TimeSyncRuntime) : TimeSyncRuntime :=
  let prio := local_network_time_priority st in
  if is_complete_date t && is_complete_time t then
    drop_sources [LOCAL_TIMESYNC_DATE_SOURCE_ID; LOCAL_TIMESYNC_TOD_SOURCE_ID; LOCAL_TIMESYNC_SUBSEC_SOURCE_ID]
      (set_local_part LOCAL_TIMESYNC_FULL_SOURCE_ID prio t r_date st)
  else
    let st := drop_sources [LOCAL_TIMESYNC_FULL_SOURCE_ID] st in
    let st := if some (p_year t) || some (p_month t) || some (p_day t)
              then set_local_part LOCAL_TIMESYNC_DATE_SOURCE_ID prio (date_part t) r_date st else st in
    let st := if some (p_hour t) || some (p_minute t) || some (p_second t)
              then set_local_part LOCAL_TIMESYNC_TOD_SOURCE_ID prio (tod_part t) r_tod st else st in
    if some (p_nanosecond t)
    then set_local_part LOCAL_TIMESYNC_SUBSEC_SOURCE_ID prio (subsec_part t) r_subsec st else st.

Definition local_sources : list Str :=
  [LOCAL_TIMESYNC_FULL_SOURCE_ID; LOCAL_TIMESYNC_DATE_SOURCE_ID; LOCAL_TIMESYNC_TOD_SOURCE_ID;
   LOCAL_TIMESYNC_SUBSEC_SOURCE_ID].

Definition clear_local_network_time : TimeSyncRuntime -> TimeSyncRuntime := drop_sources local_sources.

Definition clear_network_time_source (source : Str) : TimeSyncRuntime -> TimeSyncRuntime := drop_sources [source].

Definition set_timesync_config `{Config} (c : option TimeSyncConfig) (st : TimeSyncRuntime) : TimeSyncRuntime :=
  let fresh := runtime_new c in
  set_clock (foldl (fun c s => remove_source s c) (rt_clock st)
               (INTERNAL_TIMESYNC_SOURCE_ID :: bt_keys (remote_sources st) ++ local_sources)) fresh.

(** The front ends of [set_local_network_time]. *)
Definition date_fields (y m d : Z) : PartialNetworkTime :=
  {| p_year := Some y; p_month := Some m; p_day := Some d; p_hour := None; p_minute := None; p_second := None;
     p_nanosecond := None |}.
Definition hm_fields (h m : Z) : PartialNetworkTime :=
  {| p_year := None; p_month := None; p_day := None; p_hour := Some h; p_minute := Some m; p_second := None;
     p_nanosecond := None |}.
Definition hms_fields (h m s : Z) : PartialNetworkTime :=
  {| p_year := None; p_month := None; p_day := None; p_hour := Some h; p_minute := Some m; p_second := Some s;
     p_nanosecond := None |}.
Definition hms_nanos_fields (h m s ns : Z) : PartialNetworkTime :=
  {| p_year := None; p_month := None; p_day := None; p_hour := Some h; p_minute := Some m; p_second := Some s;
     p_nanosecond := Some ns |}.
Definition datetime_fields (y mo d h m s : Z) (ns : option Z) : PartialNetworkTime :=
  {| p_year := Some y; p_month := Some mo; p_day := Some d; p_hour := Some h; p_minute := Some m;
     p_second := Some s; p_nanosecond := ns |}.

(** [(millisecond as u32).saturating_mul(1_000_000)] *)
Definition millis_to_nanos (millisecond : Z) : Z := Z.min (millisecond * 1000000) (2 ^ 32 - 1).

Section Setters.
Context (r_date r_tod r_subsec : Readings).
Let set_time t := set_local_network_time t r_date r_tod r_subsec.

Definition set_local_network_date y m d := set_time (date_fields y m d).
Definition set_local_network_time_hm h m := set_time (hm_fields h m).
Definition set_local_network_time_hms h m s := set_time (hms_fields h m s).
Definition set_local_network_time_hms_millis h m s ms := set_time (hms_nanos_fields h m s (millis_to_nanos ms)).
Definition set_local_network_time_hms_nanos h m s ns := set_time (hms_nanos_fields h m s ns).
Definition set_local_network_datetime y mo d h m s := set_time (datetime_fields y mo d h m s None).
Definition set_local_network_datetime_millis y mo d h m s ms :=
  set_time (datetime_fields y mo d h m s (Some (millis_to_nanos ms))).
Definition set_local_network_datetime_nanos y mo d h m s ns := set_time (datetime_fields y mo d h m s (Some ns)).
End Setters.

(** ** Polling: what [poll_timesync] does under the lock *)

(** The announcement's priority, and the request's sequence number and time. *)
Definition PollOutput : Type := option Z * option (Z * Z).

Definition next_request_seq (seq : Z) : Z := let next := wrap 64 (seq + 1) in if next =? 0 then 1 else next.

Definition poll_announce (c : TimeSyncConfig) (announce_prio : option Z) (now_ms : Z) (st : TimeSyncRuntime)
    : TimeSyncRuntime * option Z :=
  match announce_prio with
  | Some p =>
      if next_announce_mono_ms st <=? now_ms
      then (set_next_announce (sat_add64 now_ms (announce_interval_ms c)) st, Some p) else (st, None)
  | None => (st, None)
  end.

Definition poll_request (c : TimeSyncConfig) (l : option TimeSyncLeader) (now_ms : Z) (st : TimeSyncRuntime)
    : TimeSyncRuntime * option (Z * Z) :=
  match l with
  | Some (Remote remote) =>
      if (next_request_mono_ms st <=? now_ms) && negb (some (pending_request st)) then
        let seq := rt_next_seq st in
        (set_request (next_request_seq seq) (sat_add64 now_ms (request_interval_ms c))
           (Some {| pr_seq := seq; pr_t1_mono_ms := now_ms; pr_source := src_sender remote |}) st,
         Some (seq, now_ms))
      else (st, None)
  | _ => (st, None)
  end.

(** [tracker.local_announce_priority], of the refreshed tracker. *)
Definition announce_priority_of (now_ms : Z) (usable : bool) (st : TimeSyncRuntime) : option Z :=
  t ← rt_tracker st; local_announce_priority t now_ms usable.

Definition poll_locked (now_ms now_ns : Z) (st : TimeSyncRuntime) : TimeSyncRuntime * PollOutput :=
  let st := expire now_ms st in
  match rt_cfg st with
  | None => (st, (None, None))
  | Some c =>
      let usable := timesync_has_usable_time_locked st now_ns in
      let '(st, l) := elect now_ms usable st in
      let announce_prio := announce_priority_of now_ms usable st in
      let st := follow now_ns l (reconcile_pending_timesync_request_locked l now_ms st) in
      let '(st, announce) := poll_announce c announce_prio now_ms st in
      let '(st, request) := poll_request c l now_ms st in
      (st, (announce, request))
  end.

(** ** Receiving: what [handle_internal_timesync_packet] does under the lock *)

(** [Ignored]: there is no tracker, and the router returns at once; [Handled]:
    the response to send (sequence, t1, t2, t3), and whether to poll. *)
Inductive HandleOutput := Ignored | Handled (response : option (Z * Z * Z * Z)) (poll_after : bool).

(** A new sample of a remote source. *)
Definition remember_sample (c : TimeSyncConfig) (name : Str) (prio sample_ms now_ms now_ns : Z)
    (st : TimeSyncRuntime) : TimeSyncRuntime :=
  let st := set_remote_sources (bt_insert name
    {| rt_priority := prio; rt_last_sample_mono_ms := now_ms; rt_sample_unix_ms := sample_ms |}
    (remote_sources st)) st in
  set_clock (update_source name prio (partial_from_unix_ms sample_ms) now_ms now_ns (Some (source_timeout_ms c))
               (rt_clock st)) st.

Section Receive.
Context `{Config} `{Schema}.

Definition receive_announce (c : TimeSyncConfig) (tracker : TimeSyncTracker) (usable : bool) (pkt : Packet)
    (now_ms now_ns : Z) (st : TimeSyncRuntime) : TimeSyncRuntime * TelemetryResult HandleOutput :=
  match decode_timesync_announce pkt, handle_announce tracker pkt now_ms with
  | Ok ann, Ok (tracker, _) =>
      let st := remember_sample c (sender pkt) (ann_priority ann) (ann_time_ms ann) now_ms now_ns
                  (set_tracker (Some tracker) st) in
      (match leader tracker now_ms usable with
       | Some (Remote remote) =>
           if bool_decide (src_sender remote = sender pkt)
           then set_disciplined (steer_unix_ms (disciplined_clock st) now_ns (ann_time_ms ann)) st else st
       | _ => st
       end, Ok (Handled None true))
  | Err e, _ | _, Err e => (st, Err e)
  | _, _ => (st, Panic)
  end.

(** The time a server answers with. *)
Definition served_time (now_ms now_ns : Z) (st : TimeSyncRuntime) : Z :=
  default now_ms (or_else (read_unix_ms (disciplined_clock st) now_ns)
                    (current_time (rt_clock st) now_ns ≫= unix_time_ms)).

Definition receive_request (tracker : TimeSyncTracker) (usable : bool) (pkt : Packet) (now_ms now_ns : Z)
    (st : TimeSyncRuntime) : TelemetryResult HandleOutput :=
  if should_serve tracker now_ms usable then
    req ← decode_timesync_request pkt;
    let network_now := served_time now_ms now_ns st in
    Ok (Handled (Some (req_seq req, req_t1_ms req, network_now, network_now)) false)
  else Ok (Handled None false).

Definition response_priority (c : TimeSyncConfig) (tracker : TimeSyncTracker) (name : Str) (now_ms : Z)
    (st : TimeSyncRuntime) : Z :=
  default (ts_priority c)
    (or_else (src_priority <$> best_active_source tracker now_ms)
       (rt_priority <$> bt_get name (remote_sources st))).

Definition receive_response (c : TimeSyncConfig) (tracker : TimeSyncTracker) (pkt : Packet) (now_ms now_ns : Z)
    (st : TimeSyncRuntime) : TimeSyncRuntime * TelemetryResult HandleOutput :=
  match decode_timesync_response pkt with
  | Ok resp =>
      (match pending_request st with
       | Some pending =>
           if (pr_seq pending =? rsp_seq resp) && bool_decide (pr_source pending = sender pkt) then
             let prio := response_priority c tracker (sender pkt) now_ms st in
             let estimate_ms := fst (compute_network_time_sample (pr_t1_mono_ms pending) (rsp_t2_ms resp)
                                       (rsp_t3_ms resp) now_ms) in
             let st := remember_sample c (sender pkt) prio estimate_ms now_ms now_ns st in
             let st := set_disciplined (steer_unix_ms (disciplined_clock st) now_ns estimate_ms) st in
             set_request (rt_next_seq st) (next_request_mono_ms st) None st
           else st
       | None => st
       end, Ok (Handled None false))
  | Err e => (st, Err e)
  | Panic => (st, Panic)
  end.

(** [c] is the router's own configuration, not the runtime's. *)
Definition handle_locked (c : TimeSyncConfig) (pkt : Packet) (now_ms now_ns : Z) (st : TimeSyncRuntime)
    : TimeSyncRuntime * TelemetryResult HandleOutput :=
  let st := expire now_ms st in
  let usable := timesync_has_usable_time_locked st now_ns in
  match rt_tracker st with
  | None => (st, Ok Ignored)
  | Some tracker =>
      if ty pkt =? TimeSyncAnnounce then receive_announce c tracker usable pkt now_ms now_ns st
      else if ty pkt =? TimeSyncRequest then (st, receive_request tracker usable pkt now_ms now_ns st)
      else if ty pkt =? TimeSyncResponse then receive_response c tracker pkt now_ms now_ns st
      else (st, Ok (Handled None false))
  end.
End Receive.
