(* ===== verification/TimeExchange.v ===== *)
(** * The time-sync exchange of two routers ([src/router.rs])

    What polling and receiving ([TimeRuntime]) amount to over time: who
    announces and who asks, how often, how good the resulting clock is, and
    what a lost response does. *)

From S2P Require Import Prelude Ordered Telemetry Config Schema SmallPayload Wire Packet Serialize Calendar TimeSync TimeRuntime.

(** ** What each operation leaves alone *)

(** The sending schedule: configuration, sequence number, due times, request. *)
Definition schedule (st : TimeSyncRuntime) : option TimeSyncConfig * Z * Z * Z * option PendingTimeSyncRequest :=
  (rt_cfg st, rt_next_seq st, next_announce_mono_ms st, next_request_mono_ms st, pending_request st).

Lemma schedule_expire now st : schedule (expire now st) = schedule st.
Proof. done. Qed.

Lemma schedule_elect now usable st : schedule (fst (elect now usable st)) = schedule st.
Proof. unfold elect. by destruct (rt_tracker st). Qed.

Lemma schedule_follow now l st : schedule (follow now l st) = schedule st.
Proof. unfold follow. by destruct l as [[|r]|]; [|destruct (bt_get _ _)|]. Qed.

Lemma reconcile_schedule l now st :
  let st' := reconcile_pending_timesync_request_locked l now st in
  rt_cfg st' = rt_cfg st /\ next_announce_mono_ms st' = next_announce_mono_ms st /\ rt_next_seq st' = rt_next_seq st
  /\ (forall p, pending_request st' = Some p ->
        pending_request st = Some p /\ exists r, l = Some (Remote r) /\ pr_source p = src_sender r)
  /\ (forall p r, pending_request st = Some p -> l = Some (Remote r) -> pr_source p = src_sender r -> st' = st).
Proof.
  cbn zeta. unfold reconcile_pending_timesync_request_locked.
  destruct (pending_request st) as [p|] eqn:Ep; [|rewrite Ep; naive_solver].
  case_bool_decide as Hl.
  - rewrite Ep. split_and!; [done..| |done]. intros p' [= <-]. split; [done|].
    destruct l as [[?|r]|]; [done| |done]. exists r. by injection Hl as ->.
  - cbn. split_and!; [done..|]. intros p' r [= <-] -> Hs. destruct Hl. by rewrite Hs.
Qed.

Section Exchange.
Context `{Config} `{Schema}.

Lemma schedule_remember c name prio sample now_ms now_ns st :
  schedule (remember_sample c name prio sample now_ms now_ns st) = schedule st.
Proof. done. Qed.

(** Receiving changes nothing of the schedule but a request it answers. *)
Lemma receive_schedule c pkt now_ms now_ns st :
  let st' := fst (handle_locked c pkt now_ms now_ns st) in
  schedule st' = schedule st
  \/ exists p resp, pending_request st = Some p /\ decode_timesync_response pkt = Ok resp
       /\ rsp_seq resp = pr_seq p /\ sender pkt = pr_source p
       /\ schedule st' = (rt_cfg st, rt_next_seq st, next_announce_mono_ms st, next_request_mono_ms st, None).
Proof.
  cbn zeta. unfold handle_locked. set (st0 := expire now_ms st).
  change (schedule st) with (schedule st0). change (pending_request st) with (pending_request st0).
  change (rt_cfg st) with (rt_cfg st0). change (rt_next_seq st) with (rt_next_seq st0).
  change (next_announce_mono_ms st) with (next_announce_mono_ms st0).
  change (next_request_mono_ms st) with (next_request_mono_ms st0). clearbody st0.
  destruct (rt_tracker st0) as [tr|]; [|by left].
  case_match; [|case_match; [by left|case_match; [|by left]]].
  - left. unfold receive_announce. repeat case_match; done.
  - unfold receive_response. destruct (decode_timesync_response pkt) as [resp| |] eqn:Er; [|by left..].
    destruct (pending_request st0) as [p|] eqn:Ep; [|by left].
    destruct (Z.eqb_spec (pr_seq p) (rsp_seq resp)) as [Hseq|]; [|by left].
    case_bool_decide; [|by left]. right. by exists p, resp.
Qed.

(** ** Polling *)

(** The leader a poll elects. *)
Definition elected (now_ms now_ns : Z) (st : TimeSyncRuntime) : option TimeSyncLeader :=
  let st := expire now_ms st in snd (elect now_ms (timesync_has_usable_time_locked st now_ns) st).

Definition leads (name : Str) (l : option TimeSyncLeader) : Prop :=
  exists r, l = Some (Remote r) /\ src_sender r = name.

Lemma announce_leads now_ms usable st p :
  announce_priority_of now_ms usable (fst (elect now_ms usable st)) = Some p ->
  exists q, snd (elect now_ms usable st) = Some (Local q).
Proof.
  unfold announce_priority_of, elect. destruct (rt_tracker st) as [tr|] eqn:Et; cbn; [|by rewrite Et].
  unfold local_announce_priority. destruct (leader _ _ _) as [[q|]|]; [|done..]. by exists q.
Qed.

Lemma poll_spec now_ms now_ns st :
  let '(st', (announce, request)) := poll_locked now_ms now_ns st in
  let l := elected now_ms now_ns st in
  rt_cfg st' = rt_cfg st
  /\ (announce = None \/ request = None)
  /\ match announce with
     | Some p => exists c q, rt_cfg st = Some c /\ l = Some (Local q) /\ next_announce_mono_ms st <= now_ms
         /\ next_announce_mono_ms st' = sat_add64 now_ms (announce_interval_ms c)
     | None => next_announce_mono_ms st' = next_announce_mono_ms st
     end
  /\ match request with
     | Some (seq, t1) => seq = rt_next_seq st /\ t1 = now_ms /\ rt_next_seq st' = next_request_seq seq
         /\ exists r, l = Some (Remote r)
            /\ pending_request st' = Some {| pr_seq := seq; pr_t1_mono_ms := now_ms; pr_source := src_sender r |}
     | None => rt_next_seq st' = rt_next_seq st
         /\ (rt_cfg st <> None -> forall p, pending_request st' = Some p ->
               pending_request st = Some p /\ leads (pr_source p) l)
     end
  /\ (forall p, pending_request st = Some p -> leads (pr_source p) l -> request = None /\ pending_request st' = Some p).
Proof.
  unfold poll_locked, elected. set (st0 := expire now_ms st).
  change (rt_cfg st) with (rt_cfg st0). change (rt_next_seq st) with (rt_next_seq st0).
  change (next_announce_mono_ms st) with (next_announce_mono_ms st0).
  change (pending_request st) with (pending_request st0). clearbody st0.
  destruct (rt_cfg st0) as [c|] eqn:Ec; [|cbn; rewrite Ec; naive_solver].
  set (usable := timesync_has_usable_time_locked st0 now_ns).
  pose proof (announce_leads now_ms usable st0) as Hal. pose proof (schedule_elect now_ms usable st0) as Hse.
  destruct (elect now_ms usable st0) as [st1 l]. cbn [fst snd] in *.
  destruct (reconcile_schedule l now_ms st1) as (Hrc & Hra & Hrs & Hrp & Hrk).
  set (st2 := reconcile_pending_timesync_request_locked l now_ms st1) in *.
  pose proof (schedule_follow now_ns l st2) as Hsf. set (st3 := follow now_ns l st2) in *. clearbody st3 st2.
  injection Hse as Hc1 Hs1 Ha1 Hq1 Hp1. injection Hsf as Hc3 Hs3 Ha3 Hq3 Hp3.
  rewrite Hc1, Ec in Hrc. rewrite Hrc in Hc3. rewrite Ha1 in Hra. rewrite Hra in Ha3. rewrite Hs1 in Hrs.
  rewrite Hrs in Hs3. rewrite Hp1 in Hrp, Hrk.
  assert (forall p r, pending_request st0 = Some p -> l = Some (Remote r) -> pr_source p = src_sender r ->
            pending_request st3 = Some p) as Hkeep.
  { intros p r Hp Hl Hr. rewrite Hp3, (Hrk p r Hp Hl Hr), Hp1. done. }
  assert (forall p, pending_request st3 = Some p -> pending_request st0 = Some p /\ leads (pr_source p) l) as Hsub.
  { intros p Hp. rewrite Hp3 in Hp. destruct (Hrp p Hp) as (? & r & -> & Hr). split; [done|]. by exists r. }
  unfold poll_announce, poll_request.
  destruct (announce_priority_of now_ms usable st1) as [p|].
  - destruct (Hal p eq_refl) as [q ->].
    destruct (Z.leb_spec (next_announce_mono_ms st3) now_ms) as [Hdue|]; cbn;
      (split_and!; [done|by right| |done|done|by intros p' ? (? & ? & ?)]).
    + exists c, q. by rewrite <- Ha3.
    + done.
  - assert (forall p, pending_request st0 = Some p -> leads (pr_source p) l ->
              pending_request st3 = Some p) as Hbusy.
    { intros p Hp (r & Hl & Hr). by apply (Hkeep p r). }
    destruct l as [[q|r]|]; cbn.
    + split_and!; [done|by left|done|done|done|by intros p' ? (? & ? & ?)].
    + destruct (Z.leb_spec (next_request_mono_ms st3) now_ms) as [Hdue|]; cbn;
        [destruct (some (pending_request st3)) eqn:Es; cbn|];
        [split_and!; [done|by left|done|done|done|auto]| |split_and!; [done|by left|done|done|done|auto]].
      split_and!; [done|by left|done|done|done|by rewrite Hs3|by exists r|].
      intros p Hp Hl. by rewrite (Hbusy p Hp Hl) in Es.
    + split_and!; [done|by left|done|done|done|by intros p' ? (? & ? & ?)].
Qed.
End Exchange.

(** ** Runs: polls and received packets, in any order *)

Inductive TimeEvent :=
| PollAt (now_ms now_ns : Z)
| ReceiveAt (pkt : Packet) (now_ms now_ns : Z).

Section Runs.
Context `{Config} `{Schema}.
Context (c : TimeSyncConfig).

Definition time_step (e : TimeEvent) (st : TimeSyncRuntime) : TimeSyncRuntime * list (Z * PollOutput) :=
  match e with
  | PollAt now_ms now_ns => let '(st, out) := poll_locked now_ms now_ns st in (st, [(now_ms, out)])
  | ReceiveAt pkt now_ms now_ns => (fst (handle_locked c pkt now_ms now_ns st), [])
  end.

(** The final state, and what each poll sent, with its time. *)
Fixpoint time_run (events : list TimeEvent) (st : TimeSyncRuntime) : TimeSyncRuntime * list (Z * PollOutput) :=
  match events with
  | [] => (st, [])
  | e :: events =>
      let '(st, out) := time_step e st in
      let '(st, out') := time_run events st in (st, out ++ out')
  end.

Definition announced_at (l : list (Z * PollOutput)) : list Z :=
  map fst (List.filter (fun e => some (fst (snd e))) l).

Definition requests (l : list (Z * PollOutput)) : list (Z * Z) := omap (fun e => snd (snd e)) l.

Lemma receive_keeps_schedule pkt now_ms now_ns st :
  rt_cfg (fst (handle_locked c pkt now_ms now_ns st)) = rt_cfg st
  /\ next_announce_mono_ms (fst (handle_locked c pkt now_ms now_ns st)) = next_announce_mono_ms st.
Proof.
  destruct (receive_schedule c pkt now_ms now_ns st) as [Hs|(p & resp & _ & _ & _ & _ & Hs)];
    injection Hs as Hc _ Ha _ _; by rewrite Hc, Ha.
Qed.

Lemma run_spaced cc events st :
  rt_cfg st = Some cc ->
  let ts := announced_at (snd (time_run events st)) in
  Sorted (fun a b => sat_add64 a (announce_interval_ms cc) <= b) ts
  /\ HdRel Z.le (next_announce_mono_ms st) ts.
Proof.
  revert st. induction events as [|e events IH]; intros st Hc; cbn [time_run].
  { split; constructor. }
  destruct e as [now_ms now_ns|pkt now_ms now_ns]; cbn [time_step].
  - pose proof (poll_spec now_ms now_ns st) as Hp.
    destruct (poll_locked now_ms now_ns st) as [st1 [announce request]].
    destruct Hp as (Hc1 & _ & Hann & _). rewrite Hc in Hc1. specialize (IH st1 Hc1).
    destruct (time_run events st1) as [st2 out]. cbn [snd] in *. destruct IH as [Hs Hh].
    destruct announce as [p|]; cbn.
    + destruct Hann as (cc' & q & Hcc & _ & Hdue & Hnext). rewrite Hc in Hcc. injection Hcc as <-.
      rewrite Hnext in Hh. split; [constructor; [done|]|by constructor].
      change (map fst _) with (announced_at out). destruct (announced_at out); constructor. by inversion Hh.
    + by rewrite Hann in Hh.
  - destruct (receive_keeps_schedule pkt now_ms now_ns st) as [Hc1 Ha1].
    set (st1 := fst (handle_locked c pkt now_ms now_ns st)) in *. rewrite Hc in Hc1. specialize (IH st1 Hc1).
    rewrite Ha1 in IH. by destruct (time_run events st1).
Qed.

(** Announcements are never sent faster than the configured interval, whatever
    is received in between and however often the application polls; and the
    first is not before the state's own due time. *)
Theorem announcements_spaced cc events st :
  rt_cfg st = Some cc ->
  let ts := announced_at (snd (time_run events st)) in
  Sorted (fun a b => sat_add64 a (announce_interval_ms cc) <= b) ts
  /\ forall a, head ts = Some a -> next_announce_mono_ms st <= a.
Proof.
  intros Hc ts. destruct (run_spaced cc events st Hc) as [Hs Hh]. split; [done|]. intros a Ha.
  subst ts. destruct (announced_at _); [done|]. injection Ha as ->. by inversion Hh.
Qed.

(** [name] stays the leader of every poll, and nothing answers the request [p]. *)
Fixpoint unanswered (p : PendingTimeSyncRequest) (events : list TimeEvent) (st : TimeSyncRuntime) : Prop :=
  match events with
  | [] => True
  | e :: events =>
      match e with
      | PollAt now_ms now_ns => leads (pr_source p) (elected now_ms now_ns st)
      | ReceiveAt pkt _ _ =>
          forall resp, decode_timesync_response pkt = Ok resp -> rsp_seq resp = pr_seq p -> sender pkt <> pr_source p
      end /\ unanswered p events (fst (time_step e st))
  end.

(** A request whose response is lost is never given up: as long as the leader
    stays the same, whatever else is received and however long it takes, the
    router sends it no further request. *)
Theorem lost_response_stops_requests p events st :
  pending_request st = Some p -> unanswered p events st ->
  let '(st', out) := time_run events st in
  requests out = [] /\ pending_request st' = Some p.
Proof.
  revert st. induction events as [|e events IH]; intros st Hp; cbn [unanswered time_run]; [by intros _|].
  destruct e as [now_ms now_ns|pkt now_ms now_ns]; cbn [time_step]; intros [Hq Hu].
  - pose proof (poll_spec now_ms now_ns st) as Hs.
    destruct (poll_locked now_ms now_ns st) as [st1 [announce request]].
    destruct Hs as (_ & _ & _ & _ & Hk). destruct (Hk p Hp Hq) as [-> Hp1].
    specialize (IH st1 Hp1 Hu). by destruct (time_run events st1).
  - destruct (receive_schedule c pkt now_ms now_ns st) as [Hs|(p' & resp & Hp' & Hd & Hseq & Hsnd & _)].
    + injection Hs as _ _ _ _ Hp1. rewrite Hp in Hp1. specialize (IH _ Hp1 Hu). by destruct (time_run events _).
    + rewrite Hp in Hp'. injection Hp' as <-. by destruct (Hq resp).
Qed.
End Runs.

(** ** One exchange *)

Lemma sample_range t1 t2 t3 t4 : 0 <= t3 -> is_u64 (fst (compute_network_time_sample t1 t2 t3 t4)).
Proof.
  intros H3'. cbn. assert (0 <= sat_sub (sat_sub t4 t1) (sat_sub t3 t2) / 2) by (apply Z.div_pos; zlia). zlia.
Qed.

Lemma first_steer_reads c now target :
  initialized c = false -> is_u64 target -> read_unix_ms (steer_unix_ms c now target) now = Some target.
Proof.
  intros Hi Ht. unfold steer_unix_ms. rewrite Hi. cbn [negb].
  assert (sat_sub now now = 0) as He by zlia.
  unfold read_unix_ms, read_unix_ns, applied_adjust_ns, elapsed_since.
  cbn [initialized anchor_mono_ns anchor_unix_ns pending_adjust_ns max_slew_ppm negb mbind option_bind].
  rewrite He. assert (sat_mul_i128 0 (max_slew_ppm c) = 0) as -> by (unfold sat_mul_i128; zlia).
  change (Z.quot 0 1000000) with 0. change (0 <=? 0) with true. cbn [negb]. rewrite Z.min_id.
  unfold is_u64 in Ht. assert (sat_add_i128 (sat_add_i128 (target * 1000000) 0) 0 = target * 1000000) as -> by zlia.
  destruct (Z.ltb_spec (target * 1000000) 0); [lia|]. rewrite Z.quot_mul by done.
  destruct (Z.ltb_spec u64_max target); [zlia|done].
Qed.

Section OneExchange.
Context `{Config} `{Schema}.

Lemma response_decodes name ts seq t1 t2 t3 rsp :
  STACK_PAYLOAD_SIZE < 256 -> is_u64 seq -> is_u64 t1 -> is_u64 t2 -> is_u64 t3 ->
  packet_new TimeSyncResponse [EpTimeSync] name ts (encode_slice_le PU64 [seq; t1; t2; t3]) = Ok rsp ->
  ty rsp = TimeSyncResponse /\ sender rsp = name
  /\ decode_timesync_response rsp = Ok {| rsp_seq := seq; rsp_t1_ms := t1; rsp_t2_ms := t2; rsp_t3_ms := t3 |}.
Proof.
  intros Hst Hs H1' H2' H3' Hp.
  assert (Forall (prim_ok PU64) [seq; t1; t2; t3]) as Hv
    by (repeat (apply List.Forall_cons; [done|]); apply List.Forall_nil).
  destruct (words_packet _ _ _ _ _ _ [seq; t1; t2; t3] name ts Hst response_meta) as (q & Hq & Hty & Hsn & _ & _ & Hd);
    [done..|].
  rewrite Hp in Hq. injection Hq as <-. split; [done|]. split; [done|].
  unfold decode_timesync_response. by rewrite (decode_words rsp _ _ [seq; t1; t2; t3]).
Qed.

(** C37. A request, the server's answer and its reception: the server answers with
    its own time, and the client's new sample of the server is wrong by at most
    half the round trip, whatever the delays [d1] and [d2] of the two
    directions and the difference [theta] of the two clocks; the request is
    settled, and a client that had no time yet now reads the sample. *)
Theorem exchange_correct cb reqp st_b tr_b now_b now_b_ns ca st_a tr_a now_a_ns name ts rsp seq t1 d1 d2 theta :
  STACK_PAYLOAD_SIZE < 256 -> is_u64 seq -> 0 <= t1 -> 0 <= d1 -> 0 <= d2 ->
  t1 + d1 + d2 < 2 ^ 62 -> 0 <= t1 + d1 + theta -> t1 + 2 * d1 + d2 + theta < 2 ^ 62 ->
  ty reqp = TimeSyncRequest -> decode_timesync_request reqp = Ok {| req_seq := seq; req_t1_ms := t1 |} ->
  rt_tracker st_b = Some tr_b ->
  (let st := expire now_b st_b in
   should_serve tr_b now_b (timesync_has_usable_time_locked st now_b_ns) = true
   /\ served_time now_b now_b_ns st = t1 + d1 + theta) ->
  rt_tracker st_a = Some tr_a ->
  pending_request st_a = Some {| pr_seq := seq; pr_t1_mono_ms := t1; pr_source := name |} ->
  exists t2 t3, snd (handle_locked cb reqp now_b now_b_ns st_b) = Ok (Handled (Some (seq, t1, t2, t3)) false)
  /\ (packet_new TimeSyncResponse [EpTimeSync] name ts (encode_slice_le PU64 [seq; t1; t2; t3]) = Ok rsp ->
      let t4 := t1 + d1 + d2 in
      let '(st, r) := handle_locked ca rsp t4 now_a_ns st_a in
      r = Ok (Handled None false) /\ pending_request st = None
      /\ exists s, bt_get name (remote_sources st) = Some s /\ rt_last_sample_mono_ms s = t4
         /\ 2 * Z.abs (rt_sample_unix_ms s - (t4 + theta)) <= d1 + d2 + 1
         /\ (initialized (disciplined_clock st_a) = false ->
             read_unix_ms (disciplined_clock st) now_a_ns = Some (rt_sample_unix_ms s))).
Proof.
  intros Hst Hseq Ht1 Hd1 Hd2 Hb4 Ht2 Hb3 Hty Hdec Htb [Hserve Hserved] Hta Hpend.
  assert (rt_tracker (expire now_b st_b) = Some tr_b) as Htb' by done.
  exists (t1 + d1 + theta), (t1 + d1 + theta). split.
  { unfold handle_locked. rewrite Htb', Hty. rewrite Z.eqb_refl.
    assert (TimeSyncRequest =? TimeSyncAnnounce = false) as ->
      by (apply Z.eqb_neq; unfold TimeSyncRequest, TimeSyncAnnounce; lia).
    cbn [snd]. unfold receive_request. rewrite Hserve, Hdec. cbn [res_bind mbind res_mbind req_seq req_t1_ms].
    by rewrite Hserved. }
  intros Hnew t4. destruct (response_decodes name ts seq t1 (t1 + d1 + theta) (t1 + d1 + theta) rsp) as (Hrty & Hrs & Hrd);
    [done|done|unfold is_u64; lia..|done|].
  pose proof (estimators_sound t1 theta d1 d2 0) as Hest. cbn zeta in Hest.
  rewrite !Z.add_0_r in Hest. destruct (compute_network_time_sample t1 (t1 + d1 + theta) (t1 + d1 + theta) (t1 + d1 + d2))
    as [sample one_way] eqn:Es.
  pose proof (sample_range t1 (t1 + d1 + theta) (t1 + d1 + theta) (t1 + d1 + d2) Ht2) as Hrange. rewrite Es in Hrange.
  destruct Hest as (_ & _ & _ & Hest); [lia..|].
  unfold handle_locked. set (st0 := expire t4 st_a).
  assert (rt_tracker st0 = Some tr_a) as -> by done. rewrite Hrty.
  assert (TimeSyncResponse =? TimeSyncAnnounce = false) as ->
    by (apply Z.eqb_neq; unfold TimeSyncResponse, TimeSyncAnnounce; lia).
  assert (TimeSyncResponse =? TimeSyncRequest = false) as ->
    by (apply Z.eqb_neq; unfold TimeSyncResponse, TimeSyncRequest; lia).
  rewrite Z.eqb_refl. unfold receive_response. rewrite Hrd.
  assert (pending_request st0 = pending_request st_a) as -> by done. rewrite Hpend.
  cbn [pr_seq rsp_seq pr_source pr_t1_mono_ms rsp_t2_ms rsp_t3_ms]. rewrite Z.eqb_refl, Hrs, bool_decide_true by done.
  cbn [andb]. subst t4. rewrite Es. cbn [fst]. split; [done|]. split; [done|].
  eexists. split; [apply bt_get_insert_eq|]. cbn [rt_last_sample_mono_ms rt_sample_unix_ms]. split; [done|].
  split; [exact Hest|]. intros Hi. cbn [disciplined_clock set_request set_disciplined]. by apply first_steer_reads.
Qed.
End OneExchange.

(** ** Concrete runs *)

Definition leading_node : TimeSyncRuntime := @runtime_new default_config (Some
  {| role := Source; ts_priority := 10; source_timeout_ms := 5000; announce_interval_ms := 1000;
     request_interval_ms := 1000; consumer_promotion_enabled := true; cfg_max_slew_ppm := 50000 |}).

Lemma announcements_spaced_witness :
  let ts := announced_at (snd (@time_run default_config default_schema default_timesync
              [PollAt 0 0; PollAt 500 0; PollAt 1000 0; PollAt 1999 0; PollAt 2000 0] leading_node)) in
  ts = [0; 1000; 2000] /\ Sorted (fun a b => sat_add64 a 1000 <= b) ts.
Proof.
  split; [vm_compute; reflexivity|].
  exact (proj1 (@announcements_spaced default_config default_schema default_timesync _
    [PollAt 0 0; PollAt 500 0; PollAt 1000 0; PollAt 1999 0; PollAt 2000 0] leading_node eq_refl)).
Defined.

(** A node that has heard [b] and asked it for the time. *)
Definition heard_b (now_ms : Z) : TimeEvent := ReceiveAt
  (the_packet (@build_timesync_announce_with_sender default_config default_schema (lit "b") 5 (1000000 + now_ms))) now_ms 0.

Definition asking_node : TimeSyncRuntime :=
  fst (@time_run default_config default_schema default_timesync [heard_b 0; PollAt 10 0]
         (@runtime_new default_config (Some default_timesync))).

Definition asked : PendingTimeSyncRequest := {| pr_seq := 1; pr_t1_mono_ms := 10; pr_source := lit "b" |}.

Definition later_events : list TimeEvent :=
  [PollAt 1010 0; heard_b 3000; PollAt 5000 0; heard_b 7000; PollAt 9000 0].

Lemma lost_response_stops_requests_witness :
  let '(st, out) := @time_run default_config default_schema default_timesync later_events asking_node in
  requests out = [] /\ pending_request st = Some asked.
Proof.
  apply (@lost_response_stops_requests default_config default_schema default_timesync asked later_events asking_node).
  - vm_compute. reflexivity.
  - cbn [unanswered later_events heard_b].
    repeat (split; [first [ eexists; split; [vm_compute; reflexivity|vm_compute; reflexivity]
                          | intros resp Hr; exfalso; vm_compute in Hr; discriminate Hr ]|]). exact I.
Defined.

Definition time_request : Packet :=
  the_packet (@packet_new default_config default_schema (@TimeSyncRequest default_schema) [@EpTimeSync default_schema]
                (lit "a") 0 (encode_slice_le PU64 [1; 10])).

(** A server whose clock reads 5000 when the request arrives. *)
Definition serving_node : TimeSyncRuntime :=
  set_disciplined (steer_unix_ms (slewed_new 50000) 0 5000) leading_node.

Definition time_response : Packet :=
  the_packet (@packet_new default_config default_schema (@TimeSyncResponse default_schema) [@EpTimeSync default_schema]
                (lit "b") 0 (encode_slice_le PU64 [1; 10; 5000; 5000])).

Lemma exchange_correct_witness :
  let '(st, r) := @handle_locked default_config default_schema default_timesync time_response (10 + 20 + 15) 0 asking_node in
  pending_request st = None /\ exists s, bt_get (lit "b") (remote_sources st) = Some s
    /\ 2 * Z.abs (rt_sample_unix_ms s - (10 + 20 + 15 + 4970)) <= 20 + 15 + 1.
Proof.
  destruct (@exchange_correct default_config default_schema default_timesync time_request serving_node
    (@tracker_new default_config {| role := Source; ts_priority := 10; source_timeout_ms := 5000;
       announce_interval_ms := 1000; request_interval_ms := 1000; consumer_promotion_enabled := true;
       cfg_max_slew_ppm := 50000 |}) 0 0 default_timesync asking_node
    (default (@tracker_new default_config default_timesync) (rt_tracker asking_node)) 0
    (lit "b") 0 time_response 1 10 20 15 4970
    ltac:(vm_compute; reflexivity) ltac:(split; vm_compute; (reflexivity || discriminate))
    ltac:(lia) ltac:(lia) ltac:(lia) ltac:(lia) ltac:(lia) ltac:(lia)
    ltac:(vm_compute; reflexivity) ltac:(vm_compute; reflexivity) ltac:(vm_compute; reflexivity)
    ltac:(split; vm_compute; reflexivity) ltac:(vm_compute; reflexivity) ltac:(vm_compute; reflexivity))
    as (t2 & t3 & Hr & Hx).
  assert (t2 = 5000 /\ t3 = 5000) as [-> ->].
  { vm_compute in Hr. injection Hr as <- <-. split; reflexivity. }
  specialize (Hx ltac:(vm_compute; reflexivity)). cbn zeta in Hx.
  clear Hr. revert Hx. destruct (handle_locked _ _ _ _ _) as [st r]. intros (_ & Hp & s & Hg & _ & He & _).
  split; [exact Hp|]. exists s. split; [exact Hg|exact He].
Defined.
