(* ===== verification/Plan.v ===== *)
(** * Where an item goes ([src/router.rs])

    The router's own configuration, the classification of packet types, the
    end-to-end acknowledgement naming, and [remote_side_plan]: which sides an
    item is sent to, from the return routes, the discovered routes and the
    flooding fallback, handed to the selection modes of [Routes]. *)

From stdpp Require Import gmap.
From S2P Require Import Prelude Ordered Telemetry Config Schema Queue SmallPayload Wire Packet Serialize Calendar TimeSync Discovery RouterState Routes Reliable.

(** ** The router's configuration *)

(** Which callback an endpoint handler holds; the callback is the user's. *)
Inductive EndpointHandlerFn := PacketHandler | SerializedHandler.

Record EndpointHandler := { endpoint : DataEndpoint; handler : EndpointHandlerFn }.

Record RouterConfig := {
  handlers : list EndpointHandler;
  cfg_reliable_enabled : bool;
  cfg_sender : option Str;
  cfg_timesync : option TimeSyncConfig
}.

(** [Router]: the name it sends under, and its configuration. *)
Record Router := { router_sender : Str; router_cfg : RouterConfig }.

Definition side_fresh (now : Z) (route : DiscoverySideState) : bool :=
  sat_sub now (side_last_seen_ms route) <=? DISCOVERY_ROUTE_TTL_MS.

Fixpoint strip_prefix (prefix s : Str) : option Str :=
  match prefix, s with
  | [], s => Some s
  | _ :: _, [] => None
  | p :: prefix, c :: s => if bool_decide (p = c) then strip_prefix prefix s else None
  end.

Definition END_TO_END_ACK_SENDER : Str := lit "E2EACK".
Definition END_TO_END_ACK_PREFIX : Str := lit "E2EACK:".

Definition is_end_to_end_ack_sender (s : Str) : bool :=
  bool_decide (s = END_TO_END_ACK_SENDER) || is_some (strip_prefix END_TO_END_ACK_PREFIX s).

Definition sender_hash (s : Str) : Z := hash_bytes_u64 0x517CC1B727220A95 s.

Definition decode_end_to_end_ack_sender_hash (s : Str) : option Z :=
  match strip_prefix END_TO_END_ACK_PREFIX s with
  | Some [] => None
  | Some ack_sender => Some (sender_hash ack_sender)
  | None => None
  end.

Definition is_end_to_end_destination_sender (s : Str) : bool :=
  negb (bool_decide (s = lit "RELAY")) && negb (is_end_to_end_ack_sender s).

Definition encode_end_to_end_reliable_ack (id : Z) : list byte := le_bytes 8 id.

Definition decode_end_to_end_reliable_ack (l : list byte) : TelemetryResult Z :=
  if blen l =? 8 then Ok (le_value l) else Err (Deserialize "bad reliable e2e ack payload").

Section Plan.
Context `{Config} `{Schema} `{External} `{Layout} `{RouterLayout}.
Context (self : Router).

Definition router_config_sender (c : RouterConfig) : Str := default DEVICE_IDENTIFIER (cfg_sender c).

Definition endpoint_is_router_internal (ep : DataEndpoint) : bool :=
  (ep =? EpTimeSync) || is_discovery_endpoint ep.

(** [RouterConfig::new]: its [assert!] panics. *)
Definition router_config_new (hs : list EndpointHandler) : TelemetryResult RouterConfig :=
  if forallb (fun h => negb (endpoint_is_router_internal (endpoint h))) hs then
    Ok {| handlers := hs; cfg_reliable_enabled := true; cfg_sender := None; cfg_timesync := None |}
  else Panic.

Definition is_local_endpoint (ep : DataEndpoint) : bool :=
  if endpoint_is_router_internal ep then false
  else existsb (fun h => endpoint h =? ep) (handlers (router_cfg self)).

Definition has_nonlocal_endpoint (eps : list DataEndpoint) : bool :=
  existsb (fun ep => negb (is_local_endpoint ep) && negb (is_link_local_only ep)) eps.

Definition is_reliable_control_type (t : DataType) : bool :=
  (t =? ReliableAck) || (t =? ReliablePartialAck) || (t =? ReliablePacketRequest).

Definition is_timesync_type (t : DataType) : bool :=
  (t =? TimeSyncAnnounce) || (t =? TimeSyncRequest) || (t =? TimeSyncResponse).

Definition is_internal_control_type (t : DataType) : bool :=
  is_reliable_control_type t || is_timesync_type t || is_discovery_type t.

Definition handles (f : EndpointHandlerFn) (ep : DataEndpoint) : bool :=
  existsb (fun h => (endpoint h =? ep) &&
    match f, handler h with
    | PacketHandler, PacketHandler | SerializedHandler, SerializedHandler => true
    | _, _ => false
    end) (handlers (router_cfg self)).

Definition endpoint_has_packet_handler := handles PacketHandler.
Definition endpoint_has_serialized_handler := handles SerializedHandler.

Definition has_local_handler (ep : DataEndpoint) : bool :=
  endpoint_has_packet_handler ep || endpoint_has_serialized_handler ep.

Definition packet_has_local_handler (p : Packet) : bool := existsb has_local_handler (pkt_endpoints p).

(** ** Route information of an item *)

Definition item_route_info (d : RouterItem) : TelemetryResult (list DataEndpoint * DataType) :=
  match d with
  | RPacket pkt => _ ← validate pkt; Ok (sort_dedup (pkt_endpoints pkt), ty pkt)
  | RSerialized bytes => env ← peek_envelope bytes; Ok (sort_dedup (env_endpoints env), env_ty env)
  end.

Definition endpoints_are_link_local_only (eps : list DataEndpoint) : bool :=
  negb (bool_decide (eps = [])) && forallb is_link_local_only eps.

Definition packet_control_target (pkt : Packet) : TelemetryResult (option Z) :=
  if negb (ty pkt =? ReliableAck) || negb (is_end_to_end_ack_sender (sender pkt)) then Ok None
  else
    data ← payload_bytes pkt;
    id ← decode_end_to_end_reliable_ack data;
    Ok (Some id).

Definition reliable_control_target_packet_id (d : RouterItem) : TelemetryResult (option Z) :=
  match d with
  | RPacket pkt => packet_control_target pkt
  | RSerialized bytes => pkt ← deserialize_packet bytes; packet_control_target pkt
  end.

(** [tracker] is the time-sync tracker behind its own lock. *)
Definition packet_timesync_source (tracker : option TimeSyncTracker) (pkt : Packet) (t : DataType) : option Str :=
  if (t =? TimeSyncRequest) && bool_decide (sender pkt = router_sender self) then
    tr ← tracker; src_sender <$> current_source tr
  else if (t =? TimeSyncAnnounce) || (t =? TimeSyncResponse) then Some (sender pkt)
  else None.

Definition preferred_timesync_route_source (tracker : option TimeSyncTracker) (d : RouterItem) (t : DataType)
    : TelemetryResult (option Str) :=
  if negb (is_timesync_type t) then Ok None
  else match d with
       | RPacket pkt => Ok (packet_timesync_source tracker pkt t)
       | RSerialized bytes => pkt ← deserialize_packet bytes; Ok (packet_timesync_source tracker pkt t)
       end.

(** ** The plan *)

Definition side_link_local (st : RouterInner) (side : RouterSideId) : bool :=
  match side_at st side with Some s => link_local_enabled (opts s) | None => false end.

Definition serves_source (preferred : option Str) (route : DiscoverySideState) : bool :=
  match preferred with
  | Some src => bool_decide (src ∈ side_timesync_sources route)
  | None => false
  end.

Definition reaches (eps : list DataEndpoint) (route : DiscoverySideState) : bool :=
  existsb (fun ep => bool_decide (ep ∈ reachable route)) eps.

(** The loop over the discovered routes: the sides that lead to the preferred
    time source, and those that lead to an endpoint of the item. *)
Fixpoint scan_routes (st : RouterInner) (exclude : option RouterSideId) (t : DataType)
    (eps : list DataEndpoint) (restrict_link_local : bool) (preferred : option Str) (now : Z)
    (l : list (RouterSideId * DiscoverySideState)) : list RouterSideId * list RouterSideId :=
  match l with
  | [] => ([], [])
  | (side, route) :: l =>
      let '(exact, generic) := scan_routes st exclude t eps restrict_link_local preferred now l in
      if bool_decide (exclude = Some side) || negb (side_fresh now route) then (exact, generic)
      else if restrict_link_local && negb (side_link_local st side) then (exact, generic)
      else if negb (route_allowed_locked st exclude (Some t) side) then (exact, generic)
      else if serves_source preferred route then (side :: exact, generic)
      else if reaches eps route then (exact, side :: generic)
      else (exact, generic)
  end.

(** What a plan chooses from: a fixed answer, or candidates that go through
    [apply_route_selection_locked]. *)
Inductive plan_choice :=
| Exactly (l : list RouterSideId)
| Among (l : list RouterSideId) (origin : RouteSelectionOrigin).

Definition flood (st : RouterInner) (exclude : option RouterSideId) (t : DataType) (restrict_link_local : bool)
    : plan_choice :=
  Among (eligible_side_ids_locked st exclude (Some t) restrict_link_local) Flood.

Definition return_route (st : RouterInner) (exclude : option RouterSideId) (t : DataType) (id : Z) : plan_choice :=
  match reliable_return_routes st !! id with
  | Some side => if route_allowed_locked st exclude (Some t) side then Exactly [side] else Exactly []
  | None => Exactly []
  end.

Definition no_known_route (st : RouterInner) (exclude : option RouterSideId) (t : DataType)
    (eps : list DataEndpoint) : plan_choice :=
  if endpoints_are_link_local_only eps then flood st exclude t true
  else if has_nonlocal_endpoint eps || is_timesync_type t then flood st exclude t false
  else Exactly [].

(** Time sources first, then endpoints, then the fallback. *)
Definition discovered_choice (st : RouterInner) (exclude : option RouterSideId) (t : DataType)
    (eps : list DataEndpoint) (preferred : option Str) (now : Z) (origin : RouteSelectionOrigin)
    (routes : list (RouterSideId * DiscoverySideState)) : plan_choice :=
  match scan_routes st exclude t eps (endpoints_are_link_local_only eps) preferred now routes with
  | ((_ :: _) as exact, _) => Among exact origin
  | ([], (_ :: _) as generic) => Among generic origin
  | ([], []) => no_known_route st exclude t eps
  end.

Definition plan_choice_of (tracker : option TimeSyncTracker) (now : Z) (d : RouterItem)
    (exclude : option RouterSideId) (st : RouterInner) : TelemetryResult plan_choice :=
  '(eps, t) ← item_route_info d;
  preferred_packet_id ← reliable_control_target_packet_id d;
  if is_discovery_type t then Ok (flood st exclude t false)
  else
    preferred ← preferred_timesync_route_source tracker d t;
    Ok (match preferred_packet_id with
        | Some id => return_route st exclude t id
        | None =>
            let origin := if is_reliable_type t then Flood else Discovered in
            match discovery_routes st with
            | [] => no_known_route st exclude t eps
            | routes =>
                discovered_choice st exclude t eps preferred now origin routes
            end
        end).

Definition remote_side_plan (tracker : option TimeSyncTracker) (now : Z) (d : RouterItem)
    (exclude : option RouterSideId) : RM (list RouterSideId) := fun st =>
  match plan_choice_of tracker now d exclude st with
  | Ok (Exactly l) => (st, Ok l)
  | Ok (Among l origin) => let '(st, r) := apply_route_selection_locked exclude l origin st in (st, Ok r)
  | Err e => (st, Err e)
  | Panic => (st, Panic)
  end.

Definition should_route_remote (tracker : option TimeSyncTracker) (now : Z) (d : RouterItem)
    (exclude : option RouterSideId) : RM bool :=
  l ← remote_side_plan tracker now d exclude;
  mret (negb (bool_decide (l = []))).

(** The two clock readings of the two plans are [now] and [now']. *)
Definition broadcast_sides (tracker : option TimeSyncTracker) (now now' : Z) (d : RouterItem)
    : RM (list RouterSideId) :=
  send_remote ← should_route_remote tracker now d None;
  if negb send_remote then mret [] else remote_side_plan tracker now' d None.

Fixpoint push_to_sides (src : option RouterSideId) (d : RouterItem) (ignore : bool) (prio : Z)
    (l : list RouterSideId) : RM unit :=
  match l with
  | [] => mret tt
  | side :: l =>
      _ ← push_transmit {| txq_item := ToSide src side d; ignore_local := ignore; txq_priority := prio |};
      push_to_sides src d ignore prio l
  end.

Definition enqueue_to_sides (tracker : option TimeSyncTracker) (now : Z) (d : RouterItem)
    (exclude : option RouterSideId) (ignore : bool) : RM unit :=
  l ← remote_side_plan tracker now d exclude;
  prio ← lift (router_item_priority d);
  push_to_sides exclude d ignore prio l.
End Plan.

(** ** What a plan answers *)

Lemma pick_weighted_sub w r l x : x ∈ pick_weighted w r l -> x ∈ l.
Proof.
  revert r. induction l as [|y l IH]; intros r; cbn [pick_weighted]; [done|].
  case_match; [set_solver|]. intros Hx%IH. set_solver.
Qed.

Lemma pick_weighted_nodup w r l : NoDup (pick_weighted w r l).
Proof. revert r. induction l as [|y l IH]; intros r; cbn; [constructor|]. case_match; [apply NoDup_singleton|done]. Qed.

Lemma selected_cursor src l origin st :
  fst (apply_route_selection_locked src l origin st) = st
  \/ exists c, fst (apply_route_selection_locked src l origin st) = with_cursor src c st.
Proof.
  unfold apply_route_selection_locked, apply_adaptive_discovery_selection_locked, bump_cursor. cbn zeta.
  repeat case_match; cbn [fst]; eauto; right; eexists; reflexivity.
Qed.

Lemma take_sub {A} n (l : list A) x : x ∈ take n l -> x ∈ l.
Proof. rewrite <- (take_drop n l) at 2. set_solver. Qed.

Lemma selected_sub src l origin st x : x ∈ snd (apply_route_selection_locked src l origin st) -> x ∈ l.
Proof.
  unfold apply_route_selection_locked, apply_adaptive_discovery_selection_locked. cbn zeta.
  repeat case_match; cbn [snd]; try done; try set_solver;
    repeat first [rewrite pick_weighted_sub | intros ?%pick_weighted_sub | intros ?%take_sub];
    try (by rewrite (sort_perm _ l) in * ).
  intros ->%list_elem_of_singleton.
  match goal with H : _ !! _ = Some _ |- _ => apply list_elem_of_lookup_2 in H end.
  match goal with H : List.filter _ _ = _, Hin : _ ∈ _ :: _ |- _ => rewrite <- H, elem_of_List_filter in Hin end.
  destruct_and!. by rewrite (sort_perm id l) in *.
Qed.

Lemma selected_nodup src l origin st : NoDup l -> NoDup (snd (apply_route_selection_locked src l origin st)).
Proof.
  intros Hl. unfold apply_route_selection_locked, apply_adaptive_discovery_selection_locked. cbn zeta.
  repeat case_match; cbn [snd]; try done; try apply pick_weighted_nodup; try apply NoDup_singleton; try constructor;
    (eapply sublist_NoDup; [|apply sublist_take]; by rewrite (sort_perm _ l)).
Qed.

Section Correct.
Context `{Config} `{Schema} `{External} `{Layout} `{RouterLayout}.
Context (self : Router).

(** A discovered side an item may use: alive, not the one it came from,
    admitted by the policy, and link-local when it must be. *)
Definition usable (st : RouterInner) (exclude : option RouterSideId) (t : DataType)
    (restrict_link_local : bool) (now : Z) (side : RouterSideId) (route : DiscoverySideState) : Prop :=
  exclude <> Some side /\ side_fresh now route = true
  /\ (restrict_link_local = true -> side_link_local st side = true)
  /\ route_policy st exclude (Some t) side.

Lemma exists_cons {A B} (P : A -> B -> Prop) s a b l :
  (exists v, (s, v) ∈ (a, b) :: l /\ P s v) <-> (s = a /\ P a b) \/ (exists v, (s, v) ∈ l /\ P s v).
Proof.
  split.
  - intros (v & [[= -> ->]|Hin]%elem_of_cons & HP); eauto.
  - intros [[-> HP]|(v & Hin & HP)]; [exists b|exists v]; rewrite elem_of_cons; auto.
Qed.

Lemma scan_routes_spec st exclude t eps restrict preferred now l s :
  (s ∈ fst (scan_routes st exclude t eps restrict preferred now l) <->
   exists route, (s, route) ∈ l /\ usable st exclude t restrict now s route /\ serves_source preferred route = true)
  /\ (s ∈ snd (scan_routes st exclude t eps restrict preferred now l) <->
   exists route, (s, route) ∈ l /\ usable st exclude t restrict now s route
     /\ serves_source preferred route = false /\ reaches eps route = true).
Proof.
  induction l as [|[side route] l [IHe IHg]]; cbn [scan_routes fst snd].
  { split; (split; [by intros ?%elem_of_nil|]); intros (? & ?%elem_of_nil & _); done. }
  destruct (scan_routes st exclude t eps restrict preferred now l) as [exact generic]. cbn [fst snd] in IHe, IHg.
  assert ((bool_decide (exclude = Some side) || negb (side_fresh now route) = false
           /\ restrict && negb (side_link_local st side) = false
           /\ negb (route_allowed_locked st exclude (Some t) side) = false)
          <-> usable st exclude t restrict now side route) as Hu.
  { unfold usable. rewrite orb_false_iff, bool_decide_eq_false, !negb_false_iff, andb_false_iff, negb_false_iff,
      route_allowed_spec. destruct restrict; naive_solver. }
  rewrite (exists_cons (fun s route => usable st exclude t restrict now s route /\ serves_source preferred route = true)),
    (exists_cons (fun s route => usable st exclude t restrict now s route
       /\ serves_source preferred route = false /\ reaches eps route = true)), <- IHe, <- IHg.
  destruct (bool_decide (exclude = Some side) || negb (side_fresh now route)) eqn:E1;
    [|destruct (restrict && negb (side_link_local st side)) eqn:E2;
      [|destruct (negb (route_allowed_locked st exclude (Some t) side)) eqn:E3;
        [|destruct (serves_source preferred route) eqn:E4; [|destruct (reaches eps route) eqn:E5]]]];
    cbn [fst snd]; rewrite ?elem_of_cons, <- Hu; intuition congruence.
Qed.

Lemma scan_routes_sub st exclude t eps restrict preferred now l :
  fst (scan_routes st exclude t eps restrict preferred now l) `sublist_of` map fst l
  /\ snd (scan_routes st exclude t eps restrict preferred now l) `sublist_of` map fst l.
Proof.
  induction l as [|[side route] l [IHe IHg]]; cbn [scan_routes fst snd map]; [done|].
  destruct (scan_routes st exclude t eps restrict preferred now l) as [exact generic]. cbn [fst snd] in *.
  repeat case_match; cbn [fst snd]; split; eauto using sublist.
Qed.

Definition choice_sides (c : plan_choice) : list RouterSideId :=
  match c with Exactly l => l | Among l _ => l end.

(** Every side a plan may choose is admitted for the item's type and source;
    an ordinary link-local item only considers link-local sides. *)
Definition choice_safe (st : RouterInner) (exclude : option RouterSideId) (d : RouterItem) (c : plan_choice) : Prop :=
  exists eps t, item_route_info d = Ok (eps, t)
  /\ (forall s, s ∈ choice_sides c -> route_policy st exclude (Some t) s)
  /\ (endpoints_are_link_local_only eps = true -> is_discovery_type t = false ->
      reliable_control_target_packet_id d = Ok None ->
      forall s, s ∈ choice_sides c -> side_link_local st s = true).

Lemma eligible_safe st exclude t restrict s :
  s ∈ eligible_side_ids_locked st exclude (Some t) restrict ->
  route_policy st exclude (Some t) s /\ (restrict = true -> side_link_local st s = true).
Proof.
  intros Hs. apply elem_of_List_filter in Hs as [_ Hs]. unfold side_eligible, side_link_local in *.
  destruct (side_at st s) as [d|]; [|done].
  destruct restrict; cbn [andb] in Hs; [|split; [by apply route_allowed_spec|done]].
  destruct (link_local_enabled (opts d)); cbn [negb] in Hs; [|done]. split; [by apply route_allowed_spec|done].
Qed.

Lemma no_known_route_safe st exclude t eps s :
  s ∈ choice_sides (no_known_route self st exclude t eps) ->
  route_policy st exclude (Some t) s
  /\ (endpoints_are_link_local_only eps = true -> side_link_local st s = true).
Proof.
  unfold no_known_route, flood. destruct (endpoints_are_link_local_only eps); cbn [choice_sides].
  - intros Hs%eligible_safe. naive_solver.
  - case_match; cbn [choice_sides]; [intros Hs%eligible_safe; naive_solver|by intros ?%elem_of_nil].
Qed.

Lemma discovered_choice_safe st exclude t eps preferred now origin routes s :
  s ∈ choice_sides (discovered_choice self st exclude t eps preferred now origin routes) ->
  route_policy st exclude (Some t) s
  /\ (endpoints_are_link_local_only eps = true -> side_link_local st s = true).
Proof.
  unfold discovered_choice.
  destruct (scan_routes_spec st exclude t eps (endpoints_are_link_local_only eps) preferred now routes s) as [He Hg].
  destruct (scan_routes _ _ _ _ _ _ _ _) as [exact generic]. cbn [fst snd] in He, Hg.
  destruct exact as [|x exact]; [destruct generic as [|y generic]; [apply no_known_route_safe|]|]; cbn [choice_sides].
  - intros (? & _ & (_ & _ & Hll & Hp) & _)%Hg. by split.
  - intros (? & _ & (_ & _ & Hll & Hp) & _)%He. by split.
Qed.

Lemma plan_choice_safe tracker now d exclude st c :
  plan_choice_of self tracker now d exclude st = Ok c -> choice_safe st exclude d c.
Proof.
  unfold plan_choice_of. intros ([eps t] & Hi & (id & Hid & Hc)%bind_ok)%bind_ok.
  exists eps, t. split; [done|]. destruct (is_discovery_type t) eqn:Hd.
  { injection Hc as <-. split; [|done]. intros s Hs%eligible_safe. naive_solver. }
  apply bind_ok in Hc as (preferred & _ & [= <-]). destruct id as [id|].
  { split; [|naive_solver congruence]. unfold return_route. intros s.
    destruct (reliable_return_routes st !! id) as [side|]; [|by intros ?%elem_of_nil].
    destruct (route_allowed_locked st exclude (Some t) side) eqn:E; cbn [choice_sides]; [|by intros ?%elem_of_nil].
    intros ->%list_elem_of_singleton. by apply route_allowed_spec. }
  cbn zeta. pose proof (no_known_route_safe st exclude t eps) as Hn.
  pose proof (discovered_choice_safe st exclude t eps preferred now) as Hc.
  destruct (discovery_routes st) as [|e l]; split; intros; solve [by apply Hn | by eapply Hc].
Qed.

Lemma plan_choice_nodup tracker now d exclude st c :
  bt_sorted (discovery_routes st) -> plan_choice_of self tracker now d exclude st = Ok c -> NoDup (choice_sides c).
Proof.
  intros Hs. unfold plan_choice_of. intros ([eps t] & _ & (id & _ & Hc)%bind_ok)%bind_ok.
  assert (forall restrict, NoDup (eligible_side_ids_locked st exclude (Some t) restrict)) as He
    by (intros; apply NoDup_ListNoDup, List.NoDup_filter, NoDup_ListNoDup, NoDup_seqZ).
  assert (NoDup (choice_sides (no_known_route self st exclude t eps))) as Hn
    by (unfold no_known_route; repeat case_match; cbn; solve [apply He | constructor]).
  destruct (is_discovery_type t); [injection Hc as <-; apply He|].
  apply bind_ok in Hc as (preferred & _ & [= <-]). destruct id as [id|].
  { unfold return_route. repeat case_match; cbn; try apply NoDup_singleton; constructor. }
  cbn zeta. assert (NoDup (map fst (discovery_routes st))) as Hk by by apply bt_keys_nodup.
  assert (forall routes, NoDup (map fst routes) ->
    NoDup (choice_sides (discovered_choice self st exclude t eps preferred now
      (if is_reliable_type t then Flood else Discovered) routes))) as Hd.
  { intros routes Hr. unfold discovered_choice.
    destruct (scan_routes_sub st exclude t eps (endpoints_are_link_local_only eps) preferred now routes) as [Se Sg].
    destruct (scan_routes _ _ _ _ _ _ _ _) as [exact generic]. cbn [fst snd] in Se, Sg.
    repeat case_match; try done; cbn [choice_sides]; by eapply sublist_NoDup. }
  destruct (discovery_routes st); [done|by apply Hd].
Qed.

(** An item that is neither discovery, time-sync nor an end-to-end
    acknowledgement. *)
Definition ordinary (d : RouterItem) (eps : list DataEndpoint) (t : DataType) : Prop :=
  item_route_info d = Ok (eps, t) /\ reliable_control_target_packet_id d = Ok None
  /\ is_discovery_type t = false /\ is_timesync_type t = false.

(** The discovered sides that lead to one of the item's endpoints. *)
Definition known_side (st : RouterInner) (exclude : option RouterSideId) (eps : list DataEndpoint) (t : DataType)
    (now : Z) (s : RouterSideId) : Prop :=
  exists route, (s, route) ∈ discovery_routes st
    /\ usable st exclude t (endpoints_are_link_local_only eps) now s route /\ reaches eps route = true.

Definition undiscovered_sides (st : RouterInner) (exclude : option RouterSideId) (eps : list DataEndpoint)
    (t : DataType) : list RouterSideId :=
  if endpoints_are_link_local_only eps then eligible_side_ids_locked st exclude (Some t) true
  else if has_nonlocal_endpoint self eps then eligible_side_ids_locked st exclude (Some t) false
  else [].

Lemma ordinary_choice tracker now d exclude st eps t :
  ordinary d eps t ->
  exists c, plan_choice_of self tracker now d exclude st = Ok c
  /\ ((exists s, known_side st exclude eps t now s) ->
      exists k, c = Among k (if is_reliable_type t then Flood else Discovered)
        /\ k `sublist_of` bt_keys (discovery_routes st)
        /\ forall s, s ∈ k <-> known_side st exclude eps t now s)
  /\ ((forall s, ~ known_side st exclude eps t now s) ->
      c = Among (undiscovered_sides st exclude eps t) Flood \/ c = Exactly [] /\ undiscovered_sides st exclude eps t = []).
Proof.
  intros (Hi & Hid & Hd & Ht). unfold plan_choice_of. rewrite Hi. cbn [res_bind mbind res_mbind].
  rewrite Hid. cbn [res_bind mbind res_mbind]. rewrite Hd. unfold preferred_timesync_route_source. rewrite Ht.
  cbn [negb res_bind mbind res_mbind]. cbn zeta. unfold known_side.
  set (undiscovered := undiscovered_sides st exclude eps t).
  assert (no_known_route self st exclude t eps = Among undiscovered Flood
          \/ no_known_route self st exclude t eps = Exactly [] /\ undiscovered = []) as Hn.
  { unfold no_known_route, undiscovered, undiscovered_sides, flood. rewrite Ht, orb_false_r. repeat case_match; auto. }
  clearbody undiscovered. set (origin := if is_reliable_type t then Flood else Discovered). clearbody origin.
  assert (forall routes, let c := discovered_choice self st exclude t eps None now origin routes in
    let known s := exists route, (s, route) ∈ routes
      /\ usable st exclude t (endpoints_are_link_local_only eps) now s route /\ reaches eps route = true in
    ((exists s, known s) -> exists k, c = Among k origin /\ k `sublist_of` bt_keys routes /\ forall s, s ∈ k <-> known s)
    /\ ((forall s, ~ known s) -> c = Among undiscovered Flood \/ c = Exactly [] /\ undiscovered = [])) as Hdc.
  { intros routes. cbn zeta. unfold discovered_choice.
    pose proof (fun s => scan_routes_spec st exclude t eps (endpoints_are_link_local_only eps) None now routes s) as Hs.
    pose proof (proj2 (scan_routes_sub st exclude t eps (endpoints_are_link_local_only eps) None now routes)) as Hsub.
    destruct (scan_routes _ _ _ _ _ _ _ _) as [exact generic]. cbn [fst snd serves_source] in Hs, Hsub.
    destruct exact as [|x exact].
    2: { destruct (proj1 (proj1 (Hs x)) ltac:(set_solver)) as (? & _ & _ & [=]). }
    assert (forall s, s ∈ generic <-> exists route, (s, route) ∈ routes
      /\ usable st exclude t (endpoints_are_link_local_only eps) now s route /\ reaches eps route = true) as Hg.
    { intros s. rewrite (proj2 (Hs s)). naive_solver. }
    destruct generic as [|y generic].
    - split; [|done]. intros [s Hk%Hg]. set_solver.
    - split; [eauto|]. intros Hno. exfalso. apply (Hno y), Hg. set_solver. }
  eexists. split; [reflexivity|]. destruct (discovery_routes st) as [|e l]; [|apply Hdc].
  split; [|done]. intros (s & route & Hin%elem_of_nil & _). done.
Qed.

Lemma sum_weights_sublist w l k : (forall s, 0 <= w s) -> l `sublist_of` k -> sum_weights w l <= sum_weights w k.
Proof.
  intros Hw. induction 1 as [|x l k _ IH|x l k _ IH]; [done|..];
    change (sum_weights w (x :: ?l)) with (w x + sum_weights w l); pose proof (Hw x).
  - change (sum_weights w (x :: l)) with (w x + sum_weights w l). lia.
  - lia.
Qed.

(** The selection when no mode is set for the source. *)
Lemma modeless_selection st src k origin s :
  source_route_modes st !! src = None -> weights_ok st -> sum_weights (adaptive_weight st) k < 2 ^ 64 -> s ∈ k ->
  let r := snd (apply_route_selection_locked src k origin st) in
  match origin with Flood => r = k | Discovered => exists x, r = [x] /\ x ∈ k end.
Proof.
  intros Hm Hok Hs Hin. cbn zeta. unfold apply_route_selection_locked. rewrite Hm. cbn [is_some negb andb].
  destruct (Z.leb_spec (nlen k) 1) as [Hl|Hl].
  { destruct origin; [done|]. destruct k as [|x [|y k]]; [by apply elem_of_nil in Hin|exists x; set_solver|].
    unfold nlen in Hl. cbn in Hl. lia. }
  destruct origin; [rewrite bool_decide_false by done; done|rewrite bool_decide_true by done].
  destruct (apply_adaptive_discovery_selection_locked src k st) as [st' r] eqn:E.
  destruct (adaptive_selected st src k st' r Hok) as (x & -> & Hx & _); [unfold nlen in Hl; lia|done|done|eauto].
Qed.

(** The discovered sides that lead to a time source. *)
Definition serving_side (st : RouterInner) (exclude : option RouterSideId) (eps : list DataEndpoint) (t : DataType)
    (now : Z) (src : Str) (s : RouterSideId) : Prop :=
  exists route, (s, route) ∈ discovery_routes st
    /\ usable st exclude t (endpoints_are_link_local_only eps) now s route /\ src ∈ side_timesync_sources route.

Lemma eligible_admitted st exclude t s :
  s ∈ eligible_side_ids_locked st exclude (Some t) false <-> 0 <= s /\ route_policy st exclude (Some t) s.
Proof.
  unfold eligible_side_ids_locked. rewrite elem_of_List_filter, elem_of_seqZ. unfold side_eligible. cbn [andb].
  rewrite <- route_allowed_spec. destruct (side_at st s) as [sd|] eqn:E.
  - pose proof (fun H => side_at_range st s sd H E) as Hr. intuition lia.
  - split; [naive_solver|]. intros [_ Ha%route_allowed_spec]. destruct Ha as ((d & Hd & _) & _). congruence.
Qed.

Lemma discovery_choice tracker now d exclude st eps t o :
  item_route_info d = Ok (eps, t) -> reliable_control_target_packet_id d = Ok o -> is_discovery_type t = true ->
  plan_choice_of self tracker now d exclude st = Ok (Among (eligible_side_ids_locked st exclude (Some t) false) Flood).
Proof.
  intros Hi Ho Ht. unfold plan_choice_of. rewrite Hi. cbn [res_bind mbind res_mbind]. rewrite Ho. cbn [res_bind mbind res_mbind].
  by rewrite Ht.
Qed.

Lemma return_choice tracker now d exclude st eps t id :
  item_route_info d = Ok (eps, t) -> reliable_control_target_packet_id d = Ok (Some id) ->
  is_discovery_type t = false -> is_timesync_type t = false ->
  exists l, plan_choice_of self tracker now d exclude st = Ok (Exactly l)
  /\ (forall side, reliable_return_routes st !! id = Some side -> route_policy st exclude (Some t) side -> l = [side])
  /\ ((forall side, reliable_return_routes st !! id = Some side -> ~ route_policy st exclude (Some t) side) -> l = []).
Proof.
  intros Hi Ho Hd Ht. unfold plan_choice_of. rewrite Hi. cbn [res_bind mbind res_mbind]. rewrite Ho. cbn [res_bind mbind res_mbind].
  rewrite Hd. unfold preferred_timesync_route_source. rewrite Ht. cbn [negb res_bind mbind res_mbind]. unfold return_route.
  destruct (reliable_return_routes st !! id) as [side|].
  - destruct (route_allowed_locked st exclude (Some t) side) eqn:Ha; (eexists; split; [reflexivity|]);
      (split; [intros x [= <-]|intros Hn]).
    + done.
    + destruct (Hn side eq_refl). by apply route_allowed_spec.
    + intros Hp%route_allowed_spec. congruence.
    + done.
  - eexists. split; [reflexivity|]. split; [by intros x [=]|done].
Qed.

Lemma serving_choice tracker now d exclude st eps t src :
  item_route_info d = Ok (eps, t) -> reliable_control_target_packet_id d = Ok None -> is_discovery_type t = false ->
  preferred_timesync_route_source self tracker d t = Ok (Some src) ->
  (exists s, serving_side st exclude eps t now src s) ->
  exists k, plan_choice_of self tracker now d exclude st = Ok (Among k (if is_reliable_type t then Flood else Discovered))
  /\ k `sublist_of` bt_keys (discovery_routes st) /\ forall s, s ∈ k <-> serving_side st exclude eps t now src s.
Proof.
  intros Hi Ho Hd Hp [s0 Hs0]. unfold plan_choice_of. rewrite Hi. cbn [res_bind mbind res_mbind]. rewrite Ho.
  cbn [res_bind mbind res_mbind]. rewrite Hd, Hp. cbn [res_bind mbind res_mbind]. cbn zeta.
  set (origin := if is_reliable_type t then Flood else Discovered). clearbody origin.
  assert (forall routes, routes = discovery_routes st ->
    exists k, discovered_choice self st exclude t eps (Some src) now origin routes = Among k origin
    /\ k `sublist_of` bt_keys routes /\ forall s, s ∈ k <-> serving_side st exclude eps t now src s) as Hk.
  { intros routes ->. unfold discovered_choice.
    pose proof (fun s => scan_routes_spec st exclude t eps (endpoints_are_link_local_only eps) (Some src) now (discovery_routes st) s) as Hs.
    pose proof (proj1 (scan_routes_sub st exclude t eps (endpoints_are_link_local_only eps) (Some src) now (discovery_routes st))) as Hsub.
    destruct (scan_routes _ _ _ _ _ _ _ _) as [exact generic]. cbn [fst snd serves_source] in Hs, Hsub.
    assert (forall s, s ∈ exact <-> serving_side st exclude eps t now src s) as He.
    { intros s. rewrite (proj1 (Hs s)). unfold serving_side. by setoid_rewrite bool_decide_eq_true. }
    destruct exact as [|x exact]; [by apply He, elem_of_nil in Hs0|]. eauto. }
  destruct (discovery_routes st) as [|e l] eqn:El.
  - destruct Hs0 as (route & Hin & _). rewrite El in Hin. by apply elem_of_nil in Hin.
  - destruct (Hk _ eq_refl) as (k & -> & Hr). eauto.
Qed.

Lemma select_flood st src l :
  source_route_modes st !! src = None -> snd (apply_route_selection_locked src l Flood st) = l.
Proof.
  intros Hm. destruct l as [|x l]; [done|]. unfold apply_route_selection_locked. rewrite Hm. cbn [is_some negb andb].
  rewrite bool_decide_false by done. by destruct (nlen (x :: l) <=? 1).
Qed.

Lemma planned_sides tracker now d exclude st :
  bt_sorted (discovery_routes st) -> weights_ok st ->
  sum_weights (adaptive_weight st) (bt_keys (discovery_routes st)) < 2 ^ 64 ->
  let '(st', r) := remote_side_plan self tracker now d exclude st in
  (st' = st \/ exists c, st' = with_cursor exclude c st)
  /\ (forall l, r = Ok l -> NoDup l /\ choice_safe st exclude d (Exactly l))
  /\ (forall eps t, ordinary d eps t -> source_route_modes st !! exclude = None ->
      exists l, r = Ok l
      /\ ((exists s, known_side st exclude eps t now s) ->
          if is_reliable_type t then forall s, s ∈ l <-> known_side st exclude eps t now s
          else exists s, l = [s] /\ known_side st exclude eps t now s)
      /\ ((forall s, ~ known_side st exclude eps t now s) -> l = undiscovered_sides st exclude eps t)).
Proof.
  intros Hsorted Hok Hsum. destruct (remote_side_plan self tracker now d exclude st) as [st' r] eqn:E.
  unfold remote_side_plan in E.
  destruct (plan_choice_of self tracker now d exclude st) as [c|e|] eqn:Ec.
  2,3: injection E as <- <-; split; [by left|]; split; [done|]; intros eps t Ho;
    destruct (ordinary_choice tracker now d exclude st eps t Ho) as (c & Hc & _); congruence.
  pose proof (plan_choice_safe _ _ _ _ _ _ Ec) as (eps' & t' & Hi & Hpol & Hll).
  pose proof (plan_choice_nodup _ _ _ _ _ _ Hsorted Ec) as Hnd.
  assert ((st' = st \/ exists c, st' = with_cursor exclude c st)
    /\ exists l, r = Ok l /\ NoDup l /\ (forall s, s ∈ l -> s ∈ choice_sides c)
    /\ match c with Exactly k => l = k
       | Among k origin => l = snd (apply_route_selection_locked exclude k origin st) end)
    as (Hst & l & -> & Hl & Hsub & Hsel).
  { destruct c as [l|l origin]; [injection E as <- <-; eauto 10|]. cbn [choice_sides] in *.
    destruct (apply_route_selection_locked exclude l origin st) as [st1 l1] eqn:Es. injection E as <- <-.
    pose proof (selected_cursor exclude l origin st) as Hc. pose proof (selected_nodup exclude l origin st Hnd) as Hn.
    pose proof (selected_sub exclude l origin st) as Hsb. rewrite Es in Hc, Hn, Hsb. cbn [fst snd] in Hc, Hn, Hsb.
    split; [done|]. exists l1. eauto. }
  split; [done|]. split.
  { intros l' [= <-]. split; [done|]. exists eps', t'. cbn [choice_sides]. split; [done|]. split; eauto. }
  intros eps t Ho Hm. destruct (ordinary_choice tracker now d exclude st eps t Ho) as (c' & Hc' & Hk & Hu).
  rewrite Ec in Hc'. injection Hc' as <-. exists l. split; [done|]. split.
  - intros Hex. destruct (Hk Hex) as (k & -> & Hkeys & Hks). destruct Hex as [s0 Hs0%Hks].
    pose proof (sum_weights_sublist (adaptive_weight st) _ _
      ltac:(intros s; pose proof (adaptive_weight_pos st s); lia) Hkeys) as Hle.
    pose proof (modeless_selection st exclude k (if is_reliable_type t then Flood else Discovered) s0 Hm Hok
      ltac:(lia) Hs0) as Hr. cbn zeta in Hr. rewrite <- Hsel in Hr.
    destruct (is_reliable_type t); [by rewrite Hr|]. destruct Hr as (x & -> & Hx). exists x. by rewrite <- Hks.
  - intros Hno. destruct (Hu Hno) as [->|[-> ->]]; [|done]. rewrite Hsel. clear -Hm.
    destruct (undiscovered_sides st exclude eps t) as [|s u]; [done|].
    unfold apply_route_selection_locked. rewrite Hm. cbn [is_some negb andb]. rewrite bool_decide_false by done.
    by destruct (nlen (s :: u) <=? 1).
Qed.


(** *** Planning twice

    [tx_item_impl] asks [should_route_remote], which plans, and then plans
    again: each broadcast advances the cursor of a weighted source by two. *)

Fixpoint broadcast_times (tracker : option TimeSyncTracker) (l : list (RouterItem * Z * Z)) (st : RouterInner)
    : list (TelemetryResult (list RouterSideId)) :=
  match l with
  | [] => []
  | (d, now, now') :: l =>
      let '(st, r) := broadcast_sides self tracker now now' d st in r :: broadcast_times tracker l st
  end.

Lemma scan_routes_cursor st src c exclude t eps restrict preferred now l :
  scan_routes (with_cursor src c st) exclude t eps restrict preferred now l
  = scan_routes st exclude t eps restrict preferred now l.
Proof. induction l as [|[side route] l IH]; [done|]. cbn [scan_routes]. rewrite IH. reflexivity. Qed.

Lemma plan_choice_cursor tracker now d exclude src c st :
  plan_choice_of self tracker now d exclude (with_cursor src c st) = plan_choice_of self tracker now d exclude st.
Proof.
  unfold plan_choice_of. destruct (item_route_info d) as [[eps t]| |]; cbn [res_bind mbind res_mbind]; [|done..].
  destruct (reliable_control_target_packet_id d) as [o| |]; cbn [res_bind mbind res_mbind]; [|done..].
  case_match; [reflexivity|]. destruct (preferred_timesync_route_source self tracker d t) as [preferred| |];
    cbn [res_bind mbind res_mbind]; [|done..]. f_equal. destruct o; [reflexivity|]. cbn zeta.
  unfold discovered_choice. change (discovery_routes (with_cursor src c st)) with (discovery_routes st).
  destruct (discovery_routes st); [reflexivity|]. by rewrite scan_routes_cursor.
Qed.

Section Weighted.
Context (tracker : option TimeSyncTracker) (l : list RouterSideId) (origin : RouteSelectionOrigin).

(** The broadcasts of one source that all choose among the sides [l]. *)
Definition chooses_among (st : RouterInner) (b : RouterItem * Z * Z) : Prop :=
  let '(d, now, now') := b in
  plan_choice_of self tracker now d None st = Ok (Among l origin)
  /\ plan_choice_of self tracker now' d None st = Ok (Among l origin).

Context (st : RouterInner).
Let w := route_weight st None.
Let W := sum_weights w l.
Context (Hok : weights_ok st) (Hlen : (2 <= length l)%nat) (HW : 0 < W < 2 ^ 64)
  (Hmode : source_route_modes st !! None = Some Weighted).

(** [st] itself, or with its cursor moved to [c]. *)
Definition at_cursor (c : Z) (st' : RouterInner) : Prop :=
  st' = with_cursor None c st \/ st' = st /\ c = cursor_of st None.

Lemma weighted_plan now d c st' :
  plan_choice_of self tracker now d None st = Ok (Among l origin) -> at_cursor c st' ->
  remote_side_plan self tracker now d None st'
  = (with_cursor None (wrap 64 (c + 1)) st, Ok (pick_weighted w (c mod W) (sort_by_key id l))).
Proof.
  intros Hc [->|[-> ->]]; unfold remote_side_plan; rewrite ?plan_choice_cursor, Hc;
    (rewrite weighted_call by (done || exact HW || exact (fun s => route_weight_nonneg st None s Hok)));
    [by rewrite bump_with, cursor_with|done].
Qed.

Lemma weighted_broadcast b c st' :
  chooses_among st b -> at_cursor c st' -> 0 <= c -> c + 2 <= 2 ^ 64 ->
  let '(d, now, now') := b in
  broadcast_sides self tracker now now' d st'
  = (with_cursor None (wrap 64 (c + 2)) st, Ok (pick_weighted w ((c + 1) mod W) (sort_by_key id l))).
Proof.
  destruct b as [[d now] now']. intros [Hc1 Hc2] Hat H0c Hb. unfold broadcast_sides, should_route_remote.
  rewrite RM_run, RM_run, (weighted_plan now d c) by done. cbn [mret RM_ret].
  destruct (pick_weighted_one w (c mod W) (sort_by_key id l)) as (s & -> & _ & _).
  { intros s. by apply route_weight_nonneg. }
  { rewrite (sum_weights_perm w _ l) by apply sort_perm. apply HW. }
  { rewrite (sum_weights_perm w _ l) by apply sort_perm. apply Z.mod_pos_bound. lia. }
  rewrite bool_decide_false by done. cbn [negb].
  rewrite wrap_small by lia. rewrite (weighted_plan now' d (c + 1)) by (done || by left). do 3 f_equal. lia.
Qed.

Lemma weighted_broadcasts bs c st' :
  Forall (chooses_among st) bs -> at_cursor c st' -> 0 <= c -> c + 2 * nlen bs <= 2 ^ 64 ->
  broadcast_times tracker bs st'
  = map (fun i => Ok (pick_weighted w ((c + 2 * i + 1) mod W) (sort_by_key id l))) (seqZ 0 (nlen bs)).
Proof.
  intros Hall. revert c st'. induction Hall as [|b bs Hb Hall IH]; intros c st' Hat Hc Hn; [done|].
  assert (nlen (b :: bs) = nlen bs + 1) as Hl by (unfold nlen; cbn; lia). rewrite Hl in *.
  assert (0 <= nlen bs) by (unfold nlen; lia).
  pose proof (weighted_broadcast b c st' Hb Hat Hc ltac:(lia)) as Hs. destruct b as [[d now] now'].
  cbn [broadcast_times]. rewrite Hs. rewrite seqZ_cons by lia. cbn [map]. f_equal; [do 3 f_equal; lia|].
  destruct bs as [|b' bs]; [done|]. assert (1 <= nlen (b' :: bs)) by (unfold nlen; cbn; lia).
  rewrite wrap_small, (IH (c + 2)) by (lia || by left).
  replace (Z.pred (nlen (b' :: bs) + 1)) with (nlen (b' :: bs)) by lia.
  replace (seqZ (Z.succ 0) (nlen (b' :: bs))) with (map (Z.add 1) (seqZ 0 (nlen (b' :: bs))))
    by apply (fmap_add_seqZ 1 0).
  rewrite map_map. apply map_ext. intros i. do 3 f_equal. lia.
Qed.

(** Weighted routing through the transmit path is not round robin.  A
    broadcast plans twice and sends by the second plan only, so a run of
    broadcasts visits every other slot of the cycle; if the weights add up to
    an even number, half of the slots are never used, and of two sides of
    weight 1 one receives everything. *)
Theorem broadcast_skips_slots bs :
  Forall (chooses_among st) bs -> 0 <= cursor_of st None -> cursor_of st None + 2 * nlen bs <= 2 ^ 64 ->
  broadcast_times tracker bs st
    = map (fun i => Ok (pick_weighted w ((cursor_of st None + 2 * i + 1) mod W) (sort_by_key id l))) (seqZ 0 (nlen bs))
  /\ ((forall s, s ∈ l -> w s = 1) -> length l = 2%nat ->
      exists s, s ∈ l /\ forall r, r ∈ broadcast_times tracker bs st -> r = Ok [s]).
Proof.
  intros Hall Hc Hn. rewrite (weighted_broadcasts bs (cursor_of st None) st) by (done || by right).
  split; [done|]. intros Hone Htwo.
  assert (W = 2) as HW2.
  { unfold W, sum_weights. destruct l as [|a [|b [|]]]; try done. cbn. rewrite !Hone by set_solver. done. }
  set (c := cursor_of st None) in *.
  destruct (pick_weighted_one w ((c + 1) mod W) (sort_by_key id l)) as (s & Hs & Hin & _).
  { intros s. by apply route_weight_nonneg. }
  { rewrite (sum_weights_perm w _ l) by apply sort_perm. apply HW. }
  { rewrite (sum_weights_perm w _ l) by apply sort_perm. apply Z.mod_pos_bound. lia. }
  exists s. split; [by rewrite (sort_perm id l) in Hin|]. intros r (i & -> & Hi)%list_elem_of_fmap.
  rewrite <- Hs. do 2 f_equal. rewrite HW2. replace (c + 2 * i + 1) with (c + 1 + i * 2) by lia.
  by apply Z.mod_add.
Qed.
End Weighted.
End Correct.

(** ** Witnesses *)

Definition plain_router : Router :=
  {| router_sender := lit "BOARD";
     router_cfg := {| handlers := [{| endpoint := 1; handler := PacketHandler |}]; cfg_reliable_enabled := true;
               cfg_sender := None; cfg_timesync := None |} |}.

(** The two sides of [rust-example-code/load_balancing_example.rs]. *)
Definition two_sides : RouterInner :=
  fst (set_source_route_mode None Weighted 0 (fst (add_side (lit "WAN_B") HPacket side_options_default 0
    (fst (add_side (lit "WAN_A") HPacket side_options_default 0 fresh_inner))))).

Definition documented_sides : RouterInner := fst (set_route_weight None 0 3 0 two_sides).

(** One announcer behind side 1 of [three_sides] that reaches endpoint 0. *)
Definition discovered_sides : RouterInner :=
  set_discovery_routes
    [(1, {| reachable := [0]; side_timesync_sources := []; side_last_seen_ms := 5;
            announcers := [(lit "GPS", {| ds_reachable := [0]; ds_timesync_sources := [];
              topology_boards := [board_of "GPS" [0] []]; ds_last_seen_ms := 5 |})] |})]
    (fst (set_source_route_mode None Fanout 0 three_sides)).

Lemma gps_ordinary :
  @ordinary default_config default_schema run_external (RPacket gps_packet) [0; 1] 0.
Proof. repeat split; vm_compute; reflexivity. Qed.

Lemma two_sides_weights st :
  route_selection_cursors st = ∅ -> (forall k v, route_weights st !! k = Some v -> 0 <= v) -> weights_ok st.
Proof. intros Hc Hw. split; [done|]. intros k c. rewrite Hc. by rewrite lookup_empty. Qed.


(** Sixteen broadcasts of equal weight: side 0 gets none of them. *)
Lemma broadcast_skips_slots_witness :
  let bs := replicate 16 (RPacket gps_packet, 0, 0) in
  (exists s, s ∈ [0; 1] /\ forall r, r ∈ @broadcast_times default_config default_schema run_external plain_router None bs two_sides -> r = Ok [s])
  /\ @broadcast_times default_config default_schema run_external plain_router None bs two_sides = replicate 16 (Ok [1]).
Proof.
  cbn zeta. split; [|vm_compute; reflexivity].
  refine (proj2 (@broadcast_skips_slots default_config default_schema run_external plain_router None [0; 1] Flood two_sides
    _ (le_n 2) _ _ (replicate 16 (RPacket gps_packet, 0, 0)) _ _ _) _ eq_refl).
  - apply two_sides_weights; [reflexivity|]. intros k v. vm_compute. discriminate.
  - vm_compute. split; reflexivity.
  - vm_compute. reflexivity.
  - apply Forall_replicate. split; vm_compute; reflexivity.
  - vm_compute. discriminate.
  - vm_compute. discriminate.
  - intros s _. vm_compute. destruct s; reflexivity.
Defined.

(** The documented 3 : 1 split comes out as 1 : 1. *)
Example documented_split :
  @broadcast_times default_config default_schema run_external plain_router None
    (replicate 6 (RPacket gps_packet, 0, 0)) documented_sides
  = [Ok [0]; Ok [1]; Ok [0]; Ok [1]; Ok [0]; Ok [1]].
Proof. vm_compute. reflexivity. Qed.
