(* ===== verification/Topology.v ===== *)
(** * The discovered routes of a router ([src/router.rs])

    What a router keeps about each side it hears announcements on, how the
    summaries are recomputed, which routes expire, and what the router in turn
    advertises over a link. *)

From stdpp Require Import gmap.
From S2P Require Import Prelude Ordered Telemetry Config Schema Queue SmallPayload Wire Packet Serialize Calendar TimeSync Discovery RouterState Routes Reliable TimeRuntime Plan.

(** ** One announcer *)

Definition sender_state_new : DiscoverySenderState :=
  {| ds_reachable := []; ds_timesync_sources := []; topology_boards := []; ds_last_seen_ms := 0 |}.

Definition side_state_new : DiscoverySideState :=
  {| reachable := []; side_timesync_sources := []; side_last_seen_ms := 0; announcers := [] |}.

(** The board [sender_topology_board_mut] finds or creates, and a change to it. *)
Definition sender_topology_board (id : Str) (l : list TopologyBoardNode) : TopologyBoardNode :=
  default (empty_board id) (List.find (fun b => bool_decide (sender_id b = id)) l).

Fixpoint sender_topology_board_mut (id : Str) (f : TopologyBoardNode -> TopologyBoardNode)
    (l : list TopologyBoardNode) : list TopologyBoardNode :=
  match l with
  | [] => [f (empty_board id)]
  | b :: l => if bool_decide (sender_id b = id) then f b :: l else b :: sender_topology_board_mut id f l
  end.

Definition with_boards (boards : list TopologyBoardNode) (s : DiscoverySenderState) : DiscoverySenderState :=
  {| ds_reachable := ds_reachable s; ds_timesync_sources := ds_timesync_sources s;
     topology_boards := boards; ds_last_seen_ms := ds_last_seen_ms s |}.

Definition with_endpoints (eps : list DataEndpoint) (b : TopologyBoardNode) : TopologyBoardNode :=
  {| sender_id := sender_id b; reachable_endpoints := eps;
     reachable_timesync_sources := reachable_timesync_sources b; connections := connections b |}.

Definition with_timesync_sources (srcs : list Str) (b : TopologyBoardNode) : TopologyBoardNode :=
  {| sender_id := sender_id b; reachable_endpoints := reachable_endpoints b;
     reachable_timesync_sources := srcs; connections := connections b |}.

Definition refresh_sender_topology_state (s : DiscoverySenderState) : DiscoverySenderState :=
  let boards := normalize_topology_boards (topology_boards s) in
  let '(eps, srcs) := summarize_topology_boards boards in
  {| ds_reachable := eps; ds_timesync_sources := srcs; topology_boards := boards;
     ds_last_seen_ms := ds_last_seen_ms s |}.

(** ** One side *)

Definition recompute_discovery_side_state (route : DiscoverySideState) : DiscoverySideState :=
  let senders := bt_values (announcers route) in
  {| reachable := sort_dedup (concat (map ds_reachable senders));
     side_timesync_sources := sort_dedup (concat (map ds_timesync_sources senders));
     side_last_seen_ms := foldl (fun m s => Z.max m (ds_last_seen_ms s)) 0 senders;
     announcers := announcers route |}.

Definition with_announcers (l : list (Str * DiscoverySenderState)) (route : DiscoverySideState) : DiscoverySideState :=
  {| reachable := reachable route; side_timesync_sources := side_timesync_sources route;
     side_last_seen_ms := side_last_seen_ms route; announcers := l |}.

Definition prune_side (now : Z) (route : DiscoverySideState) : DiscoverySideState :=
  recompute_discovery_side_state
    (with_announcers (bt_retain (fun _ s => sender_fresh now s) (announcers route)) route).

(** [discovery_routes.retain(..)], whose closure also updates the entry. *)
Fixpoint prune_routes (now : Z) (l : list (RouterSideId * DiscoverySideState))
    : list (RouterSideId * DiscoverySideState) :=
  match l with
  | [] => []
  | (side, route) :: l =>
      let route := prune_side now route in
      match announcers route with
      | [] => prune_routes now l
      | _ => (side, route) :: prune_routes now l
      end
  end.

#[export] Instance board_eq_dec : EqDecision TopologyBoardNode.
Proof. solve_decision. Defined.
#[export] Instance sender_state_eq_dec : EqDecision DiscoverySenderState.
Proof. solve_decision. Defined.
#[export] Instance side_state_eq_dec : EqDecision DiscoverySideState.
Proof. solve_decision. Defined.

Definition prune_discovery_routes_locked (now : Z) (st : RouterInner) : RouterInner * bool :=
  let after := prune_routes now (discovery_routes st) in
  (set_discovery_routes after st, negb (bool_decide (after = discovery_routes st))).

(** ** What the router advertises *)

Section Advertise.
Context `{Config} `{Schema}.
Context (self : Router).

Definition local_discovery_endpoints : list DataEndpoint :=
  let eps := map endpoint (handlers (router_cfg self))
    ++ (if is_some (cfg_timesync (router_cfg self)) then [EpTimeSync] else []) in
  sort_dedup (List.filter (fun ep => negb (is_discovery_endpoint ep)) eps).

(** [rt] is the time-sync state behind its own lock; [now_ns] the monotonic clock. *)
Definition local_discovery_timesync_sources (rt : TimeSyncRuntime) (now now_ns : Z) : list Str :=
  match rt_tracker rt with
  | Some tracker =>
      if should_serve tracker now (timesync_has_usable_time_locked rt now_ns) then [router_sender self] else []
  | None => []
  end.

Definition no_link_local (eps : list DataEndpoint) : list DataEndpoint :=
  List.filter (fun ep => negb (is_link_local_only ep)) eps.

Definition hide_link_local (link_local_enabled : bool) (b : TopologyBoardNode) : TopologyBoardNode :=
  if link_local_enabled then b else with_endpoints (no_link_local (reachable_endpoints b)) b.

(** The announcers heard within the route lifetime, on live sides. *)
Definition live_announcers (st : RouterInner) (now : Z) : list (Str * DiscoverySenderState) :=
  concat (map (fun '(_, route) =>
    if side_fresh now route then List.filter (fun e => sender_fresh now (snd e)) (announcers route) else [])
    (discovery_routes st)).

Definition local_discovery_topology_board (st : RouterInner) (sources : list Str) (now : Z)
    (link_local_enabled : bool) : TopologyBoardNode :=
  {| sender_id := router_sender self;
     reachable_endpoints :=
       if link_local_enabled then local_discovery_endpoints else no_link_local local_discovery_endpoints;
     reachable_timesync_sources := sources;
     connections := sort_dedup (map fst (live_announcers st now)) |}.

(** [iter_mut().find(..)]: the first board of that sender. *)
Fixpoint connect_board (id peer : Str) (l : list TopologyBoardNode) : list TopologyBoardNode :=
  match l with
  | [] => []
  | b :: l =>
      if bool_decide (sender_id b = id) then
        {| sender_id := sender_id b; reachable_endpoints := reachable_endpoints b;
           reachable_timesync_sources := reachable_timesync_sources b;
           connections := connections b ++ [peer] |} :: l
      else b :: connect_board id peer l
  end.

(** What one announcer contributes. *)
Definition announcer_boards (link_local_enabled : bool) (announcer : Str) (s : DiscoverySenderState)
    : list TopologyBoardNode :=
  let boards :=
    match topology_boards s with
    | [] => [{| sender_id := announcer; reachable_endpoints := ds_reachable s;
                reachable_timesync_sources := ds_timesync_sources s; connections := [router_sender self] |}]
    | boards => connect_board announcer (router_sender self) boards
    end in
  map (hide_link_local link_local_enabled) boards.

Definition advertised_discovery_topology_for_link_locked (st : RouterInner) (sources : list Str) (now : Z)
    (link_local_enabled : bool) : list TopologyBoardNode :=
  normalize_topology_boards
    (foldl (fun boards e => merge_topology_boards boards (announcer_boards link_local_enabled (fst e) (snd e)))
       [local_discovery_topology_board st sources now link_local_enabled] (live_announcers st now)).

Definition advertised_discovery_endpoints_for_link_locked (st : RouterInner) (sources : list Str) (now : Z)
    (link_local_enabled : bool) : list DataEndpoint :=
  List.filter (fun ep => negb (is_discovery_endpoint ep) && (link_local_enabled || negb (is_link_local_only ep)))
    (fst (summarize_topology_boards
            (advertised_discovery_topology_for_link_locked st sources now link_local_enabled))).

Definition advertised_discovery_timesync_sources_for_link_locked (st : RouterInner) (sources : list Str) (now : Z)
    : list Str :=
  snd (summarize_topology_boards (advertised_discovery_topology_for_link_locked st sources now true)).
End Advertise.

(** ** Invariant: every route summarises its announcers *)

Record route_ok (route : DiscoverySideState) : Prop := {
  ro_sorted : bt_sorted (announcers route);
  ro_some : announcers route <> [];
  ro_summary : recompute_discovery_side_state route = route
}.

Definition routes_ok (l : list (RouterSideId * DiscoverySideState)) : Prop :=
  bt_sorted l /\ forall side route, (side, route) ∈ l -> route_ok route.

(** [a], heard on [side], was last heard in state [s]. *)
Definition heard (l : list (RouterSideId * DiscoverySideState)) (side : RouterSideId) (a : Str)
    (s : DiscoverySenderState) : Prop :=
  exists route, (side, route) ∈ l /\ (a, s) ∈ announcers route.

Lemma elem_of_concat {A} (x : A) (l : list (list A)) : x ∈ concat l <-> exists k, k ∈ l /\ x ∈ k.
Proof. rewrite list_elem_of_In, in_concat. by setoid_rewrite list_elem_of_In. Qed.

Lemma max_seen_spec l m0 :
  let m := foldl (fun m s => Z.max m (ds_last_seen_ms s)) m0 l in
  m0 <= m /\ (forall s, s ∈ l -> ds_last_seen_ms s <= m)
  /\ (m = m0 \/ exists s, s ∈ l /\ m = ds_last_seen_ms s).
Proof.
  revert m0. induction l as [|s l IH]; intros m0; cbn [foldl]; [split; [lia|]; split; [|by left]; set_solver|].
  destruct (IH (Z.max m0 (ds_last_seen_ms s))) as (H1 & H2 & H3). cbn zeta.
  split; [lia|]. split.
  - intros x [->|Hx]%elem_of_cons; [lia|auto].
  - destruct H3 as [H3|(x & Hx & H3)]; [|right; exists x; set_solver].
    destruct (Z.max_spec m0 (ds_last_seen_ms s)) as [[_ E]|[_ E]]; rewrite E in *; [right; exists s; set_solver|by left].
Qed.

Lemma elem_of_values {K V} `{Ord K} (l : list (K * V)) v : v ∈ bt_values l <-> exists k, (k, v) ∈ l.
Proof.
  unfold bt_values. rewrite list_elem_of_fmap. split.
  - intros ([k v'] & -> & Hin). by exists k.
  - intros (k & Hin). by exists (k, v).
Qed.

(** What the summary of a route says. *)
Lemma route_summary route :
  recompute_discovery_side_state route = route ->
  (forall e, e ∈ reachable route <-> exists a s, (a, s) ∈ announcers route /\ e ∈ ds_reachable s)
  /\ (forall x, x ∈ side_timesync_sources route <-> exists a s, (a, s) ∈ announcers route /\ x ∈ ds_timesync_sources s)
  /\ (forall a s, (a, s) ∈ announcers route -> ds_last_seen_ms s <= side_last_seen_ms route)
  /\ ((forall a s, (a, s) ∈ announcers route -> 0 <= ds_last_seen_ms s) -> announcers route <> [] ->
      exists a s, (a, s) ∈ announcers route /\ ds_last_seen_ms s = side_last_seen_ms route).
Proof.
  intros Hr.
  assert (forall X (F : DiscoverySenderState -> list X) `{Ord X} x,
    x ∈ sort_dedup (concat (map F (bt_values (announcers route)))) <-> exists a s, (a, s) ∈ announcers route /\ x ∈ F s) as Hun.
  { intros X F HX x. rewrite elem_of_sort_dedup, elem_of_concat. setoid_rewrite list_elem_of_fmap.
    setoid_rewrite elem_of_values. naive_solver. }
  destruct (max_seen_spec (bt_values (announcers route)) 0) as (Hm0 & Hm1 & Hm2).
  assert (side_last_seen_ms route = foldl (fun m s => Z.max m (ds_last_seen_ms s)) 0 (bt_values (announcers route)))
    as Hseen by (rewrite <- Hr at 1; done).
  assert (reachable route = sort_dedup (concat (map ds_reachable (bt_values (announcers route))))) as He
    by (rewrite <- Hr at 1; done).
  assert (side_timesync_sources route = sort_dedup (concat (map ds_timesync_sources (bt_values (announcers route))))) as Hx
    by (rewrite <- Hr at 1; done).
  rewrite He, Hx, Hseen. split; [apply Hun|]. split; [apply Hun|]. split.
  - intros a s Hin. apply Hm1, elem_of_values. by exists a.
  - intros Hpos Hne. destruct Hm2 as [Hz|(s & [a Hin]%elem_of_values & Hs)]; [|by exists a, s].
    destruct (announcers route) as [|[a s] l] eqn:E; [done|]. exists a, s. split; [set_solver|].
    specialize (Hpos a s ltac:(set_solver)). pose proof (Hm1 s ltac:(cbn; set_solver)). cbn [bt_values map snd] in *. lia.
Qed.

Lemma recompute_idem route :
  recompute_discovery_side_state (recompute_discovery_side_state route) = recompute_discovery_side_state route.
Proof. done. Qed.

Lemma prune_side_ok now route :
  bt_sorted (announcers route) -> announcers (prune_side now route) <> [] -> route_ok (prune_side now route).
Proof. intros Hs Hne. split; [cbn; by apply bt_retain_sorted|done|done]. Qed.

Lemma prune_routes_elem now l side route' :
  (side, route') ∈ prune_routes now l <->
  exists route, (side, route) ∈ l /\ route' = prune_side now route /\ announcers route' <> [].
Proof.
  induction l as [|[side0 route0] l IH]; cbn [prune_routes].
  { split; [by intros ?%elem_of_nil|]. by intros (? & ?%elem_of_nil & _). }
  setoid_rewrite elem_of_cons. cbn zeta. destruct (announcers (prune_side now route0)) as [|e k] eqn:E.
  - rewrite IH. split.
    + intros (r & Hin & Hr). eauto.
    + intros (r & [[= -> ->]|Hin] & -> & Hne); [congruence|eauto].
  - rewrite elem_of_cons, IH. split.
    + intros [[= -> ->]|(r & Hin & Hr)]; [exists route0; rewrite E; auto|eauto].
    + intros (r & [[= -> ->]|Hin] & -> & Hne); eauto.
Qed.

Lemma prune_routes_sub now l : map fst (prune_routes now l) `sublist_of` map fst l.
Proof.
  induction l as [|[side route] l IH]; cbn [prune_routes map fst]; [done|].
  cbn zeta. destruct (announcers (prune_side now route)); cbn; by constructor.
Qed.

Lemma prune_routes_sorted now l : bt_sorted l -> bt_sorted (prune_routes now l).
Proof.
  unfold bt_sorted. induction 1 as [|[side route] l Hs IH Hall]; cbn [prune_routes]; [constructor|].
  cbn zeta. destruct (announcers (prune_side now route)); [done|]. constructor; [done|].
  rewrite Forall_forall in *. intros [side' route'] (r & Hin & _)%prune_routes_elem.
  exact (Hall _ Hin).
Qed.

Lemma prune_routes_ok now l :
  bt_sorted l -> (forall side route, (side, route) ∈ l -> bt_sorted (announcers route)) -> routes_ok (prune_routes now l).
Proof.
  intros Hs Ha. split; [by apply prune_routes_sorted|].
  intros side route' (route & Hin & -> & Hne)%prune_routes_elem. apply prune_side_ok; eauto.
Qed.

Lemma prune_heard now l side a s :
  heard (prune_routes now l) side a s <-> heard l side a s /\ sender_fresh now s = true.
Proof.
  unfold heard. setoid_rewrite prune_routes_elem. split.
  - intros (route' & (route & Hin & -> & _) & Hs). cbn in Hs. apply elem_of_bt_retain in Hs as [Hs Hf]. eauto.
  - intros ((route & Hin & Hs) & Hf). exists (prune_side now route).
    assert ((a, s) ∈ announcers (prune_side now route)) as Hin' by (cbn; by apply elem_of_bt_retain).
    split; [|done]. exists route. split; [done|]. split; [done|]. intros E. rewrite E in Hin'. by apply elem_of_nil in Hin'.
Qed.

(** Route expiry.  Pruning forgets exactly the announcers not heard for the
    route lifetime, on every side, and the sides none is left on; it changes
    nothing else of the state; afterwards every route summarises exactly what
    its announcers reach and serve and when the last of them was heard, so it
    is itself alive; and it reports a change exactly when there is one. *)
Theorem prune_correct now st :
  bt_sorted (discovery_routes st) ->
  (forall side route, (side, route) ∈ discovery_routes st -> bt_sorted (announcers route)) ->
  (forall side a s, heard (discovery_routes st) side a s -> 0 <= ds_last_seen_ms s) ->
  let '(st', changed) := prune_discovery_routes_locked now st in
  set_discovery_routes (discovery_routes st) st' = st
  /\ routes_ok (discovery_routes st')
  /\ (forall side a s, heard (discovery_routes st') side a s <->
        heard (discovery_routes st) side a s /\ sender_fresh now s = true)
  /\ (forall side route, (side, route) ∈ discovery_routes st' ->
        side_fresh now route = true
        /\ (forall e, e ∈ reachable route <-> exists a s, (a, s) ∈ announcers route /\ e ∈ ds_reachable s)
        /\ (forall x, x ∈ side_timesync_sources route <->
              exists a s, (a, s) ∈ announcers route /\ x ∈ ds_timesync_sources s))
  /\ (changed = false <-> st' = st).
Proof.
  intros Hs Ha Hpos. unfold prune_discovery_routes_locked. cbn [discovery_routes set_discovery_routes].
  assert (routes_ok (prune_routes now (discovery_routes st))) as Hok by by apply prune_routes_ok.
  split; [by destruct st|]. split; [done|]. split; [apply prune_heard|]. split.
  - intros side route Hin. destruct Hok as [_ Hok]. destruct (Hok _ _ Hin) as [_ Hne Hr].
    assert (forall a s, (a, s) ∈ announcers route -> heard (discovery_routes st) side a s /\ sender_fresh now s = true) as Hh
      by (intros a s Has; apply prune_heard; by exists route).
    destruct (route_summary route Hr) as (He & Hx & _ & Hseen). split; [|by split].
    destruct Hseen as (a & s & Has & Hls); [intros a s Has; eapply Hpos, Hh, Has|done|].
    destruct (Hh _ _ Has) as [_ Hf]. unfold side_fresh, sender_fresh in *. by rewrite <- Hls.
  - rewrite negb_false_iff, bool_decide_eq_true. split; [intros ->; by destruct st|].
    intros E. apply (f_equal discovery_routes) in E. exact E.
Qed.

(** ** What the advertised topology says *)

Lemma sender_sorted_nodup l : StronglySorted (key_lt sender_id) l -> NoDup (map sender_id l).
Proof.
  intros Hs. induction Hs as [|b l Hs IH Hb]; cbn; [constructor|]. apply NoDup_cons. split; [|done].
  intros (b' & Heq & Hin)%list_elem_of_fmap. rewrite Forall_forall in Hb. specialize (Hb _ Hin).
  unfold key_lt in Hb. rewrite Heq in Hb. by apply lt_irrefl in Hb.
Qed.

(** Boards through a function that keeps their sender. *)
Lemma listed_map f l s : (forall b, sender_id (f b) = sender_id b) -> listed (map f l) s <-> listed l s.
Proof.
  intros Hf. unfold listed. split.
  - intros (b & (b' & -> & Hin)%list_elem_of_fmap & Hs). exists b'. by rewrite Hf in Hs.
  - intros (b & Hin & Hs). exists (f b). split; [apply list_elem_of_fmap; by exists b|]. by rewrite Hf.
Qed.

Lemma knows_map {X} (F : TopologyBoardNode -> list X) f l s x :
  (forall b, sender_id (f b) = sender_id b) -> knows F (map f l) s x <-> knows (fun b => F (f b)) l s x.
Proof.
  intros Hf. unfold knows. split.
  - intros (b & (b' & -> & Hin)%list_elem_of_fmap & Hs & Hx). exists b'. by rewrite Hf in Hs.
  - intros (b & Hin & Hs & Hx). exists (f b). split; [apply list_elem_of_fmap; by exists b|]. by rewrite Hf.
Qed.

Lemma knows_ext {X} (F G : TopologyBoardNode -> list X) (P : Str -> X -> Prop) l s x :
  (forall b y, y ∈ F b <-> P (sender_id b) y /\ y ∈ G b) -> knows F l s x <-> P s x /\ knows G l s x.
Proof. intros HF. unfold knows. setoid_rewrite HF. naive_solver. Qed.

(** Normalising keeps what is said, except links of a board to itself. *)
Lemma normalize_views l :
  StronglySorted (key_lt sender_id) l ->
  let r := normalize_topology_boards l in
  topology_normal r
  /\ (forall s, listed r s <-> listed l s)
  /\ (forall s e, knows reachable_endpoints r s e <-> knows reachable_endpoints l s e)
  /\ (forall s x, knows reachable_timesync_sources r s x <-> knows reachable_timesync_sources l s x)
  /\ (forall s x, knows connections r s x <-> x <> s /\ knows connections l s x).
Proof.
  intros Hs. cbn zeta. split; [apply normalize_normal|]. rewrite normalize_sorted_boards by done.
  assert (forall b, sender_id (normalize_board b) = sender_id b) as Hn by done.
  split; [|split; [|split]]; intros.
  - by apply listed_map.
  - rewrite knows_map by done. unfold knows. cbn. by setoid_rewrite elem_of_sort_dedup.
  - rewrite knows_map by done. unfold knows. cbn. by setoid_rewrite elem_of_sort_dedup.
  - rewrite knows_map by done. apply (knows_ext _ _ (fun s x => x <> s)). intros b y. cbn.
    rewrite elem_of_sort_dedup, elem_of_List_filter, negb_true_iff, bool_decide_eq_false. tauto.
Qed.

Lemma exists_in_cons {A} (P : A -> Prop) a l :
  (exists x, x ∈ a :: l /\ P x) <-> P a \/ exists x, x ∈ l /\ P x.
Proof.
  split; [intros (x & [->|Hx]%elem_of_cons & HP); eauto|].
  intros [HP|(x & Hx & HP)]; [exists a|exists x]; rewrite elem_of_cons; auto.
Qed.

Lemma exists_in_nil {A} (P : A -> Prop) : ~ (exists x, x ∈ [] /\ P x).
Proof. by intros (x & ?%elem_of_nil & _). Qed.

(** Merging a sequence of views. *)
Lemma merge_all_views {E} (f : E -> list TopologyBoardNode) es dst :
  StronglySorted (key_lt sender_id) dst ->
  let r := foldl (fun boards e => merge_topology_boards boards (f e)) dst es in
  StronglySorted (key_lt sender_id) r
  /\ (forall s, listed r s <-> listed dst s \/ exists e, e ∈ es /\ listed (f e) s)
  /\ (forall s x, knows reachable_endpoints r s x <->
        knows reachable_endpoints dst s x \/ exists e, e ∈ es /\ knows reachable_endpoints (f e) s x)
  /\ (forall s x, knows reachable_timesync_sources r s x <->
        knows reachable_timesync_sources dst s x \/ exists e, e ∈ es /\ knows reachable_timesync_sources (f e) s x)
  /\ (forall s x, x <> s -> knows connections r s x <->
        knows connections dst s x \/ exists e, e ∈ es /\ knows connections (f e) s x).
Proof.
  revert dst. induction es as [|e es IH]; intros dst Hs; cbn [foldl].
  { split; [done|]. split_and!; intros; split; solve [by left | intros [?|[]%exists_in_nil]; done]. }
  destruct (merge_views dst (f e) (sender_sorted_nodup _ Hs)) as (Hn & Hl & He & Hx & Hc).
  destruct (IH (merge_topology_boards dst (f e)) (proj1 Hn)) as (I1 & I2 & I3 & I4 & I5).
  split; [done|]. split; [|split; [|split]].
  - intros s. rewrite I2, Hl. rewrite exists_in_cons; tauto.
  - intros s x. rewrite I3, He. rewrite exists_in_cons; tauto.
  - intros s x. rewrite I4, Hx. rewrite exists_in_cons; tauto.
  - intros s x Hne. rewrite I5, Hc by done. rewrite exists_in_cons; tauto.
Qed.

Lemma connect_board_views id peer l :
  (forall s, listed (connect_board id peer l) s <-> listed l s)
  /\ (forall s e, knows reachable_endpoints (connect_board id peer l) s e <-> knows reachable_endpoints l s e)
  /\ (forall s x, knows reachable_timesync_sources (connect_board id peer l) s x <-> knows reachable_timesync_sources l s x)
  /\ (forall s x, knows connections (connect_board id peer l) s x <->
        knows connections l s x \/ s = id /\ x = peer /\ listed l id).
Proof.
  unfold listed, knows. induction l as [|b l (I1 & I2 & I3 & I4)]; cbn [connect_board]; [set_solver|].
  destruct (bool_decide_reflect (sender_id b = id)) as [<-|Hne]; setoid_rewrite elem_of_cons.
  - split_and!; intros.
    + split; intros (b' & [->|Hb] & Hs); eauto.
    + split; intros (b' & [->|Hb] & Hs & Hx); eauto.
    + split; intros (b' & [->|Hb] & Hs & Hx); eauto.
    + split.
      * intros (b' & [->|Hb] & <- & Hx); [|eauto 10]. cbn in Hx. apply elem_of_app in Hx as [Hx| ->%list_elem_of_singleton]; eauto 10.
      * intros [(b' & [->|Hb] & <- & Hx)|(-> & -> & _)]; [|eauto|].
        -- eexists. split; [by left|]. split; [done|]. cbn. set_solver.
        -- eexists. split; [by left|]. split; [done|]. cbn. set_solver.
  - split_and!; intros.
    + specialize (I1 s). naive_solver.
    + specialize (I2 s e). naive_solver.
    + specialize (I3 s x). naive_solver.
    + specialize (I4 s x). naive_solver.
Qed.

Section Advertised.
Context `{Config} `{Schema}.
Context (self : Router).

(** The boards known from one announcer: its announced topology, or the board
    its endpoint and time-source announcements amount to. *)
Definition announcer_view (announcer : Str) (s : DiscoverySenderState) : list TopologyBoardNode :=
  match topology_boards s with
  | [] => [{| sender_id := announcer; reachable_endpoints := ds_reachable s;
              reachable_timesync_sources := ds_timesync_sources s; connections := [] |}]
  | boards => boards
  end.

Lemma hide_sender ll b : sender_id (hide_link_local ll b) = sender_id b.
Proof. by destruct ll. Qed.

Lemma announcer_boards_views ll a s :
  let view := announcer_view a s in
  let r := announcer_boards self ll a s in
  (forall i, listed r i <-> listed view i)
  /\ (forall i e, knows reachable_endpoints r i e <->
        (ll = true \/ is_link_local_only e = false) /\ knows reachable_endpoints view i e)
  /\ (forall i x, knows reachable_timesync_sources r i x <-> knows reachable_timesync_sources view i x)
  /\ (forall i x, knows connections r i x <->
        knows connections view i x \/ i = a /\ x = router_sender self /\ listed view a).
Proof.
  cbn zeta. unfold announcer_boards. set (boards := match topology_boards s with [] => _ | _ => _ end).
  assert ((forall i, listed boards i <-> listed (announcer_view a s) i)
    /\ (forall i e, knows reachable_endpoints boards i e <-> knows reachable_endpoints (announcer_view a s) i e)
    /\ (forall i x, knows reachable_timesync_sources boards i x <-> knows reachable_timesync_sources (announcer_view a s) i x)
    /\ (forall i x, knows connections boards i x <->
          knows connections (announcer_view a s) i x \/ i = a /\ x = router_sender self /\ listed (announcer_view a s) a))
    as (B1 & B2 & B3 & B4).
  { unfold boards, announcer_view. destruct (topology_boards s) as [|b l]; [|apply connect_board_views].
    unfold listed, knows. setoid_rewrite list_elem_of_singleton. split_and!; intros; try naive_solver.
    split; [intros (b & -> & <- & Hx); cbn in *; right; apply list_elem_of_singleton in Hx; eauto 10|].
    intros [(b & -> & <- & Hx)|(-> & -> & _)]; [by apply elem_of_nil in Hx|].
    eexists. split; [reflexivity|]. split; [done|]. set_solver. }
  clearbody boards. split; [|split; [|split]]; intros.
  - rewrite listed_map by apply hide_sender. apply B1.
  - rewrite knows_map by apply hide_sender. rewrite <- B2.
    apply (knows_ext _ _ (fun _ e => ll = true \/ is_link_local_only e = false)). intros b y.
    destruct ll; cbn; [tauto|]. unfold no_link_local. rewrite elem_of_List_filter, negb_true_iff. naive_solver.
  - rewrite knows_map by apply hide_sender. rewrite <- B3. unfold knows. by destruct ll.
  - rewrite knows_map by apply hide_sender. rewrite <- B4. unfold knows. by destruct ll.
Qed.

(** What a router advertises.  The topology announced on a link is in
    normal form; it lists exactly the router itself and the boards known from
    announcers heard within the route lifetime; of each board it tells exactly
    the endpoints and time sources known, the router's own included, except
    that a link without link-local permission is never told a link-local
    endpoint; and it links the router with every live announcer. *)
Theorem advertised_topology_correct st sources now ll :
  let r := advertised_discovery_topology_for_link_locked self st sources now ll in
  let me := router_sender self in
  topology_normal r
  /\ (forall i, listed r i <-> i = me \/ exists a s, (a, s) ∈ live_announcers st now /\ listed (announcer_view a s) i)
  /\ (forall i e, knows reachable_endpoints r i e <->
        (ll = true \/ is_link_local_only e = false)
        /\ (i = me /\ e ∈ local_discovery_endpoints self
            \/ exists a s, (a, s) ∈ live_announcers st now /\ knows reachable_endpoints (announcer_view a s) i e))
  /\ (forall i x, knows reachable_timesync_sources r i x <->
        i = me /\ x ∈ sources
        \/ exists a s, (a, s) ∈ live_announcers st now /\ knows reachable_timesync_sources (announcer_view a s) i x)
  /\ (forall i x, knows connections r i x <-> i <> x
        /\ (i = me /\ (exists s, (x, s) ∈ live_announcers st now)
            \/ exists a s, (a, s) ∈ live_announcers st now
                 /\ (knows connections (announcer_view a s) i x \/ i = a /\ x = me /\ listed (announcer_view a s) a))).
Proof.
  cbn zeta. unfold advertised_discovery_topology_for_link_locked.
  set (local := local_discovery_topology_board self st sources now ll).
  assert (StronglySorted (key_lt sender_id) [local]) as Hl by (repeat constructor).
  pose proof (merge_all_views (fun e => announcer_boards self ll (fst e) (snd e)) (live_announcers st now) [local] Hl)
    as (M1 & M2 & M3 & M4 & M5).
  set (r := foldl _ _ _) in *. destruct (normalize_views r M1) as (N1 & N2 & N3 & N4 & N5).
  assert (forall (P : Str * DiscoverySenderState -> Prop),
    (exists e, e ∈ live_announcers st now /\ P e) <-> exists a s, (a, s) ∈ live_announcers st now /\ P (a, s)) as Hpair
    by (intros P; split; [intros ([a s] & ?); eauto|intros (a & s & ?); eauto]).
  split; [done|]. split; [|split; [|split]].
  - intros i. rewrite N2, M2, (Hpair (fun e => listed (announcer_boards self ll (fst e) (snd e)) i)). cbn [fst snd].
    unfold listed at 1. setoid_rewrite list_elem_of_singleton.
    setoid_rewrite (fun a s => proj1 (announcer_boards_views ll a s) i). naive_solver.
  - intros i e. rewrite N3, M3, (Hpair (fun p => knows reachable_endpoints (announcer_boards self ll (fst p) (snd p)) i e)).
    cbn [fst snd]. setoid_rewrite (fun a s => proj1 (proj2 (announcer_boards_views ll a s)) i e).
    assert (knows reachable_endpoints [local] i e <->
      i = router_sender self /\ (ll = true \/ is_link_local_only e = false) /\ e ∈ local_discovery_endpoints self) as ->.
    { unfold knows. setoid_rewrite list_elem_of_singleton. unfold local. split.
      - intros (b & -> & <- & Hx). cbn in *. destruct ll; [auto|]. unfold no_link_local in Hx.
        rewrite elem_of_List_filter, negb_true_iff in Hx. tauto.
      - intros (-> & Hll & Hx). eexists. split; [reflexivity|]. split; [done|]. cbn. destruct ll; [done|].
        unfold no_link_local. rewrite elem_of_List_filter, negb_true_iff. naive_solver. }
    naive_solver.
  - intros i x. rewrite N4, M4,
      (Hpair (fun p => knows reachable_timesync_sources (announcer_boards self ll (fst p) (snd p)) i x)).
    cbn [fst snd]. setoid_rewrite (fun a s => proj1 (proj2 (proj2 (announcer_boards_views ll a s))) i x).
    unfold knows at 1. setoid_rewrite list_elem_of_singleton. naive_solver.
  - intros i x. rewrite N5. destruct (decide (x = i)) as [->|Hne]; [naive_solver|]. rewrite M5 by done.
    rewrite (Hpair (fun p => knows connections (announcer_boards self ll (fst p) (snd p)) i x)). cbn [fst snd].
    setoid_rewrite (fun a s => proj2 (proj2 (proj2 (announcer_boards_views ll a s))) i x).
    assert (knows connections [local] i x <-> i = router_sender self /\ exists s, (x, s) ∈ live_announcers st now) as ->.
    { unfold knows. setoid_rewrite list_elem_of_singleton.
      assert (x ∈ connections local <-> exists s, (x, s) ∈ live_announcers st now) as <-.
      { cbn. rewrite elem_of_sort_dedup, list_elem_of_fmap. split; [intros ([a s] & -> & Hin); eauto|].
        intros (s & Hin). by exists (x, s). }
      naive_solver. }
    assert (i <> x) by congruence. tauto.
Qed.
End Advertised.

(** ** Witnesses *)

(** Two announcers behind side 1, one of them silent for 31 seconds. *)
Definition stale_sides : RouterInner :=
  set_discovery_routes
    [(1, {| reachable := [0; 1]; side_timesync_sources := []; side_last_seen_ms := 31000;
            announcers := [(lit "GPS", {| ds_reachable := [0]; ds_timesync_sources := [];
              topology_boards := [board_of "GPS" [0] []]; ds_last_seen_ms := 31000 |});
              (lit "OLD", {| ds_reachable := [1]; ds_timesync_sources := [];
              topology_boards := [board_of "OLD" [1] []]; ds_last_seen_ms := 0 |})] |})]
    three_sides.

Lemma prune_correct_witness :
  let '(st', changed) := prune_discovery_routes_locked 31000 stale_sides in
  changed = true /\ bt_keys (discovery_routes st') = [1]
  /\ (forall s, ~ heard (discovery_routes st') 1 (lit "OLD") s)
  /\ exists s, heard (discovery_routes st') 1 (lit "GPS") s.
Proof.
  assert (bt_sorted (discovery_routes stale_sides)) as Hs by (repeat constructor).
  assert (forall side route, (side, route) ∈ discovery_routes stale_sides -> bt_sorted (announcers route)) as Ha.
  { intros side route [= -> ->]%list_elem_of_singleton. repeat constructor. }
  assert (forall side a s, heard (discovery_routes stale_sides) side a s -> 0 <= ds_last_seen_ms s) as Hp.
  { intros side a s (route & [= -> ->]%list_elem_of_singleton & Hin).
    apply elem_of_cons in Hin as [[= -> ->]|[= -> ->]%list_elem_of_singleton]; vm_compute; discriminate. }
  pose proof (prune_correct 31000 stale_sides Hs Ha Hp) as Hc.
  assert (prune_discovery_routes_locked 31000 stale_sides
    = (set_discovery_routes (prune_routes 31000 (discovery_routes stale_sides)) stale_sides, true)) as E
    by (vm_compute; reflexivity).
  rewrite E in *. destruct Hc as (_ & _ & Hh & _). split; [reflexivity|]. split; [vm_compute; reflexivity|]. split.
  - intros s [(route & [= ->]%list_elem_of_singleton & Hin) Hf]%Hh.
    apply elem_of_cons in Hin as [Hin|Hin%list_elem_of_singleton].
    + apply (f_equal fst) in Hin. vm_compute in Hin. discriminate.
    + apply (f_equal snd) in Hin. cbn [snd] in Hin. subst s. vm_compute in Hf. discriminate.
  - eexists. apply Hh. split; [eexists; split; [by apply list_elem_of_singleton|by left]|]. vm_compute. reflexivity.
Defined.
