(* ===== verification/EndToEnd.v ===== *)
(** * End-to-end reliable delivery ([src/router.rs])

    The return routes of received reliable packets, the packets a router keeps
    until every expected destination has acknowledged them, their
    retransmission, and the handling of the reliable control packets. *)

From stdpp Require Import gmap.
From S2P Require Import Prelude Ordered Telemetry Config Schema Queue SmallPayload Wire Packet Serialize Calendar TimeSync Discovery RouterState Routes Reliable TimeRuntime Plan Topology.

(** ** Bounded caches in insertion order *)

(** [while order.len() >= cap { remove(order.pop_front()) }]. *)
Fixpoint trim_order {M} (cap : Z) (forget : Z -> M -> M) (order : list Z) (m : M) : list Z * M :=
  match order with
  | [] => ([], m)
  | oldest :: rest =>
      if cap <=? nlen order then trim_order cap forget rest (forget oldest m) else (order, m)
  end.

(** [order.retain(..)], the trimming, and the new id at the end. *)
Definition remember {M} (cap : Z) (known : Z -> M -> bool) (forget : Z -> M -> M) (id : Z) (order : list Z) (m : M)
    : list Z * M :=
  let '(order, m) := trim_order cap forget
    (List.filter (fun i => known i m && negb (i =? id)) order) m in
  (order ++ [id], m).

Section EndToEnd.
Context `{Config} `{Schema} `{External} `{Layout} `{RouterLayout}.
Context (self : Router).

Definition remember_reliable_return_route_locked (id : Z) (st : RouterInner) : RouterInner :=
  let '(order, routes) := remember (Z.max RELIABLE_MAX_RETURN_ROUTES 1)
    (fun i m => is_some (m !! i)) (fun i m => delete i m) id
    (reliable_return_route_order st) (reliable_return_routes st) in
  set_reliable_return_route_order order (set_reliable_return_routes routes st).

Definition note_reliable_return_route (side : RouterSideId) (id : Z) (st : RouterInner) : RouterInner :=
  let st := remember_reliable_return_route_locked id st in
  set_reliable_return_routes (<[id := side]> (reliable_return_routes st)) st.

Definition remember_end_to_end_reliable_tx_locked (id : Z) (st : RouterInner) : RouterInner :=
  let '(order, m) := remember (Z.max RELIABLE_MAX_END_TO_END_PENDING 1)
    bt_contains bt_remove id
    (end_to_end_reliable_tx_order st) (end_to_end_reliable_tx st) in
  set_end_to_end_reliable_tx_order order (set_end_to_end_reliable_tx m st).

(** ** Destinations *)

(** The boards that should acknowledge an item, with the side each is behind,
    in the order the nested loops visit them. *)
Definition sender_destinations (eps : list DataEndpoint) (side : RouterSideId) (s : DiscoverySenderState)
    : list (Z * RouterSideId) :=
  map (fun b => (sender_hash (sender_id b), side))
    (List.filter (fun b => is_end_to_end_destination_sender (sender_id b)
                           && existsb (fun ep => bool_decide (ep ∈ reachable_endpoints b)) eps)
       (topology_boards s)).

Definition side_destinations (st : RouterInner) (eps : list DataEndpoint) (t : DataType) (now : Z)
    (side : RouterSideId) (route : DiscoverySideState) : list (Z * RouterSideId) :=
  if negb (side_fresh now route) then []
  else match side_at st side with
  | None => []
  | Some side_ref =>
      if endpoints_are_link_local_only eps && negb (link_local_enabled (opts side_ref)) then []
      else if negb (route_allowed_locked st None (Some t) side) then []
      else concat (map (fun e => if sender_fresh now (snd e) then sender_destinations eps side (snd e) else [])
                     (announcers route))
  end.

(** [out.insert(..); if out.len() >= cap { return out }]. *)
Fixpoint collect_destinations (cap : Z) (out : list (Z * RouterSideId)) (l : list (Z * RouterSideId))
    : list (Z * RouterSideId) :=
  match l with
  | [] => out
  | (hash, side) :: l =>
      let out := bt_insert hash side out in
      if cap <=? nlen out then out else collect_destinations cap out l
  end.

Definition expected_end_to_end_destinations_locked (now : Z) (d : RouterItem) (st : RouterInner)
    : TelemetryResult (list (Z * RouterSideId)) :=
  '(eps, t) ← item_route_info d;
  Ok (collect_destinations (Z.max RELIABLE_MAX_END_TO_END_PENDING 1) []
        (concat (map (fun e => side_destinations st eps t now (fst e) (snd e)) (discovery_routes st)))).

Definition get_hash (d : RouterItem) : TelemetryResult Z :=
  match d with
  | RPacket pkt => packet_id pkt
  | RSerialized bytes =>
      match packet_id_from_wire bytes with
      | Ok id => Ok id
      | Err _ => Ok (hash_bytes_u64 HASH_SEED bytes)
      | Panic => Panic
      end
  end.

(** [now] and [now'] are the two clock readings of a registration. *)
Definition register_end_to_end_reliable_tx (now now' : Z) (d : RouterItem) : RM unit :=
  id ← lift (get_hash d);
  pending ← (fun st => (st, expected_end_to_end_destinations_locked now' d st)) : RM (list (Z * RouterSideId));
  modify (fun st =>
    let st := remember_end_to_end_reliable_tx_locked id st in
    set_end_to_end_reliable_tx (bt_insert id
      {| e2e_data := d; pending_destinations := pending; tracked_destinations := negb (bool_decide (pending = []));
         e2e_last_send_ms := now; e2e_retries := 0; e2e_queued := false |} (end_to_end_reliable_tx st)) st).

Definition with_pending (pending : list (Z * RouterSideId)) (s : EndToEndReliableSent) : EndToEndReliableSent :=
  {| e2e_data := e2e_data s; pending_destinations := pending; tracked_destinations := tracked_destinations s;
     e2e_last_send_ms := e2e_last_send_ms s; e2e_retries := e2e_retries s; e2e_queued := e2e_queued s |}.

(** [pending.retain(|hash, side| ..)], which also moves the side. *)
Fixpoint reconcile_pending (expected pending : list (Z * RouterSideId)) : list (Z * RouterSideId) :=
  match pending with
  | [] => []
  | (hash, _) :: pending =>
      match bt_get hash expected with
      | Some next_side => (hash, next_side) :: reconcile_pending expected pending
      | None => reconcile_pending expected pending
      end
  end.

Definition set_e2e (id : Z) (s : EndToEndReliableSent) (st : RouterInner) : RouterInner :=
  set_end_to_end_reliable_tx (bt_update id (fun _ => s) (end_to_end_reliable_tx st)) st.

Definition drop_e2e (id : Z) (st : RouterInner) : RouterInner :=
  set_end_to_end_reliable_tx (bt_remove id (end_to_end_reliable_tx st)) st.

(** The loop over the ids, [clock n] being the reading of the [n]th plan; what
    it returns is [completed]. *)
Fixpoint reconcile_loop (clock : nat -> Z) (ids : list Z) : RM (list Z) :=
  match ids with
  | [] => mret []
  | id :: ids => fun st =>
      match bt_get id (end_to_end_reliable_tx st) with
      | None => reconcile_loop clock ids st
      | Some sent =>
          match expected_end_to_end_destinations_locked (clock 0%nat) (e2e_data sent) st with
          | Ok expected =>
              if negb (tracked_destinations sent) then reconcile_loop (fun n => clock (S n)) ids st
              else
                let pending := reconcile_pending expected (pending_destinations sent) in
                (completed ← reconcile_loop (fun n => clock (S n)) ids;
                 mret (if bool_decide (pending = []) then id :: completed else completed))
                (set_e2e id (with_pending pending sent) st)
          | Err e => (st, Err e)
          | Panic => (st, Panic)
          end
      end
  end.

Definition reconcile_end_to_end_reliable_destinations_locked (clock : nat -> Z) : RM unit :=
  ids ← get (fun st => bt_keys (end_to_end_reliable_tx st));
  completed ← reconcile_loop clock ids;
  modify (fun st => foldl (fun st id => drop_e2e id st) st completed).

Definition side_supports_end_to_end_reliable_locked (st : RouterInner) (side : RouterSideId) : bool :=
  match side_at st side with
  | None => false
  | Some s => reliable_enabled (opts s) && match tx_handler s with HSerialized => true | HPacket => false end
  end.

(** ** Acknowledging and retransmitting *)

Definition encode_end_to_end_ack_sender : Str := END_TO_END_ACK_PREFIX ++ router_sender self.

Definition end_to_end_ack_packet (ts : Z) (pkt : Packet) : TelemetryResult Packet :=
  id ← packet_id pkt;
  packet_new ReliableAck (endpoints (message_meta ReliableAck)) encode_end_to_end_ack_sender ts
    (encode_end_to_end_reliable_ack id).

(** [ts] is [packet_timestamp_ms()]. *)
Definition queue_end_to_end_reliable_ack (ts : Z) (pkt : Packet) : RM unit :=
  ack ← lift (end_to_end_ack_packet ts pkt);
  tx_queue_item_with_flags (Broadcast (RPacket ack)) true.

Definition queue_end_to_end_reliable_retransmit (id : Z) : RM unit := fun st =>
  match bt_get id (end_to_end_reliable_tx st) with
  | None => (st, Ok tt)
  | Some sent =>
      if e2e_queued sent then (st, Ok tt)
      else
        tx_queue_item_with_priority (EndToEndReplay id) true (message_priority_bumped ReliableAck)
          (set_e2e id {| e2e_data := e2e_data sent; pending_destinations := pending_destinations sent;
             tracked_destinations := tracked_destinations sent; e2e_last_send_ms := e2e_last_send_ms sent;
             e2e_retries := e2e_retries sent; e2e_queued := true |} st)
  end.

(** [None]: nothing left to retransmit. *)
Definition end_to_end_retransmit_sides (now : Z) (id : Z) (st : RouterInner)
    : RouterInner * option (RouterItem * list RouterSideId) :=
  match bt_get id (end_to_end_reliable_tx st) with
  | None => (st, None)
  | Some sent =>
      let st := set_e2e id {| e2e_data := e2e_data sent; pending_destinations := pending_destinations sent;
        tracked_destinations := tracked_destinations sent; e2e_last_send_ms := now;
        e2e_retries := e2e_retries sent; e2e_queued := false |} st in
      let sides := bt_values (pending_destinations sent) in
      if tracked_destinations sent && bool_decide (sides = []) then (drop_e2e id st, None)
      else (st, Some (e2e_data sent, sort_dedup sides))
  end.

(** The scan: who is given up, who is retransmitted. *)
Fixpoint scan_e2e (now : Z) (ids : list Z) (st : RouterInner) : RouterInner * list Z :=
  match ids with
  | [] => (st, [])
  | id :: ids =>
      match bt_get id (end_to_end_reliable_tx st) with
      | None => scan_e2e now ids st
      | Some sent =>
          if e2e_queued sent || (wrap 64 (now - e2e_last_send_ms sent) <? RELIABLE_RETRANSMIT_MS) then scan_e2e now ids st
          else if RELIABLE_MAX_RETRIES <=? e2e_retries sent then scan_e2e now ids (drop_e2e id st)
          else
            let '(st, requeue) := scan_e2e now ids
              (set_e2e id {| e2e_data := e2e_data sent; pending_destinations := pending_destinations sent;
                 tracked_destinations := tracked_destinations sent; e2e_last_send_ms := e2e_last_send_ms sent;
                 e2e_retries := wrap 32 (e2e_retries sent + 1); e2e_queued := e2e_queued sent |} st) in
            (st, id :: requeue)
      end
  end.

Fixpoint requeue_e2e (ids : list Z) : RM unit :=
  match ids with
  | [] => mret tt
  | id :: ids => _ ← queue_end_to_end_reliable_retransmit id; requeue_e2e ids
  end.

Definition process_end_to_end_reliable_timeouts (now : Z) (clock : nat -> Z) : RM unit := fun st =>
  let '(st, changed) := prune_discovery_routes_locked now st in
  let st := if changed then note_discovery_topology_change_locked now st else st in
  (_ ← reconcile_end_to_end_reliable_destinations_locked clock;
   (fun st =>
      let '(st, requeue) := scan_e2e now (bt_keys (end_to_end_reliable_tx st)) st in
      requeue_e2e requeue st) : RM unit) st.

(** ** Control packets *)

(** An acknowledgement from one destination, or (without a name) from all. *)
Definition handle_end_to_end_ack (snd : Str) (id : Z) (st : RouterInner) : RouterInner * bool :=
  match bt_get id (end_to_end_reliable_tx st) with
  | None => (st, false)
  | Some sent =>
      match decode_end_to_end_ack_sender_hash snd with
      | Some hash =>
          let pending := bt_remove hash (pending_destinations sent) in
          (if bool_decide (pending = []) then drop_e2e id st else set_e2e id (with_pending pending sent) st, true)
      | None => (drop_e2e id st, true)
      end
  end.

Definition control_fields (pkt : Packet) : TelemetryResult (DataType * Z) :=
  vals ← data_as PU32 pkt;
  match vals with
  | [raw; seq] => t ← ok_or InvalidType (type_try_from_u32 raw); Ok (t, seq)
  | _ => Err (Deserialize "bad reliable control payload")
  end.

(** The end-to-end acknowledgement a packet is, if it is one. *)
Definition end_to_end_ack_of (pkt : Packet) : TelemetryResult (option Z) :=
  if (ty pkt =? ReliableAck) && is_end_to_end_ack_sender (sender pkt) then
    data ← payload_bytes pkt;
    match decode_end_to_end_reliable_ack data with
    | Ok id => Ok (Some id)
    | _ => Ok None
    end
  else Ok None.

Definition handle_hop_control (pkt : Packet) (src : RouterSideId) : RM bool :=
  '(t, seq) ← lift (control_fields pkt);
  if ty pkt =? ReliableAck then _ ← handle_reliable_ack src t seq; mret true
  else if ty pkt =? ReliablePartialAck then _ ← handle_reliable_partial_ack src t seq; mret true
  else _ ← queue_reliable_retransmit src t seq; mret true.

Definition handle_internal_reliable_packet (pkt : Packet) (src : option RouterSideId) : RM bool :=
  if negb (is_reliable_control_type (ty pkt)) then mret false
  else match src with
  | None => mret false
  | Some src =>
      e2e ← lift (end_to_end_ack_of pkt);
      match e2e with
      | Some id => (fun st => let '(st, b) := handle_end_to_end_ack (sender pkt) id st in (st, Ok b)) : RM bool
      | None => handle_hop_control pkt src
      end
  end.
End EndToEnd.

(** ** Bounded caches *)

Lemma trim_order_spec {M} cap (forget : Z -> M -> M) order m :
  1 <= cap ->
  let n := (length order - Z.to_nat (cap - 1))%nat in
  trim_order cap forget order m = (drop n order, foldl (fun m i => forget i m) m (take n order)).
Proof.
  intros Hcap. cbn zeta. revert m. induction order as [|o order IH]; intros m; [done|]. cbn [trim_order length].
  destruct (Z.leb_spec cap (nlen (o :: order))) as [Hc|Hc]; unfold nlen in Hc; cbn [length] in Hc.
  - rewrite IH. replace (S (length order) - Z.to_nat (cap - 1))%nat with (S (length order - Z.to_nat (cap - 1))) by lia.
    done.
  - by replace (S (length order) - Z.to_nat (cap - 1))%nat with 0%nat by lia.
Qed.

(** An order list that bounds a cache and knows all of its ids. *)
Record cache_ok (cap : Z) (order : list Z) (known : Z -> Prop) : Prop := {
  co_nodup : NoDup order;
  co_len : nlen order <= cap;
  co_known i : known i -> i ∈ order
}.

(** The ids that stay in order, and how many of the oldest must go. *)
Definition live_ids {M} (known : Z -> M -> bool) (id : Z) (order : list Z) (m : M) : list Z :=
  List.filter (fun i => known i m && negb (i =? id)) order.

Section Remember.
Context {M : Type} (cap : Z) (known : Z -> M -> bool) (forget : Z -> M -> M) (P : M -> Prop).
Context (Hcap : 1 <= cap) (HP : forall i m, P m -> P (forget i m)).
Context (Hforget : forall i j m, P m -> known i (forget j m) = known i m && negb (i =? j)).

Lemma forget_all l m i :
  P m -> P (foldl (fun m i => forget i m) m l)
    /\ known i (foldl (fun m i => forget i m) m l) = known i m && negb (bool_decide (i ∈ l)).
Proof.
  revert m. induction l as [|j l IH]; intros m Hm; cbn [foldl].
  { split; [done|]. rewrite bool_decide_false by set_solver. by rewrite andb_true_r. }
  destruct (IH (forget j m)) as [C1 C2]; [by apply HP|]. split; [done|]. rewrite C2, Hforget by done.
  destruct (Z.eqb_spec i j) as [->|Hne]; cbn [negb].
  - rewrite andb_false_r, (bool_decide_true (j ∈ j :: l)) by set_solver. by rewrite andb_false_r.
  - rewrite andb_true_r. do 2 f_equal. apply bool_decide_ext. set_solver.
Qed.

Lemma remember_ok id order m :
  P m -> cache_ok cap order (fun i => known i m = true) ->
  let '(order', m') := remember cap known forget id order m in
  let live := live_ids known id order m in
  let n := (length live - Z.to_nat (cap - 1))%nat in
  P m' /\ cache_ok cap order' (fun i => known i m' = true \/ i = id)
  /\ m' = foldl (fun m i => forget i m) m (take n live).
Proof.
  intros Hm [Hnd Hlen Hkn]. unfold remember. fold (live_ids known id order m). rewrite trim_order_spec by done.
  set (live := live_ids known id order m). set (n := (length live - Z.to_nat (cap - 1))%nat).
  assert (NoDup live) as Hlive by (apply NoDup_ListNoDup, List.NoDup_filter, NoDup_ListNoDup; done).
  split; [by apply forget_all|]. split; [|done].
  assert (id ∉ live) as Hid.
  { unfold live, live_ids. rewrite elem_of_List_filter, Z.eqb_refl, andb_false_r. by intros [_ [=]]. }
  split.
  - apply NoDup_app. split; [by apply (sublist_NoDup _ live), sublist_drop|]. split; [|apply NoDup_singleton].
    intros x Hx ->%list_elem_of_singleton. apply Hid. rewrite <- (take_drop n live). set_solver.
  - unfold nlen. rewrite length_app, length_drop. cbn [length]. lia.
  - intros i [Hi| ->]; [|set_solver]. destruct (forget_all (take n live) m i Hm) as [_ Hk]. rewrite Hk in Hi.
    apply andb_true_iff in Hi as [Hi Hni]. apply negb_true_iff, bool_decide_eq_false in Hni.
    destruct (decide (i = id)) as [->|Hne]; [set_solver|]. apply elem_of_app. left.
    assert (i ∈ live) as Hl.
    { unfold live, live_ids. rewrite elem_of_List_filter, Hi. split; [by apply Hkn|]. by rewrite (proj2 (Z.eqb_neq _ _)). }
    rewrite <- (take_drop n live) in Hl. set_solver.
Qed.
End Remember.

(** ** The invariant *)

Section Caches.
Context `{Config} `{Schema} `{External} `{Layout} `{RouterLayout}.
Context (self : Router).

Definition return_cap : Z := Z.max RELIABLE_MAX_RETURN_ROUTES 1.
Definition pending_cap : Z := Z.max RELIABLE_MAX_END_TO_END_PENDING 1.

Record caches_ok (st : RouterInner) : Prop := {
  ca_return : cache_ok return_cap (reliable_return_route_order st) (fun i => is_some (reliable_return_routes st !! i) = true);
  ca_pending : cache_ok pending_cap (end_to_end_reliable_tx_order st)
                 (fun i => bt_contains i (end_to_end_reliable_tx st) = true);
  ca_sorted : bt_sorted (end_to_end_reliable_tx st)
}.

Lemma cache_weaken cap order (K K' : Z -> Prop) :
  (forall i, K' i -> K i) -> cache_ok cap order K -> cache_ok cap order K'.
Proof. intros Hk []. split; auto. Qed.

Lemma contains_get i (m : list (Z * EndToEndReliableSent)) : bt_contains i m = true <-> is_Some (bt_get i m).
Proof. unfold bt_contains. destruct (bt_get i m); [naive_solver|]. split; [done|by intros [? [=]]]. Qed.

(** Changing entries, or dropping some, keeps a cache within its bounds. *)
Lemma caches_tx m st :
  caches_ok st -> bt_sorted m -> (forall i, is_Some (bt_get i m) -> is_Some (bt_get i (end_to_end_reliable_tx st))) ->
  caches_ok (set_end_to_end_reliable_tx m st).
Proof.
  intros [Hr Hp Hs] Hm Hk. split; [done| |done]. eapply cache_weaken; [|exact Hp]. intros i. cbn.
  rewrite !contains_get. auto.
Qed.

Lemma set_e2e_ok id s st : caches_ok st -> caches_ok (set_e2e id s st).
Proof.
  intros Hc. apply caches_tx; [done|by apply bt_update_sorted, ca_sorted|]. intros i. rewrite bt_get_update.
  destruct (decide _); [|done]. by rewrite fmap_is_Some.
Qed.

Lemma drop_e2e_ok id st : caches_ok st -> caches_ok (drop_e2e id st).
Proof.
  intros Hc. apply caches_tx; [done|by apply bt_remove_sorted, ca_sorted|]. intros i.
  destruct (decide (i = id)) as [->|Hne].
  - rewrite bt_get_remove_eq by apply Hc. by intros [? [=]].
  - by rewrite bt_get_remove_ne.
Qed.

(** What the caches depend on. *)
Definition same_caches (st st' : RouterInner) : Prop :=
  reliable_return_route_order st' = reliable_return_route_order st
  /\ reliable_return_routes st' = reliable_return_routes st
  /\ end_to_end_reliable_tx_order st' = end_to_end_reliable_tx_order st
  /\ end_to_end_reliable_tx st' = end_to_end_reliable_tx st.

Lemma same_caches_ok st st' : same_caches st st' -> caches_ok st -> caches_ok st'.
Proof. intros (E1 & E2 & E3 & E4) [Hr Hp Hs]. split; by rewrite ?E1, ?E2, ?E3, ?E4. Qed.

Lemma control_same st st' : control st' = control st -> same_caches st st'.
Proof.
  intros E. repeat split; apply (f_equal (fun s => (reliable_return_route_order s, reliable_return_routes s,
    end_to_end_reliable_tx_order s, end_to_end_reliable_tx s))) in E; cbn in E; congruence.
Qed.

Lemma pop_shared_control k st : control (snd (pop_shared_queue_item k st)) = control st.
Proof.
  destruct k; cbn; try by destruct (pop_front _).
  - unfold pop_reliable_rx_buffered. repeat case_match; try done; by simplify_eq.
  - unfold pop_discovery_route. by repeat case_match.
Qed.

Lemma make_room_control cost k st : control (fst (make_shared_queue_room cost k st)) = control st.
Proof.
  unfold make_shared_queue_room. case_match; [done|]. generalize (S (queued_items st)) as fuel. intros fuel.
  revert st. induction fuel as [|fuel IH]; intros st; cbn [make_room_loop]; case_match; try done.
  unfold evict_once. pose proof (pop_shared_control (default k (largest_shared_queue st)) st) as C1.
  destruct (pop_shared_queue_item (default k (largest_shared_queue st)) st) as [[] st1]; cbn [snd] in C1; [by rewrite IH|].
  pose proof (pop_shared_control k st1) as C2. destruct (pop_shared_queue_item k st1) as [[] st2]; cbn [snd fst] in *;
    [rewrite IH|]; congruence.
Qed.

Lemma push_transmit_control i st : control (fst (push_transmit i st)) = control st.
Proof.
  unfold push_transmit. rewrite RM_run. pose proof (make_room_control (byte_cost i) Transmit st) as Hr.
  destruct (make_shared_queue_room _ _ st) as [st1 [[]|e|]]; cbn [fst] in *; [|done..].
  by destruct (push_back_prioritized _ _ _).
Qed.

Lemma push_transmit_caches i st : caches_ok st -> caches_ok (fst (push_transmit i st)).
Proof. apply same_caches_ok, control_same, push_transmit_control. Qed.

Lemma is_some_true {A} (o : option A) : is_some o = true <-> is_Some o.
Proof. destruct o; [naive_solver|]. split; [done|by intros [? [=]]]. Qed.

Lemma remember_return_ok id st :
  caches_ok st ->
  let st' := remember_reliable_return_route_locked id st in
  cache_ok return_cap (reliable_return_route_order st')
    (fun i => is_some (reliable_return_routes st' !! i) = true \/ i = id)
  /\ end_to_end_reliable_tx_order st' = end_to_end_reliable_tx_order st
  /\ end_to_end_reliable_tx st' = end_to_end_reliable_tx st
  /\ exists n, reliable_return_routes st'
      = foldl (fun m i => delete i m) (reliable_return_routes st)
          (take n (live_ids (fun i m => is_some (m !! i)) id (reliable_return_route_order st) (reliable_return_routes st)))
    /\ (nlen (live_ids (fun i m => is_some (m !! i)) id (reliable_return_route_order st) (reliable_return_routes st))
        < return_cap -> n = 0%nat).
Proof.
  intros [Hr _ _]. unfold remember_reliable_return_route_locked. fold return_cap.
  pose proof (remember_ok (M := gmap Z RouterSideId) return_cap (fun i m => is_some (m !! i)) (fun i m => delete i m)
    (fun _ => True) ltac:(unfold return_cap; lia) ltac:(done)) as Hok.
  specialize (Hok ltac:(intros i j m _; destruct (Z.eqb_spec i j) as [->|Hne];
    [by rewrite lookup_delete_eq, andb_false_r|by rewrite lookup_delete_ne, andb_true_r by congruence])).
  specialize (Hok id _ _ I Hr). destruct (remember _ _ _ _ _ _) as [order' m']. cbn zeta in *.
  destruct Hok as (_ & Hc & Hm). split; [exact Hc|]. do 2 (split; [done|]). eexists. split; [exact Hm|].
  unfold nlen. lia.
Qed.

Lemma note_return_ok side id st : caches_ok st -> caches_ok (note_reliable_return_route side id st).
Proof.
  intros Hc. unfold note_reliable_return_route. pose proof (remember_return_ok id st Hc) as (Hr & E1 & E2 & _).
  set (st' := remember_reliable_return_route_locked id st) in *. destruct Hc as [_ Hp Hs].
  split; cbn; [|by rewrite E1, E2|by rewrite E2].
  eapply cache_weaken; [|exact Hr]. intros i. cbn. rewrite !is_some_true.
  destruct (decide (i = id)) as [->|Hne]; [auto|]. rewrite lookup_insert_ne by congruence. auto.
Qed.

Lemma remember_tx_ok id st :
  caches_ok st ->
  let st' := remember_end_to_end_reliable_tx_locked id st in
  cache_ok pending_cap (end_to_end_reliable_tx_order st')
    (fun i => bt_contains i (end_to_end_reliable_tx st') = true \/ i = id)
  /\ bt_sorted (end_to_end_reliable_tx st')
  /\ reliable_return_route_order st' = reliable_return_route_order st
  /\ reliable_return_routes st' = reliable_return_routes st.
Proof.
  intros [_ Hp Hs]. unfold remember_end_to_end_reliable_tx_locked. fold pending_cap.
  pose proof (remember_ok (M := list (Z * EndToEndReliableSent)) pending_cap bt_contains bt_remove bt_sorted
    ltac:(unfold pending_cap; lia) (fun i m => bt_remove_sorted i m)) as Hok.
  specialize (Hok ltac:(intros i j m Hm; unfold bt_contains; destruct (Z.eqb_spec i j) as [->|Hne];
    [by rewrite bt_get_remove_eq, andb_false_r|by rewrite bt_get_remove_ne, andb_true_r])).
  specialize (Hok id _ _ Hs Hp). destruct (remember _ _ _ _ _ _) as [order' m']. cbn zeta in *.
  destruct Hok as (Hs' & Hc & _). done.
Qed.

Lemma register_state_ok id s st :
  caches_ok st ->
  caches_ok (let st := remember_end_to_end_reliable_tx_locked id st in
             set_end_to_end_reliable_tx (bt_insert id s (end_to_end_reliable_tx st)) st).
Proof.
  intros Hc. pose proof (remember_tx_ok id st Hc) as (Hp & Hs & E1 & E2).
  set (st' := remember_end_to_end_reliable_tx_locked id st) in *. destruct Hc as [Hr _ _].
  split; cbn; [by rewrite E1, E2| |by apply bt_insert_sorted].
  eapply cache_weaken; [|exact Hp]. intros i. cbn. rewrite !contains_get.
  destruct (decide (i = id)) as [->|Hne]; [auto|]. rewrite bt_get_insert_ne by done. auto.
Qed.

Lemma register_ok now now' d st : caches_ok st -> caches_ok (fst (register_end_to_end_reliable_tx now now' d st)).
Proof.
  intros Hc. unfold register_end_to_end_reliable_tx. rewrite RM_run. unfold lift.
  destruct (get_hash d) as [id|e|]; [|done..]. rewrite RM_run.
  destruct (expected_end_to_end_destinations_locked now' d st) as [pending|e|]; [|done..]. by apply register_state_ok.
Qed.

Lemma reconcile_loop_ok clock ids st : caches_ok st -> caches_ok (fst (reconcile_loop clock ids st)).
Proof.
  revert clock st. induction ids as [|id ids IH]; intros clock st Hc; [done|]. cbn [reconcile_loop].
  destruct (bt_get id (end_to_end_reliable_tx st)) as [sent|]; [|by apply IH].
  destruct (expected_end_to_end_destinations_locked _ _ st); [|done..]. case_match; [by apply IH|]. rewrite RM_run.
  pose proof (IH (fun n => clock (S n)) _ (set_e2e_ok id (with_pending (reconcile_pending a (pending_destinations sent)) sent) st Hc)) as Hi.
  by destruct (reconcile_loop _ _ _) as [st' [| |]].
Qed.

Lemma drop_all_ok ids st : caches_ok st -> caches_ok (foldl (fun st id => drop_e2e id st) st ids).
Proof. revert st. induction ids; intros st Hc; [done|]. cbn. by apply IHids, drop_e2e_ok. Qed.

Lemma reconcile_ok clock st :
  caches_ok st -> caches_ok (fst (reconcile_end_to_end_reliable_destinations_locked clock st)).
Proof.
  intros Hc. unfold reconcile_end_to_end_reliable_destinations_locked. rewrite RM_run. cbn [get]. rewrite RM_run.
  pose proof (reconcile_loop_ok clock (bt_keys (end_to_end_reliable_tx st)) st Hc) as Hl.
  destruct (reconcile_loop _ _ _) as [st' [l| |]]; [|done..]. by apply drop_all_ok.
Qed.

Lemma scan_ok now ids st : caches_ok st -> caches_ok (fst (scan_e2e now ids st)).
Proof.
  revert st. induction ids as [|id ids IH]; intros st Hc; [done|]. cbn [scan_e2e].
  destruct (bt_get id (end_to_end_reliable_tx st)) as [sent|]; [|by apply IH].
  case_match; [by apply IH|]. case_match; [by apply IH, drop_e2e_ok|].
  match goal with |- context [scan_e2e now ids (set_e2e id ?s st)] => pose proof (IH _ (set_e2e_ok id s st Hc)) as Hi end.
  by destruct (scan_e2e now ids _).
Qed.

Lemma queue_retransmit_ok id st : caches_ok st -> caches_ok (fst (queue_end_to_end_reliable_retransmit id st)).
Proof.
  intros Hc. unfold queue_end_to_end_reliable_retransmit.
  destruct (bt_get id (end_to_end_reliable_tx st)) as [sent|]; [|done]. case_match; [done|].
  by apply push_transmit_caches, set_e2e_ok.
Qed.

Lemma requeue_ok ids st : caches_ok st -> caches_ok (fst (requeue_e2e ids st)).
Proof.
  revert st. induction ids as [|id ids IH]; intros st Hc; [done|]. cbn [requeue_e2e]. rewrite RM_run.
  pose proof (queue_retransmit_ok id st Hc) as Hq. destruct (queue_end_to_end_reliable_retransmit id st) as [st' [| |]]; [|done..].
  by apply IH.
Qed.

Lemma timeouts_ok now clock st : caches_ok st -> caches_ok (fst (process_end_to_end_reliable_timeouts now clock st)).
Proof.
  intros Hc. unfold process_end_to_end_reliable_timeouts, prune_discovery_routes_locked.
  set (st1 := if negb _ then _ else _).
  assert (caches_ok st1) as C1 by (unfold st1; case_match; by apply (same_caches_ok st)).
  rewrite RM_run. pose proof (reconcile_ok clock st1 C1) as C2.
  destruct (reconcile_end_to_end_reliable_destinations_locked clock st1) as [st2 [| |]]; [|done..].
  pose proof (scan_ok now (bt_keys (end_to_end_reliable_tx st2)) st2 C2) as C3.
  destruct (scan_e2e now (bt_keys (end_to_end_reliable_tx st2)) st2) as [st3 requeue]. by apply requeue_ok.
Qed.

Lemma retransmit_sides_ok now id st : caches_ok st -> caches_ok (fst (end_to_end_retransmit_sides now id st)).
Proof.
  intros Hc. unfold end_to_end_retransmit_sides. destruct (bt_get id _); [|done].
  case_match; [by apply drop_e2e_ok, set_e2e_ok|by apply set_e2e_ok].
Qed.

Lemma ack_ok snd id st : caches_ok st -> caches_ok (fst (handle_end_to_end_ack snd id st)).
Proof.
  intros Hc. unfold handle_end_to_end_ack. destruct (bt_get id _); [|done].
  destruct (decode_end_to_end_ack_sender_hash snd); [case_match|]; by (apply drop_e2e_ok || apply set_e2e_ok).
Qed.

Lemma nodup_bound (l order : list Z) : NoDup l -> (forall i, i ∈ l -> i ∈ order) -> (length l <= length order)%nat.
Proof. intros Hl Hsub. apply submseteq_length, NoDup_submseteq; [done|]. exact Hsub. Qed.

Lemma caches_bounded st :
  caches_ok st -> Z.of_nat (size (reliable_return_routes st)) <= return_cap /\ nlen (end_to_end_reliable_tx st) <= pending_cap.
Proof.
  intros [[_ Hl Hk] [_ Hl' Hk'] Hs]. split.
  - unfold nlen in Hl. rewrite <- size_dom. unfold size, set_size. cbn.
    pose proof (nodup_bound (elements (dom (reliable_return_routes st))) (reliable_return_route_order st)
      (NoDup_elements _)) as Hb. specialize (Hb ltac:(intros i Hi; apply Hk; apply elem_of_elements, elem_of_dom in Hi;
      by apply is_some_true)). lia.
  - unfold nlen in *. pose proof (nodup_bound (bt_keys (end_to_end_reliable_tx st)) (end_to_end_reliable_tx_order st)
      (bt_keys_nodup _ Hs)) as Hb. unfold bt_keys in Hb at 2. rewrite length_map in Hb.
    specialize (Hb ltac:(intros i Hi; apply Hk'; apply list_elem_of_fmap in Hi as ([k v] & -> & Hi);
      apply contains_get; exists v; by apply bt_get_elem)). lia.
Qed.

(** C34. The end-to-end bookkeeping is bounded.  However many reliable packets
    pass, at most [RELIABLE_MAX_RETURN_ROUTES] return routes and
    [RELIABLE_MAX_END_TO_END_PENDING] unacknowledged packets are kept, by every
    operation that touches them and on its error paths too; noting a route makes
    it known, and forgets others only when the cache is full, the oldest first. *)
Theorem end_to_end_caches_bounded st :
  caches_ok st ->
  (Z.of_nat (size (reliable_return_routes st)) <= return_cap /\ nlen (end_to_end_reliable_tx st) <= pending_cap)
  /\ (forall side id, let st' := note_reliable_return_route side id st in
      caches_ok st' /\ reliable_return_routes st' !! id = Some side
      /\ exists oldest, oldest `prefix_of` live_ids (fun i m => is_some (m !! i)) id
             (reliable_return_route_order st) (reliable_return_routes st)
         /\ (forall i, i <> id -> reliable_return_routes st' !! i
               = if decide (i ∈ oldest) then None else reliable_return_routes st !! i)
         /\ (nlen (reliable_return_route_order st) < return_cap -> oldest = []))
  /\ (forall now now' d, caches_ok (fst (register_end_to_end_reliable_tx now now' d st)))
  /\ (forall clock, caches_ok (fst (reconcile_end_to_end_reliable_destinations_locked clock st)))
  /\ (forall now clock, caches_ok (fst (process_end_to_end_reliable_timeouts now clock st)))
  /\ (forall now id, caches_ok (fst (end_to_end_retransmit_sides now id st)))
  /\ (forall snd id, caches_ok (fst (handle_end_to_end_ack snd id st))).
Proof.
  intros Hc. split; [by apply caches_bounded|]. split.
  - intros side id. cbn zeta. split; [by apply note_return_ok|]. unfold note_reliable_return_route.
    pose proof (remember_return_ok id st Hc) as (_ & _ & _ & n & Hm & Hn).
    set (live := live_ids _ _ _ _) in *. change (reliable_return_routes (set_reliable_return_routes ?m _)) with m.
    split; [apply lookup_insert_eq|]. exists (take n live). split; [apply prefix_take|]. split.
    + intros i Hi. rewrite lookup_insert_ne by congruence. rewrite Hm. clear.
      generalize (reliable_return_routes st) as m. generalize (take n live) as l. intros l.
      induction l as [|j l IH]; intros m; cbn [foldl]; [by rewrite decide_False by set_solver|]. rewrite IH.
      destruct (decide (i = j)) as [->|Hne].
      * rewrite (decide_True (P := j ∈ j :: l)) by set_solver. case_decide; [done|apply lookup_delete_eq].
      * rewrite lookup_delete_ne by congruence. repeat case_decide; try done; set_solver.
    + intros Hlt. rewrite Hn; [done|]. unfold nlen in *. pose proof (List.filter_length_le
        (fun i => is_some (reliable_return_routes st !! i) && negb (i =? id)) (reliable_return_route_order st)).
      unfold live, live_ids. lia.
  - split; [intros; by apply register_ok|]. split; [intros; by apply reconcile_ok|].
    split; [intros; by apply timeouts_ok|]. split; [intros; by apply retransmit_sides_ok|intros; by apply ack_ok].
Qed.
End Caches.

(** ** Retransmission *)

Section Scan.
Context `{Config}.

Definition e2e_action (now : Z) (s : EndToEndReliableSent) : timeout_action :=
  if e2e_queued s || (wrap 64 (now - e2e_last_send_ms s) <? RELIABLE_RETRANSMIT_MS) then Wait
  else if RELIABLE_MAX_RETRIES <=? e2e_retries s then GiveUp else Resend.

Definition e2e_bump (s : EndToEndReliableSent) : EndToEndReliableSent :=
  {| e2e_data := e2e_data s; pending_destinations := pending_destinations s;
     tracked_destinations := tracked_destinations s; e2e_last_send_ms := e2e_last_send_ms s;
     e2e_retries := wrap 32 (e2e_retries s + 1); e2e_queued := e2e_queued s |}.

(** The entry after the scan, and whether it is asked for again. *)
Definition e2e_scanned (now : Z) (s : EndToEndReliableSent) : option EndToEndReliableSent :=
  match e2e_action now s with Wait => Some s | GiveUp => None | Resend => Some (e2e_bump s) end.

Definition e2e_due (now : Z) (st : RouterInner) (id : Z) : bool :=
  match bt_get id (end_to_end_reliable_tx st) with Some s => is_resend (e2e_action now s) | None => false end.

Lemma get_set_e2e id s st i :
  bt_get i (end_to_end_reliable_tx (set_e2e id s st))
  = if decide (i = id) then (fun _ => s) <$> bt_get i (end_to_end_reliable_tx st)
    else bt_get i (end_to_end_reliable_tx st).
Proof.
  unfold set_e2e. cbn [end_to_end_reliable_tx set_end_to_end_reliable_tx]. rewrite bt_get_update.
  destruct (decide (cmp i id = Eq)) as [->%cmp_eq|Hne]; [by rewrite decide_True|].
  rewrite decide_False; [done|]. intros ->. by rewrite cmp_refl in Hne.
Qed.

Lemma get_drop_e2e id st i :
  bt_sorted (end_to_end_reliable_tx st) ->
  bt_get i (end_to_end_reliable_tx (drop_e2e id st))
  = if decide (i = id) then None else bt_get i (end_to_end_reliable_tx st).
Proof.
  intros Hs. unfold drop_e2e. cbn [end_to_end_reliable_tx set_end_to_end_reliable_tx].
  destruct (decide (i = id)) as [->|Hne]; [by apply bt_get_remove_eq|by apply bt_get_remove_ne].
Qed.

(** Only the pending packets differ. *)
Definition same_but_e2e (st st' : RouterInner) : Prop :=
  set_end_to_end_reliable_tx (end_to_end_reliable_tx st) st' = st.

Lemma same_but_e2e_refl st : same_but_e2e st st.
Proof. by destruct st. Qed.

Lemma same_but_e2e_set m st st' : same_but_e2e (set_end_to_end_reliable_tx m st) st' -> same_but_e2e st st'.
Proof.
  unfold same_but_e2e. intros E. apply (f_equal (set_end_to_end_reliable_tx (end_to_end_reliable_tx st))) in E.
  destruct st, st'. exact E.
Qed.

Lemma same_but_e2e_trans a b c : same_but_e2e a b -> same_but_e2e b c -> same_but_e2e a c.
Proof.
  unfold same_but_e2e. intros E1 E2. rewrite <- E1 at 2.
  change (set_end_to_end_reliable_tx (end_to_end_reliable_tx a) c)
    with (set_end_to_end_reliable_tx (end_to_end_reliable_tx a) (set_end_to_end_reliable_tx (end_to_end_reliable_tx b) c)).
  by rewrite E2.
Qed.

Lemma scan_e2e_spec now ids st :
  NoDup ids -> bt_sorted (end_to_end_reliable_tx st) ->
  let '(st', due) := scan_e2e now ids st in
  due = List.filter (e2e_due now st) ids
  /\ same_but_e2e st st' /\ bt_sorted (end_to_end_reliable_tx st')
  /\ forall i, bt_get i (end_to_end_reliable_tx st') =
      if decide (i ∈ ids) then bt_get i (end_to_end_reliable_tx st) ≫= e2e_scanned now
      else bt_get i (end_to_end_reliable_tx st).
Proof.
  revert st. induction ids as [|id ids IH]; intros st Hnd Hs.
  { cbn. split; [done|]. split; [apply same_but_e2e_refl|]. done. }
  apply NoDup_cons in Hnd as [Hnew Hnd]. cbn [scan_e2e List.filter].
  (* the state the rest of the scan starts from *)
  assert (forall st1, bt_sorted (end_to_end_reliable_tx st1) -> (same_but_e2e st1 (fst (scan_e2e now ids st1)) -> same_but_e2e st (fst (scan_e2e now ids st1))) ->
    (forall i, bt_get i (end_to_end_reliable_tx st1) = if decide (i = id) then bt_get id (end_to_end_reliable_tx st) ≫= e2e_scanned now
       else bt_get i (end_to_end_reliable_tx st)) ->
    let '(st', due) := scan_e2e now ids st1 in
    due = List.filter (e2e_due now st) ids
    /\ same_but_e2e st st' /\ bt_sorted (end_to_end_reliable_tx st')
    /\ forall i, bt_get i (end_to_end_reliable_tx st') =
        if decide (i ∈ id :: ids) then bt_get i (end_to_end_reliable_tx st) ≫= e2e_scanned now
        else bt_get i (end_to_end_reliable_tx st)) as Hrest.
  { intros st1 Hs1 Hsame Hget. specialize (IH st1 Hnd Hs1). destruct (scan_e2e now ids st1) as [st' due].
    destruct IH as (I1 & I2 & I3 & I4). split; [|split; [by apply Hsame|split; [done|]]].
    - rewrite I1. apply filter_ext_in. intros i Hi. unfold e2e_due. rewrite Hget. rewrite decide_False by set_solver. done.
    - intros i. rewrite I4, Hget. destruct (decide (i = id)) as [->|Hne].
      + rewrite decide_False, decide_True by set_solver. done.
      + destruct (decide (i ∈ ids)); [rewrite decide_True by set_solver; done|].
        rewrite decide_False by set_solver. done. }
  unfold e2e_due at 1. destruct (bt_get id (end_to_end_reliable_tx st)) as [sent|] eqn:E.
  2: { apply Hrest; [done|done|]. intros i. destruct (decide (i = id)) as [->|]; [by rewrite E|done]. }
  cbn [mbind option_bind] in Hrest.
  assert (forall b, e2e_queued sent || (wrap 64 (now - e2e_last_send_ms sent) <? RELIABLE_RETRANSMIT_MS) = b ->
    e2e_action now sent = if b then Wait else if RELIABLE_MAX_RETRIES <=? e2e_retries sent then GiveUp else Resend) as Ha
    by (intros b <-; done).
  destruct (e2e_queued sent || _) eqn:Eq; rewrite (Ha _ eq_refl); clear Ha.
  { apply Hrest; [done|done|]. intros i. destruct (decide (i = id)) as [->|]; [|done].
    rewrite E. unfold e2e_scanned, e2e_action. by rewrite Eq. }
  destruct (RELIABLE_MAX_RETRIES <=? e2e_retries sent) eqn:Er; cbn [is_resend].
  { apply Hrest; [by apply bt_remove_sorted|by apply same_but_e2e_set|]. intros i. rewrite get_drop_e2e by done.
    destruct (decide (i = id)); [|done]. unfold e2e_scanned, e2e_action. by rewrite Eq, Er. }
  fold (e2e_bump sent). specialize (Hrest (set_e2e id (e2e_bump sent) st)).
  destruct (scan_e2e now ids (set_e2e id (e2e_bump sent) st)) as [st' due].
  destruct Hrest as (-> & ?); [by apply bt_update_sorted|by apply same_but_e2e_set| |done].
  intros i. rewrite get_set_e2e. destruct (decide (i = id)) as [->|]; [|done]. rewrite E.
  unfold e2e_scanned, e2e_action. by rewrite Eq, Er.
Qed.
End Scan.

Section Correct.
Context `{Config} `{Schema} `{External} `{Layout} `{RouterLayout}.
Context (self : Router).

Lemma scan_all now st :
  bt_sorted (end_to_end_reliable_tx st) ->
  let '(st', due) := scan_e2e now (bt_keys (end_to_end_reliable_tx st)) st in
  due = List.filter (e2e_due now st) (bt_keys (end_to_end_reliable_tx st))
  /\ same_but_e2e st st'
  /\ forall i, bt_get i (end_to_end_reliable_tx st') = bt_get i (end_to_end_reliable_tx st) ≫= e2e_scanned now.
Proof.
  intros Hs. pose proof (scan_e2e_spec now _ st (bt_keys_nodup _ Hs) Hs) as Hsp.
  destruct (scan_e2e now _ st) as [st' due]. destruct Hsp as (S1 & S2 & _ & S4). split; [done|]. split; [done|].
  intros i. rewrite S4. destruct (bt_get i (end_to_end_reliable_tx st)) as [s|] eqn:E; [|by case_decide].
  rewrite decide_True; [done|]. apply bt_get_elem in E; [|done]. apply list_elem_of_fmap. by exists (i, s).
Qed.

(** End-to-end retransmission.  A timeout scan asks again for exactly the
    unacknowledged packets that are due, gives up exactly those whose retries
    are used up, and leaves the others alone; a packet whose retransmission is
    queued is never queued again; and a retransmission goes to exactly the
    sides behind which a destination has not acknowledged, each once, makes the
    packet due again, and drops it when no tracked destination is left. *)
Theorem end_to_end_retransmission_correct now st id :
  bt_sorted (end_to_end_reliable_tx st) ->
  (let '(st', due) := scan_e2e now (bt_keys (end_to_end_reliable_tx st)) st in
   due = List.filter (e2e_due now st) (bt_keys (end_to_end_reliable_tx st))
   /\ same_but_e2e st st'
   /\ forall i, bt_get i (end_to_end_reliable_tx st') = bt_get i (end_to_end_reliable_tx st) ≫= e2e_scanned now)
  /\ (forall s, bt_get id (end_to_end_reliable_tx st) = Some s -> e2e_queued s = true ->
      queue_end_to_end_reliable_retransmit id st = (st, Ok tt))
  /\ (forall s, bt_get id (end_to_end_reliable_tx st) = Some s ->
      let '(st', r) := end_to_end_retransmit_sides now id st in
      same_but_e2e st st'
      /\ if tracked_destinations s && bool_decide (pending_destinations s = []) then
           r = None /\ bt_get id (end_to_end_reliable_tx st') = None
         else exists l, r = Some (e2e_data s, l) /\ strictly_sorted l
           /\ (forall side, side ∈ l <-> exists hash, (hash, side) ∈ pending_destinations s)
           /\ exists s', bt_get id (end_to_end_reliable_tx st') = Some s' /\ e2e_queued s' = false
                /\ e2e_last_send_ms s' = now /\ pending_destinations s' = pending_destinations s).
Proof.
  intros Hs. split; [by apply scan_all|]. split.
  - intros s E Hq. unfold queue_end_to_end_reliable_retransmit. by rewrite E, Hq.
  - intros s E. unfold end_to_end_retransmit_sides. rewrite E.
    assert (bool_decide (bt_values (pending_destinations s) = []) = bool_decide (pending_destinations s = [])) as ->
      by (apply bool_decide_ext; unfold bt_values; by destruct (pending_destinations s)).
    set (s' := {| e2e_data := _ |}).
    destruct (tracked_destinations s && _).
    + split; [eapply same_but_e2e_set, same_but_e2e_set, same_but_e2e_refl|]. split; [done|].
      rewrite get_drop_e2e by by apply bt_update_sorted. by rewrite decide_True.
    + split; [eapply same_but_e2e_set, same_but_e2e_refl|]. eexists. split; [reflexivity|].
      split; [apply sort_dedup_sorted|]. split; [intros side; by rewrite elem_of_sort_dedup, elem_of_values|].
      exists s'. rewrite get_set_e2e, decide_True, E by done. done.
Qed.

(** ** Acknowledgement *)

(** [l] without the destinations of [hashes]. *)
Definition unacked (hashes : list Z) (l : list (Z * RouterSideId)) : list (Z * RouterSideId) :=
  bt_retain (fun hash _ => negb (bool_decide (hash ∈ hashes))) l.

Definition ack_all (id : Z) (acks : list Str) (st : RouterInner) : RouterInner :=
  foldl (fun st snd => fst (handle_end_to_end_ack snd id st)) st acks.

Lemma bt_remove_filter {V} h (l : list (Z * V)) :
  bt_sorted l -> bt_remove h l = List.filter (fun e => negb (fst e =? h)) l.
Proof.
  intros Hs. induction Hs as [|[k v] l Hs IH Hl]; [done|]. cbn [bt_remove List.filter fst].
  destruct (Z.eqb_spec k h) as [->|Hne]; cbn [negb].
  - rewrite cmp_refl. symmetry. apply filter_all. intros [k' v'] Hin. cbn. apply negb_true_iff, Z.eqb_neq. intros ->.
    rewrite Forall_forall in Hl. specialize (Hl _ Hin). unfold key_lt in Hl. cbn [fst] in Hl. by apply lt_irrefl in Hl.
  - destruct (cmp h k) eqn:E; [apply cmp_eq in E; congruence|by rewrite IH..].
Qed.

Lemma unacked_remove h hashes l : bt_sorted l -> unacked hashes (bt_remove h l) = unacked (h :: hashes) l.
Proof.
  intros Hs. rewrite bt_remove_filter by done. unfold unacked, bt_retain. rewrite filter_filter. apply filter_ext_in.
  intros [k v] _. cbn. rewrite <- negb_orb. f_equal. destruct (Z.eqb_spec k h) as [->|Hne]; cbn.
  - symmetry. apply bool_decide_true. set_solver.
  - apply bool_decide_ext. set_solver.
Qed.

Lemma get_ack snd id st i :
  bt_sorted (end_to_end_reliable_tx st) ->
  bt_get i (end_to_end_reliable_tx (fst (handle_end_to_end_ack snd id st))) =
  if decide (i = id) then
    sent ← bt_get id (end_to_end_reliable_tx st);
    hash ← decode_end_to_end_ack_sender_hash snd;
    let pending := bt_remove hash (pending_destinations sent) in
    if bool_decide (pending = []) then None else Some (with_pending pending sent)
  else bt_get i (end_to_end_reliable_tx st).
Proof.
  intros Hs. unfold handle_end_to_end_ack. destruct (bt_get id (end_to_end_reliable_tx st)) as [sent|] eqn:E; cbn [fst mbind option_bind].
  2: { destruct (decide (i = id)) as [->|]; done. }
  destruct (decode_end_to_end_ack_sender_hash snd) as [hash|]; cbn [fst mbind option_bind].
  - cbn zeta. case_bool_decide; cbn [fst]; [by rewrite get_drop_e2e|]. rewrite get_set_e2e.
    destruct (decide (i = id)) as [->|]; [by rewrite E|done].
  - by rewrite get_drop_e2e.
Qed.

Lemma ack_sorted snd id st :
  bt_sorted (end_to_end_reliable_tx st) ->
  bt_sorted (end_to_end_reliable_tx (fst (handle_end_to_end_ack snd id st))).
Proof.
  intros Hs. unfold handle_end_to_end_ack. repeat case_match; cbn [fst]; try done;
    first [by apply bt_remove_sorted | by apply bt_update_sorted].
Qed.

Lemma ack_same snd id st : same_but_e2e st (fst (handle_end_to_end_ack snd id st)).
Proof.
  unfold handle_end_to_end_ack. repeat case_match; cbn [fst]; try apply same_but_e2e_refl;
    eapply same_but_e2e_set, same_but_e2e_refl.
Qed.

(** The names of [acks] that identify a destination. *)
Definition ack_hashes (acks : list Str) (hashes : list Z) : Prop :=
  Forall2 (fun snd h => decode_end_to_end_ack_sender_hash snd = Some h) acks hashes.

Lemma ack_all_spec id acks hashes st sent :
  ack_hashes acks hashes -> acks <> [] -> bt_sorted (end_to_end_reliable_tx st) ->
  bt_get id (end_to_end_reliable_tx st) = Some sent -> bt_sorted (pending_destinations sent) ->
  bt_get id (end_to_end_reliable_tx (ack_all id acks st))
  = if bool_decide (unacked hashes (pending_destinations sent) = []) then None
    else Some (with_pending (unacked hashes (pending_destinations sent)) sent).
Proof.
  intros Hh. revert st sent. induction Hh as [|snd h acks hashes Hsnd Hh IH]; intros st sent Hne Hs Hget Hp; [done|].
  cbn [ack_all foldl]. fold (ack_all id acks (fst (handle_end_to_end_ack snd id st))).
  pose proof (get_ack snd id st id Hs) as Hg. rewrite decide_True, Hget, Hsnd in Hg by done. cbn [mbind option_bind] in Hg.
  cbn zeta in Hg. pose proof (ack_sorted snd id st Hs) as Hs'.
  rewrite <- unacked_remove by done. set (st1 := fst (handle_end_to_end_ack snd id st)) in *.
  case_bool_decide as Hp'.
  - rewrite Hp'. rewrite bool_decide_true by done. clear -Hg Hs'. clearbody st1.
    revert st1 Hg Hs'. induction acks as [|snd' acks IH']; intros st1 Hg Hs'; [done|]. cbn [ack_all foldl]. apply IH'.
    + rewrite get_ack, decide_True, Hg by done. done.
    + by apply ack_sorted.
  - destruct acks as [|snd' acks].
    { inv Hh. cbn [ack_all foldl]. assert (unacked [] (bt_remove h (pending_destinations sent)) = bt_remove h (pending_destinations sent)) as E
        by (apply filter_all; done). rewrite E, bool_decide_false by done. done. }
    rewrite (IH st1 (with_pending (bt_remove h (pending_destinations sent)) sent)) by (done || by apply bt_remove_sorted).
    done.
Qed.

Lemma ack_all_others id acks st i :
  i <> id -> bt_sorted (end_to_end_reliable_tx st) ->
  bt_get i (end_to_end_reliable_tx (ack_all id acks st)) = bt_get i (end_to_end_reliable_tx st).
Proof.
  intros Hne. revert st. induction acks as [|snd acks IH]; intros st Hs; [done|]. cbn [ack_all foldl].
  fold (ack_all id acks (fst (handle_end_to_end_ack snd id st))).
  rewrite IH by by apply ack_sorted. rewrite get_ack by done. by rewrite decide_False.
Qed.

(** C31. End-to-end acknowledgement.  Over any run of acknowledgements that name
    their senders, with nothing else happening to the packet, it stays pending
    until every tracked destination has acknowledged it, and no longer: from any
    senders, in any order and any number of times, what is pending is what was,
    less those senders, and the packet is gone exactly when that leaves nothing;
    other packets are untouched.  An acknowledgement that names nobody ends the
    tracking at once, and one for an unknown packet is not consumed.  (Timeouts,
    evictions and reconciliation with the routes end it as well.) *)
Theorem end_to_end_ack_correct id acks hashes st sent :
  bt_sorted (end_to_end_reliable_tx st) -> bt_get id (end_to_end_reliable_tx st) = Some sent ->
  bt_sorted (pending_destinations sent) -> ack_hashes acks hashes -> acks <> [] ->
  let rest := unacked hashes (pending_destinations sent) in
  bt_get id (end_to_end_reliable_tx (ack_all id acks st)) = (if bool_decide (rest = []) then None else Some (with_pending rest sent))
  /\ (forall i, i <> id -> bt_get i (end_to_end_reliable_tx (ack_all id acks st)) = bt_get i (end_to_end_reliable_tx st))
  /\ (forall hash side, (hash, side) ∈ rest <-> (hash, side) ∈ pending_destinations sent /\ hash ∉ hashes)
  /\ (forall snd, decode_end_to_end_ack_sender_hash snd = None ->
       bt_get id (end_to_end_reliable_tx (fst (handle_end_to_end_ack snd id st))) = None)
  /\ (forall snd unknown, bt_get unknown (end_to_end_reliable_tx st) = None ->
       handle_end_to_end_ack snd unknown st = (st, false)).
Proof.
  intros Hs Hget Hp Hh Hne. cbn zeta. split; [by apply ack_all_spec|]. split; [intros; by apply ack_all_others|].
  split; [|split].
  - intros hash side. unfold unacked. rewrite elem_of_bt_retain. cbn. rewrite negb_true_iff, bool_decide_eq_false. tauto.
  - intros snd Hsnd. rewrite get_ack, decide_True, Hget, Hsnd by done. done.
  - intros snd u Hu. unfold handle_end_to_end_ack. by rewrite Hu.
Qed.

(** ** The acknowledgement packet *)

Lemma lxor_range n a b : 0 <= n -> 0 <= a < 2 ^ n -> 0 <= b < 2 ^ n -> 0 <= Z.lxor a b < 2 ^ n.
Proof.
  intros Hn Ha Hb. split; [apply Z.lxor_nonneg; lia|].
  destruct (Z.eq_dec (Z.lxor a b) 0) as [->|Hz]; [lia|].
  assert (0 < Z.lxor a b) as Hpos by (pose proof (proj2 (Z.lxor_nonneg a b)); lia).
  apply Z.log2_lt_pow2; [done|]. pose proof (Z.log2_lxor a b ltac:(lia) ltac:(lia)) as Hl.
  assert (forall x, 0 <= x < 2 ^ n -> Z.log2 x < n \/ x = 0) as Hlog.
  { intros x Hx. destruct (Z.eq_dec x 0) as [->|]; [by right|]. left. apply Z.log2_lt_pow2; lia. }
  destruct (Hlog a Ha) as [| ->], (Hlog b Hb) as [| ->]; cbn [Z.log2] in *; rewrite ?Z.lxor_0_l, ?Z.lxor_0_r in *; lia.
Qed.

Lemma hash_range h l : is_u64 h -> is_u64 (hash_bytes_u64 h l).
Proof.
  unfold is_u64. revert h. induction l as [|b l IH]; intros h Hh; [done|]. cbn [hash_bytes_u64]. cbn zeta. apply IH.
  set (x := wrap 64 _). assert (0 <= x < 2 ^ 64) as Hx by (apply wrap_range; lia).
  apply lxor_range; [lia|done|]. rewrite Z.shiftr_div_pow2 by lia. split; [apply Z.div_pos; lia|].
  apply Z.div_lt_upper_bound; [lia|]. nia.
Qed.

Lemma packet_id_range p id : packet_id p = Ok id -> is_u64 id.
Proof.
  assert (is_u64 HASH_SEED) as Hseed by (unfold is_u64, HASH_SEED; lia).
  unfold packet_id. revert Hseed. generalize HASH_SEED as seed. intros seed Hseed (bytes & _ & Hid)%bind_ok.
  assert (forall x y : Z, @Ok TelemetryError _ x = Ok y -> x = y) as Hinj by congruence.
  apply Hinj in Hid. rewrite <- Hid. clear Hid Hinj id. do 3 apply hash_range.
  assert (forall eps h, is_u64 h -> is_u64 (fold_left (fun h ep => hash_bytes_u64 h (ep_as_str ep)) eps h)) as Hf.
  { induction eps as [|ep eps IH]; intros h Hh; [done|]. cbn. by apply IH, hash_range. }
  apply Hf. by do 2 apply hash_range.
Qed.

Lemma strip_own_prefix p s : strip_prefix p (p ++ s) = Some s.
Proof. induction p as [|c p IH]; [done|]. cbn. by rewrite bool_decide_true. Qed.

(** The acknowledgement a router sends for a packet is the one its
    originator looks for: it carries the packet's id, it is recognised as an
    end-to-end acknowledgement, it names the acknowledging router (unless that
    has no name), and routers on the way send it back along the return route of
    that id. *)
Theorem end_to_end_ack_roundtrip ts pkt id :
  STACK_PAYLOAD_SIZE < 256 -> packet_id pkt = Ok id ->
  exists ack, end_to_end_ack_packet self ts pkt = Ok ack
  /\ ty ack = ReliableAck /\ end_to_end_ack_of ack = Ok (Some id)
  /\ decode_end_to_end_ack_sender_hash (sender ack)
     = (if bool_decide (router_sender self = []) then None else Some (sender_hash (router_sender self)))
  /\ reliable_control_target_packet_id (RPacket ack) = Ok (Some id).
Proof.
  intros Hstack Hid. unfold end_to_end_ack_packet. rewrite Hid. cbn [res_bind mbind res_mbind].
  pose proof (packet_id_range _ _ Hid) as Hr.
  assert (message_meta ReliableAck = mk_meta "RELIABLE_ACK" (Static 2 UInt32 Data) EpTelemetryError RelNone 250) as Hm
    by (unfold message_meta, ReliableAck; by apply (builtin_type_meta 6)).
  rewrite Hm. cbn [endpoints mk_meta]. set (data := encode_end_to_end_reliable_ack id).
  assert (blen data = 8) as Hlen by (unfold data, blen, encode_end_to_end_reliable_ack; by rewrite length_le_bytes).
  assert (content_ok ReliableAck data) as Hc.
  { unfold content_ok, get_data_type. unfold message_meta in *. rewrite Hm, Hlen. done. }
  destruct (packet_new ReliableAck [EpTelemetryError] (encode_end_to_end_ack_sender self) ts data) as [ack|e|] eqn:E.
  - pose proof (packet_new_ok _ _ _ _ _ _ (Z.lt_trans _ 256 (2 ^ 63) Hstack eq_refl) E) as (Hok & Ht & Hs & _). exists ack. split; [done|].
    assert (payload_bytes ack = Ok data) as Hpay by apply Hok.
    assert (is_end_to_end_ack_sender (sender ack) = true) as His.
    { rewrite Hs. unfold is_end_to_end_ack_sender, encode_end_to_end_ack_sender. rewrite strip_own_prefix. by rewrite orb_true_r. }
    assert (decode_end_to_end_reliable_ack data = Ok id) as Hdec.
    { unfold decode_end_to_end_reliable_ack. rewrite Hlen. cbn. f_equal. by apply le_value_bytes_u64. }
    split; [done|]. split; [|split].
    + unfold end_to_end_ack_of. rewrite Ht, Z.eqb_refl, His, Hpay. cbn [andb res_bind mbind res_mbind]. by rewrite Hdec.
    + rewrite Hs. unfold decode_end_to_end_ack_sender_hash, encode_end_to_end_ack_sender. rewrite strip_own_prefix.
      by destruct (router_sender self).
    + cbn [reliable_control_target_packet_id]. unfold packet_control_target. rewrite Ht, Z.eqb_refl, His, Hpay.
      cbn [negb orb res_bind mbind res_mbind]. by rewrite Hdec.
  - destruct (packet_new_cases ReliableAck [EpTelemetryError] (encode_end_to_end_ack_sender self) ts data)
      as [[? _]|[(_ & Hnc & _)|(_ & _ & Hp)]]; [done|done|]. rewrite E in Hp.
    destruct (std_new_total data Hstack) as (q & Hq & _). by rewrite Hq in Hp.
  - destruct (packet_new_cases ReliableAck [EpTelemetryError] (encode_end_to_end_ack_sender self) ts data)
      as [[? _]|[(_ & Hnc & _)|(_ & _ & Hp)]]; [done|done|]. rewrite E in Hp.
    destruct (std_new_total data Hstack) as (q & Hq & _). by rewrite Hq in Hp.
Qed.
End Correct.

(** ** Destinations *)

Section Destinations.
Context `{Config} `{Schema} `{External}.

Lemma expected_other m now d st :
  expected_end_to_end_destinations_locked now d (set_end_to_end_reliable_tx m st)
  = expected_end_to_end_destinations_locked now d st.
Proof. reflexivity. Qed.

Lemma reconcile_pending_spec expected pending hash side :
  (hash, side) ∈ reconcile_pending expected pending <->
  bt_get hash expected = Some side /\ exists old, (hash, old) ∈ pending.
Proof.
  induction pending as [|[h s] pending IH]; cbn [reconcile_pending].
  { split; [by intros ?%elem_of_nil|]. by intros (_ & ? & ?%elem_of_nil). }
  setoid_rewrite elem_of_cons. destruct (bt_get h expected) as [next|] eqn:E; rewrite ?elem_of_cons, IH; split.
  - intros [[= -> ->]|(Hg & old & Hin)]; eauto.
  - intros (Hg & old & [[= -> ->]|Hin]); [left; congruence|eauto].
  - intros (Hg & old & Hin); eauto.
  - intros (Hg & old & [[= -> ->]|Hin]); [congruence|eauto].
Qed.

(** What reconciling makes of a packet, at the clock reading [now]. *)
Definition reconciled (now : Z) (st : RouterInner) (sent : EndToEndReliableSent) (r : option EndToEndReliableSent) : Prop :=
  exists expected, expected_end_to_end_destinations_locked now (e2e_data sent) st = Ok expected
  /\ r = if tracked_destinations sent then
           let pending := reconcile_pending expected (pending_destinations sent) in
           if bool_decide (pending = []) then None else Some (with_pending pending sent)
         else Some sent.

Lemma reconcile_loop_spec clock ids st st' completed :
  NoDup ids -> bt_sorted (end_to_end_reliable_tx st) ->
  reconcile_loop clock ids st = (st', Ok completed) ->
  same_but_e2e st st' /\ bt_sorted (end_to_end_reliable_tx st')
  /\ (forall i, i ∈ completed -> i ∈ ids)
  /\ forall i, if decide (i ∈ ids) then
       match bt_get i (end_to_end_reliable_tx st) with
       | None => bt_get i (end_to_end_reliable_tx st') = None
       | Some sent => exists n, reconciled (clock n) st sent
           (if bool_decide (i ∈ completed) then None else bt_get i (end_to_end_reliable_tx st'))
       end
     else bt_get i (end_to_end_reliable_tx st') = bt_get i (end_to_end_reliable_tx st).
Proof.
  intros Hnd. revert clock st st' completed. induction Hnd as [|id ids Hnew Hnd IH]; intros clock st st' completed Hs E.
  { injection E as <- <-. split; [apply same_but_e2e_refl|]. split; [done|]. split; [done|]. intros i. by rewrite decide_False by set_solver. }
  cbn [reconcile_loop] in E. destruct (bt_get id (end_to_end_reliable_tx st)) as [sent|] eqn:Eg.
  2: { destruct (IH clock st st' completed Hs E) as (I1 & I2 & I3 & I4). split; [done|]. split; [done|]. split; [set_solver|].
       intros i. specialize (I4 i). destruct (decide (i = id)) as [->|Hne].
       - rewrite decide_False in I4 by done. rewrite decide_True, Eg by set_solver. by rewrite I4.
       - destruct (decide (i ∈ ids)); [by rewrite decide_True by set_solver|by rewrite decide_False by set_solver]. }
  destruct (expected_end_to_end_destinations_locked (clock 0%nat) (e2e_data sent) st) as [expected|e|] eqn:Ee; [|done..].
  destruct (tracked_destinations sent) eqn:Et; cbn [negb] in E.
  - rewrite RM_run in E. set (p := reconcile_pending expected (pending_destinations sent)) in *.
    destruct (reconcile_loop _ ids _) as [st1 [done1|e|]] eqn:El; [|done..]. injection E as <- <-.
    destruct (IH _ (set_e2e id (with_pending p sent) st) st1 done1 ltac:(by apply bt_update_sorted) El) as (I1 & I2 & I3 & I4).
    split; [by eapply same_but_e2e_set|]. split; [done|]. split; [intros i; case_bool_decide; rewrite ?elem_of_cons; naive_solver|]. intros i. specialize (I4 i).
    rewrite get_set_e2e in I4. destruct (decide (i = id)) as [->|Hne].
    + rewrite decide_False in I4 by done. rewrite Eg in *. cbn [fmap option_fmap option_map] in I4.
      rewrite decide_True by set_solver. exists 0%nat, expected. split; [done|]. rewrite Et. cbn zeta. fold p.
      destruct (decide (p = [])) as [->|Hp].
      * rewrite (bool_decide_true (_ = [])) by done. by rewrite bool_decide_true by set_solver.
      * rewrite (bool_decide_false (p = [])) by done. rewrite bool_decide_false; [done|]. intros Hin%I3. done.
    + destruct (decide (i ∈ ids)) as [Hi|Hi]; [rewrite decide_True by set_solver|by rewrite decide_False by set_solver].
      destruct (bt_get i (end_to_end_reliable_tx st)) as [sent'|]; [|done]. destruct I4 as (n & Hn). exists (S n).
      replace (bool_decide (i ∈ if bool_decide (p = []) then id :: done1 else done1)) with (bool_decide (i ∈ done1)); [exact Hn|].
      apply bool_decide_ext. destruct (bool_decide (p = [])); [|reflexivity]. rewrite elem_of_cons. clear -Hne. intuition congruence.
  - destruct (IH _ st st' completed Hs E) as (I1 & I2 & I3 & I4). split; [done|]. split; [done|]. split; [set_solver|].
    intros i. specialize (I4 i). destruct (decide (i = id)) as [->|Hne].
    + rewrite decide_False in I4 by done. rewrite decide_True, Eg by set_solver. exists 0%nat, expected. split; [done|].
      rewrite Et, I4, Eg, bool_decide_false; [done|]. by intros Hin%I3.
    + destruct (decide (i ∈ ids)) as [Hi|Hi]; [rewrite decide_True by set_solver|by rewrite decide_False by set_solver].
      destruct (bt_get i (end_to_end_reliable_tx st)) as [sent'|]; [|done]. destruct I4 as (n & Hn). by exists (S n).
Qed.

Lemma drop_all_spec ids st :
  bt_sorted (end_to_end_reliable_tx st) ->
  let st' := foldl (fun st id => drop_e2e id st) st ids in
  same_but_e2e st st'
  /\ forall i, bt_get i (end_to_end_reliable_tx st')
     = if bool_decide (i ∈ ids) then None else bt_get i (end_to_end_reliable_tx st).
Proof.
  revert st. induction ids as [|id ids IH]; intros st Hs; cbn [foldl].
  { split; [apply same_but_e2e_refl|]. intros i. by rewrite bool_decide_false by set_solver. }
  destruct (IH (drop_e2e id st)) as [I1 I2]; [by apply bt_remove_sorted|]. split; [by eapply same_but_e2e_set|].
  intros i. rewrite I2, get_drop_e2e by done. destruct (decide (i = id)) as [->|Hne].
  - rewrite (bool_decide_true (id ∈ id :: ids)) by set_solver. by case_bool_decide.
  - by rewrite (bool_decide_ext (i ∈ id :: ids) (i ∈ ids)) by set_solver.
Qed.

Lemma collect_destinations_sub cap out l h s :
  (h, s) ∈ collect_destinations cap out l -> (h, s) ∈ out \/ (h, s) ∈ l.
Proof.
  revert out. induction l as [|[h' s'] l IH]; intros out; cbn [collect_destinations]; [auto|]. cbn zeta.
  case_match; [intros [[= -> ->]|Hin]%bt_insert_elem; set_solver|].
  intros [[[= -> ->]|Hin]%bt_insert_elem|Hin]%IH; set_solver.
Qed.

Lemma collect_destinations_sorted cap out l : bt_sorted out -> bt_sorted (collect_destinations cap out l).
Proof.
  revert out. induction l as [|[h s] l IH]; intros out Ho; cbn [collect_destinations]; [done|]. cbn zeta.
  case_match; [by apply bt_insert_sorted|]. by apply IH, bt_insert_sorted.
Qed.

(** A destination of an item behind [side]: a board known from an announcer
    heard within the route lifetime on that live, admitted side, which is no
    relay and reaches an endpoint of the item. *)
Definition destination (now : Z) (st : RouterInner) (eps : list DataEndpoint) (t : DataType) (hash : Z)
    (side : RouterSideId) : Prop :=
  exists route a s b,
    (side, route) ∈ discovery_routes st /\ side_fresh now route = true
    /\ route_policy st None (Some t) side
    /\ (endpoints_are_link_local_only eps = true -> side_link_local st side = true)
    /\ (a, s) ∈ announcers route /\ sender_fresh now s = true /\ b ∈ topology_boards s
    /\ hash = sender_hash (sender_id b) /\ is_end_to_end_destination_sender (sender_id b) = true
    /\ exists ep, ep ∈ eps /\ ep ∈ reachable_endpoints b.

Lemma expected_destination now d st eps t expected hash side :
  item_route_info d = Ok (eps, t) -> expected_end_to_end_destinations_locked now d st = Ok expected ->
  bt_get hash expected = Some side -> destination now st eps t hash side.
Proof.
  intros Hi He Hget. unfold expected_end_to_end_destinations_locked in He. rewrite Hi in He.
  cbn [res_bind mbind res_mbind] in He. injection He as <-.
  apply bt_get_elem in Hget; [|apply collect_destinations_sorted; constructor].
  apply collect_destinations_sub in Hget as [?%elem_of_nil|Hin]; [done|].
  apply elem_of_concat in Hin as (l & ([side' route] & -> & Hr)%list_elem_of_fmap & Hin). cbn [fst snd] in Hin.
  unfold side_destinations in Hin. destruct (side_fresh now route) eqn:Ef; cbn [negb] in Hin; [|by apply elem_of_nil in Hin].
  destruct (side_at st side') as [sref|] eqn:Es; [|by apply elem_of_nil in Hin].
  destruct (endpoints_are_link_local_only eps && _) eqn:Ell; [by apply elem_of_nil in Hin|].
  destruct (route_allowed_locked st None (Some t) side') eqn:Ea; cbn [negb] in Hin; [|by apply elem_of_nil in Hin].
  apply elem_of_concat in Hin as (l & ([a s] & -> & Has)%list_elem_of_fmap & Hin). cbn [fst snd] in Hin.
  destruct (sender_fresh now s) eqn:Esf; [|by apply elem_of_nil in Hin].
  apply list_elem_of_fmap in Hin as (b & [= -> ->] & Hb). apply elem_of_List_filter in Hb as [Hb Hf].
  apply andb_true_iff in Hf as [Hd Hep]. apply existsb_exists in Hep as (ep & Hep & Hbe).
  exists route, a, s, b. split; [done|]. split; [done|]. split; [by apply route_allowed_spec|]. split.
  { intros Hll. unfold side_link_local. rewrite Es. rewrite Hll in Ell. cbn in Ell. by apply negb_false_iff in Ell. }
  do 5 (split; [done|]). exists ep. split; [by apply list_elem_of_In|]. by apply bool_decide_eq_true in Hbe.
Qed.

(** Destinations of reliable packets.  Whatever destination is expected to
    acknowledge an item is one the discovered topology puts behind that side;
    and after every topology change each tracked packet keeps exactly those of
    its unacknowledged destinations that are still expected, moved to the side
    they are now behind, and is forgotten when none is left, while untracked
    packets stay. *)
Theorem end_to_end_destinations_correct clock st st' :
  bt_sorted (end_to_end_reliable_tx st) ->
  reconcile_end_to_end_reliable_destinations_locked clock st = (st', Ok tt) ->
  same_but_e2e st st'
  /\ (forall id, bt_get id (end_to_end_reliable_tx st) = None -> bt_get id (end_to_end_reliable_tx st') = None)
  /\ (forall id sent, bt_get id (end_to_end_reliable_tx st) = Some sent ->
      exists n eps t, item_route_info (e2e_data sent) = Ok (eps, t)
      /\ if tracked_destinations sent then
           exists pending,
             bt_get id (end_to_end_reliable_tx st') = (if bool_decide (pending = []) then None else Some (with_pending pending sent))
             /\ (forall hash side, (hash, side) ∈ pending -> destination (clock n) st eps t hash side
                   /\ exists old, (hash, old) ∈ pending_destinations sent)
         else bt_get id (end_to_end_reliable_tx st') = Some sent).
Proof.
  intros Hs E. unfold reconcile_end_to_end_reliable_destinations_locked in E. rewrite RM_run in E. cbn [get] in E.
  rewrite RM_run in E. destruct (reconcile_loop clock (bt_keys (end_to_end_reliable_tx st)) st) as [st1 [completed|e|]] eqn:El; [|done..].
  cbn [modify] in E. injection E as <-.
  destruct (reconcile_loop_spec clock _ st st1 completed (bt_keys_nodup _ Hs) Hs El) as (L1 & L2 & L3 & L4).
  destruct (drop_all_spec completed st1 L2) as [D1 D2]. split.
  { by eapply same_but_e2e_trans. }
  assert (forall id, is_Some (bt_get id (end_to_end_reliable_tx st)) -> id ∈ bt_keys (end_to_end_reliable_tx st)) as Hkeys.
  { intros id [s Hs']. apply bt_get_elem in Hs'; [|done]. apply list_elem_of_fmap. by exists (id, s). }
  split.
  - intros id Hn. rewrite D2. case_bool_decide; [done|]. specialize (L4 id). rewrite Hn in L4. by destruct (decide _).
  - intros id sent Hsome. specialize (L4 id). rewrite decide_True in L4 by (apply Hkeys; by exists sent).
    rewrite Hsome in L4. destruct L4 as (n & expected & He & Hr). rewrite <- D2 in Hr.
    assert (exists eps t, item_route_info (e2e_data sent) = Ok (eps, t)) as (eps & t & Hi).
    { unfold expected_end_to_end_destinations_locked in He. destruct (item_route_info (e2e_data sent)) as [[eps t]| |]; [eauto|done..]. }
    exists n, eps, t. split; [done|]. destruct (tracked_destinations sent); [|done].
    exists (reconcile_pending expected (pending_destinations sent)). split; [done|].
    intros hash side [Hg Hold]%reconcile_pending_spec. split; [by eapply expected_destination|done].
Qed.
End Destinations.

(** ** Witnesses *)

Lemma fresh_caches : @caches_ok default_config fresh_inner.
Proof.
  split.
  - split; [constructor|vm_compute; discriminate|]. intros i Hi. vm_compute in Hi. destruct i; discriminate.
  - split; [constructor|vm_compute; discriminate|]. intros i Hi. discriminate.
  - constructor.
Qed.

Lemma end_to_end_caches_bounded_witness :
  let st := @note_reliable_return_route default_config 1 42 fresh_inner in
  @caches_ok default_config st /\ reliable_return_routes st !! 42 = Some 1 /\ reliable_return_route_order st = [42].
Proof.
  destruct (@end_to_end_caches_bounded default_config default_schema run_external some_layout some_router_layout
    fresh_inner fresh_caches) as (_ & Hn & _).
  specialize (Hn 1 42). cbn zeta in Hn. destruct Hn as (Hc & Hl & _). split; [exact Hc|]. split; [exact Hl|].
  vm_compute. reflexivity.
Defined.

(** A GPS packet waiting for two boards behind side 1. *)
Definition waiting_two : EndToEndReliableSent :=
  {| e2e_data := RPacket gps_packet;
     pending_destinations := bt_insert (sender_hash (lit "GPS")) 1 [(sender_hash (lit "RADIO"), 1)];
     tracked_destinations := true; e2e_last_send_ms := 0; e2e_retries := 0; e2e_queued := false |}.

Definition waiting_state : RouterInner := set_end_to_end_reliable_tx [(42, waiting_two)] discovered_sides.

Lemma end_to_end_retransmission_correct_witness :
  snd (@scan_e2e default_config 10000 (bt_keys (end_to_end_reliable_tx waiting_state)) waiting_state) = [42]
  /\ snd (end_to_end_retransmit_sides 10000 42 waiting_state) = Some (RPacket gps_packet, [1]).
Proof.
  destruct (@end_to_end_retransmission_correct default_config default_schema some_layout some_router_layout 10000 waiting_state 42)
    as (Hscan & _ & Hside); [repeat constructor|]. split.
  - destruct (scan_e2e _ _ _) as [st' due]. destruct Hscan as (-> & _). vm_compute. reflexivity.
  - specialize (Hside waiting_two eq_refl).
    assert (snd (end_to_end_retransmit_sides 10000 42 waiting_state) = Some (RPacket gps_packet, [1])) as E
      by (vm_compute; reflexivity).
    exact E.
Defined.

Lemma waiting_sorted : bt_sorted (pending_destinations waiting_two).
Proof. apply bt_insert_sorted. repeat constructor. Qed.

(** Two acknowledgements of one board leave the other pending. *)
Lemma end_to_end_ack_correct_witness :
  let acks := [lit "E2EACK:GPS"; lit "E2EACK:GPS"] in
  (exists s, bt_get 42 (end_to_end_reliable_tx (ack_all 42 acks waiting_state)) = Some s
     /\ pending_destinations s = [(sender_hash (lit "RADIO"), 1)])
  /\ bt_get 42 (end_to_end_reliable_tx (ack_all 42 (lit "E2EACK:RADIO" :: acks) waiting_state)) = None.
Proof.
  cbn zeta.
  destruct (end_to_end_ack_correct 42 [lit "E2EACK:GPS"; lit "E2EACK:GPS"]
    [sender_hash (lit "GPS"); sender_hash (lit "GPS")] waiting_state waiting_two) as [Hg _];
    [repeat constructor|reflexivity|exact waiting_sorted|repeat constructor|discriminate|].
  split; [|vm_compute; reflexivity]. eexists. split; [rewrite Hg; vm_compute; reflexivity|vm_compute; reflexivity].
Defined.

Lemma end_to_end_ack_roundtrip_witness :
  exists id ack, @packet_id default_schema gps_packet = Ok id
  /\ @end_to_end_ack_packet default_config default_schema plain_router 5 gps_packet = Ok ack
  /\ @end_to_end_ack_of default_schema ack = Ok (Some id).
Proof.
  assert (exists id, @packet_id default_schema gps_packet = Ok id) as [id Hid] by (vm_compute; eauto).
  destruct (@end_to_end_ack_roundtrip default_config default_schema run_external plain_router 5 gps_packet id
    ltac:(vm_compute; reflexivity) Hid) as (ack & Ha & _ & Hof & _).
  exists id, ack. split; [exact Hid|]. split; [exact Ha|exact Hof].
Defined.

(** Only the GPS board is still announced: the other destination is dropped. *)
Lemma end_to_end_destinations_correct_witness :
  exists st' s,
    @reconcile_end_to_end_reliable_destinations_locked default_config default_schema run_external (fun _ => 7) waiting_state = (st', Ok tt)
    /\ bt_get 42 (end_to_end_reliable_tx st') = Some s /\ pending_destinations s = [(sender_hash (lit "GPS"), 1)]
    /\ same_but_e2e waiting_state st'.
Proof.
  destruct (@reconcile_end_to_end_reliable_destinations_locked default_config default_schema run_external (fun _ => 7) waiting_state)
    as [st' r] eqn:E.
  assert (r = Ok tt) as -> by (apply (f_equal snd) in E; vm_compute in E; symmetry; exact E).
  destruct (@end_to_end_destinations_correct default_config default_schema run_external (fun _ => 7) waiting_state st'
    ltac:(repeat constructor) E) as (Hsame & _).
  assert (fst (@reconcile_end_to_end_reliable_destinations_locked default_config default_schema run_external (fun _ => 7)
    waiting_state) = st') as Hst by (by rewrite E).
  exists st'. eexists. split; [reflexivity|].
  split; [rewrite <- Hst; vm_compute; reflexivity|]. split; [vm_compute; reflexivity|exact Hsame].
Defined.
