(* ===== verification/Announce.v ===== *)
(** * Announcing and learning routes ([src/router.rs])

    The discovery packets a router queues on its links, when it does so, and
    what it learns from those it receives. *)

From stdpp Require Import gmap.
From S2P Require Import Prelude Ordered Telemetry Config Schema Queue SmallPayload Wire Packet Serialize Calendar TimeSync Discovery RouterState Routes Reliable TimeRuntime Plan Topology EndToEnd.

Section Announce.
Context `{Config} `{Schema} `{External} `{Layout} `{RouterLayout}.
Context (self : Router).

(** ** Sending *)

(** What one link is told: endpoints, time sources, topology. *)
Record Announcement := {
  an_side : RouterSideId;
  an_endpoints : list DataEndpoint;
  an_sources : list Str;
  an_topology : list TopologyBoardNode
}.

(** [sources]: the router's own time sources. *)
Definition side_announcement (st : RouterInner) (sources : list Str) (now : Z) (side : RouterSideId) : Announcement :=
  let ll := side_link_local st side in
  {| an_side := side;
     an_endpoints := advertised_discovery_endpoints_for_link_locked self st sources now ll;
     an_sources := advertised_discovery_timesync_sources_for_link_locked self st sources now;
     an_topology := advertised_discovery_topology_for_link_locked self st sources now ll |}.

(** The sides [route_allowed_locked] lets announcements out of. *)
Definition announcements (st : RouterInner) (sources : list Str) (now : Z) : list Announcement :=
  map (side_announcement st sources now) (eligible_side_ids_locked st None (Some DiscoveryAnnounce) false).

Definition queue_built {A} (side : RouterSideId) (l : list A) (build : list A -> TelemetryResult Packet) : RM unit :=
  match l with
  | [] => mret tt
  | _ =>
      pkt ← lift (build l);
      tx_queue_item_with_flags (ToSide None side (RPacket pkt)) true
  end.

Definition queue_announcement (now : Z) (a : Announcement) : RM unit :=
  _ ← queue_built (an_side a) (an_endpoints a) (build_discovery_announce (router_sender self) now);
  _ ← queue_built (an_side a) (an_sources a) (build_discovery_timesync_sources (router_sender self) now);
  queue_built (an_side a) (an_topology a) (build_discovery_topology (router_sender self) now).

Fixpoint queue_announcements (now : Z) (l : list Announcement) : RM unit :=
  match l with
  | [] => mret tt
  | a :: l => _ ← queue_announcement now a; queue_announcements now l
  end.

(** Pruning with its consequences, at the head of both operations. *)
Definition prune_and_reconcile (now : Z) (clock : nat -> Z) : RM unit := fun st =>
  let '(st, changed) := prune_discovery_routes_locked now st in
  (_ ← (if changed : bool then
          _ ← reconcile_end_to_end_reliable_destinations_locked clock;
          modify (note_discovery_topology_change_locked now)
        else mret tt);
   modify fit_discovery_budget) st.

(** [rt] is the time-sync state, [now_ns] its clock reading. *)
Definition queue_discovery_announce (rt : TimeSyncRuntime) (now now_ns : Z) (clock : nat -> Z) : RM unit :=
  _ ← prune_and_reconcile now clock;
  no_side ← get (fun st => forallb (fun s => negb (is_some s)) (sides st));
  if no_side : bool then mret tt
  else
    _ ← modify (fun st => set_discovery_cadence (on_announce_sent (discovery_cadence st) now) st);
    l ← get (fun st => announcements st (local_discovery_timesync_sources self rt now now_ns) now);
    queue_announcements now l.

Definition announces_something (a : Announcement) : bool :=
  negb (bool_decide (an_endpoints a = [])) || negb (bool_decide (an_sources a = []))
  || negb (bool_decide (an_topology a = [])).

(** [now'], [now_ns'] and [clock'] are the readings of the announcement itself. *)
Definition poll_discovery_announce (rt : TimeSyncRuntime) (now now_ns : Z) (clock : nat -> Z)
    (now' now_ns' : Z) (clock' : nat -> Z) : RM bool :=
  _ ← prune_and_reconcile now clock;
  has_any ← get (fun st =>
    existsb announces_something (announcements st (local_discovery_timesync_sources self rt now now_ns) now));
  no_side ← get (fun st => bool_decide (sides st = []));
  if no_side || negb has_any then mret false
  else
    is_due ← get (fun st => due (discovery_cadence st) now);
    if negb is_due then mret false
    else _ ← queue_discovery_announce rt now' now_ns' clock'; mret true.

(** ** Learning *)

(** The announcer's own board takes the announced endpoints. *)
Definition learn_endpoints (link_local_enabled : bool) (name : Str) (eps : list DataEndpoint)
    (s : DiscoverySenderState) : bool * DiscoverySenderState :=
  let eps := if link_local_enabled then eps else no_link_local eps in
  (negb (bool_decide (reachable_endpoints (sender_topology_board name (topology_boards s)) = eps)),
   refresh_sender_topology_state
     (with_boards (sender_topology_board_mut name (with_endpoints eps) (topology_boards s)) s)).

Definition learn_sources (name : Str) (srcs : list Str) (s : DiscoverySenderState) : bool * DiscoverySenderState :=
  (negb (bool_decide (reachable_timesync_sources (sender_topology_board name (topology_boards s)) = srcs)),
   refresh_sender_topology_state
     (with_boards (sender_topology_board_mut name (with_timesync_sources srcs) (topology_boards s)) s)).

Definition learn_topology (link_local_enabled : bool) (boards : list TopologyBoardNode)
    (s : DiscoverySenderState) : bool * DiscoverySenderState :=
  let boards := map (hide_link_local link_local_enabled) boards in
  (negb (bool_decide (topology_boards s = boards)), refresh_sender_topology_state (with_boards boards s)).

Definition learn_from_packet (link_local_enabled : bool) (pkt : Packet) (s : DiscoverySenderState)
    : TelemetryResult (bool * DiscoverySenderState) :=
  if ty pkt =? DiscoveryAnnounce then
    eps ← decode_discovery_announce pkt; Ok (learn_endpoints link_local_enabled (sender pkt) eps s)
  else if ty pkt =? DiscoveryTimeSyncSources then
    srcs ← decode_discovery_timesync_sources pkt; Ok (learn_sources (sender pkt) srcs s)
  else if ty pkt =? DiscoveryTopology then
    boards ← decode_discovery_topology pkt; Ok (learn_topology link_local_enabled boards s)
  else Ok (false, s).

Definition seen_at (now : Z) (s : DiscoverySenderState) : DiscoverySenderState :=
  {| ds_reachable := ds_reachable s; ds_timesync_sources := ds_timesync_sources s;
     topology_boards := topology_boards s; ds_last_seen_ms := now |}.

(** The announcer's record as the router holds it, fresh when absent. *)
Definition route_of (st : RouterInner) (side : RouterSideId) : DiscoverySideState :=
  default side_state_new (bt_get side (discovery_routes st)).

Definition sender_state_of (st : RouterInner) (side : RouterSideId) (name : Str) : DiscoverySenderState :=
  default sender_state_new (bt_get name (announcers (route_of st side))).

Definition store_sender (now : Z) (side : RouterSideId) (name : Str) (s : DiscoverySenderState) (st : RouterInner)
    : RouterInner :=
  let route := route_of st side in
  let route := recompute_discovery_side_state
    (with_announcers (bt_insert name (seen_at now s) (announcers route)) route) in
  set_discovery_routes (bt_insert side route (discovery_routes st)) st.

Definition learn_discovery_packet (now : Z) (clock : nat -> Z) (pkt : Packet) (src : option RouterSideId) : RM bool :=
  if negb (is_discovery_type (ty pkt)) then mret false
  else match src with
  | None => mret true
  | Some side =>
      if bool_decide (sender pkt = router_sender self) then mret true
      else
        learnt ← (fun st => (st, learn_from_packet (side_link_local st side) pkt
                                   (sender_state_of st side (sender pkt)))) : RM (bool * DiscoverySenderState);
        _ ← modify (fun st => fit_discovery_budget (store_sender now side (sender pkt) (snd learnt) st));
        _ ← reconcile_end_to_end_reliable_destinations_locked clock;
        _ ← (if fst learnt : bool then modify (note_discovery_topology_change_locked now) else mret tt);
        mret true
  end.
(** ** The snapshot *)

Record TopologyAnnouncerRoute := {
  ta_sender_id : Str;
  ta_reachable_endpoints : list DataEndpoint;
  ta_reachable_timesync_sources : list Str;
  ta_routers : list TopologyBoardNode;
  ta_last_seen_ms : Z;
  ta_age_ms : Z
}.

Record TopologySideRoute := {
  tr_side_id : RouterSideId;
  tr_side_name : Str;
  tr_reachable_endpoints : list DataEndpoint;
  tr_reachable_timesync_sources : list Str;
  tr_announcers : list TopologyAnnouncerRoute;
  tr_last_seen_ms : Z;
  tr_age_ms : Z
}.

Record TopologySnapshot := {
  ts_advertised_endpoints : list DataEndpoint;
  ts_advertised_timesync_sources : list Str;
  ts_routers : list TopologyBoardNode;
  ts_routes : list TopologySideRoute;
  ts_current_announce_interval_ms : Z;
  ts_next_announce_ms : Z
}.

Definition announcer_route (now : Z) (e : Str * DiscoverySenderState) : TopologyAnnouncerRoute :=
  let '(name, s) := e in
  {| ta_sender_id := name; ta_reachable_endpoints := ds_reachable s;
     ta_reachable_timesync_sources := ds_timesync_sources s; ta_routers := topology_boards s;
     ta_last_seen_ms := ds_last_seen_ms s; ta_age_ms := sat_sub now (ds_last_seen_ms s) |}.

(** [filter_map]: the routes of the sides that exist. *)
Fixpoint side_routes (at_side : RouterSideId -> option RouterSide) (now : Z)
    (l : list (RouterSideId * DiscoverySideState)) : list TopologySideRoute :=
  match l with
  | [] => []
  | (id, route) :: l =>
      match at_side id with
      | None => side_routes at_side now l
      | Some side =>
          {| tr_side_id := id; tr_side_name := side_name side; tr_reachable_endpoints := reachable route;
             tr_reachable_timesync_sources := side_timesync_sources route;
             tr_announcers := map (announcer_route now) (announcers route);
             tr_last_seen_ms := side_last_seen_ms route;
             tr_age_ms := sat_sub now (side_last_seen_ms route) |} :: side_routes at_side now l
      end
  end.

(** Of the router itself: the time sources it offers. *)
Definition export_topology (sources : list Str) (now : Z) (st : RouterInner) : RouterInner * TopologySnapshot :=
  let '(st, changed) := prune_discovery_routes_locked now st in
  let st := if changed then note_discovery_topology_change_locked now st else st in
  (st, {| ts_advertised_endpoints := advertised_discovery_endpoints_for_link_locked self st sources now true;
          ts_advertised_timesync_sources := advertised_discovery_timesync_sources_for_link_locked self st sources now;
          ts_routers := advertised_discovery_topology_for_link_locked self st sources now true;
          ts_routes := side_routes (side_at st) now (discovery_routes st);
          ts_current_announce_interval_ms := current_interval_ms (discovery_cadence st);
          ts_next_announce_ms := next_announce_ms (discovery_cadence st) |}).
End Announce.

(** ** What learning keeps *)

Definition routes_sorted (l : list (RouterSideId * DiscoverySideState)) : Prop :=
  bt_sorted l /\ forall side route, (side, route) ∈ l -> bt_sorted (announcers route).

Lemma routes_ok_sorted l : routes_ok l -> routes_sorted l.
Proof. intros [Hs Hr]. split; [done|]. intros side route Hin. by destruct (Hr _ _ Hin). Qed.

Lemma heard_get l side a s :
  routes_sorted l ->
  heard l side a s <-> exists route, bt_get side l = Some route /\ bt_get a (announcers route) = Some s.
Proof.
  intros [Hs Hr]. unfold heard. split; intros (route & Hin & Ha).
  - exists route. split; [by apply bt_get_elem|]. apply bt_get_elem; eauto.
  - apply bt_get_elem in Hin; [|done]. exists route. split; [done|]. apply bt_get_elem in Ha; eauto.
Qed.

Lemma route_of_ok st side :
  routes_ok (discovery_routes st) ->
  bt_sorted (announcers (route_of st side)).
Proof.
  intros [Hs Hr]. unfold route_of. destruct (bt_get side (discovery_routes st)) as [route|] eqn:E; cbn; [|constructor].
  apply bt_get_elem in E; [|done]. by destruct (Hr _ _ E).
Qed.

Lemma store_sender_ok now side name s st :
  routes_ok (discovery_routes st) -> routes_ok (discovery_routes (store_sender now side name s st)).
Proof.
  intros Hok. pose proof (route_of_ok st side Hok) as Ha. destruct Hok as [Hs Hr]. unfold store_sender. cbn.
  split; [by apply bt_insert_sorted|]. intros side' route [[= -> ->]|Hin]%bt_insert_elem; [|eauto].
  split; cbn; [by apply bt_insert_sorted| |done]. intros E. apply (f_equal (bt_get name)) in E.
  by rewrite bt_get_insert_eq in E.
Qed.

Lemma store_sender_heard now side name s st side' a s' :
  routes_ok (discovery_routes st) ->
  heard (discovery_routes (store_sender now side name s st)) side' a s' <->
  if decide (side' = side /\ a = name) then s' = seen_at now s else heard (discovery_routes st) side' a s'.
Proof.
  intros Hok. pose proof (store_sender_ok now side name s st Hok) as Hok'.
  rewrite (heard_get (discovery_routes (store_sender now side name s st))) by (by apply routes_ok_sorted).
  unfold store_sender. cbn.
  destruct (decide (side' = side)) as [->|Hne].
  - rewrite bt_get_insert_eq. setoid_rewrite (inj_iff Some).
    destruct (decide (a = name)) as [->|Hna].
    + rewrite decide_True by done. split.
      * intros (route & <- & Hg). cbn in Hg. rewrite bt_get_insert_eq in Hg. congruence.
      * intros ->. eexists. split; [done|]. cbn. by rewrite bt_get_insert_eq.
    + rewrite decide_False by tauto. rewrite (heard_get (discovery_routes st)) by (by apply routes_ok_sorted).
      unfold route_of. split.
      * intros (route & <- & Hg). cbn in Hg. rewrite bt_get_insert_ne in Hg by done.
        destruct (bt_get side (discovery_routes st)) as [route|]; [by exists route|done].
      * intros (route & Hroute & Hg). eexists. split; [done|]. cbn. rewrite bt_get_insert_ne, Hroute by done. done.
  - rewrite bt_get_insert_ne by done. rewrite decide_False by tauto.
    by rewrite (heard_get (discovery_routes st)) by (by apply routes_ok_sorted).
Qed.

(** A fresh announcer of a summarised side is live. *)
Lemma heard_live st now side a s :
  routes_ok (discovery_routes st) -> heard (discovery_routes st) side a s -> sender_fresh now s = true ->
  (a, s) ∈ live_announcers st now.
Proof.
  intros [_ Hr] (route & Hin & Ha) Hf. destruct (Hr _ _ Hin) as [_ _ Hsum].
  destruct (route_summary route Hsum) as (_ & _ & Hseen & _). specialize (Hseen a s Ha).
  unfold live_announcers. apply elem_of_concat. eexists. split; [apply list_elem_of_fmap; exists (side, route); done|].
  cbn. assert (side_fresh now route = true) as ->.
  { unfold side_fresh, sender_fresh, sat_sub in *. apply Z.leb_le in Hf. apply Z.leb_le. lia. }
  by apply elem_of_List_filter.
Qed.

Lemma prune_keeps_ok now st : routes_ok (discovery_routes st) -> routes_ok (discovery_routes (fst (prune_discovery_routes_locked now st))).
Proof.
  intros Hok. destruct (routes_ok_sorted _ Hok). unfold prune_discovery_routes_locked. cbn. by apply prune_routes_ok.
Qed.

(** ** Boards nobody has heard from *)

Section Ghosts.
Context `{Config} `{Schema}.

(** [peer], in state [stp], announces its topology and [st] hears it on [side]:
    both prune first, and the listener stores what it learns (the memory budget
    evicting nothing). *)
Definition hear (peer : Router) (stp : RouterInner) (sources : list Str) (link_local_enabled : bool) (side : RouterSideId)
    (now : Z) (st : RouterInner) : RouterInner :=
  let boards := advertised_discovery_topology_for_link_locked peer (fst (prune_discovery_routes_locked now stp))
    sources now link_local_enabled in
  let st := fst (prune_discovery_routes_locked now st) in
  store_sender now side (router_sender peer)
    (snd (learn_topology link_local_enabled boards (sender_state_of st side (router_sender peer)))) st.

(** [st] lists board [g] in what it last heard from [a], at time [seen]. *)
Definition believes (st : RouterInner) (side : RouterSideId) (a : Str) (g : Str) (seen : Z) : Prop :=
  exists s, heard (discovery_routes st) side a s /\ ds_last_seen_ms s = seen /\ listed (topology_boards s) g.

Lemma believed_is_advertised self st side a g seen sources now ll :
  routes_ok (discovery_routes st) -> believes st side a g seen -> now - seen <= DISCOVERY_ROUTE_TTL_MS ->
  listed (advertised_discovery_topology_for_link_locked self (fst (prune_discovery_routes_locked now st)) sources now ll) g.
Proof.
  intros Hok (s & Hh & Hseen & Hl) Hfresh.
  assert (sender_fresh now s = true) as Hf
    by (unfold sender_fresh, sat_sub; apply Z.leb_le; subst seen; unfold DISCOVERY_ROUTE_TTL_MS in *; lia).
  destruct (advertised_topology_correct self (fst (prune_discovery_routes_locked now st)) sources now ll) as (_ & Hlist & _).
  apply Hlist. right. exists a, s. split.
  - eapply heard_live; [by apply prune_keeps_ok| |done]. unfold prune_discovery_routes_locked. cbn.
    apply prune_heard. by split.
  - unfold announcer_view. destruct (topology_boards s); [by destruct Hl as (? & ?%elem_of_nil & _)|done].
Qed.

Lemma hear_ok peer stp sources ll side now st :
  routes_ok (discovery_routes st) -> routes_ok (discovery_routes (hear peer stp sources ll side now st)).
Proof. intros Hok. apply store_sender_ok, prune_keeps_ok, Hok. Qed.

Lemma listed_normalize l g : StronglySorted (key_lt sender_id) l -> listed (normalize_topology_boards l) g <-> listed l g.
Proof. intros Hs. apply (normalize_views l Hs). Qed.

Lemma hear_believes peer stp sources ll side now st g :
  routes_ok (discovery_routes st) ->
  listed (advertised_discovery_topology_for_link_locked peer (fst (prune_discovery_routes_locked now stp)) sources now ll) g ->
  believes (hear peer stp sources ll side now st) side (router_sender peer) g now.
Proof.
  intros Hok Hl. unfold hear. set (boards := advertised_discovery_topology_for_link_locked _ _ _ _ _) in *.
  eexists. split; [apply store_sender_heard; [by apply prune_keeps_ok|]; rewrite decide_True by done; reflexivity|].
  split; [done|]. cbn. apply listed_normalize.
  - apply key_sorted_map; [intros b; by apply hide_sender|].
    apply (proj1 (advertised_topology_correct peer (fst (prune_discovery_routes_locked now stp)) sources now ll)).
  - apply listed_map; [intros b; by apply hide_sender|done].
Qed.

(** One exchange: [b] hears [a], then [a] hears [b]. *)
Definition exchange (a b : Router) (lla llb : bool) (sa sb : RouterSideId) (srca srcb : list Str) (now : Z)
    (sts : RouterInner * RouterInner) : RouterInner * RouterInner :=
  let '(sta, stb) := sts in
  let stb := hear a sta srca llb sb now stb in
  (hear b stb srcb lla sa now sta, stb).

Fixpoint rounds_ok (last : Z) (times : list Z) : Prop :=
  match times with
  | [] => True
  | t :: times => last <= t <= last + DISCOVERY_ROUTE_TTL_MS /\ rounds_ok t times
  end.

(** Routes to a board that is gone do not expire.  If a router once heard
    its neighbour list a board, then as long as the two exchange topologies
    within the route lifetime both keep listing it, through any number of
    exchanges, although both prune what they have not heard and neither hears
    of the board from anywhere else: each learns it back from the other. *)
Theorem ghost_boards_persist a b lla llb sa sb srca srcb times sta stb g seen :
  routes_ok (discovery_routes sta) -> routes_ok (discovery_routes stb) ->
  believes sta sa (router_sender b) g seen -> rounds_ok seen times ->
  let '(sta', stb') := foldl (fun sts now => exchange a b lla llb sa sb srca srcb now sts) (sta, stb) times in
  believes sta' sa (router_sender b) g (List.last times seen)
  /\ (times <> [] -> believes stb' sb (router_sender a) g (List.last times seen)).
Proof.
  intros Hoa Hob Hbel Hrounds.
  assert (forall times sta stb seen, routes_ok (discovery_routes sta) -> routes_ok (discovery_routes stb) ->
    believes sta sa (router_sender b) g seen -> rounds_ok seen times ->
    let '(sta', stb') := foldl (fun sts now => exchange a b lla llb sa sb srca srcb now sts) (sta, stb) times in
    believes sta' sa (router_sender b) g (List.last times seen)
    /\ (believes stb sb (router_sender a) g seen \/ times <> [] ->
        believes stb' sb (router_sender a) g (List.last times seen))) as Hgen.
  { clear. induction times as [|t times IH]; intros sta stb seen Hoa Hob Hbel Hr.
    { cbn. split; [done|]. by intros [?|?]. }
    destruct Hr as [Ht Hr]. cbn [foldl exchange].
    set (stb1 := hear a sta srca llb sb t stb). set (sta1 := hear b stb1 srcb lla sa t sta).
    assert (believes stb1 sb (router_sender a) g t) as Hb1.
    { apply hear_believes; [done|]. eapply believed_is_advertised; [done|exact Hbel|lia]. }
    assert (routes_ok (discovery_routes stb1)) as Hob1 by by apply hear_ok.
    assert (believes sta1 sa (router_sender b) g t) as Ha1.
    { apply hear_believes; [done|]. eapply believed_is_advertised; [done|exact Hb1|unfold DISCOVERY_ROUTE_TTL_MS; lia]. }
    assert (routes_ok (discovery_routes sta1)) as Hoa1 by by apply hear_ok.
    specialize (IH sta1 stb1 t Hoa1 Hob1 Ha1 Hr).
    destruct (foldl _ (sta1, stb1) times) as [sta' stb'].
    assert (List.last (t :: times) seen = List.last times t) as ->.
    { clear. destruct times as [|t' times]; [done|]. cbn. revert t'. induction times as [|u times IH]; intros t'; [done|].
      cbn. apply IH. }
    destruct IH as [I1 I2]. split; [done|]. intros _. apply I2. by left. }
  specialize (Hgen times sta stb seen Hoa Hob Hbel Hrounds). destruct (foldl _ _ _) as [sta' stb'].
  destruct Hgen as [G1 G2]. split; [done|]. intros Hne. apply G2. by right.
Qed.
End Ghosts.

(** ** Learning, on every branch *)

Lemma fit_routes_sub `{Config} `{RouterLayout} st :
  (forall e, e ∈ discovery_routes (fit_discovery_budget st) -> e ∈ discovery_routes st)
  /\ (bt_sorted (discovery_routes st) -> bt_sorted (discovery_routes (fit_discovery_budget st)))
  /\ discovery_cadence (fit_discovery_budget st) = discovery_cadence st.
Proof.
  unfold fit_discovery_budget. generalize (length (discovery_routes st)) as fuel. intros fuel. revert st.
  induction fuel as [|fuel IH]; intros st; cbn [fit_discovery_loop]; (case_match; [|done]);
    unfold pop_discovery_route; destruct (oldest_route (discovery_routes st)) as [[side route]|]; try done.
  { split; [intros e He; cbn in He; by eapply bt_remove_elem|]. split; [intros Hs; cbn; by apply bt_remove_sorted|done]. }
  destruct (IH (set_discovery_routes (bt_remove side (discovery_routes st)) st)) as (I1 & I2 & I3).
  split; [|split].
  - intros e He%I1. cbn in He. by eapply bt_remove_elem.
  - intros Hs. apply I2. cbn. by apply bt_remove_sorted.
  - by rewrite I3.
Qed.

Lemma fit_routes_ok `{Config} `{RouterLayout} st : routes_ok (discovery_routes st) -> routes_ok (discovery_routes (fit_discovery_budget st)).
Proof. intros [Hs Hr]. destruct (fit_routes_sub st) as (I1 & I2 & _). split; eauto. Qed.

Lemma fit_enough `{Config} `{RouterLayout} st : shared_queue_bytes_used st <= MAX_QUEUE_BUDGET -> fit_discovery_budget st = st.
Proof.
  intros Hu. unfold fit_discovery_budget. destruct (length (discovery_routes st)); cbn [fit_discovery_loop];
    (destruct (Z.ltb_spec MAX_QUEUE_BUDGET (shared_queue_bytes_used st)); [lia|done]).
Qed.

Section Learn.
Context `{Config} `{Schema} `{External} `{Layout} `{RouterLayout}.
Context (self : Router).

Lemma reconcile_same clock st :
  same_but_e2e st (fst (reconcile_end_to_end_reliable_destinations_locked clock st)).
Proof.
  unfold reconcile_end_to_end_reliable_destinations_locked. rewrite RM_run. cbn [get]. rewrite RM_run.
  assert (forall ids clock st, same_but_e2e st (fst (reconcile_loop clock ids st))) as Hl.
  { clear. induction ids as [|id ids IH]; intros clock st; cbn [reconcile_loop]; [apply same_but_e2e_refl|].
    destruct (bt_get id (end_to_end_reliable_tx st)) as [sent|]; [|apply IH].
    destruct (expected_end_to_end_destinations_locked _ _ st); [|apply same_but_e2e_refl..].
    case_match; [apply IH|]. rewrite RM_run.
    pose proof (IH (fun n => clock (S n)) (set_e2e id (with_pending (reconcile_pending a (pending_destinations sent)) sent) st)) as Hi.
    apply same_but_e2e_set in Hi. by destruct (reconcile_loop _ _ _) as [? [| |]]. }
  specialize (Hl (bt_keys (end_to_end_reliable_tx st)) clock st).
  destruct (reconcile_loop _ _ _) as [st1 [ids|e|]]; [|done..]. cbn [modify fst] in *.
  eapply same_but_e2e_trans; [exact Hl|]. clear. revert st1. induction ids as [|id ids IH]; intros st; cbn; [apply same_but_e2e_refl|].
  eapply same_but_e2e_set, IH.
Qed.

Lemma same_but_e2e_routes st st' : same_but_e2e st st' -> discovery_routes st' = discovery_routes st.
Proof. intros E. apply (f_equal discovery_routes) in E. exact E. Qed.

(** What a discovery packet says. *)
Inductive Said :=
  | SaidEndpoints (eps : list DataEndpoint)
  | SaidSources (srcs : list Str)
  | SaidTopology (boards : list TopologyBoardNode).

Definition said (pkt : Packet) : TelemetryResult Said :=
  if ty pkt =? DiscoveryAnnounce then eps ← decode_discovery_announce pkt; Ok (SaidEndpoints eps)
  else if ty pkt =? DiscoveryTimeSyncSources then srcs ← decode_discovery_timesync_sources pkt; Ok (SaidSources srcs)
  else boards ← decode_discovery_topology pkt; Ok (SaidTopology boards).

(** What a record tells of the boards of a network: who is listed, with which
    endpoints, time sources and connections, and what is reachable at all. *)
Record tells (s : DiscoverySenderState) (L : Str -> Prop) (E : Str -> DataEndpoint -> Prop)
    (T C : Str -> Str -> Prop) : Prop := {
  tl_normal : topology_normal (topology_boards s);
  tl_listed a : listed (topology_boards s) a <-> L a;
  tl_endpoints a e : knows reachable_endpoints (topology_boards s) a e <-> E a e;
  tl_sources a x : knows reachable_timesync_sources (topology_boards s) a x <-> T a x;
  tl_connections a x : knows connections (topology_boards s) a x <-> C a x;
  tl_reachable e : e ∈ ds_reachable s <-> exists a, E a e;
  tl_all_sources x : x ∈ ds_timesync_sources s <-> exists a, T a x
}.

(** The record [s] of the announcer [name] after it said [c], by the record
    [old] before: an announcement of endpoints or of time sources replaces
    those of the announcer's own board, a topology replaces all boards; a link
    without link-local permission is not taught link-local endpoints. *)
Definition recorded (link_local_enabled : bool) (name : Str) (c : Said) (old s : DiscoverySenderState) : Prop :=
  let before := topology_boards old in
  let shown e := link_local_enabled = true \/ is_link_local_only e = false in
  match c with
  | SaidEndpoints eps =>
      tells s (fun a => listed before a \/ a = name)
        (fun a e => if decide (a = name) then e ∈ eps /\ shown e else knows reachable_endpoints before a e)
        (knows reachable_timesync_sources before) (knows connections before)
  | SaidSources srcs =>
      tells s (fun a => listed before a \/ a = name) (knows reachable_endpoints before)
        (fun a x => if decide (a = name) then x ∈ srcs else knows reachable_timesync_sources before a x)
        (knows connections before)
  | SaidTopology boards =>
      tells s (listed boards) (fun a e => knows reachable_endpoints boards a e /\ shown e)
        (knows reachable_timesync_sources boards) (knows connections boards)
  end.

(** The boards of the record changed what they tell. *)
Definition content_changed (old s : DiscoverySenderState) : Prop :=
  let '(l, l') := (topology_boards old, topology_boards s) in
  (exists a e, ~ (knows reachable_endpoints l a e <-> knows reachable_endpoints l' a e))
  \/ (exists a x, ~ (knows reachable_timesync_sources l a x <-> knows reachable_timesync_sources l' a x))
  \/ (exists a x, ~ (knows connections l a x <-> knows connections l' a x)).

Lemma normalize_elem l b : NoDup (map sender_id l) ->
  b ∈ normalize_topology_boards l <-> exists b0, b0 ∈ l /\ b = normalize_board b0.
Proof.
  intros Hnd. unfold normalize_topology_boards. split.
  - intros (b' & -> & Hb)%dedup_subset%elem_of_sort%list_elem_of_fmap. by exists b'.
  - intros (b0 & Hin & ->).
    assert (normalize_board b0 ∈ sort_by_key sender_id (map normalize_board l)) as Hs
      by (apply elem_of_sort, list_elem_of_fmap; by exists b0).
    apply (dedup_key sender_id) in Hs as (b' & Hb' & Hk).
    pose proof (dedup_subset _ _ _ Hb') as Hin'. apply elem_of_sort, list_elem_of_fmap in Hin' as (b'' & -> & Hb'').
    assert (b'' = b0) as ->; [|done]. cbn in Hk.
    apply list_elem_of_lookup in Hb'' as [i Hi], Hin as [j Hj]. assert (i = j) as ->; [|congruence].
    apply (NoDup_lookup _ _ _ (sender_id b0) Hnd); rewrite list_lookup_fmap, ?Hi, ?Hj; cbn; congruence.
Qed.

(** A refreshed record tells what its boards, one per sender, say. *)
Lemma refresh_tells s : NoDup (map sender_id (topology_boards s)) ->
  let l := topology_boards s in
  tells (refresh_sender_topology_state s) (listed l) (knows reachable_endpoints l) (knows reachable_timesync_sources l)
    (fun a x => x <> a /\ knows connections l a x).
Proof.
  intros Hnd l. pose proof (fun b => normalize_elem l b Hnd) as Hel.
  assert (forall X (F : TopologyBoardNode -> list X) a x,
    knows F (normalize_topology_boards l) a x <-> exists b0, b0 ∈ l /\ sender_id b0 = a /\ x ∈ F (normalize_board b0)) as Hkn.
  { intros X F a x. unfold knows. setoid_rewrite Hel. split.
    - intros (b & (b0 & Hin & ->) & Hs & Hx). by exists b0.
    - intros (b0 & Hin & Hs & Hx). exists (normalize_board b0). split; [by exists b0|done]. }
  assert (forall a e, knows reachable_endpoints (normalize_topology_boards l) a e <-> knows reachable_endpoints l a e) as He.
  { intros. rewrite Hkn. unfold knows. cbn. by setoid_rewrite elem_of_sort_dedup. }
  assert (forall a x, knows reachable_timesync_sources (normalize_topology_boards l) a x <-> knows reachable_timesync_sources l a x) as Hs.
  { intros. rewrite Hkn. unfold knows. cbn. by setoid_rewrite elem_of_sort_dedup. }
  split; cbn -[sort_dedup]; fold l.
  - apply normalize_normal.
  - intros a. unfold listed. setoid_rewrite Hel. split.
    + intros (b & (b0 & Hin & ->) & Ha). by exists b0.
    + intros (b0 & Hin & Ha). exists (normalize_board b0). split; [by exists b0|done].
  - exact He.
  - exact Hs.
  - intros a x. rewrite Hkn. unfold knows. cbn. setoid_rewrite elem_of_sort_dedup. setoid_rewrite elem_of_List_filter.
    split.
    + intros (b0 & Hin & Ha & Hx & Hne). apply negb_true_iff, bool_decide_eq_false in Hne. split; [congruence|]. by exists b0.
    + intros (Hne & b0 & Hin & Ha & Hx). exists b0. split_and!; try done. apply negb_true_iff, bool_decide_false. congruence.
  - intros e. rewrite elem_of_sort_dedup, elem_of_concat. setoid_rewrite <- He. unfold knows. split.
    + intros (k & (b & -> & Hb)%list_elem_of_fmap & Hx). exists (sender_id b), b. done.
    + intros (a & b & Hb & _ & Hx). exists (reachable_endpoints b). split; [|done]. apply list_elem_of_fmap. by exists b.
  - intros e. rewrite elem_of_sort_dedup, elem_of_concat. setoid_rewrite <- Hs. unfold knows. split.
    + intros (k & (b & -> & Hb)%list_elem_of_fmap & Hx). exists (sender_id b), b. done.
    + intros (a & b & Hb & _ & Hx). exists (reachable_timesync_sources b). split; [|done]. apply list_elem_of_fmap. by exists b.
Qed.

Lemma board_mut_senders name f l :
  (forall b, sender_id (f b) = sender_id b) -> NoDup (map sender_id l) ->
  NoDup (map sender_id (sender_topology_board_mut name f l)).
Proof.
  intros Hf Hnd.
  assert (forall x, x ∈ map sender_id (sender_topology_board_mut name f l) -> x ∈ map sender_id l \/ x = name) as Hsub.
  { clear Hnd. induction l as [|b l IH]; intros x; cbn [sender_topology_board_mut map].
    - rewrite Hf. intros ->%list_elem_of_singleton. by right.
    - case_bool_decide; cbn [map]; rewrite ?Hf, !elem_of_cons; [tauto|]. intros [?|?%IH]; tauto. }
  clear Hsub. induction l as [|b l IH]; cbn [sender_topology_board_mut map]; [rewrite Hf; apply NoDup_singleton|].
  cbn [map] in Hnd. apply NoDup_cons in Hnd as [Hb Hnd]. case_bool_decide as Hn; cbn [map]; rewrite ?Hf.
  - by apply NoDup_cons.
  - apply NoDup_cons. split; [|by apply IH]. clear -Hf Hb Hn. induction l as [|c l IH]; cbn [sender_topology_board_mut map] in *.
    + rewrite Hf. intros Hx%list_elem_of_singleton. by apply Hn.
    + case_bool_decide; cbn [map]; rewrite ?Hf; [done|]. rewrite elem_of_cons in *. intros [?|?]; [tauto|]. apply IH; tauto.
Qed.

Lemma board_mut_elem name f l b : NoDup (map sender_id l) ->
  b ∈ sender_topology_board_mut name f l <->
  b = f (sender_topology_board name l) \/ (b ∈ l /\ sender_id b <> name).
Proof.
  unfold sender_topology_board. induction l as [|c l IH]; intros Hnd; cbn [sender_topology_board_mut List.find].
  { rewrite list_elem_of_singleton, elem_of_nil. cbn. tauto. }
  cbn [map] in Hnd. apply NoDup_cons in Hnd as [Hc Hnd]. case_bool_decide as Hn; cbn [default]; rewrite !elem_of_cons.
  - assert (forall b', b' ∈ l -> sender_id b' <> name) as Hne.
    { intros b' Hin Hb. apply Hc. rewrite Hn, <- Hb. by apply list_elem_of_fmap_2. }
    split; [intros [->|Hin]; [by left|right; by eauto]|]. intros [->|[[->|Hin] Hb]]; [by left|done|by right].
  - rewrite IH by done. split; [intros [->|[->|[Hin Hb]]]|intros [->|[[->|Hin] Hb]]]; eauto.
Qed.

Lemma board_found_elem name l b : b ∈ l -> sender_id b = name -> NoDup (map sender_id l) -> sender_topology_board name l = b.
Proof.
  unfold sender_topology_board. induction l as [|c l IH]; intros Hin Hb Hnd; [by apply elem_of_nil in Hin|].
  cbn [map] in Hnd. apply NoDup_cons in Hnd as [Hc Hnd]. cbn [List.find]. case_bool_decide as Hn; cbn.
  - apply elem_of_cons in Hin as [->|Hin]; [done|]. exfalso. apply Hc. rewrite Hn, <- Hb. by apply list_elem_of_fmap_2.
  - apply elem_of_cons in Hin as [->|Hin]; [done|]. by apply IH.
Qed.

Lemma board_sender name l : sender_id (sender_topology_board name l) = name.
Proof.
  unfold sender_topology_board. destruct (List.find _ l) as [b|] eqn:E; [|done].
  by apply find_some in E as [_ Hb%bool_decide_eq_true].
Qed.

(** What the announcer's own board knows after a change of it, and the others. *)
Lemma board_mut_views {X} (F : TopologyBoardNode -> list X) name f l a x :
  (forall b, sender_id (f b) = sender_id b) -> NoDup (map sender_id l) ->
  knows F (sender_topology_board_mut name f l) a x <->
  if decide (a = name) then x ∈ F (f (sender_topology_board name l)) else knows F l a x.
Proof.
  intros Hf Hnd. unfold knows. setoid_rewrite board_mut_elem; [|done]. destruct (decide (a = name)) as [->|Hne].
  - split.
    + intros (b & [->|[_ Hb]] & Hs & Hx); [done|by rewrite Hs in Hb].
    + intros Hx. eexists. split; [by left|]. by rewrite Hf, board_sender.
  - split.
    + intros (b & [->|[Hin _]] & Hs & Hx); [rewrite Hf, board_sender in Hs; congruence|by exists b].
    + intros (b & Hin & Hs & Hx). exists b. split; [right; split; [done|congruence]|done].
Qed.

Lemma board_knows {X} (F : TopologyBoardNode -> list X) l a x :
  F (empty_board a) = [] -> NoDup (map sender_id l) -> x ∈ F (sender_topology_board a l) <-> knows F l a x.
Proof.
  intros He Hnd. split.
  - intros Hx. unfold sender_topology_board in Hx. destruct (List.find _ l) as [b|] eqn:E; cbn in Hx.
    + apply find_some in E as [Hin Hb%bool_decide_eq_true]. exists b. by apply list_elem_of_In in Hin.
    + rewrite He in Hx. by apply elem_of_nil in Hx.
  - intros (b & Hin & Hs & Hx). by rewrite (board_found_elem a l b).
Qed.

Lemma board_mut_listed name f l a : (forall b, sender_id (f b) = sender_id b) -> NoDup (map sender_id l) ->
  listed (sender_topology_board_mut name f l) a <-> listed l a \/ a = name.
Proof.
  intros Hf Hnd. unfold listed. setoid_rewrite board_mut_elem; [|done]. split.
  - intros (b & [->|[Hin Hb]] & Hs); [right; by rewrite Hf, board_sender in Hs|left; by exists b].
  - destruct (decide (a = name)) as [->|Hne]; [intros _; eexists; split; [by left|by rewrite Hf, board_sender]|].
    intros [(b & Hin & Hs)|?]; [|done]. exists b. split; [right; split; [done|congruence]|done].
Qed.

Lemma tells_ext s (L L' : Str -> Prop) (E E' : Str -> DataEndpoint -> Prop) (T T' C C' : Str -> Str -> Prop) :
  tells s L E T C -> (forall a, L a <-> L' a) -> (forall a e, E a e <-> E' a e) -> (forall a x, T a x <-> T' a x) ->
  (forall a x, C a x <-> C' a x) -> tells s L' E' T' C'.
Proof.
  intros [T1 T2 T3 T4 T5 T6 T7] HL HE HT HC. split; [done| | | | | |]; intros.
  - etransitivity; [apply T2|apply HL]. - etransitivity; [apply T3|apply HE].
  - etransitivity; [apply T4|apply HT]. - etransitivity; [apply T5|apply HC].
  - rewrite T6. split; intros [a Ha]; exists a; by apply HE.
  - rewrite T7. split; intros [a Ha]; exists a; by apply HT.
Qed.

Lemma shown_elem (ll : bool) eps e :
  e ∈ (if ll then eps else no_link_local eps) <-> e ∈ eps /\ (ll = true \/ is_link_local_only e = false).
Proof.
  destruct ll; [naive_solver|]. unfold no_link_local. rewrite elem_of_List_filter, negb_true_iff. naive_solver.
Qed.

(** The change of the announcer's own board, refreshed. *)
Lemma own_board_tells name f s :
  (forall b, sender_id (f b) = sender_id b) -> (forall b, connections (f b) = connections b) ->
  topology_normal (topology_boards s) ->
  let l := topology_boards s in
  let own := sender_topology_board name l in
  tells (refresh_sender_topology_state (with_boards (sender_topology_board_mut name f l) s))
    (fun a => listed l a \/ a = name)
    (fun a e => if decide (a = name) then e ∈ reachable_endpoints (f own) else knows reachable_endpoints l a e)
    (fun a x => if decide (a = name) then x ∈ reachable_timesync_sources (f own) else knows reachable_timesync_sources l a x)
    (knows connections l).
Proof.
  intros Hf Hc Hn l own. pose proof (normal_nodup l Hn) as Hnd.
  eapply tells_ext; [apply refresh_tells; by apply board_mut_senders|..]; cbn [topology_boards with_boards].
  - intros a. by apply board_mut_listed.
  - intros a e. by rewrite board_mut_views.
  - intros a e. by rewrite board_mut_views.
  - intros a x. rewrite board_mut_views by done. rewrite Hc. case_decide as Ha.
    + subst a. rewrite board_knows by done. split; [tauto|]. intros Hx. split; [|done].
      intros ->. by apply (knows_self l name Hn).
    + split; [tauto|]. intros Hx. split; [|done]. intros ->. by apply (knows_self l a Hn).
Qed.

Lemma learnt_endpoints ll name eps s : topology_normal (topology_boards s) ->
  recorded ll name (SaidEndpoints eps) s (snd (learn_endpoints ll name eps s)).
Proof.
  intros Hn. unfold learn_endpoints. cbn [snd recorded]. pose proof (normal_nodup _ Hn).
  eapply tells_ext; [by apply own_board_tells|done| | |done].
  - intros a e. cbn [with_endpoints reachable_endpoints]. case_decide; [|done]. apply shown_elem.
  - intros a x. cbn [with_endpoints reachable_timesync_sources]. case_decide; [|done]. subst a. by apply board_knows.
Qed.

Lemma learnt_sources ll name srcs s : topology_normal (topology_boards s) ->
  recorded ll name (SaidSources srcs) s (snd (learn_sources name srcs s)).
Proof.
  intros Hn. unfold learn_sources. cbn [snd recorded]. pose proof (normal_nodup _ Hn).
  eapply tells_ext; [by apply own_board_tells|done| |done|done].
  intros a e. cbn [with_timesync_sources reachable_endpoints]. case_decide; [|done]. subst a. by apply board_knows.
Qed.

Lemma learnt_topology ll name boards s : topology_normal boards ->
  recorded ll name (SaidTopology boards) s (snd (learn_topology ll boards s)).
Proof.
  intros Hn. unfold learn_topology. cbn [snd recorded].
  assert (forall b, sender_id (hide_link_local ll b) = sender_id b) as Hs by (intros; by apply hide_sender).
  assert (NoDup (map sender_id (map (hide_link_local ll) boards))) as Hnd.
  { rewrite map_map. erewrite map_ext by exact Hs. by apply normal_nodup. }
  eapply tells_ext; [by apply refresh_tells|..]; cbn [topology_boards with_boards].
  - intros a. by apply listed_map.
  - intros a e. rewrite knows_map by done. unfold knows, hide_link_local.
    destruct ll; [naive_solver|]. cbn. setoid_rewrite (shown_elem false). naive_solver.
  - intros a x. rewrite knows_map by done. unfold knows, hide_link_local. by destruct ll.
  - intros a x. rewrite knows_map by done.
    assert (knows (fun b => connections (hide_link_local ll b)) boards a x <-> knows connections boards a x) as ->
      by (unfold knows, hide_link_local; by destruct ll).
    split; [tauto|]. intros Hx. split; [|done]. intros ->. by apply (knows_self boards a Hn).
Qed.

Lemma unchanged_content old s L E T C : tells s L E T C ->
  (forall a e, E a e <-> knows reachable_endpoints (topology_boards old) a e) ->
  (forall a x, T a x <-> knows reachable_timesync_sources (topology_boards old) a x) ->
  (forall a x, C a x <-> knows connections (topology_boards old) a x) -> ~ content_changed old s.
Proof.
  intros [_ _ T3 T4 T5 _ _] HE HT HC [(a & e & Hx)|[(a & x & Hx)|(a & x & Hx)]]; apply Hx; symmetry.
  - etransitivity; [apply T3|apply HE]. - etransitivity; [apply T4|apply HT]. - etransitivity; [apply T5|apply HC].
Qed.

(** What is learnt of a packet: what it says, and whether that is new. *)
Lemma learn_said ll pkt old : is_discovery_type (ty pkt) = true -> topology_normal (topology_boards old) ->
  match said pkt with
  | Ok c => exists changed s, learn_from_packet ll pkt old = Ok (changed, s)
      /\ recorded ll (sender pkt) c old s /\ (changed = false -> ~ content_changed old s)
  | Err e => learn_from_packet ll pkt old = Err e
  | Panic => learn_from_packet ll pkt old = Panic
  end.
Proof.
  intros Hty Hn. pose proof (normal_nodup _ Hn) as Hnd. unfold said, learn_from_packet, is_discovery_type in *.
  destruct (ty pkt =? DiscoveryAnnounce); [|destruct (ty pkt =? DiscoveryTimeSyncSources)].
  - destruct (decode_discovery_announce pkt) as [eps| |]; cbn [res_bind mbind res_mbind]; [|done..].
    destruct (learn_endpoints ll (sender pkt) eps old) as [changed s] eqn:El. exists changed, s. split; [done|].
    pose proof (learnt_endpoints ll (sender pkt) eps old Hn) as Hr. rewrite El in Hr. cbn [snd recorded] in Hr. split; [done|].
    intros ->. eapply unchanged_content; [exact Hr| |done|done]. intros a e. cbn beta. case_decide; [|done]. subst a.
    unfold learn_endpoints in El. injection El as Hb _. apply negb_false_iff, bool_decide_eq_true in Hb.
    rewrite <- shown_elem, <- Hb. by apply board_knows.
  - destruct (decode_discovery_timesync_sources pkt) as [srcs| |]; cbn [res_bind mbind res_mbind]; [|done..].
    destruct (learn_sources (sender pkt) srcs old) as [changed s] eqn:El. exists changed, s. split; [done|].
    pose proof (learnt_sources ll (sender pkt) srcs old Hn) as Hr. rewrite El in Hr. cbn [snd recorded] in Hr. split; [done|].
    intros ->. eapply unchanged_content; [exact Hr|done| |done]. intros a e. cbn beta. case_decide; [|done]. subst a.
    unfold learn_sources in El. injection El as Hb _. apply negb_false_iff, bool_decide_eq_true in Hb.
    rewrite <- Hb. by apply board_knows.
  - cbn [orb] in Hty. rewrite Hty.
    destruct (decode_discovery_topology pkt) as [boards| |] eqn:Ed; cbn [res_bind mbind res_mbind]; [|done..].
    destruct (learn_topology ll boards old) as [changed s] eqn:El. exists changed, s. split; [done|].
    assert (topology_normal boards) as Hb.
    { unfold decode_discovery_topology in Ed. rewrite Hty in Ed. cbn [negb] in Ed. apply bind_ok in Ed as (bytes & _ & Ed).
      unfold decode_discovery_topology_payload in Ed. apply bind_ok in Ed as ([bs r] & _ & Ed).
      apply bind_ok in Ed as (u & _ & [= <-]). apply normalize_normal. }
    pose proof (learnt_topology ll (sender pkt) boards old Hb) as Hr. rewrite El in Hr. cbn [snd recorded] in Hr. split; [done|].
    intros ->. unfold learn_topology in El. injection El as Hc <-. apply negb_false_iff, bool_decide_eq_true in Hc.
    assert (topology_boards (refresh_sender_topology_state (with_boards (map (hide_link_local ll) boards) old))
      = topology_boards old) as Hsame by (rewrite <- Hc; by apply normalize_id).
    unfold content_changed. rewrite Hsame. naive_solver.
Qed.

(** The boards of every record are in normal form. *)
Definition records_normal (l : list (RouterSideId * DiscoverySideState)) : Prop :=
  forall side a s, heard l side a s -> topology_normal (topology_boards s).

Lemma sender_state_normal st side name : routes_ok (discovery_routes st) -> records_normal (discovery_routes st) ->
  topology_normal (topology_boards (sender_state_of st side name)).
Proof.
  intros Hok Hn. assert (topology_normal []) as Hnil by (split; constructor). unfold sender_state_of, route_of.
  destruct (bt_get side (discovery_routes st)) as [route|] eqn:Er; [|exact Hnil]. cbn [default id].
  destruct (bt_get name (announcers route)) as [s|] eqn:Es; [|exact Hnil]. cbn [default id].
  apply (Hn side name), heard_get; [by apply routes_ok_sorted|]. by exists route.
Qed.

Lemma recorded_normal ll name c old s : recorded ll name c old s -> topology_normal (topology_boards s).
Proof. by destruct c; intros []. Qed.

Lemma fit_heard st side a s :
  heard (discovery_routes (fit_discovery_budget st)) side a s -> heard (discovery_routes st) side a s.
Proof. intros (route & Hin & Ha). exists route. split; [by apply fit_routes_sub|done]. Qed.

(** C32. Learning from a discovery packet, on every branch.  Other packets are
    not touched; a packet from nowhere or from the router itself, and a packet
    its decoder refuses, change nothing.  Otherwise exactly the announcer's
    record on that side is replaced, seen now, by what the packet says: an
    announcement of endpoints or time sources replaces those of the announcer's
    own board and keeps its other boards, a topology replaces them all, and
    what is reachable is what the boards list.  Memory permitting nothing else
    is forgotten; every route keeps summarising its announcers, in normal form;
    and when the boards of the record tell something else than before, an
    announcement is due at once.  A link without link-local permission never
    teaches a link-local endpoint. *)
Theorem learn_discovery_correct now clock pkt src st :
  routes_ok (discovery_routes st) -> records_normal (discovery_routes st) ->
  let '(st', r) := learn_discovery_packet self now clock pkt src st in
  (is_discovery_type (ty pkt) = false -> st' = st /\ r = Ok false)
  /\ (is_discovery_type (ty pkt) = true -> src = None \/ sender pkt = router_sender self -> st' = st /\ r = Ok true)
  /\ (forall side, is_discovery_type (ty pkt) = true -> src = Some side -> sender pkt <> router_sender self ->
      routes_ok (discovery_routes st') /\ records_normal (discovery_routes st')
      /\ match said pkt with
         | Err e => st' = st /\ r = Err e
         | Panic => st' = st /\ r = Panic
         | Ok c =>
             let old := sender_state_of st side (sender pkt) in
             exists s, recorded (side_link_local st side) (sender pkt) c old s
               /\ (shared_queue_bytes_used (store_sender now side (sender pkt) s st) <= MAX_QUEUE_BUDGET ->
                   forall side' a s', heard (discovery_routes st') side' a s' <->
                     if decide (side' = side /\ a = sender pkt) then s' = seen_at now s
                     else heard (discovery_routes st) side' a s')
               /\ (content_changed old s -> r = Ok true -> due (discovery_cadence st') now = true)
         end).
Proof.
  intros Hok Hnorm. destruct (learn_discovery_packet self now clock pkt src st) as [st' r] eqn:E.
  unfold learn_discovery_packet in E. split; [|split].
  - intros Ht. rewrite Ht in E. by injection E as <- <-.
  - intros Ht Hsrc. rewrite Ht in E. cbn [negb] in E. destruct src as [side|]; [|by injection E as <- <-].
    destruct Hsrc as [?|Hown]; [done|]. rewrite bool_decide_true in E by done. by injection E as <- <-.
  - intros side Ht -> Hown. rewrite Ht in E. cbn [negb] in E. rewrite bool_decide_false in E by done.
    rewrite RM_run in E.
    pose proof (learn_said (side_link_local st side) pkt _ Ht (sender_state_normal st side (sender pkt) Hok Hnorm)) as Hl.
    destruct (said pkt) as [c|e|]; [|rewrite Hl in E; by injection E as <- <-..].
    destruct Hl as (changed & s & Hl & Hrec & Hch). rewrite Hl in E.
    cbn [fst snd] in E. rewrite RM_run in E. cbn [modify] in E. rewrite RM_run in E.
    set (st1 := fit_discovery_budget (store_sender now side (sender pkt) s st)) in *.
    assert (routes_ok (discovery_routes st1)) as Hok1 by by apply fit_routes_ok, store_sender_ok.
    pose proof (reconcile_same clock st1) as Hsame.
    destruct (reconcile_end_to_end_reliable_destinations_locked clock st1) as [st2 r2]. cbn [fst] in Hsame.
    assert (discovery_routes st' = discovery_routes st1
      /\ (changed = true -> r = Ok true -> due (discovery_cadence st') now = true)) as [Hr Hdue].
    { pose proof (same_but_e2e_routes _ _ Hsame) as Hr. destruct r2 as [[]|e|]; [|by injection E as <- <-..].
      rewrite RM_run in E. destruct changed; cbn in E; injection E as <- <-; [|done]. split; [exact Hr|].
      intros _ _. unfold due. cbn. apply Z.leb_le. lia. }
    rewrite Hr. split; [done|]. split.
    + intros side' a s' Hh%fit_heard. apply store_sender_heard in Hh; [|done]. destruct (decide _).
      * subst s'. cbn. by eapply recorded_normal.
      * by eapply Hnorm.
    + exists s. split; [done|]. split.
      * intros Hfit side' a s'. unfold st1. rewrite fit_enough by done. by apply store_sender_heard.
      * intros Hc Hrt. apply Hdue; [|done]. destruct changed; [done|]. by destruct Hch.
Qed.

(** ** Announcements that never settle *)

Lemma board_mut_knows name eps l e :
  e ∈ eps -> knows reachable_endpoints (sender_topology_board_mut name (with_endpoints eps) l) name e.
Proof.
  intros He. induction l as [|b l IH]; cbn [sender_topology_board_mut].
  { eexists. split; [by apply list_elem_of_singleton|]. done. }
  destruct (bool_decide_reflect (sender_id b = name)) as [Hb|Hb].
  - eexists. split; [by left|]. done.
  - destruct IH as (b' & Hin & Hs). exists b'. split; [by right|done].
Qed.

Lemma board_found name l e :
  e ∈ reachable_endpoints (sender_topology_board name l) -> knows reachable_endpoints l name e.
Proof.
  unfold sender_topology_board. destruct (List.find _ l) as [b|] eqn:E; cbn; [|by intros ?%elem_of_nil].
  apply find_some in E as [Hin Hb%bool_decide_eq_true]. intros He. exists b. by apply list_elem_of_In in Hin.
Qed.

Lemma normalize_knows_endpoint l s e :
  knows reachable_endpoints l s e -> NoDup (map sender_id l) -> knows reachable_endpoints (normalize_topology_boards l) s e.
Proof.
  intros (b & Hin & <- & He) Hnd. unfold normalize_topology_boards.
  assert (normalize_board b ∈ sort_by_key sender_id (map normalize_board l)) as Hs
    by (apply elem_of_sort, list_elem_of_fmap; by exists b).
  apply (dedup_key sender_id) in Hs as (b' & Hb' & Hk). exists b'. split; [done|]. split; [done|].
  pose proof (dedup_subset _ _ _ Hb') as Hin'. apply elem_of_sort, list_elem_of_fmap in Hin' as (b'' & -> & Hb'').
  assert (b'' = b) as ->; [|cbn; by apply elem_of_sort_dedup]. cbn in Hk.
  apply list_elem_of_lookup in Hb'' as [i Hi], Hin as [j Hj]. assert (i = j) as ->; [|congruence].
  apply (NoDup_lookup _ _ _ (sender_id b) Hnd); rewrite list_lookup_fmap, ?Hi, ?Hj; cbn; congruence.
Qed.

(** Announcements of a neighbour that reaches more than its own endpoints
    never look stable.  Each cycle announces all the endpoints it can reach,
    which the listener writes to the neighbour's own board, and then the
    topology, in which that board has only its own: both are taken for changes,
    each makes an announcement of the listener due at once, and afterwards the
    listener holds what it held before. *)
Theorem announcements_never_settle self_b stb sources now e s :
  let boards := advertised_discovery_topology_for_link_locked self_b stb sources now true in
  let eps := advertised_discovery_endpoints_for_link_locked self_b stb sources now true in
  let name := router_sender self_b in
  e ∈ eps -> ~ knows reachable_endpoints boards name e -> topology_boards s = boards ->
  let '(changed1, s1) := learn_endpoints true name eps s in
  let '(changed2, s2) := learn_topology true boards s1 in
  changed1 = true /\ changed2 = true /\ topology_boards s2 = topology_boards s
  /\ (forall sta later, due (discovery_cadence (note_discovery_topology_change_locked later sta)) later = true).
Proof.
  cbn zeta. set (boards := advertised_discovery_topology_for_link_locked _ _ _ _ _).
  set (eps := advertised_discovery_endpoints_for_link_locked _ _ _ _ _). set (name := router_sender self_b).
  intros He Hno Hs. unfold learn_endpoints, learn_topology. cbn [fst snd].
  pose proof (proj1 (advertised_topology_correct self_b stb sources now true)) as Hnormal. fold boards in Hnormal.
  assert (map (hide_link_local true) boards = boards) as Hmap by apply map_id.
  split; [|split; [|split]].
  - rewrite Hs. apply negb_true_iff, bool_decide_eq_false. intros Heq. apply Hno, board_found. by rewrite Heq.
  - rewrite Hmap. apply negb_true_iff, bool_decide_eq_false. cbn. intros Heq. apply Hno. rewrite <- Heq, Hs.
    apply normalize_knows_endpoint; [by apply board_mut_knows|].
    apply board_mut_senders; [done|]. by apply normal_nodup.
  - rewrite Hmap, Hs. cbn. by apply normalize_id.
  - intros sta later. unfold due. cbn. apply Z.leb_le. lia.
Qed.
End Learn.

(** ** Witnesses *)

Definition board_router (name : string) (ep : DataEndpoint) : Router :=
  {| router_sender := lit name;
     router_cfg := {| handlers := [{| endpoint := ep; handler := PacketHandler |}]; cfg_reliable_enabled := true;
                      cfg_sender := None; cfg_timesync := None |} |}.

(** A router with one side, on which it heard board B list the board GHOST. *)
Definition one_side : RouterInner := fst (add_side (lit "LINK") HPacket side_options_default 0 fresh_inner).

Definition heard_ghost : DiscoverySenderState :=
  refresh_sender_topology_state (with_boards [board_of "B" [0] [lit "GHOST"]; board_of "GHOST" [1] [lit "B"]] sender_state_new).

Definition ghost_state : RouterInner := store_sender 0 0 (lit "B") heard_ghost one_side.

Lemma one_side_routes : routes_ok (discovery_routes one_side).
Proof. split; [constructor|]. intros side route Hin. by apply elem_of_nil in Hin. Qed.

Lemma one_side_normal : records_normal (discovery_routes one_side).
Proof. intros side a s (route & Hin & _). by apply elem_of_nil in Hin. Qed.

Lemma ghost_boards_persist_witness :
  exists sta stb,
    @believes sta 0 (lit "B") (lit "GHOST") 90000 /\ @believes stb 0 (lit "A") (lit "GHOST") 90000
    /\ foldl (fun sts now => @exchange default_schema (board_router "A" 0) (board_router "B" 1) true true 0 0 [] [] now sts)
         (ghost_state, one_side) [20000; 45000; 61000; 90000] = (sta, stb).
Proof.
  assert (routes_ok (discovery_routes ghost_state)) as Hg by (apply store_sender_ok, one_side_routes).
  assert (believes ghost_state 0 (lit "B") (lit "GHOST") 0) as Hb.
  { eexists. split; [apply store_sender_heard; [apply one_side_routes|]; rewrite decide_True by done; reflexivity|].
    split; [done|]. exists (normalize_board (board_of "GHOST" [1] [lit "B"])). split; [|reflexivity].
    vm_compute. right. left. }
  pose proof (@ghost_boards_persist default_schema (board_router "A" 0) (board_router "B" 1) true true 0 0 [] []
    [20000; 45000; 61000; 90000] ghost_state one_side (lit "GHOST") 0 Hg one_side_routes Hb
    ltac:(unfold rounds_ok, DISCOVERY_ROUTE_TTL_MS; lia)) as Hp.
  destruct (foldl _ _ _) as [sta stb]. destruct Hp as [P1 P2]. exists sta, stb.
  split; [exact P1|]. split; [exact (P2 ltac:(discriminate))|reflexivity].
Defined.

(** An endpoint announcement of board GPS, heard on side 0. *)
Definition gps_announcement : Packet :=
  the_packet (@build_discovery_announce default_config default_schema (lit "GPS") 5 [0; 1]).

(** The router records what the announcer said, both endpoints. *)
Lemma learn_discovery_correct_witness :
  let '(st', r) := @learn_discovery_packet default_config default_schema run_external some_router_layout
                     (board_router "A" 0) 7 (fun _ => 7) gps_announcement (Some 0) one_side in
  r = Ok true /\ routes_ok (discovery_routes st')
  /\ exists s, heard (discovery_routes st') 0 (lit "GPS") s /\ ds_last_seen_ms s = 7
       /\ forall e, e ∈ [0; 1] -> knows reachable_endpoints (topology_boards s) (lit "GPS") e.
Proof.
  pose proof (@learn_discovery_correct default_config default_schema run_external some_router_layout
    (board_router "A" 0) 7 (fun _ => 7) gps_announcement (Some 0) one_side one_side_routes) as Hl.
  specialize (Hl one_side_normal).
  assert (snd (@learn_discovery_packet default_config default_schema run_external some_router_layout
    (board_router "A" 0) 7 (fun _ => 7) gps_announcement (Some 0) one_side) = Ok true) as Hr by (vm_compute; reflexivity).
  assert (discovery_routes (fst (@learn_discovery_packet default_config default_schema run_external some_router_layout
    (board_router "A" 0) 7 (fun _ => 7) gps_announcement (Some 0) one_side))
    = discovery_routes (store_sender 7 0 (lit "GPS")
        (snd (@learn_endpoints default_schema false (lit "GPS") [0; 1] sender_state_new)) one_side)) as Hst by (vm_compute; reflexivity).
  destruct (learn_discovery_packet _ _ _ _ _ _) as [st' r]. cbn [fst snd] in Hr, Hst. subst r. destruct Hl as (_ & _ & Hl).
  specialize (Hl 0 ltac:(vm_compute; reflexivity) eq_refl ltac:(vm_compute; discriminate)).
  destruct Hl as (Hok & _ & _). split; [reflexivity|]. split; [exact Hok|].
  eexists. rewrite Hst. split; [apply store_sender_heard; [apply one_side_routes|]; rewrite decide_True by done; reflexivity|].
  split; [reflexivity|]. intros e He. cbn [seen_at topology_boards].
  apply (learnt_endpoints false (lit "GPS") [0; 1] sender_state_new); [split; constructor|].
  rewrite decide_True by done. split; [exact He|]. right. apply elem_of_cons in He as [->|He%list_elem_of_singleton]; [|subst e]; vm_compute; reflexivity.
Defined.

(** Board B (endpoint 1) next to a board A (endpoint 0) it hears. *)
Definition b_hears_a : RouterInner :=
  store_sender 0 0 (lit "A") (refresh_sender_topology_state (with_boards [board_of "A" [0] [lit "B"]] sender_state_new)) one_side.

Lemma announcements_never_settle_witness :
  let advertised := @advertised_discovery_topology_for_link_locked default_schema (board_router "B" 1) b_hears_a [] 5 true in
  let s := refresh_sender_topology_state (with_boards advertised sender_state_new) in
  fst (@learn_endpoints default_schema true (lit "B") [0; 1] s) = true
  /\ @advertised_discovery_endpoints_for_link_locked default_schema (board_router "B" 1) b_hears_a [] 5 true = [0; 1].
Proof.
  cbn zeta. split; [|vm_compute; reflexivity].
  pose proof (@announcements_never_settle default_schema (board_router "B" 1) b_hears_a [] 5 0
    (refresh_sender_topology_state (with_boards (@advertised_discovery_topology_for_link_locked default_schema
       (board_router "B" 1) b_hears_a [] 5 true) sender_state_new))) as Hn.
  cbn zeta in Hn. specialize (Hn ltac:(vm_compute; left)).
  assert (@advertised_discovery_topology_for_link_locked default_schema (board_router "B" 1) b_hears_a [] 5 true
    = [board_of "A" [0] [lit "B"]; board_of "B" [1] [lit "A"]]) as E by (vm_compute; reflexivity).
  rewrite E in *.
  specialize (Hn ltac:(intros (b & Hb & Hname & He); apply elem_of_cons in Hb as [->|Hb%list_elem_of_singleton];
    [vm_compute in Hname; discriminate|subst b; vm_compute in He; apply list_elem_of_singleton in He; discriminate])
    ltac:(vm_compute; reflexivity)).
  assert (@advertised_discovery_endpoints_for_link_locked default_schema (board_router "B" 1) b_hears_a [] 5 true = [0; 1]) as Ee
    by (vm_compute; reflexivity).
  rewrite Ee in Hn. change (router_sender (board_router "B" 1)) with (lit "B") in Hn.
  destruct (learn_endpoints _ _ _ _) as [c1 s1]. destruct (learn_topology _ _ s1) as [c2 s2]. exact (proj1 Hn).
Defined.
