(* ===== verification/World.v ===== *)
(** * A router in its environment ([src/router.rs])

    The whole state of a [Router] behind its locks, and the environment it
    calls: the clock, the side callbacks and the endpoint handlers.  The router
    asks numbered questions; the environment's answer may depend on the number,
    so that a clock may advance and a callback may fail now and succeed later.
    A callback answers, and does not call the router back. *)

From stdpp Require Import gmap.
From S2P Require Import Prelude Ordered Telemetry Config Schema Queue SmallPayload Wire Packet Serialize Calendar TimeSync Discovery RouterState Routes Reliable TimeRuntime Plan.

(** ** Environment *)

(** What a handler or a side callback is called with. *)
Inductive CallArg := ArgPacket (pkt : Packet) | ArgBytes (bytes : list byte).

(** [n]th question; a question may need several readings, or several attempts. *)
Record Environment := {
  ms_at : Z -> nat -> Z;
  ns_at : Z -> nat -> Z;
  gate_busy : Z -> bool;
  isr_busy : Z -> bool;
  side_answer : Z -> RouterSideId -> nat -> CallArg -> TelemetryResult unit;
  handler_answer : Z -> EndpointHandler -> nat -> CallArg -> TelemetryResult unit
}.

(** What can be observed from outside: deliveries to local handlers, items
    handed to a side, and messages to standard error. *)
Inductive Event :=
| Delivered (h : EndpointHandler) (arg : CallArg)
| Transmitted (side : RouterSideId) (d : RouterItem)
| Replayed (side : RouterSideId) (bytes : list byte)
| Printed (msg : Str).

Record World := {
  locked_state : RouterInner;
  time_state : TimeSyncRuntime;
  isr_queue : IsrRxQueue;
  tick : Z;
  events : list Event
}.

Definition set_locked (st : RouterInner) (w : World) : World :=
  {| locked_state := st; time_state := time_state w; isr_queue := isr_queue w; tick := tick w; events := events w |}.
Definition set_time (st : TimeSyncRuntime) (w : World) : World :=
  {| locked_state := locked_state w; time_state := st; isr_queue := isr_queue w; tick := tick w; events := events w |}.
Definition set_isr (q : IsrRxQueue) (w : World) : World :=
  {| locked_state := locked_state w; time_state := time_state w; isr_queue := q; tick := tick w; events := events w |}.
Definition set_tick (n : Z) (w : World) : World :=
  {| locked_state := locked_state w; time_state := time_state w; isr_queue := isr_queue w; tick := n; events := events w |}.
Definition add_event (e : Event) (w : World) : World :=
  {| locked_state := locked_state w; time_state := time_state w; isr_queue := isr_queue w; tick := tick w;
     events := events w ++ [e] |}.

(** ** Computations *)

Definition W (A : Type) : Type := World -> World * TelemetryResult A.

#[export] Instance W_bind : MBind W := fun A B f m w =>
  let '(w, r) := m w in
  match r with Ok a => f a w | Err e => (w, Err e) | Panic => (w, Panic) end.
#[export] Instance W_ret : MRet W := fun A a w => (w, Ok a).

Lemma W_run {A B} (m : W A) (f : A -> W B) w :
  (m ≫= f) w = match m w with
               | (w, Ok a) => f a w | (w, Err e) => (w, Err e) | (w, Panic) => (w, Panic)
               end.
Proof. unfold mbind, W_bind. by destruct (m w) as [w' []]. Qed.

(** One critical section of the state lock. *)
Definition locked {A} (m : RM A) : W A := fun w =>
  let '(st, r) := m (locked_state w) in (set_locked st w, r).

(** One critical section of the time-sync lock. *)
Definition timed {A} (f : TimeSyncRuntime -> TimeSyncRuntime * TelemetryResult A) : W A := fun w =>
  let '(st, r) := f (time_state w) in (set_time st w, r).

Definition timed_op (f : TimeSyncRuntime -> TimeSyncRuntime) : W unit := timed (fun st => (f st, Ok tt)).

Definition ask {A} (f : Z -> A) : W A := fun w => (set_tick (tick w + 1) w, Ok (f (tick w))).

Definition answer {A} (r : TelemetryResult A) : W A := fun w => (w, r).

Definition log_event (e : Event) : W unit := fun w => (add_event e w, Ok tt).

(** The error of a computation as a value; a panic goes through. *)
Definition attempt (m : W unit) : W (option TelemetryError) := fun w =>
  match m w with
  | (w, Ok _) => (w, Ok None)
  | (w, Err e) => (w, Ok (Some e))
  | (w, Panic) => (w, Panic)
  end.

(** [let _ = ..;] *)
Definition ignore (m : W unit) : W unit := fun w =>
  match m w with (w, Err _) => (w, Ok tt) | r => r end.

Fixpoint for_each {A} (f : A -> W unit) (l : list A) : W unit :=
  match l with
  | [] => mret tt
  | a :: l => _ ← f a; for_each f l
  end.

Section World.
Context (env : Environment).

Definition now_ms : W Z := ask (fun n => ms_at env n 0).
Definition now_ns : W Z := ask (fun n => ns_at env n 0).

(** A clock for an operation that reads it repeatedly. *)
Definition clock_readings : W (nat -> Z) := ask (ms_at env).

Definition side_tx_active : W bool := ask (gate_busy env).

(** The transmission gate, the callback's answers and the clock around it. *)
Definition side_call (side : RouterSideId) : W SideCall := ask (fun n =>
  {| side_busy := gate_busy env n;
     on_bytes := fun i bytes => side_answer env n side i (ArgBytes bytes);
     on_packet := fun i pkt => side_answer env n side i (ArgPacket pkt);
     started_ms := ms_at env n 0; ended_ms := ms_at env n 1 |}).

(** The queue of the interrupt handlers, which another context may hold. *)
Definition with_isr {A} (f : IsrRxQueue -> IsrRxQueue * TelemetryResult A) : W A := fun w =>
  let '(q, r) := f {| busy := isr_busy env (tick w); isr_q := isr_q (isr_queue w) |} in
  (set_isr q (set_tick (tick w + 1) w), r).

Definition packet_timestamp : W Z :=
  '(now, now_n, now_n', later) ← ask (fun n => (ms_at env n 0, ns_at env n 0, ns_at env n 1, ms_at env n 1));
  timed (fun st => let '(st, ts) := packet_timestamp_ms now now_n now_n' later st in (st, Ok ts)).

(** [self.retry(MAX_HANDLER_RETRIES, ..)] of a local handler. *)
Definition deliver `{Config} (h : EndpointHandler) (arg : CallArg) : W unit :=
  _ ← log_event (Delivered h arg);
  r ← ask (fun n => retry MAX_HANDLER_RETRIES (fun i => handler_answer env n h i arg));
  answer r.
End World.

(** An environment whose clock counts the questions, and which accepts everything. *)
Definition quiet_environment : Environment :=
  {| ms_at n i := n + Z.of_nat i; ns_at n i := 1000000 * (n + Z.of_nat i); gate_busy _ := false; isr_busy _ := false;
     side_answer _ _ _ _ := Ok tt; handler_answer _ _ _ _ := Ok tt |}.
