(* ===== verification/Dispatch.v ===== *)
(** * Dispatch: delivering, sending and receiving items ([src/router.rs])

    The router's three big operations: delivery to local endpoint handlers,
    [tx_item_impl] (sending an item) and [rx_item] (receiving one), with what
    they do when a callback fails.  A failing callback makes the router send an
    error packet, which may make callbacks fail in turn: the calls of
    [tx_item_impl] below one another are bounded by [depth], and running out of
    it is the [Panic] of an exhausted stack. *)

From stdpp Require Import gmap.
From S2P Require Import Prelude Ordered Telemetry Config Schema Queue SmallPayload Wire Packet Serialize Calendar TimeSync Discovery RouterState Routes Reliable TimeRuntime Plan Topology EndToEnd Announce World.

(** What [{:?}] prints ([derive(Debug)] and [core::fmt]). *)
Class DebugText := {
  debug_endpoint : DataEndpoint -> Str;
  debug_error : TelemetryError -> Str;
  debug_str : Str -> Str
}.

Section Dispatch.
Context `{Config} `{Schema} `{External} `{Layout} `{RouterLayout} `{DebugText}.
Context (self : Router) (env : Environment).

(** ** The operations of the other components, in their environment *)

Definition tracker_of : W (option TimeSyncTracker) := fun w => (w, Ok (rt_tracker (time_state w))).

Definition should_route (d : RouterItem) (exclude : option RouterSideId) : W bool :=
  tracker ← tracker_of; now ← now_ms env; locked (should_route_remote self tracker now d exclude).

Definition plan_sides (d : RouterItem) (exclude : option RouterSideId) : W (list RouterSideId) :=
  tracker ← tracker_of; now ← now_ms env; locked (remote_side_plan self tracker now d exclude).

Definition queue_control (control_ty : DataType) (side : RouterSideId) (t : DataType) (seq : Z) : W unit :=
  ts ← packet_timestamp env; locked (queue_reliable_control (router_sender self) ts control_ty side t seq).

Definition acknowledge (pkt : Packet) : W unit :=
  ts ← packet_timestamp env; locked (queue_end_to_end_reliable_ack self ts pkt).

Definition send_to_side (side : RouterSideId) (d : RouterItem) : W unit :=
  _ ← log_event (Transmitted side d);
  now ← now_ms env; call ← side_call env side; sent ← now_ms env;
  locked (send_reliable_to_side (cfg_reliable_enabled (router_cfg self)) call side d now sent).

(** ** Duplicates *)

Definition remove_pkt_id (d : RouterItem) : RM unit :=
  hash ← lift (get_hash d);
  modify (fun st => set_recent_rx (remove_value (H := u64_cost) Z.eqb (recent_rx st) hash) st).

Definition is_duplicate_pkt (d : RouterItem) : RM bool :=
  id ← lift (get_hash d);
  seen ← get (fun st => contains Z.eqb (recent_rx st) id);
  if (seen : bool) then mret true else _ ← push_recent_rx id; mret false.

(** ** Errors of callbacks *)

Definition without (dest : option DataEndpoint) (eps : list DataEndpoint) : list DataEndpoint :=
  match dest with
  | Some failed => List.filter (fun ep => negb (ep =? failed)) eps
  | None => eps
  end.

(** The local endpoints of the packet, or else all its endpoints; never the
    endpoint that failed. *)
Definition error_recipients (eps : list DataEndpoint) (dest : option DataEndpoint) : list DataEndpoint :=
  match without dest (sort_dedup (List.filter (is_local_endpoint self) eps)) with
  | [] => without dest (sort_dedup eps)
  | recipients => recipients
  end.

Definition failure_text (what : Str) (e : TelemetryError) : Str :=
  what ++ lit " failed on device " ++ debug_str DEVICE_IDENTIFIER ++ lit ": " ++ debug_error e.

Definition error_msg (dest : option DataEndpoint) (e : TelemetryError) : Str :=
  failure_text (match dest with
                | Some failed => lit "Handler for endpoint " ++ debug_endpoint failed
                | None => lit "TX Handler"
                end) e.

Definition env_error_msg (dest : option DataEndpoint) (e : TelemetryError) : Str :=
  failure_text (lit "Handler for endpoint " ++ match dest with
                | Some failed => lit "Some(" ++ debug_endpoint failed ++ lit ")"
                | None => lit "None"
                end) e.

Definition error_packet (recipients : list DataEndpoint) (snd : Str) (ts : Z) (msg : Str) : TelemetryResult Packet :=
  data ← make_error_payload msg; packet_new TyTelemetryError recipients snd ts data.

(** [tx] is [tx_item_impl] one call deeper. *)
Section Deeper.
Context (tx : RouterTxItem -> bool -> W unit).

Definition handle_callback_error (pkt : Packet) (dest : option DataEndpoint) (e : TelemetryError) : W unit :=
  match error_recipients (pkt_endpoints pkt) dest with
  | [] => log_event (Printed (error_msg dest e))
  | recipients =>
      ts ← packet_timestamp env;
      error_pkt ← answer (error_packet recipients (router_sender self) ts (error_msg dest e));
      tx (Broadcast (RPacket error_pkt)) false
  end.

Definition handle_callback_error_from_env (en : TelemetryEnvelope) (dest : option DataEndpoint)
    (e : TelemetryError) : W unit :=
  match error_recipients (env_endpoints en) dest with
  | [] => log_event (Printed (env_error_msg dest e))
  | recipients =>
      error_pkt ← answer (error_packet recipients (env_sender en) (env_timestamp_ms en) (env_error_msg dest e));
      tx (Broadcast (RPacket error_pkt)) false
  end.

(** ** Local handlers *)

Definition with_retries (h : EndpointHandler) (arg : CallArg) (d : RouterItem) (pkt_for_ctx : option Packet)
    (env_for_ctx : option TelemetryEnvelope) : W unit :=
  failed ← attempt (deliver env h arg);
  match failed with
  | None => mret tt
  | Some e =>
      _ ← locked (remove_pkt_id d);
      _ ← match pkt_for_ctx, env_for_ctx with
          | Some pkt, _ => ignore (handle_callback_error pkt (Some (endpoint h)) e)
          | None, Some en => ignore (handle_callback_error_from_env en (Some (endpoint h)) e)
          | None, None => mret tt
          end;
      answer (Err (HandlerError "local handler failed"))
  end.

(** The endpoint is the handler's own, by the filter of every caller. *)
Definition call_handler_with_retries (h : EndpointHandler) (data : option (list byte)) (pkt_for_ctx : option Packet)
    (env_for_ctx : option TelemetryEnvelope) : W unit :=
  match data, pkt_for_ctx with
  | None, None => mret tt
  | Some bytes, _ =>
      match handler h with
      | SerializedHandler => with_retries h (ArgBytes bytes) (RSerialized bytes) pkt_for_ctx env_for_ctx
      | PacketHandler =>
          match pkt_for_ctx with
          | Some pkt => with_retries h (ArgPacket pkt) (RSerialized bytes) pkt_for_ctx env_for_ctx
          | None => answer Panic
          end
      end
  | None, Some pkt =>
      match handler h with
      | PacketHandler => with_retries h (ArgPacket pkt) (RPacket pkt) pkt_for_ctx env_for_ctx
      | SerializedHandler => mret tt
      end
  end.

(** [for dest in eps { for h in handlers.filter(..) }] *)
Definition handlers_of (eps : list DataEndpoint) : list EndpointHandler :=
  concat (map (fun dest => List.filter (fun h => endpoint h =? dest) (handlers (router_cfg self))) eps).

(** [around] is [let _ = ..] when receiving and [..?] when sending. *)
Definition deliver_packet (around : W unit -> W unit) (pkt : Packet) : W unit :=
  let eps := sort_dedup (pkt_endpoints pkt) in
  bytes_opt ← (if existsb (endpoint_has_serialized_handler self) eps
               then bytes ← answer (serialize_packet pkt); mret (Some bytes) else mret None) : W (option (list byte));
  for_each (fun h =>
    match handler h with
    | PacketHandler => around (call_handler_with_retries h None (Some pkt) None)
    | SerializedHandler =>
        bytes ← match bytes_opt with Some bytes => mret bytes | None => answer (serialize_packet pkt) end;
        around (call_handler_with_retries h (Some bytes) (Some pkt) None)
    end) (handlers_of eps).

Definition decode_validated (bytes : list byte) : TelemetryResult Packet :=
  pkt ← deserialize_packet bytes; _ ← validate pkt; Ok pkt.

(** The packet is decoded before the loop when some endpoint has a packet
    handler, and otherwise at the first packet handler. *)
Definition decode_if_needed (bytes : list byte) (en : TelemetryEnvelope) : TelemetryResult (option Packet) :=
  if existsb (endpoint_has_packet_handler self) (env_endpoints en)
  then pkt ← decode_validated bytes; Ok (Some pkt) else Ok None.

Fixpoint deliver_serialized_loop (around : W unit -> W unit) (bytes : list byte) (en : TelemetryEnvelope)
    (l : list EndpointHandler) (pkt_opt : option Packet) : W (option Packet) :=
  match l with
  | [] => mret pkt_opt
  | h :: l =>
      pkt_opt ← match handler h with
        | SerializedHandler =>
            _ ← around (call_handler_with_retries h (Some bytes) pkt_opt (Some en)); mret pkt_opt
        | PacketHandler =>
            pkt ← match pkt_opt with Some pkt => mret pkt | None => answer (decode_validated bytes) end;
            _ ← around (call_handler_with_retries h None (Some pkt) (Some en)); mret (Some pkt)
        end;
      deliver_serialized_loop around bytes en l pkt_opt
  end.

Definition deliver_serialized (around : W unit -> W unit) (bytes : list byte) (en : TelemetryEnvelope)
    (pkt_opt : option Packet) : W (option Packet) :=
  deliver_serialized_loop around bytes en (handlers_of (sort_dedup (env_endpoints en))) pkt_opt.

Definition dispatch_local_for_item (d : RouterItem) : W unit :=
  match d with
  | RPacket pkt =>
      _ ← answer (validate pkt);
      if is_internal_control_type (ty pkt) then mret tt else deliver_packet (fun m => m) pkt
  | RSerialized bytes =>
      en ← answer (peek_envelope bytes);
      if is_internal_control_type (env_ty en) then mret tt
      else
        pkt_opt ← answer (decode_if_needed bytes en);
        _ ← deliver_serialized (fun m => m) bytes en pkt_opt; mret tt
  end.

(** ** Sending *)

(** [matches!(..)] on the type of an item that may not parse. *)
Definition item_type_is (f : DataType -> bool) (d : RouterItem) : bool :=
  match d with
  | RPacket pkt => f (ty pkt)
  | RSerialized bytes => match peek_envelope bytes with Ok en => f (env_ty en) | _ => false end
  end.

Definition peek_type (d : RouterItem) : TelemetryResult DataType :=
  match d with
  | RPacket pkt => Ok (ty pkt)
  | RSerialized bytes => en ← peek_envelope bytes; Ok (env_ty en)
  end.

(** The local part of a transmission; [false]: a duplicate, nothing more to do. *)
Definition dispatch_once (d : RouterItem) : W bool :=
  seen ← locked (is_duplicate_pkt d);
  if (seen : bool) then mret false
  else _ ← (if item_type_is is_internal_control_type d then mret tt else dispatch_local_for_item d); mret true.

(** The side's callback failed: the error packet, then the error. *)
Definition tx_failed (d : RouterItem) (e : TelemetryError) : W unit :=
  _ ← match d with
      | RPacket pkt => ignore (handle_callback_error pkt None e)
      | RSerialized bytes =>
          match peek_envelope bytes with
          | Ok en => ignore (handle_callback_error_from_env en None e)
          | Err _ => mret tt
          | Panic => answer Panic
          end
      end;
  answer (Err (HandlerError "tx handler failed")).

Definition requeue (src : option RouterSideId) (d : RouterItem) (side : RouterSideId) : W unit :=
  locked (tx_queue_item_with_flags (ToSide src side d) true).

(** Every side in turn; a busy gate queues the item for the sides that are left. *)
Fixpoint send_to_sides (d : RouterItem) (sides : list RouterSideId) : W unit :=
  match sides with
  | [] => mret tt
  | side :: rest =>
      failed ← attempt (send_to_side side d);
      match failed with
      | None => send_to_sides d rest
      | Some e => if is_side_tx_busy e then for_each (requeue None d) (side :: rest) else tx_failed d e
      end
  end.

(** [register_end_to_end_reliable_tx] when some side is reliable. *)
Definition track_end_to_end (d : RouterItem) (sides : list RouterSideId) : W unit :=
  supported ← locked (get (fun st => existsb (side_supports_end_to_end_reliable_locked st) sides));
  if (supported : bool) then
    now ← now_ms env; now' ← now_ms env; locked (register_end_to_end_reliable_tx now now' d)
  else mret tt.

Definition tx_broadcast (d : RouterItem) (ignore_local : bool) : W unit :=
  fresh ← (if ignore_local then mret true else dispatch_once d);
  if negb fresh then mret tt
  else
    _ ← answer (match d with
                | RPacket pkt => validate pkt
                | RSerialized bytes => _ ← peek_envelope bytes; Ok tt
                end);
    send_remote ← should_route d None;
    if negb send_remote then mret tt
    else
      t ← answer (peek_type d);
      sides ← plan_sides d None;
      _ ← (if negb ignore_local && is_reliable_type t && negb (is_internal_control_type t)
           then track_end_to_end d sides else mret tt);
      send_to_sides d sides.

Definition tx_to_side (src : option RouterSideId) (dst : RouterSideId) (d : RouterItem) (ignore_local : bool) : W unit :=
  fresh ← (if ignore_local then mret true else dispatch_once d);
  if negb fresh then mret tt
  else
    t ← answer (peek_type d);
    allowed ← locked (get (fun st => route_allowed_locked st src (Some t) dst));
    if negb allowed then mret tt
    else
      failed ← attempt (send_to_side dst d);
      match failed with
      | None => mret tt
      | Some e => if is_side_tx_busy e then requeue src d dst else tx_failed d e
      end.

Definition tx_end_to_end_replay (id : Z) : W unit :=
  now ← now_ms env;
  found ← locked (fun st => let '(st, r) := end_to_end_retransmit_sides now id st in (st, Ok r));
  match found with
  | None => mret tt
  | Some (d, sides) =>
      sides ← match sides with [] => plan_sides d None | _ => mret sides end;
      send_to_sides d sides
  end.

Definition tx_replay (dst : RouterSideId) (bytes : list byte) : W unit :=
  _ ← log_event (Replayed dst bytes);
  call ← side_call env dst; now ← now_ms env;
  locked (tx_reliable_replay call now dst bytes).

Definition tx_step (i : RouterTxItem) (ignore_local : bool) : W unit :=
  match i with
  | Broadcast d => tx_broadcast d ignore_local
  | ToSide src dst d => tx_to_side src dst d ignore_local
  | EndToEndReplay id => tx_end_to_end_replay id
  | ReliableReplay dst bytes => tx_replay dst bytes
  end.
End Deeper.

Fixpoint tx_item_impl (depth : nat) (i : RouterTxItem) (ignore_local : bool) : W unit :=
  match depth with
  | O => answer Panic
  | S depth => tx_step (tx_item_impl depth) i ignore_local
  end.
End Dispatch.

(** Renderings that print nothing of the values. *)
Definition some_text : DebugText :=
  {| debug_endpoint _ := lit "endpoint"; debug_error _ := lit "error"; debug_str s := s |}.
