(* ===== verification/Receive.v ===== *)
(** * Receiving ([src/router.rs])

    [rx_item] whole: the hop section, duplicate suppression, the internal
    packets (acknowledgements, time sync, discovery), local delivery and
    relaying; and the router's side of time sync. *)

From stdpp Require Import gmap.
From S2P Require Import Prelude Ordered Telemetry Config Schema Queue SmallPayload Wire Packet Serialize Calendar TimeSync Discovery RouterState Routes Reliable TimeRuntime Plan Topology EndToEnd Announce World Dispatch.

Section Receive.
Context `{Config} `{Schema} `{External} `{Layout} `{RouterLayout} `{DebugText}.
Context (self : Router) (env : Environment).

(** The stack available to [tx_item_impl]. *)
Context (depth : nat).
Notation tx := (tx_item_impl self env depth).

(** ** Queueing *)

Definition queue_item (i : RouterTxItem) (ignore_local : bool) : W unit :=
  locked (tx_queue_item_with_flags i ignore_local).

(** [log_raw] with the queue as its continuation. *)
Definition log_queue_ts (t : DataType) (T : Prim) (ts : Z) (data : list Z) : W unit :=
  pkt ← answer (log_raw (router_sender self) t T data ts Ok);
  queue_item (Broadcast (RPacket pkt)) false.

Definition relay_send (d : RouterItem) (src : option RouterSideId) (called_from_queue : bool) : W unit :=
  if called_from_queue then
    tracker ← tracker_of; now ← now_ms env; locked (enqueue_to_sides self tracker now d src true)
  else
    sides ← plan_sides self env d src;
    for_each (fun side => tx (ToSide src side d) true) sides.

Definition relay_if_remote (d : RouterItem) (relayed : RouterItem) (src : option RouterSideId)
    (called_from_queue : bool) : W unit :=
  has_remote ← should_route self env d src;
  if (has_remote : bool) then relay_send relayed src called_from_queue else mret tt.

(** ** Time sync *)

Definition poll_timesync : W bool :=
  now ← now_ms env; now_n ← now_ns env;
  '(announce, request) ← timed (fun st => let '(st, out) := poll_locked now now_n st in (st, Ok out));
  _ ← match announce with
      | Some prio =>
          time_ms ← packet_timestamp env; log_queue_ts TimeSyncAnnounce PU64 time_ms [prio; time_ms]
      | None => mret tt
      end;
  _ ← match request with
      | Some (seq, t1) => ts ← packet_timestamp env; log_queue_ts TimeSyncRequest PU64 ts [seq; t1]
      | None => mret tt
      end;
  mret (some announce || some request).

Definition queue_internal_timesync_response (seq t1 t2 t3 : Z) (dst : option RouterSideId) : W unit :=
  ts ← packet_timestamp env;
  pkt ← answer (packet_new TimeSyncResponse [EpTimeSync] (router_sender self) ts (encode_slice_le PU64 [seq; t1; t2; t3]));
  queue_item (match dst with Some dst => ToSide None dst (RPacket pkt) | None => Broadcast (RPacket pkt) end) true.

Definition handle_internal_timesync_packet (pkt : Packet) (src : option RouterSideId) (called_from_queue : bool)
    : W unit :=
  match cfg_timesync (router_cfg self) with
  | None => relay_if_remote (RPacket pkt) (RPacket pkt) src called_from_queue
  | Some c =>
      now ← now_ms env; now_n ← now_ns env;
      out ← timed (handle_locked c pkt now now_n);
      match out with
      | Ignored => mret tt
      | Handled response poll_after =>
          _ ← match response with
              | Some (seq, t1, t2, t3) => queue_internal_timesync_response seq t1 t2 t3 src
              | None => mret tt
              end;
          _ ← (if (poll_after : bool) then _ ← poll_timesync; mret tt else mret tt);
          relay_if_remote (RPacket pkt) (RPacket pkt) src called_from_queue
      end
  end.

(** ** Dispatch of a received item *)

Definition learn (pkt : Packet) (src : option RouterSideId) : W bool :=
  now ← now_ms env; clock ← clock_readings env; locked (learn_discovery_packet self now clock pkt src).

Definition any_local_handler (eps : list DataEndpoint) : bool := existsb (has_local_handler self) (sort_dedup eps).

Definition dispatch_rx_packet (pkt : Packet) (src : option RouterSideId) (called_from_queue : bool) : W unit :=
  _ ← answer (validate pkt);
  handled ← locked (handle_internal_reliable_packet pkt src);
  if (handled : bool) then mret tt
  else if is_timesync_type (ty pkt) then handle_internal_timesync_packet pkt src called_from_queue
  else
    learnt ← learn pkt src;
    if (learnt : bool) then relay_if_remote (RPacket pkt) (RPacket pkt) src called_from_queue
    else
      has_remote ← should_route self env (RPacket pkt) src;
      _ ← deliver_packet self env tx ignore pkt;
      _ ← (if is_some src && any_local_handler (pkt_endpoints pkt) && is_reliable_type (ty pkt)
           then acknowledge self env pkt else mret tt);
      if (has_remote : bool) then relay_send (RPacket pkt) src called_from_queue else mret tt.

Definition dispatch_rx_serialized (bytes : list byte) (src : option RouterSideId) (called_from_queue : bool) : W unit :=
  en ← answer (peek_envelope bytes);
  if is_reliable_control_type (env_ty en) then
    pkt ← answer (decode_validated bytes);
    _ ← locked (handle_internal_reliable_packet pkt src); mret tt
  else if is_timesync_type (env_ty en) then
    pkt ← answer (decode_validated bytes);
    handle_internal_timesync_packet pkt src called_from_queue
  else if is_discovery_type (env_ty en) then
    pkt ← answer (decode_validated bytes);
    _ ← learn pkt src;
    relay_if_remote (RSerialized bytes) (RPacket pkt) src called_from_queue
  else
    pkt_opt ← answer (decode_if_needed self bytes en);
    has_remote ← should_route self env (RSerialized bytes) src;
    pkt_opt ← deliver_serialized self env tx ignore bytes en pkt_opt;
    _ ← (if is_some src && any_local_handler (env_endpoints en) && is_reliable_type (env_ty en) then
           match pkt_opt with Some pkt => acknowledge self env pkt | None => mret tt end
         else mret tt);
    if (has_remote : bool) then
      relay_send (match pkt_opt with Some pkt => RPacket pkt | None => RSerialized bytes end) src called_from_queue
    else mret tt.

Definition dispatch_rx_data (i : RouterRxItem) (called_from_queue : bool) : W unit :=
  match rx_data i with
  | RPacket pkt => dispatch_rx_packet pkt (rx_src i) called_from_queue
  | RSerialized bytes => dispatch_rx_serialized bytes (rx_src i) called_from_queue
  end.

(** ** [rx_item] *)

(** The return route of a reliable item, before anything else. *)
Definition note_return_route (src : RouterSideId) (d : RouterItem) : RM unit :=
  match d with
  | RPacket pkt =>
      if is_reliable_type (ty pkt) && negb (is_internal_control_type (ty pkt)) then
        id ← lift (packet_id pkt); modify (note_reliable_return_route src id)
      else mret tt
  | RSerialized bytes =>
      match peek_envelope bytes with
      | Ok en =>
          if is_reliable_type (env_ty en) && negb (is_internal_control_type (env_ty en)) then
            match packet_id_from_wire bytes with
            | Ok id => modify (note_reliable_return_route src id)
            | Err _ => mret tt
            | Panic => lift Panic
            end
          else mret tt
      | Err _ => mret tt
      | Panic => lift Panic
      end
  end.

Definition hop_receive (src : RouterSideId) (bytes : list byte) : W hop_result :=
  now ← now_ms env;
  hop_receive_in (fun _ => locked) (queue_control self env)
    (cfg_reliable_enabled (router_cfg self)) src bytes now.

(** A duplicate of a reliable packet with a local handler is acknowledged again. *)
Definition should_reacknowledge (pkt : Packet) : bool :=
  is_reliable_type (ty pkt) && negb (bool_decide (sender pkt = router_sender self)) && packet_has_local_handler self pkt.

Definition reacknowledge (d : RouterItem) : W unit :=
  match d with
  | RPacket pkt => if should_reacknowledge pkt then acknowledge self env pkt else mret tt
  | RSerialized bytes =>
      match deserialize_packet bytes with
      | Ok pkt => if should_reacknowledge pkt then acknowledge self env pkt else mret tt
      | Err _ => mret tt
      | Panic => answer Panic
      end
  end.

Definition ensure_ingress (src : RouterSideId) : W unit :=
  locked (fun st => (st, ensure_side_ingress_enabled st src)).

Definition dispatch_released (src : option RouterSideId) (called_from_queue : bool) (bytes : list byte) : W unit :=
  seen ← locked (is_duplicate_pkt (RSerialized bytes));
  if (seen : bool) then mret tt
  else
    prio ← answer (router_item_priority (RSerialized bytes));
    dispatch_rx_data {| rx_src := src; rx_data := RSerialized bytes; rx_priority := prio |} called_from_queue.

Definition rx_unique (i : RouterRxItem) (released : list (list byte)) (called_from_queue : bool) : W unit :=
  seen ← locked (is_duplicate_pkt (rx_data i));
  if (seen : bool) then
    if is_some (rx_src i) then reacknowledge (rx_data i) else mret tt
  else
    _ ← dispatch_rx_data i called_from_queue;
    for_each (dispatch_released (rx_src i) called_from_queue) released.

Definition rx_item (i : RouterRxItem) (called_from_queue : bool) : W unit :=
  _ ← match rx_src i with
      | Some src => _ ← ensure_ingress src; locked (note_return_route src (rx_data i))
      | None => mret tt
      end;
  hop ← match rx_src i, rx_data i with
        | Some src, RSerialized bytes => hop_receive src bytes
        | _, _ => mret (HopContinue [])
        end;
  match hop with
  | HopStop => mret tt
  | HopContinue released => rx_unique i released called_from_queue
  end.
End Receive.
