(* ===== verification/Process.v ===== *)
(** * The router's public operations ([src/router.rs])

    Immediate and queued transmission and reception, the maintenance cycle, and
    the loops that drain the queues.  A loop runs with [fuel] rounds; running
    out of it is a [Panic], a loop the source would go on with. *)

From stdpp Require Import gmap.
From S2P Require Import Prelude Ordered Telemetry Config Schema Queue SmallPayload Wire Packet Serialize Calendar TimeSync Discovery RouterState Routes Reliable TimeRuntime Plan Topology EndToEnd Announce World Dispatch Receive.

Section Process.
Context `{Config} `{Schema} `{External} `{Layout} `{RouterLayout} `{DebugText}.
Context (self : Router) (env : Environment).
Context (depth : nat).
Notation tx := (tx_item_impl self env depth).
Notation rx := (rx_item self env depth).

(** ** Draining the queues *)

Definition process_timeouts : W unit :=
  now ← now_ms env; _ ← locked (process_reliable_timeouts now);
  now' ← now_ms env; clock ← clock_readings env; locked (process_end_to_end_reliable_timeouts now' clock).

Definition pop_transmit : W (option TxQueued) := locked (fun st =>
  let '(o, q) := pop_front (transmit_queue st) in (set_transmit_queue q st, Ok o)).

Definition pop_received : W (option RouterRxItem) := locked (fun st =>
  let '(o, q) := pop_front (received_queue st) in (set_received_queue q st, Ok o)).

(** [isr_rx_queue.pop_front().unwrap_or(None)] *)
Definition pop_isr : W (option RouterRxItem) := with_isr env (fun q =>
  match isr_pop_front q with (q, Err _) => (q, Ok None) | r => r end).

Definition next_received : W (option RouterRxItem) :=
  i ← pop_isr; match i with Some i => mret (Some i) | None => pop_received end.

(** One item, [true] when there was one. *)
Definition process_one_tx : W bool :=
  _ ← process_timeouts;
  i ← pop_transmit;
  match i with Some i => _ ← tx (txq_item i) (ignore_local i); mret true | None => mret false end.

Definition process_one_rx : W bool :=
  i ← next_received;
  match i with Some i => _ ← rx i true; mret true | None => mret false end.

(** Until there is no work, or the time is over. *)
Fixpoint drain (fuel : nat) (one : W bool) (over : W bool) : W unit :=
  match fuel with
  | O => answer Panic
  | S fuel =>
      did ← one;
      if negb did then mret tt
      else stop ← over; if (stop : bool) then mret tt else drain fuel one over
  end.

(** [now_ms().wrapping_sub(start) >= budget] *)
Definition elapsed (start budget : Z) : W bool := now ← now_ms env; mret (budget <=? wrap 64 (now - start)).

Definition timed_out (timeout_ms start : Z) : W bool :=
  if timeout_ms =? 0 then mret false else elapsed start timeout_ms.

Context (fuel : nat).

Definition process_tx_queue_with_timeout_impl (timeout_ms : Z) : W unit :=
  start ← now_ms env; drain fuel process_one_tx (timed_out timeout_ms start).

Definition process_rx_queue_with_timeout_impl (timeout_ms : Z) : W unit :=
  start ← now_ms env; drain fuel process_one_rx (timed_out timeout_ms start).

Definition process_one_of_each : W bool :=
  did_tx ← process_one_tx; did_rx ← process_one_rx; mret (did_tx || did_rx).

Definition process_all_queues_with_timeout_impl (timeout_ms : Z) : W unit :=
  if timeout_ms =? 0 then drain fuel process_one_of_each (mret false)
  else
    let tx_budget_ms := timeout_ms / 2 in
    let rx_budget_ms := timeout_ms - tx_budget_ms in
    tx_start ← now_ms env;
    _ ← drain fuel process_one_tx (elapsed tx_start tx_budget_ms);
    rx_start ← now_ms env;
    drain fuel process_one_rx (elapsed rx_start rx_budget_ms).

Definition process_tx_queue_with_timeout (timeout_ms : Z) : W unit :=
  _ ← poll_timesync self env; process_tx_queue_with_timeout_impl timeout_ms.
Definition process_rx_queue_with_timeout (timeout_ms : Z) : W unit :=
  _ ← poll_timesync self env; process_rx_queue_with_timeout_impl timeout_ms.
Definition process_all_queues_with_timeout (timeout_ms : Z) : W unit :=
  _ ← poll_timesync self env; process_all_queues_with_timeout_impl timeout_ms.
Definition process_tx_queue : W unit := process_tx_queue_with_timeout 0.
Definition process_rx_queue : W unit := process_rx_queue_with_timeout 0.
Definition process_all_queues : W unit := process_all_queues_with_timeout 0.

(** ** The maintenance cycle *)

(** The second announcement readings are those of [queue_discovery_announce]. *)
Definition poll_discovery : W bool :=
  rt ← (fun w => (w, Ok (time_state w))) : W TimeSyncRuntime;
  now ← now_ms env; now_n ← now_ns env; clock ← clock_readings env;
  now' ← now_ms env; now_n' ← now_ns env; clock' ← clock_readings env;
  locked (poll_discovery_announce self rt now now_n clock now' now_n' clock').

Definition announce_discovery : W unit :=
  rt ← (fun w => (w, Ok (time_state w))) : W TimeSyncRuntime;
  now ← now_ms env; now_n ← now_ns env; clock ← clock_readings env;
  locked (queue_discovery_announce self rt now now_n clock).

Definition periodic (timeout_ms : Z) : W unit :=
  _ ← poll_timesync self env; _ ← poll_discovery; process_all_queues_with_timeout_impl timeout_ms.
Definition periodic_no_timesync (timeout_ms : Z) : W unit :=
  _ ← poll_discovery; process_all_queues_with_timeout_impl timeout_ms.

(** ** Clearing *)

Definition clear_isr : W unit := ignore (with_isr env isr_clear).

Definition clear_queues : W unit :=
  _ ← locked (modify (fun st => set_received_queue (clear (received_queue st))
                                  (set_transmit_queue (clear (transmit_queue st)) st)));
  clear_isr.
Definition clear_rx_queue : W unit :=
  _ ← locked (modify (fun st => set_received_queue (clear (received_queue st)) st)); clear_isr.
Definition clear_tx_queue : W unit :=
  locked (modify (fun st => set_transmit_queue (clear (transmit_queue st)) st)).

(** ** Receiving *)

Definition received (src : option RouterSideId) (d : RouterItem) : W RouterRxItem :=
  prio ← answer (router_item_priority d); mret {| rx_src := src; rx_data := d; rx_priority := prio |}.

Definition ensure_from (src : option RouterSideId) : W unit :=
  match src with Some side => ensure_ingress side | None => mret tt end.

(** [rx_queue], [rx_queue_from_side] and their serialized forms. *)
Definition rx_queue (src : option RouterSideId) (pkt : Packet) : W unit :=
  _ ← ensure_from src; _ ← answer (validate pkt); i ← received src (RPacket pkt); locked (push_received i).
Definition rx_serialized_queue (src : option RouterSideId) (bytes : list byte) : W unit :=
  _ ← ensure_from src; i ← received src (RSerialized bytes); locked (push_received i).

Definition rx_queue_isr (src : option RouterSideId) (pkt : Packet) : W unit :=
  _ ← ensure_from src; _ ← answer (validate pkt); i ← received src (RPacket pkt);
  with_isr env (isr_push_back_prioritized i).
Definition rx_serialized_queue_isr (src : option RouterSideId) (bytes : list byte) : W unit :=
  _ ← ensure_from src; i ← received src (RSerialized bytes); with_isr env (isr_push_back_prioritized i).

(** [rx], [rx_from_side] and their serialized forms: queued when a side
    callback is on the stack. *)
Definition rx_now (src : option RouterSideId) (pkt : Packet) : W unit :=
  active ← side_tx_active env;
  if (active : bool) then rx_queue src pkt
  else _ ← ensure_from src; i ← received src (RPacket pkt); rx i false.
Definition rx_serialized_now (src : option RouterSideId) (bytes : list byte) : W unit :=
  active ← side_tx_active env;
  if (active : bool) then rx_serialized_queue src bytes
  else _ ← ensure_from src; i ← received src (RSerialized bytes); rx i false.

(** ** Transmitting *)

Definition tx_queue (d : RouterItem) : W unit := queue_item (Broadcast d) false.

(** [tx] and [tx_serialized]. *)
Definition tx_now (d : RouterItem) : W unit :=
  active ← side_tx_active env;
  if (active : bool) then tx_queue d else tx (Broadcast d) false.

Definition log_queue (t : DataType) (T : Prim) (data : list Z) : W unit :=
  ts ← packet_timestamp env; log_queue_ts self t T ts data.

Definition log_ts (t : DataType) (T : Prim) (ts : Z) (data : list Z) : W unit :=
  active ← side_tx_active env;
  if (active : bool) then log_queue_ts self t T ts data
  else pkt ← answer (log_raw (router_sender self) t T data ts Ok); tx (Broadcast (RPacket pkt)) false.

Definition log_now (t : DataType) (T : Prim) (data : list Z) : W unit :=
  active ← side_tx_active env;
  if (active : bool) then log_queue t T data
  else
    ts ← packet_timestamp env;
    pkt ← answer (log_raw (router_sender self) t T data ts Ok); tx (Broadcast (RPacket pkt)) false.
End Process.

(** ** Administration *)

Section Administration.
Context `{Config} `{Schema} `{Layout} `{RouterLayout}.
Context (self : Router) (env : Environment).

(** The router's operations read the clock and take the state lock. *)
Definition router_admin_op (f : Z -> RM unit) : W unit := now ← now_ms env; locked (f now).

Definition router_add_side (name : Str) (handler : RouterTxHandlerFn) (o : RouterSideOptions) : W RouterSideId :=
  now ← now_ms env; locked (fun st => let '(st, id) := add_side name handler o now st in (st, Ok id)).

Definition router_remove_side (side : RouterSideId) : W unit :=
  now ← now_ms env;
  (fun w =>
    let '((st, isr), r) := remove_side side now (locked_state w)
                             {| busy := isr_busy env (tick w); isr_q := isr_q (isr_queue w) |} in
    (set_isr isr (set_tick (tick w + 1) (set_locked st w)), r)) : W unit.

(** [export_topology]: what has expired goes first. *)
Definition router_snapshot : W TopologySnapshot :=
  rt ← (fun w => (w, Ok (time_state w))) : W TimeSyncRuntime;
  '(now, now_n) ← ask (fun n => (ms_at env n 0, ns_at env n 0));
  locked (fun st => let '(st, snap) := export_topology self (local_discovery_timesync_sources self rt now now_n) now st in (st, Ok snap)).
End Administration.
