(* ===== verification/Invariant.v ===== *)
(** * Invariants of a running router ([src/router.rs])

    An interface for properties of the locked state that traffic keeps: which
    elementary changes the data path makes, and, from those, that every
    operation of the router keeps any such property. *)

From stdpp Require Import gmap.
From S2P Require Import Prelude Ordered Telemetry Config Schema Queue SmallPayload Wire Packet Serialize Calendar TimeSync Discovery RouterState Routes Reliable TimeRuntime Plan Topology EndToEnd Announce World Dispatch Receive Process.

Create HintDb keeps.

(** A property kept by the elementary changes of the data path. *)
Class RouterInvariant `{Config} `{Layout} `{RouterLayout} (inv : RouterInner -> Prop) := {
  ri_pop k st : inv st -> inv (snd (pop_shared_queue_item k st));
  ri_received d st : inv st -> inv (set_received_queue d st);
  ri_transmit d st : inv st -> inv (set_transmit_queue d st);
  ri_recent d st : inv st -> inv (set_recent_rx d st);
  ri_reliable_tx m st : inv st -> inv (set_reliable_tx m st);
  ri_reliable_rx m st : inv st -> inv (set_reliable_rx m st);
  ri_stats m st : inv st -> inv (set_adaptive_route_stats m st);
  ri_cursors m st : inv st -> inv (set_route_selection_cursors m st);
  ri_cadence c st : inv st -> inv (set_discovery_cadence c st);
  ri_prune now st : inv st -> inv (fst (prune_discovery_routes_locked now st));
  ri_store now side name s st : inv st -> inv (store_sender now side name s st);
  ri_note_return side id st : inv st -> inv (note_reliable_return_route side id st);
  ri_register id s st : inv st ->
    inv (let st := remember_end_to_end_reliable_tx_locked id st in
         set_end_to_end_reliable_tx (bt_insert id s (end_to_end_reliable_tx st)) st);
  ri_set_e2e id s st : inv st -> inv (set_e2e id s st);
  ri_drop_e2e id st : inv st -> inv (drop_e2e id st)
}.

Ltac elementary := first
  [ apply ri_received | apply ri_transmit | apply ri_recent | apply ri_reliable_tx | apply ri_reliable_rx
  | apply ri_stats | apply ri_cursors | apply ri_cadence | apply ri_prune | apply ri_store | apply ri_note_return
  | apply ri_register | apply ri_set_e2e | apply ri_drop_e2e ].

(** [m] keeps [P], whatever it answers. *)
Definition keeps {St A} (P : St -> Prop) (m : St -> St * TelemetryResult A) : Prop := forall st, P st -> P (fst (m st)).

(** ** Computations on the state *)

Section State.
Context (inv : RouterInner -> Prop).

Lemma keeps_bind {A B} (m : RM A) (f : A -> RM B) :
  keeps inv m -> (forall a, keeps inv (f a)) -> keeps inv (m ≫= f).
Proof.
  intros Hm Hf st Hst. rewrite RM_run. specialize (Hm st Hst). destruct (m st) as [st' [a|e|]]; [|done..].
  by apply Hf.
Qed.

Lemma keeps_ret {A} (a : A) : keeps inv (mret a : RM A).
Proof. by intros st. Qed.

Lemma keeps_lift {A} (r : TelemetryResult A) : keeps inv (lift r).
Proof. by intros st. Qed.

Lemma keeps_read {A} (f : RouterInner -> TelemetryResult A) : keeps inv (fun st => (st, f st)).
Proof. by intros st. Qed.

Lemma keeps_get {A} (f : RouterInner -> A) : keeps inv (get f).
Proof. by intros st. Qed.

Lemma keeps_modify f : (forall st, inv st -> inv (f st)) -> keeps inv (modify f).
Proof. intros Hf st. apply Hf. Qed.
End State.

#[export] Hint Resolve keeps_ret keeps_lift keeps_read keeps_get : keeps.

(** Follows the binds and the branches of an operation. *)
Ltac keep := repeat first
  [ assumption | done | solve [auto with keeps]
  | lazymatch goal with |- keeps _ (mbind _ _) => apply keeps_bind; [|intros ?] end
  | lazymatch goal with |- keeps _ (modify _) => apply keeps_modify; intros ? ? end
  | lazymatch goal with |- keeps _ _ => fail | _ => elementary end
  | match goal with E : (_, _) = (_, _) |- _ => injection E as <- <- end
  | lazymatch goal with |- keeps _ (fun _ => _) => intros ? ?; cbn beta end
  | case_match ].

Section Operations.
Context `{Config} `{Schema} `{External} `{Layout} `{RouterLayout} `{DebugText}.
Context (inv : RouterInner -> Prop) `{!RouterInvariant inv}.

Lemma make_room_keeps cost k : keeps inv (make_shared_queue_room cost k).
Proof.
  intros st. unfold make_shared_queue_room. case_match; [done|]. generalize (S (queued_items st)) as fuel. intros fuel.
  revert st. induction fuel as [|fuel IH]; intros st Hst; cbn [make_room_loop]; case_match; try done.
  unfold evict_once. pose proof (ri_pop (default k (largest_shared_queue st)) st Hst) as H1'.
  destruct (pop_shared_queue_item (default k (largest_shared_queue st)) st) as [[] st1]; [by apply IH|].
  pose proof (ri_pop k st1 H1') as H2'. destruct (pop_shared_queue_item k st1) as [[] st2]; [by apply IH|done].
Qed.

Lemma fit_keeps st : inv st -> inv (fit_discovery_budget st).
Proof.
  unfold fit_discovery_budget. generalize (length (discovery_routes st)) as fuel. intros fuel. revert st.
  induction fuel as [|fuel IH]; intros st Hst; cbn [fit_discovery_loop]; (case_match; [|done]);
    pose proof (ri_pop DiscoveryKind st Hst) as Hp; cbn [pop_shared_queue_item] in Hp;
    destruct (pop_discovery_route st) as [[] st1]; auto.
Qed.

Hint Resolve make_room_keeps fit_keeps : keeps.
Hint Extern 2 (inv _) => elementary : keeps.

Lemma push_received_keeps i : keeps inv (push_received i).
Proof. unfold push_received. keep. Qed.

Lemma push_transmit_keeps i : keeps inv (push_transmit i).
Proof. unfold push_transmit. keep. Qed.

Lemma trim_recent_keeps fuel : keeps inv (trim_recent fuel).
Proof.
  induction fuel as [|fuel IH]; intros st Hst; cbn [trim_recent]; case_match; try done. apply IH. by apply ri_recent.
Qed.

Hint Resolve push_received_keeps push_transmit_keeps trim_recent_keeps : keeps.

Lemma push_recent_keeps id : keeps inv (push_recent_rx id).
Proof. unfold push_recent_rx. keep. Qed.

Lemma buffer_keeps side t seq bytes : keeps inv (buffer_reliable_rx side t seq bytes).
Proof.
  assert (keeps inv (_ ← make_shared_queue_room (sizeof_arc_slice + blen bytes) ReliableRxBuffer;
            modify (update_rx (reliable_key side t) (buffer_frame seq bytes)))) as Hb
    by (keep; by apply ri_reliable_rx).
  intros st Hst. unfold buffer_reliable_rx. repeat case_match; try done; by apply Hb.
Qed.

Hint Resolve push_recent_keeps buffer_keeps : keeps.

(** *** Sending *)

Lemma queue_priority_keeps i ignore prio : keeps inv (tx_queue_item_with_priority i ignore prio).
Proof. apply push_transmit_keeps. Qed.

Lemma queue_flags_keeps i ignore : keeps inv (tx_queue_item_with_flags i ignore).
Proof. unfold tx_queue_item_with_flags. keep. apply queue_priority_keeps. Qed.

Hint Resolve queue_priority_keeps queue_flags_keeps : keeps.

Lemma control_keeps s ts ct side t seq : keeps inv (queue_reliable_control s ts ct side t seq).
Proof. unfold queue_reliable_control. keep. Qed.

Lemma update_tx_keeps key f st : inv st -> inv (update_tx key f st).
Proof. apply ri_reliable_tx. Qed.

Lemma update_rx_keeps key f st : inv st -> inv (update_rx key f st).
Proof. apply ri_reliable_rx. Qed.

Lemma sample_keeps call side n : keeps inv (sample call side n).
Proof. unfold sample. keep. Qed.

Hint Resolve control_keeps update_tx_keeps update_rx_keeps sample_keeps : keeps.

Lemma call_bytes_keeps call side bytes : keeps inv (call_with_bytes call side bytes).
Proof. unfold call_with_bytes. keep. Qed.

Lemma call_handler_keeps call side h d : keeps inv (call_side_tx_handler call side h d).
Proof. unfold call_side_tx_handler. keep. Qed.

Lemma allocate_keeps side t : keeps inv (allocate_seq side t).
Proof. intros st Hst. unfold allocate_seq. case_match; cbn; auto with keeps. Qed.

Hint Resolve call_bytes_keeps call_handler_keeps allocate_keeps : keeps.

Lemma send_keeps cfg call side d now sent : keeps inv (send_reliable_to_side cfg call side d now sent).
Proof.
  unfold send_reliable_to_side, send_sequenced. keep.
Qed.

Lemma raw_keeps call dst bytes : keeps inv (send_reliable_raw_to_side call dst bytes).
Proof. unfold send_reliable_raw_to_side. keep. Qed.

Lemma on_busy_keeps m b : keeps inv m -> keeps inv b -> keeps inv (on_busy m b).
Proof.
  intros Hm Hb st Hst. unfold on_busy. specialize (Hm st Hst). destruct (m st) as [st' [?|e|]]; [done| |done].
  case_match; [by apply Hb|done].
Qed.

Hint Resolve raw_keeps : keeps.

Lemma replay_keeps call now dst bytes : keeps inv (tx_reliable_replay call now dst bytes).
Proof.
  unfold tx_reliable_replay, replay_known. keep. apply on_busy_keeps; keep.
Qed.

Lemma selection_keeps src l o st : inv st -> inv (fst (apply_route_selection_locked src l o st)).
Proof.
  intros Hst. unfold apply_route_selection_locked, apply_adaptive_discovery_selection_locked.
  repeat case_match; try done; by apply ri_cursors.
Qed.

Lemma plan_keeps self tracker now d ex : keeps inv (remote_side_plan self tracker now d ex).
Proof.
  intros st Hst. unfold remote_side_plan. case_match; [|done..]. case_match; [done|].
  match goal with |- context [apply_route_selection_locked ?a ?b ?c st] =>
    pose proof (selection_keeps a b c st Hst) end. by destruct (apply_route_selection_locked _ _ _ st).
Qed.

Hint Resolve send_keeps replay_keeps plan_keeps : keeps.

Lemma should_route_keeps self tracker now d ex : keeps inv (should_route_remote self tracker now d ex).
Proof. unfold should_route_remote. keep. Qed.

Lemma enqueue_keeps self tracker now d ex ignore : keeps inv (enqueue_to_sides self tracker now d ex ignore).
Proof.
  unfold enqueue_to_sides. keep. match goal with |- keeps _ (push_to_sides _ _ _ _ ?l) => induction l end; cbn; keep.
Qed.

Hint Resolve should_route_keeps enqueue_keeps : keeps.
(** *** End-to-end delivery *)

Lemma register_keeps now now' d : keeps inv (register_end_to_end_reliable_tx now now' d).
Proof. unfold register_end_to_end_reliable_tx. keep. Qed.

Lemma reconcile_loop_keeps clock ids : keeps inv (reconcile_loop clock ids).
Proof.
  revert clock. induction ids as [|id ids IH]; intros clock; cbn [reconcile_loop]; [keep|].
  intros st Hst. destruct (bt_get id _) as [sent|]; [|by apply IH].
  destruct (expected_end_to_end_destinations_locked _ _ _) as [expected|e|]; [|done..].
  destruct (negb _); [by apply IH|].
  match goal with |- inv (fst (?m ?s)) => enough (keeps inv m) as Hk by (apply Hk; by elementary) end.
  keep.
Qed.

Lemma drop_all_keeps ids st : inv st -> inv (foldl (fun st id => drop_e2e id st) st ids).
Proof. revert st. induction ids as [|id ids IH]; intros st Hst; cbn; [done|]. apply IH. by elementary. Qed.

Hint Resolve register_keeps reconcile_loop_keeps drop_all_keeps : keeps.

Lemma reconcile_keeps clock : keeps inv (reconcile_end_to_end_reliable_destinations_locked clock).
Proof. unfold reconcile_end_to_end_reliable_destinations_locked. keep. Qed.

Lemma e2e_ack_keeps self ts pkt : keeps inv (queue_end_to_end_reliable_ack self ts pkt).
Proof. unfold queue_end_to_end_reliable_ack. keep. Qed.

Lemma e2e_retransmit_keeps id : keeps inv (queue_end_to_end_reliable_retransmit id).
Proof.
  intros st Hst. unfold queue_end_to_end_reliable_retransmit. destruct (bt_get id _); [|done].
  case_match; [done|]. apply queue_priority_keeps. by elementary.
Qed.

Lemma retransmit_sides_keeps now id st : inv st -> inv (fst (end_to_end_retransmit_sides now id st)).
Proof. intros Hst. unfold end_to_end_retransmit_sides. repeat case_match; cbn; try done; repeat elementary; done. Qed.

Lemma scan_e2e_keeps now ids st : inv st -> inv (fst (scan_e2e now ids st)).
Proof.
  revert st. induction ids as [|id ids IH]; intros st Hst; cbn [scan_e2e]; [done|].
  case_match; [|by apply IH]. case_match; [by apply IH|]. case_match; [apply IH; by elementary|].
  match goal with |- context [scan_e2e now ids ?s] =>
    assert (inv s) as Hs by (by elementary); specialize (IH s Hs); by destruct (scan_e2e now ids s) end.
Qed.

Lemma ack_keeps snd id st : inv st -> inv (fst (handle_end_to_end_ack snd id st)).
Proof. intros Hst. unfold handle_end_to_end_ack. repeat case_match; cbn; try done; by elementary. Qed.

Hint Resolve reconcile_keeps e2e_ack_keeps e2e_retransmit_keeps : keeps.

Lemma requeue_e2e_keeps ids : keeps inv (requeue_e2e ids).
Proof. induction ids; cbn; keep. Qed.

Lemma note_change_keeps now st : inv st -> inv (note_discovery_topology_change_locked now st).
Proof. apply ri_cadence. Qed.

Hint Resolve requeue_e2e_keeps note_change_keeps : keeps.

Lemma e2e_timeouts_keeps now clock : keeps inv (process_end_to_end_reliable_timeouts now clock).
Proof.
  intros st Hst. unfold process_end_to_end_reliable_timeouts. pose proof (ri_prune now st Hst) as Hp.
  destruct (prune_discovery_routes_locked now st) as [st1 changed]. cbn [fst] in Hp.
  match goal with |- inv (fst (?m ?s)) => enough (keeps inv m /\ inv s) as [Hk Hs] by (by apply Hk) end.
  split; [|destruct changed; auto with keeps]. keep.
  match goal with E : scan_e2e ?n ?ids ?s = (?s', _) |- _ =>
    assert (inv s') by (pose proof (scan_e2e_keeps n ids s) as Hs; rewrite E in Hs; auto) end.
  by apply requeue_e2e_keeps.
Qed.

(** *** Hop-by-hop delivery *)

Lemma retransmit_keeps side t seq : keeps inv (queue_reliable_retransmit side t seq).
Proof.
  intros st Hst. unfold queue_reliable_retransmit. destruct (retransmit_state _ _) as [tx [bytes|]].
  - apply queue_priority_keeps. by apply update_tx_keeps.
  - by apply update_tx_keeps.
Qed.

Hint Resolve e2e_timeouts_keeps retransmit_keeps : keeps.

Lemma timeouts_keeps now : keeps inv (process_reliable_timeouts now).
Proof.
  intros st Hst. unfold process_reliable_timeouts. destruct (scan_links now (reliable_tx st)) as [links l].
  apply (ri_reliable_tx links) in Hst. revert Hst. generalize (set_reliable_tx links st). clear st.
  assert (keeps inv (requeue_all l)) as Hl; [|exact Hl]. induction l as [|[[side t] seq] l IH]; cbn; keep.
Qed.

Lemma internal_keeps pkt src : keeps inv (handle_internal_reliable_packet pkt src).
Proof.
  unfold handle_internal_reliable_packet, handle_hop_control, handle_reliable_ack, handle_reliable_partial_ack. keep.
  match goal with E : handle_end_to_end_ack ?n ?id ?s = (?s', _) |- _ =>
    pose proof (ack_keeps n id s) as Ha; rewrite E in Ha; auto end.
Qed.

Lemma touch_keeps key : keeps inv (touch_rx key).
Proof. intros st Hst. by apply update_rx_keeps. Qed.

Hint Resolve timeouts_keeps internal_keeps touch_keeps : keeps.

Lemma hop_state_keeps src t seq bytes : keeps inv (hop_ordered_state src t seq bytes).
Proof. unfold hop_ordered_state. keep. Qed.

(** *** Discovery *)

Lemma prune_reconcile_keeps now clock : keeps inv (prune_and_reconcile now clock).
Proof.
  intros st Hst. unfold prune_and_reconcile. pose proof (ri_prune now st Hst) as Hp.
  destruct (prune_discovery_routes_locked now st) as [st1 changed]. cbn [fst] in Hp. revert Hp.
  match goal with |- _ -> inv (fst (?m ?s)) => enough (keeps inv m) as Hk by (apply Hk) end. keep.
Qed.

Lemma queue_built_keeps {A} side (l : list A) build : keeps inv (queue_built side l build).
Proof. unfold queue_built. keep. Qed.

Hint Resolve hop_state_keeps prune_reconcile_keeps queue_built_keeps : keeps.

Lemma queue_announcements_keeps self now l : keeps inv (queue_announcements self now l).
Proof. induction l; cbn; keep. unfold queue_announcement. keep. Qed.

Hint Resolve queue_announcements_keeps : keeps.

Lemma announce_keeps self rt now now_n clock : keeps inv (queue_discovery_announce self rt now now_n clock).
Proof. unfold queue_discovery_announce. keep. Qed.

Hint Resolve announce_keeps : keeps.

Lemma poll_announce_keeps self rt now now_n clock now' now_n' clock' :
  keeps inv (poll_discovery_announce self rt now now_n clock now' now_n' clock').
Proof. unfold poll_discovery_announce. keep. Qed.

Lemma learn_keeps self now clock pkt src : keeps inv (learn_discovery_packet self now clock pkt src).
Proof. unfold learn_discovery_packet. keep. Qed.

(** *** Duplicates and return routes *)

Lemma remove_id_keeps d : keeps inv (remove_pkt_id d).
Proof. unfold remove_pkt_id. keep. Qed.

Lemma duplicate_keeps d : keeps inv (is_duplicate_pkt d).
Proof. unfold is_duplicate_pkt. keep. Qed.

Lemma note_route_keeps src d : keeps inv (note_return_route src d).
Proof. unfold note_return_route. keep. Qed.
End Operations.

#[export] Hint Resolve push_received_keeps queue_flags_keeps control_keeps send_keeps replay_keeps plan_keeps
  should_route_keeps enqueue_keeps register_keeps e2e_ack_keeps e2e_timeouts_keeps timeouts_keeps internal_keeps
  touch_keeps hop_state_keeps announce_keeps poll_announce_keeps learn_keeps remove_id_keeps duplicate_keeps
  note_route_keeps : keeps.

(** ** Computations on the world *)

Section World.
Context (inv : RouterInner -> Prop).

Definition holds (w : World) : Prop := inv (locked_state w).

Lemma wkeeps_bind {A B} (m : W A) (f : A -> W B) :
  keeps holds m -> (forall a, keeps holds (f a)) -> keeps holds (m ≫= f).
Proof.
  intros Hm Hf w Hw. rewrite W_run. specialize (Hm w Hw). destruct (m w) as [w' [a|e|]]; [|done..]. by apply Hf.
Qed.

Lemma wkeeps_ret {A} (a : A) : keeps holds (mret a : W A).
Proof. by intros w. Qed.

Lemma wkeeps_answer {A} (r : TelemetryResult A) : keeps holds (answer r).
Proof. by intros w. Qed.

Lemma wkeeps_ask {A} (f : Z -> A) : keeps holds (ask f).
Proof. by intros w. Qed.

Lemma wkeeps_event e : keeps holds (log_event e).
Proof. by intros w. Qed.

Lemma wkeeps_timed {A} (f : TimeSyncRuntime -> TimeSyncRuntime * TelemetryResult A) : keeps holds (timed f).
Proof. intros w Hw. unfold timed. by destruct (f (time_state w)). Qed.

Lemma wkeeps_isr {A} env (f : IsrRxQueue -> IsrRxQueue * TelemetryResult A) : keeps holds (with_isr env f).
Proof. intros w Hw. unfold with_isr. by destruct (f _). Qed.

Lemma wkeeps_read {A} (f : World -> TelemetryResult A) : keeps holds (fun w => (w, f w)).
Proof. by intros w. Qed.

Lemma wkeeps_locked {A} (m : RM A) : keeps inv m -> keeps holds (locked m).
Proof. intros Hm w Hw. unfold locked. specialize (Hm _ Hw). by destruct (m (locked_state w)). Qed.

Lemma wkeeps_attempt m : keeps holds m -> keeps holds (attempt m).
Proof. intros Hm w Hw. unfold attempt. specialize (Hm w Hw). by destruct (m w) as [w' []]. Qed.

Lemma wkeeps_ignore m : keeps holds m -> keeps holds (ignore m).
Proof. intros Hm w Hw. unfold ignore. specialize (Hm w Hw). by destruct (m w) as [w' []]. Qed.

Lemma wkeeps_each {A} (f : A -> W unit) l : (forall a, keeps holds (f a)) -> keeps holds (for_each f l).
Proof. intros Hf. induction l as [|a l IH]; cbn; [apply wkeeps_ret|]. by apply wkeeps_bind. Qed.
End World.

#[export] Hint Resolve wkeeps_ret wkeeps_answer wkeeps_ask wkeeps_event wkeeps_timed wkeeps_isr wkeeps_read : keeps.

Ltac wkeep := repeat first
  [ assumption | solve [eauto 3 with keeps]
  | lazymatch goal with |- keeps _ (mbind _ _) => apply wkeeps_bind; [|intros ?] end
  | lazymatch goal with |- keeps _ (locked _) => apply wkeeps_locked; solve [eauto with keeps | keep] end
  | lazymatch goal with |- keeps _ (attempt _) => apply wkeeps_attempt end
  | lazymatch goal with |- keeps _ (ignore _) => apply wkeeps_ignore end
  | lazymatch goal with |- keeps _ (for_each _ _) => apply wkeeps_each; intros ? end
  | case_match ].

Section Traffic.
Context `{Config} `{Schema} `{External} `{Layout} `{RouterLayout} `{DebugText}.
Context (inv : RouterInner -> Prop) `{!RouterInvariant inv}.
Context (self : Router) (env : Environment).
Notation wkeeps := (keeps (holds inv)).

Lemma timestamp_keeps : wkeeps (packet_timestamp env).
Proof. unfold packet_timestamp. wkeep. Qed.

Lemma now_keeps : wkeeps (now_ms env).
Proof. unfold now_ms. wkeep. Qed.

Lemma now_ns_keeps : wkeeps (now_ns env).
Proof. unfold now_ns. wkeep. Qed.

Lemma clock_keeps : wkeeps (clock_readings env).
Proof. unfold clock_readings. wkeep. Qed.

Lemma call_keeps side : wkeeps (side_call env side).
Proof. unfold side_call. wkeep. Qed.

Lemma active_keeps : wkeeps (side_tx_active env).
Proof. unfold side_tx_active. wkeep. Qed.

Lemma tracker_keeps : wkeeps tracker_of.
Proof. unfold tracker_of. wkeep. Qed.

Lemma deliver_keeps h arg : wkeeps (deliver env h arg).
Proof. unfold deliver. wkeep. Qed.

Hint Resolve timestamp_keeps now_keeps now_ns_keeps clock_keeps call_keeps active_keeps tracker_keeps deliver_keeps : keeps.

Lemma should_keeps d ex : wkeeps (should_route self env d ex).
Proof. unfold should_route. wkeep. Qed.

Lemma sides_keeps d ex : wkeeps (plan_sides self env d ex).
Proof. unfold plan_sides. wkeep. Qed.

Lemma control_w_keeps ct side t seq : wkeeps (queue_control self env ct side t seq).
Proof. unfold queue_control. wkeep. Qed.

Lemma acknowledge_keeps pkt : wkeeps (acknowledge self env pkt).
Proof. unfold acknowledge. wkeep. Qed.

Lemma send_w_keeps side d : wkeeps (send_to_side self env side d).
Proof. unfold send_to_side. wkeep. Qed.

Lemma requeue_keeps src d side : wkeeps (requeue src d side).
Proof. unfold requeue. wkeep. Qed.

Hint Resolve should_keeps sides_keeps control_w_keeps acknowledge_keeps send_w_keeps requeue_keeps : keeps.

(** *** [tx_item_impl] *)

Section Tx.
Context (tx : RouterTxItem -> bool -> W unit) (Htx : forall i b, wkeeps (tx i b)).
Hint Resolve Htx : keeps.

Lemma error_keeps pkt dest e : wkeeps (handle_callback_error self env tx pkt dest e).
Proof. unfold handle_callback_error. wkeep. Qed.

Lemma env_error_keeps en dest e : wkeeps (handle_callback_error_from_env self tx en dest e).
Proof. unfold handle_callback_error_from_env. wkeep. Qed.

Hint Resolve error_keeps env_error_keeps : keeps.

Lemma handler_keeps h data pkt en : wkeeps (call_handler_with_retries self env tx h data pkt en).
Proof. unfold call_handler_with_retries, with_retries. wkeep. Qed.

Hint Resolve handler_keeps : keeps.

Section Deliver.
Context (around : W unit -> W unit) (Har : forall m, wkeeps m -> wkeeps (around m)).

Lemma deliver_packet_keeps pkt : wkeeps (deliver_packet self env tx around pkt).
Proof. unfold deliver_packet. wkeep; apply Har; wkeep. Qed.

Lemma deliver_serialized_keeps bytes en pkt : wkeeps (deliver_serialized self env tx around bytes en pkt).
Proof.
  unfold deliver_serialized. generalize (handlers_of self (sort_dedup (env_endpoints en))) as l. intros l. revert pkt.
  induction l as [|h l IH]; intros pkt; cbn [deliver_serialized_loop]; wkeep; apply Har; wkeep.
Qed.
End Deliver.

Lemma local_keeps d : wkeeps (dispatch_local_for_item self env tx d).
Proof.
  unfold dispatch_local_for_item. wkeep; [by apply deliver_packet_keeps|by apply deliver_serialized_keeps].
Qed.

Hint Resolve local_keeps : keeps.

Lemma once_keeps d : wkeeps (dispatch_once self env tx d).
Proof. unfold dispatch_once. wkeep. Qed.

Lemma failed_keeps d e : wkeeps (tx_failed self env tx d e).
Proof. unfold tx_failed. wkeep. Qed.

Hint Resolve once_keeps failed_keeps : keeps.

Lemma send_sides_keeps d sides : wkeeps (send_to_sides self env tx d sides).
Proof. induction sides; cbn [send_to_sides]; wkeep. Qed.

Lemma track_keeps d sides : wkeeps (track_end_to_end env d sides).
Proof. unfold track_end_to_end. wkeep. Qed.

Hint Resolve send_sides_keeps track_keeps : keeps.

Lemma replay_sides_keeps now id :
  wkeeps (locked (fun st => let '(st, r) := end_to_end_retransmit_sides now id st in (st, Ok r))).
Proof.
  apply wkeeps_locked. intros st Hst. pose proof (retransmit_sides_keeps inv now id st Hst) as Hk.
  by destruct (end_to_end_retransmit_sides now id st).
Qed.

Hint Resolve replay_sides_keeps : keeps.

Lemma tx_step_keeps i b : wkeeps (tx_step self env tx i b).
Proof.
  unfold tx_step, tx_broadcast, tx_to_side, tx_end_to_end_replay, tx_replay. wkeep.
Qed.
End Tx.

Lemma tx_keeps depth i b : wkeeps (tx_item_impl self env depth i b).
Proof. revert i b. induction depth; intros i b; cbn [tx_item_impl]; [wkeep|by apply tx_step_keeps]. Qed.
Hint Resolve tx_keeps : keeps.

(** *** [rx_item] *)

Section Rx.
Context (depth : nat).

Lemma queue_item_keeps i b : wkeeps (queue_item i b).
Proof. unfold queue_item. wkeep. Qed.

Hint Resolve queue_item_keeps : keeps.

Lemma log_queue_keeps t T ts data : wkeeps (log_queue_ts self t T ts data).
Proof. unfold log_queue_ts. wkeep. Qed.

Lemma relay_keeps d src queued : wkeeps (relay_send self env depth d src queued).
Proof. unfold relay_send. wkeep. Qed.

Hint Resolve log_queue_keeps relay_keeps : keeps.

Lemma relay_if_keeps d d' src queued : wkeeps (relay_if_remote self env depth d d' src queued).
Proof. unfold relay_if_remote. wkeep. Qed.

Lemma poll_keeps : wkeeps (poll_timesync self env).
Proof. unfold poll_timesync. wkeep. Qed.

Lemma response_keeps seq t1 t2 t3 dst : wkeeps (queue_internal_timesync_response self env seq t1 t2 t3 dst).
Proof. unfold queue_internal_timesync_response. wkeep. Qed.

Hint Resolve relay_if_keeps poll_keeps response_keeps : keeps.

Lemma timesync_keeps pkt src queued : wkeeps (handle_internal_timesync_packet self env depth pkt src queued).
Proof. unfold handle_internal_timesync_packet. wkeep. Qed.

Lemma learn_w_keeps pkt src : wkeeps (learn self env pkt src).
Proof. unfold learn. wkeep. Qed.

Lemma ignore_keeps m : wkeeps m -> wkeeps (ignore m).
Proof. apply wkeeps_ignore. Qed.

Lemma deliver_rx_keeps pkt : wkeeps (deliver_packet self env (tx_item_impl self env depth) ignore pkt).
Proof. apply deliver_packet_keeps; [apply tx_keeps|apply ignore_keeps]. Qed.

Lemma deliver_rx_serialized_keeps bytes en pkt :
  wkeeps (deliver_serialized self env (tx_item_impl self env depth) ignore bytes en pkt).
Proof. apply deliver_serialized_keeps; [apply tx_keeps|apply ignore_keeps]. Qed.

Hint Resolve timesync_keeps learn_w_keeps deliver_rx_keeps deliver_rx_serialized_keeps : keeps.

Lemma dispatch_keeps i queued : wkeeps (dispatch_rx_data self env depth i queued).
Proof. unfold dispatch_rx_data, dispatch_rx_packet, dispatch_rx_serialized. wkeep. Qed.

Lemma hop_keeps src bytes : wkeeps (Receive.hop_receive self env src bytes).
Proof.
  unfold Receive.hop_receive, hop_receive_in, hop_sequenced_in, hop_ordered_in, hop_corrupt_in. wkeep.
Qed.

Lemma reack_keeps d : wkeeps (reacknowledge self env d).
Proof. unfold reacknowledge. wkeep. Qed.

Lemma ingress_keeps src : wkeeps (ensure_ingress src).
Proof. unfold ensure_ingress. wkeep. Qed.

Hint Resolve dispatch_keeps hop_keeps reack_keeps ingress_keeps : keeps.

Lemma rx_keeps i queued : wkeeps (rx_item self env depth i queued).
Proof. unfold rx_item, rx_unique, dispatch_released. wkeep. Qed.

Hint Resolve rx_keeps : keeps.

(** *** The public operations *)

Lemma drain_keeps fuel one over : wkeeps one -> wkeeps over -> wkeeps (drain fuel one over).
Proof. intros Ho Hv. induction fuel; cbn [drain]; wkeep. Qed.

Lemma process_timeouts_keeps : wkeeps (process_timeouts env).
Proof. unfold process_timeouts. wkeep. Qed.

Lemma pop_transmit_keeps : wkeeps pop_transmit.
Proof. unfold pop_transmit. wkeep. Qed.

Lemma pop_received_keeps : wkeeps pop_received.
Proof. unfold pop_received. wkeep. Qed.

Hint Resolve process_timeouts_keeps pop_transmit_keeps pop_received_keeps : keeps.

Lemma one_tx_keeps : wkeeps (process_one_tx self env depth).
Proof. unfold process_one_tx. wkeep. Qed.

Lemma one_rx_keeps : wkeeps (process_one_rx self env depth).
Proof. unfold process_one_rx, next_received, pop_isr. wkeep. Qed.

Hint Resolve one_tx_keeps one_rx_keeps : keeps.

Lemma elapsed_keeps start budget : wkeeps (elapsed env start budget).
Proof. unfold elapsed. wkeep. Qed.

Lemma timed_out_keeps timeout start : wkeeps (timed_out env timeout start).
Proof. unfold timed_out, elapsed. wkeep. Qed.

Hint Resolve elapsed_keeps timed_out_keeps drain_keeps : keeps.

Lemma process_all_keeps fuel timeout : wkeeps (process_all_queues_with_timeout_impl self env depth fuel timeout).
Proof. unfold process_all_queues_with_timeout_impl, process_one_of_each. wkeep; apply drain_keeps; wkeep. Qed.

Lemma discovery_keeps : wkeeps (poll_discovery self env).
Proof. unfold poll_discovery. wkeep. Qed.
End Rx.
End Traffic.

(** ** Sequences of public operations *)

Inductive PublicOp :=
| OpRx (src : option RouterSideId) (pkt : Packet)
| OpRxSerialized (src : option RouterSideId) (bytes : list byte)
| OpRxQueue (src : option RouterSideId) (pkt : Packet)
| OpRxSerializedQueue (src : option RouterSideId) (bytes : list byte)
| OpRxIsr (src : option RouterSideId) (pkt : Packet)
| OpRxSerializedIsr (src : option RouterSideId) (bytes : list byte)
| OpTx (d : RouterItem)
| OpTxQueue (d : RouterItem)
| OpLog (t : DataType) (T : Prim) (data : list Z)
| OpLogTs (t : DataType) (T : Prim) (ts : Z) (data : list Z)
| OpLogQueue (t : DataType) (T : Prim) (data : list Z)
| OpLogQueueTs (t : DataType) (T : Prim) (ts : Z) (data : list Z)
| OpProcessTx (timeout_ms : Z)
| OpProcessRx (timeout_ms : Z)
| OpProcessAll (timeout_ms : Z)
| OpPeriodic (timeout_ms : Z)
| OpPeriodicNoTimesync (timeout_ms : Z)
| OpPollTimesync
| OpPollDiscovery
| OpAnnounceDiscovery
| OpClearQueues
| OpClearRx
| OpClearTx
| OpTime (f : TimeSyncRuntime -> TimeSyncRuntime)
| OpExportTopology
| OpAddSide (name : Str) (handler : RouterTxHandlerFn) (o : RouterSideOptions)
| OpRemoveSide (side : RouterSideId)
| OpSetIngress (side : RouterSideId) (enabled : bool)
| OpSetEgress (side : RouterSideId) (enabled : bool)
| OpSetMode (src : option RouterSideId) (mode : RouteSelectionMode)
| OpClearMode (src : option RouterSideId)
| OpSetWeight (src : option RouterSideId) (dst : RouterSideId) (weight : Z)
| OpClearWeight (src : option RouterSideId) (dst : RouterSideId)
| OpSetPriority (src : option RouterSideId) (dst : RouterSideId) (prio : Z)
| OpClearPriority (src : option RouterSideId) (dst : RouterSideId)
| OpSetRoute (src : option RouterSideId) (dst : RouterSideId) (enabled : bool)
| OpClearRoute (src : option RouterSideId) (dst : RouterSideId)
| OpSetTypedRoute (src : option RouterSideId) (t : DataType) (dst : RouterSideId) (enabled : bool)
| OpClearTypedRoute (src : option RouterSideId) (t : DataType) (dst : RouterSideId).

Section Run.
Context `{Config} `{Schema} `{External} `{Layout} `{RouterLayout} `{DebugText}.
Context (self : Router) (env : Environment) (depth fuel : nat).

Definition discard {A} (m : W A) : W unit := _ ← m; mret tt.

(** [OpTime] is any of the operations on the time-sync state alone. *)
Definition run_op (o : PublicOp) : W unit :=
  match o with
  | OpRx src pkt => rx_now self env depth src pkt
  | OpRxSerialized src bytes => rx_serialized_now self env depth src bytes
  | OpRxQueue src pkt => rx_queue src pkt
  | OpRxSerializedQueue src bytes => rx_serialized_queue src bytes
  | OpRxIsr src pkt => rx_queue_isr env src pkt
  | OpRxSerializedIsr src bytes => rx_serialized_queue_isr env src bytes
  | OpTx d => tx_now self env depth d
  | OpTxQueue d => tx_queue d
  | OpLog t T data => log_now self env depth t T data
  | OpLogTs t T ts data => log_ts self env depth t T ts data
  | OpLogQueue t T data => log_queue self env t T data
  | OpLogQueueTs t T ts data => log_queue_ts self t T ts data
  | OpProcessTx timeout => process_tx_queue_with_timeout self env depth fuel timeout
  | OpProcessRx timeout => process_rx_queue_with_timeout self env depth fuel timeout
  | OpProcessAll timeout => process_all_queues_with_timeout self env depth fuel timeout
  | OpPeriodic timeout => periodic self env depth fuel timeout
  | OpPeriodicNoTimesync timeout => periodic_no_timesync self env depth fuel timeout
  | OpPollTimesync => discard (poll_timesync self env)
  | OpPollDiscovery => discard (poll_discovery self env)
  | OpAnnounceDiscovery => announce_discovery self env
  | OpClearQueues => clear_queues env
  | OpClearRx => clear_rx_queue env
  | OpClearTx => clear_tx_queue
  | OpTime f => timed_op f
  | OpExportTopology => discard (router_snapshot self env)
  | OpAddSide name handler o => discard (router_add_side env name handler o)
  | OpRemoveSide side => router_remove_side env side
  | OpSetIngress side enabled => router_admin_op env (set_side_ingress_enabled side enabled)
  | OpSetEgress side enabled => router_admin_op env (set_side_egress_enabled side enabled)
  | OpSetMode src mode => router_admin_op env (set_source_route_mode src mode)
  | OpClearMode src => router_admin_op env (clear_source_route_mode src)
  | OpSetWeight src dst weight => router_admin_op env (set_route_weight src dst weight)
  | OpClearWeight src dst => router_admin_op env (clear_route_weight src dst)
  | OpSetPriority src dst prio => router_admin_op env (set_route_priority src dst prio)
  | OpClearPriority src dst => router_admin_op env (clear_route_priority src dst)
  | OpSetRoute src dst enabled => router_admin_op env (set_route src dst enabled)
  | OpClearRoute src dst => router_admin_op env (clear_route src dst)
  | OpSetTypedRoute src t dst enabled => router_admin_op env (set_typed_route src t dst enabled)
  | OpClearTypedRoute src t dst => router_admin_op env (clear_typed_route src t dst)
  end.

(** Everything but the administration of sides and rules. *)
Definition router_traffic (o : PublicOp) : Prop :=
  match o with
  | OpAddSide _ _ _ | OpRemoveSide _ | OpSetIngress _ _ | OpSetEgress _ _ | OpSetMode _ _ | OpClearMode _
  | OpSetWeight _ _ _ | OpClearWeight _ _ | OpSetPriority _ _ _ | OpClearPriority _ _ | OpSetRoute _ _ _
  | OpClearRoute _ _ | OpSetTypedRoute _ _ _ _ | OpClearTypedRoute _ _ _ => False
  | _ => True
  end.

Definition source_index (src : option RouterSideId) : Prop := forall s, src = Some s -> 0 <= s.

(** The side ids of the administration are indexes. *)
Definition router_op_ids (o : PublicOp) : Prop :=
  match o with
  | OpRemoveSide side | OpSetIngress side _ | OpSetEgress side _ => 0 <= side
  | OpSetMode src _ | OpClearMode src => source_index src
  | OpSetWeight src dst _ | OpClearWeight src dst | OpSetPriority src dst _ | OpClearPriority src dst
  | OpSetRoute src dst _ | OpClearRoute src dst | OpSetTypedRoute src _ dst _ | OpClearTypedRoute src _ dst =>
      source_index src /\ 0 <= dst
  | _ => True
  end.

(** The application goes on after an error. *)
Definition run_ops (ops : list PublicOp) (w : World) : World := foldl (fun w o => fst (run_op o w)) w ops.

Lemma snapshot_keeps inv `{!RouterInvariant inv} : keeps (holds inv) (router_snapshot self env).
Proof.
  intros w Hw. unfold router_snapshot. rewrite !W_run. cbn [ask]. unfold locked, export_topology.
  cbn [locked_state set_tick time_state].
  match goal with |- context [prune_discovery_routes_locked ?now ?st] =>
    pose proof (ri_prune now st Hw) as Hp; destruct (prune_discovery_routes_locked now st) as [st' []] end;
    cbn in *; [by apply ri_cadence|done].
Qed.

Lemma run_op_keeps inv `{!RouterInvariant inv} o : router_traffic o -> keeps (holds inv) (run_op o).
Proof.
  pose proof (snapshot_keeps inv).
  pose proof (rx_keeps inv self env depth). pose proof (tx_keeps inv self env depth).
  pose proof (active_keeps inv env). pose proof (timestamp_keeps inv env). pose proof (now_keeps inv env).
  pose proof (now_ns_keeps inv env). pose proof (clock_keeps inv env).
  pose proof (poll_keeps inv self env). pose proof (discovery_keeps inv self env).
  pose proof (ingress_keeps inv). pose proof (log_queue_keeps inv self). pose proof (queue_item_keeps inv).
  pose proof (process_all_keeps inv self env depth fuel).
  pose proof (one_tx_keeps inv self env depth). pose proof (one_rx_keeps inv self env depth).
  pose proof (timed_out_keeps inv env).
  destruct o; cbn [run_op router_traffic]; intros Ht; try destruct Ht; unfold rx_now, rx_serialized_now, rx_queue, rx_serialized_queue, rx_queue_isr,
    rx_serialized_queue_isr, tx_now, tx_queue, log_now, log_ts, log_queue, process_tx_queue_with_timeout,
    process_rx_queue_with_timeout, process_all_queues_with_timeout, periodic, periodic_no_timesync, discard,
    announce_discovery, clear_queues, clear_rx_queue, clear_tx_queue, clear_isr, ensure_from, received, timed_op,
    process_tx_queue_with_timeout_impl, process_rx_queue_with_timeout_impl; wkeep;
    apply drain_keeps; wkeep.
Qed.

Lemma run_ops_keeps inv `{!RouterInvariant inv} ops w :
  Forall router_traffic ops -> inv (locked_state w) -> inv (locked_state (run_ops ops w)).
Proof.
  intros Ht. revert w. induction Ht as [|o ops Ho Ht IH]; intros w Hw; cbn; [done|]. apply IH. by apply (run_op_keeps inv o).
Qed.
End Run.

(** ** The invariants of the components *)

Section Instances.
Context `{Config} `{Schema} `{External} `{Layout} `{RouterLayout}.

Lemma both_invariants inv inv' :
  RouterInvariant inv -> RouterInvariant inv' -> RouterInvariant (fun st => inv st /\ inv' st).
Proof.
  intros I1 I2. split.
  all: intros; match goal with Hi : _ /\ _ |- _ => destruct Hi end; split; first [by apply ri_pop | by elementary].
Qed.

#[export] Instance caches_invariant : RouterInvariant caches_ok.
Proof.
  split; intros.
  - eapply same_caches_ok; [|done]. apply control_same, pop_shared_control.
  - by eapply same_caches_ok; [|eassumption].
  - by eapply same_caches_ok; [|eassumption].
  - by eapply same_caches_ok; [|eassumption].
  - by eapply same_caches_ok; [|eassumption].
  - by eapply same_caches_ok; [|eassumption].
  - by eapply same_caches_ok; [|eassumption].
  - by eapply same_caches_ok; [|eassumption].
  - by eapply same_caches_ok; [|eassumption].
  - by eapply same_caches_ok; [|eassumption].
  - by eapply same_caches_ok; [|eassumption].
  - by apply note_return_ok.
  - by apply register_state_ok.
  - by apply set_e2e_ok.
  - by apply drop_e2e_ok.
Qed.

Definition routes_inv (st : RouterInner) : Prop := routes_ok (discovery_routes st).

Lemma remove_route_ok side st : routes_inv st -> routes_inv (set_discovery_routes (bt_remove side (discovery_routes st)) st).
Proof.
  intros [Hs Hr]. split; cbn; [by apply bt_remove_sorted|]. intros sd route Hin%bt_remove_elem. eauto.
Qed.

#[export] Instance routes_invariant : RouterInvariant routes_inv.
Proof.
  split; try done; intros.
  - destruct k; cbn; try by destruct (pop_front _).
    + unfold pop_reliable_rx_buffered. repeat case_match; try done; by simplify_eq.
    + unfold pop_discovery_route. repeat case_match; cbn; try done. by apply remove_route_ok.
  - by apply prune_keeps_ok.
  - by apply store_sender_ok.
  - unfold routes_inv, note_reliable_return_route, remember_reliable_return_route_locked. by destruct (remember _ _ _ _ _ _).
  - unfold routes_inv, remember_end_to_end_reliable_tx_locked. by destruct (remember _ _ _ _ _ _).
Qed.

(** What only the administration of sides and rules changes. *)
Definition configuration (st : RouterInner) :=
  (sides st, route_overrides st, typed_route_overrides st, route_weights st, route_priorities st, source_route_modes st).

#[export] Instance configuration_invariant c : RouterInvariant (fun st => configuration st = c).
Proof.
  split; try done; intros.
  - match goal with E : configuration st = c |- _ => rewrite <- E end.
    pose proof (f_equal configuration (pop_shared_control k st)) as E. exact E.
  - unfold note_reliable_return_route, remember_reliable_return_route_locked. by destruct (remember _ _ _ _ _ _).
  - unfold remember_end_to_end_reliable_tx_locked. by destruct (remember _ _ _ _ _ _).
Qed.
End Instances.

(** ** Administration *)

(** The side ids in use. *)
Definition live (sds : list (option RouterSide)) (side : RouterSideId) : Prop :=
  0 <= side /\ is_Some (mjoin (sds !! Z.to_nat side)).

Lemma live_lookup sds s : live sds s <-> 0 <= s /\ exists x, sds !! Z.to_nat s = Some (Some x).
Proof.
  unfold live. split; intros [H0' Hx]; (split; [done|]).
  - destruct (sds !! Z.to_nat s) as [[x|]|]; try by destruct Hx. eauto.
  - destruct Hx as [x ->]. by exists x.
Qed.

Lemma live_update sds side x s : 0 <= side -> live sds s -> live (<[Z.to_nat side := Some x]> sds) s.
Proof.
  intros H0'. rewrite !live_lookup. intros [Hs [y Hy]]. split; [done|]. rewrite list_lookup_insert.
  pose proof (lookup_lt_Some _ _ _ Hy). case_decide; naive_solver.
Qed.

Lemma live_remove sds side s : 0 <= side -> live sds s -> s <> side -> live (<[Z.to_nat side := None]> sds) s.
Proof.
  intros H0'. rewrite !live_lookup. intros [Hs Hx] Hne. split; [done|]. rewrite list_lookup_insert_ne by lia. done.
Qed.

Lemma live_snoc sds x s : live sds s -> live (sds ++ [x]) s.
Proof. rewrite !live_lookup. intros [Hs [y Hy]]. split; [done|]. exists y. by apply lookup_app_l_Some. Qed.

(** The rules name sides the router has. *)
Record router_rules_live (sds : list (option RouterSide)) (st : RouterInner) : Prop := {
  rr_routes s d b : route_overrides st !! (Some s, d) = Some b -> live sds s;
  rr_routes_dst s d b : route_overrides st !! (s, d) = Some b -> live sds d;
  rr_typed s t d b : typed_route_overrides st !! (Some s, t, d) = Some b -> live sds s;
  rr_typed_dst s t d b : typed_route_overrides st !! (s, t, d) = Some b -> live sds d;
  rr_weights s d w : route_weights st !! (Some s, d) = Some w -> live sds s;
  rr_weights_dst s d w : route_weights st !! (s, d) = Some w -> live sds d;
  rr_priorities s d p : route_priorities st !! (Some s, d) = Some p -> live sds s;
  rr_priorities_dst s d p : route_priorities st !! (s, d) = Some p -> live sds d;
  rr_modes s m : source_route_modes st !! Some s = Some m -> live sds s
}.

Record router_consistent `{Config} (st : RouterInner) : Prop := {
  rc_caches : caches_ok st;
  rc_routes : routes_inv st;
  rc_rules : router_rules_live (sides st) st
}.

Section Administration.
Context `{Config} `{Schema} `{External} `{Layout} `{RouterLayout} `{DebugText}.
Notation P := router_consistent.

Lemma rules_unchanged st st' : configuration st' = configuration st ->
  router_rules_live (sides st) st -> router_rules_live (sides st') st'.
Proof. intros [= -> E1 E2 E3 E4 E5] []. split; rewrite ?E1, ?E2, ?E3, ?E4, ?E5; assumption. Qed.

Lemma rules_more sds sds' st : (forall s, live sds s -> live sds' s) -> router_rules_live sds st -> router_rules_live sds' st.
Proof. intros Hl []. split; eauto. Qed.

(** What an administration operation leaves alone. *)
Lemma consistent_after st st' :
  same_caches st st' -> discovery_routes st' = discovery_routes st -> router_rules_live (sides st') st' -> P st -> P st'.
Proof.
  intros Hc Hd Hr [Hca Hro _]. split; [by eapply same_caches_ok|unfold routes_inv; by rewrite Hd|done].
Qed.

Lemma known_side_live st side : 0 <= side -> is_some (side_at st side) = true -> live (sides st) side.
Proof. intros H0' Hs. split; [done|]. by apply is_some_true. Qed.

Lemma rule_consistent src dst now f :
  source_index src -> (forall d, dst = Some d -> 0 <= d) ->
  (forall st, sides (f st) = sides st /\ same_caches st (f st) /\ discovery_routes (f st) = discovery_routes st) ->
  (forall st, router_rules_live (sides st) st -> (forall s, src = Some s -> live (sides st) s) ->
     (forall d, dst = Some d -> live (sides st) d) -> router_rules_live (sides st) (f st)) ->
  keeps P (admin src dst now f).
Proof.
  intros Hs Hd Hf Hr st Hst. unfold admin. destruct (sides_known st src dst) eqn:Hk; cbn [fst]; [|done].
  destruct (Hf st) as (E1 & E2 & E3). apply (consistent_after st); [exact E2|exact E3| |done].
  apply andb_true_iff in Hk as [Hkd Hks].
  enough (router_rules_live (sides st) (f st)) as Hx
    by (cbn; rewrite E1; apply (rules_more (sides st)); [done|]; destruct Hx; split; assumption).
  apply Hr; [apply Hst| |].
  - intros s ->. apply known_side_live; [by apply Hs|done].
  - intros d ->. apply known_side_live; [by apply Hd|done].
Qed.

Ltac rules_updated :=
  let Hl := fresh in let Hl' := fresh in
  intros st Hst Hl Hl'; try case_decide; destruct Hst; split; cbn; try assumption; intros *;
  rewrite ?lookup_insert_Some, ?lookup_delete_Some; naive_solver.

Ltac rule := apply rule_consistent; [done|first [by intros d [= <-]|done]|intros st; try case_decide; by repeat split|rules_updated].

Lemma mode_consistent src mode now : source_index src -> keeps P (set_source_route_mode src mode now).
Proof. intros Hs. rule. Qed.

Lemma rules_consistent src dst now :
  source_index src -> 0 <= dst ->
  (forall w, keeps P (set_route_weight src dst w now)) /\ keeps P (clear_route_weight src dst now)
  /\ (forall p, keeps P (set_route_priority src dst p now)) /\ keeps P (clear_route_priority src dst now)
  /\ (forall b, keeps P (set_route src dst b now)) /\ keeps P (clear_route src dst now)
  /\ (forall t b, keeps P (set_typed_route src t dst b now)) /\ (forall t, keeps P (clear_typed_route src t dst now)).
Proof. intros Hs Hd. split_and!; intros *; rule. Qed.

Lemma added_consistent name handler o now st : P st -> P (fst (add_side name handler o now st)).
Proof.
  intros Hst. apply (consistent_after st); [by repeat split|done| |done]. cbn.
  apply (rules_more (sides st)); [apply live_snoc|]. destruct (rc_rules _ Hst). split; assumption.
Qed.

Lemma ingress_consistent side enabled now : 0 <= side -> keeps P (set_side_ingress_enabled side enabled now).
Proof.
  intros H0' st Hst. unfold set_side_ingress_enabled. destruct (side_at st side); cbn [fst]; [|done].
  apply (consistent_after st); [by repeat split|done| |done]. cbn.
  apply (rules_more (sides st)); [intros s; by apply live_update|]. destruct (rc_rules _ Hst). split; assumption.
Qed.

Lemma egress_consistent side enabled now : 0 <= side -> keeps P (set_side_egress_enabled side enabled now).
Proof.
  intros H0' st Hst. unfold set_side_egress_enabled. destruct (side_at st side); cbn [fst]; [|done]. cbn zeta. cbn [fst].
  apply (consistent_after st); [by destruct enabled; repeat split|by destruct enabled| |done].
  destruct enabled; cbn; (apply (rules_more (sides st)); [intros s; by apply live_update|]);
    destruct (rc_rules _ Hst); split; assumption.
Qed.

Lemma caches_filter_returns c side :
  caches_ok c -> caches_ok (set_reliable_return_routes (filter (fun e => snd e <> side) (reliable_return_routes c)) c).
Proof.
  intros [Hr Hp Hs]. split; [|exact Hp|exact Hs]. cbn. eapply cache_weaken; [|exact Hr].
  intros i. cbn. rewrite !is_some_true. intros [x [Hx _]%map_lookup_filter_Some]. by exists x.
Qed.

Lemma removed_consistent side now st isr : 0 <= side -> P st -> P (fst (fst (remove_side side now st isr))).
Proof.
  intros H0' Hst. unfold remove_side. destruct (side_at st side); cbn [fst]; [|done].
  destruct (isr_with _ isr) as [isr' res]. cbn [fst]. split.
  - eapply same_caches_ok; [|apply (caches_filter_returns st side), Hst]. by repeat split.
  - apply (remove_route_ok side st), Hst.
  - pose proof (fun s Hl Hne => live_remove (sides st) side s H0' Hl Hne) as Hlive. destruct (rc_rules _ Hst).
    split; cbn; intros *; rewrite ?map_lookup_filter_Some, ?lookup_delete_Some; cbn; naive_solver.
Qed.

Context (self : Router) (env : Environment) (depth fuel : nat).
Notation PW := (fun w => P (locked_state w)).
Notation run_op := (run_op self env depth fuel).
Notation run_ops := (run_ops self env depth fuel).

Lemma admin_op_keeps f : (forall now, keeps P (f now)) -> keeps PW (router_admin_op env f).
Proof.
  intros Hf w Hw. unfold router_admin_op. rewrite W_run. cbn [now_ms ask]. unfold locked. cbn [locked_state set_tick].
  specialize (Hf (ms_at env (tick w) 0) _ Hw). by destruct (f _ (locked_state w)).
Qed.

Lemma op_consistent o : router_op_ids o -> keeps PW (run_op o).
Proof.
  intros Hi. assert (router_traffic o -> keeps PW (run_op o)) as Ht.
  { intros Ht w [Hc Hr Hl]. split.
    - exact (run_op_keeps self env depth fuel caches_ok o Ht w Hc).
    - exact (run_op_keeps self env depth fuel routes_inv o Ht w Hr).
    - eapply rules_unchanged; [|exact Hl].
      by apply (run_op_keeps self env depth fuel (fun st => configuration st = configuration (locked_state w)) o Ht w). }
  destruct o; try (by apply Ht); unfold run_op; cbn [router_op_ids] in *; try (apply admin_op_keeps; intros now).
  - intros w Hw. unfold discard, router_add_side. rewrite !W_run. cbn [now_ms ask]. unfold locked.
    cbn [locked_state set_tick]. pose proof (added_consistent name handler o (ms_at env (tick w) 0) (locked_state w) Hw) as Ha.
    by destruct (add_side _ _ _ _ _).
  - intros w Hw. unfold router_remove_side. rewrite W_run. cbn [now_ms ask].
    match goal with |- context [remove_side side ?now ?st ?isr] =>
      pose proof (removed_consistent side now st isr Hi Hw) as Hr; destruct (remove_side side now st isr) as [[st' isr'] r] end.
    exact Hr.
  - by apply ingress_consistent.
  - by apply egress_consistent.
  - by apply mode_consistent.
  - by apply mode_consistent.
  - destruct Hi; by apply rules_consistent.
  - destruct Hi; by apply rules_consistent.
  - destruct Hi; by apply rules_consistent.
  - destruct Hi; by apply rules_consistent.
  - destruct Hi; by apply rules_consistent.
  - destruct Hi; by apply rules_consistent.
  - destruct Hi; by apply rules_consistent.
  - destruct Hi; by apply rules_consistent.
Qed.

Lemma ops_consistent ops w :
  Forall router_op_ids ops -> P (locked_state w) -> P (locked_state (run_ops ops w)).
Proof.
  intros Hi. revert w. induction Hi as [|o ops Ho Hi IH]; intros w Hw; cbn; [done|]. apply IH. by apply (op_consistent o Ho).
Qed.
End Administration.

(** C2. The state of a router stays consistent.  Whatever sequence of public
    operations an application performs on a router (administration of sides
    and rules, export, time, traffic, logging and queue processing), whatever
    its links, its handlers and its clock answer, and whether the operations
    succeed or fail: the two end-to-end caches stay within their configured
    bounds and in step with their insertion orders, every discovered route
    summarises exactly its announcers, and every rule names sides the router
    has.  Operations other than administration change neither the sides nor any
    rule. *)
Theorem traffic_invariants `{Config} `{Schema} `{External} `{Layout} `{RouterLayout} `{DebugText}
    self env depth fuel ops w :
  Forall router_op_ids ops -> router_consistent (locked_state w) ->
  let st := locked_state (run_ops self env depth fuel ops w) in
  router_consistent st
  /\ Z.of_nat (size (reliable_return_routes st)) <= return_cap /\ nlen (end_to_end_reliable_tx st) <= pending_cap
  /\ caches_ok st /\ routes_ok (discovery_routes st) /\ router_rules_live (sides st) st
  /\ (Forall router_traffic ops -> configuration st = configuration (locked_state w)).
Proof.
  intros Hi Hw st. pose proof (ops_consistent self env depth fuel ops w Hi Hw) as Hst. fold st in Hst.
  destruct (caches_bounded st (rc_caches _ Hst)) as [B1 B2]. split_and!; try done; [apply Hst..|].
  intros Ht. by apply (run_ops_keeps self env depth fuel (fun st => configuration st = configuration (locked_state w))).
Qed.

(** ** A concrete run *)

Definition node_world : World :=
  {| locked_state := one_side; time_state := @runtime_new default_config None;
     isr_queue := {| busy := false; isr_q := received_queue fresh_inner |}; tick := 0; events := [] |}.

Definition node_ops : list PublicOp :=
  [OpTx (RPacket gps_packet); OpRxQueue (Some 0) gps_announcement; OpPeriodic 0].

(** A side is added, preferred over the first one and removed again, with traffic between. *)
Definition node_admin : list PublicOp :=
  [OpAddSide (lit "B") HPacket side_options_default; OpSetPriority None 1 5; OpSetMode None Failover] ++ node_ops
  ++ [OpRemoveSide 1; OpExportTopology].

Lemma one_side_rules : router_rules_live (sides one_side) one_side.
Proof. split; intros *; (rewrite lookup_empty || vm_compute); done. Qed.

Lemma traffic_invariants_witness :
  let st := locked_state (@run_ops default_config default_schema run_external some_layout some_router_layout some_text
             (board_router "A" 0) quiet_environment 10 10 node_admin node_world) in
  @router_consistent default_config st /\ length (sides st) = 2%nat /\ route_priorities st !! (None, 1) = None
  /\ source_route_modes st !! None = Some Failover.
Proof.
  destruct (@traffic_invariants default_config default_schema run_external some_layout some_router_layout some_text
    (board_router "A" 0) quiet_environment 10 10 node_admin node_world) as (Hst & _).
  - repeat constructor; try discriminate; by intros s [=].
  - split; [|exact one_side_routes|exact one_side_rules].
    apply (same_caches_ok fresh_inner); [repeat split; reflexivity|exact fresh_caches].
  - split; [exact Hst|]. vm_compute. repeat split; reflexivity.
Defined.
