(* ===== verification/Delivery.v ===== *)
(** * What reaches the handlers ([src/router.rs])

    The observable side of [Dispatch] and [Receive]: which handlers a received
    or sent item is delivered to, that duplicates are not delivered, what a
    failing callback leads to. *)

From stdpp Require Import gmap.
From S2P Require Import Prelude Ordered Telemetry Config Schema Queue SmallPayload Wire Packet Serialize Calendar TimeSync Discovery RouterState Routes Reliable TimeRuntime Plan Topology EndToEnd Announce World Dispatch Receive Process Invariant.

Create HintDb frame.

(** ** Predicates the bookkeeping of an operation cannot change *)

(** [P] is about the events alone. *)
Class EventsOnly (P : World -> Prop) :=
  events_only w w' : events w' = events w -> P w -> P w'.

Section Frames.
Context (P : World -> Prop) `{!EventsOnly P}.

Lemma frame_bind {A B} (m : W A) (f : A -> W B) : keeps P m -> (forall a, keeps P (f a)) -> keeps P (m ≫= f).
Proof.
  intros Hm Hf w Hw. rewrite W_run. specialize (Hm w Hw). destruct (m w) as [w' [a|e|]]; [|done..]. by apply Hf.
Qed.

Lemma frame_ret {A} (a : A) : keeps P (mret a : W A).
Proof. by intros w. Qed.

Lemma frame_answer {A} (r : TelemetryResult A) : keeps P (answer r).
Proof. by intros w. Qed.

Lemma frame_read {A} (f : World -> TelemetryResult A) : keeps P (fun w => (w, f w)).
Proof. by intros w. Qed.

Lemma frame_ask {A} (f : Z -> A) : keeps P (ask f).
Proof. intros w. by apply events_only. Qed.

Lemma frame_locked {A} (m : RM A) : keeps P (locked m).
Proof. intros w. unfold locked. destruct (m _). by apply events_only. Qed.

Lemma frame_timed {A} (f : TimeSyncRuntime -> TimeSyncRuntime * TelemetryResult A) : keeps P (timed f).
Proof. intros w. unfold timed. destruct (f _). by apply events_only. Qed.

Lemma frame_attempt m : keeps P m -> keeps P (attempt m).
Proof. intros Hm w Hw. unfold attempt. specialize (Hm w Hw). by destruct (m w) as [w' []]. Qed.

Lemma frame_ignore m : keeps P m -> keeps P (ignore m).
Proof. intros Hm w Hw. unfold ignore. specialize (Hm w Hw). by destruct (m w) as [w' []]. Qed.

Lemma frame_each {A} (f : A -> W unit) l : (forall a, keeps P (f a)) -> keeps P (for_each f l).
Proof. intros Hf. induction l as [|a l IH]; cbn; [apply frame_ret|]. by apply frame_bind. Qed.
End Frames.

#[export] Hint Resolve frame_ret frame_answer frame_read frame_ask frame_locked frame_timed : frame.

Ltac frame := repeat first
  [ assumption | solve [eauto 3 with frame]
  | lazymatch goal with |- keeps _ (mbind _ _) => apply frame_bind; [|intros ?] end
  | lazymatch goal with |- keeps _ (attempt _) => apply frame_attempt end
  | lazymatch goal with |- keeps _ (ignore _) => apply frame_ignore end
  | lazymatch goal with |- keeps _ (for_each _ _) => apply frame_each; intros ? end
  | case_match ].

(** The events are still [l]; the events begin with [l]. *)
Definition events_are (l : list Event) (w : World) : Prop := events w = l.
Definition events_from (l : list Event) (w : World) : Prop := l `prefix_of` events w.

#[export] Instance events_are_only l : EventsOnly (events_are l).
Proof. intros w w' E. unfold events_are. by rewrite E. Qed.

#[export] Instance events_from_only l : EventsOnly (events_from l).
Proof. intros w w' E. unfold events_from. by rewrite E. Qed.

Lemma from_log l e : keeps (events_from l) (log_event e).
Proof. intros w Hw. unfold events_from in *. cbn. by apply prefix_app_r. Qed.

#[export] Hint Resolve from_log events_are_only events_from_only : frame.

Section Silent.
Context `{Config} `{Schema} `{External} `{Layout} `{RouterLayout} `{DebugText}.
Context (P : World -> Prop) `{!EventsOnly P} (self : Router) (env : Environment).

Lemma frame_timestamp : keeps P (packet_timestamp env).
Proof. unfold packet_timestamp. frame. Qed.

Lemma frame_tracker : keeps P tracker_of.
Proof. unfold tracker_of. frame. Qed.

Lemma frame_now : keeps P (now_ms env).
Proof. unfold now_ms. frame. Qed.

Lemma frame_call side : keeps P (side_call env side).
Proof. unfold side_call. frame. Qed.

Hint Resolve frame_timestamp frame_tracker frame_now frame_call : frame.

Lemma frame_should d ex : keeps P (should_route self env d ex).
Proof. unfold should_route. frame. Qed.

Lemma frame_sides d ex : keeps P (plan_sides self env d ex).
Proof. unfold plan_sides. frame. Qed.

Lemma frame_control ct side t seq : keeps P (queue_control self env ct side t seq).
Proof. unfold queue_control. frame. Qed.

Lemma frame_acknowledge pkt : keeps P (acknowledge self env pkt).
Proof. unfold acknowledge. frame. Qed.

Lemma frame_requeue src d side : keeps P (requeue src d side).
Proof. unfold requeue. frame. Qed.

Lemma frame_relay depth d src : keeps P (relay_send self env depth d src true).
Proof. unfold relay_send. frame. Qed.

Hint Resolve frame_acknowledge : frame.

Lemma frame_reacknowledge d : keeps P (reacknowledge self env d).
Proof. unfold reacknowledge. frame. Qed.
End Silent.

#[export] Hint Resolve frame_timestamp frame_tracker frame_now frame_call frame_should frame_sides frame_control
  frame_acknowledge frame_requeue frame_relay frame_reacknowledge : frame.

(** ** Deliveries *)

(** From [w] to [w'] nothing changed but that the events [l] happened. *)
Definition only_events (l : list Event) (w w' : World) : Prop :=
  locked_state w' = locked_state w /\ time_state w' = time_state w /\ isr_queue w' = isr_queue w
  /\ events w' = events w ++ l.

Lemma only_trans l k w w' w'' : only_events l w w' -> only_events k w' w'' -> only_events (l ++ k) w w''.
Proof. intros (E1 & E2 & E3 & E) (F1 & F2 & F3 & F). split_and!; try congruence. by rewrite F, E, app_assoc. Qed.

(** [m] answers [a], and all it does is [l]. *)
Definition does {A} (m : W A) (a : A) (l : list Event) : Prop := forall w, exists w', m w = (w', Ok a) /\ only_events l w w'.

Lemma does_bind {A B} (m : W A) (f : A -> W B) a b l k : does m a l -> does (f a) b k -> does (m ≫= f) b (l ++ k).
Proof.
  intros Hm Hf w. destruct (Hm w) as (w1 & E1 & O1). destruct (Hf w1) as (w2 & E2 & O2).
  exists w2. rewrite W_run, E1. split; [done|]. by eapply only_trans.
Qed.

Lemma does_ret {A} (a : A) : does (mret a) a [].
Proof. intros w. exists w. split; [done|]. split_and!; try done. by rewrite app_nil_r. Qed.

Lemma does_answer {A} (a : A) : does (answer (Ok a)) a [].
Proof. apply does_ret. Qed.

Lemma does_then {A B} (m : W A) (f : A -> W B) a b k : does m a [] -> does (f a) b k -> does (m ≫= f) b k.
Proof. apply does_bind. Qed.

Lemma does_each {A} (f : A -> W unit) (e : A -> Event) l :
  (forall a, a ∈ l -> does (f a) tt [e a]) -> does (for_each f l) tt (map e l).
Proof.
  induction l as [|a l IH]; intros Hf; cbn; [apply does_ret|].
  apply (does_bind _ _ tt _ [e a]); [apply Hf; set_solver|]. apply IH. intros b Hb. apply Hf. set_solver.
Qed.

(** What a handler is called with for a packet with this frame. *)
Definition handler_arg (pkt : Packet) (bytes : list byte) (h : EndpointHandler) : CallArg :=
  match handler h with PacketHandler => ArgPacket pkt | SerializedHandler => ArgBytes bytes end.

Definition deliveries (self : Router) (pkt : Packet) (bytes : list byte) (eps : list DataEndpoint) : list Event :=
  map (fun h => Delivered h (handler_arg pkt bytes h)) (handlers_of self (sort_dedup eps)).

Lemma sort_dedup_nodup (l : list DataEndpoint) : NoDup (sort_dedup l).
Proof.
  pose proof (sort_dedup_sorted l) as Hs. unfold strictly_sorted in Hs. induction Hs as [|x k _ IH Hx]; [constructor|].
  apply NoDup_cons. split; [|done]. intros Hin. rewrite Forall_forall in Hx. specialize (Hx x Hin). by apply lt_irrefl in Hx.
Qed.

(** The handlers of some endpoints: exactly the registered ones, each as often
    as it is registered, whatever the order and the repeats of the endpoints. *)
Lemma handlers_of_perm self eps :
  handlers_of self (sort_dedup eps)
  ≡ₚ List.filter (fun h => existsb (Z.eqb (endpoint h)) eps) (handlers (router_cfg self)).
Proof.
  assert (forall h, existsb (Z.eqb (endpoint h)) eps = existsb (Z.eqb (endpoint h)) (sort_dedup eps)) as E.
  { intros h. apply eq_bool_prop_intro. rewrite !Is_true_true, !existsb_exists.
    setoid_rewrite <- list_elem_of_In. by setoid_rewrite elem_of_sort_dedup. }
  rewrite (List.filter_ext _ _ E). clear E.
  pose proof (sort_dedup_nodup eps) as Hnd. revert Hnd. unfold handlers_of.
  generalize (sort_dedup eps) as l. induction l as [|ep l IH]; intros Hnd; cbn.
  { induction (handlers (router_cfg self)); done. }
  apply NoDup_cons in Hnd as [Hni Hnd]. rewrite (IH Hnd). clear IH.
  induction (handlers (router_cfg self)) as [|h hs IH]; cbn; [done|].
  destruct (Z.eqb_spec (endpoint h) ep) as [->|Hne]; cbn.
  - destruct (existsb (Z.eqb ep) l) eqn:E; [|by rewrite IH].
    apply existsb_exists in E as (x & Hx & <-%Z.eqb_eq). by apply list_elem_of_In in Hx.
  - destruct (existsb (Z.eqb (endpoint h)) l); cbn; [by rewrite <- Permutation_middle, IH|done].
Qed.

(** ** Handlers that accept *)

(** Every handler accepts, at once or after a failed attempt. *)
Definition accepting `{Config} (env : Environment) : Prop :=
  forall n h arg, retry MAX_HANDLER_RETRIES (fun i => handler_answer env n h i arg) = Ok tt.

Section Accepting.
Context `{Config} `{Schema} `{External} `{Layout} `{RouterLayout} `{DebugText}.
Context (self : Router) (env : Environment) (tx : RouterTxItem -> bool -> W unit).
Context (Hacc : accepting env).

Lemma does_deliver h arg : does (deliver env h arg) tt [Delivered h arg].
Proof.
  intros w. unfold deliver. rewrite W_run. cbn [log_event]. rewrite W_run. cbn [ask]. rewrite Hacc.
  eexists. split; [reflexivity|]. split_and!; reflexivity.
Qed.

Lemma does_retries h arg d pkt en : does (with_retries self env tx h arg d pkt en) tt [Delivered h arg].
Proof.
  intros w. destruct (does_deliver h arg w) as (w' & E & Ho). exists w'. split; [|done].
  unfold with_retries. rewrite W_run. unfold attempt. by rewrite E.
Qed.

Lemma does_packet_handler h pkt en :
  handler h = PacketHandler ->
  does (call_handler_with_retries self env tx h None (Some pkt) en) tt [Delivered h (ArgPacket pkt)].
Proof. intros Hh. unfold call_handler_with_retries. rewrite Hh. apply does_retries. Qed.

Lemma does_serialized_handler h bytes pkt en :
  handler h = SerializedHandler ->
  does (call_handler_with_retries self env tx h (Some bytes) pkt en) tt [Delivered h (ArgBytes bytes)].
Proof. intros Hh. unfold call_handler_with_retries. rewrite Hh. apply does_retries. Qed.

Context (around : W unit -> W unit) (Haround : forall m l, does m tt l -> does (around m) tt l).

Lemma does_deliver_packet pkt bytes :
  serialize_packet pkt = Ok bytes ->
  does (deliver_packet self env tx around pkt) tt (deliveries self pkt bytes (pkt_endpoints pkt)).
Proof.
  intros Hs. unfold deliver_packet, deliveries.
  set (eps := sort_dedup (pkt_endpoints pkt)). generalize (handlers_of self eps) as l. intros l.
  assert (forall b : option (list byte), (forall x, b = Some x -> x = bytes) -> does (for_each (fun h =>
    match handler h with
    | PacketHandler => around (call_handler_with_retries self env tx h None (Some pkt) None)
    | SerializedHandler =>
        bytes ← match b with Some bytes => mret bytes | None => answer (serialize_packet pkt) end;
        around (call_handler_with_retries self env tx h (Some bytes) (Some pkt) None)
    end) l) tt (map (fun h => Delivered h (handler_arg pkt bytes h)) l)) as Hl.
  { intros b Hb. apply does_each. intros h _. unfold handler_arg. destruct (handler h) eqn:Hh.
    - by apply Haround, does_packet_handler.
    - apply (does_then _ _ bytes).
      + destruct b as [x|]; [rewrite (Hb x) by done; apply does_ret|rewrite Hs; apply does_answer].
      + by apply Haround, does_serialized_handler. }
  destruct (existsb _ eps).
  - apply (does_then _ _ (Some bytes)); [|apply (Hl (Some bytes)); by intros x [= <-]].
    apply (does_then _ _ bytes); [rewrite Hs; apply does_answer|apply does_ret].
  - apply (does_then _ _ None); [apply does_ret|by apply (Hl None)].
Qed.

Lemma does_serialized_loop bytes en pkt l o :
  decode_validated bytes = Ok pkt -> (o = None \/ o = Some pkt) ->
  exists o', (o' = None \/ o' = Some pkt)
  /\ does (deliver_serialized_loop self env tx around bytes en l o) o'
       (map (fun h => Delivered h (handler_arg pkt bytes h)) l).
Proof.
  intros Hd. revert o. induction l as [|h l IH]; intros o Ho; cbn [deliver_serialized_loop map].
  { exists o. split; [done|apply does_ret]. }
  unfold handler_arg at 1. destruct (handler h) eqn:Hh.
  - destruct (IH (Some pkt) ltac:(by right)) as (o' & Ho' & Hl). exists o'. split; [done|].
    apply (does_bind _ _ (Some pkt) _ [Delivered h (ArgPacket pkt)]); [|done].
    apply (does_then _ _ pkt); [destruct Ho as [->| ->]; [rewrite Hd; apply does_answer|apply does_ret]|].
    apply (does_bind _ _ tt _ [Delivered h (ArgPacket pkt)] []); [by apply Haround, does_packet_handler|apply does_ret].
  - destruct (IH o Ho) as (o' & Ho' & Hl). exists o'. split; [done|].
    apply (does_bind _ _ o _ [Delivered h (ArgBytes bytes)]); [|done].
    apply (does_bind _ _ tt _ [Delivered h (ArgBytes bytes)] []); [by apply Haround, does_serialized_handler|apply does_ret].
Qed.

Lemma does_deliver_serialized bytes en pkt o :
  decode_validated bytes = Ok pkt -> (o = None \/ o = Some pkt) ->
  exists o', (o' = None \/ o' = Some pkt)
  /\ does (deliver_serialized self env tx around bytes en o) o' (deliveries self pkt bytes (env_endpoints en)).
Proof. apply does_serialized_loop. Qed.
End Accepting.

Lemma does_ignore m l : does m tt l -> does (ignore m) tt l.
Proof. intros Hm w. destruct (Hm w) as (w' & E & Ho). exists w'. unfold ignore. by rewrite E. Qed.

(** ** Reception *)

Section Reception.
Context `{Config} `{Schema} `{External} `{Layout} `{RouterLayout} `{DebugText}.
Context (self : Router) (env : Environment) (depth : nat).
Notation tx := (tx_item_impl self env depth).

Lemma control_types t :
  is_internal_control_type t = false ->
  is_reliable_control_type t = false /\ is_timesync_type t = false /\ is_discovery_type t = false.
Proof. unfold is_internal_control_type. intros Hc. apply orb_false_iff in Hc as [[? ?]%orb_false_iff ?]. done. Qed.

Lemma control_target_none pkt : is_reliable_control_type (ty pkt) = false -> packet_control_target pkt = Ok None.
Proof.
  unfold is_reliable_control_type, packet_control_target. intros Hc.
  assert (ty pkt =? ReliableAck = false) as -> by (by destruct (ty pkt =? ReliableAck)). done.
Qed.

(** Planning an ordinary item answers, and is not seen. *)
Lemma should_answers d eps t ex w :
  ordinary d eps t -> exists b w', should_route self env d ex w = (w', Ok b) /\ events w' = events w.
Proof.
  intros Ho. unfold should_route. rewrite W_run. cbn [tracker_of]. rewrite W_run. unfold now_ms. cbn [ask].
  unfold locked, should_route_remote. rewrite RM_run. unfold remote_side_plan.
  match goal with |- context [plan_choice_of self ?tr ?now d ex ?st] =>
    destruct (ordinary_choice self tr now d ex st eps t Ho) as (c & -> & _) end.
  destruct c as [l|l origin]; [by eauto|].
  match goal with |- context [apply_route_selection_locked ?a ?b ?c ?st] =>
    destruct (apply_route_selection_locked a b c st) end. by eauto.
Qed.

(** After the deliveries of a reception. *)
Definition after_packet (pkt : Packet) (src : option RouterSideId) (queued has_remote : bool) : W unit :=
  _ ← (if is_some src && any_local_handler self (pkt_endpoints pkt) && is_reliable_type (ty pkt)
       then acknowledge self env pkt else mret tt);
  if has_remote then relay_send self env depth (RPacket pkt) src queued else mret tt.

Definition after_serialized (bytes : list byte) (en : TelemetryEnvelope) (src : option RouterSideId)
    (queued has_remote : bool) (o : option Packet) : W unit :=
  _ ← (if is_some src && any_local_handler self (env_endpoints en) && is_reliable_type (env_ty en) then
         match o with Some pkt => acknowledge self env pkt | None => mret tt end
       else mret tt);
  if has_remote then
    relay_send self env depth (match o with Some pkt => RPacket pkt | None => RSerialized bytes end) src queued
  else mret tt.

(** Nothing is seen before the deliveries. *)
Lemma dispatch_packet_starts pkt src queued w :
  validate pkt = Ok tt -> is_internal_control_type (ty pkt) = false ->
  exists b w1, events w1 = events w /\ dispatch_rx_packet self env depth pkt src queued w
    = (_ ← deliver_packet self env tx ignore pkt; after_packet pkt src queued b) w1.
Proof.
  intros Hv (Hr & Ht & Hd)%control_types. unfold dispatch_rx_packet. rewrite W_run. cbn [answer]. rewrite Hv.
  rewrite W_run. unfold locked at 1, handle_internal_reliable_packet. rewrite Hr. cbn [negb mret RM_ret].
  rewrite Ht. rewrite W_run. unfold learn at 1. rewrite W_run. unfold now_ms at 1. cbn [ask]. rewrite W_run.
  unfold clock_readings at 1. cbn [ask]. unfold locked at 1, learn_discovery_packet. rewrite Hd. cbn [negb mret RM_ret].
  rewrite W_run.
  assert (ordinary (RPacket pkt) (sort_dedup (pkt_endpoints pkt)) (ty pkt)) as Ho.
  { split; [cbn; by rewrite Hv|]. split; [by apply control_target_none|done]. }
  match goal with |- context [should_route self env _ src ?w'] =>
    destruct (should_answers _ _ _ src w' Ho) as (b & w1 & -> & E1); change (events w1 = events w) in E1 end.
  by exists b, w1.
Qed.

Lemma dispatch_serialized_starts pkt en bytes src queued w :
  peek_envelope bytes = Ok en -> deserialize_packet bytes = Ok pkt -> validate pkt = Ok tt ->
  ty pkt = env_ty en -> is_internal_control_type (ty pkt) = false ->
  exists b w1 o, events w1 = events w /\ (o = None \/ o = Some pkt)
  /\ dispatch_rx_serialized self env depth bytes src queued w
     = (o ← deliver_serialized self env tx ignore bytes en o; after_serialized bytes en src queued b o) w1.
Proof.
  intros Hp Hdec Hv Hty (Hr & Ht & Hd)%control_types. rewrite Hty in Hr, Ht, Hd.
  unfold dispatch_rx_serialized. rewrite W_run. cbn [answer]. rewrite Hp, Hr, Ht, Hd. rewrite W_run. cbn [answer].
  assert (exists o, decode_if_needed self bytes en = Ok o /\ (o = None \/ o = Some pkt)) as (o & -> & Ho).
  { unfold decode_if_needed, decode_validated. rewrite Hdec. cbn [res_bind mbind res_mbind]. rewrite Hv.
    destruct (existsb _ _); cbn; eauto. }
  rewrite W_run.
  assert (ordinary (RSerialized bytes) (sort_dedup (env_endpoints en)) (env_ty en)) as Hord.
  { split; [cbn; by rewrite Hp|]. split; [cbn; rewrite Hdec; apply control_target_none; by rewrite Hty|done]. }
  destruct (should_answers _ _ _ src w Hord) as (b & w1 & -> & E1). by exists b, w1, o.
Qed.

Lemma decode_is_validated bytes pkt :
  deserialize_packet bytes = Ok pkt -> validate pkt = Ok tt -> decode_validated bytes = Ok pkt.
Proof. intros Hd Hv. unfold decode_validated. rewrite Hd. cbn. by rewrite Hv. Qed.

(** The hop section lets a frame of an unreliable type through. *)
Lemma hop_unreliable en src bytes w :
  peek_frame_info bytes = Ok {| envelope := en; fi_reliable := None |} ->
  ensure_side_ingress_enabled (locked_state w) src = Ok tt ->
  exists w', Receive.hop_receive self env src bytes w = (w', Ok (HopContinue []))
  /\ locked_state w' = locked_state w /\ events w' = events w.
Proof.
  intros Hp Hin. unfold ensure_side_ingress_enabled in Hin. destruct (side_ref _ src) as [s| |] eqn:Hs; [|done..].
  unfold Receive.hop_receive. rewrite W_run. unfold now_ms. cbn [ask]. unfold hop_receive_in. rewrite W_run.
  unfold locked at 1. cbn [locked_state set_tick]. rewrite Hs. rewrite W_run. unfold locked at 1, get.
  rewrite Hp. cbn [fi_reliable ack_only from_option]. destruct (_ && _); (eexists; split; [reflexivity|done]).
Qed.

Lemma duplicate_locked d w :
  snd (is_duplicate_pkt d (locked_state w)) = Ok false ->
  exists w1, locked (is_duplicate_pkt d) w = (w1, Ok false) /\ events w1 = events w.
Proof.
  intros E. unfold locked. destruct (is_duplicate_pkt d (locked_state w)) as [st r]. cbn [snd] in E. subst. by eexists.
Qed.
End Reception.

(** The two forms in which a packet arrives, and what a packet handler then
    gets: the packet, or the decoded packet. *)
Inductive arrives `{Config} `{Schema} `{External} (p : Packet) (bytes : list byte) : RouterItem -> Packet -> Prop :=
| as_packet : arrives p bytes (RPacket p) p
| as_frame : arrives p bytes (RSerialized bytes) (canonical p).

(** ** Handlers that fail *)

Section Growing.
Context `{Config} `{Schema} `{External} `{Layout} `{RouterLayout} `{DebugText}.
Context (self : Router) (env : Environment) (l : list Event).
Notation grows := (keeps (events_from l)).

Lemma grows_deliver h arg : grows (deliver env h arg).
Proof. unfold deliver. frame. Qed.

Lemma grows_send side d : grows (send_to_side self env side d).
Proof. unfold send_to_side. frame. Qed.

Hint Resolve grows_deliver grows_send : frame.

Section Tx.
Context (tx : RouterTxItem -> bool -> W unit) (Htx : forall i b, grows (tx i b)).
Hint Resolve Htx : frame.

Lemma grows_error pkt dest e : grows (handle_callback_error self env tx pkt dest e).
Proof. unfold handle_callback_error. frame. Qed.

Lemma grows_env_error en dest e : grows (handle_callback_error_from_env self tx en dest e).
Proof. unfold handle_callback_error_from_env. frame. Qed.

Hint Resolve grows_error grows_env_error : frame.

Lemma grows_retries h arg d pkt en : grows (with_retries self env tx h arg d pkt en).
Proof. unfold with_retries. frame. Qed.

Hint Resolve grows_retries : frame.

Lemma grows_handler h data pkt en : grows (call_handler_with_retries self env tx h data pkt en).
Proof. unfold call_handler_with_retries. frame. Qed.

Hint Resolve grows_handler : frame.

Lemma grows_deliver_packet around pkt :
  (forall m, grows m -> grows (around m)) -> grows (deliver_packet self env tx around pkt).
Proof. intros Har. unfold deliver_packet. frame; apply Har; frame. Qed.

Lemma grows_deliver_serialized around bytes en o :
  (forall m, grows m -> grows (around m)) -> grows (deliver_serialized self env tx around bytes en o).
Proof.
  intros Har. unfold deliver_serialized. generalize (handlers_of self (sort_dedup (env_endpoints en))) as k. intros k.
  revert o. induction k as [|h k IH]; intros o; cbn [deliver_serialized_loop]; frame; apply Har; frame.
Qed.

Lemma grows_once d : grows (dispatch_once self env tx d).
Proof.
  unfold dispatch_once, dispatch_local_for_item. frame; [by apply grows_deliver_packet|by apply grows_deliver_serialized].
Qed.

Lemma grows_failed d e : grows (tx_failed self env tx d e).
Proof. unfold tx_failed. frame. Qed.

Hint Resolve grows_once grows_failed : frame.

Lemma grows_sides d sides : grows (send_to_sides self env tx d sides).
Proof. induction sides; cbn [send_to_sides]; frame. Qed.

Hint Resolve grows_sides : frame.

Lemma grows_step i b : grows (tx_step self env tx i b).
Proof. unfold tx_step, tx_broadcast, tx_to_side, tx_end_to_end_replay, tx_replay, track_end_to_end. frame. Qed.
End Tx.

Lemma grows_tx depth i b : grows (tx_item_impl self env depth i b).
Proof. revert i b. induction depth; intros i b; cbn [tx_item_impl]; [frame|by apply grows_step]. Qed.
Hint Resolve grows_tx : frame.

Lemma grows_relay depth d src queued : grows (relay_send self env depth d src queued).
Proof. unfold relay_send. frame. Qed.
End Growing.

#[export] Hint Resolve grows_tx grows_relay : frame.

Lemma packet_id_answers `{Schema} p data : std_as_slice (payload p) = Ok data -> exists id, packet_id p = Ok id.
Proof.
  intros Hp. unfold packet_id, payload_bytes. rewrite Hp. unfold mbind, res_mbind, res_bind. eexists. reflexivity.
Qed.

(** ** Reception, whatever comes after the deliveries *)

Section Seen.
Context `{Config} `{Schema} `{External} `{Layout} `{RouterLayout} `{DebugText}.
Context (self : Router) (env : Environment) (depth : nat).

Section From.
Context (l : list Event).
Notation grows := (keeps (events_from l)).
Notation tx := (tx_item_impl self env depth).

Lemma grows_around (m : W unit) : grows m -> grows (ignore m).
Proof. intros. by apply frame_ignore. Qed.

Lemma grows_relaying d relayed src queued : grows (relay_if_remote self env depth d relayed src queued).
Proof. unfold relay_if_remote. frame. Qed.

Lemma grows_timesync pkt src queued : grows (handle_internal_timesync_packet self env depth pkt src queued).
Proof.
  unfold handle_internal_timesync_packet, queue_internal_timesync_response, poll_timesync, log_queue_ts, queue_item.
  pose proof grows_relaying. frame.
Qed.

Lemma grows_learn pkt src : grows (learn self env pkt src).
Proof. unfold learn, clock_readings. frame. Qed.

Lemma grows_dispatch i queued : grows (dispatch_rx_data self env depth i queued).
Proof.
  pose proof grows_relaying. pose proof grows_timesync. pose proof grows_learn.
  assert (forall pkt, grows (deliver_packet self env tx ignore pkt)) as Hp
    by (intros; apply grows_deliver_packet; [intros; apply grows_tx|apply grows_around]).
  assert (forall bytes en o, grows (deliver_serialized self env tx ignore bytes en o)) as Hs
    by (intros; apply grows_deliver_serialized; [intros; apply grows_tx|apply grows_around]).
  unfold dispatch_rx_data, dispatch_rx_packet, dispatch_rx_serialized. frame.
Qed.

Lemma grows_released src queued bytes : grows (dispatch_released self env depth src queued bytes).
Proof. pose proof grows_dispatch. unfold dispatch_released. frame. Qed.
End From.

(** [w'] has seen the deliveries of a packet after [w]; and nothing else if [silent]. *)
Definition has_seen (pkt : Packet) (bytes : list byte) (eps : list DataEndpoint) (silent : Prop) (w w' : World) : Prop :=
  exists l rest, l ≡ₚ List.filter (fun h => existsb (Z.eqb (endpoint h)) eps) (handlers (router_cfg self))
  /\ events w' = events w ++ map (fun h => Delivered h (handler_arg pkt bytes h)) l ++ rest
  /\ (silent -> rest = []).

Lemma seen_then (silent : Prop) pkt bytes eps w w1 (m : W unit) :
  events w1 = events w ++ deliveries self pkt bytes eps ->
  (forall l, keeps (events_from l) m) -> (silent -> forall l, keeps (events_are l) m) ->
  exists rest, events (fst (m w1)) = events w ++ deliveries self pkt bytes eps ++ rest /\ (silent -> rest = []).
Proof.
  intros E Hg Hs. destruct (Hg (events w1) w1) as [rest Hr]; [by unfold events_from|]. exists rest. split.
  - by rewrite Hr, E, app_assoc.
  - intros Hsil. specialize (Hs Hsil (events w1) w1 eq_refl). unfold events_are in Hs. rewrite Hr in Hs.
    apply (f_equal length) in Hs. rewrite length_app in Hs. apply nil_length_inv. lia.
Qed.

Lemma dispatch_packet_seen pkt bytes src queued w :
  accepting env -> validate pkt = Ok tt -> is_internal_control_type (ty pkt) = false ->
  serialize_packet pkt = Ok bytes ->
  exists rest, events (fst (dispatch_rx_packet self env depth pkt src queued w))
    = events w ++ deliveries self pkt bytes (pkt_endpoints pkt) ++ rest /\ (queued = true -> rest = []).
Proof.
  intros Hacc Hv Hc Hs. destruct (dispatch_packet_starts self env depth pkt src queued w Hv Hc) as (b & w1 & <- & ->).
  rewrite W_run.
  destruct (does_deliver_packet self env (tx_item_impl self env depth) Hacc ignore does_ignore pkt bytes Hs w1)
    as (w2 & -> & _ & _ & _ & E2).
  apply seen_then; [done|intros l; unfold after_packet; frame|]. intros -> l. unfold after_packet. frame.
Qed.

Lemma dispatch_serialized_seen pkt en bytes src queued w :
  accepting env -> peek_envelope bytes = Ok en -> deserialize_packet bytes = Ok pkt -> validate pkt = Ok tt ->
  ty pkt = env_ty en -> is_internal_control_type (ty pkt) = false ->
  exists rest, events (fst (dispatch_rx_serialized self env depth bytes src queued w))
    = events w ++ deliveries self pkt bytes (env_endpoints en) ++ rest /\ (queued = true -> rest = []).
Proof.
  intros Hacc Hp Hdec Hv Hty Hc.
  destruct (dispatch_serialized_starts self env depth pkt en bytes src queued w Hp Hdec Hv Hty Hc)
    as (b & w1 & o & <- & Ho & ->).
  destruct (does_deliver_serialized self env (tx_item_impl self env depth) Hacc ignore does_ignore bytes en pkt o
    (decode_is_validated _ _ Hdec Hv) Ho) as (o' & _ & Hdo).
  rewrite W_run. destruct (Hdo w1) as (w2 & -> & _ & _ & _ & E2).
  apply seen_then; [done|intros l; unfold after_serialized; frame|]. intros -> l. unfold after_serialized. frame.
Qed.

(** [rx_item] up to the duplicate filter: the ingress rule, the return route
    and, for a frame, the link of its side. *)
Definition link_passes (src : option RouterSideId) (d : RouterItem) : W hop_result :=
  _ ← match src with
      | Some src => _ ← ensure_ingress src; locked (note_return_route src d)
      | None => mret tt
      end;
  match src, d with
  | Some src, RSerialized bytes => Receive.hop_receive self env src bytes
  | _, _ => mret (HopContinue [])
  end.

Lemma link_silent src d l : keeps (events_are l) (link_passes src d).
Proof.
  unfold link_passes, ensure_ingress, Receive.hop_receive, hop_receive_in, hop_sequenced_in, hop_ordered_in, hop_corrupt_in.
  frame.
Qed.

Lemma rx_after_link i queued w w1 released :
  link_passes (rx_src i) (rx_data i) w = (w1, Ok (HopContinue released)) ->
  rx_item self env depth i queued w = rx_unique self env depth i released queued w1 /\ events w1 = events w.
Proof.
  intros E. split.
  - unfold rx_item. revert E. unfold link_passes. rewrite !W_run.
    match goal with |- context [?m w] => destruct (m w) as [w' [[]|e|]] end; [|done..]. rewrite W_run. by intros ->.
  - pose proof (link_silent (rx_src i) (rx_data i) (events w) w eq_refl) as Hk. by rewrite E in Hk.
Qed.

(** Which items pass the link whatever its state. *)
Lemma link_lets_through side d w :
  ensure_side_ingress_enabled (locked_state w) side = Ok tt ->
  match d with
  | RPacket pkt => exists id, packet_id pkt = Ok id
  | RSerialized bytes => exists en, peek_envelope bytes = Ok en
      /\ peek_frame_info bytes = Ok {| envelope := en; fi_reliable := None |} /\ is_reliable_type (env_ty en) = false
  end ->
  exists w1, link_passes (Some side) d w = (w1, Ok (HopContinue [])).
Proof.
  intros Hin Hd. unfold link_passes. rewrite W_run.
  assert ((_ ← ensure_ingress side; locked (note_return_route side d)) w = locked (note_return_route side d) w) as ->.
  { rewrite W_run. unfold ensure_ingress, locked at 1. rewrite Hin. by destruct w. }
  destruct d as [pkt|bytes].
  - destruct Hd as [id Hid]. unfold locked, note_return_route. destruct (_ && _); [|by eexists].
    rewrite RM_run. unfold lift. rewrite Hid. by eexists.
  - destruct Hd as (en & Hpe & Hp & Hrel). 
    assert (locked (note_return_route side (RSerialized bytes)) w = (w, Ok tt)) as ->.
    { unfold locked, note_return_route. rewrite Hpe, Hrel. by destruct w. }
    destruct (hop_unreliable self env en side bytes w Hp Hin) as (w1 & -> & _). by eexists.
Qed.

Lemma rx_first i released queued w w1 :
  locked (is_duplicate_pkt (rx_data i)) w = (w1, Ok false) ->
  rx_unique self env depth i released queued w
  = (_ ← dispatch_rx_data self env depth i queued;
     for_each (dispatch_released self env depth (rx_src i) queued) released) w1.
Proof. intros E. unfold rx_unique. by rewrite W_run, E. Qed.

Lemma rx_again i released queued w w1 :
  locked (is_duplicate_pkt (rx_data i)) w = (w1, Ok true) ->
  rx_unique self env depth i released queued w
  = (if is_some (rx_src i) then reacknowledge self env (rx_data i) else mret tt) w1.
Proof. intros E. unfold rx_unique. by rewrite W_run, E. Qed.
End Seen.


Section Calls.
Context `{Config} `{Schema} `{External} `{Layout} `{RouterLayout} `{DebugText}.
Context (self : Router) (env : Environment) (tx : RouterTxItem -> bool -> W unit).
Context (Htx : forall l i b, keeps (events_from l) (tx i b)).
Context (Hstack : STACK_PAYLOAD_SIZE < 256) (Htries : 0 < MAX_HANDLER_RETRIES).
Context (Hans : forall n h i arg, handler_answer env n h i arg <> Panic).

(** In the course of a run from [w], sending a report of an error panics. *)
Definition report_panics (w : World) : Prop := exists w0 report,
  ty report = TyTelemetryError /\ events w `prefix_of` events w0
  /\ snd (tx (Broadcast (RPacket report)) false w0) = Panic.

Lemma report_panics_later w w' : events w `prefix_of` events w' -> report_panics w' -> report_panics w.
Proof. intros Hp (w0 & r & Hty & Hp' & E). exists w0, r. split_and!; [done|by etrans|done]. Qed.

(** [m] answers as [Q] says after a run in which all of [l] happens, in this
    order; it panics only if the sending of a report does. *)
Definition calls {A} (m : W A) (Q : A -> Prop) (l : list Event) : Prop := forall w,
  snd (m w) = Panic /\ report_panics w
  \/ exists a new, snd (m w) = Ok a /\ Q a /\ events (fst (m w)) = events w ++ new /\ l `sublist_of` new.

Lemma calls_bind {A B} (m : W A) (f : A -> W B) Q R l k :
  calls m Q l -> (forall a, Q a -> calls (f a) R k) -> calls (m ≫= f) R (l ++ k).
Proof.
  intros Hm Hf w. rewrite W_run. specialize (Hm w). destruct (m w) as [w1 r]. cbn [fst snd] in Hm.
  destruct Hm as [[-> Hp]|(a & new & -> & Ha & E & Hl)]; [by left|].
  destruct (Hf a Ha w1) as [[E1 Hp]|(b & new' & E' & Hb & E1 & Hk)].
  { left. split; [done|]. apply (report_panics_later w w1); [by exists new|done]. }
  right. exists b, (new ++ new'). split_and!; [done..| |by apply sublist_app]. by rewrite E1, E, app_assoc.
Qed.

Lemma calls_ok {A} (a : A) (Q : A -> Prop) : Q a -> calls (mret a) Q [].
Proof. intros Ha w. right. exists a, []. split_and!; try done. by rewrite app_nil_r. Qed.

Lemma retry_from_answers {T} times i (f : nat -> TelemetryResult T) last :
  (times <> 0%nat \/ last <> None) -> (forall n, f n <> Panic) -> retry_from times i f last <> Panic.
Proof.
  intros Ht Hf. revert i last Ht. induction times as [|n IH]; intros i last Ht; cbn [retry_from].
  { destruct last; [done|]. by destruct Ht. }
  specialize (Hf i). destruct (f i); [done| |done]. apply IH. by right.
Qed.

Lemma deliver_answers h arg w : snd (deliver env h arg w) <> Panic.
Proof.
  unfold deliver. rewrite W_run. cbn [log_event]. rewrite W_run. cbn [ask answer snd].
  apply retry_from_answers; [left; lia|intros; apply Hans].
Qed.

Lemma error_packet_answers recipients snd ts msg : error_packet recipients snd ts msg <> Panic.
Proof.
  unfold error_packet, make_error_payload.
  assert (element (message_meta TyTelemetryError) = Dynamic TString Error) as ->.
  { unfold message_meta, get_message_meta, type_table, TyTelemetryError, n_tys.
    rewrite app_nth2 by lia. replace (_ - _)%nat with 9%nat by lia. reflexivity. }
  cbn [res_bind mbind res_mbind].
  intros E. pose proof (packet_new_correct TyTelemetryError recipients snd ts msg Hstack) as Hc. by rewrite E in Hc.
Qed.

Lemma error_packet_type recipients snd ts msg report :
  error_packet recipients snd ts msg = Ok report -> ty report = TyTelemetryError.
Proof.
  unfold error_packet. intros (data & _ & Hn)%bind_ok. by apply packet_new_ok in Hn as (_ & -> & _); [|lia].
Qed.

(** Reporting a failure panics only if the report cannot be sent. *)
Lemma callback_error_panics pkt dest e w :
  snd (handle_callback_error self env tx pkt dest e w) = Panic -> report_panics w.
Proof.
  unfold handle_callback_error. destruct (error_recipients self (pkt_endpoints pkt) dest) as [|r rs]; [done|].
  pose proof (frame_timestamp (events_are (events w)) env w eq_refl) as Et. rewrite W_run.
  destruct (packet_timestamp env w) as [w1 [ts|e'|]] eqn:E; cbn [fst] in Et; [|done|].
  2: { exfalso. revert E. unfold packet_timestamp. rewrite W_run. cbn [ask]. unfold timed. by destruct (packet_timestamp_ms _ _ _ _ _). }
  rewrite W_run. cbn [answer]. destruct (error_packet _ _ _ _) as [report|e'|] eqn:Er; [|done|].
  - intros Hp. exists w1, report. split; [by apply error_packet_type in Er|]. split; [by rewrite Et|done].
  - by apply error_packet_answers in Er.
Qed.

Lemma env_error_panics en dest e w :
  snd (handle_callback_error_from_env self tx en dest e w) = Panic -> report_panics w.
Proof.
  unfold handle_callback_error_from_env. destruct (error_recipients self (env_endpoints en) dest) as [|r rs]; [done|].
  rewrite W_run. cbn [answer]. destruct (error_packet _ _ _ _) as [report|e'|] eqn:Er; [|done|].
  - intros Hp. exists w, report. split; [by apply error_packet_type in Er|]. by split.
  - by apply error_packet_answers in Er.
Qed.

(** Calling a handler happens first, and whatever comes of it the caller goes on. *)
Lemma calls_handler h arg d pkt en id :
  get_hash d = Ok id ->
  calls (ignore (with_retries self env tx h arg d pkt en)) (fun _ => True) [Delivered h arg].
Proof.
  intros Hid w.
  destruct (deliver env h arg w) as [w1 r] eqn:Ed.
  assert (events w1 = events w ++ [Delivered h arg]) as E1.
  { revert Ed. unfold deliver. rewrite W_run. cbn [log_event]. rewrite W_run. cbn [ask answer]. by intros [= <- _]. }
  pose proof (deliver_answers h arg w) as Hr. rewrite Ed in Hr. cbn [snd] in Hr.
  unfold ignore, with_retries. rewrite W_run. unfold attempt. rewrite Ed. destruct r as [[]|e|]; [| |done].
  { cbn. right. exists tt, [Delivered h arg]. by split_and!. }
  assert (exists w2, locked (remove_pkt_id d) w1 = (w2, Ok tt) /\ events w2 = events w1) as (w2 & Er & E2).
  { unfold locked, remove_pkt_id. rewrite RM_run. unfold lift. rewrite Hid. by eexists. }
  rewrite E1 in E2. rewrite W_run, Er, W_run.
  set (m := match pkt, en with Some p, _ => _ | _, _ => _ end).
  assert (keeps (events_from (events w2)) m) as Hk.
  { pose proof (grows_error self env (events w2) tx (Htx _)). pose proof (grows_env_error self (events w2) tx (Htx _)).
    unfold m. frame. }
  specialize (Hk w2 ltac:(by unfold events_from)). destruct Hk as [k Hk].
  assert (snd (m w2) = Ok tt \/ snd (m w2) = Panic /\ report_panics w2) as Hm.
  { unfold m, ignore. destruct pkt as [p|]; [|destruct en as [n|]; [|by left]].
    - pose proof (callback_error_panics p (Some (endpoint h)) e w2) as Hp.
      destruct (handle_callback_error _ _ _ _ _ _ w2) as [w3 [[]|e'|]]; [by left..|right]. split; [done|by apply Hp].
    - pose proof (env_error_panics n (Some (endpoint h)) e w2) as Hp.
      destruct (handle_callback_error_from_env _ _ _ _ _ w2) as [w3 [[]|e'|]]; [by left..|right]. split; [done|by apply Hp]. }
  destruct (m w2) as [w3 r]. cbn [fst snd] in Hk, Hm. destruct Hm as [-> |[-> Hp]].
  - right. exists tt, (Delivered h arg :: k). cbn [answer fst snd]. split; [done|]. split; [done|].
    split; [|by apply sublist_skip, sublist_nil_l]. rewrite Hk, E2. by rewrite <- app_assoc.
  - left. split; [done|]. apply (report_panics_later w w2); [by exists [Delivered h arg]|done].
Qed.

Lemma calls_packet_handler h pkt en id :
  packet_id pkt = Ok id -> handler h = PacketHandler ->
  calls (ignore (call_handler_with_retries self env tx h None (Some pkt) en)) (fun _ => True) [Delivered h (ArgPacket pkt)].
Proof. intros Hid Hh. unfold call_handler_with_retries. rewrite Hh. by apply calls_handler with id. Qed.

Lemma calls_serialized_handler h bytes pkt en id :
  packet_id_from_wire bytes = Ok id -> handler h = SerializedHandler ->
  calls (ignore (call_handler_with_retries self env tx h (Some bytes) pkt en)) (fun _ => True) [Delivered h (ArgBytes bytes)].
Proof.
  intros Hid Hh. unfold call_handler_with_retries. rewrite Hh. apply calls_handler with id. cbn [get_hash]. by rewrite Hid.
Qed.

Lemma calls_answer {A} (r : TelemetryResult A) a (Q : A -> Prop) : r = Ok a -> Q a -> calls (answer r) Q [].
Proof. intros ->. apply calls_ok. Qed.

Lemma calls_each {A} (f : A -> W unit) (e : A -> Event) l :
  (forall a, calls (f a) (fun _ => True) [e a]) -> calls (for_each f l) (fun _ => True) (map e l).
Proof.
  intros Hf. induction l as [|a l IH]; cbn; [by apply calls_ok|].
  apply (calls_bind _ _ (fun _ => True) _ [e a]); [apply Hf|]. by intros _ _.
Qed.

Context (pkt : Packet) (bytes : list byte) (id id' : Z).
Context (Hid : packet_id pkt = Ok id) (Hid' : packet_id_from_wire bytes = Ok id').

Lemma calls_deliver_packet :
  serialize_packet pkt = Ok bytes ->
  calls (deliver_packet self env tx ignore pkt) (fun _ => True) (deliveries self pkt bytes (pkt_endpoints pkt)).
Proof.
  intros Hs. unfold deliver_packet, deliveries. set (eps := sort_dedup (pkt_endpoints pkt)).
  apply (calls_bind _ _ (fun b => b = None \/ b = Some bytes) _ []).
  - destruct (existsb _ eps); [|apply calls_ok; by left].
    apply (calls_bind _ _ (fun b => b = bytes) _ [] []); [by eapply calls_answer|]. intros b ->. apply calls_ok. by right.
  - intros b Hb. apply calls_each. intros h. unfold handler_arg. destruct (handler h) eqn:Hh.
    + by apply calls_packet_handler with id.
    + apply (calls_bind _ _ (fun b => b = bytes) _ []); [|intros x ->; by apply calls_serialized_handler with id'].
      destruct Hb as [-> | ->]; [by eapply calls_answer|by apply calls_ok].
Qed.

Lemma calls_deliver_serialized en o :
  decode_validated bytes = Ok pkt -> (o = None \/ o = Some pkt) ->
  calls (deliver_serialized self env tx ignore bytes en o) (fun o => o = None \/ o = Some pkt)
    (deliveries self pkt bytes (env_endpoints en)).
Proof.
  intros Hd. unfold deliver_serialized, deliveries. generalize (handlers_of self (sort_dedup (env_endpoints en))) as l.
  intros l. revert o. induction l as [|h l IH]; intros o Ho; cbn [deliver_serialized_loop map]; [by apply calls_ok|].
  apply (calls_bind _ _ (fun o => o = None \/ o = Some pkt) _ [_]); [|exact IH].
  unfold handler_arg. destruct (handler h) eqn:Hh.
  - apply (calls_bind _ _ (fun x => x = pkt) _ []).
    + destruct Ho as [-> | ->]; [by eapply calls_answer|by apply calls_ok].
    + intros x ->. apply (calls_bind _ _ (fun _ => True) _ [_] []); [by apply calls_packet_handler with id|].
      intros _ _. apply calls_ok. by right.
  - apply (calls_bind _ _ (fun _ => True) _ [_] []); [by apply calls_serialized_handler with id'|]. intros _ _. by apply calls_ok.
Qed.

Lemma calls_then {A} (m : W A) (f : A -> W unit) Q l w w' :
  calls m Q l -> (forall a k, keeps (events_from k) (f a)) -> events w' = events w ->
  snd ((m ≫= f) w') = Panic /\ report_panics w
  \/ exists new, events (fst ((m ≫= f) w')) = events w ++ new /\ l `sublist_of` new.
Proof.
  intros Hm Hf E. rewrite W_run. specialize (Hm w'). destruct (m w') as [w1 r]. cbn [fst snd] in Hm.
  destruct Hm as [[-> Hp]|(a & new & -> & _ & E1 & Hl)].
  { left. split; [done|]. apply (report_panics_later w w'); [by rewrite E|done]. }
  right. destruct (Hf a (events w1) w1) as [k Hk]; [by unfold events_from|]. exists (new ++ k). split.
  - by rewrite Hk, E1, E, app_assoc.
  - rewrite <- (app_nil_r l). by apply sublist_app; [|apply sublist_nil_l].
Qed.
End Calls.

(** The deliveries of a received item to the handlers of this router, sending with [tx]. *)
Definition deliver_item `{Config} `{Schema} `{External} `{Layout} `{RouterLayout} `{DebugText}
    (self : Router) (env : Environment) (tx : RouterTxItem -> bool -> W unit) (d : RouterItem) : W unit :=
  match d with
  | RPacket pkt => deliver_packet self env tx ignore pkt
  | RSerialized bytes =>
      en ← answer (peek_envelope bytes); o ← answer (decode_if_needed self bytes en);
      _ ← deliver_serialized self env tx ignore bytes en o; mret tt
  end.

(** All handlers of these endpoints are called with the item, whatever else happens. *)
Definition all_called (self : Router) (pkt : Packet) (bytes : list byte) (eps : list DataEndpoint) (w w' : World) : Prop :=
  exists l new, l ≡ₚ List.filter (fun h => existsb (Z.eqb (endpoint h)) eps) (handlers (router_cfg self))
  /\ events w' = events w ++ new /\ map (fun h => Delivered h (handler_arg pkt bytes h)) l `sublist_of` new.


(** ** Concrete receptions *)

Definition busy_router : Router :=
  {| router_sender := lit "BOARD";
     router_cfg := {| handlers := [{| endpoint := 1; handler := PacketHandler |}; {| endpoint := 0; handler := SerializedHandler |};
                                   {| endpoint := 2; handler := PacketHandler |}; {| endpoint := 0; handler := PacketHandler |}];
                      cfg_reliable_enabled := true; cfg_sender := None; cfg_timesync := None |} |}.

(** Every handler fails; the links accept. *)
Definition failing_handlers : Environment :=
  {| ms_at n i := n; ns_at n i := 1000000 * n; gate_busy _ := false; isr_busy _ := false;
     side_answer _ _ _ _ := Ok tt; handler_answer _ _ _ _ := Err (HandlerError "no") |}.

Lemma quiet_accepting : @accepting default_config quiet_environment.
Proof. intros n h arg. vm_compute. reflexivity. Qed.


