(* ===== verification/Duplicates.v ===== *)
(** * The duplicate filter ([src/router.rs], [is_duplicate_pkt])

    The filter as a window over the identifiers seen, the proof that the
    router's filter is that window, and what a duplicate leads to. *)

From stdpp Require Import gmap.
From S2P Require Import Prelude Ordered Telemetry Config Schema Queue SmallPayload Wire Packet Serialize Calendar TimeSync Discovery RouterState Routes Reliable TimeRuntime Plan Topology EndToEnd Announce World Dispatch Receive Process Invariant Delivery.

(** ** The window *)

(** The identifiers remembered, oldest first; a new one pushes out the oldest
    when the window is full. *)
Definition window_step (cap : nat) (seen : list Z) (id : Z) : list Z :=
  if bool_decide (id ∈ seen) then seen else drop (S (length seen) - cap) (seen ++ [id]).

Lemma window_length cap seen id : (1 <= cap)%nat -> (length seen <= cap)%nat -> (length (window_step cap seen id) <= cap)%nat.
Proof. intros Hc Hl. unfold window_step. case_bool_decide; [done|]. rewrite length_drop, length_app. cbn. lia. Qed.

(** What is in the window is remembered until [cap] other identifiers came. *)
Lemma window_remembers cap seen id ids :
  (length seen <= cap)%nat -> forall n, (exists k l, seen = k ++ id :: l /\ (length l <= n)%nat) ->
  (n + length ids < cap)%nat -> id ∈ foldl (window_step cap) seen ids.
Proof.
  revert seen. induction ids as [|i ids IH]; intros seen Hl n (k & l & -> & Hn) Hc; cbn [foldl]; [set_solver|].
  cbn [length] in Hc. pose proof (window_length cap (k ++ id :: l) i ltac:(lia) Hl) as Hw. revert Hw.
  unfold window_step. case_bool_decide; intros Hw.
  - apply (IH _ Hl n); [by exists k, l|lia].
  - apply (IH _ Hw (S n)); [|lia]. rewrite <- app_assoc. cbn [app]. rewrite length_app in *. cbn [length] in *.
    exists (drop (S (length k + S (length l)) - cap) k), (l ++ [i]). split; [by rewrite drop_app_le by lia|].
    rewrite length_app. cbn [length]. lia.
Qed.

(** ** The filter *)

Section Filter.
Context `{Config} `{Layout} `{RouterLayout} (Hsize : 0 <= sizeof_DiscoverySideState).
Context (Hmax : MAX_QUEUE_BUDGET <= isize_max) (Hids : 1 <= MAX_RECENT_RX_IDS).

Definition seen (st : RouterInner) : list Z := q (recent_rx st).

(** How many identifiers the filter holds: the configured number, within the
    bytes set aside for it. *)
Definition filter_capacity (st : RouterInner) : nat :=
  Z.to_nat (Z.min MAX_RECENT_RX_IDS (Z.min (max_elems (recent_rx st)) (max_bytes (recent_rx st) / 8))).

Lemma set_recent_id st : set_recent_rx (recent_rx st) st = st.
Proof. by destruct st. Qed.

Lemma total_ids (l : list Z) : total (H := u64_cost) l = 8 * Z.of_nat (length l).
Proof. induction l as [|x l IH]; cbn [total length]; [done|]. rewrite IH. cbn [byte_cost u64_cost]. lia. Qed.

Lemma trim_exact fuel st :
  bd_inv (H := u64_cost) (recent_rx st) -> (length (seen st) <= fuel)%nat ->
  exists d, trim_recent fuel st = (set_recent_rx d st, Ok tt) /\ bd_inv (H := u64_cost) d
  /\ q d = drop (length (seen st) - Z.to_nat (MAX_RECENT_RX_IDS - 1)) (seen st)
  /\ max_bytes d = max_bytes (recent_rx st) /\ max_elems d = max_elems (recent_rx st).
Proof.
  unfold seen. revert st. induction fuel as [|fuel IH]; intros st Hi Hf; cbn [trim_recent]; unfold len at 1;
    (destruct (Z.leb_spec MAX_RECENT_RX_IDS (Z.of_nat (length (q (recent_rx st))))) as [Hle|Hlt];
     [|exists (recent_rx st); rewrite set_recent_id; split_and!; try done;
       by replace (_ - _)%nat with 0%nat by lia]).
  - lia.
  - rewrite (@pop_front_spec _ u64_cost) by done. cbn [snd].
    pose proof (@bd_inv_drop _ u64_cost _ 1%nat Hi) as Hi1.
    set (d1 := set_q (recent_rx st) (drop 1 (q (recent_rx st))) (total (H := u64_cost) (drop 1 (q (recent_rx st))))) in *.
    destruct (IH (set_recent_rx d1 st) Hi1) as (d & E & Hd & Hq & Hb & He).
    { cbn. rewrite length_drop. lia. }
    exists d. split; [exact E|]. split; [done|]. split; [|done]. rewrite Hq. cbn. rewrite drop_drop, length_drop.
    f_equal. lia.
Qed.

(** Pushing on the trimmed filter is a step of the window. *)
Lemma push_window st d1 id :
  bd_inv (H := u64_cost) d1 -> 8 <= max_bytes (recent_rx st) ->
  q d1 = drop (length (seen st) - Z.to_nat (MAX_RECENT_RX_IDS - 1)) (seen st) ->
  max_bytes d1 = max_bytes (recent_rx st) -> max_elems d1 = max_elems (recent_rx st) ->
  exists d, push_back (H := u64_cost) d1 id = (d, Ok tt)
  /\ q d = drop (S (length (seen st)) - filter_capacity st) (seen st ++ [id])
  /\ max_bytes d = max_bytes (recent_rx st) /\ max_elems d = max_elems (recent_rx st).
Proof.
  intros Hd1 Hmb Hq1 Hb1 He1.
  destruct (@push_back_spec _ u64_cost d1 id Hd1 ltac:(unfold cost_ok; cbn; lia) ltac:(cbn; lia)) as (k & c & Ep & Hev & _).
  eexists. split; [exact Ep|]. cbn [q set_q set_capacity max_bytes max_elems].
  split; [|done]. destruct Hev as (Hk & [Hf1 Hf2] & Hmin). rewrite Hq1 in *. unfold seen in *.
  set (l := q (recent_rx st)) in *. set (j := (length l - Z.to_nat (MAX_RECENT_RX_IDS - 1))%nat) in *.
  rewrite drop_drop in *. rewrite length_drop in *.
  assert ((j + k)%nat = (S (length l) - filter_capacity st)%nat) as Hjk; [|rewrite Hjk, drop_app_le by lia; done].
  rewrite total_ids, !length_drop in *. rewrite Hb1, He1 in *.
  pose proof (Z.div_mod (max_bytes (recent_rx st)) 8 ltac:(lia)). pose proof (Z.mod_pos_bound (max_bytes (recent_rx st)) 8 ltac:(lia)).
  unfold filter_capacity. cbn [byte_cost u64_cost] in Hf1.
  assert (k = 0%nat \/ ~ (8 * Z.of_nat (length l - (j + (k - 1))) + 8 <= max_bytes (recent_rx st)
            /\ Z.of_nat (length l - (j + (k - 1))) < max_elems (recent_rx st))) as Hm.
  { destruct k as [|k]; [by left|right]. intros Hfit. apply (Hmin k ltac:(lia)). unfold fits.
    rewrite total_ids, drop_drop, !length_drop, Hb1, He1. cbn [byte_cost u64_cost].
    replace (S k - 1)%nat with k in Hfit by lia. done. }
  lia.
Qed.

Lemma push_exact id st :
  budget_ok st -> 8 <= max_bytes (recent_rx st) ->
  exists d, push_recent_rx id st = (set_recent_rx d st, Ok tt) /\ budget_ok (set_recent_rx d st)
  /\ q d = drop (S (length (seen st)) - filter_capacity st) (seen st ++ [id])
  /\ max_bytes d = max_bytes (recent_rx st) /\ max_elems d = max_elems (recent_rx st).
Proof.
  intros Hb Hmb. pose proof (push_recent_ok Hsize id st Hmax Hids Hb) as [Hkeep _].
  destruct Hb as [Hi Hb]. rewrite (used_exact Hsize) in Hb by done. unfold push_recent_rx in *. rewrite RM_run in *.
  cbn [get] in *. rewrite RM_run in *.
  destruct (trim_exact (length (q (recent_rx st))) st (io_recent _ Hi) (Nat.le_refl _)) as (d1 & Et & Hd1 & Hq1 & Hb1 & He1).
  rewrite Et in *. rewrite RM_run in *.
  assert (exact_used (set_recent_rx d1 st) = exact_used st) as Hu by (destruct (set_recent_facts d1 st) as [-> _]; lia).
  assert (inner_ok (set_recent_rx d1 st)) as Hi1.
  { apply set_recent_inner_ok; [done|done|]. pose proof (io_memory _ Hi). lia. }
  rewrite (proj2 (make_shared_room_ok Hsize 0 Recent (set_recent_rx d1 st) Hi1 ltac:(lia) Hmax)) in * by lia.
  change (recent_rx (set_recent_rx d1 st)) with d1 in *.
  destruct (push_window st d1 id Hd1 Hmb Hq1 Hb1 He1) as (d & Ep & Hq).
  rewrite Ep in *. exists d. split; [reflexivity|]. split; [exact Hkeep|exact Hq].
Qed.

Lemma contains_seen st id : contains Z.eqb (recent_rx st) id = bool_decide (id ∈ seen st).
Proof.
  unfold contains, seen. apply eq_bool_prop_intro. rewrite bool_decide_spec, Is_true_true, existsb_exists.
  setoid_rewrite <- list_elem_of_In. split; [by intros (x & Hx & <-%Z.eqb_eq)|]. intros Hin. exists id. by rewrite Z.eqb_refl.
Qed.

Context `{Schema} `{External}.

Lemma duplicate_exact d id st :
  budget_ok st -> 8 <= max_bytes (recent_rx st) -> get_hash d = Ok id ->
  let '(st', r) := is_duplicate_pkt d st in
  r = Ok (bool_decide (id ∈ seen st)) /\ budget_ok st' /\ st' = set_recent_rx (recent_rx st') st
  /\ seen st' = window_step (filter_capacity st) (seen st) id
  /\ max_bytes (recent_rx st') = max_bytes (recent_rx st) /\ filter_capacity st' = filter_capacity st.
Proof.
  intros Hb Hmb Hh. unfold is_duplicate_pkt. rewrite RM_run, Hh. cbn [lift]. rewrite RM_run. cbn [get].
  rewrite contains_seen. unfold window_step. case_bool_decide as Hin.
  - cbn. by rewrite set_recent_id.
  - rewrite RM_run. destruct (push_exact id st Hb Hmb) as (dq & -> & Hb' & Hq & Hm & He). cbn [mret RM_ret].
    split; [done|]. split; [exact Hb'|]. split; [done|]. split; [exact Hq|]. split; [exact Hm|].
    unfold filter_capacity. cbn. by rewrite Hm, He.
Qed.

(** A run of the filter, and of the window. *)
Fixpoint duplicates_of (ds : list RouterItem) : RM (list bool) :=
  match ds with
  | [] => mret []
  | d :: ds => b ← is_duplicate_pkt d; l ← duplicates_of ds; mret (b :: l)
  end.

Fixpoint window_run (cap : nat) (seen ids : list Z) : list Z * list bool :=
  match ids with
  | [] => (seen, [])
  | id :: ids => let '(out, l) := window_run cap (window_step cap seen id) ids in (out, bool_decide (id ∈ seen) :: l)
  end.

Lemma duplicates_run ds ids st :
  budget_ok st -> 8 <= max_bytes (recent_rx st) -> Forall2 (fun d id => get_hash d = Ok id) ds ids ->
  let '(st', r) := duplicates_of ds st in
  let '(out, l) := window_run (filter_capacity st) (seen st) ids in
  r = Ok l /\ seen st' = out /\ st' = set_recent_rx (recent_rx st') st.
Proof.
  intros Hb Hmb Hall. revert st Hb Hmb. induction Hall as [|d id ds ids Hd Hall IH]; intros st Hb Hmb.
  { cbn. by rewrite set_recent_id. }
  cbn [duplicates_of window_run]. rewrite RM_run. pose proof (duplicate_exact d id st Hb Hmb Hd) as Hx.
  destruct (is_duplicate_pkt d st) as [st1 r1]. destruct Hx as (-> & Hb1 & E1 & <- & Hm1 & <-).
  rewrite RM_run. specialize (IH st1 Hb1 ltac:(lia)). destruct (duplicates_of ds st1) as [st2 r2].
  destruct (window_run _ _ _) as [out l]. destruct IH as (-> & Hs & E2). cbn [mret RM_ret]. split; [done|].
  split; [done|]. rewrite E2 at 1. rewrite E1. reflexivity.
Qed.
End Filter.

(** A duplicate is not seen. *)
Section Silence.
Context `{Config} `{Schema} `{External} `{Layout} `{RouterLayout} `{DebugText}.
Context (self : Router) (env : Environment) (depth : nat).

Lemma duplicate_known d id st :
  get_hash d = Ok id -> id ∈ seen st -> is_duplicate_pkt d st = (st, Ok true).
Proof.
  intros Hh Hin. unfold is_duplicate_pkt. rewrite RM_run, Hh. cbn [lift]. rewrite RM_run. cbn [get].
  rewrite contains_seen. by rewrite bool_decide_true.
Qed.

Lemma duplicate_received i released queued id w :
  get_hash (rx_data i) = Ok id -> id ∈ seen (locked_state w) ->
  events (fst (rx_unique self env depth i released queued w)) = events w.
Proof.
  intros Hh Hin. unfold rx_unique. rewrite W_run. unfold locked at 1. rewrite (duplicate_known _ id) by done.
  match goal with |- events (fst (?m ?s)) = _ => enough (keeps (events_are (events w)) m) as Hk by (by apply Hk) end.
  frame.
Qed.

Lemma duplicate_sent d id w :
  get_hash d = Ok id -> id ∈ seen (locked_state w) ->
  tx_item_impl self env (S depth) (Broadcast d) false w = (w, Ok tt).
Proof.
  intros Hh Hin. cbn [tx_item_impl tx_step]. unfold tx_broadcast, dispatch_once. rewrite !W_run. unfold locked at 1.
  rewrite (duplicate_known _ id) by done. cbn [mret W_ret]. by destruct w.
Qed.
End Silence.

(** C10. The duplicate filter is a window: it answers, for any run of items,
    whether the identifier is among the last ones it took in, it changes
    nothing but itself, and it never fails; an identifier stays known until as
    many others have come as the filter holds.  A duplicate is neither
    delivered nor sent, whether it is received or transmitted -- and the frames
    that its arrival released from a reorder buffer are dropped with it. *)
Theorem duplicate_filter_correct `{Config} `{Schema} `{External} `{Layout} `{RouterLayout} `{DebugText}
    self env depth ds ids w :
  0 <= sizeof_DiscoverySideState -> MAX_QUEUE_BUDGET <= isize_max -> 1 <= MAX_RECENT_RX_IDS ->
  budget_ok (locked_state w) -> 8 <= max_bytes (recent_rx (locked_state w)) ->
  Forall2 (fun d id => get_hash d = Ok id) ds ids ->
  let st := locked_state w in
  let cap := filter_capacity st in
  (let '(st', r) := duplicates_of ds st in
   let '(out, l) := window_run cap (seen st) ids in
   r = Ok l /\ seen st' = out /\ st' = set_recent_rx (recent_rx st') st)
  /\ (forall id others, id ∉ seen st -> (length (seen st) <= cap)%nat -> (length others < cap)%nat ->
      id ∈ foldl (window_step cap) (window_step cap (seen st) id) others)
  /\ (forall d id, get_hash d = Ok id -> id ∈ seen st ->
      (forall i released queued, rx_data i = d ->
        events (fst (rx_unique self env depth i released queued w)) = events w)
      /\ tx_item_impl self env (S depth) (Broadcast d) false w = (w, Ok tt)).
Proof.
  intros Hsize Hmax Hids Hb Hmb Hall st cap. split; [by apply duplicates_run|]. split.
  - intros id others Hni Hl Ho. apply (window_remembers cap _ id others (window_length cap _ _ ltac:(lia) Hl) 0); [|lia].
    unfold window_step. rewrite bool_decide_false by done. rewrite drop_app_le by lia. by eexists _, [].
  - intros d id Hh Hin. split; [|by eapply duplicate_sent]. intros i released queued <-. by eapply duplicate_received.
Qed.

Definition id_of (d : RouterItem) : Z :=
  match @get_hash default_schema run_external d with Ok id => id | _ => 0 end.

Lemma duplicate_filter_correct_witness :
  let ds := [RPacket gps_packet; RSerialized gps_frame; RPacket gps_packet] in
  snd (@duplicates_of default_config some_layout some_router_layout default_schema run_external ds fresh_inner)
    = Ok [false; false; true]
  /\ @filter_capacity default_config fresh_inner = 128%nat.
Proof.
  cbn zeta.
  destruct (@duplicate_filter_correct default_config default_schema run_external some_layout some_router_layout some_text
    busy_router quiet_environment 3 [RPacket gps_packet; RSerialized gps_frame; RPacket gps_packet]
    [id_of (RPacket gps_packet); id_of (RSerialized gps_frame); id_of (RPacket gps_packet)]
    (set_locked fresh_inner node_world)) as [Hrun _].
  - vm_compute. discriminate.
  - vm_compute. discriminate.
  - vm_compute. discriminate.
  - exact (proj1 fresh_inner_ok).
  - vm_compute. discriminate.
  - repeat (apply List.Forall2_cons; [vm_compute; reflexivity|]). apply List.Forall2_nil.
  - cbn [set_locked locked_state] in Hrun.
    assert (exists out, window_run (@filter_capacity default_config fresh_inner) (seen fresh_inner)
      [id_of (RPacket gps_packet); id_of (RSerialized gps_frame); id_of (RPacket gps_packet)] = (out, [false; false; true]))
      as [out Eo] by (eexists; vm_compute; reflexivity).
    rewrite Eo in Hrun.
    destruct (duplicates_of _ fresh_inner) as [st' r]. destruct Hrun as [-> _]. split; [reflexivity|vm_compute; reflexivity].
Defined.

(** ** Behaviours on concrete runs *)

Section Runs.
#[local] Existing Instances default_config default_schema run_external some_layout some_router_layout some_text.

(** Only serialized handlers: the first delivery of a reliable packet is not
    acknowledged end to end, while a repeat of the same frame is. *)
Definition serialized_router : Router :=
  {| router_sender := lit "BOARD";
     router_cfg := {| handlers := [{| endpoint := 0; handler := SerializedHandler |}; {| endpoint := 1; handler := SerializedHandler |}];
                      cfg_reliable_enabled := true; cfg_sender := None; cfg_timesync := None |} |}.

Definition link_world : World := set_locked one_side node_world.

Example serialized_delivery_not_acknowledged :
  let op := OpRxSerialized (Some 0) gps_frame in
  let w1 := run_ops serialized_router quiet_environment 10 10 [op] link_world in
  let w2 := run_ops serialized_router quiet_environment 10 10 [op; op] link_world in
  nlen (events w1) = 2 /\ len (transmit_queue (locked_state w1)) = 0
  /\ events w2 = events w1 /\ len (transmit_queue (locked_state w2)) = 1.
Proof. vm_compute. repeat split; reflexivity. Qed.

(** A side that fails, for a packet none of whose endpoints is local, while the
    clock goes on: the error packet fails in turn, and its error packet, until
    the stack is exhausted. *)
Definition failing_side : Environment :=
  {| ms_at n i := n; ns_at n i := 1000000 * n; gate_busy _ := false; isr_busy _ := false;
     side_answer _ _ _ _ := Err (HandlerError "link down"); handler_answer _ _ _ _ := Ok tt |}.

Definition forwarding_router : Router :=
  {| router_sender := lit "BOARD";
     router_cfg := {| handlers := []; cfg_reliable_enabled := false; cfg_sender := None; cfg_timesync := None |} |}.

Example failing_side_exhausts_stack :
  snd (run_op forwarding_router failing_side 30 10 (OpTx (RPacket gps_packet)) link_world) = Panic.
Proof. vm_compute. reflexivity. Qed.
End Runs.
