(* ===== verification/RelayState.v ===== *)
(** * Relay state and its shared queue budget ([src/relay.rs])

    The data of [RelayInner] and the operations that keep its three queues, the
    duplicate filter, the reordering buffers and the topology together within
    [MAX_QUEUE_BUDGET].  Operations on the locked state are computations [LM A]:
    they return the new state and a result, and keep the changes made before an
    error.  [RelayItem], [RelaySide], [RelaySideOptions] and the reliable and
    discovery records are declared in both source files alike; the router's
    declarations are used. *)

From stdpp Require Import gmap.
From S2P Require Import Prelude Ordered Telemetry Config Schema Queue SmallPayload Wire Packet Discovery RouterState.

(** ** Data *)

(** [size_of] of the relay's own types. *)
Class RelayLayout := {
  sizeof_RelayRxItem : Z;
  sizeof_RelayTxItem : Z;
  sizeof_RelayReplayItem : Z;
  sizeof_RelaySenderState : Z;
  sizeof_RelaySideState : Z
}.

Record RelayRxItem := { rrx_src : RouterSideId; rrx_data : RouterItem; rrx_priority : Z }.

Record RelayTxItem := {
  rtx_src : option RouterSideId;
  rtx_dst : RouterSideId;
  rtx_data : RouterItem;
  rtx_priority : Z
}.

Record RelayReplayItem := { rp_dst : RouterSideId; rp_bytes : list byte; rp_priority : Z }.

Record RelayInner := {
  rl_sides : list (option RouterSide);
  rl_route_overrides : gmap (option RouterSideId * RouterSideId) bool;
  rl_typed_route_overrides : gmap (option RouterSideId * Z * RouterSideId) bool;
  rl_route_weights : gmap (option RouterSideId * RouterSideId) Z;
  rl_route_priorities : gmap (option RouterSideId * RouterSideId) Z;
  rl_source_route_modes : gmap (option RouterSideId) RouteSelectionMode;
  rl_route_selection_cursors : gmap (option RouterSideId) Z;
  rl_adaptive_route_stats : gmap RouterSideId AdaptiveRouteStats;
  rl_rx_queue : BoundedDeque RelayRxItem;
  rl_tx_queue : BoundedDeque RelayTxItem;
  rl_replay_queue : BoundedDeque RelayReplayItem;
  rl_recent_rx : BoundedDeque Z;
  rl_reliable_tx : list ((RouterSideId * Z) * ReliableTxState);
  rl_reliable_rx : list ((RouterSideId * Z) * ReliableRxState);
  rl_reliable_return_routes : gmap Z RouterSideId;
  rl_reliable_return_route_order : list Z;
  end_to_end_acked_destinations : gmap Z (gset Z);
  end_to_end_acked_destination_order : list Z;
  rl_discovery_routes : list (RouterSideId * DiscoverySideState);
  rl_discovery_cadence : DiscoveryCadenceState
}.


Definition set_rl_rx_queue x (s : RelayInner) : RelayInner :=
  Build_RelayInner
    (rl_sides s) (rl_route_overrides s) (rl_typed_route_overrides s) (rl_route_weights s)
    (rl_route_priorities s) (rl_source_route_modes s) (rl_route_selection_cursors s)
    (rl_adaptive_route_stats s) x (rl_tx_queue s) (rl_replay_queue s) (rl_recent_rx s) (rl_reliable_tx s)
    (rl_reliable_rx s) (rl_reliable_return_routes s) (rl_reliable_return_route_order s)
    (end_to_end_acked_destinations s) (end_to_end_acked_destination_order s) (rl_discovery_routes s)
    (rl_discovery_cadence s).

Definition set_rl_tx_queue x (s : RelayInner) : RelayInner :=
  Build_RelayInner
    (rl_sides s) (rl_route_overrides s) (rl_typed_route_overrides s) (rl_route_weights s)
    (rl_route_priorities s) (rl_source_route_modes s) (rl_route_selection_cursors s)
    (rl_adaptive_route_stats s) (rl_rx_queue s) x (rl_replay_queue s) (rl_recent_rx s) (rl_reliable_tx s)
    (rl_reliable_rx s) (rl_reliable_return_routes s) (rl_reliable_return_route_order s)
    (end_to_end_acked_destinations s) (end_to_end_acked_destination_order s) (rl_discovery_routes s)
    (rl_discovery_cadence s).

Definition set_rl_replay_queue x (s : RelayInner) : RelayInner :=
  Build_RelayInner
    (rl_sides s) (rl_route_overrides s) (rl_typed_route_overrides s) (rl_route_weights s)
    (rl_route_priorities s) (rl_source_route_modes s) (rl_route_selection_cursors s)
    (rl_adaptive_route_stats s) (rl_rx_queue s) (rl_tx_queue s) x (rl_recent_rx s) (rl_reliable_tx s)
    (rl_reliable_rx s) (rl_reliable_return_routes s) (rl_reliable_return_route_order s)
    (end_to_end_acked_destinations s) (end_to_end_acked_destination_order s) (rl_discovery_routes s)
    (rl_discovery_cadence s).

Definition set_end_to_end_acked_destinations x (s : RelayInner) : RelayInner :=
  Build_RelayInner
    (rl_sides s) (rl_route_overrides s) (rl_typed_route_overrides s) (rl_route_weights s)
    (rl_route_priorities s) (rl_source_route_modes s) (rl_route_selection_cursors s)
    (rl_adaptive_route_stats s) (rl_rx_queue s) (rl_tx_queue s) (rl_replay_queue s) (rl_recent_rx s) (rl_reliable_tx s)
    (rl_reliable_rx s) (rl_reliable_return_routes s) (rl_reliable_return_route_order s) x
    (end_to_end_acked_destination_order s) (rl_discovery_routes s) (rl_discovery_cadence s).

Definition set_end_to_end_acked_destination_order x (s : RelayInner) : RelayInner :=
  Build_RelayInner
    (rl_sides s) (rl_route_overrides s) (rl_typed_route_overrides s) (rl_route_weights s)
    (rl_route_priorities s) (rl_source_route_modes s) (rl_route_selection_cursors s)
    (rl_adaptive_route_stats s) (rl_rx_queue s) (rl_tx_queue s) (rl_replay_queue s) (rl_recent_rx s) (rl_reliable_tx s)
    (rl_reliable_rx s) (rl_reliable_return_routes s) (rl_reliable_return_route_order s)
    (end_to_end_acked_destinations s) x (rl_discovery_routes s) (rl_discovery_cadence s).

(** ** What relay and router have in common

    Fifteen of these fields and the code on them are the router's, word for
    word.  [common] looks at them as a router state whose own queues are empty,
    and [with_common] puts them back: code the two files share is modelled once,
    on router states, and run on the relay through this view. *)
Definition common (s : RelayInner) : RouterInner :=
  Build_RouterInner
    (rl_sides s) (rl_route_overrides s) (rl_typed_route_overrides s) (rl_route_weights s)
    (rl_route_priorities s) (rl_source_route_modes s) (rl_route_selection_cursors s)
    (rl_adaptive_route_stats s) empty_queue empty_queue (rl_recent_rx s) (rl_reliable_tx s) (rl_reliable_rx s)
    (rl_reliable_return_routes s) (rl_reliable_return_route_order s) [] [] (rl_discovery_routes s)
    (rl_discovery_cadence s).

Definition with_common (c : RouterInner) (s : RelayInner) : RelayInner :=
  Build_RelayInner
    (sides c) (route_overrides c) (typed_route_overrides c) (route_weights c) (route_priorities c)
    (source_route_modes c) (route_selection_cursors c) (adaptive_route_stats c) (rl_rx_queue s) (rl_tx_queue s)
    (rl_replay_queue s) (recent_rx c) (reliable_tx c) (reliable_rx c) (reliable_return_routes c)
    (reliable_return_route_order c) (end_to_end_acked_destinations s) (end_to_end_acked_destination_order s)
    (discovery_routes c) (discovery_cadence c).

(** ** Computations on the locked state *)

Definition LM (A : Type) : Type := RelayInner -> RelayInner * TelemetryResult A.

#[export] Instance LM_bind : MBind LM := fun A B f m s =>
  let '(s, r) := m s in
  match r with Ok a => f a s | Err e => (s, Err e) | Panic => (s, Panic) end.
#[export] Instance LM_ret : MRet LM := fun A a s => (s, Ok a).

Lemma LM_run {A B} (m : LM A) (f : A -> LM B) s :
  (m ≫= f) s = match m s with
               | (s, Ok a) => f a s | (s, Err e) => (s, Err e) | (s, Panic) => (s, Panic)
               end.
Proof. unfold mbind, LM_bind. by destruct (m s) as [s' []]. Qed.

Definition relay_lift {A} (r : TelemetryResult A) : LM A := fun s => (s, r).
Definition relay_get {A} (f : RelayInner -> A) : LM A := fun s => (s, Ok (f s)).
Definition relay_modify (f : RelayInner -> RelayInner) : LM unit := fun s => (f s, Ok tt).

(** Shared code, run on the relay's state. *)
Definition on_common (f : RouterInner -> RouterInner) (s : RelayInner) : RelayInner := with_common (f (common s)) s.

Definition via {A} (m : RM A) : LM A := fun s => let '(c, r) := m (common s) in (with_common c s, r).

Lemma common_with c s :
  received_queue c = empty_queue -> transmit_queue c = empty_queue ->
  end_to_end_reliable_tx c = [] -> end_to_end_reliable_tx_order c = [] -> common (with_common c s) = c.
Proof. destruct c; cbn. by intros -> -> -> ->. Qed.

Lemma with_common_id s : with_common (common s) s = s.
Proof. by destruct s. Qed.

(** ** Byte costs *)

Section RelayCosts.
Context `{Layout} `{RelayLayout}.

Definition relay_item_byte_cost (d : RouterItem) : Z :=
  match d with
  | RSerialized bytes => blen bytes
  | RPacket pkt => packet_byte_cost pkt
  end.

#[export] Instance RelayRxItem_cost : ByteCost RelayRxItem :=
  {| byte_cost i := relay_item_byte_cost (rrx_data i); size_of := sizeof_RelayRxItem |}.

#[export] Instance RelayTxItem_cost : ByteCost RelayTxItem :=
  {| byte_cost i := relay_item_byte_cost (rtx_data i); size_of := sizeof_RelayTxItem |}.

#[export] Instance RelayReplayItem_cost : ByteCost RelayReplayItem :=
  {| byte_cost i := blen (rp_bytes i); size_of := sizeof_RelayReplayItem |}.

Definition relay_topology_board_byte_cost (b : TopologyBoardNode) : Z :=
  let c := sat_add64 (blen (sender_id b)) (umul (nlen (reachable_endpoints b)) 4) in
  let c := sat_add64 c (usum (map blen (reachable_timesync_sources b))) in
  sat_add64 c (usum (map blen (connections b))).

Definition relay_discovery_sender_byte_cost (sender : Str) (st : DiscoverySenderState) : Z :=
  let c := sat_add64 (blen sender) (umul (nlen (ds_reachable st)) 4) in
  let c := sat_add64 c (usum (map blen (ds_timesync_sources st))) in
  let c := sat_add64 c (usum (map relay_topology_board_byte_cost (topology_boards st))) in
  sat_add64 c sizeof_RelaySenderState.

Definition relay_discovery_route_byte_cost (route : DiscoverySideState) : Z :=
  let c := sat_add64 sizeof_RelaySideState (umul (nlen (reachable route)) 4) in
  let c := sat_add64 c (usum (map blen (side_timesync_sources route))) in
  sat_add64 c (usum (map (fun e => relay_discovery_sender_byte_cost (fst e) (snd e)) (announcers route))).

Definition relay_discovery_bytes_used (st : RelayInner) : Z :=
  usum (map (fun e => relay_discovery_route_byte_cost (snd e)) (rl_discovery_routes st)).

Definition relay_reliable_rx_buffered_bytes (st : RelayInner) : Z := reliable_rx_buffered_bytes (common st).

Definition relay_shared_queue_bytes_used (st : RelayInner) : Z :=
  let c := sat_add64 (bytes_used (rl_rx_queue st)) (bytes_used (rl_tx_queue st)) in
  let c := sat_add64 c (bytes_used (rl_replay_queue st)) in
  let c := sat_add64 c (max_bytes (rl_recent_rx st)) in
  let c := sat_add64 c (relay_reliable_rx_buffered_bytes st) in
  sat_add64 c (relay_discovery_bytes_used st).

Definition relay_reliable_rx_buffer_len (st : RelayInner) : Z := reliable_rx_buffer_len (common st).

(** ** Eviction *)

Inductive RelayQueueKind := RelayRx | RelayTx | RelayReplay | RelayRecent | RelayRxBuffer | RelayDiscovery.

Definition relay_pop_reliable_rx_buffered (st : RelayInner) : option (list byte) * RelayInner :=
  let '(o, c) := pop_reliable_rx_buffered (common st) in (o, with_common c st).

Definition relay_pop_discovery_route (st : RelayInner) : bool * RelayInner :=
  let '(b, c) := pop_discovery_route (common st) in (b, with_common c st).

Definition relay_pop_shared_queue_item (preferred : RelayQueueKind) (st : RelayInner) : bool * RelayInner :=
  match preferred with
  | RelayRx => let '(o, d) := pop_front (rl_rx_queue st) in (is_some o, set_rl_rx_queue d st)
  | RelayTx => let '(o, d) := pop_front (rl_tx_queue st) in (is_some o, set_rl_tx_queue d st)
  | RelayReplay => let '(o, d) := pop_front (rl_replay_queue st) in (is_some o, set_rl_replay_queue d st)
  | RelayRecent =>
      let '(o, d) := pop_front (H := u64_cost) (rl_recent_rx st) in
      (is_some o, on_common (set_recent_rx d) st)
  | RelayRxBuffer => let '(o, st) := relay_pop_reliable_rx_buffered st in (is_some o, st)
  | RelayDiscovery => relay_pop_discovery_route st
  end.

(** [max_by_key]: the last of the greatest keys. *)
Fixpoint relay_max_candidate (l : list (RelayQueueKind * Z * Z)) : option (RelayQueueKind * (Z * Z)) :=
  match l with
  | [] => None
  | (kind, bytes, _) :: l =>
      let key := (bytes, match kind with RelayRxBuffer => 0 | _ => 1 end) in
      match relay_max_candidate l with
      | Some (kind', key') => if Ordered.ltb key' key then Some (kind, key) else Some (kind', key')
      | None => Some (kind, key)
      end
  end.

Definition relay_candidates (st : RelayInner) : list (RelayQueueKind * Z * Z) :=
  [(RelayRx, bytes_used (rl_rx_queue st), len (rl_rx_queue st));
   (RelayTx, bytes_used (rl_tx_queue st), len (rl_tx_queue st));
   (RelayReplay, bytes_used (rl_replay_queue st), len (rl_replay_queue st));
   (RelayRecent, 0, 0);
   (RelayRxBuffer, relay_reliable_rx_buffered_bytes st, relay_reliable_rx_buffer_len st);
   (RelayDiscovery, relay_discovery_bytes_used st, nlen (rl_discovery_routes st))].

Definition relay_largest_shared_queue (st : RelayInner) : option RelayQueueKind :=
  fst <$> relay_max_candidate (List.filter (fun '(_, bytes, len) => (0 <? bytes) && (0 <? len)) (relay_candidates st)).
End RelayCosts.

Section RelayBudget.
Context `{Config} `{Layout} `{RelayLayout}.

(** One round of the [while]. *)
Definition relay_evict_once (preferred : RelayQueueKind) (st : RelayInner) : bool * RelayInner :=
  let victim := default preferred (relay_largest_shared_queue st) in
  let '(popped, st) := relay_pop_shared_queue_item victim st in
  if popped then (true, st) else relay_pop_shared_queue_item preferred st.

Fixpoint relay_make_room_loop (fuel : nat) (incoming_cost : Z) (preferred : RelayQueueKind) : LM unit :=
  fun st =>
  if MAX_QUEUE_BUDGET <? sat_add64 (relay_shared_queue_bytes_used st) incoming_cost then
    match fuel with
    | O => (st, Panic)
    | S fuel =>
        let '(popped, st) := relay_evict_once preferred st in
        if popped then relay_make_room_loop fuel incoming_cost preferred st else (st, Err budget_error)
    end
  else (st, Ok tt).

(** Each round pops one item, so one more round than there are items is fuel
    enough. *)
Definition relay_queued_items (st : RelayInner) : nat :=
  length (q (rl_rx_queue st)) + length (q (rl_tx_queue st)) + length (q (rl_replay_queue st))
  + length (q (rl_recent_rx st)) + length (rx_buffered (common st)) + length (rl_discovery_routes st).

Definition relay_make_shared_queue_room (incoming_cost : Z) (preferred : RelayQueueKind) : LM unit :=
  fun st =>
  if MAX_QUEUE_BUDGET <? incoming_cost then (st, Err budget_error)
  else relay_make_room_loop (S (relay_queued_items st)) incoming_cost preferred st.

Fixpoint relay_fit_discovery_loop (fuel : nat) (st : RelayInner) : RelayInner :=
  if MAX_QUEUE_BUDGET <? relay_shared_queue_bytes_used st then
    let '(popped, st) := relay_pop_discovery_route st in
    match fuel with
    | O => st
    | S fuel => if popped then relay_fit_discovery_loop fuel st else st
    end
  else st.

Definition relay_fit_discovery_budget (st : RelayInner) : RelayInner :=
  relay_fit_discovery_loop (length (rl_discovery_routes st)) st.

Definition push_rx (i : RelayRxItem) : LM unit :=
  _ ← relay_make_shared_queue_room (byte_cost i) RelayRx;
  (fun st => let '(d, r) := push_back_prioritized rrx_priority (rl_rx_queue st) i in (set_rl_rx_queue d st, r)) : LM unit.

Definition push_tx (i : RelayTxItem) : LM unit :=
  _ ← relay_make_shared_queue_room (byte_cost i) RelayTx;
  (fun st => let '(d, r) := push_back_prioritized rtx_priority (rl_tx_queue st) i in (set_rl_tx_queue d st, r)) : LM unit.

Definition push_replay (i : RelayReplayItem) : LM unit :=
  _ ← relay_make_shared_queue_room (byte_cost i) RelayReplay;
  (fun st => let '(d, r) := push_back_prioritized rp_priority (rl_replay_queue st) i in
             (set_rl_replay_queue d st, r)) : LM unit.

(** The loop that trims the duplicate filter is the router's. *)
Definition relay_push_recent_rx (id : Z) : LM unit :=
  n ← relay_get (fun st => length (q (rl_recent_rx st)));
  _ ← via (trim_recent n);
  _ ← relay_make_shared_queue_room 0 RelayRecent;
  via (fun c => let '(d, r) := push_back (H := u64_cost) (recent_rx c) id in (set_recent_rx d c, r)).

Definition relay_buffer_reliable_rx (side : RouterSideId) (ty : DataType) (seq : Z) (bytes : list byte)
    : LM unit := fun st =>
  let key := reliable_key side ty in
  if match bt_get key (rl_reliable_rx st) with Some rx => bt_contains seq (buffered rx) | None => false end
  then (st, Ok tt)
  else (_ ← relay_make_shared_queue_room (sizeof_arc_slice + blen bytes) RelayRxBuffer;
        relay_modify (on_common (update_rx key (buffer_frame seq bytes)))) st.

(** The state [Relay::new] builds. *)
Definition relay_inner_new : TelemetryResult RelayInner :=
  rx ← new (T := RelayRxItem) MAX_QUEUE_BUDGET STARTING_QUEUE_SIZE QUEUE_GROW_STEP;
  tx ← new (T := RelayTxItem) MAX_QUEUE_BUDGET STARTING_QUEUE_SIZE QUEUE_GROW_STEP;
  replay ← new (T := RelayReplayItem) MAX_QUEUE_BUDGET STARTING_QUEUE_SIZE QUEUE_GROW_STEP;
  recent ← new (T := Z) (H := u64_cost) (Z.max RECENT_RX_QUEUE_BYTES 1) (Z.max RECENT_RX_QUEUE_BYTES 1)
             QUEUE_GROW_STEP;
  Ok {| rl_sides := []; rl_route_overrides := ∅; rl_typed_route_overrides := ∅; rl_route_weights := ∅;
        rl_route_priorities := ∅; rl_source_route_modes := ∅; rl_route_selection_cursors := ∅;
        rl_adaptive_route_stats := ∅; rl_rx_queue := rx; rl_tx_queue := tx; rl_replay_queue := replay;
        rl_recent_rx := recent; rl_reliable_tx := []; rl_reliable_rx := []; rl_reliable_return_routes := ∅;
        rl_reliable_return_route_order := []; end_to_end_acked_destinations := ∅;
        end_to_end_acked_destination_order := []; rl_discovery_routes := [];
        rl_discovery_cadence := cadence_default |}.
End RelayBudget.

(** ** The budget invariant *)

(** What eviction never touches. *)
Definition relay_control (st : RelayInner) :=
  (rl_sides st, rl_route_overrides st, rl_typed_route_overrides st, rl_route_weights st, rl_route_priorities st,
   rl_source_route_modes st, rl_route_selection_cursors st, rl_adaptive_route_stats st, rl_reliable_tx st,
   rl_reliable_return_routes st, rl_reliable_return_route_order st, end_to_end_acked_destinations st,
   end_to_end_acked_destination_order st, rl_discovery_cadence st).

Record relay_evicted (st st' : RelayInner) : Prop := {
  rev_control : relay_control st' = relay_control st;
  rev_rx : popped (q (rl_rx_queue st)) (q (rl_rx_queue st'));
  rev_tx : popped (q (rl_tx_queue st)) (q (rl_tx_queue st'));
  rev_replay : popped (q (rl_replay_queue st)) (q (rl_replay_queue st'));
  rev_recent : popped (q (rl_recent_rx st)) (q (rl_recent_rx st'));
  rev_buffers key : rx_popped (bt_get key (rl_reliable_rx st)) (bt_get key (rl_reliable_rx st'));
  rev_routes e : e ∈ rl_discovery_routes st' -> e ∈ rl_discovery_routes st;
  rev_recent_max : max_bytes (rl_recent_rx st') = max_bytes (rl_recent_rx st)
}.

Lemma relay_evicted_refl st : relay_evicted st st.
Proof. split; try apply popped_refl; try done. intros; apply rx_popped_refl. Qed.

Lemma relay_evicted_trans a b c : relay_evicted a b -> relay_evicted b c -> relay_evicted a c.
Proof.
  intros [] []. split; try (eapply popped_trans; eassumption); try congruence; eauto using rx_popped_trans.
Qed.

#[export] Instance RelayQueueKind_eq_dec : EqDecision RelayQueueKind.
Proof. solve_decision. Defined.

Section RelayInvariant.
Context `{Config} `{Layout} `{RelayLayout}.

Definition relay_route_costs (st : RelayInner) : list Z :=
  map (fun e => relay_discovery_route_byte_cost (snd e)) (rl_discovery_routes st).

Definition relay_buffer_costs (st : RelayInner) : list Z := buffer_costs (common st).

(** The bytes in use, without wrapping or saturation. *)
Definition relay_exact_used (st : RelayInner) : Z :=
  cur_bytes (rl_rx_queue st) + cur_bytes (rl_tx_queue st) + cur_bytes (rl_replay_queue st) + max_bytes (rl_recent_rx st)
  + zsum (relay_buffer_costs st) + zsum (relay_route_costs st).

Record relay_inner_ok (st : RelayInner) : Prop := {
  ro_rx : bd_inv (rl_rx_queue st);
  ro_tx : bd_inv (rl_tx_queue st);
  ro_replay : bd_inv (rl_replay_queue st);
  ro_recent : bd_inv (H := u64_cost) (rl_recent_rx st);
  ro_links : bt_sorted (rl_reliable_rx st);
  ro_buffers key rx : (key, rx) ∈ rl_reliable_rx st -> bt_sorted (buffered rx);
  ro_routes : bt_sorted (rl_discovery_routes st);
  ro_memory : relay_exact_used st <= isize_max
}.

Definition relay_budget_ok (st : RelayInner) : Prop :=
  relay_inner_ok st /\ relay_shared_queue_bytes_used st <= MAX_QUEUE_BUDGET.

Definition relay_keeps_budget (r : RelayInner * TelemetryResult unit) : Prop :=
  relay_budget_ok (fst r) /\ snd r <> Panic.

Context (Hsize : 0 <= sizeof_RelaySideState).

Lemma relay_route_cost_nonneg route : 0 <= relay_discovery_route_byte_cost route.
Proof.
  unfold relay_discovery_route_byte_cost, umul. cbn zeta.
  pose proof (wrap_range 64 (nlen (reachable route) * 4) ltac:(lia)).
  pose proof (usum_range (map blen (side_timesync_sources route))).
  pose proof (usum_range (map (fun e => relay_discovery_sender_byte_cost (fst e) (snd e)) (announcers route))).
  repeat (apply sat_add64_ge; [| | |zlia]); try zlia.
Qed.

Lemma relay_route_costs_nonneg st : Forall (fun x => 0 <= x) (relay_route_costs st).
Proof. apply Forall_map, Forall_forall. intros e _. apply relay_route_cost_nonneg. Qed.

Lemma relay_exact_parts st :
  relay_inner_ok st ->
  0 <= cur_bytes (rl_rx_queue st) /\ 0 <= cur_bytes (rl_tx_queue st) /\ 0 <= cur_bytes (rl_replay_queue st)
  /\ 0 < max_bytes (rl_recent_rx st) /\ 0 <= zsum (relay_buffer_costs st) /\ 0 <= zsum (relay_route_costs st).
Proof.
  intros []. rewrite (bi_bytes _ ro_rx0), (bi_bytes _ ro_tx0), (bi_bytes _ ro_replay0).
  pose proof (bi_max _ ro_recent0).
  do 3 (split; [apply total_nonneg; eauto using bi_cost|]). split; [lia|].
  split; apply zsum_nonneg; [|apply relay_route_costs_nonneg].
  eapply Forall_impl; [apply buffer_costs_nonneg|]. cbn; lia.
Qed.

Lemma relay_used_exact st : relay_inner_ok st -> relay_shared_queue_bytes_used st = relay_exact_used st.
Proof.
  intros Hi. pose proof (relay_exact_parts st Hi) as (?&?&?&?&?&?). pose proof (ro_memory _ Hi) as Hm.
  unfold relay_exact_used in *.
  unfold relay_shared_queue_bytes_used, relay_reliable_rx_buffered_bytes, reliable_rx_buffered_bytes,
    relay_discovery_bytes_used, usum.
  fold (buffer_costs (common st)) (relay_route_costs st). fold (relay_buffer_costs st).
  fold (zsum (relay_buffer_costs st)) (zsum (relay_route_costs st)).
  unfold bytes_used. rewrite !wrap_small by zlia. zlia.
Qed.

Lemma relay_budget_exact st : relay_inner_ok st -> (relay_budget_ok st <-> relay_exact_used st <= MAX_QUEUE_BUDGET).
Proof. intros Hi. unfold relay_budget_ok. rewrite relay_used_exact by done. tauto. Qed.

(** A pop that succeeds removes one item; one that fails changes nothing. *)
Definition relay_pop_ok (st : RelayInner) (r : bool * RelayInner) : Prop :=
  relay_inner_ok (snd r) /\ relay_evicted st (snd r) /\ relay_exact_used (snd r) <= relay_exact_used st
  /\ if fst r then relay_queued_items st = S (relay_queued_items (snd r))
     else relay_queued_items (snd r) = relay_queued_items st.

Lemma relay_queue_change st st' :
  rl_reliable_rx st' = rl_reliable_rx st -> rl_discovery_routes st' = rl_discovery_routes st ->
  relay_exact_used st' = relay_exact_used st
    - (cur_bytes (rl_rx_queue st) + cur_bytes (rl_tx_queue st) + cur_bytes (rl_replay_queue st) + max_bytes (rl_recent_rx st))
    + (cur_bytes (rl_rx_queue st') + cur_bytes (rl_tx_queue st') + cur_bytes (rl_replay_queue st')
       + max_bytes (rl_recent_rx st'))
  /\ (relay_queued_items st' + (length (q (rl_rx_queue st)) + length (q (rl_tx_queue st)) + length (q (rl_replay_queue st))
        + length (q (rl_recent_rx st)))
      = relay_queued_items st + (length (q (rl_rx_queue st')) + length (q (rl_tx_queue st'))
          + length (q (rl_replay_queue st')) + length (q (rl_recent_rx st'))))%nat.
Proof.
  intros Hr Hd. unfold relay_exact_used, relay_queued_items, relay_buffer_costs, relay_route_costs, buffer_costs,
    rx_buffered, common. cbn [reliable_rx]. rewrite Hr, Hd. split; lia.
Qed.

(** The parts of the state an eviction leaves alone. *)
Ltac evicted_fields :=
  split;
  lazymatch goal with
  | |- popped _ _ => first [eassumption|apply popped_refl]
  | |- forall key, rx_popped _ _ => intros; apply rx_popped_refl
  | |- forall e, _ ∈ _ -> _ ∈ _ => intros ? ?; assumption
  | |- max_bytes _ = max_bytes _ => first [eassumption|reflexivity]
  | |- relay_control _ = relay_control _ => reflexivity
  end.

(** The four queues are popped alike. *)
Ltac relay_queue_pop inv :=
  cbn [relay_pop_shared_queue_item];
  pose proof (pop_queue_step _ inv);
  destruct (pop_front _) as [o d'];
  match goal with Hp : bd_inv _ /\ _ |- relay_pop_ok ?st (_, ?st') =>
    destruct Hp as (Hinv & Hpop & Hb & Hmax & Hlen);
    destruct (relay_queue_change st st' eq_refl eq_refl) as [He Hn];
    unfold on_common in *; cbn [rl_rx_queue rl_tx_queue rl_replay_queue rl_recent_rx set_rl_rx_queue set_rl_tx_queue set_rl_replay_queue
      with_common recent_rx set_recent_rx] in He, Hn;
    unfold relay_pop_ok; cbn [fst snd];
    split; [split; first [assumption|lia]|];
    split; [evicted_fields|];
    split; [lia|destruct (is_some _); lia]
  end.

Lemma relay_pop_queue_ok kind st :
  kind <> RelayRxBuffer -> kind <> RelayDiscovery -> relay_inner_ok st ->
  relay_pop_ok st (relay_pop_shared_queue_item kind st).
Proof.
  intros Hnb Hnd Hi. pose proof Hi as []. destruct kind; [| | | |done|done].
  - relay_queue_pop ro_rx0.
  - relay_queue_pop ro_tx0.
  - relay_queue_pop ro_replay0.
  - relay_queue_pop ro_recent0.
Qed.

Lemma relay_pop_buffer_ok st : relay_inner_ok st -> relay_pop_ok st (relay_pop_shared_queue_item RelayRxBuffer st).
Proof.
  intros Hi. pose proof Hi as []. cbn [relay_pop_shared_queue_item]. unfold relay_pop_reliable_rx_buffered, pop_reliable_rx_buffered.
  cbn [common reliable_rx]. pose proof (rx_split (rl_reliable_rx st) ro_links0) as Hsp.
  destruct (List.find _ _) as [[key rx]|]; cbn [is_some].
  2: { rewrite with_common_id. split; [done|]. split; [apply relay_evicted_refl|]. split; [done|done]. }
  destruct Hsp as ([sq f] & rest & Hb & Hin & Hperm). rewrite Hb. unfold relay_pop_ok. cbn [fst snd is_some].
  set (m' := bt_update _ _ _) in *. set (st' := with_common _ st).
  assert (relay_buffer_costs st ≡ₚ (sizeof_arc_slice + blen f) :: relay_buffer_costs st') as Hc.
  { unfold relay_buffer_costs, buffer_costs, rx_buffered. cbn. change (reliable_rx (common st')) with m'. rewrite Hperm. done. }
  assert (relay_exact_used st' <= relay_exact_used st) as He.
  { unfold relay_exact_used. rewrite (zsum_perm _ _ Hc). cbn [zsum fold_right]. fold (zsum (relay_buffer_costs st')).
    change (relay_route_costs st') with (relay_route_costs st). cbn [st' rl_rx_queue rl_tx_queue rl_replay_queue rl_recent_rx
      with_common set_reliable_rx recent_rx common]. pose proof (blen_nonneg f). unfold sizeof_arc_slice. lia. }
  assert (bt_sorted m') as Hs' by (by apply bt_update_sorted).
  split; [split; try done|split; [split; try apply popped_refl; try done|split; [done|]]].
  - intros key' rx' Hin'. change (rl_reliable_rx st') with m' in Hin'. apply bt_get_elem in Hin'; [|done]. unfold m' in Hin'.
    rewrite bt_get_update in Hin'. destruct (decide _) as [->%cmp_eq|].
    + apply bt_get_elem in Hin; [|done]. rewrite Hin in Hin'. injection Hin' as <-. cbn.
      apply bt_get_elem in Hin; [|done]. apply ro_buffers0 in Hin. rewrite Hb in Hin. by inv Hin.
    + apply bt_get_elem in Hin'; [|done]. eauto.
  - lia.
  - intros key'. change (rl_reliable_rx st') with m'. unfold m'. rewrite bt_get_update.
    destruct (decide _) as [->%cmp_eq|]; [|apply rx_popped_refl].
    apply bt_get_elem in Hin; [|done]. rewrite Hin. cbn. split; [done|]. rewrite Hb. by exists 1%nat.
  - unfold relay_queued_items. change (rl_discovery_routes st') with (rl_discovery_routes st).
    unfold rx_buffered. change (reliable_rx (common st')) with m'. change (reliable_rx (common st)) with (rl_reliable_rx st).
    rewrite Hperm. cbn. lia.
Qed.

Lemma relay_pop_discovery_ok st : relay_inner_ok st -> relay_pop_ok st (relay_pop_shared_queue_item RelayDiscovery st).
Proof.
  intros Hi. pose proof Hi as []. cbn [relay_pop_shared_queue_item]. unfold relay_pop_discovery_route, pop_discovery_route.
  cbn [common discovery_routes].
  destruct (oldest_route _) as [[side route]|] eqn:E.
  2: { rewrite with_common_id. split; [done|]. split; [apply relay_evicted_refl|]. split; [done|done]. }
  apply oldest_route_elem in E. pose proof (bt_remove_perm _ _ _ ro_routes0 E) as Hp. unfold relay_pop_ok. cbn [fst snd].
  set (m' := bt_remove _ _) in *. set (st' := with_common _ st).
  assert (relay_route_costs st ≡ₚ relay_discovery_route_byte_cost route :: relay_route_costs st') as Hc.
  { unfold relay_route_costs. change (rl_discovery_routes st') with m'. by rewrite Hp at 1. }
  assert (relay_exact_used st' <= relay_exact_used st) as He.
  { unfold relay_exact_used. rewrite (zsum_perm _ _ Hc). cbn [zsum fold_right]. fold (zsum (relay_route_costs st')).
    change (relay_buffer_costs st') with (relay_buffer_costs st). cbn [st' rl_rx_queue rl_tx_queue rl_replay_queue rl_recent_rx
      with_common set_discovery_routes recent_rx common]. pose proof (relay_route_cost_nonneg route). lia. }
  split; [split; try done; [by apply bt_remove_sorted|lia]|split; [split; try apply popped_refl; try done|split; [done|]]].
  - intros; apply rx_popped_refl.
  - intros e He'. change (rl_discovery_routes st') with m' in He'. by apply bt_remove_elem in He'.
  - unfold relay_queued_items. change (rl_discovery_routes st') with m'.
    change (rx_buffered (common st')) with (rx_buffered (common st)). cbn [st' rl_rx_queue rl_tx_queue rl_replay_queue rl_recent_rx
      with_common set_discovery_routes recent_rx common]. rewrite Hp at 1. cbn. lia.
Qed.

Lemma relay_pop_item_ok kind st : relay_inner_ok st -> relay_pop_ok st (relay_pop_shared_queue_item kind st).
Proof.
  intros Hi. destruct (decide (kind = RelayRxBuffer)) as [->|]; [by apply relay_pop_buffer_ok|].
  destruct (decide (kind = RelayDiscovery)) as [->|]; [by apply relay_pop_discovery_ok|by apply relay_pop_queue_ok].
Qed.

Lemma relay_max_candidate_elem l kind key :
  relay_max_candidate l = Some (kind, key) -> exists b n, (kind, b, n) ∈ l.
Proof.
  revert kind key. induction l as [|[[k b] n] l IH]; cbn; [done|]. intros kind key.
  destruct (relay_max_candidate l) as [[k' key']|].
  - case_match; intros [= <- <-]; [exists b, n; left|].
    destruct (IH k' key' eq_refl) as (b' & n' & Hin). exists b', n'. by right.
  - intros [= <- <-]. exists b, n. left.
Qed.

Lemma relay_max_candidate_none l : relay_max_candidate l = None -> l = [].
Proof.
  destruct l as [|[[k b] n] l]; cbn; [done|]. destruct (relay_max_candidate l) as [[k' key']|]; [by case_match|done].
Qed.

Lemma relay_buffer_len_exact st :
  relay_inner_ok st -> relay_reliable_rx_buffer_len st = Z.of_nat (length (rx_buffered (common st))).
Proof.
  intros Hi. unfold relay_reliable_rx_buffer_len, reliable_rx_buffer_len, usum.
  assert (fold_right Z.add 0 (map (fun e => nlen (buffered (snd e))) (reliable_rx (common st)))
          = Z.of_nat (length (rx_buffered (common st)))) as ->.
  { unfold rx_buffered, nlen. induction (reliable_rx (common st)) as [|e l IH]; cbn; [done|].
    rewrite IH, length_app. lia. }
  apply wrap_small. pose proof (zsum_count _ 16 (buffer_costs_nonneg (common st))) as Hc.
  unfold buffer_costs in Hc. rewrite length_map in Hc. fold (buffer_costs (common st)) in Hc.
  fold (relay_buffer_costs st) in Hc.
  pose proof (relay_exact_parts st Hi) as (?&?&?&?&?&?). pose proof (ro_memory _ Hi).
  unfold relay_exact_used in *. zlia.
Qed.

Lemma relay_candidates_elem st k b n :
  (k, b, n) ∈ List.filter (fun '(_, bytes, len) => (0 <? bytes) && (0 <? len)) (relay_candidates st) ->
  0 < n /\
  match k with
  | RelayRx => n = len (rl_rx_queue st)
  | RelayTx => n = len (rl_tx_queue st)
  | RelayReplay => n = len (rl_replay_queue st)
  | RelayRecent => False
  | RelayRxBuffer => n = relay_reliable_rx_buffer_len st
  | RelayDiscovery => n = nlen (rl_discovery_routes st)
  end.
Proof.
  rewrite elem_of_List_filter. intros [Hin [Hb Hn]%andb_true_iff].
  apply Z.ltb_lt in Hb, Hn. split; [done|]. unfold relay_candidates in Hin.
  repeat (apply elem_of_cons in Hin as [[= -> -> ->]|Hin]; [done || lia|]). by apply elem_of_nil in Hin.
Qed.

Lemma pop_front_some {T} `{ByteCost T} (d : BoundedDeque T) : 0 < len d -> is_some (fst (pop_front d)) = true.
Proof. unfold pop_front, len. by destruct (q d). Qed.

(** The victim always has something to give. *)
Lemma relay_largest_poppable st k :
  relay_inner_ok st -> relay_largest_shared_queue st = Some k -> fst (relay_pop_shared_queue_item k st) = true.
Proof.
  intros Hi Hl. unfold relay_largest_shared_queue in Hl.
  destruct (relay_max_candidate _) as [[k' key]|] eqn:E; [|done]. injection Hl as <-.
  apply relay_max_candidate_elem in E as (b & n & Hin). apply relay_candidates_elem in Hin as (Hn & Hk).
  destruct k'; try done; subst n; cbn [relay_pop_shared_queue_item].
  1-3: apply pop_front_some in Hn; by destruct (pop_front _).
  - rewrite relay_buffer_len_exact in Hn by done. apply nonempty_length in Hn.
    unfold relay_pop_reliable_rx_buffered, pop_reliable_rx_buffered.
    pose proof (rx_split (reliable_rx (common st)) (ro_links _ Hi)) as Hsp.
    destruct (List.find _ _) as [[key' rx]|]; [|done]. by destruct Hsp as ([] & rest & -> & _).
  - unfold relay_pop_discovery_route, pop_discovery_route.
    destruct (oldest_route _) as [[]|] eqn:E; [done|].
    apply oldest_route_none in E. cbn in E. by rewrite E in Hn.
Qed.

(** Without a victim only the fixed share of the duplicate filter is in use. *)
Lemma relay_largest_none st :
  relay_inner_ok st -> relay_largest_shared_queue st = None -> relay_exact_used st = max_bytes (rl_recent_rx st).
Proof.
  intros Hi Hl. unfold relay_largest_shared_queue in Hl.
  destruct (relay_max_candidate _) eqn:E; [done|]. apply relay_max_candidate_none in E.
  unfold relay_candidates in E. cbn [List.filter] in E.
  repeat match type of E with (if ?b then _ else _) = [] => destruct b eqn:?; [done|] end.
  pose proof (relay_exact_parts st Hi) as (?&?&?&?&Hbn&Hrn). pose proof (ro_memory _ Hi) as Hm.
  assert (zsum (relay_buffer_costs st) = 0 /\ zsum (relay_route_costs st) = 0) as [Z1 Z2].
  { unfold relay_exact_used in Hm. rewrite relay_buffer_len_exact in * by done.
    unfold relay_reliable_rx_buffered_bytes, reliable_rx_buffered_bytes, relay_discovery_bytes_used, usum in *.
    fold (buffer_costs (common st)) (relay_route_costs st) in *. fold (relay_buffer_costs st) in *.
    fold (zsum (relay_buffer_costs st)) (zsum (relay_route_costs st)) in *.
    rewrite !wrap_small in * by zlia.
    repeat match goal with H : (_ <? _) && _ = false |- _ => apply andb_false_iff in H; rewrite !Z.ltb_ge in H end.
    split; match goal with |- ?z = 0 => assert (z <= 0); [|lia] end.
    - assert (rx_buffered (common st) = [] -> zsum (relay_buffer_costs st) = 0)
        by (unfold relay_buffer_costs, buffer_costs; by intros ->).
      destruct (rx_buffered (common st)) eqn:Eb; [naive_solver lia|]. cbn in *. lia.
    - assert (rl_discovery_routes st = [] -> zsum (relay_route_costs st) = 0) by (unfold relay_route_costs; by intros ->).
      unfold nlen in *. destruct (rl_discovery_routes st) eqn:Eb; [naive_solver lia|]. cbn in *. lia. }
  unfold relay_exact_used. rewrite Z1, Z2.
  rewrite (bd_empty_bytes (rl_rx_queue st)), (bd_empty_bytes (rl_tx_queue st)), (bd_empty_bytes (rl_replay_queue st));
    [lia|apply Hi|done|apply Hi|done|apply Hi|done].
Qed.

Lemma relay_evict_once_ok pref st :
  relay_inner_ok st -> relay_pop_ok st (relay_evict_once pref st) /\
  (fst (relay_evict_once pref st) = false -> relay_exact_used st = max_bytes (rl_recent_rx st)).
Proof.
  intros Hi. unfold relay_evict_once. destruct (relay_largest_shared_queue st) as [k|] eqn:El.
  - change (default pref (Some k)) with k. pose proof (relay_largest_poppable st k Hi El) as Hp.
    pose proof (relay_pop_item_ok k st Hi) as Hok.
    destruct (relay_pop_shared_queue_item k st) as [b st']. cbn in Hp. subst b. split; [exact Hok|done].
  - pose proof (relay_pop_item_ok pref st Hi) as Hok. pose proof (relay_largest_none st Hi El) as Hn.
    change (default pref None) with pref.
    destruct (relay_pop_shared_queue_item pref st) as [[] st']; [split; [exact Hok|done]|].
    destruct Hok as (Hi' & Hev & He & Hq). cbn [fst snd] in *.
    pose proof (relay_pop_item_ok pref st' Hi') as (Hi2 & Hev2 & He2 & Hq2).
    split; [|done]. split; [done|]. split; [by eapply relay_evicted_trans|]. split; [lia|].
    destruct (relay_pop_shared_queue_item pref st') as [[] st2]; cbn in *; lia.
Qed.

(** Making room: enough is evicted and no more, or the item cannot fit. *)
Definition relay_room_ok (st : RelayInner) (cost : Z) (r : RelayInner * TelemetryResult unit) : Prop :=
  relay_inner_ok (fst r) /\ relay_evicted st (fst r) /\ relay_exact_used (fst r) <= relay_exact_used st
  /\ match snd r with
     | Ok _ => relay_exact_used (fst r) + cost <= MAX_QUEUE_BUDGET
     | Err e => e = budget_error /\ MAX_QUEUE_BUDGET < max_bytes (rl_recent_rx st) + cost
     | Panic => False
     end.

Lemma relay_make_room_ok cost pref fuel st :
  relay_inner_ok st -> 0 <= cost -> MAX_QUEUE_BUDGET <= isize_max -> (relay_queued_items st < fuel)%nat ->
  relay_room_ok st cost (relay_make_room_loop fuel cost pref st).
Proof.
  intros Hi Hc Hmax. revert st Hi. induction fuel as [|fuel IH]; intros st Hi Hf; [lia|]. cbn [relay_make_room_loop].
  pose proof (relay_exact_parts st Hi) as (?&?&?&?&?&?). pose proof (ro_memory _ Hi) as Hm.
  destruct (Z.ltb_spec MAX_QUEUE_BUDGET (sat_add64 (relay_shared_queue_bytes_used st) cost)) as [Hover|Hfit].
  - destruct (relay_evict_once_ok pref st Hi) as [(Hi' & Hev & He & Hq) Hnone].
    destruct (relay_evict_once pref st) as [[] st'] eqn:E; cbn [fst snd] in *.
    + destruct (IH st' Hi' ltac:(lia)) as (Hi2 & Hev2 & He2 & Hr).
      split; [done|]. split; [by eapply relay_evicted_trans|]. split; [lia|].
      rewrite (rev_recent_max _ _ Hev) in Hr. exact Hr.
    + split; [done|]. split; [done|]. split; [done|]. cbn. split; [done|].
      rewrite relay_used_exact in Hover by done. specialize (Hnone eq_refl). unfold relay_exact_used in *. zlia.
  - split; [done|]. split; [apply relay_evicted_refl|]. split; [cbn; lia|]. cbn.
    rewrite relay_used_exact in Hfit by done. unfold relay_exact_used in *. zlia.
Qed.

(** [make_shared_queue_room] on every branch. *)
Lemma relay_room_made cost pref st :
  relay_inner_ok st -> 0 <= cost -> MAX_QUEUE_BUDGET <= isize_max ->
  let r := relay_make_shared_queue_room cost pref st in
  relay_room_ok st cost r
  /\ (relay_exact_used st + cost <= MAX_QUEUE_BUDGET -> r = (st, Ok tt)).
Proof.
  intros Hi Hc Hmax. unfold relay_make_shared_queue_room.
  pose proof (relay_exact_parts st Hi) as (?&?&?&?&?&?). pose proof (ro_memory _ Hi) as Hm.
  destruct (Z.ltb_spec MAX_QUEUE_BUDGET cost) as [Hbig|Hsmall].
  { split; [|unfold relay_exact_used in *; lia]. split; [done|]. split; [apply relay_evicted_refl|].
    split; [cbn; lia|]. cbn. split; [done|]. lia. }
  split; [apply relay_make_room_ok; (done || lia)|]. intros Hfit. cbn [relay_make_room_loop].
  rewrite relay_used_exact by done. destruct (Z.ltb_spec MAX_QUEUE_BUDGET (sat_add64 (relay_exact_used st) cost)); [|done].
  unfold relay_exact_used in *. zlia.
Qed.

(** *** The insertions *)

(** Making room and then spending no more than the room made. *)
Lemma relay_push_ok cost kind (k : LM unit) st :
  MAX_QUEUE_BUDGET <= isize_max -> 0 <= cost -> relay_budget_ok st ->
  (forall st', relay_inner_ok st' -> relay_evicted st st' -> relay_exact_used st' + cost <= MAX_QUEUE_BUDGET ->
     relay_inner_ok (fst (k st')) /\ relay_exact_used (fst (k st')) <= relay_exact_used st' + cost
     /\ snd (k st') <> Panic) ->
  let r := (_ ← relay_make_shared_queue_room cost kind; k) st in
  relay_keeps_budget r /\ (relay_shared_queue_bytes_used st + cost <= MAX_QUEUE_BUDGET -> r = k st).
Proof.
  intros Hmax Hc [Hi Hb] Hk. rewrite relay_used_exact in Hb by done.
  destruct (relay_room_made cost kind st Hi Hc Hmax) as [Hr Hid]. cbn zeta.
  rewrite relay_used_exact by done. rewrite LM_run.
  split; [|intros Hfit; by rewrite (Hid Hfit)].
  destruct (relay_make_shared_queue_room cost kind st) as [st' [[]|e|]]; destruct Hr as (Hi' & Hev & He & Hr);
    cbn [fst snd] in *; [|split; [|done]; apply relay_budget_exact; [done|]; cbn; lia|done].
  destruct (Hk st' Hi' Hev Hr) as (Hi2 & He2 & Hp). split; [|done]. apply relay_budget_exact; [done|]. lia.
Qed.

(** Replacing the queues, and what it takes to stay well formed. *)
Lemma relay_requeue st st' :
  relay_inner_ok st ->
  rl_reliable_rx st' = rl_reliable_rx st -> rl_discovery_routes st' = rl_discovery_routes st ->
  bd_inv (rl_rx_queue st') -> bd_inv (rl_tx_queue st') -> bd_inv (rl_replay_queue st') ->
  bd_inv (H := u64_cost) (rl_recent_rx st') -> relay_exact_used st' <= isize_max -> relay_inner_ok st'.
Proof. intros [] Hr Hd ? ? ? ? ?. split; rewrite ?Hr, ?Hd; done. Qed.

Ltac relay_queue_push inv prio i :=
  match goal with
  | Hc : cost_ok i, Hi : relay_inner_ok ?st' |- _ =>
      pose proof (prioritized_bytes prio _ i inv Hc) as Hp; destruct (push_back_prioritized prio _ i) as [d r];
      destruct Hp as (Hd & Hcb & Hnp); cbn [fst snd];
      match goal with |- relay_inner_ok ?st2 /\ _ =>
        destruct (relay_queue_change st' st2 eq_refl eq_refl) as [Hu _];
        cbn [rl_rx_queue rl_tx_queue rl_replay_queue rl_recent_rx set_rl_rx_queue set_rl_tx_queue set_rl_replay_queue] in Hu;
        pose proof Hi as []; split; [|split; [lia|done]];
        apply (relay_requeue st'); first [assumption|reflexivity|unfold isize_max in *; lia]
      end
  end.

Lemma push_rx_ok i st :
  MAX_QUEUE_BUDGET <= isize_max -> cost_ok i -> relay_budget_ok st ->
  relay_keeps_budget (push_rx i st)
  /\ (relay_shared_queue_bytes_used st + byte_cost i <= MAX_QUEUE_BUDGET ->
      push_rx i st = let '(d, r) := push_back_prioritized rrx_priority (rl_rx_queue st) i in (set_rl_rx_queue d st, r)).
Proof.
  intros Hmax Hc Hb. apply relay_push_ok; [done|exact Hc|done|]. intros st' Hi _ Hroom.
  relay_queue_push (ro_rx _ Hi) rrx_priority i.
Qed.

Lemma push_tx_ok i st :
  MAX_QUEUE_BUDGET <= isize_max -> cost_ok i -> relay_budget_ok st ->
  relay_keeps_budget (push_tx i st)
  /\ (relay_shared_queue_bytes_used st + byte_cost i <= MAX_QUEUE_BUDGET ->
      push_tx i st = let '(d, r) := push_back_prioritized rtx_priority (rl_tx_queue st) i in (set_rl_tx_queue d st, r)).
Proof.
  intros Hmax Hc Hb. apply relay_push_ok; [done|exact Hc|done|]. intros st' Hi _ Hroom.
  relay_queue_push (ro_tx _ Hi) rtx_priority i.
Qed.

Lemma push_replay_ok i st :
  MAX_QUEUE_BUDGET <= isize_max -> cost_ok i -> relay_budget_ok st ->
  relay_keeps_budget (push_replay i st)
  /\ (relay_shared_queue_bytes_used st + byte_cost i <= MAX_QUEUE_BUDGET ->
      push_replay i st = let '(d, r) := push_back_prioritized rp_priority (rl_replay_queue st) i in
                         (set_rl_replay_queue d st, r)).
Proof.
  intros Hmax Hc Hb. apply relay_push_ok; [done|exact Hc|done|]. intros st' Hi _ Hroom.
  relay_queue_push (ro_replay _ Hi) rp_priority i.
Qed.

Lemma trim_recent_view fuel c :
  1 <= MAX_RECENT_RX_IDS -> bd_inv (H := u64_cost) (recent_rx c) -> (length (q (recent_rx c)) <= fuel)%nat ->
  exists d, trim_recent fuel c = (set_recent_rx d c, Ok tt) /\ bd_inv (H := u64_cost) d
    /\ popped (q (recent_rx c)) (q d) /\ max_bytes d = max_bytes (recent_rx c) /\ len d < MAX_RECENT_RX_IDS.
Proof.
  intros Hm. revert c. induction fuel as [|fuel IH]; intros c Hi Hf; cbn [trim_recent].
  - unfold len. destruct (Z.leb_spec MAX_RECENT_RX_IDS (Z.of_nat (length (q (recent_rx c))))); [lia|].
    exists (recent_rx c). destruct c; cbn. repeat (split; [done|]). split; [apply popped_refl|done].
  - unfold len at 1. destruct (Z.leb_spec MAX_RECENT_RX_IDS (Z.of_nat (length (q (recent_rx c))))) as [Hle|Hlt].
    2: { exists (recent_rx c). destruct c; cbn in *. repeat (split; [done|]). split; [apply popped_refl|done]. }
    pose proof (@pop_queue_step _ u64_cost _ Hi) as Hp.
    assert (is_some (fst (pop_front (H := u64_cost) (recent_rx c))) = true) as Ho by (apply pop_front_some; unfold len; lia).
    destruct (pop_front (H := u64_cost) (recent_rx c)) as [o d]. cbn [fst snd] in *. rewrite Ho in Hp.
    destruct Hp as (Hinv & Hpop & _ & Hmb & Hlen).
    destruct (IH (set_recent_rx d c)) as (d' & -> & I2 & I3 & I4 & I5); [done|cbn in *; lia|].
    exists d'. split; [done|]. split; [done|]. split; [by eapply popped_trans|]. split; [cbn in I4; congruence|done].
Qed.

Lemma relay_push_recent_ok id st :
  MAX_QUEUE_BUDGET <= isize_max -> 1 <= MAX_RECENT_RX_IDS -> relay_budget_ok st ->
  relay_keeps_budget (relay_push_recent_rx id st).
Proof.
  intros Hmax Hids [Hi Hb]. rewrite relay_used_exact in Hb by done. unfold relay_push_recent_rx.
  rewrite LM_run. cbn [relay_get]. rewrite LM_run. unfold via at 1.
  destruct (trim_recent_view (length (q (rl_recent_rx st))) (common st)) as (d & -> & Hd & _ & Hmb & _);
    [done|apply Hi|done|]. set (st1 := with_common _ st).
  destruct (relay_queue_change st st1 eq_refl eq_refl) as [Hu _].
  assert (relay_inner_ok st1) as Hi1.
  { pose proof Hi as []. apply (relay_requeue st); try done. cbn in Hu, Hmb. rewrite Hu, Hmb. lia. }
  assert (relay_budget_ok st1) as Hb1.
  { apply relay_budget_exact; [done|]. cbn in Hu, Hmb. rewrite Hu, Hmb. lia. }
  apply (relay_push_ok 0 RelayRecent); [done|done|done|]. intros st2 Hi2 _ Hroom. unfold via. cbn [common recent_rx].
  pose proof (@push_back_inv _ u64_cost (rl_recent_rx st2) id (ro_recent _ Hi2) ltac:(unfold cost_ok; cbn; lia)) as Hp.
  destruct (push_back _ _) as [d2 r]. destruct Hp as (Hd2 & Hmb2 & Hnp). cbn [fst snd].
  match goal with |- relay_inner_ok ?s /\ _ => destruct (relay_queue_change st2 s eq_refl eq_refl) as [Hu2 _] end.
  cbn in Hu2. pose proof Hi2 as []. split; [|split; [lia|done]].
  apply (relay_requeue st2); first [assumption|reflexivity|unfold isize_max in *; lia].
Qed.

Lemma relay_update_rx_used key f st :
  relay_inner_ok st ->
  relay_exact_used (on_common (update_rx key f) st)
  = relay_exact_used st - frames_cost (buffered (default rx_state_new (bt_get key (rl_reliable_rx st))))
    + frames_cost (buffered (f (default rx_state_new (bt_get key (rl_reliable_rx st))))).
Proof.
  intros Hi. unfold relay_exact_used, relay_buffer_costs. rewrite !buffer_costs_sum.
  set (st' := on_common (update_rx key f) st).
  change (reliable_rx (common st')) with
    (bt_insert key (f (default rx_state_new (bt_get key (rl_reliable_rx st)))) (rl_reliable_rx st)).
  change (reliable_rx (common st)) with (rl_reliable_rx st).
  change (relay_route_costs st') with (relay_route_costs st). change (rl_rx_queue st') with (rl_rx_queue st).
  change (rl_tx_queue st') with (rl_tx_queue st). change (rl_replay_queue st') with (rl_replay_queue st).
  change (rl_recent_rx st') with (rl_recent_rx st).
  rewrite (bt_insert_sum (fun rx => frames_cost (buffered rx))) by apply Hi.
  destruct (bt_get key (rl_reliable_rx st)); cbn; unfold frames_cost, zsum; cbn; lia.
Qed.

Lemma relay_update_rx_ok key f st :
  relay_inner_ok st ->
  bt_sorted (buffered (f (default rx_state_new (bt_get key (rl_reliable_rx st))))) ->
  relay_exact_used (on_common (update_rx key f) st) <= isize_max -> relay_inner_ok (on_common (update_rx key f) st).
Proof.
  intros Hi Hf Hm. pose proof Hi as []. split; try assumption.
  - by apply bt_insert_sorted.
  - intros k rx Hin. change (rl_reliable_rx (on_common (update_rx key f) st)) with
      (bt_insert key (f (default rx_state_new (bt_get key (rl_reliable_rx st)))) (rl_reliable_rx st)) in Hin.
    apply bt_insert_elem in Hin as [[= -> ->]|Hin]; [done|eauto].
Qed.

Lemma relay_rx_default_sorted key st :
  relay_inner_ok st -> bt_sorted (buffered (default rx_state_new (bt_get key (rl_reliable_rx st)))).
Proof.
  intros Hi. destruct (bt_get key (rl_reliable_rx st)) as [rx|] eqn:E; cbn; [|constructor].
  apply bt_get_elem in E; [|apply Hi]. by apply (ro_buffers _ Hi) in E.
Qed.

Lemma relay_buffer_ok side t sq bytes st :
  MAX_QUEUE_BUDGET <= isize_max -> relay_budget_ok st ->
  relay_keeps_budget (relay_buffer_reliable_rx side t sq bytes st).
Proof.
  intros Hmax Hb. unfold relay_buffer_reliable_rx. destruct (match bt_get _ _ with Some _ => _ | None => _ end); [done|].
  pose proof (blen_nonneg bytes).
  apply relay_push_ok; [done|unfold sizeof_arc_slice; lia|done|]. intros st' Hi' _ Hroom. cbn [relay_modify fst snd].
  set (key := reliable_key side t).
  pose proof (relay_rx_default_sorted key st' Hi') as Hs.
  pose proof (relay_update_rx_used key (buffer_frame sq bytes) st' Hi') as Hu.
  pose proof (buffer_frame_cost sq bytes _ Hs) as Hc.
  split; [|split; [lia|done]]. apply relay_update_rx_ok; [done|by apply buffer_frame_sorted|lia].
Qed.

Lemma relay_fit_loop_ok fuel st :
  relay_inner_ok st -> (length (rl_discovery_routes st) <= fuel)%nat ->
  let st' := relay_fit_discovery_loop fuel st in
  relay_inner_ok st' /\ relay_evicted st st'
  /\ (relay_shared_queue_bytes_used st' <= MAX_QUEUE_BUDGET \/ rl_discovery_routes st' = []).
Proof.
  revert st. induction fuel as [|fuel IH]; intros st Hi Hf; cbn [relay_fit_discovery_loop].
  all: destruct (Z.ltb_spec MAX_QUEUE_BUDGET (relay_shared_queue_bytes_used st)) as [Hover|Hfit];
    [|split; [done|]; split; [apply relay_evicted_refl|]; by left].
  all: pose proof (relay_pop_discovery_ok st Hi) as Hp; cbn [relay_pop_shared_queue_item] in Hp;
    unfold relay_pop_discovery_route, pop_discovery_route in *; cbn [common discovery_routes] in *;
    destruct (oldest_route (rl_discovery_routes st)) as [[side route]|] eqn:E;
    [|apply oldest_route_none in E; destruct Hp as (Hi' & Hev & _); cbn [fst snd] in *; split; [done|];
      split; [done|]; by right].
  all: destruct Hp as (Hi' & Hev & _ & Hq); cbn [fst snd] in *;
    apply oldest_route_elem in E; pose proof (bt_remove_perm _ _ _ (ro_routes _ Hi) E) as Hperm;
    apply Permutation_length in Hperm; cbn [length] in Hperm.
  - lia.
  - match goal with |- context [relay_fit_discovery_loop fuel ?s] => destruct (IH s Hi') as (F1 & F2 & F3) end.
    { cbn. lia. }
    split; [done|]. split; [by eapply relay_evicted_trans|done].
Qed.

Lemma relay_fit_discovery_ok st :
  relay_inner_ok st ->
  let st' := relay_fit_discovery_budget st in
  relay_inner_ok st' /\ relay_evicted st st'
  /\ (relay_shared_queue_bytes_used st' <= MAX_QUEUE_BUDGET \/ rl_discovery_routes st' = []).
Proof. intros Hi. by apply relay_fit_loop_ok. Qed.

(** The relay's shared queue budget is an invariant: the five insertions
    (received items, items to send, replays, seen packet ids, out-of-order
    frames) keep the memory in use, counted the way the program counts it,
    within [MAX_QUEUE_BUDGET], keep every queue well formed and always end with
    an answer; an item for which there is room evicts nothing; making room
    drops queued items, buffered frames and topology routes, oldest first, and
    nothing else, and refuses only what cannot fit beside the duplicate filter;
    and trimming the topology ends within the budget or with no route left. *)
Theorem relay_budget_invariant st i t r id side ty sq bytes cost kind :
  MAX_QUEUE_BUDGET <= isize_max -> 1 <= MAX_RECENT_RX_IDS -> cost_ok i -> cost_ok t -> cost_ok r -> 0 <= cost ->
  relay_budget_ok st ->
  (relay_keeps_budget (push_rx i st) /\ relay_keeps_budget (push_tx t st) /\ relay_keeps_budget (push_replay r st)
   /\ relay_keeps_budget (relay_push_recent_rx id st)
   /\ relay_keeps_budget (relay_buffer_reliable_rx side ty sq bytes st))
  /\ (relay_shared_queue_bytes_used st + byte_cost t <= MAX_QUEUE_BUDGET ->
      fst (push_tx t st) = set_rl_tx_queue (fst (push_back_prioritized rtx_priority (rl_tx_queue st) t)) st)
  /\ (let '(st', res) := relay_make_shared_queue_room cost kind st in
      relay_evicted st st'
      /\ match res with
         | Ok _ => relay_shared_queue_bytes_used st' + cost <= MAX_QUEUE_BUDGET
         | Err e => e = budget_error /\ MAX_QUEUE_BUDGET < max_bytes (rl_recent_rx st) + cost
         | Panic => False
         end)
  /\ (forall st0, relay_inner_ok st0 ->
      relay_budget_ok (relay_fit_discovery_budget st0) \/ rl_discovery_routes (relay_fit_discovery_budget st0) = []).
Proof.
  intros Hmax Hids Hci Hct Hcr Hcost Hb.
  destruct (push_tx_ok t st Hmax Hct Hb) as [Ht Ht'].
  split; [|split; [|split]].
  - split; [by apply push_rx_ok|]. split; [done|]. split; [by apply push_replay_ok|].
    split; [by apply relay_push_recent_ok|by apply relay_buffer_ok].
  - intros Hfit. rewrite (Ht' Hfit). by destruct (push_back_prioritized _ _ _).
  - destruct (relay_room_made cost kind st (proj1 Hb) Hcost Hmax) as [Hr _].
    destruct (relay_make_shared_queue_room cost kind st) as [st' res]. destruct Hr as (Hi' & Hev & _ & Hr). cbn [fst snd] in *.
    split; [done|]. destruct res; [|done..]. by rewrite relay_used_exact.
  - intros st0 Hi0. destruct (relay_fit_discovery_ok st0 Hi0) as (Hi & _ & [Hu|Hn]); [left; by split|by right].
Qed.
End RelayInvariant.

(** The state a relay starts in satisfies the invariant. *)
Lemma relay_inner_new_ok `{Config} `{Layout} `{RelayLayout} st :
  0 <= sizeof_RelaySideState -> 0 <= sizeof_RelayRxItem -> 0 <= sizeof_RelayTxItem -> 0 <= sizeof_RelayReplayItem ->
  0 <= STARTING_QUEUE_SIZE -> 1 <= MAX_QUEUE_BUDGET <= isize_max -> 0 <= MAX_RECENT_RX_IDS ->
  relay_inner_new = Ok st -> relay_budget_ok st.
Proof.
  intros Hs Hr Ht Hp Hst Hmax Hids. unfold relay_inner_new.
  assert (0 <= RECENT_RX_QUEUE_BYTES <= MAX_QUEUE_BUDGET) as Hrec
    by (unfold RECENT_RX_QUEUE_BYTES; cbn zeta; zcase; zlia).
  assert (0 <= MAX_QUEUE_BUDGET <= isize_max) as Hb0 by lia.
  pose proof (new_cases (T := RelayRxItem) MAX_QUEUE_BUDGET STARTING_QUEUE_SIZE QUEUE_GROW_STEP Hst Hb0 Hr) as N1.
  pose proof (new_cases (T := RelayTxItem) MAX_QUEUE_BUDGET STARTING_QUEUE_SIZE QUEUE_GROW_STEP Hst Hb0 Ht) as N2.
  pose proof (new_cases (T := RelayReplayItem) MAX_QUEUE_BUDGET STARTING_QUEUE_SIZE QUEUE_GROW_STEP Hst Hb0 Hp) as N4.
  assert (0 <= Z.max RECENT_RX_QUEUE_BYTES 1 <= isize_max) as Hb1 by lia.
  pose proof (@new_cases Z u64_cost (Z.max RECENT_RX_QUEUE_BYTES 1) (Z.max RECENT_RX_QUEUE_BYTES 1) QUEUE_GROW_STEP
    (proj1 Hb1) Hb1 ltac:(cbn; lia)) as N3.
  assert (forall d, new (T := Z) (H := u64_cost) (Z.max RECENT_RX_QUEUE_BYTES 1) (Z.max RECENT_RX_QUEUE_BYTES 1)
    QUEUE_GROW_STEP = Ok d -> max_bytes d = Z.max RECENT_RX_QUEUE_BYTES 1) as Hmb.
  { unfold new. intros d. repeat case_match; intros Hn; try done; by injection Hn as <-. }
  destruct (new (T := RelayRxItem) _ _ _) as [rx| |]; cbn [res_bind mbind res_mbind]; [|done..].
  destruct (new (T := RelayTxItem) _ _ _) as [tx| |]; cbn [res_bind mbind res_mbind]; [|done..].
  destruct (new (T := RelayReplayItem) _ _ _) as [rp| |]; cbn [res_bind mbind res_mbind]; [|done..].
  destruct (new (T := Z) _ _ _) as [recent| |] eqn:E; cbn [res_bind mbind res_mbind]; [|done..].
  intros [= <-]. destruct N1 as (B1 & Q1 & _), N2 as (B2 & Q2 & _), N3 as (B3 & Q3 & _), N4 as (B4 & Q4 & _).
  specialize (Hmb _ eq_refl).
  match goal with |- relay_budget_ok ?s => set (st := s) end.
  assert (relay_exact_used st = Z.max RECENT_RX_QUEUE_BYTES 1) as Hu.
  { unfold relay_exact_used. cbn. rewrite (bi_bytes _ B1), (bi_bytes _ B2), (bi_bytes _ B4), Q1, Q2, Q4, Hmb. cbn. lia. }
  assert (relay_inner_ok st) as Hi.
  { split; try done; try constructor; [|rewrite Hu; lia]. intros key rx' Hin. by apply elem_of_nil in Hin. }
  apply relay_budget_exact; [done|done|]. lia.
Qed.

(** ** Witness *)

Definition some_relay_layout : RelayLayout :=
  {| sizeof_RelayRxItem := 160; sizeof_RelayTxItem := 176; sizeof_RelayReplayItem := 32;
     sizeof_RelaySenderState := 80; sizeof_RelaySideState := 80 |}.

(** A freshly built relay with the default configuration. *)
Definition fresh_relay : RelayInner :=
  match @relay_inner_new default_config some_layout some_relay_layout with
  | Ok st => st
  | _ => {| rl_sides := []; rl_route_overrides := ∅; rl_typed_route_overrides := ∅; rl_route_weights := ∅;
            rl_route_priorities := ∅; rl_source_route_modes := ∅; rl_route_selection_cursors := ∅;
            rl_adaptive_route_stats := ∅; rl_rx_queue := empty_queue; rl_tx_queue := empty_queue;
            rl_replay_queue := empty_queue; rl_recent_rx := empty_queue; rl_reliable_tx := []; rl_reliable_rx := [];
            rl_reliable_return_routes := ∅; rl_reliable_return_route_order := [];
            end_to_end_acked_destinations := ∅; end_to_end_acked_destination_order := [];
            rl_discovery_routes := []; rl_discovery_cadence := cadence_default |}
  end.

Lemma fresh_relay_ok : @relay_budget_ok default_config some_layout some_relay_layout fresh_relay.
Proof.
  apply relay_inner_new_ok; [vm_compute; discriminate..|vm_compute; split; discriminate|vm_compute; discriminate|].
  vm_compute; reflexivity.
Qed.

(** Two items of 60 kB: the second evicts the first from another queue. *)
Definition relayed_rx : RelayRxItem :=
  {| rrx_src := 0; rrx_data := RSerialized (replicate (Z.to_nat 60000) (b8 0)); rrx_priority := 10 |}.
Definition relayed_tx : RelayTxItem :=
  {| rtx_src := Some 0; rtx_dst := 1; rtx_data := RSerialized (replicate (Z.to_nat 60000) (b8 0)); rtx_priority := 10 |}.
Definition relayed_replay : RelayReplayItem := {| rp_dst := 1; rp_bytes := []; rp_priority := 10 |}.

Lemma relay_budget_invariant_witness :
  @relay_keeps_budget default_config some_layout some_relay_layout
    (@push_rx default_config some_layout some_relay_layout relayed_rx fresh_relay)
  /\ length (q (rl_rx_queue (fst (@push_tx default_config some_layout some_relay_layout relayed_tx
       (fst (@push_rx default_config some_layout some_relay_layout relayed_rx fresh_relay)))))) = 0%nat.
Proof.
  destruct (@relay_budget_invariant default_config some_layout some_relay_layout ltac:(vm_compute; discriminate)
    fresh_relay relayed_rx relayed_tx relayed_replay 7 0 0 2 [] 10 RelayRx) as [(Hk & _) _];
    [vm_compute; discriminate..|apply fresh_relay_ok|].
  split; [exact Hk|vm_compute; reflexivity].
Defined.
