(* ===== verification/RelayPlan.v ===== *)
(** * Relay sides, policy and planning ([src/relay.rs])

    Which sides a relayed item goes to: the administration of sides and rules,
    the policy, the end-to-end acknowledgements a relay remembers, and
    [remote_side_plan] with its filter of satisfied sides.  The selection modes
    and the rule tables are the router's code and are run through the view of
    [RelayState]; what differs is written out. *)

From stdpp Require Import gmap.
From S2P Require Import Prelude Ordered Telemetry Config Schema Queue SmallPayload Wire Packet Serialize Discovery RouterState Routes Reliable Plan Topology EndToEnd RelayState.

(** ** Sides and policy *)

Definition relay_side_at (st : RelayInner) (side : RouterSideId) : option RouterSide := side_at (common st) side.

Definition relay_side_ref (st : RelayInner) (side : RouterSideId) : TelemetryResult RouterSide :=
  ok_or (HandlerError "relay: invalid side id") (relay_side_at st side).

Definition relay_ensure_side_ingress_enabled (st : RelayInner) (side : RouterSideId) : TelemetryResult unit :=
  s ← relay_side_ref st side;
  if ingress_enabled (opts s) then Ok tt else Err (HandlerError "relay: ingress disabled for side id").

(** Unlike the router, a relay never sends an item back where it came from, and
    has no other default than to forward. *)
Definition relay_route_allowed_locked (st : RelayInner) (src : option RouterSideId) (t : option DataType)
    (dst : RouterSideId) : bool :=
  match relay_side_at st dst with
  | None => false
  | Some dst_side =>
      if negb (egress_enabled (opts dst_side)) then false
      else if match src with
              | None => false
              | Some src_id =>
                  match relay_side_at st src_id with
                  | None => true
                  | Some src_side => negb (ingress_enabled (opts src_side)) || (src_id =? dst)
                  end
              end then false
      else if negb (default true (rl_route_overrides st !! (src, dst))) then false
      else match t with
           | None => true
           | Some t =>
               if has_typed_rule (common st) src t
               then default false (rl_typed_route_overrides st !! (src, t, dst)) else true
           end
  end.

Definition relay_side_eligible (st : RelayInner) (src : option RouterSideId) (t : option DataType)
    (restrict_link_local : bool) (side_id : RouterSideId) : bool :=
  match relay_side_at st side_id with
  | None => false
  | Some side =>
      if restrict_link_local && negb (link_local_enabled (opts side)) then false
      else relay_route_allowed_locked st src t side_id
  end.

Definition relay_eligible_side_ids_locked (st : RelayInner) (src : option RouterSideId)
    (t : option DataType) (restrict_link_local : bool) : list RouterSideId :=
  List.filter (relay_side_eligible st src t restrict_link_local) (seqZ 0 (nlen (rl_sides st))).

Definition relay_apply_route_selection_locked (src : option RouterSideId) (l : list RouterSideId)
    (origin : RouteSelectionOrigin) : LM (list RouterSideId) := fun st =>
  let '(c, r) := apply_route_selection_locked src l origin (common st) in (with_common c st, Ok r).

Definition relay_record_side_tx_sample (side : RouterSideId) (bytes started_ms ended_ms : Z) : RelayInner -> RelayInner :=
  on_common (record_side_tx_sample side bytes started_ms ended_ms).

Definition relay_note_discovery_topology_change_locked (now : Z) : RelayInner -> RelayInner :=
  on_common (note_discovery_topology_change_locked now).

(** ** Administration *)

Definition relay_set_source_route_mode (src : option RouterSideId) (mode : RouteSelectionMode) (now : Z) : LM unit :=
  via (set_source_route_mode src mode now).
Definition relay_clear_source_route_mode (src : option RouterSideId) (now : Z) : LM unit :=
  relay_set_source_route_mode src Fanout now.
Definition relay_set_route_weight (src : option RouterSideId) (dst : RouterSideId) (w now : Z) : LM unit :=
  via (set_route_weight src dst w now).
Definition relay_clear_route_weight (src : option RouterSideId) (dst : RouterSideId) (now : Z) : LM unit :=
  via (clear_route_weight src dst now).
Definition relay_set_route_priority (src : option RouterSideId) (dst : RouterSideId) (p now : Z) : LM unit :=
  via (set_route_priority src dst p now).
Definition relay_clear_route_priority (src : option RouterSideId) (dst : RouterSideId) (now : Z) : LM unit :=
  via (clear_route_priority src dst now).
Definition relay_set_route (src : option RouterSideId) (dst : RouterSideId) (enabled : bool) (now : Z) : LM unit :=
  via (set_route src dst enabled now).
Definition relay_clear_route (src : option RouterSideId) (dst : RouterSideId) (now : Z) : LM unit :=
  via (clear_route src dst now).
Definition relay_set_typed_route (src : option RouterSideId) (t : DataType) (dst : RouterSideId) (enabled : bool)
    (now : Z) : LM unit :=
  via (set_typed_route src t dst enabled now).
Definition relay_clear_typed_route (src : option RouterSideId) (t : DataType) (dst : RouterSideId) (now : Z) : LM unit :=
  via (clear_typed_route src t dst now).

(** The four [add_side_*]: which callback, and which options. *)
Definition relay_add_side (name : Str) (handler : RouterTxHandlerFn) (o : RouterSideOptions) (now : Z) : LM RouterSideId :=
  fun st => let '(c, id) := add_side name handler o now (common st) in (with_common c st, Ok id).

Section RelaySideAdmin.
Context `{Layout} `{RelayLayout}.

Definition relay_set_side_ingress_enabled (side : RouterSideId) (enabled : bool) (now : Z) : LM unit :=
  via (set_side_ingress_enabled side enabled now).

Definition relay_set_side_egress_enabled (side : RouterSideId) (enabled : bool) (now : Z) : LM unit := fun st =>
  match relay_side_at st side with
  | None => (st, Err BadArg)
  | Some s =>
      let o := opts s in
      let o := {| reliable_enabled := reliable_enabled o; link_local_enabled := link_local_enabled o;
                  ingress_enabled := ingress_enabled o; egress_enabled := enabled |} in
      let st := on_common (update_side side (Some (with_opts o s))) st in
      let st := if enabled then st
                else set_rl_replay_queue (retain (fun i => negb (rp_dst i =? side)) (rl_replay_queue st))
                       (set_rl_tx_queue (retain (fun i => negb (rtx_dst i =? side)) (rl_tx_queue st)) st) in
      (relay_note_discovery_topology_change_locked now st, Ok tt)
  end.

Definition tx_involves (side : RouterSideId) (i : RelayTxItem) : bool :=
  (rtx_dst i =? side) || bool_decide (rtx_src i = Some side).

(** The tables without the side. *)
Definition forget_side_tables (side : RouterSideId) (st : RouterInner) : RouterInner :=
  let keep2 := fun k : option RouterSideId * RouterSideId => fst k <> Some side /\ snd k <> side in
  let st := update_side side None st in
  let st := set_route_overrides (filter (fun e => keep2 (fst e)) (route_overrides st)) st in
  let st := set_typed_route_overrides
    (filter (fun e => fst (fst (fst e)) <> Some side /\ snd (fst e) <> side) (typed_route_overrides st)) st in
  let st := set_route_weights (filter (fun e => keep2 (fst e)) (route_weights st)) st in
  let st := set_route_priorities (filter (fun e => keep2 (fst e)) (route_priorities st)) st in
  let st := set_source_route_modes (delete (Some side) (source_route_modes st)) st in
  let st := set_route_selection_cursors (delete (Some side) (route_selection_cursors st)) st in
  let st := set_adaptive_route_stats (delete side (adaptive_route_stats st)) st in
  let st := set_reliable_return_routes (filter (fun e => snd e <> side) (reliable_return_routes st)) st in
  let st := set_reliable_tx (bt_retain (fun k _ => negb (fst k =? side)) (reliable_tx st)) st in
  let st := set_reliable_rx (bt_retain (fun k _ => negb (fst k =? side)) (reliable_rx st)) st in
  set_discovery_routes (bt_remove side (discovery_routes st)) st.

Definition relay_remove_side (side : RouterSideId) (now : Z) : LM unit := fun st =>
  match relay_side_at st side with
  | None => (st, Err BadArg)
  | Some _ =>
      let st := on_common (forget_side_tables side) st in
      let st := set_rl_rx_queue (retain (fun i => negb (rrx_src i =? side)) (rl_rx_queue st)) st in
      let st := set_rl_tx_queue (retain (fun i => negb (tx_involves side i)) (rl_tx_queue st)) st in
      let st := set_rl_replay_queue (retain (fun i => negb (rp_dst i =? side)) (rl_replay_queue st)) st in
      (relay_note_discovery_topology_change_locked now st, Ok tt)
  end.

Definition relay_clear_queues : LM unit :=
  relay_modify (fun st => set_rl_tx_queue (clear (rl_tx_queue st)) (set_rl_rx_queue (clear (rl_rx_queue st)) st)).
Definition relay_clear_rx_queue : LM unit := relay_modify (fun st => set_rl_rx_queue (clear (rl_rx_queue st)) st).
Definition relay_clear_tx_queue : LM unit :=
  relay_modify (fun st => set_rl_replay_queue (clear (rl_replay_queue st)) (set_rl_tx_queue (clear (rl_tx_queue st)) st)).
End RelaySideAdmin.

(** ** End-to-end acknowledgements *)

(** [remember_reliable_return_route_locked] and the entry. *)
Definition relay_note_reliable_return_route `{Config} (side : RouterSideId) (id : Z) : RelayInner -> RelayInner :=
  on_common (note_reliable_return_route side id).

Section Acknowledged.
Context `{Config}.

Definition acked_cap : Z := Z.max RELIABLE_MAX_END_TO_END_ACK_CACHE 1.
Definition acked_sender_cap : Z := Z.max RELIABLE_MAX_END_TO_END_PENDING 1.

(** One more destination that has acknowledged the packet, unless the packet
    has as many already as are kept. *)
Definition note_end_to_end_acked_destination_locked (id hash : Z) (st : RelayInner) : RelayInner :=
  let '(order, m) := remember acked_cap (fun i m => is_some (m !! i)) (fun i m => delete i m) id
    (end_to_end_acked_destination_order st) (end_to_end_acked_destinations st) in
  let acked := default ∅ (m !! id) in
  let acked := if (Z.of_nat (size acked) <? acked_sender_cap) || bool_decide (hash ∈ acked)
               then {[hash]} ∪ acked else acked in
  set_end_to_end_acked_destination_order order (set_end_to_end_acked_destinations (<[id := acked]> m) st).

(** The destinations that boards still announce. *)
Definition active_senders (st : RelayInner) : list Z :=
  concat (map (fun e => concat (map (fun a => map (fun b => sender_hash (sender_id b))
    (List.filter (fun b => is_end_to_end_destination_sender (sender_id b)) (topology_boards (snd a))))
    (announcers (snd e)))) (rl_discovery_routes st)).

Definition reconcile_end_to_end_acked_destinations_locked (st : RelayInner) : RelayInner :=
  let active := active_senders st in
  set_end_to_end_acked_destinations
    (omap (fun acked : gset Z =>
       let acked := filter (fun h => h ∈ active) acked in
       if decide (acked = ∅) then None else Some acked) (end_to_end_acked_destinations st)) st.
End Acknowledged.

(** ** Planning *)

Section RelayPlan.
Context `{Config} `{Schema} `{External}.

Definition relay_item_priority (d : RouterItem) : TelemetryResult Z := router_item_priority d.

(** Like the router's, but a packet is not validated. *)
Definition relay_item_route_info (d : RouterItem) : TelemetryResult (list DataEndpoint * DataType) :=
  match d with
  | RPacket pkt => Ok (sort_dedup (pkt_endpoints pkt), ty pkt)
  | RSerialized bytes => env ← peek_envelope bytes; Ok (sort_dedup (env_endpoints env), env_ty env)
  end.

Definition relay_reliable_control_target_packet_id (d : RouterItem) : TelemetryResult (option Z) :=
  reliable_control_target_packet_id d.

Definition relay_preferred_timesync_route_source (d : RouterItem) (t : DataType) : TelemetryResult (option Str) :=
  if negb ((t =? TimeSyncAnnounce) || (t =? TimeSyncResponse)) then Ok None
  else match d with
       | RPacket pkt => Ok (Some (sender pkt))
       | RSerialized bytes => pkt ← deserialize_packet bytes; Ok (Some (sender pkt))
       end.

(** The destinations behind a side that the item is for, and whether one of
    them has not acknowledged. *)
Definition destination_boards (route : DiscoverySideState) : list TopologyBoardNode :=
  List.filter (fun b => is_end_to_end_destination_sender (sender_id b))
    (concat (map (fun e => topology_boards (snd e)) (announcers route))).

Definition still_pending (eps : list DataEndpoint) (acked : gset Z) (b : TopologyBoardNode) : bool :=
  existsb (fun ep => bool_decide (ep ∈ reachable_endpoints b)) eps && negb (bool_decide (sender_hash (sender_id b) ∈ acked)).

Definition side_unsatisfied (st : RelayInner) (eps : list DataEndpoint) (acked : gset Z) (side : RouterSideId) : bool :=
  match bt_get side (rl_discovery_routes st) with
  | None => true
  | Some route =>
      existsb (still_pending eps acked) (destination_boards route) || bool_decide (destination_boards route = [])
  end.

Definition relay_packet_id (d : RouterItem) : TelemetryResult Z :=
  match d with RPacket pkt => packet_id pkt | RSerialized bytes => packet_id_from_wire bytes end.

Definition filter_end_to_end_satisfied_sides_locked (st : RelayInner) (d : RouterItem) (l : list RouterSideId)
    (eps : list DataEndpoint) (t : DataType) : TelemetryResult (list RouterSideId) :=
  if negb (is_reliable_type t) then Ok l
  else
    target ← relay_reliable_control_target_packet_id d;
    if is_some target then Ok l
    else
      id ← relay_packet_id d;
      match end_to_end_acked_destinations st !! id with
      | None => Ok l
      | Some acked => Ok (List.filter (side_unsatisfied st eps acked) l)
      end.

(** The loop over the discovered routes. *)
Fixpoint relay_scan_routes (st : RelayInner) (exclude : RouterSideId) (t : DataType)
    (eps : list DataEndpoint) (restrict_link_local : bool) (preferred : option Str) (now : Z)
    (l : list (RouterSideId * DiscoverySideState)) : list RouterSideId * list RouterSideId :=
  match l with
  | [] => ([], [])
  | (side, route) :: l =>
      let '(exact, generic) := relay_scan_routes st exclude t eps restrict_link_local preferred now l in
      if (side =? exclude) || negb (side_fresh now route) then (exact, generic)
      else if restrict_link_local && negb (side_link_local (common st) side) then (exact, generic)
      else if negb (relay_route_allowed_locked st (Some exclude) (Some t) side) then (exact, generic)
      else if serves_source preferred route then (side :: exact, generic)
      else if reaches eps route then (exact, side :: generic)
      else (exact, generic)
  end.

Definition relay_flood (st : RelayInner) (exclude : RouterSideId) (t : DataType) (restrict_link_local : bool)
    : plan_choice :=
  Among (relay_eligible_side_ids_locked st (Some exclude) (Some t) restrict_link_local) Flood.

(** [allowed_target_side_locked] of the return route. *)
Definition relay_return_route (st : RelayInner) (exclude : RouterSideId) (t : DataType) (id : Z) : plan_choice :=
  match rl_reliable_return_routes st !! id with
  | Some side => if relay_route_allowed_locked st (Some exclude) (Some t) side then Exactly [side] else Exactly []
  | None => Exactly []
  end.

(** Time sources first, then endpoints (without the sides that are done), then
    the fallback. *)
Definition relay_discovered_choice (st : RelayInner) (d : RouterItem) (exclude : RouterSideId) (t : DataType)
    (eps : list DataEndpoint) (preferred : option Str) (now : Z) (origin : RouteSelectionOrigin)
    : TelemetryResult plan_choice :=
  let restrict := endpoints_are_link_local_only eps in
  match relay_scan_routes st exclude t eps restrict preferred now (rl_discovery_routes st) with
  | ((_ :: _) as exact, _) => l ← filter_end_to_end_satisfied_sides_locked st d exact eps t; Ok (Among l origin)
  | ([], (_ :: _) as generic) => l ← filter_end_to_end_satisfied_sides_locked st d generic eps t; Ok (Among l origin)
  | ([], []) => Ok (relay_flood st exclude t restrict)
  end.

Definition relay_plan_choice_of (now : Z) (d : RouterItem) (exclude : RouterSideId) (st : RelayInner)
    : TelemetryResult plan_choice :=
  '(eps, t) ← relay_item_route_info d;
  preferred_packet_id ← relay_reliable_control_target_packet_id d;
  if is_discovery_type t then Ok (relay_flood st exclude t false)
  else
    preferred ← relay_preferred_timesync_route_source d t;
    match preferred_packet_id with
    | Some id => Ok (relay_return_route st exclude t id)
    | None =>
        let origin := if is_reliable_type t then Flood else Discovered in
        match rl_discovery_routes st with
        | [] => Ok (relay_flood st exclude t (endpoints_are_link_local_only eps))
        | _ => relay_discovered_choice st d exclude t eps preferred now origin
        end
    end.

Definition relay_remote_side_plan (now : Z) (d : RouterItem) (exclude : RouterSideId) : LM (list RouterSideId) :=
  fun st =>
  match relay_plan_choice_of now d exclude st with
  | Ok (Exactly l) => (st, Ok l)
  | Ok (Among l origin) => relay_apply_route_selection_locked (Some exclude) l origin st
  | Err e => (st, Err e)
  | Panic => (st, Panic)
  end.
End RelayPlan.
