(* ===== verification/RelayPlanning.v ===== *)
(** * Where a relay forwards ([remote_side_plan] of [src/relay.rs])

    The planned sides as a specification: policy, freshness, link-local
    permission, and the destinations that have acknowledged. *)

From stdpp Require Import gmap.
From S2P Require Import Prelude Ordered Telemetry Config Schema Queue SmallPayload Wire Packet Serialize TimeSync Discovery RouterState Routes Plan Topology EndToEnd RelayState RelayPlan.

Section Planning.
Context `{Config} `{Schema} `{External}.

(** The policy of a relay: the destination sends, the source receives and is
    another side, no base rule blocks the pair, and a typed rule for the source
    and type, if there is one, allows the destination. *)
Definition relay_policy (st : RelayInner) (src : option RouterSideId) (t : option DataType) (dst : RouterSideId) : Prop :=
  (exists d, relay_side_at st dst = Some d /\ egress_enabled (opts d) = true)
  /\ (forall s, src = Some s -> s <> dst /\ exists x, relay_side_at st s = Some x /\ ingress_enabled (opts x) = true)
  /\ rl_route_overrides st !! (src, dst) <> Some false
  /\ (forall ty, t = Some ty -> (exists d b, rl_typed_route_overrides st !! (src, ty, d) = Some b) ->
      rl_typed_route_overrides st !! (src, ty, dst) = Some true).

Lemma relay_allowed_spec st src t dst : relay_route_allowed_locked st src t dst = true <-> relay_policy st src t dst.
Proof.
  unfold relay_route_allowed_locked, relay_policy. destruct (relay_side_at st dst) as [d|]; [|naive_solver].
  destruct (egress_enabled (opts d)) eqn:Ee; cbn [negb]; [|naive_solver congruence].
  match goal with |- context [if ?b then false else _] => destruct b eqn:Ei end.
  { split; [done|]. intros (_ & Hs & _). destruct src as [s|]; [|done].
    destruct (Hs s eq_refl) as (Hne & x & Hx & Hin). rewrite Hx, Hin in Ei. cbn [negb orb] in Ei.
    by apply Z.eqb_eq in Ei. }
  assert (forall s, src = Some s -> s <> dst /\ exists x, relay_side_at st s = Some x /\ ingress_enabled (opts x) = true) as Hin.
  { intros s ->. destruct (relay_side_at st s) as [x|]; [|done]. apply orb_false_iff in Ei as [Hi%negb_false_iff Hn%Z.eqb_neq]. eauto. }
  assert (default true (rl_route_overrides st !! (src, dst)) = true <-> rl_route_overrides st !! (src, dst) <> Some false) as Hd
    by (destruct (rl_route_overrides st !! (src, dst)) as [[]|]; naive_solver).
  destruct (default true (rl_route_overrides st !! (src, dst))) eqn:Eb; cbn [negb]; [|naive_solver].
  destruct t as [ty|]; [|naive_solver].
  pose proof (has_typed_rule_spec (common st) src ty) as Ht. cbn [common typed_route_overrides] in Ht.
  destruct (has_typed_rule (common st) src ty) eqn:Et.
  - rewrite default_true. split.
    + intros [Hb|[_ [=]]]. split; [eauto|]. split; [done|]. split; [by apply Hd|]. by intros ty' [= <-].
    + intros (_ & _ & _ & Hb). left. apply Hb; [done|]. by apply Ht.
  - split; [|done]. intros _. split; [eauto|]. split; [done|]. split; [by apply Hd|].
    intros ty' [= <-] Hex%Ht. done.
Qed.

(** A discovered side an item from [exclude] may use. *)
Definition relay_usable (st : RelayInner) (exclude : RouterSideId) (t : DataType) (restrict_link_local : bool) (now : Z)
    (side : RouterSideId) (route : DiscoverySideState) : Prop :=
  side_fresh now route = true /\ (restrict_link_local = true -> side_link_local (common st) side = true)
  /\ relay_policy st (Some exclude) (Some t) side.

Lemma relay_policy_other st exclude t side : relay_policy st (Some exclude) t side -> side <> exclude.
Proof. intros (_ & Hs & _). destruct (Hs exclude eq_refl) as [Hne _]. congruence. Qed.

Lemma relay_scan_spec st exclude t eps restrict preferred now l s :
  (s ∈ fst (relay_scan_routes st exclude t eps restrict preferred now l) <->
   exists route, (s, route) ∈ l /\ relay_usable st exclude t restrict now s route /\ serves_source preferred route = true)
  /\ (s ∈ snd (relay_scan_routes st exclude t eps restrict preferred now l) <->
   exists route, (s, route) ∈ l /\ relay_usable st exclude t restrict now s route
     /\ serves_source preferred route = false /\ reaches eps route = true).
Proof.
  induction l as [|[side route] l [IHe IHg]]; cbn [relay_scan_routes fst snd].
  { split; (split; [by intros ?%elem_of_nil|]); intros (? & ?%elem_of_nil & _); done. }
  destruct (relay_scan_routes st exclude t eps restrict preferred now l) as [exact generic]. cbn [fst snd] in IHe, IHg.
  assert (((side =? exclude) || negb (side_fresh now route) = false
           /\ restrict && negb (side_link_local (common st) side) = false
           /\ negb (relay_route_allowed_locked st (Some exclude) (Some t) side) = false)
          <-> relay_usable st exclude t restrict now side route) as Hu.
  { unfold relay_usable. rewrite orb_false_iff, Z.eqb_neq, !negb_false_iff, andb_false_iff, negb_false_iff, relay_allowed_spec.
    pose proof (relay_policy_other st exclude (Some t) side). destruct restrict; naive_solver. }
  rewrite (exists_cons (fun s route => relay_usable st exclude t restrict now s route /\ serves_source preferred route = true)),
    (exists_cons (fun s route => relay_usable st exclude t restrict now s route
       /\ serves_source preferred route = false /\ reaches eps route = true)), <- IHe, <- IHg.
  destruct ((side =? exclude) || negb (side_fresh now route)) eqn:E1;
    [|destruct (restrict && negb (side_link_local (common st) side)) eqn:E2;
      [|destruct (negb (relay_route_allowed_locked st (Some exclude) (Some t) side)) eqn:E3;
        [|destruct (serves_source preferred route) eqn:E4; [|destruct (reaches eps route) eqn:E5]]]];
    cbn [fst snd]; rewrite ?elem_of_cons, <- Hu; intuition congruence.
Qed.

Lemma relay_scan_sub st exclude t eps restrict preferred now l :
  fst (relay_scan_routes st exclude t eps restrict preferred now l) `sublist_of` bt_keys l
  /\ snd (relay_scan_routes st exclude t eps restrict preferred now l) `sublist_of` bt_keys l.
Proof.
  unfold bt_keys. induction l as [|[side route] l [IHe IHg]]; cbn [relay_scan_routes fst snd fmap list_fmap]; [done|].
  destruct (relay_scan_routes st exclude t eps restrict preferred now l) as [exact generic]. cbn [fst snd] in *.
  repeat case_match; cbn [fst snd]; split; eauto using sublist.
Qed.

Lemma relay_eligible_spec st exclude t restrict s :
  s ∈ relay_eligible_side_ids_locked st (Some exclude) (Some t) restrict <->
  0 <= s /\ relay_policy st (Some exclude) (Some t) s /\ (restrict = true -> side_link_local (common st) s = true).
Proof.
  unfold relay_eligible_side_ids_locked. rewrite elem_of_List_filter, elem_of_seqZ. unfold relay_side_eligible, side_link_local.
  change (side_at (common st) s) with (relay_side_at st s). destruct (relay_side_at st s) as [sd|] eqn:E.
  - pose proof (fun H => side_at_range (common st) s sd H E) as Hr. cbn [common sides] in Hr.
    rewrite <- relay_allowed_spec. destruct restrict, (link_local_enabled (opts sd)); cbn [andb negb]; intuition (try lia; try congruence).
  - split; [naive_solver|]. intros (_ & ((d & Hd & _) & _) & _). congruence.
Qed.

Lemma relay_eligible_nodup st src t restrict : NoDup (relay_eligible_side_ids_locked st src t restrict).
Proof. apply NoDup_ListNoDup, List.NoDup_filter, NoDup_ListNoDup, NoDup_seqZ. Qed.

(** Some destination behind the side has yet to acknowledge the packet: none has
    at all, the side or its destinations are not known, or one of them serves
    an endpoint of the item and is not among those that did. *)
Definition side_waits (st : RelayInner) (eps : list DataEndpoint) (id : Z) (side : RouterSideId) : Prop :=
  forall acked route, end_to_end_acked_destinations st !! id = Some acked ->
    bt_get side (rl_discovery_routes st) = Some route ->
    destination_boards route = []
    \/ exists b ep, b ∈ destination_boards route /\ ep ∈ eps /\ ep ∈ reachable_endpoints b
        /\ sender_hash (sender_id b) ∉ acked.

Lemma side_unsatisfied_spec st eps acked id side :
  end_to_end_acked_destinations st !! id = Some acked ->
  side_unsatisfied st eps acked side = true <-> side_waits st eps id side.
Proof.
  intros Ha. unfold side_unsatisfied, side_waits. destruct (bt_get side (rl_discovery_routes st)) as [route|].
  2: { split; [|done]. intros _ acked' route _ [=]. }
  rewrite orb_true_iff, bool_decide_eq_true, existsb_exists. split.
  - intros Hw acked' route' Ha' [= <-]. rewrite Ha in Ha'. injection Ha' as <-.
    destruct Hw as [(b & Hb%list_elem_of_In & Hp)|Hn]; [right|by left]. unfold still_pending in Hp.
    apply andb_true_iff in Hp as [(ep & Hep%list_elem_of_In & Hr%bool_decide_eq_true)%existsb_exists Hn%negb_true_iff].
    apply bool_decide_eq_false in Hn. eauto 10.
  - intros Hw. destruct (Hw acked route Ha eq_refl) as [Hn|(b & ep & Hb & Hep & Hr & Hni)]; [by right|left].
    exists b. split; [by apply list_elem_of_In|]. unfold still_pending. apply andb_true_iff. split.
    + apply existsb_exists. exists ep. split; [by apply list_elem_of_In|]. by apply bool_decide_eq_true.
    + by rewrite bool_decide_false.
Qed.

Lemma satisfied_sub st d l eps t l' : filter_end_to_end_satisfied_sides_locked st d l eps t = Ok l' -> l' `sublist_of` l.
Proof.
  unfold filter_end_to_end_satisfied_sides_locked. destruct (negb (is_reliable_type t)); [by intros [= <-]|].
  intros (target & _ & Ht)%bind_ok. destruct (is_some target); [by injection Ht as <-|].
  apply bind_ok in Ht as (id & _ & Ht). destruct (end_to_end_acked_destinations st !! id); injection Ht as <-; [|done].
  clear. induction l as [|x l IH]; cbn [List.filter]; [done|]. case_match; by constructor.
Qed.

Lemma satisfied_spec st d l eps t id :
  is_reliable_type t = true -> reliable_control_target_packet_id d = Ok None -> relay_packet_id d = Ok id ->
  exists l', filter_end_to_end_satisfied_sides_locked st d l eps t = Ok l'
  /\ forall s, s ∈ l' <-> s ∈ l /\ side_waits st eps id s.
Proof.
  intros Hr Ht Hid. unfold filter_end_to_end_satisfied_sides_locked, relay_reliable_control_target_packet_id.
  rewrite Hr, Ht. cbn [negb res_bind mbind res_mbind is_some]. rewrite Hid. cbn [res_bind mbind res_mbind].
  destruct (end_to_end_acked_destinations st !! id) as [acked|] eqn:E; eexists; (split; [reflexivity|]); intros s.
  - rewrite elem_of_List_filter, (side_unsatisfied_spec st eps acked id s E). done.
  - split; [|tauto]. intros Hs. split; [done|]. intros acked route Ha. congruence.
Qed.

(** Every planned side is admitted for the item's type and source; an ordinary
    link-local item only goes to link-local sides. *)
Definition relay_plan_safe (st : RelayInner) (exclude : RouterSideId) (d : RouterItem) (l : list RouterSideId) : Prop :=
  exists eps t, relay_item_route_info d = Ok (eps, t)
  /\ (forall s, s ∈ l -> s <> exclude /\ relay_policy st (Some exclude) (Some t) s)
  /\ (endpoints_are_link_local_only eps = true -> is_discovery_type t = false ->
      reliable_control_target_packet_id d = Ok None -> forall s, s ∈ l -> side_link_local (common st) s = true).

Lemma relay_policy_ne st exclude t s : relay_policy st (Some exclude) t s -> s <> exclude /\ relay_policy st (Some exclude) t s.
Proof. intros Hp. split; [by eapply relay_policy_other|done]. Qed.

Lemma relay_discovered_safe st d exclude t eps preferred now origin c s :
  relay_discovered_choice st d exclude t eps preferred now origin = Ok c -> s ∈ choice_sides c ->
  relay_policy st (Some exclude) (Some t) s
  /\ (endpoints_are_link_local_only eps = true -> side_link_local (common st) s = true).
Proof.
  unfold relay_discovered_choice. cbn zeta.
  destruct (relay_scan_spec st exclude t eps (endpoints_are_link_local_only eps) preferred now (rl_discovery_routes st) s) as [He Hg].
  destruct (relay_scan_routes _ _ _ _ _ _ _ _) as [exact generic]. cbn [fst snd] in He, Hg.
  destruct exact as [|x exact]; [destruct generic as [|y generic]|].
  - intros [= <-] (_ & Hp & Hl)%relay_eligible_spec. by split.
  - intros (l & Hl%satisfied_sub & [= <-])%bind_ok Hs. cbn [choice_sides] in Hs.
    destruct (proj1 Hg) as (? & _ & (_ & Hll & Hp) & _); [by eapply elem_of_sublist|]. by split.
  - intros (l & Hl%satisfied_sub & [= <-])%bind_ok Hs. cbn [choice_sides] in Hs.
    destruct (proj1 He) as (? & _ & (_ & Hll & Hp) & _); [by eapply elem_of_sublist|]. by split.
Qed.

Lemma relay_choice_safe now d exclude st c :
  relay_plan_choice_of now d exclude st = Ok c -> relay_plan_safe st exclude d (choice_sides c).
Proof.
  unfold relay_plan_choice_of. intros ([eps t] & Hi & (id & Hid & Hc)%bind_ok)%bind_ok.
  exists eps, t. split; [done|]. destruct (is_discovery_type t) eqn:Hd.
  { injection Hc as <-. split; [|done]. intros s (_ & Hp & _)%relay_eligible_spec. by apply relay_policy_ne. }
  apply bind_ok in Hc as (preferred & _ & Hc). destruct id as [id|].
  { injection Hc as <-. split; [|unfold relay_reliable_control_target_packet_id in Hid; congruence].
    unfold relay_return_route. intros s.
    destruct (rl_reliable_return_routes st !! id) as [side|]; [|by intros ?%elem_of_nil].
    destruct (relay_route_allowed_locked st (Some exclude) (Some t) side) eqn:E; cbn [choice_sides]; [|by intros ?%elem_of_nil].
    intros ->%list_elem_of_singleton. by apply relay_policy_ne, relay_allowed_spec. }
  cbn zeta in Hc. destruct (rl_discovery_routes st) as [|e l] eqn:El.
  - injection Hc as <-. split; [|intros ? _ _]; intros s (_ & Hp & Hll)%relay_eligible_spec; [by apply relay_policy_ne|auto].
  - split; [|intros Hll _ _]; intros s Hs; destruct (relay_discovered_safe _ _ _ _ _ _ _ _ _ s Hc Hs) as [Hp Hl];
      [by apply relay_policy_ne|auto].
Qed.

Lemma relay_choice_nodup now d exclude st c :
  bt_sorted (rl_discovery_routes st) -> relay_plan_choice_of now d exclude st = Ok c -> NoDup (choice_sides c).
Proof.
  intros Hs%bt_keys_nodup. unfold relay_plan_choice_of. intros ([eps t] & _ & (id & _ & Hc)%bind_ok)%bind_ok.
  destruct (is_discovery_type t); [injection Hc as <-; apply relay_eligible_nodup|].
  apply bind_ok in Hc as (preferred & _ & Hc). destruct id as [id|].
  { injection Hc as <-. unfold relay_return_route. repeat case_match; cbn; try apply NoDup_singleton; constructor. }
  cbn zeta in Hc. destruct (rl_discovery_routes st) as [|e l] eqn:El; [injection Hc as <-; apply relay_eligible_nodup|].
  revert Hc. unfold relay_discovered_choice. cbn zeta. rewrite El.
  pose proof (relay_scan_sub st exclude t eps (endpoints_are_link_local_only eps) preferred now (e :: l)) as [Se Sg].
  destruct (relay_scan_routes _ _ _ _ _ _ _ _) as [exact generic]. cbn [fst snd] in Se, Sg.
  destruct exact as [|x exact]; [destruct generic as [|y generic]|].
  - intros [= <-]. apply relay_eligible_nodup.
  - intros (k & Hk%satisfied_sub & [= <-])%bind_ok. cbn [choice_sides]. eapply sublist_NoDup; [exact Hs|by etransitivity].
  - intros (k & Hk%satisfied_sub & [= <-])%bind_ok. cbn [choice_sides]. eapply sublist_NoDup; [exact Hs|by etransitivity].
Qed.

(** A planned side is an eligible one, or one that the tables name. *)
Lemma relay_choice_origin now d exclude st c s :
  relay_plan_choice_of now d exclude st = Ok c -> s ∈ choice_sides c ->
  0 <= s \/ s ∈ bt_keys (rl_discovery_routes st) \/ exists id, rl_reliable_return_routes st !! id = Some s.
Proof.
  unfold relay_plan_choice_of. intros ([eps t] & _ & (id & _ & Hc)%bind_ok)%bind_ok.
  assert (forall restrict, s ∈ relay_eligible_side_ids_locked st (Some exclude) (Some t) restrict -> 0 <= s) as He
    by by intros r [? _]%relay_eligible_spec.
  destruct (is_discovery_type t); [injection Hc as <-; intros Hs; left; by apply He in Hs|].
  apply bind_ok in Hc as (preferred & _ & Hc). destruct id as [id|].
  { injection Hc as <-. unfold relay_return_route. destruct (rl_reliable_return_routes st !! id) as [side|] eqn:E; [|by intros ?%elem_of_nil].
    destruct (relay_route_allowed_locked _ _ _ _); cbn; [intros ->%list_elem_of_singleton; eauto|by intros ?%elem_of_nil]. }
  cbn zeta in Hc. destruct (rl_discovery_routes st) as [|e l] eqn:El; [injection Hc as <-; intros Hs; left; by apply He in Hs|].
  revert Hc. unfold relay_discovered_choice. cbn zeta. rewrite El.
  pose proof (relay_scan_sub st exclude t eps (endpoints_are_link_local_only eps) preferred now (e :: l)) as [Se Sg].
  destruct (relay_scan_routes _ _ _ _ _ _ _ _) as [exact generic]. cbn [fst snd] in Se, Sg.
  destruct exact as [|x exact]; [destruct generic as [|y generic]|].
  - intros [= <-] Hs. left. by apply He in Hs.
  - intros (k & Hk%satisfied_sub & [= <-])%bind_ok Hs. right. left. eapply elem_of_sublist; [exact Hs|by etransitivity].
  - intros (k & Hk%satisfied_sub & [= <-])%bind_ok Hs. right. left. eapply elem_of_sublist; [exact Hs|by etransitivity].
Qed.

(** An item that is neither discovery, time-sync nor an end-to-end
    acknowledgement. *)
Definition relay_ordinary (d : RouterItem) (eps : list DataEndpoint) (t : DataType) : Prop :=
  relay_item_route_info d = Ok (eps, t) /\ reliable_control_target_packet_id d = Ok None
  /\ is_discovery_type t = false /\ is_timesync_type t = false.

(** The discovered sides that lead to one of the item's endpoints. *)
Definition relay_known_side (st : RelayInner) (exclude : RouterSideId) (eps : list DataEndpoint) (t : DataType) (now : Z)
    (s : RouterSideId) : Prop :=
  exists route, (s, route) ∈ rl_discovery_routes st
    /\ relay_usable st exclude t (endpoints_are_link_local_only eps) now s route /\ reaches eps route = true.

Lemma ordinary_scan st exclude t eps now l s :
  let '(exact, generic) := relay_scan_routes st exclude t eps (endpoints_are_link_local_only eps) None now l in
  exact = [] /\ (s ∈ generic <-> exists route, (s, route) ∈ l
    /\ relay_usable st exclude t (endpoints_are_link_local_only eps) now s route /\ reaches eps route = true).
Proof.
  pose proof (fun s => relay_scan_spec st exclude t eps (endpoints_are_link_local_only eps) None now l s) as Hs.
  destruct (relay_scan_routes _ _ _ _ _ _ _ _) as [exact generic]. cbn [fst snd serves_source] in Hs. split.
  - destruct exact as [|x exact]; [done|]. destruct (proj1 (proj1 (Hs x)) ltac:(set_solver)) as (? & _ & _ & [=]).
  - rewrite (proj2 (Hs s)). naive_solver.
Qed.

(** The candidates of an ordinary item. *)
Lemma relay_ordinary_choice now d exclude st eps t :
  relay_ordinary d eps t ->
  let known := relay_known_side st exclude eps t now in
  let origin := if is_reliable_type t then Flood else Discovered in
  ((exists s, known s) -> exists k, (forall s, s ∈ k <-> known s) /\ k `sublist_of` bt_keys (rl_discovery_routes st)
     /\ relay_plan_choice_of now d exclude st
        = (l ← filter_end_to_end_satisfied_sides_locked st d k eps t; Ok (Among l origin)))
  /\ ((forall s, ~ known s) -> relay_plan_choice_of now d exclude st
        = Ok (relay_flood st exclude t (endpoints_are_link_local_only eps))).
Proof.
  intros (Hi & Hid & Hd & Ht) known origin.
  assert (relay_preferred_timesync_route_source d t = Ok None) as Hp.
  { unfold relay_preferred_timesync_route_source. unfold is_timesync_type in Ht.
    by destruct (t =? TimeSyncAnnounce), (t =? TimeSyncRequest), (t =? TimeSyncResponse). }
  unfold relay_plan_choice_of, relay_reliable_control_target_packet_id. rewrite Hi. cbn [res_bind mbind res_mbind].
  rewrite Hid. cbn [res_bind mbind res_mbind]. rewrite Hd, Hp. cbn [res_bind mbind res_mbind].
  change (if is_reliable_type t then Flood else Discovered) with origin.
  assert (let c := relay_discovered_choice st d exclude t eps None now origin in
    ((exists s, known s) -> exists k, (forall s, s ∈ k <-> known s) /\ k `sublist_of` bt_keys (rl_discovery_routes st)
       /\ c = (l ← filter_end_to_end_satisfied_sides_locked st d k eps t; Ok (Among l origin)))
    /\ ((forall s, ~ known s) -> c = Ok (relay_flood st exclude t (endpoints_are_link_local_only eps)))) as Hdc.
  { unfold relay_discovered_choice. cbn zeta.
    pose proof (fun s => ordinary_scan st exclude t eps now (rl_discovery_routes st) s) as Hs.
    pose proof (proj2 (relay_scan_sub st exclude t eps (endpoints_are_link_local_only eps) None now (rl_discovery_routes st))) as Hsub.
    destruct (relay_scan_routes _ _ _ _ _ _ _ _) as [exact generic]. cbn [snd] in Hsub.
    destruct (Hs 0) as [-> _]. assert (forall s, s ∈ generic <-> known s) as Hg by (intros s; apply (Hs s)).
    destruct generic as [|y generic].
    - split; [|done]. intros [s Hk%Hg]. by apply elem_of_nil in Hk.
    - split; [eauto|]. intros Hno. exfalso. apply (Hno y), Hg. left. }
  destruct (rl_discovery_routes st) as [|e l] eqn:El; [|by apply Hdc].
  split; [|done]. intros (s & route & Hin & _). rewrite El in Hin. by apply elem_of_nil in Hin.
Qed.

(** Planning changes nothing but the selection cursor of the source. *)
Lemma relay_plan_cursor now d exclude st :
  let st' := fst (relay_remote_side_plan now d exclude st) in
  st' = st \/ exists c, st' = on_common (with_cursor (Some exclude) c) st.
Proof.
  unfold relay_remote_side_plan, relay_apply_route_selection_locked.
  destruct (relay_plan_choice_of now d exclude st) as [[l|l origin]|e|]; try by left.
  destruct (selected_cursor (Some exclude) l origin (common st)) as [Hc|[c Hc]];
    destruct (apply_route_selection_locked (Some exclude) l origin (common st)) as [st1 l1];
    cbn [fst] in *; subst st1; [left; by rewrite with_common_id|eauto].
Qed.

(** The discovered sides that lead to a time source. *)
Definition relay_serving_side (st : RelayInner) (exclude : RouterSideId) (eps : list DataEndpoint) (t : DataType)
    (now : Z) (src : Str) (s : RouterSideId) : Prop :=
  exists route, (s, route) ∈ rl_discovery_routes st
    /\ relay_usable st exclude t (endpoints_are_link_local_only eps) now s route /\ src ∈ side_timesync_sources route.

Lemma relay_discovery_choice now d exclude st eps t o :
  relay_item_route_info d = Ok (eps, t) -> reliable_control_target_packet_id d = Ok o -> is_discovery_type t = true ->
  relay_plan_choice_of now d exclude st
  = Ok (Among (relay_eligible_side_ids_locked st (Some exclude) (Some t) false) Flood).
Proof.
  intros Hi Ho Ht. unfold relay_plan_choice_of, relay_reliable_control_target_packet_id. rewrite Hi. cbn [res_bind mbind res_mbind].
  rewrite Ho. cbn [res_bind mbind res_mbind]. by rewrite Ht.
Qed.

Lemma relay_return_choice now d exclude st eps t id :
  relay_item_route_info d = Ok (eps, t) -> reliable_control_target_packet_id d = Ok (Some id) ->
  is_discovery_type t = false -> is_timesync_type t = false ->
  exists l, relay_plan_choice_of now d exclude st = Ok (Exactly l)
  /\ (forall side, rl_reliable_return_routes st !! id = Some side -> relay_policy st (Some exclude) (Some t) side -> l = [side])
  /\ ((forall side, rl_reliable_return_routes st !! id = Some side -> ~ relay_policy st (Some exclude) (Some t) side) -> l = []).
Proof.
  intros Hi Ho Hd Ht. unfold relay_plan_choice_of, relay_reliable_control_target_packet_id. rewrite Hi.
  cbn [res_bind mbind res_mbind]. rewrite Ho. cbn [res_bind mbind res_mbind]. rewrite Hd.
  assert (relay_preferred_timesync_route_source d t = Ok None) as ->.
  { unfold relay_preferred_timesync_route_source. unfold is_timesync_type in Ht.
    by destruct (t =? TimeSyncAnnounce), (t =? TimeSyncRequest), (t =? TimeSyncResponse). }
  cbn [res_bind mbind res_mbind]. unfold relay_return_route.
  destruct (rl_reliable_return_routes st !! id) as [side|].
  - destruct (relay_route_allowed_locked st (Some exclude) (Some t) side) eqn:Ha; (eexists; split; [reflexivity|]);
      (split; [intros x [= <-]|intros Hn]).
    + done.
    + destruct (Hn side eq_refl). by apply relay_allowed_spec.
    + intros Hp%relay_allowed_spec. congruence.
    + done.
  - eexists. split; [reflexivity|]. split; [by intros x [=]|done].
Qed.

Lemma relay_serving_choice now d exclude st eps t src :
  relay_item_route_info d = Ok (eps, t) -> reliable_control_target_packet_id d = Ok None -> is_discovery_type t = false ->
  is_reliable_type t = false -> relay_preferred_timesync_route_source d t = Ok (Some src) ->
  (exists s, relay_serving_side st exclude eps t now src s) ->
  exists k, relay_plan_choice_of now d exclude st = Ok (Among k Discovered)
  /\ k `sublist_of` bt_keys (rl_discovery_routes st) /\ forall s, s ∈ k <-> relay_serving_side st exclude eps t now src s.
Proof.
  intros Hi Ho Hd Hr Hp [s0 Hs0]. unfold relay_plan_choice_of, relay_reliable_control_target_packet_id. rewrite Hi.
  cbn [res_bind mbind res_mbind]. rewrite Ho. cbn [res_bind mbind res_mbind]. rewrite Hd, Hp, Hr. cbn [res_bind mbind res_mbind].
  assert (exists k, relay_discovered_choice st d exclude t eps (Some src) now Discovered = Ok (Among k Discovered)
    /\ k `sublist_of` bt_keys (rl_discovery_routes st) /\ forall s, s ∈ k <-> relay_serving_side st exclude eps t now src s) as Hk.
  { unfold relay_discovered_choice. cbn zeta.
    pose proof (fun s => relay_scan_spec st exclude t eps (endpoints_are_link_local_only eps) (Some src) now (rl_discovery_routes st) s) as Hs.
    pose proof (proj1 (relay_scan_sub st exclude t eps (endpoints_are_link_local_only eps) (Some src) now (rl_discovery_routes st))) as Hsub.
    destruct (relay_scan_routes _ _ _ _ _ _ _ _) as [exact generic]. cbn [fst snd serves_source] in Hs, Hsub.
    assert (forall s, s ∈ exact <-> relay_serving_side st exclude eps t now src s) as He.
    { intros s. rewrite (proj1 (Hs s)). unfold relay_serving_side. by setoid_rewrite bool_decide_eq_true. }
    destruct exact as [|x exact]; [by apply He, elem_of_nil in Hs0|].
    unfold filter_end_to_end_satisfied_sides_locked. rewrite Hr. cbn [negb res_bind mbind res_mbind]. eauto. }
  destruct (rl_discovery_routes st) as [|e l] eqn:El; [|exact Hk].
  destruct Hs0 as (route & Hin & _). rewrite El in Hin. by apply elem_of_nil in Hin.
Qed.

Lemma relay_planned_sides now d exclude st :
  bt_sorted (rl_discovery_routes st) -> weights_ok (common st) ->
  sum_weights (adaptive_weight (common st)) (bt_keys (rl_discovery_routes st)) < 2 ^ 64 ->
  let '(st', r) := relay_remote_side_plan now d exclude st in
  (st' = st \/ exists c, st' = on_common (with_cursor (Some exclude) c) st)
  /\ (forall l, r = Ok l -> NoDup l /\ relay_plan_safe st exclude d l)
  /\ (forall eps t, relay_ordinary d eps t -> rl_source_route_modes st !! Some exclude = None ->
      let known := relay_known_side st exclude eps t now in
      ((exists s, known s) ->
         if is_reliable_type t then
           forall id, relay_packet_id d = Ok id ->
           exists l, r = Ok l /\ forall s, s ∈ l <-> known s /\ side_waits st eps id s
         else exists s, r = Ok [s] /\ known s)
      /\ ((forall s, ~ known s) ->
          r = Ok (relay_eligible_side_ids_locked st (Some exclude) (Some t) (endpoints_are_link_local_only eps)))).
Proof.
  intros Hsorted Hok Hsum. destruct (relay_remote_side_plan now d exclude st) as [st' r] eqn:E.
  unfold relay_remote_side_plan, relay_apply_route_selection_locked in E.
  assert (match relay_plan_choice_of now d exclude st with
          | Ok (Exactly l) => st' = st /\ r = Ok l
          | Ok (Among l origin) =>
              (st' = st \/ exists c, st' = on_common (with_cursor (Some exclude) c) st)
              /\ r = Ok (snd (apply_route_selection_locked (Some exclude) l origin (common st)))
          | Err e => st' = st /\ r = Err e | Panic => st' = st /\ r = Panic
          end) as Hr.
  { destruct (relay_plan_choice_of now d exclude st) as [[l|l origin]|e|]; try (by injection E as <- <-).
    destruct (selected_cursor (Some exclude) l origin (common st)) as [Hc|[c Hc]];
      destruct (apply_route_selection_locked (Some exclude) l origin (common st)) as [st1 l1];
      cbn [fst] in Hc; subst st1; injection E as <- <-; (split; [|done]); [left; by rewrite with_common_id|eauto]. }
  clear E. split.
  { destruct (relay_plan_choice_of now d exclude st) as [[l|l origin]|e|]; naive_solver. }
  split.
  - intros l ->. destruct (relay_plan_choice_of now d exclude st) as [c|e|] eqn:Ec; [|naive_solver..].
    pose proof (relay_choice_nodup _ _ _ _ _ Hsorted Ec) as Hnd. pose proof (relay_choice_safe _ _ _ _ _ Ec) as Hs.
    destruct c as [k|k origin]; cbn [choice_sides] in *; destruct Hr as [_ [= ->]]; [done|].
    split; [by apply selected_nodup|]. destruct Hs as (eps & t & Hi & Hp & Hl). exists eps, t.
    split; [done|]. split; [intros s Hin%selected_sub; by apply Hp|]. intros H1' H2' H3' s Hin%selected_sub. by apply Hl.
  - intros eps t Ho Hm known. destruct (relay_ordinary_choice now d exclude st eps t Ho) as [Hk Hu]. fold known in Hk, Hu. split.
    + intros Hex. destruct (Hk Hex) as (k & Hks & Hsub & Hc). destruct Hex as [s0 Hs0%Hks]. destruct Ho as (_ & Hid & _).
      destruct (is_reliable_type t) eqn:Ht.
      * intros id Hp. destruct (satisfied_spec st d k eps t id Ht Hid Hp) as (l & Hl & Hin). rewrite Hl in Hc. cbn in Hc.
        rewrite Hc in Hr. destruct Hr as [_ ->]. rewrite select_flood by done. exists l. split; [done|].
        intros s. by rewrite Hin, Hks.
      * assert (filter_end_to_end_satisfied_sides_locked st d k eps t = Ok k) as Hl
          by (unfold filter_end_to_end_satisfied_sides_locked; by rewrite Ht).
        rewrite Hl in Hc. cbn in Hc. rewrite Hc in Hr. destruct Hr as [_ ->].
        pose proof (sum_weights_sublist (adaptive_weight (common st)) _ _
          ltac:(intros s; pose proof (adaptive_weight_pos (common st) s); lia) Hsub) as Hle.
        destruct (modeless_selection (common st) (Some exclude) k Discovered s0 Hm Hok ltac:(lia) Hs0) as (x & -> & Hx).
        exists x. by rewrite <- Hks.
    + intros Hno. rewrite (Hu Hno) in Hr. unfold relay_flood in Hr. destruct Hr as [_ ->]. by rewrite select_flood.
Qed.

End Planning.

(** ** Witnesses *)

(** A relay with three sides, two of which lead to endpoint 0. *)
Definition relay_three_sides : RelayInner :=
  let add name st := fst (relay_add_side (lit name) HSerialized side_options_default 0 st) in
  add "C" (add "B" (add "A" fresh_relay)).

Definition route_to (board : string) : DiscoverySideState :=
  {| reachable := [0]; side_timesync_sources := []; side_last_seen_ms := 5;
     announcers := [(lit board, {| ds_reachable := [0]; ds_timesync_sources := [];
                       topology_boards := [board_of board [0] []]; ds_last_seen_ms := 5 |})] |}.

Definition relay_discovered : RelayInner :=
  on_common (set_discovery_routes [(1, route_to "GPS1"); (2, route_to "GPS2")]) relay_three_sides.

Definition gps_id : Z := match @packet_id default_schema gps_packet with Ok id => id | _ => 0 end.

(** The same, after an acknowledgement by GPS1. *)
Definition relay_acknowledged : RelayInner :=
  @note_end_to_end_acked_destination_locked default_config gps_id (sender_hash (lit "GPS1")) relay_discovered.

Definition plan_gps (st : RelayInner) : TelemetryResult (list RouterSideId) :=
  snd (@relay_remote_side_plan default_config default_schema run_external 7 (RPacket gps_packet) 0 st).

