(* ===== verification/RelayTopology.v ===== *)
(** * The topology a relay learns and announces ([src/relay.rs])

    A relay has no endpoints and no clock of its own to offer: what it announces
    is what it has learned, with itself as a connection.  Learning, expiry and
    summaries are the router's ([Topology], [Announce]); after both the relay
    forgets acknowledgements of destinations no board announces any more. *)

From stdpp Require Import gmap.
From S2P Require Import Prelude Ordered Telemetry Config Schema Queue SmallPayload Wire Packet Serialize TimeSync Discovery RouterState Routes Reliable Plan Topology EndToEnd Announce RelayState RelayPlan.

Definition RELAY : Str := lit "RELAY".

(** What of a router's identity the shared code looks at: the name. *)
Definition relay_self : Router :=
  {| router_sender := RELAY;
     router_cfg := {| handlers := []; cfg_reliable_enabled := true; cfg_sender := Some RELAY; cfg_timesync := None |} |}.

Section RelayAdvertise.
Context `{Config} `{Schema}.

Definition relay_local_discovery_topology_board (st : RelayInner) (now : Z) : TopologyBoardNode :=
  {| sender_id := RELAY; reachable_endpoints := []; reachable_timesync_sources := [];
     connections := sort_dedup (map fst (live_announcers (common st) now)) |}.

Definition relay_advertised_discovery_topology_for_link_locked (st : RelayInner) (now : Z)
    (link_local_enabled : bool) : list TopologyBoardNode :=
  normalize_topology_boards
    (foldl (fun boards e => merge_topology_boards boards
              (announcer_boards relay_self link_local_enabled (fst e) (snd e)))
       [relay_local_discovery_topology_board st now] (live_announcers (common st) now)).

Definition relay_advertised_discovery_endpoints_for_link_locked (st : RelayInner) (now : Z)
    (link_local_enabled : bool) : list DataEndpoint :=
  List.filter (fun ep => negb (is_discovery_endpoint ep) && (link_local_enabled || negb (is_link_local_only ep)))
    (fst (summarize_topology_boards
            (relay_advertised_discovery_topology_for_link_locked st now link_local_enabled))).

Definition relay_advertised_discovery_timesync_sources_for_link_locked (st : RelayInner) (now : Z) : list Str :=
  snd (summarize_topology_boards (relay_advertised_discovery_topology_for_link_locked st now true)).
End RelayAdvertise.

(** [true] when something expired. *)
Definition relay_prune_discovery_routes_locked (now : Z) (st : RelayInner) : RelayInner * bool :=
  let '(c, changed) := prune_discovery_routes_locked now (common st) in (with_common c st, changed).

Section RelayDiscovery.
Context `{Config} `{Schema} `{External} `{Layout} `{RelayLayout}.

(** The head of announcing and polling: expiry, its consequences, the budget. *)
Definition relay_prune_and_reconcile (now : Z) (st : RelayInner) : RelayInner :=
  let '(st, changed) := relay_prune_discovery_routes_locked now st in
  let st := if changed then
              relay_note_discovery_topology_change_locked now (reconcile_end_to_end_acked_destinations_locked st)
            else st in
  relay_fit_discovery_budget st.

(** ** Announcing *)

Definition relay_side_announcement (st : RelayInner) (now : Z) (side : RouterSideId) : Announcement :=
  let ll := side_link_local (common st) side in
  {| an_side := side;
     an_endpoints := relay_advertised_discovery_endpoints_for_link_locked st now ll;
     an_sources := relay_advertised_discovery_timesync_sources_for_link_locked st now;
     an_topology := relay_advertised_discovery_topology_for_link_locked st now ll |}.

Definition relay_announcements (st : RelayInner) (now : Z) : list Announcement :=
  map (relay_side_announcement st now) (relay_eligible_side_ids_locked st None (Some DiscoveryAnnounce) false).

Definition relay_queue_packet (side : RouterSideId) (pkt : Packet) : LM unit :=
  prio ← relay_lift (relay_item_priority (RPacket pkt));
  push_tx {| rtx_src := None; rtx_dst := side; rtx_data := RPacket pkt; rtx_priority := prio |}.

Definition relay_queue_built {A} (side : RouterSideId) (l : list A) (build : list A -> TelemetryResult Packet) : LM unit :=
  match l with
  | [] => mret tt
  | _ => pkt ← relay_lift (build l); relay_queue_packet side pkt
  end.

Definition relay_queue_announcement (now : Z) (a : Announcement) : LM unit :=
  _ ← relay_queue_built (an_side a) (an_endpoints a) (build_discovery_announce RELAY now);
  _ ← relay_queue_built (an_side a) (an_sources a) (build_discovery_timesync_sources RELAY now);
  relay_queue_built (an_side a) (an_topology a) (build_discovery_topology RELAY now).

Fixpoint relay_queue_announcements (now : Z) (l : list Announcement) : LM unit :=
  match l with
  | [] => mret tt
  | a :: l => _ ← relay_queue_announcement now a; relay_queue_announcements now l
  end.

Definition no_relay_side (st : RelayInner) : bool := forallb (fun s => negb (is_some s)) (rl_sides st).

Definition relay_queue_discovery_announce (now : Z) : LM unit :=
  _ ← relay_modify (relay_prune_and_reconcile now);
  none ← relay_get no_relay_side;
  if none : bool then mret tt
  else
    _ ← relay_modify (on_common (fun c => set_discovery_cadence (on_announce_sent (discovery_cadence c) now) c));
    l ← relay_get (fun st => relay_announcements st now);
    relay_queue_announcements now l.

(** [now'] is the clock reading of the announcement itself. *)
Definition relay_poll_discovery_announce (now now' : Z) : LM bool :=
  _ ← relay_modify (relay_prune_and_reconcile now);
  has_any ← relay_get (fun st => existsb announces_something (relay_announcements st now));
  none ← relay_get no_relay_side;
  if (none : bool) || negb has_any then mret false
  else
    is_due ← relay_get (fun st => due (rl_discovery_cadence st) now);
    if negb is_due then mret false
    else _ ← relay_queue_discovery_announce now'; mret true.

(** ** Learning *)

(** The discovery packet an item is, if it is one. *)
Definition discovery_packet_of (d : RouterItem) : TelemetryResult (option Packet) :=
  match d with
  | RPacket pkt => Ok (if is_discovery_type (ty pkt) then Some pkt else None)
  | RSerialized bytes =>
      env ← peek_envelope bytes;
      if is_discovery_type (env_ty env) then pkt ← deserialize_packet bytes; Ok (Some pkt) else Ok None
  end.

Definition relay_store_sender (now : Z) (side : RouterSideId) (name : Str) (s : DiscoverySenderState) (changed : bool)
    (st : RelayInner) : RelayInner :=
  let st := relay_fit_discovery_budget (on_common (store_sender now side name s) st) in
  let st := if changed then relay_note_discovery_topology_change_locked now st else st in
  reconcile_end_to_end_acked_destinations_locked (fst (relay_prune_discovery_routes_locked now st)).

Definition learn_discovery_item (now : Z) (src : RouterSideId) (d : RouterItem) : LM unit :=
  pkt ← relay_lift (discovery_packet_of d);
  match pkt with
  | None => mret tt
  | Some pkt =>
      learnt ← (fun st => (st, learn_from_packet (side_link_local (common st) src) pkt
                                 (sender_state_of (common st) src (sender pkt)))) : LM (bool * DiscoverySenderState);
      relay_modify (relay_store_sender now src (sender pkt) (snd learnt) (fst learnt))
  end.

(** ** The snapshot *)

Definition relay_export_topology (now : Z) (st : RelayInner) : RelayInner * TopologySnapshot :=
  let '(st, changed) := relay_prune_discovery_routes_locked now st in
  let st := if changed then
              relay_note_discovery_topology_change_locked now (reconcile_end_to_end_acked_destinations_locked st)
            else st in
  (st, {| ts_advertised_endpoints := relay_advertised_discovery_endpoints_for_link_locked st now true;
          ts_advertised_timesync_sources := relay_advertised_discovery_timesync_sources_for_link_locked st now;
          ts_routers := relay_advertised_discovery_topology_for_link_locked st now true;
          ts_routes := side_routes (relay_side_at st) now (rl_discovery_routes st);
          ts_current_announce_interval_ms := current_interval_ms (rl_discovery_cadence st);
          ts_next_announce_ms := next_announce_ms (rl_discovery_cadence st) |}).
End RelayDiscovery.
