(* ===== verification/RelayLink.v ===== *)
(** * A relay's links ([src/relay.rs])

    Per-hop reliable delivery at a relay: control packets, acknowledgements,
    retransmission, and handing items to the side callbacks.  The sender and
    receiver states and the steps on them are those of [Reliable]; a relay calls
    a callback once where a router retries, queues replays in a queue of their
    own, and is named RELAY. *)

From stdpp Require Import gmap.
From S2P Require Import Prelude Ordered Telemetry Config Schema Queue SmallPayload Wire Packet Serialize TimeSync Discovery RouterState Routes Reliable Plan Topology EndToEnd Announce RelayState RelayPlan RelayTopology.

Section RelayLink.
Context `{Config} `{Schema} `{External} `{Layout} `{RelayLayout}.

(** ** Control packets *)

Definition relay_reliable_control_packet (ts : Z) (control_ty t : DataType) (seq : Z) : TelemetryResult Packet :=
  packet_new control_ty (endpoints (message_meta control_ty)) RELAY ts (encode_slice_le PU32 [t; seq]).

(** [queue_reliable_ack], [.._packet_request] and [.._partial_ack]. *)
Definition relay_queue_reliable_control (ts : Z) (control_ty : DataType) (side : RouterSideId) (t : DataType)
    (seq : Z) : LM unit :=
  pkt ← relay_lift (relay_reliable_control_packet ts control_ty t seq); relay_queue_packet side pkt.

Definition relay_handle_reliable_ack (side : RouterSideId) (t : DataType) (ack : Z) : LM unit :=
  via (handle_reliable_ack side t ack).

Definition relay_handle_reliable_partial_ack (side : RouterSideId) (t : DataType) (seq : Z) : LM unit :=
  via (handle_reliable_partial_ack side t seq).

Definition relay_queue_reliable_retransmit (side : RouterSideId) (t : DataType) (seq : Z) : LM unit := fun st =>
  let key := reliable_key side t in
  let '(tx, found) := retransmit_state seq (tx_state key (common st)) in
  let st := on_common (update_tx key (fun _ => tx)) st in
  match found with
  | Some bytes => push_replay {| rp_dst := side; rp_bytes := bytes; rp_priority := message_priority_bumped t |} st
  | None => (st, Ok tt)
  end.

Fixpoint relay_requeue_all (l : list (RouterSideId * DataType * Z)) : LM unit :=
  match l with
  | [] => mret tt
  | (side, t, seq) :: l => _ ← relay_queue_reliable_retransmit side t seq; relay_requeue_all l
  end.

Definition relay_process_reliable_timeouts (now : Z) : LM unit := fun st =>
  let '(links, requeue) := scan_links now (rl_reliable_tx st) in
  relay_requeue_all requeue (on_common (set_reliable_tx links) st).

(** ** Sending *)

Definition relay_side_has_multiple_announcers_locked (st : RelayInner) (side : RouterSideId) (now : Z) : bool :=
  side_has_multiple_announcers_locked (common st) side now.

Definition relay_hop_reliable (st : RelayInner) (s : RouterSide) (side : RouterSideId) (now : Z) : bool :=
  reliable_enabled (opts s) && negb (relay_side_has_multiple_announcers_locked st side now).

(** Unlike the router's, a frame that does not parse is passed on as it is. *)
Definition relay_adjust_reliable_for_side (side_reliable : bool) (d : RouterItem) : TelemetryResult (option RouterItem) :=
  if side_reliable then Ok (Some d)
  else match d with
  | RSerialized bytes =>
      match peek_frame_info bytes with
      | Ok frame =>
          match fi_reliable frame with
          | Some hdr =>
              if negb (is_reliable_type (env_ty (envelope frame))) then Ok (Some (RSerialized bytes))
              else if has_flag (rh_flags hdr) RELIABLE_FLAG_ACK_ONLY then Ok None
              else if negb (has_flag (rh_flags hdr) RELIABLE_FLAG_UNSEQUENCED) then
                '(_, v) ← rewrite_reliable_header bytes RELIABLE_FLAG_UNSEQUENCED (rh_seq hdr) 0;
                Ok (Some (RSerialized v))
              else Ok (Some (RSerialized bytes))
          | None => Ok (Some (RSerialized bytes))
          end
      | Err _ => Ok (Some (RSerialized bytes))
      | Panic => Panic
      end
  | RPacket pkt => if is_reliable_control_type (ty pkt) then Ok None else Ok (Some (RPacket pkt))
  end.

Definition relay_sample (call : SideCall) (side : RouterSideId) (bytes : Z) : LM unit :=
  relay_modify (relay_record_side_tx_sample side bytes (started_ms call) (ended_ms call)).

(** The callback with what it takes: its one answer is attempt 0. *)
Definition relay_callback (call : SideCall) (handler : RouterTxHandlerFn) (d : RouterItem) : TelemetryResult unit :=
  match handler, d with
  | HSerialized, RSerialized bytes => on_bytes call 0 bytes
  | HPacket, RPacket pkt => on_packet call 0 pkt
  | HSerialized, RPacket pkt => owned ← serialize_packet pkt; on_bytes call 0 owned
  | HPacket, RSerialized bytes => pkt ← deserialize_packet bytes; on_packet call 0 pkt
  end.

Definition relay_call_tx_handler (call : SideCall) (side : RouterSideId) (handler : RouterTxHandlerFn) (d : RouterItem)
    : LM unit :=
  if side_busy call then relay_lift (Err side_tx_busy)
  else
    _ ← relay_lift (relay_callback call handler d);
    match router_item_wire_len d with
    | Ok n => relay_sample call side n
    | Err _ => mret tt
    | Panic => relay_lift Panic
    end.

Definition relay_call_with_bytes (call : SideCall) (side : RouterSideId) (bytes : list byte) : LM unit :=
  if side_busy call then relay_lift (Err side_tx_busy)
  else _ ← relay_lift (on_bytes call 0 bytes); relay_sample call side (blen bytes).

Definition relay_allocate_seq (side : RouterSideId) (t : DataType) : LM (Z * Z) := fun st =>
  let key := reliable_key side t in
  let tx := tx_state key (common st) in
  let st := on_common (update_tx key (fun tx => tx)) st in
  if RELIABLE_MAX_PENDING <=? nlen (tx_sent tx) then
    (st, Err (PacketTooLarge "relay reliable history full"))
  else
    (on_common (update_tx key (fun tx => {| next_seq := seq_after (next_seq tx); sent_order := sent_order tx;
                                            tx_sent := tx_sent tx |})) st,
     Ok (next_seq tx, match reliable_mode t with Unordered => RELIABLE_FLAG_UNORDERED | _ => 0 end)).

(** The sequenced branch; [sent_ms] is the clock after the transmission. *)
Definition relay_send_sequenced (call : SideCall) (side : RouterSideId) (t : DataType) (d : RouterItem) (sent_ms : Z)
    : LM unit :=
  '(seq, flags) ← relay_allocate_seq side t;
  '(tracked, bytes) ← relay_lift (sequenced_frame d flags seq);
  _ ← relay_call_with_bytes call side bytes;
  if tracked : bool then relay_modify (on_common (record_sent side t seq bytes sent_ms)) else mret tt.

(** Before transmitting; an item whose type cannot be read goes out as it is. *)
Definition relay_plan_send (side : RouterSideId) (d : RouterItem) (now : Z) (st : RelayInner) : TelemetryResult send_plan :=
  s ← relay_side_ref st side;
  match tx_handler s with
  | HPacket => Ok (CallHandler d)
  | HSerialized =>
      if negb (relay_hop_reliable st s side now) then
        o ← relay_adjust_reliable_for_side false d; Ok (plan_adjusted o)
      else
        match item_type d with
        | Ok t =>
            if negb (is_reliable_type t) then
              o ← relay_adjust_reliable_for_side (reliable_enabled (opts s)) d; Ok (plan_adjusted o)
            else Ok (Sequenced t)
        | Err _ => Ok (CallHandler d)
        | Panic => Panic
        end
  end.

Definition relay_send_reliable_to_side (call : SideCall) (side : RouterSideId) (d : RouterItem) (now sent_ms : Z)
    : LM unit :=
  s ← (fun st => (st, relay_side_ref st side)) : LM RouterSide;
  plan ← (fun st => (st, relay_plan_send side d now st)) : LM send_plan;
  match plan with
  | CallHandler d => relay_call_tx_handler call side (tx_handler s) d
  | Sequenced t => relay_send_sequenced call side t d sent_ms
  | SendNothing => mret tt
  end.

(** [send_tx_item] first asks the policy ... *)
Definition relay_tx_allowed (src : option RouterSideId) (dst : RouterSideId) (d : RouterItem) : LM bool :=
  t ← relay_lift (match d with
                  | RPacket pkt => Ok (ty pkt)
                  | RSerialized bytes => env ← peek_envelope bytes; Ok (env_ty env)
                  end);
  relay_get (fun st => relay_route_allowed_locked st src (Some t) dst).

(** ... and then sends over the hop; [false] is an item dropped. *)
Definition relay_transmit (call : SideCall) (dst : RouterSideId) (handler : RouterTxHandlerFn) (o : RouterSideOptions)
    (d : RouterItem) (now sent_ms : Z) : LM bool :=
  if reliable_enabled o && match handler with HSerialized => true | HPacket => false end then
    _ ← relay_send_reliable_to_side call dst d now sent_ms; mret true
  else
    adjusted ← relay_lift (relay_adjust_reliable_for_side (reliable_enabled o) d);
    match adjusted with
    | Some d => _ ← relay_call_tx_handler call dst handler d; mret true
    | None => mret false
    end.

(** ** Replays *)

Definition relay_send_reliable_raw_to_side (call : SideCall) (side : RouterSideId) (bytes : list byte) : LM unit :=
  s ← (fun st => (st, relay_side_ref st side)) : LM RouterSide;
  if negb (egress_enabled (opts s)) then mret tt
  else if side_busy call then relay_lift (Err side_tx_busy)
  else
    _ ← relay_lift (relay_callback call (tx_handler s) (RSerialized bytes));
    relay_sample call side (blen bytes).

Definition relay_on_busy (m : LM bool) (busy : LM bool) : LM bool := fun st =>
  match m st with
  | (st, Err e) => if is_side_tx_busy e then busy st else (st, Err e)
  | r => r
  end.

Definition pop_replay : LM (option RelayReplayItem) := fun st =>
  let '(o, d) := pop_front (rl_replay_queue st) in (set_rl_replay_queue d st, Ok o).

(** The link and sequence of a replay that is still waited for. *)
Definition replay_target (i : RelayReplayItem) : LM (option ((RouterSideId * Z) * Z)) :=
  frame ← relay_lift (peek_frame_info (rp_bytes i));
  match fi_reliable frame with
  | None => mret None
  | Some hdr =>
      let key := reliable_key (rp_dst i) (env_ty (envelope frame)) in
      known ← via (replay_known key (rh_seq hdr));
      mret (if (known : bool) then Some (key, rh_seq hdr) else None)
  end.

(** The transmission of a replay; a busy side queues it again. *)
Definition send_replay (call : SideCall) (now : Z) (i : RelayReplayItem) (key : RouterSideId * Z) (seq : Z) : LM bool :=
  relay_on_busy
    (_ ← relay_send_reliable_raw_to_side call (rp_dst i) (rp_bytes i);
     _ ← relay_modify (on_common (update_tx key (replay_sent_state seq now)));
     mret true)
    (_ ← push_replay i; mret false).

(** ** Receiving *)

(** The locked block on a sequenced ordered frame. *)
Definition relay_hop_ordered_state (src : RouterSideId) (t : DataType) (seq : Z) (bytes : list byte) : LM verdict :=
  let key := reliable_key src t in
  rx ← via (touch_rx key);
  if expected_seq rx <? seq then
    _ ← relay_buffer_reliable_rx src t seq bytes; mret (GapFrame (expected_seq rx))
  else
    let '(rx', v) := recv_ordered seq bytes rx in
    _ ← relay_modify (on_common (update_rx key (fun _ => rx'))); mret v.

(** The identity a received item is remembered by; the sequence number of a
    reliable frame is part of it. *)
Definition relay_reliable_seq (bytes : list byte) : option Z :=
  match peek_frame_info bytes with
  | Ok frame =>
      match fi_reliable frame with
      | Some hdr => if has_flag (rh_flags hdr) RELIABLE_FLAG_ACK_ONLY then None else Some (rh_seq hdr)
      | None => None
      end
  | _ => None
  end.

Definition relay_get_hash (d : RouterItem) : TelemetryResult Z :=
  match d with
  | RPacket pkt => packet_id pkt
  | RSerialized bytes =>
      match packet_id_from_wire bytes with
      | Ok id => Ok (match relay_reliable_seq bytes with
                     | Some seq => hash_bytes_u64 id (le_bytes 4 seq)
                     | None => id
                     end)
      | Err _ => Ok (hash_bytes_u64 HASH_SEED bytes)
      | Panic => Panic
      end
  end.

Definition relay_is_duplicate_pkt (d : RouterItem) : LM bool :=
  id ← relay_lift (relay_get_hash d);
  seen ← relay_get (fun st => contains Z.eqb (rl_recent_rx st) id);
  if (seen : bool) then mret true else _ ← relay_push_recent_rx id; mret false.
End RelayLink.
