(* ===== verification/RelayRun.v ===== *)
(** * A relay at work ([src/relay.rs])

    The whole relay in its environment: receiving from a side, forwarding to the
    planned sides, and the loops that drain its queues.  The environment is that
    of [World]: a clock, the side callbacks, and whether another transmission is
    on the stack.  A loop runs with [fuel] rounds; running out of it is a
    [Panic], a loop the source would go on with. *)

From stdpp Require Import gmap.
From S2P Require Import Prelude Ordered Telemetry Config Schema Queue SmallPayload Wire Packet Serialize TimeSync Discovery RouterState Routes Reliable Plan Topology EndToEnd Announce World RelayState RelayPlan RelayTopology RelayLink.

(** ** State and computations *)

Record RelayWorld := { relay_state : RelayInner; relay_tick : Z; relay_events : list Event }.

Definition LW (A : Type) : Type := RelayWorld -> RelayWorld * TelemetryResult A.

#[export] Instance LW_bind : MBind LW := fun A B f m w =>
  let '(w, r) := m w in
  match r with Ok a => f a w | Err e => (w, Err e) | Panic => (w, Panic) end.
#[export] Instance LW_ret : MRet LW := fun A a w => (w, Ok a).

Lemma LW_run {A B} (m : LW A) (f : A -> LW B) w :
  (m ≫= f) w = match m w with
               | (w, Ok a) => f a w | (w, Err e) => (w, Err e) | (w, Panic) => (w, Panic)
               end.
Proof. unfold mbind, LW_bind. by destruct (m w) as [w' []]. Qed.

(** One critical section of the relay's lock. *)
Definition relay_locked {A} (m : LM A) : LW A := fun w =>
  let '(st, r) := m (relay_state w) in
  ({| relay_state := st; relay_tick := relay_tick w; relay_events := relay_events w |}, r).

Definition relay_ask {A} (f : Z -> A) : LW A := fun w =>
  ({| relay_state := relay_state w; relay_tick := relay_tick w + 1; relay_events := relay_events w |}, Ok (f (relay_tick w))).

Definition relay_answer {A} (r : TelemetryResult A) : LW A := fun w => (w, r).

Definition relay_log (e : Event) : LW unit := fun w =>
  ({| relay_state := relay_state w; relay_tick := relay_tick w; relay_events := relay_events w ++ [e] |}, Ok tt).

Section RelayRun.
Context `{Config} `{Schema} `{External} `{Layout} `{RelayLayout}.
Context (env : Environment).

Definition relay_now : LW Z := relay_ask (fun n => ms_at env n 0).

Definition relay_side_call (side : RouterSideId) : LW SideCall := relay_ask (fun n =>
  {| side_busy := gate_busy env n;
     on_bytes := fun i bytes => side_answer env n side i (ArgBytes bytes);
     on_packet := fun i pkt => side_answer env n side i (ArgPacket pkt);
     started_ms := ms_at env n 0; ended_ms := ms_at env n 1 |}).

Definition relay_queue_control (control_ty : DataType) (side : RouterSideId) (t : DataType) (seq : Z) : LW unit :=
  ts ← relay_now; relay_locked (relay_queue_reliable_control ts control_ty side t seq).

Definition relay_plan (d : RouterItem) (src : RouterSideId) : LW (list RouterSideId) :=
  now ← relay_now; relay_locked (relay_remote_side_plan now d src).

(** ** Receiving *)

(** The return route of a reliable item, before anything else. *)
Definition relay_note_return_route (src : RouterSideId) (d : RouterItem) : LM unit :=
  match d with
  | RPacket pkt =>
      if is_reliable_type (ty pkt) && negb (is_internal_control_type (ty pkt)) then
        id ← relay_lift (packet_id pkt); relay_modify (relay_note_reliable_return_route src id)
      else mret tt
  | RSerialized bytes =>
      match peek_envelope bytes with
      | Ok en =>
          if is_reliable_type (env_ty en) && negb (is_internal_control_type (env_ty en)) then
            match packet_id_from_wire bytes with
            | Ok id => relay_modify (relay_note_reliable_return_route src id)
            | Err _ => mret tt
            | Panic => relay_lift Panic
            end
          else mret tt
      | Err _ => mret tt
      | Panic => relay_lift Panic
      end
  end.

(** A frame whose checksum fails may still name the sequence to ask for. *)
Definition relay_hop_corrupt (src : RouterSideId) (bytes : list byte) (e : TelemetryError) : LW hop_result :=
  match peek_frame_info_unchecked bytes with
  | Ok frame =>
      let t := env_ty (envelope frame) in
      match fi_reliable frame with
      | Some hdr =>
          if negb (is_reliable_type t) || has_flag (rh_flags hdr) RELIABLE_FLAG_UNSEQUENCED then mret HopStop
          else
            requested ← (if has_flag (rh_flags hdr) RELIABLE_FLAG_UNORDERED then mret (rh_seq hdr)
                         else rx ← relay_locked (via (touch_rx (reliable_key src t)));
                              mret (Z.min (expected_seq rx) (rh_seq hdr)));
            _ ← relay_queue_control ReliablePacketRequest src t requested;
            mret HopStop
      | None => mret HopStop
      end
  | Err _ => relay_answer (Err e)
  | Panic => relay_answer Panic
  end.

Definition relay_hop_ordered (src : RouterSideId) (t : DataType) (seq : Z) (bytes : list byte) : LW hop_result :=
  v ← relay_locked (relay_hop_ordered_state src t seq bytes);
  match v with
  | OldFrame ack => _ ← relay_queue_control ReliableAck src t ack; mret HopStop
  | GapFrame expected =>
      _ ← relay_queue_control ReliablePartialAck src t seq;
      _ ← relay_queue_control ReliablePacketRequest src t expected;
      mret HopStop
  | InOrder released last => _ ← relay_queue_control ReliableAck src t last; mret (HopContinue released)
  end.

Definition relay_hop_sequenced (src : RouterSideId) (t : DataType) (hdr : ReliableHeader) (bytes : list byte)
    : LW hop_result :=
  if has_flag (rh_flags hdr) RELIABLE_FLAG_UNSEQUENCED then mret (HopContinue [])
  else if has_flag (rh_flags hdr) RELIABLE_FLAG_UNORDERED then
    _ ← relay_queue_control ReliableAck src t (rh_seq hdr); mret (HopContinue [])
  else relay_hop_ordered src t (rh_seq hdr) bytes.

(** The section on serialized items. *)
Definition relay_hop_receive (src : RouterSideId) (bytes : list byte) : LW hop_result :=
  now ← relay_now;
  s ← relay_locked (fun st => (st, relay_side_ref st src));
  hop ← relay_locked (relay_get (fun st => relay_hop_reliable st s src now
                         && match tx_handler s with HSerialized => true | HPacket => false end));
  match peek_frame_info bytes with
  | Ok frame =>
      match fi_reliable frame with
      | Some hdr =>
          if (hop : bool) && is_reliable_type (env_ty (envelope frame))
          then relay_hop_sequenced src (env_ty (envelope frame)) hdr bytes else mret (HopContinue [])
      | None => mret (HopContinue [])
      end
  | Err e => if crc_mismatch e && hop then relay_hop_corrupt src bytes e else relay_answer (Err e)
  | Panic => relay_answer Panic
  end.

(** A duplicate of a reliable item still goes on when a side it is planned for
    has several announcers. *)
Definition should_forward_duplicate_reliable_item (src : RouterSideId) (d : RouterItem) : LW bool :=
  '(_, t) ← relay_answer (relay_item_route_info d);
  if negb (is_reliable_type t) || is_reliable_control_type t then mret false
  else
    sides ← relay_plan d src;
    now ← relay_now;
    relay_locked (relay_get (fun st => existsb (fun s => relay_side_has_multiple_announcers_locked st s now) sides)).

(** [is_duplicate_pkt(..)? && !should_forward_duplicate_reliable_item(..)?] *)
Definition relay_suppressed (src : RouterSideId) (d : RouterItem) : LW bool :=
  seen ← relay_locked (relay_is_duplicate_pkt d);
  if (seen : bool) then forward ← should_forward_duplicate_reliable_item src d; mret (negb forward) else mret false.

(** ** Dispatch *)

Definition relay_hop_control (src : RouterSideId) (pkt : Packet) : LM unit :=
  '(t, seq) ← relay_lift (control_fields pkt);
  if ty pkt =? ReliableAck then relay_handle_reliable_ack src t seq
  else if ty pkt =? ReliablePartialAck then relay_handle_reliable_partial_ack src t seq
  else relay_queue_reliable_retransmit src t seq.

Definition note_end_to_end_ack (id : Z) (snd : Str) : LM unit :=
  match decode_end_to_end_ack_sender_hash snd with
  | Some hash => relay_modify (note_end_to_end_acked_destination_locked id hash)
  | None => mret tt
  end.

(** The control part of the dispatch of a packet; [false]: it was for this
    relay, and goes no further. *)
Definition relay_control_packet (src : RouterSideId) (pkt : Packet) : LM bool :=
  if negb (is_reliable_control_type (ty pkt)) then mret true
  else
    e2e ← relay_lift (end_to_end_ack_of pkt);
    match e2e with
    | Some id => _ ← note_end_to_end_ack id (sender pkt); mret true
    | None => _ ← relay_hop_control src pkt; mret false
    end.

Fixpoint push_tx_to_sides (src : RouterSideId) (d : RouterItem) (l : list RouterSideId) : LM unit :=
  match l with
  | [] => mret tt
  | dst :: l =>
      prio ← relay_lift (relay_item_priority d);
      _ ← push_tx {| rtx_src := Some src; rtx_dst := dst; rtx_data := d; rtx_priority := prio |};
      push_tx_to_sides src d l
  end.

(** The discovery learning and the fan-out. *)
Definition relay_forward (src : RouterSideId) (d : RouterItem) : LW unit :=
  now ← relay_now; _ ← relay_locked (learn_discovery_item now src d);
  sides ← relay_plan d src;
  relay_locked (push_tx_to_sides src d sides).

Definition dispatch_relay_packet (src : RouterSideId) (pkt : Packet) : LW unit :=
  go_on ← relay_locked (relay_control_packet src pkt);
  if (go_on : bool) then relay_forward src (RPacket pkt) else mret tt.

Definition dispatch_relay_rx_item (src : RouterSideId) (d : RouterItem) : LW unit :=
  match d with
  | RPacket pkt => dispatch_relay_packet src pkt
  | RSerialized bytes =>
      en ← relay_answer (peek_envelope bytes);
      if is_reliable_control_type (env_ty en) then
        pkt ← relay_answer (deserialize_packet bytes); dispatch_relay_packet src pkt
      else relay_forward src d
  end.

(** The in-order frames released by this one, each with its own filter. *)
Fixpoint relay_dispatch_released (src : RouterSideId) (l : list (list byte)) : LW unit :=
  match l with
  | [] => mret tt
  | bytes :: l =>
      _ ← relay_answer (relay_item_priority (RSerialized bytes));
      skip ← relay_suppressed src (RSerialized bytes);
      _ ← (if (skip : bool) then mret tt else dispatch_relay_rx_item src (RSerialized bytes));
      relay_dispatch_released src l
  end.

Definition relay_rx_unique (src : RouterSideId) (d : RouterItem) (released : list (list byte)) : LW unit :=
  skip ← relay_suppressed src d;
  if (skip : bool) then mret tt
  else _ ← dispatch_relay_rx_item src d; relay_dispatch_released src released.

Definition process_rx_queue_item (i : RelayRxItem) : LW unit :=
  _ ← relay_locked (fun st => (st, relay_ensure_side_ingress_enabled st (rrx_src i)));
  _ ← relay_locked (relay_note_return_route (rrx_src i) (rrx_data i));
  hop ← match rrx_data i with
        | RSerialized bytes => relay_hop_receive (rrx_src i) bytes
        | RPacket _ => mret (HopContinue [])
        end;
  match hop with
  | HopStop => mret tt
  | HopContinue released => relay_rx_unique (rrx_src i) (rrx_data i) released
  end.

(** [rx_serialized_from_side] and [rx_from_side]. *)
Definition relay_rx_from_side (src : RouterSideId) (d : RouterItem) : LW unit :=
  _ ← relay_locked (fun st => (st, relay_ensure_side_ingress_enabled st src));
  relay_locked (prio ← relay_lift (relay_item_priority d);
                push_rx {| rrx_src := src; rrx_data := d; rrx_priority := prio |}).

(** ** Transmitting *)

(** [process_replay_queue_item]; [false]: nothing was sent, though an item may
    have been taken. *)
Definition process_replay_queue_item : LW bool :=
  i ← relay_locked pop_replay;
  match i with
  | None => mret false
  | Some i =>
      target ← relay_locked (replay_target i);
      match target with
      | None => mret false
      | Some (key, seq) =>
          _ ← relay_log (Replayed (rp_dst i) (rp_bytes i));
          call ← relay_side_call (rp_dst i); now ← relay_now;
          relay_locked (send_replay call now i key seq)
      end
  end.

(** [pop_ready_tx_item]: [None] also when the destination is gone. *)
Definition pop_ready_tx_item : LM (option (RelayTxItem * RouterSide)) := fun st =>
  let '(o, d) := pop_front (rl_tx_queue st) in
  let st := set_rl_tx_queue d st in
  (st, Ok (i ← o; s ← relay_side_at st (rtx_dst i); Some (i, s))).

Definition send_tx_item (i : RelayTxItem) (s : RouterSide) : LW bool :=
  allowed ← relay_locked (relay_tx_allowed (rtx_src i) (rtx_dst i) (rtx_data i));
  if negb allowed then mret false
  else
    _ ← relay_log (Transmitted (rtx_dst i) (rtx_data i));
    now ← relay_now; call ← relay_side_call (rtx_dst i); sent ← relay_now;
    relay_locked (relay_transmit call (rtx_dst i) (tx_handler s) (opts s) (rtx_data i) now sent).

(** The result of a computation as a value; a panic goes through. *)
Definition relay_attempt {A} (m : LW A) : LW (TelemetryResult A) := fun w =>
  match m w with
  | (w, Panic) => (w, Panic)
  | (w, r) => (w, Ok r)
  end.

Definition relay_timeouts : LW unit := now ← relay_now; relay_locked (relay_process_reliable_timeouts now).

Definition relay_side_tx_active : LW bool := relay_ask (gate_busy env).

(** [timeout_ms != 0 && now_ms().wrapping_sub(start) >= timeout_ms] *)
Definition relay_timed_out (timeout_ms start : Z) : LW bool :=
  if timeout_ms =? 0 then mret false else now ← relay_now; mret (timeout_ms <=? wrap 64 (now - start)).

Definition requeue_busy (i : RelayTxItem) : LW unit :=
  prio ← relay_answer (relay_item_priority (rtx_data i));
  relay_locked (push_tx {| rtx_src := rtx_src i; rtx_dst := rtx_dst i; rtx_data := rtx_data i; rtx_priority := prio |}).

(** One round of the transmission loop; [true]: the loop goes on. *)
Definition relay_tx_round (timeout_ms start : Z) : LW bool :=
  _ ← relay_timeouts;
  replayed ← process_replay_queue_item;
  if (replayed : bool) then over ← relay_timed_out timeout_ms start; mret (negb over)
  else
    ready ← relay_locked pop_ready_tx_item;
    match ready with
    | None => mret false
    | Some (i, s) =>
        r ← relay_attempt (send_tx_item i s);
        match r with
        | Ok sent =>
            if (sent : bool) then over ← relay_timed_out timeout_ms start; mret (negb over) else mret true
        | Err e => if is_side_tx_busy e then _ ← requeue_busy i; mret false else relay_answer (Err e)
        | Panic => relay_answer Panic
        end
    end.

Definition relay_pop_rx : LM (option RelayRxItem) := fun st =>
  let '(o, d) := pop_front (rl_rx_queue st) in (set_rl_rx_queue d st, Ok o).

Definition relay_rx_round (timeout_ms start : Z) : LW bool :=
  i ← relay_locked relay_pop_rx;
  match i with
  | None => mret false
  | Some i => _ ← process_rx_queue_item i; over ← relay_timed_out timeout_ms start; mret (negb over)
  end.

(** One round of the interleaved loop. *)
Definition relay_all_round (timeout_ms start : Z) : LW bool :=
  _ ← relay_timeouts;
  i ← relay_locked relay_pop_rx;
  received ← match i with Some i => _ ← process_rx_queue_item i; mret true | None => mret false end;
  over ← relay_timed_out timeout_ms start;
  if (over : bool) then mret false
  else
    replayed ← process_replay_queue_item;
    ready ← relay_locked pop_ready_tx_item;
    sent ← match ready with Some (i, s) => send_tx_item i s | None => mret false end;
    over ← relay_timed_out timeout_ms start;
    if (over : bool) then mret false else mret (received || replayed || sent).

Fixpoint relay_loop (fuel : nat) (round : LW bool) : LW unit :=
  match fuel with
  | O => relay_answer Panic
  | S fuel => more ← round; if (more : bool) then relay_loop fuel round else mret tt
  end.

Context (fuel : nat).

Definition relay_process_tx_queue_with_timeout (timeout_ms : Z) : LW unit :=
  active ← relay_side_tx_active;
  if (active : bool) then mret tt
  else start ← relay_now; relay_loop fuel (relay_tx_round timeout_ms start).

Definition relay_process_rx_queue_with_timeout (timeout_ms : Z) : LW unit :=
  start ← relay_now; relay_loop fuel (relay_rx_round timeout_ms start).

Definition relay_process_all_queues_with_timeout (timeout_ms : Z) : LW unit :=
  active ← relay_side_tx_active;
  if (active : bool) then mret tt
  else start ← (if timeout_ms =? 0 then mret 0 else relay_now); relay_loop fuel (relay_all_round timeout_ms start).

Definition relay_process_tx_queue : LW unit := relay_process_tx_queue_with_timeout 0.
Definition relay_process_rx_queue : LW unit := relay_process_rx_queue_with_timeout 0.
Definition relay_process_all_queues : LW unit := relay_process_all_queues_with_timeout 0.

Definition relay_announce_discovery : LW unit := now ← relay_now; relay_locked (relay_queue_discovery_announce now).

Definition relay_poll_discovery : LW bool :=
  now ← relay_now; now' ← relay_now; relay_locked (relay_poll_discovery_announce now now').

Definition relay_periodic (timeout_ms : Z) : LW unit :=
  _ ← relay_poll_discovery; relay_process_all_queues_with_timeout timeout_ms.
End RelayRun.
