(* ===== verification/RelayInvariant.v ===== *)
(** * Invariants of a running relay ([src/relay.rs])

    What every public operation of a relay keeps, whatever its callbacks and
    clock answer: no side id in its tables, queues and links names a side that
    is gone, nothing queued goes back where it came from, the caches stay
    bounded and the discovered routes well formed. *)

From stdpp Require Import gmap.
From S2P Require Import Prelude Ordered Telemetry Config Schema Queue SmallPayload Wire Packet Serialize TimeSync Discovery RouterState Routes Reliable Link Plan Topology EndToEnd Announce World Invariant RelayState RelayPlan RelayTopology RelayLink RelayRun.

(** ** What is in a queue after an operation on it *)

Section Contents.
Context {T : Type} `{ByteCost T}.

Lemma pop_front_q (d : BoundedDeque T) : q (snd (pop_front d)) = tail (q d).
Proof. unfold pop_front. by destruct (q d) as [|v l] eqn:E; cbn; rewrite ?E. Qed.

Lemma pop_front_elem (d : BoundedDeque T) x : x ∈ q (snd (pop_front d)) -> x ∈ q d.
Proof. rewrite pop_front_q. destruct (q d); [done|]. cbn. by right. Qed.

Lemma pop_front_length (d : BoundedDeque T) : (length (q (snd (pop_front d))) <= length (q d))%nat.
Proof. rewrite pop_front_q. destruct (q d); cbn; lia. Qed.

Lemma pop_front_head (d : BoundedDeque T) x : fst (pop_front d) = Some x -> x ∈ q d.
Proof. unfold pop_front. destruct (q d) as [|v l] eqn:E; [done|]. intros [= ->]. left. Qed.

Lemma pop_back_elem (d : BoundedDeque T) x : x ∈ q (snd (pop_back d)) -> x ∈ q d.
Proof.
  unfold pop_back. destruct (last (q d)) as [v|] eqn:E; [|done]. cbn. intros Hx.
  apply last_Some in E as [l E]. rewrite E in *. rewrite removelast_last in Hx. apply elem_of_app. by left.
Qed.

Lemma evict_back_elem prio fuel cost p (d : BoundedDeque T) x :
  x ∈ q (fst (evict_back prio fuel cost p d)) -> x ∈ q d.
Proof.
  revert d. induction fuel as [|fuel IH]; intros d; cbn [evict_back]; [done|].
  destruct (_ && _); [|done]. destruct (_ <? _); [done|]. intros Hx%IH. by apply pop_back_elem.
Qed.

Lemma ensure_room_elem (d : BoundedDeque T) x : x ∈ q (ensure_room_for_one d) -> x ∈ q d.
Proof. unfold ensure_room_for_one. cbn zeta. repeat case_match; first [apply pop_front_elem|unfold vd_reserve_exact; repeat case_match; done]. Qed.

Lemma grow_q (d : BoundedDeque T) : q (vd_grow_if_full d) = q d.
Proof. unfold vd_grow_if_full. by case_match. Qed.

Lemma push_prioritized_elem prio (d : BoundedDeque T) v x :
  x ∈ q (fst (push_back_prioritized prio d v)) -> x = v \/ x ∈ q d.
Proof.
  unfold push_back_prioritized. destruct (_ <? _); [by right|].
  pose proof (evict_back_elem prio (length (q d)) (byte_cost v) (prio v) d x) as He.
  destruct (evict_back _ _ _ _ _) as [d1 [[]|e|]]; cbn [fst] in *; [|by right; apply He..].
  destruct (if max_elems d1 <=? len d1 then _ else _) as [d2 r] eqn:E.
  assert (x ∈ q d2 -> x ∈ q d) as H2.
  { intros Hx. apply He. destruct (max_elems d1 <=? len d1); [destruct (_ <? _)|]; injection E as <- <-; try done.
    by apply pop_back_elem. }
  destruct r as [[]|e|]; cbn [fst]; [|by right; apply H2..].
  set (d3 := ensure_room_for_one d2).
  assert (forall y, y ∈ q d3 -> y ∈ q d2) as H3 by (intros y; apply ensure_room_elem).
  destruct (position _ _) as [i|]; unfold vd_insert, vd_push_back; cbn [q set_q]; rewrite grow_q.
  - rewrite <- (take_drop i (q d3)) in H3.
    intros [Hx|[->|Hx]%elem_of_cons]%elem_of_app; [|by left|]; right; apply H2, H3, elem_of_app; auto.
  - intros [Hx| ->%list_elem_of_singleton]%elem_of_app; [right; auto|by left].
Qed.

Lemma retain_loop_q keep fuel idx (d : BoundedDeque T) :
  (length (q d) - idx <= fuel)%nat -> (idx <= length (q d))%nat ->
  q (retain_loop fuel keep idx d) = take idx (q d) ++ List.filter keep (drop idx (q d)).
Proof.
  revert idx d. induction fuel as [|fuel IH]; intros idx d Hf Hidx; cbn [retain_loop].
  { rewrite drop_ge, take_ge, app_nil_r by lia. done. }
  destruct (q d !! idx) as [v|] eqn:Hv.
  - pose proof (lookup_lt_Some _ _ _ Hv). rewrite (drop_S _ _ _ Hv). cbn [List.filter]. destruct (keep v).
    + rewrite IH by lia. rewrite (take_S_r _ _ _ Hv), <- app_assoc. done.
    + unfold remove_pos. rewrite Hv. cbn [snd].
      assert (length (take idx (q d)) = idx) as Hl by (rewrite length_take; lia).
      rewrite IH; cbn [q set_q]; [|rewrite length_app, Hl, length_drop; lia|rewrite length_app, Hl; lia].
      rewrite take_app_le, take_take, Nat.min_id by lia. rewrite drop_app_ge, Hl, Nat.sub_diag, drop_0 by lia. done.
  - apply lookup_ge_None in Hv. rewrite drop_ge, take_ge, app_nil_r by lia. done.
Qed.

Lemma retain_q keep (d : BoundedDeque T) : q (retain keep d) = List.filter keep (q d).
Proof. unfold retain. rewrite retain_loop_q by lia. by rewrite take_0, drop_0. Qed.

Lemma retain_elem keep (d : BoundedDeque T) x : x ∈ q (retain keep d) -> keep x = true /\ x ∈ q d.
Proof. rewrite retain_q, elem_of_List_filter. tauto. Qed.
End Contents.

(** ** Referential integrity *)

(** The rules name live sides. *)
Record rules_live (sds : list (option RouterSide)) (st : RelayInner) : Prop := {
  ru_routes s d b : rl_route_overrides st !! (Some s, d) = Some b -> live sds s;
  ru_routes_dst s d b : rl_route_overrides st !! (s, d) = Some b -> live sds d;
  ru_typed s t d b : rl_typed_route_overrides st !! (Some s, t, d) = Some b -> live sds s;
  ru_typed_dst s t d b : rl_typed_route_overrides st !! (s, t, d) = Some b -> live sds d;
  ru_weights s d w : rl_route_weights st !! (Some s, d) = Some w -> live sds s;
  ru_weights_dst s d w : rl_route_weights st !! (s, d) = Some w -> live sds d;
  ru_priorities s d p : rl_route_priorities st !! (Some s, d) = Some p -> live sds s;
  ru_priorities_dst s d p : rl_route_priorities st !! (s, d) = Some p -> live sds d;
  ru_modes s m : rl_source_route_modes st !! Some s = Some m -> live sds s
}.

(** The maps of the reliable senders. *)
Definition links_sorted (l : list ((RouterSideId * Z) * ReliableTxState)) : Prop :=
  bt_sorted l /\ forall k tx, (k, tx) ∈ l -> bt_sorted (tx_sent tx).

(** What else must hold meanwhile: the rules stay as they are, and the receive
    queue does not grow past a length. *)
Definition relay_rules (st : RelayInner) :=
  (rl_route_overrides st, rl_typed_route_overrides st, rl_route_weights st, rl_route_priorities st,
   rl_source_route_modes st).

Record Scope := { sc_rules : option RelayInner; sc_rx : option nat }.

Definition anything : Scope := {| sc_rules := None; sc_rx := None |}.
Definition same_rules (st : RelayInner) : Scope :=
  {| sc_rules := Some st; sc_rx := None |}.
Definition no_longer_rx (n : nat) : Scope := {| sc_rules := None; sc_rx := Some n |}.

Record relay_refs `{Config} (sds : list (option RouterSide)) (sc : Scope) (st : RelayInner) : Prop := {
  rf_sides : rl_sides st = sds;
  rf_rules : rules_live sds st;
  rf_rx i : i ∈ q (rl_rx_queue st) -> live sds (rrx_src i);
  rf_tx i : i ∈ q (rl_tx_queue st) -> live sds (rtx_dst i);
  rf_tx_src i s : i ∈ q (rl_tx_queue st) -> rtx_src i = Some s -> live sds s /\ s <> rtx_dst i;
  rf_replay i : i ∈ q (rl_replay_queue st) -> live sds (rp_dst i);
  rf_senders k : k ∈ bt_keys (rl_reliable_tx st) -> live sds (fst k);
  rf_links : links_sorted (rl_reliable_tx st);
  rf_receivers k : k ∈ bt_keys (rl_reliable_rx st) -> live sds (fst k);
  rf_routes : routes_ok (rl_discovery_routes st);
  rf_route_sides k : k ∈ bt_keys (rl_discovery_routes st) -> live sds k;
  rf_returns id s : rl_reliable_return_routes st !! id = Some s -> live sds s;
  rf_stats s x : rl_adaptive_route_stats st !! s = Some x -> live sds s;
  rf_cursors s x : rl_route_selection_cursors st !! Some s = Some x -> live sds s;
  rf_caches : caches_ok (common st);
  rf_acked : cache_ok acked_cap (end_to_end_acked_destination_order st)
               (fun i => is_some (end_to_end_acked_destinations st !! i) = true);
  rf_acked_senders id a : end_to_end_acked_destinations st !! id = Some a -> Z.of_nat (size a) <= acked_sender_cap;
  rf_limit n : sc_rx sc = Some n -> (length (q (rl_rx_queue st)) <= n)%nat;
  rf_fixed r : sc_rules sc = Some r -> relay_rules st = relay_rules r
}.

Lemma bt_keys_elem {K V} (m : list (K * V)) k : k ∈ bt_keys m <-> exists v, (k, v) ∈ m.
Proof.
  unfold bt_keys. rewrite list_elem_of_fmap. split.
  - intros ([k' v] & -> & Hin). by exists v.
  - intros (v & Hin). by exists (k, v).
Qed.

Lemma bt_insert_keys {K V} `{Ord K} k (v : V) (m : list (K * V)) j : j ∈ bt_keys (bt_insert k v m) -> j = k \/ j ∈ bt_keys m.
Proof. rewrite !bt_keys_elem. intros (v' & [[= -> ->]|Hin]%bt_insert_elem); eauto. Qed.

Lemma bt_remove_keys {K V} `{Ord K} k (m : list (K * V)) j : j ∈ bt_keys (bt_remove k m) -> j ∈ bt_keys m.
Proof. rewrite !bt_keys_elem. intros (v' & Hin%bt_remove_elem); eauto. Qed.

Lemma bt_retain_keys {K V} keep (m : list (K * V)) j :
  j ∈ bt_keys (bt_retain keep m) -> exists v, keep j v = true /\ j ∈ bt_keys m.
Proof. rewrite bt_keys_elem. intros (v' & [Hk Hin]%elem_of_bt_retain). exists v'. split; [exact Hk|]. apply bt_keys_elem. by exists v'. Qed.

Lemma prune_keys now (l : list (RouterSideId * DiscoverySideState)) k :
  k ∈ bt_keys (prune_routes now l) -> k ∈ bt_keys l.
Proof. rewrite !bt_keys_elem. intros (r & (route & Hin & _)%prune_routes_elem). eauto. Qed.

Lemma routes_ok_remove side l : routes_ok l -> routes_ok (bt_remove side l).
Proof. intros [Hs Hr]. split; [by apply bt_remove_sorted|]. intros s r Hin%bt_remove_elem. eauto. Qed.

Lemma scan_links_keys `{Config} `{Schema} now l : bt_keys (fst (scan_links now l)) = bt_keys l.
Proof.
  induction l as [|[[side raw] tx] l IH]; cbn [scan_links]; [done|]. destruct (scan_links now l) as [l' r].
  cbn [fst] in IH. unfold bt_keys in *. destruct (type_try_from_u32 raw); [|cbn; by rewrite IH].
  destruct (scan_timeouts _ _ _). cbn. by rewrite IH.
Qed.

Create HintDb refs.

Section Refs.
Context `{Config} `{Schema} `{External} `{Layout} `{RelayLayout}.
Context (sds : list (option RouterSide)) (sc : Scope).
Notation P := (relay_refs sds sc).
Notation alive := (live sds).

(** Only some of the fields change. *)
Ltac refs :=
  let Hst := fresh in intros Hst; pose proof Hst as []; split;
  lazymatch goal with
  | Hr : rules_live _ _ |- rules_live _ _ => destruct Hr; split; assumption
  | Hc : caches_ok _ |- caches_ok _ => destruct Hc; split; assumption
  | _ => cbn -[bt_keys]; try assumption; eauto
  end.

Lemma refs_rx d st :
  (forall x, x ∈ q d -> alive (rrx_src x)) -> (sc_rx sc = None \/ (length (q d) <= length (q (rl_rx_queue st)))%nat) ->
  P st -> P (set_rl_rx_queue d st).
Proof.
  intros Hd Hn Hst. assert (forall n, sc_rx sc = Some n -> (length (q d) <= n)%nat) as Hl.
  { intros n Hs. pose proof (rf_limit _ _ _ Hst n Hs). destruct Hn; [congruence|lia]. }
  clear Hn. revert Hst. refs.
Qed.

Definition tx_ok (i : RelayTxItem) : Prop :=
  alive (rtx_dst i) /\ forall s, rtx_src i = Some s -> alive s /\ s <> rtx_dst i.

Lemma refs_tx_ok st i : P st -> i ∈ q (rl_tx_queue st) -> tx_ok i.
Proof. intros [] Hi. split; [auto|]. intros s Hs. eauto. Qed.

Lemma refs_tx d st : (forall x, x ∈ q d -> tx_ok x) -> P st -> P (set_rl_tx_queue d st).
Proof.
  intros Hd. assert (forall x, x ∈ q d -> alive (rtx_dst x)) as Hd1 by (intros x Hx; apply Hd, Hx).
  assert (forall x s, x ∈ q d -> rtx_src x = Some s -> alive s /\ s <> rtx_dst x) as Hd2 by (intros x s Hx; apply Hd, Hx).
  refs.
Qed.

Lemma refs_replay d st : (forall x, x ∈ q d -> alive (rp_dst x)) -> P st -> P (set_rl_replay_queue d st).
Proof. intros Hd. refs. Qed.

Lemma refs_recent d st : P st -> P (on_common (set_recent_rx d) st).
Proof. refs. Qed.

Lemma refs_senders m st :
  (forall k, k ∈ bt_keys m -> alive (fst k)) -> links_sorted m -> P st -> P (on_common (set_reliable_tx m) st).
Proof. intros Hm Hs. refs. Qed.

Lemma refs_receivers m st : (forall k, k ∈ bt_keys m -> alive (fst k)) -> P st -> P (on_common (set_reliable_rx m) st).
Proof. intros Hm. refs. Qed.

Lemma refs_routes m st :
  routes_ok m -> (forall k, k ∈ bt_keys m -> alive k) -> P st -> P (on_common (set_discovery_routes m) st).
Proof. intros Hm Hk. refs. Qed.

Lemma refs_cadence c st : P st -> P (on_common (set_discovery_cadence c) st).
Proof. refs. Qed.

Lemma refs_stats side x st : alive side -> P st -> P (on_common (set_adaptive_route_stats (<[side := x]> (rl_adaptive_route_stats st))) st).
Proof. intros Hl. refs. intros s y. rewrite lookup_insert_Some. naive_solver. Qed.

Lemma refs_cursor src x st :
  (forall s, src = Some s -> alive s) -> P st ->
  P (on_common (set_route_selection_cursors (<[src := x]> (rl_route_selection_cursors st))) st).
Proof. intros Hl. refs. intros s y. rewrite lookup_insert_Some. naive_solver. Qed.

Lemma refs_note_return side id st : alive side -> P st -> P (relay_note_reliable_return_route side id st).
Proof.
  intros Hl Hst. pose proof Hst as []. pose proof (note_return_ok side id (common st) rf_caches0) as Hc.
  unfold relay_note_reliable_return_route, on_common.
  assert (common (with_common (note_reliable_return_route side id (common st)) st)
          = note_reliable_return_route side id (common st)) as Hv.
  { apply common_with; unfold note_reliable_return_route, remember_reliable_return_route_locked;
      by destruct (remember _ _ _ _ _ _). }
  set (c := note_reliable_return_route side id (common st)) in *.
  assert (forall i s, reliable_return_routes c !! i = Some s -> alive s) as Hret.
  { unfold c, note_reliable_return_route, remember_reliable_return_route_locked.
    pose proof (fun i s Hi => rf_returns0 i s Hi) as Hold. cbn [common reliable_return_routes reliable_return_route_order].
    assert (forall cap order (m : gmap Z RouterSideId) i s,
      snd (remember cap (fun i m => is_some (m !! i)) (fun i m => delete i m) id order m) !! i = Some s -> m !! i = Some s) as Hsub.
    { intros cap order m. unfold remember. generalize (List.filter (fun i => is_some (m !! i) && negb (i =? id)) order).
      intros l. revert m. induction l as [|o l IH]; intros m i s; cbn [trim_order]; [done|].
      destruct (_ <=? _); [|done]. specialize (IH (delete o m) i s).
      destruct (trim_order _ _ l (delete o m)) as [? ?]. cbn in *. intros Hi%IH. by apply lookup_delete_Some in Hi as [_ Hi]. }
    specialize (Hsub (Z.max RELIABLE_MAX_RETURN_ROUTES 1) (rl_reliable_return_route_order st) (rl_reliable_return_routes st)).
    destruct (remember _ _ _ _ _ _) as [order m]. cbn in *. intros i s. rewrite lookup_insert_Some. naive_solver. }
  assert (sides c = rl_sides st /\ route_overrides c = rl_route_overrides st
    /\ typed_route_overrides c = rl_typed_route_overrides st /\ route_weights c = rl_route_weights st
    /\ route_priorities c = rl_route_priorities st /\ source_route_modes c = rl_source_route_modes st
    /\ route_selection_cursors c = rl_route_selection_cursors st
    /\ adaptive_route_stats c = rl_adaptive_route_stats st /\ reliable_tx c = rl_reliable_tx st
    /\ reliable_rx c = rl_reliable_rx st /\ discovery_routes c = rl_discovery_routes st)
    as (E1 & E2 & E3 & E4 & E5 & E6 & E7 & E8 & E9 & E10 & E11).
  { unfold c, note_reliable_return_route, remember_reliable_return_route_locked.
    destruct (remember _ _ _ _ _ _). cbn. repeat split. }
  destruct rf_rules0.
  split; cbn -[bt_keys c]; rewrite ?E1, ?E2, ?E3, ?E4, ?E5, ?E6, ?E7, ?E8, ?E9, ?E10, ?E11, ?Hv; try assumption.
  - split; cbn -[c]; rewrite ?E2, ?E3, ?E4, ?E5, ?E6; assumption.
  - unfold relay_rules in *. cbn -[c]. rewrite E2, E3, E4, E5, E6. assumption.
Qed.

Lemma acked_remember order m id :
  cache_ok acked_cap order (fun i => is_some (m !! i) = true) ->
  let '(order', m') := remember acked_cap (fun i (m : gmap Z (gset Z)) => is_some (m !! i)) (fun i m => delete i m) id order m in
  cache_ok acked_cap order' (fun i => is_some (m' !! i) = true \/ i = id) /\ (forall i a, m' !! i = Some a -> m !! i = Some a).
Proof.
  intros Hc.
  pose proof (remember_ok (M := gmap Z (gset Z)) acked_cap (fun i m => is_some (m !! i)) (fun i m => delete i m)
    (fun _ => True) ltac:(unfold acked_cap; lia) ltac:(done)) as Hok.
  specialize (Hok ltac:(intros i j m0 _; destruct (Z.eqb_spec i j) as [->|Hne];
    [by rewrite lookup_delete_eq, andb_false_r|by rewrite lookup_delete_ne, andb_true_r by congruence])).
  specialize (Hok id _ _ I Hc). destruct (remember _ _ _ _ _ _) as [order' m']. destruct Hok as (_ & Hc' & ->).
  split; [exact Hc'|]. generalize (take (length (live_ids (fun i m => is_some (m !! i)) id order m) - Z.to_nat (acked_cap - 1))
    (live_ids (fun i m => is_some (m !! i)) id order m)) as l. clear.
  intros l. revert m. induction l as [|j l IH]; intros m i a; cbn [foldl]; [done|].
  intros Hi%IH. by apply lookup_delete_Some in Hi as [_ Hi].
Qed.

Lemma refs_acked id hash st : P st -> P (note_end_to_end_acked_destination_locked id hash st).
Proof.
  intros Hst. pose proof Hst as []. unfold note_end_to_end_acked_destination_locked.
  pose proof (acked_remember (end_to_end_acked_destination_order st) (end_to_end_acked_destinations st) id rf_acked0) as Hr.
  destruct (remember _ _ _ _ _ _) as [order' m']. destruct Hr as [Hc Hsub]. cbn zeta.
  set (acked := default ∅ (m' !! id)).
  assert (Z.of_nat (size acked) <= acked_sender_cap) as Ha.
  { unfold acked. destruct (m' !! id) as [a|] eqn:E; cbn; [eauto|]. rewrite size_empty. unfold acked_sender_cap. lia. }
  match goal with |- context [<[id := ?x]> m'] => set (acked' := x) end.
  assert (Z.of_nat (size acked') <= acked_sender_cap) as Ha'.
  { unfold acked'. destruct (Z.ltb_spec (Z.of_nat (size acked)) acked_sender_cap) as [Hlt|Hge]; cbn [orb].
    - destruct (decide (hash ∈ acked)) as [Hin|Hni].
      + assert (({[hash]} ∪ acked : gset Z) = acked) as -> by set_solver. lia.
      + rewrite size_union by set_solver. rewrite size_singleton. lia.
    - case_bool_decide as Hin; [|lia]. assert (({[hash]} ∪ acked : gset Z) = acked) as -> by set_solver. lia. }
  split; cbn -[bt_keys acked']; try assumption.
  - destruct rf_rules0; split; assumption.
  - eapply cache_weaken; [|exact Hc]. intros i. cbn. rewrite !is_some_true.
    destruct (decide (i = id)) as [->|Hne]; [auto|]. rewrite lookup_insert_ne by congruence. auto.
  - intros i a. rewrite lookup_insert_Some. intros [[-> <-]|[_ Hi]]; [done|]. eauto.
Qed.

Lemma refs_reconcile st : P st -> P (reconcile_end_to_end_acked_destinations_locked st).
Proof.
  intros Hst. pose proof Hst as []. unfold reconcile_end_to_end_acked_destinations_locked. cbn zeta.
  split; cbn -[bt_keys]; try assumption.
  - destruct rf_rules0; split; assumption.
  - eapply cache_weaken; [|exact rf_acked0]. intros i. cbn. rewrite !is_some_true, lookup_omap.
    destruct (end_to_end_acked_destinations st !! i); cbn; [done|by intros [? [=]]].
  - intros i a. rewrite lookup_omap. destruct (end_to_end_acked_destinations st !! i) as [a0|] eqn:E; cbn; [|done].
    case_decide; [done|]. intros [= <-]. specialize (rf_acked_senders0 i a0 E).
    pose proof (subseteq_size (filter (fun h => h ∈ active_senders st) a0) a0 ltac:(set_solver)). lia.
Qed.

Lemma refs_pop k st : P st -> P (snd (relay_pop_shared_queue_item k st)).
Proof.
  intros Hst. pose proof Hst as []. destruct k; cbn [relay_pop_shared_queue_item].
  - pose proof (pop_front_elem (rl_rx_queue st)) as He. pose proof (pop_front_length (rl_rx_queue st)) as Hle.
    destruct (pop_front _) as [o d]. cbn [snd] in *. apply refs_rx; auto.
  - pose proof (pop_front_elem (rl_tx_queue st)) as He. destruct (pop_front _) as [o d]. cbn [snd] in *.
    apply refs_tx; [|done]. intros x Hx%He. by apply (refs_tx_ok st).
  - pose proof (pop_front_elem (rl_replay_queue st)) as He. destruct (pop_front _) as [o d]. cbn [snd] in *.
    apply refs_replay; auto.
  - destruct (pop_front _) as [o d]. cbn [snd]. by apply refs_recent.
  - unfold relay_pop_reliable_rx_buffered, pop_reliable_rx_buffered. cbn [common reliable_rx].
    destruct (List.find _ _) as [[key rx]|]; [|cbn; by rewrite with_common_id].
    destruct (buffered rx) as [|[s v] rest]; [cbn; by rewrite with_common_id|]. cbn [snd].
    apply (refs_receivers (bt_update key _ (rl_reliable_rx st))); [|done]. intros j. rewrite bt_update_keys. auto.
  - unfold relay_pop_discovery_route, pop_discovery_route. cbn [common discovery_routes].
    destruct (oldest_route _) as [[side route]|]; [|cbn; by rewrite with_common_id]. cbn [snd].
    apply (refs_routes (bt_remove side (rl_discovery_routes st))); [by apply routes_ok_remove| |done].
    intros j Hj%bt_remove_keys. auto.
Qed.

(** *** Computations *)

Lemma lkeeps_bind {A B} (m : LM A) (f : A -> LM B) :
  keeps P m -> (forall a, keeps P (f a)) -> keeps P (m ≫= f).
Proof.
  intros Hm Hf st Hst. rewrite LM_run. specialize (Hm st Hst). destruct (m st) as [st' [a|e|]]; [|done..].
  by apply Hf.
Qed.

Lemma lkeeps_ret {A} (a : A) : keeps P (mret a : LM A).
Proof. by intros st. Qed.

Lemma lkeeps_lift {A} (r : TelemetryResult A) : keeps P (relay_lift r).
Proof. by intros st. Qed.

Lemma lkeeps_read {A} (f : RelayInner -> TelemetryResult A) : keeps P (fun st => (st, f st)).
Proof. by intros st. Qed.

Lemma lkeeps_get {A} (f : RelayInner -> A) : keeps P (relay_get f).
Proof. by intros st. Qed.

Lemma lkeeps_modify f : (forall st, P st -> P (f st)) -> keeps P (relay_modify f).
Proof. intros Hf st. apply Hf. Qed.

Hint Resolve lkeeps_ret lkeeps_lift lkeeps_read lkeeps_get : refs.

(** Follows the binds and the branches of an operation. *)
Ltac lkeep := repeat first
  [ lazymatch goal with |- keeps _ (mbind _ _) => apply lkeeps_bind; [|intros ?] end
  | assumption | solve [auto with refs]
  | lazymatch goal with |- keeps _ (relay_modify _) => apply lkeeps_modify; intros ? ? end
  | case_match ].

Lemma room_refs cost k : keeps P (relay_make_shared_queue_room cost k).
Proof.
  intros st. unfold relay_make_shared_queue_room. case_match; [done|].
  generalize (S (relay_queued_items st)) as fuel. intros fuel.
  revert st. induction fuel as [|fuel IH]; intros st Hst; cbn [relay_make_room_loop]; case_match; try done.
  unfold relay_evict_once. pose proof (refs_pop (default k (relay_largest_shared_queue st)) st Hst) as H1'.
  destruct (relay_pop_shared_queue_item (default k (relay_largest_shared_queue st)) st) as [[] st1]; [by apply IH|].
  pose proof (refs_pop k st1 H1') as H2'. destruct (relay_pop_shared_queue_item k st1) as [[] st2]; [by apply IH|done].
Qed.

Lemma fit_refs st : P st -> P (relay_fit_discovery_budget st).
Proof.
  unfold relay_fit_discovery_budget. generalize (length (rl_discovery_routes st)) as fuel. intros fuel. revert st.
  induction fuel as [|fuel IH]; intros st Hst; cbn [relay_fit_discovery_loop]; (case_match; [|done]);
    pose proof (refs_pop RelayDiscovery st Hst) as Hp; cbn [relay_pop_shared_queue_item] in Hp;
    destruct (relay_pop_discovery_route st) as [[] st1]; auto.
Qed.

Hint Resolve room_refs fit_refs : refs.

Lemma push_rx_refs i : sc_rx sc = None -> alive (rrx_src i) -> keeps P (push_rx i).
Proof.
  intros Hn Hl. unfold push_rx. apply lkeeps_bind; [auto with refs|]. intros _ st Hst.
  pose proof (push_prioritized_elem rrx_priority (rl_rx_queue st) i) as He.
  destruct (push_back_prioritized _ _ _) as [d r]. cbn [fst] in *. apply refs_rx; [|by left|done].
  intros x [->|Hx]%He; [done|]. by apply (rf_rx _ _ _ Hst).
Qed.

Lemma push_tx_refs i : tx_ok i -> keeps P (push_tx i).
Proof.
  intros Hl. unfold push_tx. apply lkeeps_bind; [auto with refs|]. intros _ st Hst.
  pose proof (push_prioritized_elem rtx_priority (rl_tx_queue st) i) as He.
  destruct (push_back_prioritized _ _ _) as [d r]. cbn [fst] in *. apply refs_tx; [|done].
  intros x [->|Hx]%He; [done|]. by apply (refs_tx_ok st).
Qed.

Lemma push_replay_refs i : alive (rp_dst i) -> keeps P (push_replay i).
Proof.
  intros Hl. unfold push_replay. apply lkeeps_bind; [auto with refs|]. intros _ st Hst.
  pose proof (push_prioritized_elem rp_priority (rl_replay_queue st) i) as He.
  destruct (push_back_prioritized _ _ _) as [d r]. cbn [fst] in *. apply refs_replay; [|done].
  intros x [->|Hx]%He; [done|]. by apply (rf_replay _ _ _ Hst).
Qed.

Lemma trim_recent_shape fuel c : exists d, fst (trim_recent fuel c) = set_recent_rx d c.
Proof.
  revert c. induction fuel as [|fuel IH]; intros c; cbn [trim_recent]; case_match; try (exists (recent_rx c); by destruct c).
  destruct (IH (set_recent_rx (snd (pop_front (H := u64_cost) (recent_rx c))) c)) as [d ->]. by exists d.
Qed.

Lemma push_recent_refs id : keeps P (relay_push_recent_rx id).
Proof.
  unfold relay_push_recent_rx. lkeep.
  - intros st Hst. unfold via. destruct (trim_recent_shape a (common st)) as [d Hd].
    destruct (trim_recent a (common st)) as [c r]. cbn [fst] in *. subst c. by apply (refs_recent d).
  - intros st Hst. unfold via. destruct (push_back _ _) as [d r]. cbn [fst]. by apply (refs_recent d).
Qed.

Lemma refs_sent_sorted key st : P st -> bt_sorted (tx_sent (tx_state key (common st))).
Proof.
  intros Hst. destruct (rf_links _ _ _ Hst) as [Hs Hl]. unfold tx_state. cbn [common reliable_tx].
  destruct (bt_get key (rl_reliable_tx st)) as [tx|] eqn:E; [|constructor]. by apply (Hl key), bt_get_elem.
Qed.

Lemma refs_update_tx_state key f st :
  alive (fst key) -> bt_sorted (tx_sent (f (tx_state key (common st)))) -> P st -> P (on_common (update_tx key f) st).
Proof.
  intros Hl Hf Hst. destruct (rf_links _ _ _ Hst) as [Hs Hsent]. apply refs_senders; [| |done].
  2: { split; [by apply bt_insert_sorted|]. intros k tx [[= -> ->]|Hin]%bt_insert_elem; [exact Hf|eauto]. }
  intros k [->|Hk]%bt_insert_keys; [done|]. by apply (rf_senders _ _ _ Hst).
Qed.

(** [f] keeps the sent frames in order. *)
Definition sent_kept (f : ReliableTxState -> ReliableTxState) : Prop :=
  forall tx, bt_sorted (tx_sent tx) -> bt_sorted (tx_sent (f tx)).

Lemma refs_update_tx key f st : alive (fst key) -> sent_kept f -> P st -> P (on_common (update_tx key f) st).
Proof. intros Hl Hf Hst. apply refs_update_tx_state; [done| |done]. by apply Hf, refs_sent_sorted. Qed.

Lemma shrinks_kept f : (forall tx, bt_sorted (tx_sent tx) -> tx_shrinks tx (f tx)) -> sent_kept f.
Proof. intros Hf tx Hs. by apply Hf. Qed.

Lemma ack_kept mode a : sent_kept (ack_state mode a).
Proof. apply shrinks_kept. intros. by apply ack_shrinks. Qed.

Lemma partial_kept seq : sent_kept (partial_ack_state seq).
Proof. apply shrinks_kept. intros. by apply partial_shrinks. Qed.

Lemma replayed_kept seq now : sent_kept (replay_sent_state seq now).
Proof. apply shrinks_kept. intros. by apply replayed_shrinks. Qed.

Lemma same_kept f : (forall tx, tx_sent (f tx) = tx_sent tx) -> sent_kept f.
Proof. intros Hf tx Hs. by rewrite Hf. Qed.

Lemma refs_record side t seq bytes now st : alive side -> P st -> P (on_common (record_sent side t seq bytes now) st).
Proof. intros Hl. apply refs_update_tx; [done|]. intros tx Hs. by apply bt_insert_sorted. Qed.

Hint Resolve ack_kept partial_kept replayed_kept refs_record : refs.
Hint Extern 1 (sent_kept _) => (by apply same_kept) : refs.

Lemma refs_update_rx key f st : alive (fst key) -> P st -> P (on_common (update_rx key f) st).
Proof.
  intros Hl Hst. apply refs_receivers; [|done]. intros k [->|Hk]%bt_insert_keys; [done|]. by apply (rf_receivers _ _ _ Hst).
Qed.

Hint Resolve push_recent_refs refs_update_tx refs_update_rx : refs.

Lemma buffer_refs side t seq bytes : alive side -> keeps P (relay_buffer_reliable_rx side t seq bytes).
Proof.
  intros Hl st Hst. unfold relay_buffer_reliable_rx. destruct (match bt_get _ _ with Some _ => _ | None => _ end); [done|].
  revert st Hst. match goal with |- forall st, P st -> P (fst (?m st)) => change (keeps P m) end. lkeep.
Qed.

Hint Resolve push_rx_refs push_tx_refs push_replay_refs buffer_refs : refs.

(** *** Planning *)

Lemma allowed_live st src t dst :
  P st -> 0 <= dst -> relay_route_allowed_locked st src t dst = true -> alive dst /\ src <> Some dst.
Proof.
  intros Hst Hd. unfold relay_route_allowed_locked, relay_side_at, side_at. pose proof (rf_sides _ _ _ Hst) as Hs.
  cbn [common sides]. rewrite Hs. destruct (mjoin (sds !! Z.to_nat dst)) as [s|] eqn:E; [|done].
  destruct (negb _); [done|]. intros Ha. split; [split; [done|by exists s]|]. intros ->.
  rewrite E, Z.eqb_refl, orb_true_r in Ha. done.
Qed.

Lemma select_refs src l o : (forall s, src = Some s -> alive s) -> keeps P (relay_apply_route_selection_locked src l o).
Proof.
  intros Hl st Hst. unfold relay_apply_route_selection_locked.
  destruct (selected_cursor src l o (common st)) as [E|[c E]];
    destruct (apply_route_selection_locked src l o (common st)) as [c' r]; cbn [fst] in *; subst c'.
  - by rewrite with_common_id.
  - by apply (refs_cursor src c).
Qed.

Lemma relay_plan_refs now d src : alive src -> keeps P (relay_remote_side_plan now d src).
Proof.
  intros Hl st Hst. unfold relay_remote_side_plan. case_match; [|done..]. case_match; [done|].
  apply select_refs; [|done]. by intros s [= <-].
Qed.

Lemma refs_note_change now st : P st -> P (relay_note_discovery_topology_change_locked now st).
Proof. apply refs_cadence. Qed.

Lemma refs_prune now st : P st -> P (fst (relay_prune_discovery_routes_locked now st)).
Proof.
  intros Hst. pose proof Hst as []. unfold relay_prune_discovery_routes_locked, prune_discovery_routes_locked. cbn [fst].
  apply refs_routes; [| |done].
  - destruct (routes_ok_sorted _ rf_routes0). by apply prune_routes_ok.
  - intros k Hk%prune_keys. auto.
Qed.

Hint Resolve relay_plan_refs refs_note_change refs_reconcile refs_acked refs_note_return : refs.

Lemma refs_prune_reconcile now st : P st -> P (relay_prune_and_reconcile now st).
Proof.
  intros Hst. unfold relay_prune_and_reconcile. pose proof (refs_prune now st Hst) as Hp.
  destruct (relay_prune_discovery_routes_locked now st) as [st1 []]; cbn [fst] in Hp; auto with refs.
Qed.

Lemma refs_store now side name s c st : alive side -> P st -> P (relay_store_sender now side name s c st).
Proof.
  intros Hl Hst. unfold relay_store_sender. apply refs_reconcile, refs_prune.
  assert (P (on_common (store_sender now side name s) st)) as H1'.
  { apply refs_routes; [|intros k [->|Hk]%bt_insert_keys; [done|by apply (rf_route_sides _ _ _ Hst)]|done].
    apply (store_sender_ok now side name s (common st)), Hst. }
  destruct c; auto with refs.
Qed.

(** *** Announcing and learning *)

Lemma packet_refs side pkt : alive side -> keeps P (relay_queue_packet side pkt).
Proof. intros Hl. unfold relay_queue_packet. lkeep. apply push_tx_refs. by split. Qed.

Hint Resolve packet_refs : refs.

Lemma built_refs {A} side (l : list A) build : alive side -> keeps P (relay_queue_built side l build).
Proof. intros Hl. unfold relay_queue_built. lkeep. Qed.

Hint Resolve built_refs : refs.

Lemma announcements_refs now l : (forall a, a ∈ l -> alive (an_side a)) -> keeps P (relay_queue_announcements now l).
Proof.
  induction l as [|a l IH]; intros Hl; cbn; [lkeep|]. apply lkeeps_bind; [|intros _; apply IH; intros; apply Hl; by right].
  assert (alive (an_side a)) by (apply Hl; left). unfold relay_queue_announcement. lkeep.
Qed.

Lemma eligible_live st src t r s : P st -> s ∈ relay_eligible_side_ids_locked st src t r -> alive s.
Proof.
  intros Hst. unfold relay_eligible_side_ids_locked. rewrite elem_of_List_filter, elem_of_seqZ. intros [Hr He].
  unfold relay_side_eligible in He. destruct (relay_side_at st s) as [sd|]; [|done]. destruct (r && negb (link_local_enabled (opts sd))); [done|].
  eapply allowed_live; [exact Hst|lia|exact He].
Qed.

Lemma lkeeps_got {A B} (f : RelayInner -> A) (k : A -> LM B) :
  (forall st, P st -> keeps P (k (f st))) -> keeps P (relay_get f ≫= k).
Proof. intros Hk st Hst. rewrite LM_run. cbn [relay_get]. by apply Hk. Qed.

Lemma announce_refs now : keeps P (relay_queue_discovery_announce now).
Proof.
  unfold relay_queue_discovery_announce. apply lkeeps_bind; [lkeep; by apply refs_prune_reconcile|intros _].
  apply lkeeps_bind; [lkeep|intros none]. destruct none; [lkeep|].
  apply lkeeps_bind; [lkeep; by apply refs_cadence|intros _]. apply lkeeps_got. intros st Hst.
  apply announcements_refs. unfold relay_announcements. intros a (s & -> & Hs)%list_elem_of_fmap. by eapply eligible_live.
Qed.

Lemma poll_refs now now' : keeps P (relay_poll_discovery_announce now now').
Proof.
  unfold relay_poll_discovery_announce. apply lkeeps_bind; [lkeep; by apply refs_prune_reconcile|intros _].
  lkeep. apply announce_refs.
Qed.

Lemma learn_refs now src d : alive src -> keeps P (learn_discovery_item now src d).
Proof. intros Hl. unfold learn_discovery_item. lkeep. by apply refs_store. Qed.

Hint Resolve announce_refs poll_refs learn_refs : refs.

(** *** Links *)

Lemma control_refs ts ct side t seq : alive side -> keeps P (relay_queue_reliable_control ts ct side t seq).
Proof. intros Hl. unfold relay_queue_reliable_control. lkeep. Qed.

Lemma via_tx_refs key f : alive (fst key) -> sent_kept f -> keeps P (via (modify (update_tx key f))).
Proof. intros Hl Hf st Hst. by apply refs_update_tx. Qed.

Lemma relay_retransmit_refs side t seq : alive side -> keeps P (relay_queue_reliable_retransmit side t seq).
Proof.
  intros Hl st Hst. unfold relay_queue_reliable_retransmit.
  pose proof (retransmit_shrinks seq _ (refs_sent_sorted (reliable_key side t) st Hst)) as (_ & Hs & _).
  destruct (retransmit_state _ _) as [tx [bytes|]]; cbn [fst] in Hs.
  - apply push_replay_refs; [done|]. by apply refs_update_tx_state.
  - by apply refs_update_tx_state.
Qed.

Lemma scan_links_requeue now l links r side t seq :
  scan_links now l = (links, r) -> (side, t, seq) ∈ r -> exists raw, (side, raw) ∈ bt_keys l.
Proof.
  revert links r. induction l as [|[[side0 raw] tx] l IH]; intros links r; cbn [scan_links].
  { intros [= <- <-] Hin. by apply elem_of_nil in Hin. }
  destruct (scan_links now l) as [l' r0]. specialize (IH l' r0 eq_refl). destruct (type_try_from_u32 raw) as [t0|].
  - destruct (scan_timeouts _ _ _) as [tx' seqs]. intros [= <- <-]. rewrite elem_of_app.
    intros [(s & [= -> -> ->] & _)%list_elem_of_fmap|Hin]; [exists raw; left|].
    destruct (IH Hin) as [raw' Hr]. exists raw'. by right.
  - intros [= <- <-] Hin. destruct (IH Hin) as [raw' Hr]. exists raw'. by right.
Qed.

Lemma scan_links_sorted now l : links_sorted l -> links_sorted (fst (scan_links now l)).
Proof.
  intros [Hs Hl]. split.
  - apply (bt_sorted_keys l); [symmetry; apply scan_links_keys|done].
  - clear Hs. induction l as [|[[side raw] tx] l IH]; cbn [scan_links]; [by intros ? ? ?%elem_of_nil|].
    specialize (IH ltac:(intros k x Hx; apply (Hl k); by right)).
    pose proof (timeouts_shrink now (sent_order tx) tx ltac:(apply (Hl (side, raw)); left)) as (_ & Ht & _).
    destruct (scan_links now l) as [l' r]. cbn [fst] in IH. destruct (type_try_from_u32 raw); [destruct (scan_timeouts _ _ _)|];
      cbn [fst] in *; intros k x [[= -> ->]|Hin]%elem_of_cons; eauto. apply (Hl (side, raw)). left.
Qed.

Lemma requeue_refs l : (forall side t seq, (side, t, seq) ∈ l -> alive side) -> keeps P (relay_requeue_all l).
Proof.
  induction l as [|[[side t] seq] l IH]; intros Hl; cbn; [lkeep|].
  apply lkeeps_bind; [apply relay_retransmit_refs, (Hl side t seq); left|intros _; apply IH].
  intros s' t' q' Hin. eapply Hl. right. exact Hin.
Qed.

Lemma relay_timeouts_refs now : keeps P (relay_process_reliable_timeouts now).
Proof.
  intros st Hst. unfold relay_process_reliable_timeouts. pose proof (scan_links_keys now (rl_reliable_tx st)) as Hk.
  pose proof (scan_links_sorted now _ (rf_links _ _ _ Hst)) as Hs.
  destruct (scan_links now (rl_reliable_tx st)) as [links r] eqn:E. cbn [fst] in Hk. apply requeue_refs.
  - intros side t seq Hin. destruct (scan_links_requeue _ _ _ _ _ _ _ E Hin) as [raw Hr].
    by apply (rf_senders _ _ _ Hst (side, raw)).
  - apply refs_senders; [|exact Hs|done]. intros k. rewrite Hk. by apply (rf_senders _ _ _ Hst).
Qed.

Lemma refs_sample side n a b st : alive side -> P st -> P (relay_record_side_tx_sample side n a b st).
Proof. intros Hl Hst. by apply refs_stats. Qed.

Hint Resolve control_refs relay_retransmit_refs relay_timeouts_refs refs_sample : refs.

Lemma relay_sample_refs call side n : alive side -> keeps P (relay_sample call side n).
Proof. intros Hl. unfold relay_sample. lkeep. Qed.

Hint Resolve relay_sample_refs : refs.

Lemma relay_handler_refs call side h d : alive side -> keeps P (relay_call_tx_handler call side h d).
Proof. intros Hl. unfold relay_call_tx_handler. lkeep. Qed.

Lemma relay_bytes_refs call side bytes : alive side -> keeps P (relay_call_with_bytes call side bytes).
Proof. intros Hl. unfold relay_call_with_bytes. lkeep. Qed.

Lemma relay_allocate_refs side t : alive side -> keeps P (relay_allocate_seq side t).
Proof. intros Hl st Hst. unfold relay_allocate_seq. case_match; cbn [fst]; repeat (apply refs_update_tx; [done|by apply same_kept|]); done. Qed.

Hint Resolve relay_handler_refs relay_bytes_refs relay_allocate_refs : refs.

Lemma relay_send_refs call side d now sent : alive side -> keeps P (relay_send_reliable_to_side call side d now sent).
Proof.
  intros Hl. unfold relay_send_reliable_to_side, relay_send_sequenced. lkeep.
Qed.

Hint Resolve relay_send_refs : refs.

Lemma relay_transmit_refs call dst h o d now sent : alive dst -> keeps P (relay_transmit call dst h o d now sent).
Proof. intros Hl. unfold relay_transmit. lkeep. Qed.

Lemma relay_raw_refs call side bytes : alive side -> keeps P (relay_send_reliable_raw_to_side call side bytes).
Proof. intros Hl. unfold relay_send_reliable_raw_to_side. lkeep. Qed.

Hint Resolve relay_transmit_refs relay_raw_refs : refs.

Lemma relay_on_busy_refs m b : keeps P m -> keeps P b -> keeps P (relay_on_busy m b).
Proof.
  intros Hm Hb st Hst. unfold relay_on_busy. specialize (Hm st Hst). destruct (m st) as [st' [?|e|]]; [done| |done].
  case_match; [by apply Hb|done].
Qed.

Lemma replay_target_refs i : alive (rp_dst i) -> keeps P (replay_target i).
Proof. intros Hl. unfold replay_target. lkeep. intros st Hst. apply refs_update_tx; [done|by apply same_kept|done]. Qed.

Lemma send_replay_refs call now i key seq : alive (rp_dst i) -> alive (fst key) -> keeps P (send_replay call now i key seq).
Proof.
  intros Hl Hk. unfold send_replay. apply relay_on_busy_refs; lkeep.
Qed.

Lemma hop_ordered_refs src t seq bytes : alive src -> keeps P (relay_hop_ordered_state src t seq bytes).
Proof.
  intros Hl. unfold relay_hop_ordered_state. lkeep. intros st Hst. by apply refs_update_rx.
Qed.

Lemma touch_refs key : alive (fst key) -> keeps P (via (touch_rx key)).
Proof. intros Hl st Hst. by apply refs_update_rx. Qed.

Lemma relay_duplicate_refs d : keeps P (relay_is_duplicate_pkt d).
Proof. unfold relay_is_duplicate_pkt. lkeep. Qed.

Lemma hop_control_refs src pkt : alive src -> keeps P (relay_hop_control src pkt).
Proof.
  intros Hl. unfold relay_hop_control, relay_handle_reliable_ack, relay_handle_reliable_partial_ack. lkeep;
    apply via_tx_refs; auto with refs.
Qed.

Lemma relay_control_refs src pkt : alive src -> keeps P (relay_control_packet src pkt).
Proof. intros Hl. unfold relay_control_packet, note_end_to_end_ack. lkeep. by apply hop_control_refs. Qed.

Lemma note_route_refs src d : alive src -> keeps P (relay_note_return_route src d).
Proof. intros Hl. unfold relay_note_return_route. lkeep. Qed.

Lemma fan_out_refs src d l :
  alive src -> (forall s, s ∈ l -> alive s /\ s <> src) -> keeps P (push_tx_to_sides src d l).
Proof.
  intros Hs. induction l as [|s l IH]; intros Hl; cbn; [lkeep|]. apply lkeeps_bind; [lkeep|intros prio].
  apply lkeeps_bind; [|intros _; apply IH; intros; apply Hl; by right].
  destruct (Hl s ltac:(left)) as [Ha Hne]. apply push_tx_refs. split; [done|]. cbn. intros s' [= <-]. split; [done|]. intros ->. by apply Hne.
Qed.
End Refs.

#[export] Hint Resolve push_rx_refs push_tx_refs push_replay_refs relay_timeouts_refs control_refs relay_retransmit_refs
  announce_refs poll_refs learn_refs relay_plan_refs touch_refs hop_ordered_refs relay_duplicate_refs relay_control_refs
  note_route_refs fan_out_refs relay_transmit_refs send_replay_refs replay_target_refs : refs.
