(* ===== verification/RelayTraffic.v ===== *)
(** * Relay traffic and administration keep the invariants ([src/relay.rs])

    The public operations of a relay one by one: receiving, the queue loops,
    announcing, and the administration of sides and rules keep [relay_refs] of
    [RelayInvariant]; and so does any sequence of them, from a relay just made,
    whatever the callbacks and the clock answer. *)

From stdpp Require Import gmap.
From S2P Require Import Prelude Ordered Telemetry Config Schema Queue SmallPayload Wire Packet Serialize TimeSync Discovery RouterState Routes Reliable Plan Topology EndToEnd Announce World Invariant RelayState RelayPlan RelayTopology RelayLink RelayRun RelayInvariant RelayPlanning.

(** ** What a computation answers *)

(** Started in [P], [m] answers only what [Q] admits. *)
Definition answers {St A} (P : St -> Prop) (m : St -> St * TelemetryResult A) (Q : A -> Prop) : Prop :=
  forall st, P st -> forall st' a, m st = (st', Ok a) -> Q a.

Section Traffic.
Context `{Config} `{Schema} `{External} `{Layout} `{RelayLayout}.
Context (env : Environment) (sds : list (option RouterSide)) (sc : Scope).
Notation P := (relay_refs sds sc).
Notation PW := (fun w => relay_refs sds sc (relay_state w)).
Notation alive := (live sds).

Lemma rkeeps_bind {A B} (m : LW A) (f : A -> LW B) : keeps PW m -> (forall a, keeps PW (f a)) -> keeps PW (m ≫= f).
Proof.
  intros Hm Hf w Hw. rewrite LW_run. specialize (Hm w Hw). destruct (m w) as [w' [a|e|]]; [|done..]. by apply Hf.
Qed.

Lemma rkeeps_bind_answer {A B} (m : LW A) (Q : A -> Prop) (f : A -> LW B) :
  keeps PW m -> answers PW m Q -> (forall a, Q a -> keeps PW (f a)) -> keeps PW (m ≫= f).
Proof.
  intros Hm Ha Hf w Hw. rewrite LW_run. pose proof (Hm w Hw) as H'. specialize (Ha w Hw).
  destruct (m w) as [w' [a|e|]]; [|done..]. apply Hf; eauto.
Qed.

Lemma rkeeps_ret {A} (a : A) : keeps PW (mret a : LW A).
Proof. by intros w. Qed.

Lemma rkeeps_locked {A} (m : LM A) : keeps P m -> keeps PW (relay_locked m).
Proof. intros Hm w Hw. unfold relay_locked. specialize (Hm _ Hw). by destruct (m (relay_state w)). Qed.

Lemma answers_locked {A} (m : LM A) Q : answers P m Q -> answers PW (relay_locked m) Q.
Proof.
  intros Hm w Hw w' a. unfold relay_locked. specialize (Hm _ Hw). destruct (m (relay_state w)) as [st r] eqn:E.
  intros [= _ ->]. by eapply Hm.
Qed.

Lemma rkeeps_ask {A} (f : Z -> A) : keeps PW (relay_ask f).
Proof. by intros w. Qed.

Lemma rkeeps_answer {A} (r : TelemetryResult A) : keeps PW (relay_answer r).
Proof. by intros w. Qed.

Lemma rkeeps_log e : keeps PW (relay_log e).
Proof. by intros w. Qed.

Lemma rkeeps_now : keeps PW (relay_now env).
Proof. by intros w. Qed.

Lemma rkeeps_call side : keeps PW (relay_side_call env side).
Proof. by intros w. Qed.

Lemma rkeeps_attempt {A} (m : LW A) : keeps PW m -> keeps PW (relay_attempt m).
Proof. intros Hm w Hw. unfold relay_attempt. specialize (Hm w Hw). by destruct (m w) as [w' []]. Qed.

Hint Resolve rkeeps_ret rkeeps_locked rkeeps_ask rkeeps_answer rkeeps_log rkeeps_now rkeeps_call rkeeps_attempt : refs.
Hint Extern 1 (keeps _ (fun st => (st, _))) => (by intros ?) : refs.
Hint Resolve lkeeps_get : refs.

Ltac rkeep := repeat first
  [ lazymatch goal with |- keeps _ (mbind _ _) => apply rkeeps_bind; [|intros ?] end
  | assumption | solve [auto with refs]
  | case_match ].

(** ** Receiving *)

Lemma plan_answers now d src :
  answers P (relay_remote_side_plan now d src) (Forall (fun s => alive s /\ s <> src)).
Proof.
  intros st Hst st' l. unfold relay_remote_side_plan, relay_apply_route_selection_locked.
  destruct (relay_plan_choice_of now d src st) as [c|e|] eqn:Ec; [|done..].
  pose proof (relay_choice_safe _ _ _ _ _ Ec) as (eps & t & _ & Hp & _).
  assert (Forall (fun s => alive s /\ s <> src) (choice_sides c)) as Hc.
  { apply Forall_forall. intros s Hs. destruct (Hp s Hs) as [Hne Hpol]. split; [|done].
    destruct (relay_choice_origin _ _ _ _ _ s Ec Hs) as [H0'|[Hk|[id Hr]]];
      [|by apply (rf_route_sides _ _ _ Hst)|by apply (rf_returns _ _ _ Hst id)].
    by apply (allowed_live sds sc st (Some src) (Some t) s), relay_allowed_spec. }
  destruct c as [k|k o]; cbn [choice_sides] in Hc.
  - by intros [= _ <-].
  - pose proof (selected_sub (Some src) k o (common st)) as Hsub.
    destruct (apply_route_selection_locked _ _ _ _) as [c' r]. intros [= _ <-].
    rewrite Forall_forall in *. intros s Hs%Hsub. by apply Hc.
Qed.

Lemma relay_plan_keeps d src : alive src -> keeps PW (relay_plan env d src).
Proof. intros Hl. unfold relay_plan. rkeep. Qed.

Lemma relay_plan_answers d src :
  answers PW (relay_plan env d src) (Forall (fun s => alive s /\ s <> src)).
Proof.
  intros w Hw w' l. unfold relay_plan. rewrite LW_run. cbn [relay_now relay_ask].
  apply (answers_locked (relay_remote_side_plan _ d src)); [|done]. apply plan_answers.
Qed.

Lemma relay_queue_control_keeps ct side t seq : alive side -> keeps PW (relay_queue_control env ct side t seq).
Proof. intros Hl. unfold relay_queue_control. rkeep. Qed.

Hint Resolve relay_plan_keeps relay_queue_control_keeps : refs.

Lemma hop_receive_keeps src bytes : alive src -> keeps PW (relay_hop_receive env src bytes).
Proof.
  intros Hl. assert (forall t, keeps PW (relay_locked (via (touch_rx (reliable_key src t))))) as Ht.
  { intros t. by apply rkeeps_locked, touch_refs. }
  unfold relay_hop_receive, relay_hop_sequenced, relay_hop_ordered, relay_hop_corrupt. rkeep.
Qed.

Lemma should_forward_keeps src d : alive src -> keeps PW (should_forward_duplicate_reliable_item env src d).
Proof. intros Hl. unfold should_forward_duplicate_reliable_item. rkeep. Qed.

Hint Resolve hop_receive_keeps should_forward_keeps : refs.

Lemma suppressed_keeps src d : alive src -> keeps PW (relay_suppressed env src d).
Proof. intros Hl. unfold relay_suppressed. rkeep. Qed.

Lemma forward_keeps src d : alive src -> keeps PW (relay_forward env src d).
Proof.
  intros Hl. unfold relay_forward. apply rkeeps_bind; [rkeep|intros now]. apply rkeeps_bind; [rkeep|intros _].
  eapply rkeeps_bind_answer; [rkeep|apply relay_plan_answers|]. intros l Hs.
  apply rkeeps_locked, fan_out_refs; [done|]. intros s Hin. rewrite Forall_forall in Hs. by apply Hs.
Qed.

Hint Resolve suppressed_keeps forward_keeps : refs.

Lemma dispatch_rx_keeps src d : alive src -> keeps PW (dispatch_relay_rx_item env src d).
Proof. intros Hl. unfold dispatch_relay_rx_item, dispatch_relay_packet. rkeep. Qed.

Hint Resolve dispatch_rx_keeps : refs.

Lemma released_keeps src l : alive src -> keeps PW (relay_dispatch_released env src l).
Proof. intros Hl. induction l as [|bytes l IH]; cbn [relay_dispatch_released]; rkeep. Qed.

Hint Resolve released_keeps : refs.

Lemma rx_item_keeps i : alive (rrx_src i) -> keeps PW (process_rx_queue_item env i).
Proof. intros Hl. unfold process_rx_queue_item, relay_rx_unique. rkeep. Qed.

Lemma ingress_answers src : 0 <= src -> answers P (fun st => (st, relay_ensure_side_ingress_enabled st src)) (fun _ => alive src).
Proof.
  intros H0' st Hst st' []. unfold relay_ensure_side_ingress_enabled, relay_side_ref, relay_side_at, side_at.
  cbn [common sides]. rewrite (rf_sides _ _ _ Hst). intros [= _ Ho].
  destruct (mjoin (sds !! Z.to_nat src)) as [s|] eqn:E; [|done]. split; [done|]. rewrite E. by exists s.
Qed.

Lemma rx_from_side_keeps src d : sc_rx sc = None -> 0 <= src -> keeps PW (relay_rx_from_side src d).
Proof.
  intros Hn H0'. unfold relay_rx_from_side.
  eapply rkeeps_bind_answer; [rkeep|by apply answers_locked, ingress_answers|]. intros [] Hl.
  apply rkeeps_locked. apply lkeeps_bind; [by intros st|intros prio]. by apply push_rx_refs.
Qed.

(** ** Transmitting *)

Lemma pop_replay_keeps : keeps P pop_replay.
Proof.
  intros st Hst. unfold pop_replay. pose proof (pop_front_elem (rl_replay_queue st)) as He.
  destruct (pop_front _) as [o d]. cbn [fst snd] in *. apply refs_replay; [|done]. intros x Hx%He. by apply (rf_replay _ _ _ Hst).
Qed.

Lemma pop_replay_answers : answers P pop_replay (fun o => forall i, o = Some i -> alive (rp_dst i)).
Proof.
  intros st Hst st' o. unfold pop_replay. pose proof (pop_front_head (rl_replay_queue st)) as He.
  destruct (pop_front _) as [o' d]. cbn [fst] in He. intros [= _ <-] i ->. by apply (rf_replay _ _ _ Hst), He.
Qed.

Lemma pop_tx_keeps : keeps P pop_ready_tx_item.
Proof.
  intros st Hst. unfold pop_ready_tx_item. pose proof (pop_front_elem (rl_tx_queue st)) as He.
  destruct (pop_front _) as [o d]. cbn [fst snd] in *. apply refs_tx; [|done]. intros x Hx%He. by apply (refs_tx_ok sds sc st).
Qed.

Lemma pop_tx_answers : answers P pop_ready_tx_item (fun o => forall i s, o = Some (i, s) -> tx_ok sds i).
Proof.
  intros st Hst st' o. unfold pop_ready_tx_item. pose proof (pop_front_head (rl_tx_queue st)) as He.
  destruct (pop_front _) as [o' d]. cbn [fst] in He. intros [= _ <-] i s. destruct o' as [j|]; [|done]. cbn.
  destruct (relay_side_at _ _); [|done]. intros [= <- _]. by apply (refs_tx_ok sds sc st _ Hst), He.
Qed.

Lemma pop_rx_keeps : keeps P relay_pop_rx.
Proof.
  intros st Hst. unfold relay_pop_rx. pose proof (pop_front_elem (rl_rx_queue st)) as He.
  pose proof (pop_front_length (rl_rx_queue st)) as Hle.
  destruct (pop_front _) as [o d]. cbn [fst snd] in *. apply refs_rx; [|by right|done]. intros x Hx%He. by apply (rf_rx _ _ _ Hst).
Qed.

Lemma pop_rx_answers : answers P relay_pop_rx (fun o => forall i, o = Some i -> alive (rrx_src i)).
Proof.
  intros st Hst st' o. unfold relay_pop_rx. pose proof (pop_front_head (rl_rx_queue st)) as He.
  destruct (pop_front _) as [o' d]. cbn [fst] in He. intros [= _ <-] i ->. by apply (rf_rx _ _ _ Hst), He.
Qed.

Lemma replay_target_answers i :
  alive (rp_dst i) -> answers P (replay_target i) (fun o => forall key seq, o = Some (key, seq) -> alive (fst key)).
Proof.
  intros Hl st Hst st' o. unfold replay_target. rewrite LM_run. cbn [relay_lift].
  destruct (peek_frame_info (rp_bytes i)) as [frame|e|]; [|done..]. destruct (fi_reliable frame) as [hdr|]; [|by intros [= _ <-]].
  rewrite LM_run. destruct (via _ st) as [st1 [known|e|]]; [|done..]. intros [= _ <-] key seq.
  destruct known; [|done]. by intros [= <- _].
Qed.

Lemma process_replay_keeps : keeps PW (process_replay_queue_item env).
Proof.
  unfold process_replay_queue_item. eapply rkeeps_bind_answer; [apply rkeeps_locked, pop_replay_keeps|apply answers_locked, pop_replay_answers|].
  intros [i|] Hi; [|rkeep]. specialize (Hi i eq_refl).
  eapply rkeeps_bind_answer; [by apply rkeeps_locked, replay_target_refs|by apply answers_locked, replay_target_answers|].
  intros [[key seq]|] Hk; [|rkeep]. specialize (Hk key seq eq_refl). rkeep.
Qed.

Lemma tx_allowed_keeps src dst d : keeps P (relay_tx_allowed src dst d).
Proof. unfold relay_tx_allowed. apply lkeeps_bind; [by intros st|intros t]. by intros st. Qed.

Hint Resolve tx_allowed_keeps process_replay_keeps : refs.

Lemma send_tx_keeps i s : tx_ok sds i -> keeps PW (send_tx_item env i s).
Proof. intros [Hl _]. unfold send_tx_item. rkeep. Qed.

Lemma busy_keeps i : tx_ok sds i -> keeps PW (requeue_busy i).
Proof. intros Hl. unfold requeue_busy. rkeep. Qed.

Lemma timed_out_r_keeps timeout start : keeps PW (relay_timed_out env timeout start).
Proof. unfold relay_timed_out. rkeep. Qed.

Lemma expiry_keeps : keeps PW (relay_timeouts env).
Proof. unfold relay_timeouts. rkeep. Qed.

Hint Resolve send_tx_keeps busy_keeps timed_out_r_keeps expiry_keeps : refs.

(** ** The loops *)

Lemma tx_round_keeps timeout start : keeps PW (relay_tx_round env timeout start).
Proof.
  unfold relay_tx_round. apply rkeeps_bind; [rkeep|intros _]. apply rkeeps_bind; [rkeep|intros replayed].
  destruct replayed; [rkeep|].
  eapply rkeeps_bind_answer; [apply rkeeps_locked, pop_tx_keeps|apply answers_locked, pop_tx_answers|].
  intros [[i s]|] Hi; [|rkeep]. specialize (Hi i s eq_refl). rkeep.
Qed.

Lemma rx_round_keeps timeout start : keeps PW (relay_rx_round env timeout start).
Proof.
  unfold relay_rx_round.
  eapply rkeeps_bind_answer; [apply rkeeps_locked, pop_rx_keeps|apply answers_locked, pop_rx_answers|].
  intros [i|] Hi; [|rkeep]. apply rkeeps_bind; [by apply rx_item_keeps, Hi|intros _]. rkeep.
Qed.

Lemma all_round_keeps timeout start : keeps PW (relay_all_round env timeout start).
Proof.
  unfold relay_all_round. apply rkeeps_bind; [rkeep|intros _].
  eapply rkeeps_bind_answer; [apply rkeeps_locked, pop_rx_keeps|apply answers_locked, pop_rx_answers|]. intros o Ho.
  apply rkeeps_bind; [destruct o as [i|]; [apply rkeeps_bind; [by apply rx_item_keeps, Ho|]|]; rkeep|intros received].
  apply rkeeps_bind; [rkeep|intros over]. destruct over; [rkeep|]. apply rkeeps_bind; [rkeep|intros replayed].
  eapply rkeeps_bind_answer; [apply rkeeps_locked, pop_tx_keeps|apply answers_locked, pop_tx_answers|]. intros o' Ho'.
  apply rkeeps_bind; [destruct o' as [[i s]|]; [apply send_tx_keeps; eauto|]|intros sent]; rkeep.
Qed.

Lemma loop_keeps fuel round : keeps PW round -> keeps PW (relay_loop fuel round).
Proof.
  intros Hr. induction fuel as [|fuel IH]; cbn [relay_loop]; [rkeep|]. apply rkeeps_bind; [done|]. intros more. rkeep.
Qed.

Hint Resolve tx_round_keeps rx_round_keeps all_round_keeps loop_keeps : refs.

Lemma process_keeps fuel timeout :
  keeps PW (relay_process_tx_queue_with_timeout env fuel timeout)
  /\ keeps PW (relay_process_rx_queue_with_timeout env fuel timeout)
  /\ keeps PW (relay_process_all_queues_with_timeout env fuel timeout).
Proof.
  unfold relay_process_tx_queue_with_timeout, relay_process_rx_queue_with_timeout, relay_process_all_queues_with_timeout,
    relay_side_tx_active. split_and!; rkeep.
Qed.

Lemma polling_keeps : keeps PW (relay_announce_discovery env) /\ keeps PW (relay_poll_discovery env).
Proof. unfold relay_announce_discovery, relay_poll_discovery. split; rkeep. Qed.

Lemma periodic_keeps fuel timeout : keeps PW (relay_periodic env fuel timeout).
Proof. unfold relay_periodic. apply rkeeps_bind; [apply polling_keeps|intros _; apply process_keeps]. Qed.

Lemma clears_keep : keeps P relay_clear_queues /\ keeps P relay_clear_rx_queue /\ keeps P relay_clear_tx_queue.
Proof.
  assert (forall T (d : BoundedDeque T) x, x ∈ q (clear d) -> False) as Hc by (by intros T d x ?%elem_of_nil).
  split_and!; apply lkeeps_modify; intros st Hst; repeat first [apply refs_tx|apply refs_rx|apply refs_replay]; try done; try (intros ? []%Hc); right; cbn; lia.
Qed.
End Traffic.

(** ** Administration *)

(** Every id in the tables is that of a side of the relay. *)
Definition consistent `{Config} (st : RelayInner) : Prop := relay_refs (rl_sides st) anything st.

Section Admin.
Context `{Config} `{Layout} `{RelayLayout}.
Notation P := (fun st => relay_refs (rl_sides st) anything st).

Lemma known_live sds st s : relay_refs sds anything st -> 0 <= s -> is_some (side_at (common st) s) = true -> live sds s.
Proof.
  intros Hst H0' Hs. split; [done|]. unfold side_at in Hs. cbn [common sides] in Hs. rewrite (rf_sides _ _ _ Hst) in Hs.
  by destruct (mjoin _).
Qed.

Lemma admin_consistent src dst now f :
  source_index src -> source_index dst ->
  (forall sds st, relay_refs sds anything st -> (forall s, src = Some s -> live sds s) -> (forall d, dst = Some d -> live sds d) ->
     relay_refs sds anything (with_common (f (common st)) st)) ->
  keeps P (via (admin src dst now f)).
Proof.
  intros Hs Hd Hf st Hst. unfold via, admin. destruct (sides_known (common st) src dst) eqn:E; cbn [fst].
  2: by rewrite with_common_id.
  apply andb_true_iff in E as [Ed Es].
  assert (relay_refs (rl_sides st) anything (with_common (f (common st)) st)) as Hr.
  { apply Hf; [done|intros s ->|intros d ->]; eapply known_live; eauto. }
  assert (relay_refs (rl_sides st) anything (with_common (note_discovery_topology_change_locked now (f (common st))) st)) as Hn.
  { destruct Hr as [? [] ? ? ? ? ? ? ? ? ? ? ? ? [] ? ? ? ?]. split; first [assumption|split; assumption]. }
  unfold consistent. by rewrite (rf_sides _ _ _ Hn).
Qed.

Ltac rules_updated :=
  match goal with Hst : relay_refs _ _ _ |- _ => destruct Hst as [? [] ? ? ? ? ? ? ? ? ? ? ? ? ? ? ? ? ?] end;
  match goal with Hc : caches_ok _ |- _ => destruct Hc end;
  repeat match goal with |- relay_refs _ _ _ => split | |- rules_live _ _ => split | |- caches_ok _ => split end;
  cbn -[bt_keys]; try assumption; intros *;
  rewrite ?lookup_insert_Some, ?lookup_delete_Some; try naive_solver.

Lemma set_source_route_mode_consistent src mode now :
  source_index src -> keeps P (relay_set_source_route_mode src mode now).
Proof.
  intros Hs. apply admin_consistent; [done..|]. intros sds st Hst Hl _. case_decide; rules_updated.
Qed.

Lemma route_weight_consistent src dst w now :
  source_index src -> 0 <= dst ->
  keeps P (relay_set_route_weight src dst w now) /\ keeps P (relay_clear_route_weight src dst now).
Proof.
  intros Hs Hd. split; (apply admin_consistent; [done|by intros d [= <-]|]; intros sds st Hst Hl Hl'; rules_updated).
Qed.

Lemma route_priority_consistent src dst p now :
  source_index src -> 0 <= dst ->
  keeps P (relay_set_route_priority src dst p now) /\ keeps P (relay_clear_route_priority src dst now).
Proof.
  intros Hs Hd. split; (apply admin_consistent; [done|by intros d [= <-]|]; intros sds st Hst Hl Hl'; rules_updated).
Qed.

Lemma route_consistent src dst b now :
  source_index src -> 0 <= dst ->
  keeps P (relay_set_route src dst b now) /\ keeps P (relay_clear_route src dst now).
Proof.
  intros Hs Hd. split; (apply admin_consistent; [done|by intros d [= <-]|]; intros sds st Hst Hl Hl'; rules_updated).
Qed.

Lemma typed_route_consistent src t dst b now :
  source_index src -> 0 <= dst ->
  keeps P (relay_set_typed_route src t dst b now) /\ keeps P (relay_clear_typed_route src t dst now).
Proof.
  intros Hs Hd. split; (apply admin_consistent; [done|by intros d [= <-]|]; intros sds st Hst Hl Hl'; rules_updated).
Qed.

(** More sides, or other options for one. *)
Lemma refs_more sds sds' st :
  (forall s, live sds s -> live sds' s) -> relay_refs sds anything st -> relay_refs sds' anything (on_common (set_sides sds') st).
Proof.
  intros Hl [? [] ? ? Htx ? ? ? ? ? ? ? ? ? [] ? ? ? ?]. split; cbn -[bt_keys]; try assumption; eauto.
  - split; cbn; eauto.
  - intros i s Hi Hs. destruct (Htx i s Hi Hs). eauto.
  - split; assumption.
Qed.

Lemma refs_note_change_any sds now st : relay_refs sds anything st -> relay_refs sds anything (relay_note_discovery_topology_change_locked now st).
Proof. intros [? [] ? ? ? ? ? ? ? ? ? ? ? ? [] ? ? ? ?]. split; first [assumption|split; assumption]. Qed.

Lemma refs_consistent sds st : relay_refs sds anything st -> relay_refs (rl_sides st) anything st.
Proof. intros Hst. by rewrite (rf_sides _ _ _ Hst). Qed.

Lemma add_side_consistent name handler o now : keeps P (relay_add_side name handler o now).
Proof.
  intros st Hst. unfold relay_add_side, add_side. cbn zeta. cbn [fst].
  set (sds := rl_sides st ++ [Some {| side_name := name; tx_handler := handler; opts := o |}]).
  apply (refs_consistent sds), (refs_note_change_any sds now (on_common (set_sides sds) st)).
  apply (refs_more (rl_sides st)); [|done].
  intros s. rewrite !live_lookup. intros [Hs [x Hx]]. split; [done|]. exists x. by apply lookup_app_l_Some.
Qed.

Lemma side_at_live st side s :
  0 <= side -> side_at (common st) side = Some s -> live (rl_sides st) side.
Proof.
  intros H0' Hs. apply live_lookup. split; [done|]. unfold side_at in Hs. cbn [common sides] in Hs.
  destruct (rl_sides st !! Z.to_nat side) as [[x|]|]; [by exists x|done..].
Qed.

Lemma set_ingress_consistent side enabled now : 0 <= side -> keeps P (relay_set_side_ingress_enabled side enabled now).
Proof.
  intros H0' st Hst. unfold relay_set_side_ingress_enabled, via, set_side_ingress_enabled.
  destruct (side_at (common st) side) as [s|] eqn:E; cbn [fst]; [|by rewrite with_common_id].
  match goal with |- context [Some (with_opts ?o s)] => set (s' := with_opts o s) end.
  set (sds := <[Z.to_nat side := Some s']> (rl_sides st)).
  apply (refs_consistent sds), (refs_note_change_any sds now (on_common (set_sides sds) st)).
  apply (refs_more (rl_sides st)); [|done]. intros x. by apply live_update.
Qed.

Lemma retain_rx_refs sds keep st : relay_refs sds anything st -> relay_refs sds anything (set_rl_rx_queue (retain keep (rl_rx_queue st)) st).
Proof. intros Hst. apply refs_rx; [|by left|done]. intros x [_ Hx]%retain_elem. by apply (rf_rx _ _ _ Hst). Qed.

Lemma retain_tx_refs sds keep st : relay_refs sds anything st -> relay_refs sds anything (set_rl_tx_queue (retain keep (rl_tx_queue st)) st).
Proof. intros Hst. apply refs_tx; [|done]. intros x [_ Hx]%retain_elem. by apply (refs_tx_ok _ anything st). Qed.

Lemma retain_replay_refs sds keep st :
  relay_refs sds anything st -> relay_refs sds anything (set_rl_replay_queue (retain keep (rl_replay_queue st)) st).
Proof. intros Hst. apply refs_replay; [|done]. intros x [_ Hx]%retain_elem. by apply (rf_replay _ _ _ Hst). Qed.

Lemma set_egress_consistent side enabled now : 0 <= side -> keeps P (relay_set_side_egress_enabled side enabled now).
Proof.
  intros H0' st Hst. unfold relay_set_side_egress_enabled.
  destruct (relay_side_at st side) as [s|] eqn:E; cbn [fst]; [|done]. cbn zeta. cbn [fst].
  match goal with |- context [Some (with_opts ?o s)] => set (s' := with_opts o s) end.
  assert (relay_refs (<[Z.to_nat side := Some s']> (rl_sides st)) anything (on_common (update_side side (Some s')) st)) as Hr.
  { apply (refs_more (rl_sides st)); [|done]. intros x. by apply live_update. }
  eapply refs_consistent, refs_note_change_any. destruct enabled; [exact Hr|].
  apply (retain_tx_refs _ (fun i => negb (rtx_dst i =? side))) in Hr.
  exact (retain_replay_refs _ (fun i => negb (rp_dst i =? side)) _ Hr).
Qed.

(** *** Removing a side *)

Lemma forget_refs side st :
  0 <= side -> relay_refs (rl_sides st) anything st ->
  let sds := <[Z.to_nat side := None]> (rl_sides st) in
  let st' := on_common (forget_side_tables side) st in
  relay_refs sds anything (set_rl_replay_queue (retain (fun i => negb (rp_dst i =? side)) (rl_replay_queue st'))
    (set_rl_tx_queue (retain (fun i => negb (tx_involves side i)) (rl_tx_queue st'))
      (set_rl_rx_queue (retain (fun i => negb (rrx_src i =? side)) (rl_rx_queue st')) st'))).
Proof.
  intros H0' Hst sds st'. pose proof (caches_filter_returns (common st) side (rf_caches _ _ _ Hst)) as Hc.
  pose proof (fun s Hl Hne => live_remove (rl_sides st) side s H0' Hl Hne) as Hlive.
  pose proof (routes_ok_remove side _ (rf_routes _ _ _ Hst)) as Hro. pose proof (rf_routes _ _ _ Hst) as Hsorted.
  destruct Hst as [? [] Hrx Htx Htxs Hrp Hsn [Hls Hlt] Hrc ? Hrs Hret Hsta Hcur ? ? ? ? ?].
  split; [done| | | | | | |split; [by apply bt_retain_sorted|intros k tx [_ Hin]%elem_of_bt_retain; eauto]| |exact Hro| | | | |destruct Hc; split; assumption|done|done|done|done]; cbn -[bt_keys bt_retain bt_remove retain].
  - split; cbn; intros *; rewrite ?map_lookup_filter_Some, ?lookup_delete_Some; cbn; naive_solver.
  - intros i [Hk%negb_true_iff%Z.eqb_neq Hi]%retain_elem. auto.
  - intros i [Hk Hi]%retain_elem. apply negb_true_iff in Hk. unfold tx_involves in Hk.
    apply orb_false_iff in Hk as [Hk%Z.eqb_neq _]. auto.
  - intros i s [Hk Hi]%retain_elem Hs. apply negb_true_iff in Hk. unfold tx_involves in Hk.
    apply orb_false_iff in Hk as [_ Hk%bool_decide_eq_false]. destruct (Htxs i s Hi Hs). split; [apply Hlive; congruence|done].
  - intros i [Hk%negb_true_iff%Z.eqb_neq Hi]%retain_elem. auto.
  - intros k (v & Hk%negb_true_iff%Z.eqb_neq & Hi)%bt_retain_keys. auto.
  - intros k (v & Hk%negb_true_iff%Z.eqb_neq & Hi)%bt_retain_keys. auto.
  - intros k Hk. apply Hlive; [by apply Hrs, (bt_remove_keys side)|]. intros ->.
    apply bt_keys_elem in Hk as [v Hk]. apply bt_get_elem in Hk; [|apply Hro].
    rewrite bt_get_remove_eq in Hk; [done|apply Hsorted].
  - intros id s. rewrite map_lookup_filter_Some. cbn. naive_solver.
  - intros s x. rewrite lookup_delete_Some. naive_solver.
  - intros s x. rewrite lookup_delete_Some. naive_solver.
Qed.

Lemma remove_side_consistent side now : 0 <= side -> keeps P (relay_remove_side side now).
Proof.
  intros H0' st Hst. unfold relay_remove_side. destruct (relay_side_at st side) as [s|]; cbn zeta; cbn [fst]; [|done].
  eapply refs_consistent, refs_note_change_any. by apply forget_refs.
Qed.
End Admin.

(** ** Sequences of public operations *)

Inductive RelayOp :=
| RelayRx (src : RouterSideId) (d : RouterItem)
| RelayProcessTx (timeout_ms : Z)
| RelayProcessRx (timeout_ms : Z)
| RelayProcessAll (timeout_ms : Z)
| RelayPeriodic (timeout_ms : Z)
| RelayAnnounceDiscovery
| RelayPollDiscovery
| RelayClearQueues
| RelayClearRx
| RelayClearTx
| RelayAddSide (name : Str) (handler : RouterTxHandlerFn) (o : RouterSideOptions)
| RelayRemoveSide (side : RouterSideId)
| RelaySetIngress (side : RouterSideId) (enabled : bool)
| RelaySetEgress (side : RouterSideId) (enabled : bool)
| RelaySetMode (src : option RouterSideId) (mode : RouteSelectionMode)
| RelaySetWeight (src : option RouterSideId) (dst : RouterSideId) (w : Z)
| RelayClearWeight (src : option RouterSideId) (dst : RouterSideId)
| RelaySetPriority (src : option RouterSideId) (dst : RouterSideId) (p : Z)
| RelayClearPriority (src : option RouterSideId) (dst : RouterSideId)
| RelaySetRoute (src : option RouterSideId) (dst : RouterSideId) (enabled : bool)
| RelayClearRoute (src : option RouterSideId) (dst : RouterSideId)
| RelaySetTypedRoute (src : option RouterSideId) (t : DataType) (dst : RouterSideId) (enabled : bool)
| RelayClearTypedRoute (src : option RouterSideId) (t : DataType) (dst : RouterSideId).

Section RelayRunOps.
Context `{Config} `{Schema} `{External} `{Layout} `{RelayLayout}.
Context (env : Environment) (fuel : nat).

Definition relay_discard {A} (m : LW A) : LW unit := _ ← m; mret tt.

(** An administration operation reads the clock for the topology change. *)
Definition relay_admin {A} (f : Z -> LM A) : LW unit := now ← relay_now env; relay_discard (relay_locked (f now)).

Definition run_relay_op (o : RelayOp) : LW unit :=
  match o with
  | RelayRx src d => relay_rx_from_side src d
  | RelayProcessTx timeout => relay_process_tx_queue_with_timeout env fuel timeout
  | RelayProcessRx timeout => relay_process_rx_queue_with_timeout env fuel timeout
  | RelayProcessAll timeout => relay_process_all_queues_with_timeout env fuel timeout
  | RelayPeriodic timeout => relay_periodic env fuel timeout
  | RelayAnnounceDiscovery => relay_announce_discovery env
  | RelayPollDiscovery => relay_discard (relay_poll_discovery env)
  | RelayClearQueues => relay_locked relay_clear_queues
  | RelayClearRx => relay_locked relay_clear_rx_queue
  | RelayClearTx => relay_locked relay_clear_tx_queue
  | RelayAddSide name handler o => relay_admin (relay_add_side name handler o)
  | RelayRemoveSide side => relay_admin (relay_remove_side side)
  | RelaySetIngress side enabled => relay_admin (relay_set_side_ingress_enabled side enabled)
  | RelaySetEgress side enabled => relay_admin (relay_set_side_egress_enabled side enabled)
  | RelaySetMode src mode => relay_admin (relay_set_source_route_mode src mode)
  | RelaySetWeight src dst w => relay_admin (relay_set_route_weight src dst w)
  | RelayClearWeight src dst => relay_admin (relay_clear_route_weight src dst)
  | RelaySetPriority src dst p => relay_admin (relay_set_route_priority src dst p)
  | RelayClearPriority src dst => relay_admin (relay_clear_route_priority src dst)
  | RelaySetRoute src dst enabled => relay_admin (relay_set_route src dst enabled)
  | RelayClearRoute src dst => relay_admin (relay_clear_route src dst)
  | RelaySetTypedRoute src t dst enabled => relay_admin (relay_set_typed_route src t dst enabled)
  | RelayClearTypedRoute src t dst => relay_admin (relay_clear_typed_route src t dst)
  end.

(** The side ids of an operation are indexes. *)
Definition op_indexes (o : RelayOp) : Prop :=
  match o with
  | RelayRx src _ => 0 <= src
  | RelayRemoveSide side | RelaySetIngress side _ | RelaySetEgress side _ => 0 <= side
  | RelaySetMode src _ => source_index src
  | RelaySetWeight src dst _ | RelayClearWeight src dst | RelaySetPriority src dst _ | RelayClearPriority src dst
  | RelaySetRoute src dst _ | RelayClearRoute src dst | RelaySetTypedRoute src _ dst _ | RelayClearTypedRoute src _ dst =>
      source_index src /\ 0 <= dst
  | _ => True
  end.

(** The operations on sides and rules. *)
Definition is_traffic (o : RelayOp) : Prop :=
  match o with
  | RelayRx _ _ | RelayProcessTx _ | RelayProcessRx _ | RelayProcessAll _ | RelayPeriodic _ | RelayAnnounceDiscovery
  | RelayPollDiscovery | RelayClearQueues | RelayClearRx | RelayClearTx => True
  | _ => False
  end.

(** The application goes on after an error. *)
Definition run_relay_ops (ops : list RelayOp) (w : RelayWorld) : RelayWorld :=
  foldl (fun w o => fst (run_relay_op o w)) w ops.

Notation PW := (fun w => consistent (relay_state w)).

Lemma traffic_keeps sds sc o : sc_rx sc = None -> op_indexes o -> is_traffic o -> keeps (fun w => relay_refs sds sc (relay_state w)) (run_relay_op o).
Proof.
  intros Hn. pose proof (process_keeps env sds sc fuel) as Hp. pose proof (polling_keeps env sds sc) as Ha.
  pose proof (clears_keep sds sc) as Hc.
  destruct o; cbn [op_indexes is_traffic run_relay_op]; intros Hi Ht; try done.
  - by apply rx_from_side_keeps.
  - apply Hp.
  - apply Hp.
  - apply Hp.
  - apply periodic_keeps.
  - apply Ha.
  - unfold relay_discard. apply rkeeps_bind; [apply Ha|intros _; apply rkeeps_ret].
  - apply rkeeps_locked, Hc.
  - apply rkeeps_locked, Hc.
  - apply rkeeps_locked, Hc.
Qed.

Lemma admin_keeps {A} (f : Z -> LM A) : (forall now, keeps consistent (f now)) -> keeps PW (relay_admin f).
Proof.
  intros Hf w Hw. unfold relay_admin, relay_discard. rewrite LW_run. cbn [relay_now relay_ask].
  rewrite LW_run. unfold relay_locked. cbn [relay_state].
  specialize (Hf (ms_at env (relay_tick w) 0) _ Hw). by destruct (f _ (relay_state w)) as [st []].
Qed.

Lemma op_keeps o : op_indexes o -> keeps PW (run_relay_op o).
Proof.
  intros Hi. assert (is_traffic o -> keeps PW (run_relay_op o)) as Ht.
  { intros Ht w Hw. unfold consistent. pose proof (traffic_keeps _ anything o eq_refl Hi Ht w Hw) as Hr. by rewrite (rf_sides _ _ _ Hr). }
  destruct o; try (by apply Ht); cbn [run_relay_op op_indexes] in *; apply admin_keeps; intros now.
  - apply add_side_consistent.
  - by apply remove_side_consistent.
  - by apply set_ingress_consistent.
  - by apply set_egress_consistent.
  - by apply set_source_route_mode_consistent.
  - destruct Hi. by apply route_weight_consistent.
  - destruct Hi. by apply (route_weight_consistent _ _ 0).
  - destruct Hi. by apply route_priority_consistent.
  - destruct Hi. by apply (route_priority_consistent _ _ 0).
  - destruct Hi. by apply route_consistent.
  - destruct Hi. by apply (route_consistent _ _ true).
  - destruct Hi. by apply typed_route_consistent.
  - destruct Hi. by apply (typed_route_consistent _ _ _ true).
Qed.

Lemma traffic_ops_keep sds sc ops w :
  sc_rx sc = None -> Forall op_indexes ops -> Forall is_traffic ops ->
  relay_refs sds sc (relay_state w) -> relay_refs sds sc (relay_state (run_relay_ops ops w)).
Proof.
  intros Hn Hi. revert w. induction Hi as [|o ops Ho Hi IH]; intros w Ht Hw; cbn; [done|].
  apply Forall_cons in Ht as [Hto Ht]. apply IH; [done|]. by apply (traffic_keeps sds sc o).
Qed.

Lemma ops_keep ops w : Forall op_indexes ops -> consistent (relay_state w) -> consistent (relay_state (run_relay_ops ops w)).
Proof.
  intros Hi. revert w. induction Hi as [|o ops Ho Hi IH]; intros w Hw; cbn; [done|]. apply IH. by apply (op_keeps o Ho).
Qed.

Lemma new_empty {T} `{ByteCost T} mb sb g (d : BoundedDeque T) : new mb sb g = Ok d -> q d = [].
Proof. unfold new. cbn zeta. repeat case_match; try done; by intros [= <-]. Qed.

Lemma acked_bounded (m : gmap Z (gset Z)) order :
  cache_ok acked_cap order (fun i => is_some (m !! i) = true) -> Z.of_nat (size m) <= acked_cap.
Proof.
  intros [_ Hl Hk]. unfold nlen in Hl. rewrite <- size_dom. unfold size, set_size. cbn.
  pose proof (nodup_bound (elements (dom m)) order (NoDup_elements _)) as Hb.
  specialize (Hb ltac:(intros i Hi; apply Hk; apply elem_of_elements, elem_of_dom in Hi; by apply is_some_true)). lia.
Qed.

Lemma refs_scope sds sc sc' st :
  relay_refs sds sc st -> (forall n, sc_rx sc' = Some n -> (length (q (rl_rx_queue st)) <= n)%nat) ->
  (forall r, sc_rules sc' = Some r -> relay_rules st = relay_rules r) -> relay_refs sds sc' st.
Proof. intros [] Hn Hr. by split. Qed.

Lemma live_side st s : live (rl_sides st) s -> 0 <= s /\ exists x, relay_side_at st s = Some x.
Proof. intros [H0' [x Hx]]. split; [done|]. by exists x. Qed.

Lemma new_consistent st : relay_inner_new = Ok st -> consistent st.
Proof.
  intros Hn. assert (q (rl_rx_queue st) = [] /\ q (rl_tx_queue st) = [] /\ q (rl_replay_queue st) = []
    /\ exists rx tx replay recent, st = {| rl_sides := []; rl_route_overrides := ∅; rl_typed_route_overrides := ∅; rl_route_weights := ∅;
        rl_route_priorities := ∅; rl_source_route_modes := ∅; rl_route_selection_cursors := ∅;
        rl_adaptive_route_stats := ∅; rl_rx_queue := rx; rl_tx_queue := tx; rl_replay_queue := replay;
        rl_recent_rx := recent; rl_reliable_tx := []; rl_reliable_rx := []; rl_reliable_return_routes := ∅;
        rl_reliable_return_route_order := []; end_to_end_acked_destinations := ∅;
        end_to_end_acked_destination_order := []; rl_discovery_routes := [];
        rl_discovery_cadence := cadence_default |}) as (Hr & Ht & Hp & rx & tx & replay & recent & ->).
  { unfold relay_inner_new in Hn. apply bind_ok in Hn as (rx & Hrx & (tx & Htx & (replay & Hrp & (recent & _ & [= <-])%bind_ok)%bind_ok)%bind_ok).
    pose proof (new_empty _ _ _ _ Hrx). pose proof (new_empty _ _ _ _ Htx). pose proof (new_empty _ _ _ _ Hrp). eauto 10. }
  cbn in Hr, Ht, Hp.
  assert (forall cap (m : gmap Z (gset Z)) , 0 <= cap -> m = ∅ -> cache_ok cap [] (fun i => is_some (m !! i) = true)) as Hc.
  { intros cap m Hcap ->. split; [constructor|unfold nlen; cbn; lia|]. intros i. cbv beta. by rewrite lookup_empty. }
  split; cbn -[bt_keys]; rewrite ?Hr, ?Ht, ?Hp; try done; try (by intros ? ?%elem_of_nil); try (by intros ? ? ?%elem_of_nil).
  - split; [constructor|]. by intros k x ?%elem_of_nil.
  - split; [constructor|]. by intros s r ?%elem_of_nil.
  - split; cbn.
    + split; [constructor|unfold nlen, return_cap; cbn; lia|]. intros i. cbv beta. by rewrite lookup_empty.
    + split; [constructor|unfold nlen, pending_cap; cbn; lia|done].
    + constructor.
  - apply Hc; [unfold acked_cap; lia|done].
Qed.
End RelayRunOps.

(** C3. The state of a relay stays consistent.  Whatever sequence of public
    operations an application performs on a relay, in whatever environment, and
    whether they succeed or fail: every queued item comes from and goes to sides
    the relay has, and never back where it came from; the rules, the reliable
    links and the discovered routes are those of its sides; the return routes
    and the acknowledged destinations stay within their bounds; every discovered
    route summarises exactly its announcers.  Traffic changes no side and no
    rule. *)
Theorem relay_invariants `{Config} `{Schema} `{External} `{Layout} `{RelayLayout} env fuel ops w :
  Forall op_indexes ops -> consistent (relay_state w) ->
  let st := relay_state (run_relay_ops env fuel ops w) in
  consistent st
  /\ (forall i, i ∈ q (rl_rx_queue st) -> exists x, relay_side_at st (rrx_src i) = Some x)
  /\ (forall i, i ∈ q (rl_tx_queue st) -> (exists x, relay_side_at st (rtx_dst i) = Some x)
        /\ forall s, rtx_src i = Some s -> s <> rtx_dst i /\ exists x, relay_side_at st s = Some x)
  /\ (forall i, i ∈ q (rl_replay_queue st) -> exists x, relay_side_at st (rp_dst i) = Some x)
  /\ rules_live (rl_sides st) st /\ routes_ok (rl_discovery_routes st)
  /\ Z.of_nat (size (rl_reliable_return_routes st)) <= return_cap
  /\ Z.of_nat (size (end_to_end_acked_destinations st)) <= acked_cap
  /\ (forall id a, end_to_end_acked_destinations st !! id = Some a -> Z.of_nat (size a) <= acked_sender_cap)
  /\ (Forall is_traffic ops -> rl_sides st = rl_sides (relay_state w) /\ relay_rules st = relay_rules (relay_state w)).
Proof.
  intros Hi Hw st. pose proof (ops_keep env fuel ops w Hi Hw) as Hst. fold st in Hst. split; [exact Hst|].
  split; [intros i Hin; by apply live_side, (rf_rx _ _ _ Hst)|].
  split. { intros i Hin. split; [by apply live_side, (rf_tx _ _ _ Hst)|]. intros s Hs.
           destruct (rf_tx_src _ _ _ Hst i s Hin Hs) as [Hl Hne]. split; [done|]. by apply live_side. }
  split; [intros i Hin; by apply live_side, (rf_replay _ _ _ Hst)|].
  split; [apply Hst|]. split; [apply Hst|].
  split; [apply (caches_bounded (common st)), Hst|].
  split; [eapply acked_bounded, rf_acked, Hst|]. split; [apply Hst|].
  intros Ht. pose proof (traffic_ops_keep env fuel (rl_sides (relay_state w)) (same_rules (relay_state w)) ops w eq_refl Hi Ht) as Hr.
  assert (relay_refs (rl_sides (relay_state w)) (same_rules (relay_state w)) (relay_state w)) as H0'
    by (apply (refs_scope _ anything); [done|done|by intros r [= <-]]).
  specialize (Hr H0'). split; [apply (rf_sides _ _ _ Hr)|]. by apply (rf_fixed _ _ _ Hr).
Qed.

(** A relay with two links: the packet received on one goes out on the other. *)
Definition relay_world (st : RelayInner) : RelayWorld := {| relay_state := st; relay_tick := 0; relay_events := [] |}.

Definition relay_ops : list RelayOp :=
  [RelayAddSide (lit "A") HPacket side_options_default; RelayAddSide (lit "B") HPacket side_options_default;
   RelayRx 0 (RPacket gps_packet); RelayProcessRx 0].

Lemma relay_invariants_witness :
  let st := relay_state (@run_relay_ops default_config default_schema run_external some_layout some_relay_layout
              quiet_environment 9 relay_ops (relay_world fresh_relay)) in
  map rtx_dst (q (rl_tx_queue st)) = [1]
  /\ forall i, i ∈ q (rl_tx_queue st) -> exists x, relay_side_at st (rtx_dst i) = Some x.
Proof.
  cbn zeta. destruct (@relay_invariants default_config default_schema run_external some_layout some_relay_layout
    quiet_environment 9 relay_ops (relay_world fresh_relay)) as (_ & _ & Ht & _).
  - repeat constructor; discriminate.
  - apply (@new_consistent default_config some_layout some_relay_layout). vm_compute. reflexivity.
  - split; [vm_compute; reflexivity|]. intros i Hi. apply Ht, Hi.
Defined.
