(* ===== verification/RelayDrain.v ===== *)
(** * A relay's loops come to an end ([src/relay.rs])

    The loops of [process_rx_queue] and [process_tx_queue] are [while]s without a
    bound.  Each round of the first takes an item off a queue that nothing it
    does adds to; a round of the second that goes on spends an item or one of
    the finitely many transmissions that the retry limit leaves.  So a measure
    of the state bounds the rounds: the loop without fuel ends, and [relay_loop]
    with fuel for as many rounds is that loop. *)

From stdpp Require Import gmap.
From S2P Require Import Prelude Ordered Telemetry Config Schema Queue SmallPayload Wire Packet Serialize Discovery RouterState Routes Reliable Link Plan Announce World Invariant RelayState RelayPlan RelayTopology RelayLink RelayRun RelayInvariant RelayTraffic.

(** ** Loops with a measure *)

(** The loop without fuel, as the source writes it: the rounds it makes, and how
    it ends. *)
Inductive loop_ends (round : LW bool) : RelayWorld -> nat -> RelayWorld * TelemetryResult unit -> Prop :=
  | ends_here w w' : round w = (w', Ok false) -> loop_ends round w 1 (w', Ok tt)
  | ends_error w w' e : round w = (w', Err e) -> loop_ends round w 1 (w', Err e)
  | ends_panic w w' : round w = (w', Panic) -> loop_ends round w 1 (w', Panic)
  | goes_on w w1 n r : round w = (w1, Ok true) -> loop_ends round w1 n r -> loop_ends round w (S n) r.

(** With fuel for its rounds, the loop of the model is that loop. *)
Lemma loop_ends_run round w n r : loop_ends round w n r -> forall fuel, (n <= fuel)%nat -> relay_loop fuel round w = r.
Proof.
  induction 1 as [w w' E|w w' e E|w w' E|w w1 n r E _ IH]; (intros [|fuel] Hf; [lia|]); cbn [relay_loop]; rewrite LW_run, E;
    [done..|]. apply IH. lia.
Qed.

Section Loop.
Context (round : LW bool) (inv : RelayWorld -> Prop) (m : RelayWorld -> nat).
Context (Hround : forall w w', inv w -> round w = (w', Ok true) -> inv w' /\ (m w' < m w)%nat).

Lemma loop_terminates w : inv w -> exists n r, (n <= S (m w))%nat /\ loop_ends round w n r.
Proof.
  remember (m w) as k eqn:Hk. revert w Hk. induction (lt_wf k) as [k _ IH]. intros w -> Hi.
  destruct (round w) as [w1 [[]|e|]] eqn:E; [|eexists 1%nat, _; split; [lia|by constructor]..].
  destruct (Hround w w1 Hi E) as [Hi1 Hm]. destruct (IH _ Hm w1 eq_refl Hi1) as (n & r & Hn & Hl).
  exists (S n), r. split; [lia|by econstructor].
Qed.

(** What holds when a round ends the loop holds after it. *)
Lemma loop_exit (Q : RelayWorld -> Prop) w n w' :
  (forall w w', inv w -> round w = (w', Ok false) -> Q w') ->
  loop_ends round w n (w', Ok tt) -> inv w -> Q w'.
Proof.
  intros Hq. remember (w', Ok tt) as r eqn:Hr. induction 1 as [w w1 E|w w1 e E|w w1 E|w w1 n r E _ IH]; intros Hi; try done.
  - injection Hr as <-. eauto.
  - apply IH; [done|]. by apply (Hround w w1).
Qed.
End Loop.

(** ** Receiving *)

Section Receive.
Context `{Config} `{Schema} `{External} `{Layout} `{RelayLayout}.
Context (env : Environment).

Definition rx_length (w : RelayWorld) : nat := length (q (rl_rx_queue (relay_state w))).

Lemma pop_front_none {T} `{ByteCost T} (d : BoundedDeque T) : fst (pop_front d) = None -> q d = [] /\ q (snd (pop_front d)) = [].
Proof. unfold pop_front. by destruct (q d) eqn:E. Qed.

Lemma rx_round_cases start w w' more :
  consistent (relay_state w) -> relay_rx_round env 0 start w = (w', Ok more) ->
  if more : bool then consistent (relay_state w') /\ (rx_length w' < rx_length w)%nat else rx_length w' = 0%nat.
Proof.
  intros Hst. unfold relay_rx_round. rewrite LW_run. unfold relay_locked at 1, relay_pop_rx.
  pose proof (pop_front_none (rl_rx_queue (relay_state w))) as Hnone.
  pose proof (pop_front_elem (rl_rx_queue (relay_state w))) as Hel.
  pose proof (pop_front_head (rl_rx_queue (relay_state w))) as Hhd.
  assert (forall i, fst (pop_front (rl_rx_queue (relay_state w))) = Some i ->
    (length (q (snd (pop_front (rl_rx_queue (relay_state w))))) < rx_length w)%nat) as Hlt.
  { intros i. unfold rx_length. rewrite pop_front_q. unfold pop_front. destruct (q (rl_rx_queue (relay_state w))); cbn; [done|lia]. }
  destruct (pop_front _) as [[i|] d]; cbn [fst snd] in *.
  2: { cbn. intros [= <- <-]. unfold rx_length. cbn. destruct (Hnone eq_refl) as [_ ->]. done. }
  specialize (Hlt i eq_refl). rewrite LW_run. set (w1 := {| relay_state := _; relay_tick := _; relay_events := _ |}).
  assert (relay_refs (rl_sides (relay_state w)) (no_longer_rx (length (q d))) (relay_state w1)) as H1'.
  { apply (refs_scope _ anything); [|by intros n [= <-]|done]. cbn. apply refs_rx; [|by left|done].
    intros x Hx. by apply (rf_rx _ _ _ Hst), Hel. }
  assert (live (rl_sides (relay_state w)) (rrx_src i)) as Hl by by apply (rf_rx _ _ _ Hst), Hhd.
  pose proof (rx_item_keeps env _ _ i Hl w1 H1') as H2'.
  destruct (process_rx_queue_item env i w1) as [w2 [[]|e|]]; cbn [fst] in H2'; [|done..].
  intros [= <- <-]. split.
  - unfold consistent. rewrite (rf_sides _ _ _ H2'). by apply (refs_scope _ (no_longer_rx (length (q d)))).
  - pose proof (rf_limit _ _ _ H2' _ eq_refl). unfold rx_length at 1. lia.
Qed.

(** Draining the receive queue.  [process_rx_queue] always comes to an end,
    after at most one round more than there are items, with any fuel for that
    many; and when it succeeds, the receive queue is empty. *)
Theorem relay_rx_drains w :
  consistent (relay_state w) ->
  exists n w0 w' r,
    w0 = fst (relay_now env w) /\ loop_ends (relay_rx_round env 0 (ms_at env (relay_tick w) 0)) w0 n (w', r)
    /\ (n <= S (rx_length w))%nat
    /\ (forall fuel, (n <= fuel)%nat -> relay_process_rx_queue env fuel w = (w', r))
    /\ (r = Ok tt -> q (rl_rx_queue (relay_state w')) = []).
Proof.
  intros Hst. set (start := ms_at env (relay_tick w) 0). set (w0 := fst (relay_now env w)).
  assert (forall w w', consistent (relay_state w) -> relay_rx_round env 0 start w = (w', Ok true) ->
    consistent (relay_state w') /\ (rx_length w' < rx_length w)%nat) as Hr by (intros w1 w2 Hc E; apply (rx_round_cases _ _ _ _ Hc E)).
  destruct (loop_terminates _ _ rx_length Hr w0 Hst) as (n & [w' r] & Hn & Hl).
  exists n, w0, w', r. split; [done|]. split; [exact Hl|]. split; [exact Hn|]. split.
  - intros fuel Hf. unfold relay_process_rx_queue, relay_process_rx_queue_with_timeout. rewrite LW_run. cbn [relay_now relay_ask].
    by apply (loop_ends_run _ _ _ _ Hl).
  - intros ->. apply nil_length_inv, (loop_exit _ _ _ Hr (fun w => rx_length w = 0%nat) w0 n w'); [|exact Hl|exact Hst].
    intros w1 w2 Hc E'. apply (rx_round_cases _ _ _ _ Hc E').
Qed.
End Receive.

(** ** Transmitting *)

(** *** Sums over maps *)

Section Sums.
Context {K V : Type} `{Ord K} (f : V -> nat).

Definition msum (m : list (K * V)) : nat := sum_list (map (fun e => f (snd e)) m).

Lemma msum_insert k v m :
  bt_sorted m -> (msum (bt_insert k v m) + default 0 (f <$> bt_get k m) = msum m + f v)%nat.
Proof.
  unfold msum, bt_sorted. induction 1 as [|[j w] m Hs IH Hm]; cbn [bt_insert bt_get map sum_list]; [cbn; lia|].
  destruct (cmp_spec k j) as [->|Hl|Hl]; cbn [map sum_list snd fmap option_fmap option_map default from_option id].
  - lia.
  - destruct (bt_get k m) as [x|] eqn:E; [|cbn; lia]. exfalso. apply bt_get_elem in E; [|done].
    rewrite Forall_forall in Hm. specialize (Hm _ E). unfold key_lt in Hm. cbn in Hm.
    by apply (lt_irrefl k), (lt_trans _ j).
  - lia.
Qed.

Lemma msum_remove k m : (msum (bt_remove k m) <= msum m)%nat.
Proof. unfold msum. induction m as [|[j w] m IH]; cbn; [lia|]. destruct (cmp k j); cbn; lia. Qed.

Lemma msum_update k g m : (forall v, f (g v) = f v) -> msum (bt_update k g m) = msum m.
Proof. intros Hg. unfold msum. induction m as [|[j w] m IH]; cbn; [done|]. destruct (cmp k j); cbn; rewrite ?Hg; lia. Qed.
End Sums.

(** *** The measure *)

Section Transmit.
Context `{Config} `{Schema} `{External} `{Layout} `{RelayLayout}.
Context (env : Environment) (Hretries : RELIABLE_MAX_RETRIES <= u32_max).
Notation retry_limit := (Z.to_nat RELIABLE_MAX_RETRIES).

(** Two for each retransmission that is left, and one for a queued replay: a
    timeout that queues one makes progress, too. *)
Definition tries_left (e : ReliableSent) : nat := 2 * Z.to_nat (RELIABLE_MAX_RETRIES - retries e).
Definition link_tries (tx : ReliableTxState) : nat := msum tries_left (tx_sent tx).
Definition all_tries (l : list ((RouterSideId * Z) * ReliableTxState)) : nat := msum link_tries l.

Definition tx_work (st : RelayInner) : nat :=
  all_tries (rl_reliable_tx st) + length (q (rl_replay_queue st)) + (2 * retry_limit + 1) * length (q (rl_tx_queue st)).

Lemma scan_timeouts_tries now order tx :
  bt_sorted (tx_sent tx) ->
  (link_tries (fst (scan_timeouts now order tx)) + 2 * length (snd (scan_timeouts now order tx)) <= link_tries tx)%nat.
Proof.
  revert tx. induction order as [|s order IH]; intros tx Hs; cbn [scan_timeouts]; [cbn; lia|].
  destruct (bt_get s (tx_sent tx)) as [e|] eqn:E; [|by apply IH].
  destruct (queued e || _); [by apply IH|]. destruct (partial_acked e); [by apply IH|].
  destruct (Z.leb_spec RELIABLE_MAX_RETRIES (retries e)) as [Hle|Hlt].
  - match goal with |- context [scan_timeouts _ _ ?t] => set (tx1 := t); specialize (IH tx1 (bt_remove_sorted s _ Hs)) end.
    pose proof (msum_remove tries_left s (tx_sent tx)). unfold link_tries in *. cbn [tx_sent tx1] in *. lia.
  - match goal with |- context [bt_insert s ?x _] => set (e' := x) end.
    specialize (IH (set_tx_sent (bt_insert s e' (tx_sent tx)) tx) (bt_insert_sorted s e' _ Hs)).
    destruct (scan_timeouts _ _ _) as [tx' rq]. cbn [fst snd length] in *.
    pose proof (msum_insert tries_left s e' (tx_sent tx) Hs) as Hm. rewrite E in Hm.
    change (default 0%nat (tries_left <$> Some e)) with (tries_left e) in Hm.
    assert (tries_left e' + 2 <= tries_left e)%nat as Ht.
    { assert (retries e + 1 <= wrap 32 (retries e + 1)) as Hw.
      { unfold wrap. change u32_max with (2 ^ 32 - 1) in Hretries. pose proof (Z.mod_pos_bound (retries e + 1) (2 ^ 32) ltac:(lia)).
        destruct (Z.lt_ge_cases (retries e + 1) 0); [lia|]. rewrite Z.mod_small by lia. lia. }
      unfold tries_left, e'. cbn [retries]. generalize dependent (wrap 32 (retries e + 1)). intros. lia. }
    unfold link_tries in *. cbn [set_tx_sent tx_sent] in IH. lia.
Qed.

Lemma scan_links_tries now l :
  (forall k tx, (k, tx) ∈ l -> bt_sorted (tx_sent tx)) ->
  (all_tries (fst (scan_links now l)) + 2 * length (snd (scan_links now l)) <= all_tries l)%nat.
Proof.
  unfold all_tries, msum. induction l as [|[[side raw] tx] l IH]; intros Hs; cbn [scan_links]; [cbn; lia|].
  specialize (IH ltac:(intros k x Hx; apply (Hs k); by right)).
  pose proof (scan_timeouts_tries now (sent_order tx) tx ltac:(apply (Hs (side, raw)); left)) as Ht.
  destruct (scan_links now l) as [l' r]. cbn [fst snd] in IH. destruct (type_try_from_u32 raw); [|cbn; lia].
  destruct (scan_timeouts _ _ _) as [tx' seqs]. cbn [fst snd map sum_list length] in *. rewrite length_app, length_map. cbn. lia.
Qed.

(** *** Operations *)

(** [m] costs at most [n]. *)
Definition spends {A} (m : LM A) (n : nat) : Prop := forall st,
  links_sorted (rl_reliable_tx st) ->
  links_sorted (rl_reliable_tx (fst (m st))) /\ (tx_work (fst (m st)) <= tx_work st + n)%nat.

Lemma spends_bind {A B} (m : LM A) (f : A -> LM B) a b :
  spends m a -> (forall x, spends (f x) b) -> spends (m ≫= f) (a + b).
Proof.
  intros Hm Hf st Hs. rewrite LM_run. destruct (Hm st Hs) as [Hs1 H1'].
  destruct (m st) as [st1 [x|e|]]; cbn [fst] in *; [|split; [done|lia]..].
  destruct (Hf x st1 Hs1) as [Hs2 H2']. split; [done|lia].
Qed.

Lemma spends_more {A} (m : LM A) a b : spends m a -> (a <= b)%nat -> spends m b.
Proof. intros Hm Hab st Hs. destruct (Hm st Hs). split; [done|lia]. Qed.

(** The first computation is free. *)
Lemma spends_bind0 {A B} (m : LM A) (f : A -> LM B) b : spends m 0 -> (forall x, spends (f x) b) -> spends (m ≫= f) b.
Proof. apply spends_bind. Qed.

(** The queues and the senders may only shrink. *)
Definition no_more (st st' : RelayInner) : Prop :=
  rl_reliable_tx st' = rl_reliable_tx st
  /\ (length (q (rl_tx_queue st')) <= length (q (rl_tx_queue st)))%nat
  /\ (length (q (rl_replay_queue st')) <= length (q (rl_replay_queue st)))%nat.

Lemma no_more_refl st : no_more st st.
Proof. by split. Qed.

Lemma no_more_trans a b c : no_more a b -> no_more b c -> no_more a c.
Proof. intros (E1 & L1 & L2) (E2 & L3 & L4). split; [congruence|lia]. Qed.

Lemma no_more_work st st' : no_more st st' -> (tx_work st' <= tx_work st)%nat.
Proof. intros (E & L1 & L2). unfold tx_work. rewrite E. nia. Qed.

Lemma spends_free {A} (m : LM A) : (forall st, no_more st (fst (m st))) -> spends m 0.
Proof.
  intros Hm st Hs. destruct (Hm st) as (E & L). pose proof (no_more_work _ _ (Hm st)). split; [by rewrite E|lia].
Qed.

Lemma pop_item_no_more k st : no_more st (snd (relay_pop_shared_queue_item k st)).
Proof.
  destruct k; cbn [relay_pop_shared_queue_item].
  - by destruct (pop_front _).
  - pose proof (pop_front_length (rl_tx_queue st)). by destruct (pop_front _).
  - pose proof (pop_front_length (rl_replay_queue st)). by destruct (pop_front _).
  - by destruct (pop_front _).
  - unfold relay_pop_reliable_rx_buffered, pop_reliable_rx_buffered.
    destruct (List.find _ _) as [[key rx]|]; [|cbn; by rewrite with_common_id].
    destruct (buffered rx) as [|[s v] rest]; [cbn; by rewrite with_common_id|done].
  - unfold relay_pop_discovery_route, pop_discovery_route.
    destruct (oldest_route _) as [[side route]|]; [done|cbn; by rewrite with_common_id].
Qed.

Lemma room_spends cost k : spends (relay_make_shared_queue_room cost k) 0.
Proof.
  apply spends_free. intros st. unfold relay_make_shared_queue_room. case_match; [apply no_more_refl|].
  generalize (S (relay_queued_items st)) as fuel. intros fuel.
  revert st. induction fuel as [|fuel IH]; intros st; cbn [relay_make_room_loop]; case_match; try apply no_more_refl.
  unfold relay_evict_once. pose proof (pop_item_no_more (default k (relay_largest_shared_queue st)) st) as H1'.
  destruct (relay_pop_shared_queue_item (default k (relay_largest_shared_queue st)) st) as [[] st1];
    [eapply no_more_trans; [exact H1'|apply IH]|].
  pose proof (pop_item_no_more k st1) as H2'. destruct (relay_pop_shared_queue_item k st1) as [[] st2]; cbn [snd] in *.
  - eapply no_more_trans; [exact H1'|]. eapply no_more_trans; [exact H2'|apply IH].
  - by eapply no_more_trans.
Qed.

Lemma pop_back_length {T} `{ByteCost T} (d : BoundedDeque T) : (length (q (snd (pop_back d))) <= length (q d))%nat.
Proof.
  unfold pop_back. destruct (last (q d)) as [v|] eqn:E; cbn; [|lia]. apply last_Some in E as [l ->].
  rewrite removelast_last, length_app. lia.
Qed.

Lemma evict_back_length {T} `{ByteCost T} prio fuel cost p (d : BoundedDeque T) :
  (length (q (fst (evict_back prio fuel cost p d))) <= length (q d))%nat.
Proof.
  revert d. induction fuel as [|fuel IH]; intros d; cbn [evict_back]; [cbn; lia|].
  destruct (_ && _); [|cbn; lia]. destruct (_ <? _); [cbn; lia|]. pose proof (pop_back_length d). etransitivity; [apply IH|done].
Qed.

Lemma ensure_room_length {T} `{ByteCost T} (d : BoundedDeque T) : (length (q (ensure_room_for_one d)) <= length (q d))%nat.
Proof.
  unfold ensure_room_for_one. cbn zeta. pose proof (pop_front_length d).
  repeat case_match; first [done|unfold vd_reserve_exact; repeat case_match; cbn; lia].
Qed.

Lemma push_prioritized_length {T} `{ByteCost T} prio (d : BoundedDeque T) v :
  (length (q (fst (push_back_prioritized prio d v))) <= S (length (q d)))%nat.
Proof.
  unfold push_back_prioritized. destruct (_ <? _); [cbn; lia|].
  pose proof (evict_back_length prio (length (q d)) (byte_cost v) (prio v) d) as He.
  destruct (evict_back _ _ _ _ _) as [d1 [[]|e|]]; cbn [fst] in *; [|lia..].
  destruct (if max_elems d1 <=? len d1 then _ else _) as [d2 r] eqn:E.
  assert (length (q d2) <= length (q d))%nat as H2'.
  { destruct (max_elems d1 <=? len d1); [destruct (_ <? _)|]; injection E as <- _; try lia.
    pose proof (pop_back_length d1). lia. }
  destruct r as [[]|e|]; cbn [fst]; [|lia..]. pose proof (ensure_room_length d2) as H3'. set (d3 := ensure_room_for_one d2) in *.
  destruct (position _ _) as [i|]; unfold vd_insert, vd_push_back; cbn [q set_q]; rewrite grow_q.
  - rewrite <- (take_drop i (q d3)), length_app in H3'. rewrite length_app. cbn. lia.
  - rewrite length_app. cbn. lia.
Qed.

Lemma push_replay_spends i : spends (push_replay i) 1.
Proof.
  unfold push_replay. apply spends_bind0; [apply room_spends|]. intros _ st Hs.
  pose proof (push_prioritized_length rp_priority (rl_replay_queue st) i) as Hl.
  destruct (push_back_prioritized _ _ _) as [d r]. cbn [fst] in *. split; [done|]. unfold tx_work.
  change (rl_reliable_tx (set_rl_replay_queue d st)) with (rl_reliable_tx st).
  change (rl_replay_queue (set_rl_replay_queue d st)) with d.
  change (rl_tx_queue (set_rl_replay_queue d st)) with (rl_tx_queue st). lia.
Qed.

Lemma spends_update key f n :
  (forall tx, bt_sorted (tx_sent tx) -> bt_sorted (tx_sent (f tx)) /\ (link_tries (f tx) <= link_tries tx + n)%nat) ->
  forall st, links_sorted (rl_reliable_tx st) ->
    let st' := on_common (update_tx key f) st in
    links_sorted (rl_reliable_tx st') /\ (tx_work st' <= tx_work st + n)%nat.
Proof.
  intros Hf st [Hs Hl]. set (tx := tx_state key (common st)).
  assert (bt_sorted (tx_sent tx)) as Ht.
  { unfold tx, tx_state. cbn [common reliable_tx]. destruct (bt_get key (rl_reliable_tx st)) as [x|] eqn:E; [|constructor].
    by apply (Hl key), bt_get_elem. }
  destruct (Hf tx Ht) as [Hst Hn]. cbn zeta.
  change (rl_reliable_tx (on_common (update_tx key f) st)) with (bt_insert key (f tx) (rl_reliable_tx st)). split.
  - split; [by apply bt_insert_sorted|]. intros k x [[= -> ->]|Hin]%bt_insert_elem; [done|eauto].
  - unfold tx_work. change (rl_reliable_tx (on_common (update_tx key f) st)) with (bt_insert key (f tx) (rl_reliable_tx st)).
    change (rl_replay_queue (on_common (update_tx key f) st)) with (rl_replay_queue st).
    change (rl_tx_queue (on_common (update_tx key f) st)) with (rl_tx_queue st).
    pose proof (msum_insert link_tries key (f tx) (rl_reliable_tx st) Hs) as Hm.
    assert (default 0%nat (link_tries <$> bt_get key (rl_reliable_tx st)) = link_tries tx) as Hd.
    { unfold tx, tx_state. cbn [common reliable_tx]. by destruct (bt_get key (rl_reliable_tx st)). }
    rewrite Hd in Hm. unfold all_tries. lia.
Qed.

Lemma spends_update_free key f st :
  (forall tx, bt_sorted (tx_sent tx) -> bt_sorted (tx_sent (f tx)) /\ link_tries (f tx) = link_tries tx) ->
  links_sorted (rl_reliable_tx st) ->
  let st' := on_common (update_tx key f) st in
  links_sorted (rl_reliable_tx st') /\ (tx_work st' <= tx_work st)%nat.
Proof.
  intros Hf Hs. destruct (spends_update key f 0) with (st := st) as [H1' H2']; [|done|split; [done|lia]].
  intros tx Ht. destruct (Hf tx Ht). split; [done|lia].
Qed.

Lemma tries_update s g tx :
  (forall e, retries (g e) = retries e) -> link_tries (set_tx_sent (bt_update s g (tx_sent tx)) tx) = link_tries tx.
Proof. intros Hg. unfold link_tries. cbn [set_tx_sent tx_sent]. apply msum_update. intros e. unfold tries_left. by rewrite Hg. Qed.

Lemma retransmit_tries s tx : link_tries (fst (retransmit_state s tx)) = link_tries tx.
Proof. unfold retransmit_state. repeat case_match; try done. cbn [fst]. by apply tries_update. Qed.

Lemma replayed_tries s now tx : link_tries (replay_sent_state s now tx) = link_tries tx.
Proof. unfold replay_sent_state. by apply tries_update. Qed.

Lemma retransmit_spends side t s : spends (relay_queue_reliable_retransmit side t s) 1.
Proof.
  intros st Hs. unfold relay_queue_reliable_retransmit. set (key := reliable_key side t).
  assert (let st' := on_common (update_tx key (fun tx => fst (retransmit_state s tx))) st in
    links_sorted (rl_reliable_tx st') /\ (tx_work st' <= tx_work st)%nat) as [H1' H2'].
  { apply spends_update_free; [|done]. intros tx Ht. rewrite retransmit_tries. split; [by apply retransmit_shrinks|done]. }
  change (on_common (update_tx key (fun tx => fst (retransmit_state s tx))) st)
    with (on_common (update_tx key (fun _ => fst (retransmit_state s (tx_state key (common st))))) st) in *.
  destruct (retransmit_state s (tx_state key (common st))) as [tx [bytes|]]; cbn [fst] in *; [|split; [done|lia]].
  destruct (push_replay_spends {| rp_dst := side; rp_bytes := bytes; rp_priority := message_priority_bumped t |} _ H1') as [H3' H4'].
  split; [done|lia].
Qed.

Lemma requeue_spends l : spends (relay_requeue_all l) (length l).
Proof.
  induction l as [|[[side t] s] l IH]; cbn [relay_requeue_all length]; [by apply spends_free|].
  apply (spends_bind _ _ 1 (length l)); [apply retransmit_spends|done].
Qed.

Lemma timeouts_spend now : spends (relay_process_reliable_timeouts now) 0.
Proof.
  intros st [Hs Hl]. unfold relay_process_reliable_timeouts.
  pose proof (scan_links_tries now (rl_reliable_tx st) Hl) as Ht.
  pose proof (scan_links_sorted now (rl_reliable_tx st) (conj Hs Hl)) as Hsl.
  destruct (scan_links now (rl_reliable_tx st)) as [links r]. cbn [fst snd] in *.
  destruct (requeue_spends r (on_common (set_reliable_tx links) st) Hsl) as [H1' H2']. split; [done|].
  etransitivity; [exact H2'|]. unfold tx_work. change (rl_reliable_tx (on_common (set_reliable_tx links) st)) with links.
  change (rl_replay_queue (on_common (set_reliable_tx links) st)) with (rl_replay_queue st).
  change (rl_tx_queue (on_common (set_reliable_tx links) st)) with (rl_tx_queue st). lia.
Qed.

Lemma sample_spends call side n : spends (relay_sample call side n) 0.
Proof. by apply spends_free. Qed.

Lemma lift_spends {A} (r : TelemetryResult A) : spends (relay_lift r) 0.
Proof. by apply spends_free. Qed.

Lemma read_spends {A} (f : RelayInner -> TelemetryResult A) : spends (fun st => (st, f st)) 0.
Proof. by apply spends_free. Qed.

Lemma ret_spends {A} (a : A) n : spends (mret a) n.
Proof. apply (spends_more _ 0); [by apply spends_free|lia]. Qed.

Lemma handler_spends call side h d : spends (relay_call_tx_handler call side h d) 0.
Proof.
  unfold relay_call_tx_handler. case_match; [apply lift_spends|]. apply spends_bind0; [apply lift_spends|intros _].
  case_match; [apply sample_spends|apply ret_spends|apply lift_spends].
Qed.

Lemma bytes_spend call side bytes : spends (relay_call_with_bytes call side bytes) 0.
Proof.
  unfold relay_call_with_bytes. case_match; [apply lift_spends|]. apply spends_bind0; [apply lift_spends|intros _; apply sample_spends].
Qed.

Lemma allocate_spends side t : spends (relay_allocate_seq side t) 0.
Proof.
  intros st Hs. rewrite Nat.add_0_r. unfold relay_allocate_seq. set (key := reliable_key side t).
  destruct (spends_update_free key (fun tx => tx) st ltac:(done) Hs) as [H1' H2'].
  case_match; cbn [fst]; [by split|].
  match goal with |- links_sorted (rl_reliable_tx (on_common (update_tx key ?f) ?s)) /\ _ =>
    destruct (spends_update_free key f s ltac:(done) H1') as [H3' H4'] end. split; [done|lia].
Qed.

Lemma record_spends side t s bytes now :
  spends (relay_modify (on_common (record_sent side t s bytes now))) (2 * retry_limit).
Proof.
  intros st Hs. unfold relay_modify. cbn [fst]. unfold record_sent. apply spends_update; [|done].
  intros tx Ht. unfold link_tries. cbn [tx_sent]. split; [by apply bt_insert_sorted|].
  match goal with |- context [bt_insert s ?e _] => set (e' := e) end.
  pose proof (msum_insert tries_left s e' (tx_sent tx) Ht) as Hm.
  assert (tries_left e' = 2 * retry_limit)%nat by (unfold tries_left, e'; cbn [retries]; by rewrite Z.sub_0_r). lia.
Qed.

Lemma send_spends call side d now sent : spends (relay_send_reliable_to_side call side d now sent) (2 * retry_limit).
Proof.
  unfold relay_send_reliable_to_side. apply spends_bind0; [apply read_spends|intros s].
  apply spends_bind0; [apply read_spends|intros plan]. destruct plan as [d'|t|].
  - apply (spends_more _ 0); [apply handler_spends|lia].
  - unfold relay_send_sequenced. apply spends_bind0; [apply allocate_spends|intros [seq flags]].
    apply spends_bind0; [apply lift_spends|intros [tracked bytes]].
    apply spends_bind0; [apply bytes_spend|intros _]. destruct tracked; [apply record_spends|apply ret_spends].
  - apply ret_spends.
Qed.

Lemma transmit_spends call dst h o d now sent : spends (relay_transmit call dst h o d now sent) (2 * retry_limit).
Proof.
  unfold relay_transmit. case_match.
  - rewrite <- (Nat.add_0_r (2 * retry_limit)). apply spends_bind; [apply send_spends|intros _; apply ret_spends].
  - apply spends_bind0; [apply lift_spends|intros [d'|]]; [|apply ret_spends].
    apply spends_bind0; [apply handler_spends|intros _; apply ret_spends].
Qed.

Lemma tx_allowed_spends src dst d : spends (relay_tx_allowed src dst d) 0.
Proof. unfold relay_tx_allowed. apply spends_bind0; [apply lift_spends|intros t]. by apply spends_free. Qed.

Lemma target_spends i : spends (replay_target i) 0.
Proof.
  unfold replay_target. apply spends_bind0; [apply lift_spends|intros frame]. case_match; [|apply ret_spends].
  apply spends_bind0; [|intros known; apply ret_spends]. intros st Hs. rewrite Nat.add_0_r.
  unfold via, replay_known. cbn [fst]. by apply spends_update_free.
Qed.

Lemma raw_spends call side bytes : spends (relay_send_reliable_raw_to_side call side bytes) 0.
Proof.
  unfold relay_send_reliable_raw_to_side. apply spends_bind0; [apply read_spends|intros s].
  case_match; [apply ret_spends|]. case_match; [apply lift_spends|].
  apply spends_bind0; [apply lift_spends|intros _; apply sample_spends].
Qed.

(** A replay that goes out is spent; one that a busy side refuses is back. *)
Lemma send_replay_spends call now i key seq st :
  links_sorted (rl_reliable_tx st) ->
  let '(st', r) := send_replay call now i key seq st in
  links_sorted (rl_reliable_tx st') /\ (tx_work st' <= tx_work st + match r with Ok true => 0 | _ => 1 end)%nat.
Proof.
  intros Hs. unfold send_replay, relay_on_busy. rewrite LM_run.
  destruct (raw_spends call (rp_dst i) (rp_bytes i) st Hs) as [H1' H2'].
  destruct (relay_send_reliable_raw_to_side call (rp_dst i) (rp_bytes i) st) as [st1 [[]|e|]]; cbn [fst] in *.
  - rewrite LM_run. unfold relay_modify.
    destruct (spends_update_free key (replay_sent_state seq now) st1) as [H3' H4']; [|done|].
    { intros tx Ht. rewrite replayed_tries. split; [by apply replayed_shrinks|done]. }
    split; [exact H3'|lia].
  - destruct (is_side_tx_busy e); [|split; [done|lia]]. rewrite LM_run.
    destruct (push_replay_spends i st1 H1') as [H3' H4']. destruct (push_replay i st1) as [st2 [[]|e'|]]; cbn [fst] in *; (split; [done|lia]).
  - split; [done|lia].
Qed.

Definition links_ok (w : RelayWorld) : Prop := links_sorted (rl_reliable_tx (relay_state w)).
Definition tx_work_of (w : RelayWorld) : nat := tx_work (relay_state w).

(** [m] keeps the maps in order and costs at most [n]. *)
Definition wspends {A} (m : LW A) (n : nat) : Prop := forall w,
  links_ok w -> links_ok (fst (m w)) /\ (tx_work_of (fst (m w)) <= tx_work_of w + n)%nat.

Lemma wspends_bind {A B} (m : LW A) (f : A -> LW B) n :
  wspends m 0 -> (forall x, wspends (f x) n) -> wspends (m ≫= f) n.
Proof.
  intros Hm Hf w Hw. rewrite LW_run. destruct (Hm w Hw) as [H1' H2'].
  destruct (m w) as [w1 [x|e|]]; cbn [fst] in *; [|split; [done|lia]..].
  destruct (Hf x w1 H1') as [H3' H4']. split; [done|lia].
Qed.

Lemma wspends_locked {A} (m : LM A) n : spends m n -> wspends (relay_locked m) n.
Proof. intros Hm w Hw. destruct (Hm _ Hw). unfold relay_locked. destruct (m (relay_state w)); cbn in *. by split. Qed.

Lemma wspends_free {A} (m : LW A) n : (forall w, relay_state (fst (m w)) = relay_state w) -> wspends m n.
Proof. intros Hm w Hw. unfold links_ok, tx_work_of. rewrite Hm. split; [done|lia]. Qed.

Lemma timed_out_free timeout start n : wspends (relay_timed_out env timeout start) n.
Proof. apply wspends_free. intros w. unfold relay_timed_out. by case_match. Qed.

Lemma send_tx_spends i s : wspends (send_tx_item env i s) (2 * retry_limit).
Proof.
  unfold send_tx_item. apply wspends_bind; [apply wspends_locked, tx_allowed_spends|intros allowed].
  case_match; [by apply wspends_free|]. do 4 (apply wspends_bind; [by apply wspends_free|intros ?]).
  apply wspends_locked, transmit_spends.
Qed.

Lemma pop_work {T} `{ByteCost T} (d : BoundedDeque T) :
  match fst (pop_front d) with
  | Some _ => S (length (q (snd (pop_front d)))) = length (q d)
  | None => snd (pop_front d) = d
  end.
Proof. unfold pop_front. by destruct (q d) as [|v l] eqn:E; cbn. Qed.

Lemma process_replay_spends w :
  links_ok w ->
  let '(w', r) := process_replay_queue_item env w in
  links_ok w' /\ (tx_work_of w' + match r with Ok true => 1 | _ => 0 end <= tx_work_of w)%nat.
Proof.
  intros Hw. unfold process_replay_queue_item. rewrite LW_run. unfold relay_locked at 1, pop_replay.
  pose proof (pop_work (rl_replay_queue (relay_state w))) as Hp.
  destruct (pop_front _) as [[i|] d]; cbn [fst snd] in Hp.
  2: { subst d. cbn. unfold links_ok, tx_work_of in *. cbn. split; [done|]. rewrite Nat.add_0_r. done. }
  set (w1 := {| relay_state := _; relay_tick := _; relay_events := _ |}).
  assert (links_ok w1 /\ (tx_work_of w1 + 1 <= tx_work_of w)%nat) as [H1' H2'].
  { split; [done|]. unfold tx_work_of, tx_work. change (rl_reliable_tx (relay_state w1)) with (rl_reliable_tx (relay_state w)).
    change (rl_replay_queue (relay_state w1)) with d. change (rl_tx_queue (relay_state w1)) with (rl_tx_queue (relay_state w)). lia. }
  clearbody w1. rewrite LW_run. destruct (wspends_locked _ 0 (target_spends i) w1 H1') as [H3' H4'].
  destruct (relay_locked (replay_target i) w1) as [w2 [[[key seq]|]|e|]]; cbn [fst] in *; try (split; [done|lia]).
  rewrite LW_run. cbn [relay_log]. rewrite LW_run. cbn [relay_side_call relay_ask]. rewrite LW_run. cbn [relay_now relay_ask relay_state].
  unfold relay_locked. cbn [relay_state].
  match goal with |- context [send_replay ?c ?n i key seq ?s] => pose proof (send_replay_spends c n i key seq s H3') as Hr end.
  destruct (send_replay _ _ i key seq _) as [st r]. destruct Hr as [H5' H6'].
  unfold links_ok, tx_work_of in *. cbn [relay_state] in *. split; [done|]. destruct r as [[]|e|]; lia.
Qed.

Lemma tx_round_work timeout start w w' :
  links_ok w -> relay_tx_round env timeout start w = (w', Ok true) ->
  links_ok w' /\ (tx_work_of w' < tx_work_of w)%nat.
Proof.
  intros Hw. unfold relay_tx_round. rewrite LW_run.
  assert (wspends (relay_timeouts env) 0) as Ht.
  { unfold relay_timeouts. apply wspends_bind; [by apply wspends_free|intros now]. apply wspends_locked, timeouts_spend. }
  destruct (Ht w Hw) as [H1' H2']. destruct (relay_timeouts env w) as [w1 [[]|e|]]; cbn [fst] in *; [|done..].
  rewrite LW_run. pose proof (process_replay_spends w1 H1') as H3'.
  destruct (process_replay_queue_item env w1) as [w2 [replayed|e|]]; [|done..]. destruct H3' as [H3' H4'].
  assert (forall B (m : LW B), (forall w, relay_state (fst (m w)) = relay_state w) ->
    forall w w' (b : B), m w = (w', Ok b) -> relay_state w' = relay_state w) as Hfree.
  { intros B m Hm v v' b E. specialize (Hm v). by rewrite E in Hm. }
  assert (forall w, relay_state (fst ((over ← relay_timed_out env timeout start; mret (negb over)) w)) = relay_state w) as Hover.
  { intros v. rewrite LW_run. unfold relay_timed_out. destruct (timeout =? 0); reflexivity. }
  destruct replayed.
  { intros E. apply (Hfree _ _ Hover) in E. unfold links_ok, tx_work_of in *. rewrite E. split; [done|lia]. }
  rewrite LW_run. unfold relay_locked at 1, pop_ready_tx_item.
  pose proof (pop_work (rl_tx_queue (relay_state w2))) as Hp.
  destruct (pop_front _) as [[i|] d]; cbn [fst snd] in Hp; [|done].
  match goal with |- context [Some i ≫= ?f] => change (Some i ≫= f) with (f i); cbv beta end.
  destruct (relay_side_at _ (rtx_dst i)) as [s|]; [|done]. change (Some s ≫= (fun s => Some (i, s))) with (Some (i, s)). cbn iota beta.
  set (w3 := {| relay_state := _; relay_tick := _; relay_events := _ |}).
  assert (links_ok w3 /\ (tx_work_of w3 + 2 * retry_limit + 1 <= tx_work_of w2)%nat) as [H5' H6'].
  { split; [done|]. unfold tx_work_of, tx_work. change (rl_reliable_tx (relay_state w3)) with (rl_reliable_tx (relay_state w2)).
    change (rl_tx_queue (relay_state w3)) with d. change (rl_replay_queue (relay_state w3)) with (rl_replay_queue (relay_state w2)).
    rewrite <- Hp. lia. }
  clearbody w3. rewrite LW_run. unfold relay_attempt.
  destruct (send_tx_spends i s w3 H5') as [H7' H8']. destruct (send_tx_item env i s w3) as [w4 [sent|e|]]; cbn [fst] in *; [| |done].
  - destruct sent.
    + intros E. apply (Hfree _ _ Hover) in E. unfold links_ok, tx_work_of in *. rewrite E. split; [done|lia].
    + intros [= <-]. split; [done|lia].
  - destruct (is_side_tx_busy e); [|done]. rewrite LW_run. by destruct (requeue_busy i w4) as [w5 [[]|e'|]].
Qed.

(** C8. Draining the transmit queue.  [process_tx_queue], with a time budget or
    without, always comes to an end: timeouts queue replays again and again, but
    only as often as the retry limit allows.  Unless another transmission is on
    the stack, when it does nothing, its rounds are at most one more than two per
    retransmission left on every link, one per queued replay, and one more round
    than a frame may be retransmitted twice over per queued item; any fuel for
    that many gives its answer. *)
Theorem relay_tx_drains timeout w :
  consistent (relay_state w) ->
  if gate_busy env (relay_tick w) then
    forall fuel, relay_process_tx_queue_with_timeout env fuel timeout w = (fst (relay_side_tx_active env w), Ok tt)
  else
    let w1 := fst (relay_side_tx_active env w) in
    exists n r,
      loop_ends (relay_tx_round env timeout (ms_at env (relay_tick w1) 0)) (fst (relay_now env w1)) n r
      /\ (n <= S (tx_work_of w))%nat
      /\ forall fuel, (n <= fuel)%nat -> relay_process_tx_queue_with_timeout env fuel timeout w = r.
Proof.
  intros Hst%rf_links. unfold relay_process_tx_queue_with_timeout. destruct (gate_busy env (relay_tick w)) eqn:Eg.
  { intros fuel. rewrite LW_run. cbn [relay_side_tx_active relay_ask]. by rewrite Eg. }
  cbn zeta. set (w1 := fst (relay_side_tx_active env w)). set (start := ms_at env (relay_tick w1) 0).
  destruct (loop_terminates (relay_tx_round env timeout start) links_ok tx_work_of
    (fun v v' Hl E => tx_round_work _ _ v v' Hl E) (fst (relay_now env w1)) Hst) as (n & r & Hn & Hl).
  exists n, r. split; [exact Hl|]. split; [exact Hn|]. intros fuel Hf. rewrite LW_run. cbn [relay_side_tx_active relay_ask].
  rewrite Eg, LW_run. cbn [relay_now relay_ask]. by apply (loop_ends_run _ _ _ _ Hl).
Qed.
End Transmit.

(** ** Witnesses *)

Notation default_relay_ops := (@run_relay_ops default_config default_schema run_external some_layout some_relay_layout
  quiet_environment 9).

Lemma started_consistent ops :
  Forall op_indexes ops -> @consistent default_config (relay_state (default_relay_ops ops (relay_world fresh_relay))).
Proof.
  intros Hi. apply ops_keep; [exact Hi|]. apply (@new_consistent default_config some_layout some_relay_layout).
  vm_compute. reflexivity.
Qed.

(** A packet received on one of two links. *)
Definition received_ops : list RelayOp :=
  [RelayAddSide (lit "A") HPacket side_options_default; RelayAddSide (lit "B") HPacket side_options_default;
   RelayRx 0 (RPacket gps_packet)].

Definition received_world : RelayWorld := default_relay_ops received_ops (relay_world fresh_relay).
Definition forwarded_world : RelayWorld := default_relay_ops (received_ops ++ [RelayProcessRx 0]) (relay_world fresh_relay).

Notation rx_queue_run := (@relay_process_rx_queue default_config default_schema run_external some_layout some_relay_layout
  quiet_environment).
Notation tx_queue_run := (@relay_process_tx_queue_with_timeout default_config default_schema run_external some_layout
  some_relay_layout quiet_environment).

Lemma relay_rx_drains_witness :
  rx_length received_world = 1%nat
  /\ snd (rx_queue_run 2 received_world) = Ok tt
  /\ q (rl_rx_queue (relay_state (fst (rx_queue_run 2 received_world)))) = [].
Proof.
  split; [vm_compute; reflexivity|].
  destruct (@relay_rx_drains default_config default_schema run_external some_layout some_relay_layout quiet_environment
    received_world ltac:(apply started_consistent; repeat constructor; discriminate)) as (n & w0 & w' & r & _ & _ & Hn & Hr & Hq).
  assert (rx_length received_world = 1%nat) as Hl by (vm_compute; reflexivity). rewrite Hl in Hn.
  assert (snd (rx_queue_run 2 received_world) = Ok tt) as E by (vm_compute; reflexivity).
  split; [exact E|]. specialize (Hr 2%nat Hn). rewrite Hr in E |- *. by apply Hq.
Defined.

Lemma relay_tx_drains_witness :
  tx_work_of (H := default_config) forwarded_world = 17%nat
  /\ tx_queue_run 1000 0 forwarded_world = tx_queue_run 18 0 forwarded_world
  /\ map (fun e => match e with Transmitted side _ => side | _ => -1 end) (relay_events (fst (tx_queue_run 18 0 forwarded_world))) = [1].
Proof.
  assert (tx_work_of (H := default_config) forwarded_world = 17%nat) as Hw by (vm_compute; reflexivity).
  split; [exact Hw|]. split; [|vm_compute; reflexivity].
  destruct (@relay_tx_drains default_config default_schema run_external some_layout some_relay_layout quiet_environment
    ltac:(vm_compute; discriminate) 0 forwarded_world ltac:(apply started_consistent; repeat constructor; discriminate))
    as (n & r & _ & Hn & Hr).
  rewrite Hw in Hn. rewrite (Hr 18%nat Hn). apply Hr. apply (Nat.le_trans _ 18); [exact Hn|]. apply Nat.leb_le. reflexivity.
Defined.
