(* ===== verification/RelayForward.v ===== *)
(** * What a relay forwards ([src/relay.rs])

    The duplicate filter of a relay as the window of [Duplicates], what a
    duplicate leads to, and the fan-out of an item to the sides it is planned
    for. *)

From stdpp Require Import gmap.
From S2P Require Import Prelude Ordered Telemetry Config Schema Queue SmallPayload Wire Packet Serialize Discovery RouterState Routes Reliable Plan Announce World Duplicates RelayState RelayPlan RelayPlanning RelayTopology RelayLink RelayRun.

(** ** The duplicate filter *)

Section Filter.
Context `{Config} `{Schema} `{External} `{Layout} `{RelayLayout}.
Context (Hside : 0 <= sizeof_RelaySideState) (Hmax : MAX_QUEUE_BUDGET <= isize_max) (Hids : 1 <= MAX_RECENT_RX_IDS).

Definition relay_seen (st : RelayInner) : list Z := q (rl_recent_rx st).

Definition relay_filter_capacity (st : RelayInner) : nat := filter_capacity (common st).

Lemma set_recent_self st : on_common (set_recent_rx (rl_recent_rx st)) st = st.
Proof. by destruct st. Qed.

Lemma relay_push_exact id st :
  relay_budget_ok st -> 8 <= max_bytes (rl_recent_rx st) ->
  exists d, relay_push_recent_rx id st = (on_common (set_recent_rx d) st, Ok tt)
  /\ relay_budget_ok (on_common (set_recent_rx d) st)
  /\ q d = drop (S (length (relay_seen st)) - relay_filter_capacity st) (relay_seen st ++ [id])
  /\ max_bytes d = max_bytes (rl_recent_rx st) /\ max_elems d = max_elems (rl_recent_rx st).
Proof.
  intros Hb Hmb. pose proof (relay_push_recent_ok Hside id st Hmax Hids Hb) as [Hkeep _].
  destruct Hb as [Hi Hb]. rewrite (relay_used_exact Hside) in Hb by done. unfold relay_push_recent_rx in *. rewrite LM_run in *.
  cbn [relay_get] in *. rewrite LM_run in *. unfold via at 1 in Hkeep. unfold via at 1.
  destruct (trim_exact Hids (length (q (rl_recent_rx st))) (common st) (ro_recent _ Hi) (Nat.le_refl _))
    as (d1 & Et & Hd1 & Hq1 & Hb1 & He1).
  rewrite Et in *. set (st1 := with_common (set_recent_rx d1 (common st)) st) in *. cbn [common recent_rx] in Hb1, He1.
  destruct (relay_queue_change st st1 eq_refl eq_refl) as [Hu _].
  assert (relay_exact_used st1 = relay_exact_used st) as Hsame by (cbn in Hu, Hb1; rewrite Hu, Hb1; lia).
  assert (relay_inner_ok st1) as Hi1 by (pose proof Hi as []; apply (relay_requeue st); try done; rewrite Hsame; lia).
  rewrite LM_run in *. rewrite (proj2 (relay_room_made Hside 0 RelayRecent st1 Hi1 ltac:(lia) Hmax)) in * by lia.
  unfold via in *. change (recent_rx (common st1)) with d1 in *.
  destruct (push_window Hids (common st) d1 id Hd1 Hmb Hq1 Hb1 He1) as (d & Ep & Hq). rewrite Ep in *.
  exists d. split; [reflexivity|]. split; [exact Hkeep|exact Hq].
Qed.

Lemma relay_duplicate_exact d id st :
  relay_budget_ok st -> 8 <= max_bytes (rl_recent_rx st) -> relay_get_hash d = Ok id ->
  let '(st', r) := relay_is_duplicate_pkt d st in
  r = Ok (bool_decide (id ∈ relay_seen st)) /\ relay_budget_ok st' /\ st' = on_common (set_recent_rx (rl_recent_rx st')) st
  /\ relay_seen st' = window_step (relay_filter_capacity st) (relay_seen st) id
  /\ max_bytes (rl_recent_rx st') = max_bytes (rl_recent_rx st) /\ relay_filter_capacity st' = relay_filter_capacity st.
Proof.
  intros Hb Hmb Hh. unfold relay_is_duplicate_pkt. rewrite LM_run, Hh. cbn [relay_lift]. rewrite LM_run. cbn [relay_get].
  pose proof (contains_seen (common st) id) as Hc. cbn [common recent_rx] in Hc. rewrite Hc. unfold window_step.
  change (seen (common st)) with (relay_seen st).
  destruct (decide (id ∈ relay_seen st)) as [Hin|Hin]; [rewrite !bool_decide_true by done|rewrite !bool_decide_false by done].
  - cbn [mret LM_ret]. by rewrite set_recent_self.
  - rewrite LM_run. destruct (relay_push_exact id st Hb Hmb) as (dq & -> & Hb' & Hq & Hm & He). cbn [mret LM_ret].
    split; [done|]. split; [exact Hb'|]. split; [done|]. split; [exact Hq|]. split; [exact Hm|].
    unfold relay_filter_capacity, filter_capacity. cbn. by rewrite Hm, He.
Qed.

(** A run of the filter. *)
Fixpoint relay_duplicates_of (ds : list RouterItem) : LM (list bool) :=
  match ds with
  | [] => mret []
  | d :: ds => b ← relay_is_duplicate_pkt d; l ← relay_duplicates_of ds; mret (b :: l)
  end.

Lemma relay_duplicates_run ds ids st :
  relay_budget_ok st -> 8 <= max_bytes (rl_recent_rx st) -> Forall2 (fun d id => relay_get_hash d = Ok id) ds ids ->
  let '(st', r) := relay_duplicates_of ds st in
  let '(out, l) := window_run (relay_filter_capacity st) (relay_seen st) ids in
  r = Ok l /\ relay_seen st' = out /\ st' = on_common (set_recent_rx (rl_recent_rx st')) st.
Proof.
  intros Hb Hmb Hall. revert st Hb Hmb. induction Hall as [|d id ds ids Hd Hall IH]; intros st Hb Hmb.
  { cbn [relay_duplicates_of window_run mret LM_ret]. by rewrite set_recent_self. }
  cbn [relay_duplicates_of window_run]. rewrite LM_run. pose proof (relay_duplicate_exact d id st Hb Hmb Hd) as Hx.
  destruct (relay_is_duplicate_pkt d st) as [st1 r1]. destruct Hx as (-> & Hb1 & E1 & <- & Hm1 & <-).
  rewrite LM_run. specialize (IH st1 Hb1 ltac:(lia)). destruct (relay_duplicates_of ds st1) as [st2 r2].
  destruct (window_run _ _ _) as [out l]. destruct IH as (-> & Hs & E2). cbn [mret LM_ret]. split; [done|].
  split; [done|]. rewrite E2 at 1. rewrite E1. reflexivity.
Qed.

Lemma relay_duplicate_known d id st :
  relay_get_hash d = Ok id -> id ∈ relay_seen st -> relay_is_duplicate_pkt d st = (st, Ok true).
Proof.
  intros Hh Hin. unfold relay_is_duplicate_pkt. rewrite LM_run, Hh. cbn [relay_lift]. rewrite LM_run. cbn [relay_get].
  pose proof (contains_seen (common st) id) as Hc. cbn [common recent_rx] in Hc. rewrite Hc. by rewrite bool_decide_true.
Qed.
End Filter.

(** ** What a duplicate leads to *)

Section Suppressed.
Context `{Config} `{Schema} `{External} `{Layout} `{RelayLayout}.
Context (env : Environment).

Lemma relay_suppressed_known src d id w :
  relay_get_hash d = Ok id -> id ∈ relay_seen (relay_state w) ->
  relay_suppressed env src d w = (forward ← should_forward_duplicate_reliable_item env src d; mret (negb forward)) w.
Proof.
  intros Hh Hin. unfold relay_suppressed. rewrite LW_run. unfold relay_locked at 1.
  rewrite (relay_duplicate_known d id _ Hh Hin). by destruct w.
Qed.

Lemma dropped_duplicate src d id eps t released w :
  relay_get_hash d = Ok id -> id ∈ relay_seen (relay_state w) -> relay_item_route_info d = Ok (eps, t) ->
  is_reliable_type t = false \/ is_reliable_control_type t = true ->
  relay_rx_unique env src d released w = (w, Ok tt).
Proof.
  intros Hh Hin Hi Ht. unfold relay_rx_unique. rewrite LW_run, (relay_suppressed_known _ _ id) by done.
  rewrite LW_run. unfold should_forward_duplicate_reliable_item. rewrite LW_run. unfold relay_answer at 1. rewrite Hi.
  assert (negb (is_reliable_type t) || is_reliable_control_type t = true) as ->; [|done].
  destruct Ht as [->| ->]; [done|by rewrite orb_true_r].
Qed.

(** The clock is asked once more, for the announcers of the planned sides. *)
Definition next_tick (w : RelayWorld) : RelayWorld :=
  {| relay_state := relay_state w; relay_tick := relay_tick w + 1; relay_events := relay_events w |}.

Lemma reliable_duplicate src d id eps t released w w1 planned :
  relay_get_hash d = Ok id -> id ∈ relay_seen (relay_state w) -> relay_item_route_info d = Ok (eps, t) ->
  is_reliable_type t = true -> is_reliable_control_type t = false ->
  relay_plan env d src w = (w1, planned) ->
  relay_rx_unique env src d released w
  = match planned with
    | Ok sides =>
        if existsb (fun s => relay_side_has_multiple_announcers_locked (relay_state w1) s (ms_at env (relay_tick w1) 0)) sides
        then (_ ← dispatch_relay_rx_item env src d; relay_dispatch_released env src released) (next_tick w1)
        else (next_tick w1, Ok tt)
    | Err e => (w1, Err e)
    | Panic => (w1, Panic)
    end.
Proof.
  intros Hh Hin Hi Ht Hc Hp. unfold relay_rx_unique. rewrite LW_run, (relay_suppressed_known _ _ id) by done.
  rewrite LW_run. unfold should_forward_duplicate_reliable_item. rewrite LW_run. unfold relay_answer at 1. rewrite Hi, Ht, Hc.
  cbn [negb orb]. rewrite LW_run, Hp. destruct planned as [sides|e|]; [|done..].
  rewrite LW_run. cbn [relay_now relay_ask]. unfold relay_locked, relay_get. cbn [relay_state relay_tick relay_events].
  by destruct (existsb _ _).
Qed.

(** From [w] to [w'] the clock is asked once, and of the state only the selection
    cursor of [src] may change. *)
Definition only_cursor (src : RouterSideId) (w w' : RelayWorld) : Prop :=
  relay_tick w' = relay_tick w + 1 /\ relay_events w' = relay_events w
  /\ (relay_state w' = relay_state w \/ exists c, relay_state w' = on_common (with_cursor (Some src) c) (relay_state w)).

Lemma plan_only_cursor src d w : only_cursor src w (fst (relay_plan env d src w)).
Proof.
  unfold relay_plan. rewrite LW_run. cbn [relay_now relay_ask]. unfold relay_locked. cbn [relay_state].
  pose proof (relay_plan_cursor (ms_at env (relay_tick w) 0) d src (relay_state w)) as Hp.
  by destruct (relay_remote_side_plan _ _ _ _) as [st r].
Qed.
End Suppressed.

(** C11. Duplicates at a relay.  The duplicate filter is a sliding window: it
    answers whether the item's identity is among those remembered, remembers it,
    and drops the oldest when it is full; an item is known until as many other
    identities came as the window holds, less one.  What becomes of a duplicate
    that its link lets through: one of an unreliable or a link-control type is
    dropped without a trace.  One of a reliable type is planned again, which
    changes nothing but the selection cursor of its source, and goes on exactly
    if one of the sides planned for it has several live announcers; otherwise it
    is dropped there.  When it cannot be planned the error is the answer. *)
Theorem relay_duplicates_suppressed `{Config} `{Schema} `{External} `{Layout} `{RelayLayout} d id st :
  0 <= sizeof_RelaySideState -> MAX_QUEUE_BUDGET <= isize_max -> 1 <= MAX_RECENT_RX_IDS ->
  relay_budget_ok st -> 8 <= max_bytes (rl_recent_rx st) -> relay_get_hash d = Ok id ->
  (let '(st', r) := relay_is_duplicate_pkt d st in
   r = Ok (bool_decide (id ∈ relay_seen st)) /\ st' = on_common (set_recent_rx (rl_recent_rx st')) st
   /\ relay_seen st' = window_step (relay_filter_capacity st) (relay_seen st) id)
  /\ (forall ds ids before, Forall2 (fun d id => relay_get_hash d = Ok id) ds ids ->
        relay_seen st = before ++ [id] -> (length (relay_seen st) <= relay_filter_capacity st)%nat ->
        (length ids < relay_filter_capacity st)%nat ->
        let st' := fst (relay_duplicates_of ds st) in relay_is_duplicate_pkt d st' = (st', Ok true))
  /\ (forall env src released w eps t,
        id ∈ relay_seen (relay_state w) -> relay_item_route_info d = Ok (eps, t) ->
        (is_reliable_type t = false \/ is_reliable_control_type t = true ->
         relay_rx_unique env src d released w = (w, Ok tt))
        /\ (is_reliable_type t = true -> is_reliable_control_type t = false ->
            let '(w1, planned) := relay_plan env d src w in
            only_cursor src w w1
            /\ relay_rx_unique env src d released w
               = match planned with
                 | Ok sides =>
                     if existsb (fun s => relay_side_has_multiple_announcers_locked (relay_state w1) s
                                  (ms_at env (relay_tick w1) 0)) sides
                     then (_ ← dispatch_relay_rx_item env src d; relay_dispatch_released env src released) (next_tick w1)
                     else (next_tick w1, Ok tt)
                 | Err e => (w1, Err e)
                 | Panic => (w1, Panic)
                 end)).
Proof.
  intros Hside Hmax Hids Hb Hmb Hh. split; [|split].
  - pose proof (relay_duplicate_exact Hside Hmax Hids d id st Hb Hmb Hh) as Hx. destruct (relay_is_duplicate_pkt d st). naive_solver.
  - intros ds ids before Hall Hs Hl Hn. cbn zeta.
    pose proof (relay_duplicates_run Hside Hmax Hids ds ids st Hb Hmb Hall) as Hr. destruct (relay_duplicates_of ds st) as [st' r].
    destruct (window_run _ _ _) as [out l] eqn:E. destruct Hr as (_ & Ho & _). cbn [fst].
    apply (relay_duplicate_known d id); [done|]. rewrite Ho.
    assert (forall cap seen ids, fst (window_run cap seen ids) = foldl (window_step cap) seen ids) as Hf.
    { clear. intros cap seen ids. revert seen. induction ids as [|i ids IH]; intros seen; cbn; [done|].
      specialize (IH (window_step cap seen i)). by destruct (window_run _ _ _). }
    specialize (Hf (relay_filter_capacity st) (relay_seen st) ids). rewrite E in Hf. cbn [fst] in Hf. rewrite Hf.
    apply (window_remembers _ (relay_seen st) id ids Hl 0); [by exists before, []|lia].
  - intros env src released w eps t Hin Hi. split.
    + intros Ht. by eapply dropped_duplicate.
    + intros Ht Hc. pose proof (plan_only_cursor env src d w) as Hp. destruct (relay_plan env d src w) as [w1 planned] eqn:E.
      split; [done|]. by eapply reliable_duplicate.
Qed.

(** ** The fan-out *)

Section Room.
Context {T : Type} `{ByteCost T}.

Definition limits (d : BoundedDeque T) : Z * Z := (max_bytes d, max_elems d).

Lemma pop_back_limits (d : BoundedDeque T) : limits (snd (pop_back d)) = limits d.
Proof. unfold pop_back. by case_match. Qed.

Lemma evict_back_limits prio fuel cost p (d : BoundedDeque T) : limits (fst (evict_back prio fuel cost p d)) = limits d.
Proof.
  revert d. induction fuel as [|fuel IH]; intros d; cbn [evict_back]; [done|].
  destruct (_ && _); [|done]. destruct (_ <? _); [done|]. by rewrite IH, pop_back_limits.
Qed.

Lemma ensure_room_limits (d : BoundedDeque T) : limits (ensure_room_for_one d) = limits d.
Proof.
  unfold ensure_room_for_one. cbn zeta.
  repeat case_match; first [done|unfold vd_reserve_exact; by repeat case_match|unfold pop_front; by case_match].
Qed.

Lemma push_prioritized_limits prio (d : BoundedDeque T) v : limits (fst (push_back_prioritized prio d v)) = limits d.
Proof.
  unfold push_back_prioritized. destruct (_ <? _); [done|].
  pose proof (evict_back_limits prio (length (q d)) (byte_cost v) (prio v) d) as He.
  destruct (evict_back _ _ _ _ _) as [d1 [[]|e|]]; cbn [fst] in *; [|done..].
  destruct (if max_elems d1 <=? len d1 then _ else _) as [d2 r] eqn:E.
  assert (limits d2 = limits d) as H2'.
  { rewrite <- He. destruct (max_elems d1 <=? len d1); [destruct (_ <? _)|]; injection E as <- _; try done. by rewrite pop_back_limits. }
  destruct r as [[]|e|]; cbn [fst]; [|done..]. rewrite <- H2', <- (ensure_room_limits d2). set (d3 := ensure_room_for_one d2).
  unfold limits, vd_insert, vd_push_back, vd_grow_if_full. repeat case_match; cbn; by simplify_eq.
Qed.

Lemma total_perm (l k : list T) : l ≡ₚ k -> total l = total k.
Proof. induction 1; cbn [total]; lia. Qed.

(** With room, nothing is evicted. *)
Lemma push_with_room prio (d : BoundedDeque T) v :
  bd_inv d -> cost_ok v -> fits d (byte_cost v) (q d) ->
  exists d', push_back_prioritized prio d v = (d', Ok tt) /\ q d' = prio_insert prio v (q d) /\ bd_inv d' /\ limits d' = limits d.
Proof.
  intros Hi Hv Hfit. pose proof (push_back_prioritized_cases prio d v Hi Hv) as Hc.
  pose proof (push_prioritized_limits prio d v) as Hl.
  destruct (Z.ltb_spec (max_bytes d) (byte_cost v)) as [Hbig|_].
  { pose proof (total_nonneg (q d) (bi_cost _ Hi)). destruct Hfit. lia. }
  destruct Hc as (k & (Hk & _ & Hmin) & Hd & Hr).
  assert (take k (q d) = q d) as Ek.
  { apply take_ge. destruct (Nat.le_gt_cases (length (q d)) k) as [|Hlt]; [done|]. exfalso.
    apply (Hmin (length (q d)) ltac:(lia)). by rewrite take_ge. }
  destruct (push_back_prioritized prio d v) as [d' [[]|e|]]; cbn [fst snd] in *; [|naive_solver congruence|done].
  destruct Hr as [_ Hq]. rewrite Ek in Hq. by exists d'.
Qed.
End Room.

Section Added.
Context {T : Type} `{ByteCost T}.

Lemma pop_front_sub (d : BoundedDeque T) : q (snd (pop_front d)) ⊆+ q d.
Proof. unfold pop_front. destruct (q d) eqn:E; cbn; [by rewrite E|]. by apply submseteq_cons. Qed.

Lemma pop_back_sub (d : BoundedDeque T) : q (snd (pop_back d)) ⊆+ q d.
Proof.
  unfold pop_back. destruct (last (q d)) as [v|] eqn:E; [|done]. cbn. apply last_Some in E as [l ->].
  rewrite removelast_last. by apply submseteq_inserts_r.
Qed.

Lemma evict_back_sub prio fuel cost p (d : BoundedDeque T) : q (fst (evict_back prio fuel cost p d)) ⊆+ q d.
Proof.
  revert d. induction fuel as [|fuel IH]; intros d; cbn [evict_back]; [done|].
  destruct (_ && _); [|done]. destruct (_ <? _); [done|]. by rewrite IH, pop_back_sub.
Qed.

Lemma ensure_room_sub (d : BoundedDeque T) : q (ensure_room_for_one d) ⊆+ q d.
Proof.
  unfold ensure_room_for_one. cbn zeta.
  repeat case_match; first [done|apply pop_front_sub|unfold vd_reserve_exact; repeat case_match; done].
Qed.

Lemma grow_keeps (d : BoundedDeque T) : q (vd_grow_if_full d) = q d.
Proof. unfold vd_grow_if_full. by case_match. Qed.

Lemma push_prioritized_adds prio (d : BoundedDeque T) v : q (fst (push_back_prioritized prio d v)) ⊆+ v :: q d.
Proof.
  unfold push_back_prioritized. destruct (_ <? _); [by apply submseteq_cons|].
  pose proof (evict_back_sub prio (length (q d)) (byte_cost v) (prio v) d) as He.
  destruct (evict_back _ _ _ _ _) as [d1 [[]|e|]]; cbn [fst] in *; [|rewrite He; by apply submseteq_cons..].
  destruct (if max_elems d1 <=? len d1 then _ else _) as [d2 r] eqn:E.
  assert (q d2 ⊆+ q d) as H2'.
  { rewrite <- He. destruct (max_elems d1 <=? len d1); [destruct (_ <? _)|]; injection E as <- _; [done| |done]. apply pop_back_sub. }
  destruct r as [[]|e|]; cbn [fst]; [|rewrite H2'; by apply submseteq_cons..].
  set (d3 := ensure_room_for_one d2). assert (q d3 ⊆+ q d) as H3' by (etransitivity; [apply ensure_room_sub|exact H2']).
  etransitivity; [apply Permutation_submseteq|apply submseteq_skip, H3'].
  destruct (position _ _) as [i|]; unfold vd_insert, vd_push_back; cbn [q set_q]; rewrite grow_keeps.
  - rewrite <- Permutation_middle. by rewrite take_drop.
  - by rewrite Permutation_app_comm.
Qed.
End Added.

Section FanOut.
Context `{Config} `{Schema} `{External} `{Layout} `{RelayLayout}.
Context (Hside : 0 <= sizeof_RelaySideState) (Hmax : MAX_QUEUE_BUDGET <= isize_max).

(** The item for one of its sides, and where it is queued. *)
Definition relayed (src : RouterSideId) (d : RouterItem) (prio : Z) (dst : RouterSideId) : RelayTxItem :=
  {| rtx_src := Some src; rtx_dst := dst; rtx_data := d; rtx_priority := prio |}.

Definition fanned_out (src : RouterSideId) (d : RouterItem) (prio : Z) (l : list RouterSideId) (queue : list RelayTxItem)
    : list RelayTxItem :=
  foldl (fun queue dst => prio_insert rtx_priority (relayed src d prio dst) queue) queue l.

Lemma fanned_out_perm src d prio l queue : fanned_out src d prio l queue ≡ₚ map (relayed src d prio) l ++ queue.
Proof.
  revert queue. induction l as [|dst l IH]; intros queue; cbn; [done|]. unfold fanned_out in IH. rewrite IH, prio_insert_perm.
  by rewrite <- Permutation_middle.
Qed.

Lemma pop_shared_sub k st : q (rl_tx_queue (snd (relay_pop_shared_queue_item k st))) ⊆+ q (rl_tx_queue st).
Proof.
  destruct k; cbn [relay_pop_shared_queue_item].
  - by destruct (pop_front _).
  - pose proof (pop_front_sub (rl_tx_queue st)) as Hs. by destruct (pop_front (rl_tx_queue st)).
  - by destruct (pop_front _).
  - by destruct (pop_front _).
  - unfold relay_pop_reliable_rx_buffered. repeat case_match; by simplify_eq.
  - unfold relay_pop_discovery_route. by repeat case_match.
Qed.

Lemma room_sub cost k st : q (rl_tx_queue (fst (relay_make_shared_queue_room cost k st))) ⊆+ q (rl_tx_queue st).
Proof.
  unfold relay_make_shared_queue_room. case_match; [done|]. generalize (S (relay_queued_items st)) as fuel. intros fuel.
  revert st. induction fuel as [|fuel IH]; intros st; cbn [relay_make_room_loop]; case_match; try done.
  unfold relay_evict_once. pose proof (pop_shared_sub (default k (relay_largest_shared_queue st)) st) as H1'.
  destruct (relay_pop_shared_queue_item (default k (relay_largest_shared_queue st)) st) as [[] st1]; cbn [snd] in H1';
    [by rewrite IH|].
  pose proof (pop_shared_sub k st1) as H2'. destruct (relay_pop_shared_queue_item k st1) as [[] st2]; cbn [snd fst] in *;
    [rewrite IH|]; by rewrite H2'.
Qed.

Lemma push_tx_adds i st : q (rl_tx_queue (fst (push_tx i st))) ⊆+ i :: q (rl_tx_queue st).
Proof.
  unfold push_tx. rewrite LM_run. pose proof (room_sub (byte_cost i) RelayTx st) as Hr.
  destruct (relay_make_shared_queue_room _ _ st) as [st1 [[]|e|]]; cbn [fst] in *; [|rewrite Hr; by apply submseteq_cons..].
  pose proof (push_prioritized_adds rtx_priority (rl_tx_queue st1) i) as Ha.
  destruct (push_back_prioritized _ _ _) as [d r]. cbn [fst] in *. cbn.
  etransitivity; [exact Ha|by apply submseteq_skip].
Qed.

(** There is room for [n] more copies of the item. *)
Definition room_for (d : RouterItem) (n : nat) (st : RelayInner) : Prop :=
  relay_shared_queue_bytes_used st + Z.of_nat n * relay_item_byte_cost d <= MAX_QUEUE_BUDGET
  /\ total (q (rl_tx_queue st)) + Z.of_nat n * relay_item_byte_cost d <= max_bytes (rl_tx_queue st)
  /\ Z.of_nat (length (q (rl_tx_queue st))) + Z.of_nat n <= max_elems (rl_tx_queue st).

Lemma fan_out_exact src d prio l st :
  0 <= relay_item_byte_cost d -> relay_item_priority d = Ok prio -> relay_budget_ok st -> room_for d (length l) st ->
  exists dq, push_tx_to_sides src d l st = (set_rl_tx_queue dq st, Ok tt)
  /\ q dq = fanned_out src d prio l (q (rl_tx_queue st)) /\ relay_budget_ok (set_rl_tx_queue dq st).
Proof.
  intros Hc Hp. revert st. induction l as [|dst l IH]; intros st Hb (R1 & R2 & R3); cbn [push_tx_to_sides fanned_out foldl].
  { exists (rl_tx_queue st). by destruct st. }
  rewrite LM_run, Hp. cbn [relay_lift]. rewrite LM_run. set (i := relayed src d prio dst).
  change {| rtx_src := Some src; rtx_dst := dst; rtx_data := d; rtx_priority := prio |} with i.
  assert (byte_cost i = relay_item_byte_cost d) as Hi by done. assert (cost_ok i) as Hok by (unfold cost_ok; lia).
  cbn [length] in *. destruct (push_tx_ok Hside i st Hmax Hok Hb) as [Hkeep Hroom]. rewrite Hroom in * by lia. clear Hroom.
  destruct (push_with_room rtx_priority (rl_tx_queue st) i (ro_tx _ (proj1 Hb)) Hok) as (d1 & E & Hq & Hd1 & Hl).
  { split; [rewrite Hi|]; lia. }
  rewrite E in *. destruct Hkeep as [Hb1 _]. cbn [fst] in Hb1. set (st1 := set_rl_tx_queue d1 st) in *.
  assert (total (q d1) = total (q (rl_tx_queue st)) + relay_item_byte_cost d) as Ht.
  { rewrite Hq. rewrite (total_perm _ _ (prio_insert_perm rtx_priority i (q (rl_tx_queue st)))). cbn [total]. lia. }
  assert (relay_shared_queue_bytes_used st1 = relay_shared_queue_bytes_used st + relay_item_byte_cost d) as Hu.
  { rewrite !(relay_used_exact Hside) by (apply Hb || apply Hb1). destruct (relay_queue_change st st1 eq_refl eq_refl) as [-> _].
    pose proof (bi_bytes _ (ro_tx _ (proj1 Hb))). pose proof (bi_bytes _ Hd1). unfold st1. cbn. lia. }
  injection Hl as Hl1 Hl2.
  destruct (IH st1 Hb1) as (dq & -> & Hq' & Hb').
  { unfold room_for, st1 in *. cbn [rl_tx_queue set_rl_tx_queue] in *. rewrite Hu, Ht, Hl1, Hl2, Hq, prio_insert_perm. cbn [length]. lia. }
  exists dq. split; [done|]. split; [|exact Hb']. rewrite Hq'. unfold st1. cbn [rl_tx_queue set_rl_tx_queue]. by rewrite Hq.
Qed.

(** Whether there is room or not, only copies are added. *)
Lemma fan_out_adds src d prio l st :
  relay_item_priority d = Ok prio ->
  q (rl_tx_queue (fst (push_tx_to_sides src d l st))) ⊆+ map (relayed src d prio) l ++ q (rl_tx_queue st).
Proof.
  intros Hp. revert st. induction l as [|dst l IH]; intros st; cbn [push_tx_to_sides map app]; [done|].
  rewrite LM_run, Hp. cbn [relay_lift]. rewrite LM_run. set (i := relayed src d prio dst).
  change {| rtx_src := Some src; rtx_dst := dst; rtx_data := d; rtx_priority := prio |} with i.
  pose proof (push_tx_adds i st) as Ha. destruct (push_tx i st) as [st1 [[]|e|]]; cbn [fst] in *.
  - etransitivity; [apply IH|]. etransitivity; [apply submseteq_skips_l, Ha|]. by rewrite <- Permutation_middle.
  - etransitivity; [exact Ha|]. by apply submseteq_skip, submseteq_inserts_l.
  - etransitivity; [exact Ha|]. by apply submseteq_skip, submseteq_inserts_l.
Qed.

(** Learning from the item and planning it. *)
Definition relay_planned (env : Environment) (src : RouterSideId) (d : RouterItem) : LW (list RouterSideId) :=
  now ← relay_now env; _ ← relay_locked (learn_discovery_item now src d); relay_plan env d src.
End FanOut.

(** C5. Once it is learnt from and planned, an item that a relay forwards only
    adds copies of itself to the transmit queue: whatever room there is, the
    queue afterwards holds nothing but old items and, for each planned side, at
    most one copy.  When the shared budget and the transmit queue have room for
    all copies, the item is queued exactly once for each side, in the order of
    the plan, behind the items of its own and higher priorities; nothing is
    evicted, nothing else of the state changes, and the operation succeeds. *)
Theorem relay_forwards `{Config} `{Schema} `{External} `{Layout} `{RelayLayout} env src d prio w w' l :
  0 <= sizeof_RelaySideState -> MAX_QUEUE_BUDGET <= isize_max -> 0 <= relay_item_byte_cost d ->
  relay_item_priority d = Ok prio -> relay_planned env src d w = (w', Ok l) ->
  q (rl_tx_queue (relay_state (fst (relay_forward env src d w))))
    ⊆+ map (relayed src d prio) l ++ q (rl_tx_queue (relay_state w'))
  /\ (relay_budget_ok (relay_state w') -> room_for d (length l) (relay_state w') ->
      exists queue,
        relay_forward env src d w
        = ({| relay_state := set_rl_tx_queue queue (relay_state w'); relay_tick := relay_tick w'; relay_events := relay_events w' |},
           Ok tt)
        /\ q queue = fanned_out src d prio l (q (rl_tx_queue (relay_state w')))
        /\ q queue ≡ₚ map (relayed src d prio) l ++ q (rl_tx_queue (relay_state w'))
        /\ (prio_sorted rtx_priority (q (rl_tx_queue (relay_state w'))) -> prio_sorted rtx_priority (q queue))).
Proof.
  intros Hside Hmax Hc Hp Hw.
  assert (relay_forward env src d w = relay_locked (push_tx_to_sides src d l) w') as ->.
  { unfold relay_planned in Hw. rewrite LW_run in Hw. unfold relay_forward. rewrite LW_run.
    destruct (relay_now env w) as [w1 [now|e|]]; [|done..]. rewrite LW_run in Hw. rewrite LW_run.
    destruct (relay_locked (learn_discovery_item now src d) w1) as [w2 [[]|e|]]; [|done..]. by rewrite LW_run, Hw. }
  unfold relay_locked. split.
  { pose proof (fan_out_adds src d prio l (relay_state w') Hp) as Ha. by destruct (push_tx_to_sides _ _ _ _). }
  intros Hb Hr. destruct (fan_out_exact Hside Hmax src d prio l _ Hc Hp Hb Hr) as (queue & -> & Hq & _).
  exists queue. split; [reflexivity|split; [done|split]].
  - rewrite Hq. apply fanned_out_perm.
  - intros Hs. rewrite Hq. unfold fanned_out. clear -Hs. revert Hs. generalize (q (rl_tx_queue (relay_state w'))) as queue.
    induction l as [|dst l IH]; intros queue Hs; cbn; [done|]. by apply IH, prio_insert_sorted.
Qed.

(** ** Witnesses *)

Notation relay_sees := (@relay_is_duplicate_pkt default_config default_schema run_external some_layout some_relay_layout).

(** A relay that has seen the packet. *)
Definition gps_seen : RelayInner := fst (relay_sees (RPacket gps_packet) fresh_relay).

(** The packet is still known after its serialized form, which counts as
    another item. *)
Lemma relay_duplicates_suppressed_witness :
  let st := fst (@relay_duplicates_of default_config default_schema run_external some_layout some_relay_layout
              [RSerialized gps_frame] gps_seen) in
  relay_sees (RPacket gps_packet) st = (st, Ok true)
  /\ snd (relay_sees (RSerialized gps_frame) gps_seen) = Ok false.
Proof.
  cbn zeta. split; [|vm_compute; reflexivity].
  pose proof (@relay_duplicate_exact default_config default_schema run_external some_layout some_relay_layout
    ltac:(vm_compute; discriminate) ltac:(vm_compute; discriminate) ltac:(vm_compute; discriminate)
    (RPacket gps_packet) gps_id fresh_relay fresh_relay_ok ltac:(vm_compute; discriminate) ltac:(vm_compute; reflexivity)) as Hb.
  assert (@relay_budget_ok default_config some_layout some_relay_layout gps_seen) as Hok.
  { unfold gps_seen. destruct (relay_sees _ _) as [st r]. apply Hb. }
  destruct (@relay_duplicates_suppressed default_config default_schema run_external some_layout some_relay_layout
    (RPacket gps_packet) gps_id gps_seen ltac:(vm_compute; discriminate) ltac:(vm_compute; discriminate)
    ltac:(vm_compute; discriminate) Hok ltac:(vm_compute; discriminate) ltac:(vm_compute; reflexivity)) as (_ & Hk & _).
  apply (Hk [RSerialized gps_frame]
    [match @relay_get_hash default_schema run_external (RSerialized gps_frame) with Ok id => id | _ => 0 end] []).
  - constructor; [vm_compute; reflexivity|constructor].
  - vm_compute. reflexivity.
  - vm_compute. repeat constructor.
  - vm_compute. repeat constructor.
Defined.

(** Two copies of a packet that floods from the first side. *)
Definition flood_world : RelayWorld := {| relay_state := relay_three_sides; relay_tick := 0; relay_events := [] |}.

Notation relay_plans := (@relay_planned default_config default_schema run_external some_relay_layout quiet_environment).

Definition flood_planned : RelayWorld := fst (relay_plans 0 (RPacket gps_packet) flood_world).

Lemma flood_budget : @relay_budget_ok default_config some_layout some_relay_layout (relay_state flood_planned).
Proof.
  pose proof (proj1 fresh_relay_ok) as Hok. pose proof Hok as [].
  assert (relay_state flood_planned = on_common (fun c => set_discovery_cadence (discovery_cadence (common (relay_state flood_planned)))
    (set_sides (rl_sides relay_three_sides) c)) fresh_relay) as E by (vm_compute; reflexivity).
  rewrite E. split; [|vm_compute; discriminate].
  apply (relay_requeue fresh_relay); first [assumption|reflexivity|vm_compute; discriminate].
Qed.

Lemma relay_forwards_witness :
  exists queue,
    snd (@relay_forward default_config default_schema run_external some_layout some_relay_layout quiet_environment 0
           (RPacket gps_packet) flood_world) = Ok tt
    /\ map rtx_dst queue = [1; 2].
Proof.
  destruct (fun H1 H2 H3 H4 H5 => proj2 (@relay_forwards default_config default_schema run_external some_layout
    some_relay_layout quiet_environment 0 (RPacket gps_packet) (@message_priority default_schema 0) flood_world
    flood_planned [1; 2] H1 H2 H3 H4 H5)) as (queue & E & Hq & _ & _).
  - vm_compute. discriminate.
  - vm_compute. discriminate.
  - vm_compute. discriminate.
  - vm_compute. reflexivity.
  - vm_compute. reflexivity.
  - exact flood_budget.
  - vm_compute. repeat split; discriminate.
  - exists (q queue). rewrite E. split; [reflexivity|]. rewrite Hq. vm_compute. reflexivity.
Defined.
