(* ===== verification/RelayCases.v ===== *)
(** * Runs of a relay ([src/relay.rs])

    Whole runs, evaluated: links with and without reliability, an
    acknowledgement on its way back, and what the loops leave behind. *)

From stdpp Require Import gmap.
From S2P Require Import Prelude Ordered Telemetry Config Schema Queue SmallPayload Wire Packet Serialize Discovery RouterState Routes Reliable Plan EndToEnd Announce World RelayState RelayPlan RelayTopology RelayLink RelayRun RelayTraffic RelayDrain.

Notation run_in env := (@run_relay_ops default_config default_schema run_external some_layout some_relay_layout env 20).
Notation step_in env := (@run_relay_op default_config default_schema run_external some_layout some_relay_layout env 20).

Definition reliable_options : RouterSideOptions :=
  {| reliable_enabled := true; link_local_enabled := false; ingress_enabled := true; egress_enabled := true |}.

(** The sides of the items waiting to be sent, and of the replays. *)
Definition waiting (w : RelayWorld) : list RouterSideId := map rtx_dst (q (rl_tx_queue (relay_state w))).
Definition replaying (w : RelayWorld) : list RouterSideId := map rp_dst (q (rl_replay_queue (relay_state w))).

(** Each transmission attempted: its side. *)
Definition attempts (w : RelayWorld) : list RouterSideId :=
  map (fun e => match e with Transmitted side _ | Replayed side _ => side | _ => -1 end) (relay_events w).

Definition three_links : list RelayOp :=
  [RelayAddSide (lit "A") HPacket side_options_default; RelayAddSide (lit "B") HPacket side_options_default;
   RelayAddSide (lit "C") HPacket side_options_default; RelayRx 0 (RPacket gps_packet)].

(** [process_all_queues] is documented to drain the queues, but ends at the
    first round that only drops an item: the packet for side 2 stays queued
    behind the one for side 1, which a rule has come to forbid. *)
Example drain_stops_at_a_dropped_item :
  let w := run_in quiet_environment (three_links ++ [RelayProcessRx 0; RelaySetRoute (Some 0) 1 false]) (relay_world fresh_relay) in
  let '(w1, r) := step_in quiet_environment (RelayProcessAll 0) w in
  waiting w = [1; 2] /\ r = Ok tt /\ attempts w1 = [] /\ waiting w1 = [2].
Proof. vm_compute. repeat split; reflexivity. Qed.

(** An environment where another transmission is on the stack at the [k]th
    question. *)
Definition busy_at (k : Z) : Environment :=
  {| ms_at n i := n + Z.of_nat i; ns_at n i := 1000000 * (n + Z.of_nat i); gate_busy n := n =? k; isr_busy _ := false;
     side_answer _ _ _ _ := Ok tt; handler_answer _ _ _ _ := Ok tt |}.

(** With another transmission on the stack for a moment, [process_tx_queue]
    queues the refused item again, [process_all_queues] loses it. *)
Example busy_side_loses_an_item :
  let w := run_in quiet_environment (three_links ++ [RelayProcessRx 0]) (relay_world fresh_relay) in
  let '(w1, r1) := step_in (busy_at 10) (RelayProcessTx 0) w in
  let '(w2, r2) := step_in (busy_at 9) (RelayProcessAll 0) w in
  waiting w = [1; 2]
  /\ (r1 = Ok tt /\ attempts w1 = [1] /\ waiting w1 = [2; 1])
  /\ (r2 = Err side_tx_busy /\ attempts w2 = [1] /\ waiting w2 = [2]).
Proof. vm_compute. repeat split; reflexivity. Qed.

(** ** Reliable links *)

(** An environment in which a second passes with each question. *)
Definition slow_environment : Environment :=
  {| ms_at n i := 1000 * n + Z.of_nat i; ns_at n i := 1000000 * (n + Z.of_nat i); gate_busy n := false; isr_busy _ := false;
     side_answer _ _ _ _ := Ok tt; handler_answer _ _ _ _ := Ok tt |}.

(** A link whose callback fails once, at the [k]th question. *)
Definition failing_at (k : Z) : Environment :=
  {| ms_at n i := n + Z.of_nat i; ns_at n i := 1000000 * (n + Z.of_nat i); gate_busy n := false; isr_busy _ := false;
     side_answer n _ _ _ := if n =? k then Err (HandlerError "link down") else Ok tt; handler_answer _ _ _ _ := Ok tt |}.

(** What the far end of a link asks for: a frame again. *)
Definition packet_request (seq : Z) : RouterItem :=
  match @relay_reliable_control_packet default_config default_schema 0 (@ReliablePacketRequest default_schema) 0 seq with
  | Ok pkt => RPacket pkt
  | _ => RPacket gps_packet
  end.

Definition reliable_links : list RelayOp :=
  [RelayAddSide (lit "A") HSerialized reliable_options; RelayAddSide (lit "B") HSerialized reliable_options;
   RelayRx 0 (RPacket gps_packet); RelayProcessAll 0].

Definition sent_world : RelayWorld := run_in quiet_environment reliable_links (relay_world fresh_relay).

(** The frames that wait for an acknowledgement: side, sequence number, whether
    a replay is thought to be queued. *)
Definition unacknowledged (w : RelayWorld) : list (RouterSideId * Z * bool) :=
  concat (map (fun e => map (fun s => (fst (fst e), fst s, queued (snd s))) (tx_sent (snd e))) (rl_reliable_tx (relay_state w))).

(** A frame nobody acknowledges goes out once, and as often again as the retry
    limit allows. *)
Example retransmitted_to_the_limit :
  let w := run_in slow_environment (replicate 9 (RelayProcessAll 0)) sent_world in
  attempts sent_world = [1] /\ unacknowledged sent_world = [(1, 1, false)]
  /\ attempts w = replicate 9 1 /\ unacknowledged w = [].
Proof. vm_compute. repeat split; reflexivity. Qed.

Definition requested_world : RelayWorld := run_in quiet_environment [RelayRx 1 (packet_request 1); RelayProcessRx 0] sent_world.

(** [clear_queues] leaves the replays; [clear_tx_queue], or disabling a side,
    drops a replay whose frame stays marked as queued: neither a timeout nor
    another request brings it back, and it is never given up either. *)
Example cleared_replay_is_lost :
  let cleared := run_in quiet_environment [RelayClearQueues] requested_world in
  let later ops := run_in slow_environment (ops ++ [RelayRx 1 (packet_request 1); RelayProcessAll 0; RelayProcessAll 0; RelayProcessAll 0])
                     requested_world in
  replaying requested_world = [1] /\ replaying cleared = [1]
  /\ attempts (later []) = replicate 10 1 /\ unacknowledged (later []) = []
  /\ attempts (later [RelayClearTx]) = [1] /\ unacknowledged (later [RelayClearTx]) = [(1, 1, true)]
  /\ attempts (later [RelaySetEgress 1 false; RelaySetEgress 1 true]) = [1]
  /\ unacknowledged (later [RelaySetEgress 1 false; RelaySetEgress 1 true]) = [(1, 1, true)].
Proof. vm_compute. repeat split; reflexivity. Qed.

(** The callback fails once, on a replay: the frame is marked as queued for
    good, though no replay is.  Nothing but an acknowledgement by the far end,
    which has not received it, would end that. *)
Example failed_replay_is_lost :
  let '(w1, r) := step_in (failing_at 13) (RelayProcessAll 0) requested_world in
  let w2 := run_in slow_environment [RelayRx 1 (packet_request 1); RelayProcessAll 0; RelayProcessAll 0] w1 in
  r = Err (HandlerError "link down") /\ attempts w1 = [1; 1]
  /\ attempts w2 = [1; 1] /\ replaying w2 = [] /\ unacknowledged w2 = [(1, 1, true)].
Proof. vm_compute. repeat split; reflexivity. Qed.

(** ** Acknowledgements on their way back *)

(** The end-to-end acknowledgement of the packet by a router named B. *)
Definition gps_acknowledged : RouterItem :=
  match @end_to_end_ack_packet default_config default_schema (board_router "B" 0) 0 gps_packet with
  | Ok pkt => RPacket pkt
  | _ => RPacket gps_packet
  end.

Definition acknowledged_over (o : RouterSideOptions) : RelayWorld :=
  run_in quiet_environment
    [RelayAddSide (lit "A") HPacket o; RelayAddSide (lit "B") HPacket o; RelayRx 0 (RPacket gps_packet); RelayProcessAll 0;
     RelayRx 1 gps_acknowledged; RelayProcessAll 0] (relay_world fresh_relay).

(** Whether a callback of the side has taken an item. *)
Definition called (side : RouterSideId) (w : RelayWorld) : bool := is_some (rl_adaptive_route_stats (relay_state w) !! side).

(** The acknowledgement is planned for the side the packet came from, but
    handed to it only if that side has hop reliability. *)
Example acknowledgement_needs_hop_reliability :
  attempts (acknowledged_over reliable_options) = [1; 0] /\ called 0 (acknowledged_over reliable_options) = true
  /\ attempts (acknowledged_over side_options_default) = [1; 0] /\ called 0 (acknowledged_over side_options_default) = false.
Proof. vm_compute. repeat split; reflexivity. Qed.

(** ** One packet over two links *)

Definition gps_framed (seq : Z) : RouterItem :=
  match @serialize_packet_with_reliable default_config default_schema run_external gps_packet {| rh_flags := 0; rh_seq := seq; rh_ack := 0 |} with
  | Ok bytes => RSerialized bytes
  | _ => RPacket gps_packet
  end.

(** The side of a packet is no part of its identity for the duplicate filter,
    but the sequence number of the link is: over two links that number
    differently, one packet is forwarded twice. *)
Example one_packet_forwarded_twice :
  let received seq0 seq1 :=
    waiting (run_in quiet_environment
      [RelayAddSide (lit "A") HSerialized side_options_default; RelayAddSide (lit "B") HSerialized side_options_default;
       RelayAddSide (lit "C") HSerialized side_options_default;
       RelayRx 0 (gps_framed seq0); RelayRx 1 (gps_framed seq1); RelayProcessRx 0] (relay_world fresh_relay)) in
  received 1 1 = [1; 2] /\ received 1 2 = [1; 2; 0; 2].
Proof. vm_compute. split; reflexivity. Qed.
