(* ===== verification/Text.v ===== *)
(** * The text renderings of packets ([src/packet.rs])

    [header_string], [as_string] and [to_hex_string], with what they use of
    [core::fmt]: [{}] of integers and booleans, [{:02x}], and [{:.N}] of floats,
    which prints the exact value of the float correctly rounded.  Integers, hex
    dumps and strings can be read back from the text; a float is printed as the
    nearest decimal with the configured number of digits. *)

From S2P Require Import Prelude Ordered Telemetry Config Schema Queue SmallPayload Wire Packet Calendar.

(** ** Numbers *)

(** [{}] of an integer of any width: 39 digits are enough for [u128]. *)
Definition int_text (n : Z) : Str :=
  if n <? 0 then b8 45 :: decimal_digits 40 (- n) [] else decimal_digits 40 n [].

(** What a float denotes: not a number, an infinity, or a sign and [m * 2 ^ e]. *)
Inductive FloatValue := FNaN | FInf (negative : bool) | FFinite (negative : bool) (m e : Z).

(** An IEEE 754 bit pattern with [mb] fraction and [eb] exponent bits. *)
Definition float_value (mb eb bits : Z) : FloatValue :=
  let frac := Z.land bits (2 ^ mb - 1) in
  let ex := Z.land (Z.shiftr bits mb) (2 ^ eb - 1) in
  let negative := Z.testbit bits (mb + eb) in
  let bias := 2 ^ (eb - 1) - 1 in
  if ex =? 2 ^ eb - 1 then if frac =? 0 then FInf negative else FNaN
  else if ex =? 0 then FFinite negative frac (1 - bias - mb)
  else FFinite negative (frac + 2 ^ mb) (ex - bias - mb).

Definition prim_float (T : Prim) (bits : Z) : option FloatValue :=
  match T with
  | PF32 => Some (float_value 23 8 bits)
  | PF64 => Some (float_value 52 11 bits)
  | _ => None
  end.

(** The nearest integer to [num / den], ties to even. *)
Definition round_half_even (num den : Z) : Z :=
  let n := num / den in
  let r := num mod den in
  if (den <? 2 * r) || ((den =? 2 * r) && Z.odd n) then n + 1 else n.

(** [m * 2 ^ e * 10 ^ p] as a fraction. *)
Definition scaled_num (p m e : Z) : Z := m * 10 ^ p * 2 ^ Z.max 0 e.
Definition scaled_den (e : Z) : Z := 2 ^ Z.max 0 (- e).

(** [n / 10 ^ p] with all [p] digits of the fraction. *)
Definition fixed_text (p : nat) (n : Z) : Str :=
  let digits := decimal_digits (p + 310) n [] in
  let digits := replicate (S p - length digits) (b8 48) ++ digits in
  let whole := (length digits - p)%nat in
  take whole digits ++ match p with O => [] | _ => b8 46 :: drop whole digits end.

Definition sign_text (negative : bool) : Str := if negative then lit "-" else [].

(** [{:.p}]. *)
Definition float_text (p : Z) (v : FloatValue) : Str :=
  match v with
  | FNaN => lit "NaN"
  | FInf negative => sign_text negative ++ lit "inf"
  | FFinite negative m e =>
      sign_text negative ++ fixed_text (Z.to_nat p) (round_half_even (scaled_num p m e) (scaled_den e))
  end.

(** [{:x}] of one digit, [{:02x}] of a byte. *)
Definition hex_digit (n : Z) : byte := b8 (if n <? 10 then 48 + n else 87 + n).
Definition hex_text (b : byte) : Str := [hex_digit (u8 b / 16); hex_digit (u8 b mod 16)].

(** One byte of a dump. *)
Definition hex_item (b : byte) : Str := lit " 0x" ++ hex_text b.

Fixpoint join (sep : Str) (l : list Str) : Str :=
  match l with
  | [] => []
  | [s] => s
  | s :: l => s ++ sep ++ join sep l
  end.

(** ** Packets *)

Section Text.
Context `{Config} `{Schema}.

Definition header_string (p : Packet) : Str :=
  lit "Type: " ++ get_message_name (ty p) ++ lit ", Data Size: " ++ int_text (data_size p)
  ++ lit ", Sender: " ++ sender p ++ lit ", Endpoints: [" ++ join (lit ", ") (map ep_as_str (pkt_endpoints p))
  ++ lit "], Timestamp: " ++ int_text (timestamp p) ++ lit " (" ++ human_time (timestamp p) ++ lit ")".

(** One element: floats with the configured precision. *)
Definition prim_text (T : Prim) (v : Z) : Str :=
  match prim_float T v with
  | Some f => float_text STRING_PRECISION f
  | None => int_text v
  end.

Definition data_to_string (T : Prim) (bytes : list byte) : TelemetryResult Str :=
  vs ← mapM_res (from_le T) (chunks_exact (Z.to_nat (blen bytes / WIDTH T)) (Z.to_nat (WIDTH T)) bytes);
  Ok (join (lit ", ") (map (prim_text T) vs)).

Definition bool_text (b : byte) : Str := if u8 b =? 0 then lit "false" else lit "true".

Definition to_hex_string (p : Packet) : TelemetryResult Str :=
  bytes ← payload_bytes p;
  Ok (header_string p ++ lit ", Data (hex):" ++ concat (map hex_item bytes)).

Definition class_text (c : MessageClass) : Str :=
  match c with
  | Data => lit ", Data: ("
  | Error => lit ", Error: ("
  | Warning => lit ", Warning: ("
  end.

(** The numeric arms. *)
Definition numeric_prim (dt : MessageDataType) : option Prim :=
  match dt with
  | Float64 => Some PF64 | Float32 => Some PF32
  | UInt128 => Some PU128 | UInt64 => Some PU64 | UInt32 => Some PU32 | UInt16 => Some PU16 | UInt8 => Some PU8
  | Int128 => Some PI128 | Int64 => Some PI64 | Int32 => Some PI32 | Int16 => Some PI16 | Int8 => Some PI8
  | _ => None
  end.

(** The arm of the [match] on the element type. *)
Definition body_string (p : Packet) (bytes : list byte) : TelemetryResult Str :=
  match get_data_type (ty p) with
  | TBool => Ok (join (lit ", ") (map bool_text bytes))
  | NoData => Ok (lit "<no data>")
  | dt => match numeric_prim dt with Some T => data_to_string T bytes | None => Ok [] end
  end.

Definition as_string (p : Packet) : TelemetryResult Str :=
  let s := lit "{" ++ header_string p in
  bytes ← payload_bytes p;
  match bytes with
  | [] => Ok (s ++ lit ", Data: (<NoData>)}")
  | _ =>
      let s := s ++ class_text (get_info_type (ty p)) in
      msg ← data_as_utf8_ref p;
      match msg with
      | Some msg => Ok (s ++ b8 34 :: msg ++ b8 34 :: lit ")}")
      | None =>
          if decide (get_data_type (ty p) = Binary) then to_hex_string p
          else body ← body_string p bytes; Ok (s ++ body ++ lit ")}")
      end
  end.
End Text.

(** ** Reading numbers back *)

Definition digit_value (b : byte) : option Z := if in_range 48 57 b then Some (u8 b - 48) else None.

Fixpoint read_digits (acc : Z) (l : Str) : option Z :=
  match l with
  | [] => Some acc
  | b :: l => d ← digit_value b; read_digits (10 * acc + d) l
  end.

Lemma digit_b8 d : 0 <= d < 10 -> digit_value (b8 (48 + d)) = Some d.
Proof. intros Hd. unfold digit_value, in_range. rewrite u8_b8, Z.mod_small by lia. zcase. f_equal. lia. Qed.

Lemma decimal_digits_app fuel n acc : decimal_digits fuel n acc = decimal_digits fuel n [] ++ acc.
Proof.
  revert n acc. induction fuel as [|fuel IH]; intros n acc; [done|]. cbn [decimal_digits].
  destruct (n / 10 =? 0); [done|]. rewrite IH, (IH _ [_]), <- app_assoc. done.
Qed.

Lemma read_digits_app l l' acc : read_digits acc (l ++ l') = (a ← read_digits acc l; read_digits a l').
Proof. revert acc. induction l as [|b l IH]; intros acc; [done|]. cbn. destruct (digit_value b); [apply IH|done]. Qed.

Lemma read_decimal fuel n : 0 <= n < 10 ^ Z.of_nat fuel -> read_digits 0 (decimal_digits fuel n []) = Some n.
Proof.
  revert n. induction fuel as [|fuel IH]; intros n Hn; [replace n with 0 by (cbn in Hn; lia); done|].
  cbn [decimal_digits]. pose proof (Z.mod_pos_bound n 10 eq_refl). pose proof (Z.div_mod n 10 ltac:(lia)) as Hd.
  destruct (Z.eqb_spec (n / 10) 0) as [E|E].
  - cbn [read_digits]. rewrite digit_b8 by done. cbn. f_equal. lia.
  - rewrite decimal_digits_app, read_digits_app, IH.
    + cbn. rewrite digit_b8 by done. cbn. f_equal. lia.
    + rewrite Nat2Z.inj_succ, Z.pow_succ_r in Hn by lia. split; [apply Z.div_pos; lia|]. apply Z.div_lt_upper_bound; lia.
Qed.

Lemma decimal_digits_nonempty fuel n : decimal_digits (S fuel) n [] <> [].
Proof.
  cbn [decimal_digits]. destruct (n / 10 =? 0); [done|]. rewrite decimal_digits_app. by destruct (decimal_digits _ _ []).
Qed.

Lemma decimal_digits_digits fuel n : 0 <= n -> Forall (fun b => is_Some (digit_value b)) (decimal_digits fuel n []).
Proof.
  revert n. induction fuel as [|fuel IH]; intros n Hn; [constructor|]. cbn [decimal_digits].
  assert (is_Some (digit_value (b8 (48 + n mod 10)))) as Hb by (by rewrite digit_b8 by (apply Z.mod_pos_bound; lia)).
  destruct (n / 10 =? 0); [by repeat constructor|]. rewrite decimal_digits_app. apply Forall_app.
  split; [apply IH, Z.div_pos; lia|by repeat constructor].
Qed.

(** A comma-separated list of integers; [acc]: the digits read so far. *)
Fixpoint read_ints (negative : bool) (acc : option Z) (l : Str) : option (list Z) :=
  match l with
  | [] => n ← acc; Some [if negative then - n else n]
  | b :: l =>
      if u8 b =? 45 then match acc with None => if negative then None else read_ints true None l | Some _ => None end
      else if u8 b =? 44 then
        match l with
        | sp :: l => n ← acc; ns ← (if u8 sp =? 32 then read_ints false None l else None);
                     Some ((if negative then - n else n) :: ns)
        | [] => None
        end
      else d ← digit_value b; read_ints negative (Some (10 * default 0 acc + d)) l
  end.

Lemma read_ints_digits negative ds l acc n :
  Forall (fun b => is_Some (digit_value b)) ds -> read_digits (default 0 acc) ds = Some n ->
  read_ints negative acc (ds ++ l) = read_ints negative (match ds with [] => acc | _ => Some n end) l.
Proof.
  intros Hd. revert acc. induction Hd as [|b ds Hb Hd IH]; intros acc Hr; [done|]. cbn [app read_ints read_digits] in *.
  revert Hb Hr. unfold digit_value at 1 2 3, in_range. destruct (Z.eqb_spec (u8 b) 45); [zcase; by intros [? ?]|].
  destruct (Z.eqb_spec (u8 b) 44); [zcase; by intros [? ?]|]. zcase; [|by intros [? ?]..]. intros _. cbn. intros Hr.
  rewrite (IH (Some _)) by exact Hr. destruct ds; [by injection Hr as <-|done].
Qed.

Lemma read_int_text n l : - 10 ^ 40 < n < 10 ^ 40 ->
  read_ints false None (int_text n ++ l) = read_ints (n <? 0) (Some (Z.abs n)) l.
Proof.
  intros Hn. unfold int_text. destruct (Z.ltb_spec n 0) as [Hneg|Hpos].
  - cbn [app read_ints]. change (u8 (b8 45) =? 45) with true. cbn beta iota.
    rewrite (read_ints_digits true _ l None (- n)).
    + destruct (decimal_digits 40 (- n) []) eqn:E; [by apply decimal_digits_nonempty in E|]. by rewrite Z.abs_neq by lia.
    + apply decimal_digits_digits. lia.
    + apply read_decimal. cbn [Z.of_nat]. lia.
  - rewrite (read_ints_digits false _ l None n).
    + destruct (decimal_digits 40 n []) eqn:E; [by apply decimal_digits_nonempty in E|]. by rewrite Z.abs_eq by lia.
    + apply decimal_digits_digits. lia.
    + apply read_decimal. cbn [Z.of_nat]. lia.
Qed.

Lemma join_cons sep s s' l : join sep (s :: s' :: l) = s ++ sep ++ join sep (s' :: l).
Proof. done. Qed.

Lemma read_ints_join ns : ns <> [] -> Forall (fun n => - 10 ^ 40 < n < 10 ^ 40) ns ->
  read_ints false None (join (lit ", ") (map int_text ns)) = Some ns.
Proof.
  intros Hne Hall. induction Hall as [|n ns Hn Hns IH]; [done|].
  assert ((if n <? 0 then - Z.abs n else Z.abs n) = n) as Hv by (destruct (Z.ltb_spec n 0); lia).
  destruct ns as [|n' ns].
  - cbn [map join]. rewrite <- (app_nil_r (int_text n)), read_int_text by done. cbn. by rewrite Hv.
  - cbn [map]. rewrite join_cons, read_int_text by done. change (int_text n' :: map int_text ns) with (map int_text (n' :: ns)).
    change (lit ", ") with [b8 44; b8 32] in *. cbn [app read_ints].
    change (u8 (b8 44) =? 45) with false. change (u8 (b8 44) =? 44) with true. change (u8 (b8 32) =? 32) with true. cbn iota.
    rewrite IH by done. cbn. by rewrite Hv.
Qed.

(** ** Floats *)

Lemma round_half_even_spec num den : 0 < den ->
  let n := round_half_even num den in
  2 * Z.abs (n * den - num) <= den /\ (2 * Z.abs (n * den - num) = den -> Z.Even n).
Proof.
  intros Hd n. pose proof (Z.div_mod num den ltac:(lia)) as Hdm. pose proof (Z.mod_pos_bound num den Hd).
  unfold n, round_half_even. destruct (Z.ltb_spec den (2 * (num mod den))); cbn [orb].
  - split; [lia|]. lia.
  - destruct (Z.eqb_spec den (2 * (num mod den))); cbn [andb]; [|split; lia].
    destruct (Z.odd (num / den)) eqn:Ho; (split; [lia|]); intros _.
    + apply Z.odd_spec in Ho as [k Hk]. exists (k + 1). lia.
    + rewrite <- Z.negb_even in Ho. apply negb_false_iff, Z.even_spec in Ho. done.
Qed.

Lemma read_zeros k l acc : read_digits 0 (replicate k (b8 48) ++ l) = acc <-> read_digits 0 l = acc.
Proof. induction k as [|k IH]; [done|]. exact IH. Qed.

Lemma fixed_text_spec p n : 0 <= n < 10 ^ Z.of_nat (p + 310) ->
  exists whole frac, fixed_text p n = whole ++ match p with O => [] | _ => b8 46 :: frac end
    /\ whole <> [] /\ length frac = p /\ read_digits 0 (whole ++ frac) = Some n.
Proof.
  intros Hn. unfold fixed_text. set (ds := decimal_digits (p + 310) n []). set (ps := replicate _ _ ++ ds).
  assert (S p <= length ps)%nat as Hl by (unfold ps; rewrite length_app, length_replicate; lia).
  exists (take (length ps - p) ps), (drop (length ps - p) ps). split; [done|]. split; [|split].
  - intros E%(f_equal length). rewrite length_take in E. cbn in E. lia.
  - rewrite length_drop. lia.
  - rewrite take_drop. apply read_zeros. by apply read_decimal.
Qed.

Lemma float_value_range mb eb bits negative m e : 0 <= mb -> 2 <= eb ->
  float_value mb eb bits = FFinite negative m e ->
  0 <= m < 2 ^ (mb + 1) /\ e < 2 ^ (eb - 1) - mb.
Proof.
  intros Hm He. unfold float_value.
  pose proof (Z.land_ones bits mb Hm) as Hf. pose proof (Z.land_ones (Z.shiftr bits mb) eb ltac:(lia)) as Hx.
  rewrite Z.ones_equiv, <- Z.sub_1_r in Hf, Hx. rewrite Hf, Hx. clear Hf Hx.
  pose proof (Z.mod_pos_bound bits (2 ^ mb) ltac:(apply Z.pow_pos_nonneg; lia)) as Hr1.
  pose proof (Z.mod_pos_bound (Z.shiftr bits mb) (2 ^ eb) ltac:(apply Z.pow_pos_nonneg; lia)) as Hr2.
  assert (2 ^ (mb + 1) = 2 * 2 ^ mb) as E1 by (rewrite Z.pow_add_r by lia; lia).
  assert (2 ^ eb = 2 * 2 ^ (eb - 1)) as E2 by (rewrite <- (Z.pow_succ_r 2 (eb - 1)) by lia; f_equal; lia).
  assert (2 <= 2 ^ (eb - 1)) by (change 2 with (2 ^ 1) at 1; apply Z.pow_le_mono_r; lia).
  destruct (Z.eqb_spec ((Z.shiftr bits mb) mod 2 ^ eb) (2 ^ eb - 1)); [by case_match|].
  destruct (Z.eqb_spec ((Z.shiftr bits mb) mod 2 ^ eb) 0); intros [= <- <- <-]; lia.
Qed.

(** The number printed: [n] is the nearest integer to [m * 2 ^ e * 10 ^ p], and
    the even one when two are equally near. *)
Definition nearest (p m e n : Z) : Prop :=
  2 * Z.abs (n * scaled_den e - scaled_num p m e) <= scaled_den e
  /\ (2 * Z.abs (n * scaled_den e - scaled_num p m e) = scaled_den e -> Z.Even n).

(** How a float is printed. *)
Definition float_shown (p : Z) (v : FloatValue) (text : Str) : Prop :=
  match v with
  | FNaN => text = lit "NaN"
  | FInf negative => text = sign_text negative ++ lit "inf"
  | FFinite negative m e =>
      exists whole frac n,
        text = sign_text negative ++ whole ++ (if p =? 0 then [] else b8 46 :: frac)
        /\ whole <> [] /\ Z.of_nat (length frac) = p /\ read_digits 0 (whole ++ frac) = Some n /\ nearest p m e n
  end.

Lemma product_bound m P X M K : 0 < P -> 0 <= m < M -> 1 <= X <= K -> 0 <= m * P * X < P * (M * K).
Proof. intros HP Hm HX. assert (0 <= m * X <= (M - 1) * K) as Hx by (split; [|apply Z.mul_le_mono_nonneg]; nia). nia. Qed.

Lemma nearest_bound n den num : 0 < den -> 0 <= num -> 2 * Z.abs (n * den - num) <= den -> 0 <= n <= num.
Proof.
  intros Hd Hnum Hn. split.
  - destruct (Z.le_gt_cases 0 n) as [|Hneg]; [done|]. nia.
  - destruct (Z.le_gt_cases n num) as [|Hgt]; [done|]. nia.
Qed.

Lemma float_text_shown T bits v p : 0 <= p -> prim_float T bits = Some v -> float_shown p v (float_text p v).
Proof.
  intros Hp Hv. destruct v as [|negative|negative m e]; [done..|]. cbn [float_shown float_text].
  assert (0 <= m < 2 ^ 53 /\ e < 972) as [Hm He].
  { destruct T; try discriminate Hv; injection Hv as Hv; apply float_value_range in Hv; lia. }
  assert (0 < scaled_den e) as Hden by (apply Z.pow_pos_nonneg; lia).
  set (n := round_half_even (scaled_num p m e) (scaled_den e)).
  destruct (round_half_even_spec (scaled_num p m e) (scaled_den e) Hden) as [Hn He'].
  assert (0 <= n < 10 ^ Z.of_nat (Z.to_nat p + 310)) as Hr.
  { assert (0 <= scaled_num p m e < 10 ^ p * 2 ^ 1025) as Hs.
    { unfold scaled_num. pose proof (Z.pow_pos_nonneg 10 p eq_refl Hp).
      assert (1 <= 2 ^ Z.max 0 e <= 2 ^ 972) as Hx
        by (split; [pose proof (Z.pow_pos_nonneg 2 (Z.max 0 e)); lia|apply Z.pow_le_mono_r; lia]).
      change (2 ^ 1025) with (2 ^ 53 * 2 ^ 972). by apply product_bound. }
    fold n in Hn. assert (1 <= scaled_den e) by lia. rewrite Nat2Z.inj_add, Z2Nat.id, Z.pow_add_r by lia.
    pose proof (Z.pow_pos_nonneg 10 p eq_refl Hp). change (Z.of_nat 310) with 310.
    destruct (nearest_bound n _ _ Hden (proj1 Hs) Hn) as [Hn0 Hn1]. split; [exact Hn0|].
    eapply Z.le_lt_trans; [exact Hn1|]. eapply Z.lt_trans; [apply Hs|]. apply Z.mul_lt_mono_pos_l; [lia|vm_compute; reflexivity]. }
  destruct (fixed_text_spec (Z.to_nat p) n Hr) as (whole & frac & Ht & Hw & Hf & Hd).
  exists whole, frac, n. rewrite Ht. split; [|split; [done|split; [lia|done]]].
  destruct (Z.eqb_spec p 0) as [->|]; [done|]. by destruct (Z.to_nat p) eqn:?; [lia|].
Qed.

(** ** Elements *)

Lemma from_le_range T l v : from_le T l = Ok v -> prim_ok T v.
Proof.
  unfold from_le, prim_ok. destruct (Z.eqb_spec (blen l) (WIDTH T)) as [Hl|]; [|done]. cbn [negb]. intros [= <-].
  pose proof (le_value_range l) as Hr. unfold blen in Hl. rewrite Hl in Hr.
  pose proof (WIDTH_pos T). replace (256 ^ WIDTH T) with (2 ^ (8 * WIDTH T)) in Hr by (rewrite Z.pow_mul_r by lia; done).
  destruct (signed T); [|done]. unfold swrap.
  pose proof (Z.mod_pos_bound (le_value l + 2 ^ (8 * WIDTH T - 1)) (2 ^ (8 * WIDTH T)) ltac:(apply Z.pow_pos_nonneg; lia)).
  assert (2 ^ (8 * WIDTH T) = 2 * 2 ^ (8 * WIDTH T - 1)) by (rewrite <- Z.pow_succ_r by lia; f_equal; lia). lia.
Qed.

Lemma prim_ok_small T v : prim_ok T v -> - 10 ^ 40 < v < 10 ^ 40.
Proof. unfold prim_ok. destruct T; cbn [signed WIDTH]; lia. Qed.

Lemma chunks_exact_width count w l : (count * w <= length l)%nat -> Forall (fun c => length c = w) (chunks_exact count w l).
Proof.
  revert l. induction count as [|count IH]; intros l Hl; constructor.
  - rewrite length_take. lia.
  - apply IH. rewrite length_drop. lia.
Qed.

Lemma decode_all T cs : Forall (fun c => length c = Z.to_nat (WIDTH T)) cs ->
  exists vs, mapM_res (from_le T) cs = Ok vs /\ Forall (prim_ok T) vs /\ length vs = length cs.
Proof.
  induction 1 as [|c cs Hc Hcs (vs & Hvs & Hok & Hl)]; [by exists []|]. cbn [mapM_res].
  pose proof (WIDTH_pos T). assert (exists v, from_le T c = Ok v) as [v Hv].
  { unfold from_le, blen. rewrite Hc, Z2Nat.id, Z.eqb_refl by lia. by eexists. }
  rewrite Hv, Hvs. cbn. exists (v :: vs). split; [done|]. split; [|cbn; lia]. constructor; [by eapply from_le_range|done].
Qed.

Lemma decode_chunks T l :
  exists vs, mapM_res (from_le T) (chunks_exact (Z.to_nat (blen l / WIDTH T)) (Z.to_nat (WIDTH T)) l) = Ok vs
    /\ Forall (prim_ok T) vs /\ (WIDTH T <= blen l -> vs <> []).
Proof.
  pose proof (WIDTH_pos T) as Hw. pose proof (blen_nonneg l).
  destruct (decode_all T (chunks_exact (Z.to_nat (blen l / WIDTH T)) (Z.to_nat (WIDTH T)) l)) as (vs & Hvs & Hok & Hlen).
  { apply chunks_exact_width. unfold blen in *. pose proof (Z.mul_div_le (Z.of_nat (length l)) (WIDTH T) ltac:(lia)).
    rewrite <- Z2Nat.inj_mul by (try apply Z.div_pos; lia). lia. }
  exists vs. split; [done|]. split; [done|]. intros Hl ->.
  pose proof (Z.div_str_pos (blen l) (WIDTH T) ltac:(lia)). by destruct (Z.to_nat (blen l / WIDTH T)) eqn:?; [lia|].
Qed.

Definition hex_value (b : byte) : option Z :=
  if in_range 48 57 b then Some (u8 b - 48) else if in_range 97 102 b then Some (u8 b - 87) else None.

(** The bytes of a dump. *)
Fixpoint read_hex (l : Str) : option (list byte) :=
  match l with
  | [] => Some []
  | _ :: _ :: _ :: h :: d :: l =>
      h ← hex_value h; d ← hex_value d; bytes ← read_hex l; Some (b8 (16 * h + d) :: bytes)
  | _ => None
  end.

Lemma hex_value_digit n : 0 <= n < 16 -> hex_value (hex_digit n) = Some n.
Proof.
  intros Hn. unfold hex_value, hex_digit, in_range. rewrite u8_b8.
  destruct (Z.ltb_spec n 10); rewrite Z.mod_small by lia; zcase; f_equal; lia.
Qed.

Lemma read_hex_dump l : read_hex (concat (map hex_item l)) = Some l.
Proof.
  induction l as [|b l IH]; [done|]. cbn [map concat]. pose proof (u8_range b) as Hb. unfold is_u8 in Hb.
  pose proof (Z.div_mod (u8 b) 16 ltac:(lia)). pose proof (Z.mod_pos_bound (u8 b) 16 eq_refl).
  
  change (hex_item b ++ concat (map hex_item l))
    with (b8 32 :: b8 48 :: b8 120 :: hex_digit (u8 b / 16) :: hex_digit (u8 b mod 16) :: concat (map hex_item l)).
  cbn [read_hex].
  assert (0 <= u8 b / 16 < 16) by (split; [apply Z.div_pos; lia|apply Z.div_lt_upper_bound; lia]). rewrite !hex_value_digit by done.
  cbn. rewrite IH. cbn. f_equal. f_equal. rewrite <- (b8_u8 b) at 3. f_equal. lia.
Qed.

(** ** Packets *)

Section Rendered.
Context `{Config} `{Schema}.

Lemma numeric_kind dt T : numeric_prim dt = Some T -> prim_kind T = dt /\ data_type_size dt = WIDTH T /\ element_width dt = WIDTH T.
Proof. by destruct dt; intros [= <-]. Qed.

(** Payloads of numbers are whole numbers of elements. *)
Lemma content_whole t data T :
  content_ok t data -> numeric_prim (get_data_type t) = Some T -> blen data mod WIDTH T = 0.
Proof.
  intros Hc Hk. destruct (numeric_kind _ _ Hk) as (_ & Hs & Hw). revert Hc Hk. unfold content_ok.
  destruct (element (message_meta t)) as [need dt mc|dt mc] eqn:E.
  - intros -> _. rewrite Hs. unfold wrap.
    assert (WIDTH T | 2 ^ 64) as Hdiv
      by (destruct T; cbn [WIDTH]; [exists (2^62)|exists (2^61)|exists (2^64)|exists (2^63)|exists (2^62)|exists (2^61)
          |exists (2^60)|exists (2^64)|exists (2^63)|exists (2^62)|exists (2^61)|exists (2^60)]; reflexivity).
    pose proof (WIDTH_pos T). rewrite <- Znumtheory.Zmod_div_mod by (done || lia). apply Z.mod_mul. lia.
  - assert (get_data_type t = dt) as <- by (unfold get_data_type, message_meta in *; by rewrite E).
    destruct (get_data_type t); try discriminate; by rewrite Hw.
Qed.

(** Elements as they are shown: integers can be read back, floats are
    correctly rounded. *)
Definition elements_shown (T : Prim) (vs : list Z) (body : Str) : Prop :=
  match prim_float T 0 with
  | None => read_ints false None body = Some vs
  | Some _ =>
      exists texts, body = join (lit ", ") texts
        /\ Forall2 (fun v text => forall f, prim_float T v = Some f -> float_shown STRING_PRECISION f text) vs texts
  end.

Lemma elements_are_shown T vs :
  0 <= STRING_PRECISION -> Forall (prim_ok T) vs -> vs <> [] ->
  elements_shown T vs (join (lit ", ") (map (prim_text T) vs)).
Proof.
  intros Hp Hv Hne. unfold elements_shown. destruct (prim_float T 0) eqn:E.
  - exists (map (prim_text T) vs). split; [done|]. clear Hv Hne E. induction vs as [|v vs IH]; constructor; [|done].
    intros f' Hf. unfold prim_text. rewrite Hf. by eapply float_text_shown.
  - replace (map (prim_text T) vs) with (map int_text vs).
    + apply read_ints_join; [done|]. eapply Forall_impl; [exact Hv|]. intros v. apply prim_ok_small.
    + apply map_ext. intros v. unfold prim_text. by destruct T.
Qed.

Lemma numeric_text p data T :
  packet_ok p data -> data <> [] -> numeric_prim (get_data_type (ty p)) = Some T -> 0 <= STRING_PRECISION ->
  exists vs body, data_as T p = Ok vs /\ data_to_string T data = Ok body /\ elements_shown T vs body.
Proof.
  intros [He Hc Hd Hh] Hne Hk Hp. pose proof (content_whole _ _ _ Hc Hk) as Hm.
  destruct (numeric_kind _ _ Hk) as (Hkind & _). destruct (decode_chunks T data) as (vs & Hvs & Hok & Hn).
  exists vs, (join (lit ", ") (map (prim_text T) vs)). split; [|split].
  - unfold data_as, as_le_bytes, ensure_kind, payload_bytes. rewrite decide_True by done.
    destruct Hh as (-> & _). cbn. by rewrite Hm.
  - unfold data_to_string. by rewrite Hvs.
  - apply elements_are_shown; [done..|]. apply Hn. pose proof (WIDTH_pos T).
    destruct data as [|b data]; [done|]. rewrite blen_cons in *. pose proof (blen_nonneg data).
    destruct (Z.le_gt_cases (WIDTH T) (1 + blen data)); [lia|]. rewrite Z.mod_small in Hm by lia. lia.
Qed.

Lemma bool_texts l :
  map bool_text l = map (fun b : bool => if b then lit "true" else lit "false") (map (fun b => negb (u8 b =? 0)) l).
Proof. rewrite map_map. apply map_ext. intros b. unfold bool_text. by destruct (u8 b =? 0). Qed.

Lemma body_numeric p bytes T : numeric_prim (get_data_type (ty p)) = Some T -> body_string p bytes = data_to_string T bytes.
Proof. unfold body_string. by destruct (get_data_type (ty p)); intros [= <-]. Qed.

Lemma utf8_ref_other p : get_data_type (ty p) <> TString -> data_as_utf8_ref p = Ok None.
Proof. intros Hn. unfold data_as_utf8_ref. by rewrite decide_False. Qed.

(** C24. What [as_string] shows of a packet.  It never fails; and after the header,
    the text says what the typed accessors return: integers of every width, and
    the bytes of a hex dump, can be read back from it; a float is the nearest
    decimal with the configured number of digits, ties to the even one; booleans
    and strings are shown as they are. *)
Theorem packet_text_correct p data :
  0 <= STRING_PRECISION -> packet_ok p data ->
  let head := lit "{" ++ header_string p in
  let opening := head ++ class_text (get_info_type (ty p)) in
  exists text, as_string p = Ok text
    /\ (data = [] -> text = head ++ lit ", Data: (<NoData>)}")
    /\ (data <> [] ->
        (forall T, numeric_prim (get_data_type (ty p)) = Some T ->
           exists vs body, data_as T p = Ok vs /\ text = opening ++ body ++ lit ")}" /\ elements_shown T vs body)
        /\ (get_data_type (ty p) = TBool ->
            exists bs, data_as_bool p = Ok bs
              /\ text = opening ++ join (lit ", ") (map (fun b : bool => if b then lit "true" else lit "false") bs) ++ lit ")}")
        /\ (get_data_type (ty p) = TString -> forall s, data_as_string p = Ok s ->
            text = opening ++ (match s with [] => [] | _ => b8 34 :: s ++ [b8 34] end) ++ lit ")}")
        /\ (get_data_type (ty p) = Binary ->
            exists body, text = header_string p ++ lit ", Data (hex):" ++ body /\ read_hex body = Some data)).
Proof.
  intros Hp Hok head opening. pose proof (po_payload _ _ Hok) as (Hb & _). unfold as_string, payload_bytes. rewrite Hb.
  cbn [res_bind mbind res_mbind]. fold head. destruct data as [|b data]; [by eexists|]. fold opening.
  clearbody opening. clearbody head.
  set (l := b :: data) in *.
  destruct (decide (get_data_type (ty p) = TString)) as [Hs|Hs].
  - unfold data_as_utf8_ref, data_as_string, ensure_kind, body_string, payload_bytes. rewrite Hs.
    destruct (decide (TString = TString)) as [_|]; [|done]. destruct (decide (TString = Binary)) as [|_]; [done|]. rewrite Hb. cbn [res_bind mbind res_mbind]. pose proof (text_end_range l).
    destruct (text_end l) as [e|] eqn:Ee; cbn [from_option] in *; unfold id in *.
    + pose proof (text_end_bound _ _ Ee). destruct (Z.eqb_spec e 0); [lia|]. rewrite !slice_prefix by lia.
      cbn [res_bind mbind res_mbind]. unfold from_utf8.
      assert (take (Z.to_nat e) l <> []) as Hne by (unfold l; by destruct (Z.to_nat e) eqn:?; [lia|]).
      destruct (utf8_valid _); cbn; eexists; (split; [reflexivity|]); (split; [done|]); intros _; repeat split; try done.
      intros _ s [= <-]. destruct (take (Z.to_nat e) l); [done|]. cbn. by rewrite <- !app_assoc.
    + cbn. eexists. split; [reflexivity|]. split; [done|]. intros _. repeat split; try done. by intros _ s [= <-].
  - rewrite utf8_ref_other by done. cbn [res_bind mbind res_mbind].
    destruct (decide (get_data_type (ty p) = Binary)) as [Hx|Hx].
    + unfold to_hex_string, payload_bytes. rewrite Hb. cbn. eexists. split; [reflexivity|]. split; [done|]. intros _.
      rewrite Hx. repeat split; try done. intros _. eexists. split; [reflexivity|]. apply (read_hex_dump l).
    + destruct (numeric_prim (get_data_type (ty p))) as [T|] eqn:Hk.
      * destruct (numeric_text p l T Hok ltac:(done) Hk Hp) as (vs & body & Hvs & Hbody & Hsh).
        exists (opening ++ body ++ lit ")}"). rewrite (body_numeric _ _ _ Hk), Hbody. split; [done|]. split; [done|].
        intros _. split; [|by destruct (get_data_type (ty p))].
        intros T' [= <-]. by exists vs, body.
      * unfold body_string, data_as_bool, ensure_kind, payload_bytes. rewrite Hb.
        destruct (get_data_type (ty p)); try done; cbn [res_bind mbind res_mbind]; eexists; (split; [reflexivity|]); (split; [done|]);
          intros _; repeat split; try done.
        intros _. eexists. split; [reflexivity|]. by rewrite bool_texts.
Qed.
End Rendered.

(** ** Examples: the texts the repository's tests expect *)

Definition gps_fix (values : list Z) (ts : Z) : TelemetryResult Packet :=
  @packet_new default_config default_schema 0 [0; 1] (lit "TEST_PLATFORM") ts (encode_slice_le PF32 values).

Example gps_header :
  (p ← gps_fix [0x3F800000; 0x40000000; 0x40400000] 0; Ok (@header_string default_schema p))
  = Ok (lit "Type: GPS_DATA, Data Size: 12, Sender: TEST_PLATFORM, Endpoints: [SD_CARD, RADIO], Timestamp: 0 (0s 000ms)").
Proof. vm_compute. reflexivity. Qed.

Example gps_hex :
  (p ← gps_fix [0x41980000; 0x42040000; 0x42500000] 1123581321; @to_hex_string default_schema p)
  = Ok (lit "Type: GPS_DATA, Data Size: 12, Sender: TEST_PLATFORM, Endpoints: [SD_CARD, RADIO], Timestamp: 1123581321 (312h 06m 21s 321ms), Data (hex): 0x00 0x00 0x98 0x41 0x00 0x00 0x04 0x42 0x00 0x00 0x50 0x42").
Proof. vm_compute. reflexivity. Qed.

(** 1.0, -0.1 as an [f32], and the smallest subnormal. *)
Example gps_text :
  (p ← gps_fix [0x3F800000; 0xBDCCCCCD; 1] 0; @as_string default_config default_schema p)
  = Ok (lit "{Type: GPS_DATA, Data Size: 12, Sender: TEST_PLATFORM, Endpoints: [SD_CARD, RADIO], Timestamp: 0 (0s 000ms), Data: (1.00000000, -0.10000000, 0.00000000)}").
Proof. vm_compute. reflexivity. Qed.

(** Ties go to the even digit, a negative number that rounds to zero keeps its
    sign, and the largest [f64] is written out. *)
Example float_texts :
  map (fun '(p, bits) => float_text p (default FNaN (prim_float PF64 bits)))
    [(0, 0x3FE0000000000000); (0, 0x3FF8000000000000); (1, 0x3FD0000000000000); (2, 0x8000000000000001);
     (1, 0x7FF8000000000000); (1, 0xFFF0000000000000)]
  = map lit ["0"; "2"; "0.2"; "-0.00"; "NaN"; "-inf"]%string.
Proof. vm_compute. reflexivity. Qed.

Lemma packet_text_correct_witness :
  match gps_fix [0x3F800000; 0xBDCCCCCD; 1] 0 with
  | Ok p => exists texts,
      @as_string default_config default_schema p
      = Ok (lit "{" ++ @header_string default_schema p ++ lit ", Data: (" ++ join (lit ", ") texts ++ lit ")}")
      /\ Forall2 (fun v text => forall f, prim_float PF32 v = Some f -> float_shown 8 f text)
           [0x3F800000; 0xBDCCCCCD; 1] texts
  | _ => False
  end.
Proof.
  pose proof (@packet_new_ok default_config default_schema 0 [0; 1] (lit "TEST_PLATFORM") 0
    (encode_slice_le PF32 [0x3F800000; 0xBDCCCCCD; 1])) as Hok.
  change (packet_new 0 [0; 1] _ 0 _) with (gps_fix [0x3F800000; 0xBDCCCCCD; 1] 0) in Hok.
  destruct (gps_fix [0x3F800000; 0xBDCCCCCD; 1] 0) as [p|e|] eqn:E; [|discriminate E..].
  destruct (Hok p eq_refl eq_refl) as (Hp & Hty & _).
  destruct (@packet_text_correct default_config default_schema p _ ltac:(discriminate) Hp) as (text & Ht & _ & Hd).
  destruct (Hd ltac:(vm_compute; discriminate)) as (Hn & _). destruct (Hn PF32) as (vs & body & Hvs & Hb & texts & Hj & Hall).
  - rewrite Hty. reflexivity.
  - assert (vs = [0x3F800000; 0xBDCCCCCD; 1]) as ->.
    { assert (match gps_fix [0x3F800000; 0xBDCCCCCD; 1] 0 with
              | Ok p => @data_as default_config default_schema PF32 p | _ => Panic end = Ok [0x3F800000; 0xBDCCCCCD; 1]) as Ev
        by (vm_compute; reflexivity).
      rewrite E, Hvs in Ev. by injection Ev. }
    exists texts. rewrite Ht, Hb, Hj, Hty. split; [|exact Hall]. rewrite <- !app_assoc. reflexivity.
Defined.
