(* ===== verification/CText.v ===== *)
(** * Text across the C interface ([src/c_api.rs])

    Status codes, the buffers a C caller passes, error texts, and the JSON
    export of the topology with a reader for it.

    A pointer argument is [None] for NULL, and otherwise the memory from the
    address it points to on; reading or writing outside of it, and making a
    slice of a NULL pointer, is undefined behaviour, [Panic] here. *)

From S2P Require Import Prelude Ordered Telemetry Config Schema Queue SmallPayload Wire Packet Serialize Calendar TimeSync Discovery RouterState Routes Reliable TimeRuntime Plan Topology EndToEnd Announce Text.

(** ** Memory *)

Definition CPtr (T : Type) : Type := option (list T).

(** [slice::from_raw_parts]. *)
Definition from_raw_parts {T} (p : CPtr T) (n : Z) : TelemetryResult (list T) :=
  match p with
  | Some mem => if n <=? nlen mem then Ok (take (Z.to_nat n) mem) else Panic
  | None => Panic
  end.

(** [ptr::copy_nonoverlapping(src, dst.add(off), src.len())]. *)
Definition copy_to {T} (src : list T) (mem : list T) (off : Z) : TelemetryResult (list T) :=
  if off + nlen src <=? nlen mem
  then Ok (take (Z.to_nat off) mem ++ src ++ drop (Z.to_nat (off + nlen src)) mem)
  else Panic.

(** ** Status codes *)

Inductive SedsResult := SedsOk | SedsErr.

Definition status_from_result_code (e : SedsResult) : Z := match e with SedsOk => 0 | SedsErr => 1 end.

Definition status_from_err (e : TelemetryError) : Z := error_code_repr (to_error_code e).

Definition ok_or_status (r : TelemetryResult unit) : TelemetryResult Z :=
  match r with
  | Ok _ => Ok (status_from_result_code SedsOk)
  | Err e => Ok (status_from_err e)
  | Panic => Panic
  end.

(** [n as i32] *)
Definition as_i32 (n : Z) : Z := swrap 32 n.

(** ** Strings into buffers *)

Definition write_str_to_buf (s : Str) (buf : CPtr byte) (buf_len : Z) : TelemetryResult (Z * CPtr byte) :=
  if bool_decide (buf = None) && negb (buf_len =? 0) then Ok (status_from_err BadArg, buf)
  else
    let needed := blen s + 1 in
    match buf with
    | None => Ok (as_i32 needed, None)
    | Some mem =>
        if buf_len =? 0 then Ok (as_i32 needed, Some mem)
        else
          let ncopy := Z.min (blen s) (sat_sub buf_len 1) in
          mem ← copy_to (take (Z.to_nat ncopy) s) mem 0;
          mem ← copy_to [b8 0] mem ncopy;
          Ok (if buf_len <? needed then as_i32 needed else status_from_result_code SedsOk, Some mem)
    end.

Definition error_code_as_str (c : TelemetryErrorCode) : Str :=
  lit match c with
  | CGenericError => "GenericError"
  | CInvalidType => "{Invalid Type}"
  | CSizeMismatch => "{Size Mismatch}"
  | CSizeMismatchError => "{Size Mismatch Error}"
  | CEmptyEndpoints => "{Empty Endpoints}"
  | CTimestampInvalid => "{Timestamp Invalid}"
  | CMissingPayload => "{Missing Payload}"
  | CHandlerError => "{Handler Error}"
  | CBadArg => "{Bad Arg}"
  | CSerialize => "{Serialize Error}"
  | CDeserialize => "{Deserialize Error}"
  | CIo => "{IO Error}"
  | CInvalidUtf8 => "{Invalid UTF-8}"
  | CTypeMismatch => "{Type Mismatch}"
  | CInvalidLinkId => "{Invalid Link ID}"
  | CPacketTooLarge => "{Packet Too Large}"
  end%string.

Definition error_code_to_string (error_code : Z) : TelemetryResult Str :=
  c ← try_from_i32 error_code;
  Ok match c with
     | Some c => error_code_as_str c
     | None =>
         if error_code =? status_from_result_code SedsOk then lit "SEDS OK"
         else if error_code =? status_from_result_code SedsErr then lit "SEDS ERROR"
         else lit "Unknown error"
     end.

Definition seds_error_to_string_len (error_code : Z) : TelemetryResult Z :=
  s ← error_code_to_string error_code; Ok (as_i32 (blen s + 1)).

Definition seds_error_to_string (error_code : Z) (buf : CPtr byte) (buf_len : Z) : TelemetryResult (Z * CPtr byte) :=
  s ← error_code_to_string error_code; write_str_to_buf s buf buf_len.

(** ** JSON *)

(** The characters of the string, on its UTF-8 bytes: a control character
    ([char::is_control]) is a byte below 32, a 127, or C2 followed by 80 to 9F. *)
Fixpoint json_escape (s : Str) : Str :=
  match s with
  | [] => []
  | b :: s =>
      if u8 b =? 34 then b8 92 :: b8 34 :: json_escape s
      else if u8 b =? 92 then b8 92 :: b8 92 :: json_escape s
      else if u8 b =? 10 then b8 92 :: b8 110 :: json_escape s
      else if u8 b =? 13 then b8 92 :: b8 114 :: json_escape s
      else if u8 b =? 9 then b8 92 :: b8 116 :: json_escape s
      else if (u8 b <? 32) || (u8 b =? 127) then lit "\u00" ++ hex_text b ++ json_escape s
      else if u8 b =? 194 then
        match s with
        | c :: s' => if in_range 128 159 c then lit "\u00" ++ hex_text c ++ json_escape s' else b :: json_escape s
        | [] => [b]
        end
      else b :: json_escape s
  end.

Definition json_push_escaped (s : Str) : Str := b8 34 :: json_escape s ++ [b8 34].

Definition push_array {A} (push : A -> Str) (l : list A) : Str := lit "[" ++ join (lit ",") (map push l) ++ lit "]".
Definition push_u32_array : list Z -> Str := push_array int_text.
Definition push_string_array : list Str -> Str := push_array json_push_escaped.

(** A member of an object: a name that needs no escape, and the value's text. *)
Definition member (name : string) (value : Str) : Str := b8 34 :: lit name ++ b8 34 :: b8 58 :: value.

Definition push_board (board : TopologyBoardNode) : Str :=
  lit "{" ++ member "sender_id" (json_push_escaped (sender_id board))
  ++ lit "," ++ member "reachable_endpoints" (push_u32_array (reachable_endpoints board))
  ++ lit "," ++ member "reachable_timesync_sources" (push_string_array (reachable_timesync_sources board))
  ++ lit "," ++ member "connections" (push_string_array (connections board)) ++ lit "}".

Definition push_announcer (a : TopologyAnnouncerRoute) : Str :=
  lit "{" ++ member "sender_id" (json_push_escaped (ta_sender_id a))
  ++ lit "," ++ member "reachable_endpoints" (push_u32_array (ta_reachable_endpoints a))
  ++ lit "," ++ member "reachable_timesync_sources" (push_string_array (ta_reachable_timesync_sources a))
  ++ lit "," ++ member "routers" (push_array push_board (ta_routers a))
  ++ lit "," ++ member "last_seen_ms" (int_text (ta_last_seen_ms a))
  ++ lit "," ++ member "age_ms" (int_text (ta_age_ms a)) ++ lit "}".

Definition push_route (r : TopologySideRoute) : Str :=
  lit "{" ++ member "side_id" (int_text (tr_side_id r))
  ++ lit "," ++ member "side_name" (json_push_escaped (tr_side_name r))
  ++ lit "," ++ member "reachable_endpoints" (push_u32_array (tr_reachable_endpoints r))
  ++ lit "," ++ member "reachable_timesync_sources" (push_string_array (tr_reachable_timesync_sources r))
  ++ lit "," ++ member "announcers" (push_array push_announcer (tr_announcers r))
  ++ lit "," ++ member "last_seen_ms" (int_text (tr_last_seen_ms r))
  ++ lit "," ++ member "age_ms" (int_text (tr_age_ms r)) ++ lit "}".

Definition topology_snapshot_to_json (snap : TopologySnapshot) : Str :=
  lit "{" ++ member "advertised_endpoints" (push_u32_array (ts_advertised_endpoints snap))
  ++ lit "," ++ member "advertised_timesync_sources" (push_string_array (ts_advertised_timesync_sources snap))
  ++ lit "," ++ member "routers" (push_array push_board (ts_routers snap))
  ++ lit "," ++ member "routes" (push_array push_route (ts_routes snap))
  ++ lit "," ++ member "current_announce_interval_ms" (int_text (ts_current_announce_interval_ms snap))
  ++ lit "," ++ member "next_announce_ms" (int_text (ts_next_announce_ms snap)) ++ lit "}".

(** ** What a buffer receives *)

(** The buffer after a call: the text as far as it fits, a NUL, and the bytes
    that were there from then on. *)
Definition buffer_text (s : Str) (mem : list byte) (n : Z) : list byte :=
  let k := Z.to_nat (Z.min (blen s) (n - 1)) in take k s ++ b8 0 :: drop (S k) mem.

Lemma from_raw_parts_Ok {T} (mem : list T) n : n <= nlen mem -> from_raw_parts (Some mem) n = Ok (take (Z.to_nat n) mem).
Proof. intros Hn. cbn. by rewrite (proj2 (Z.leb_le _ _) Hn). Qed.

Lemma copy_to_Ok {T} (src mem : list T) off : off + nlen src <= nlen mem ->
  copy_to src mem off = Ok (take (Z.to_nat off) mem ++ src ++ drop (Z.to_nat (off + nlen src)) mem).
Proof. intros Hn. unfold copy_to. by rewrite (proj2 (Z.leb_le _ _) Hn). Qed.

Lemma write_str_some s mem n : 0 < n <= nlen mem ->
  write_str_to_buf s (Some mem) n
  = Ok (if n <? blen s + 1 then as_i32 (blen s + 1) else 0, Some (buffer_text s mem n)).
Proof.
  intros Hn. unfold write_str_to_buf, buffer_text. rewrite bool_decide_eq_false_2 by done. cbn [andb].
  rewrite (proj2 (Z.eqb_neq n 0)) by lia. unfold sat_sub. rewrite Z.max_r by lia.
  set (k := Z.min (blen s) (n - 1)). assert (0 <= k <= blen s /\ k < n) as Hk by (unfold k, blen; lia).
  assert (nlen (take (Z.to_nat k) s) = k) as Hl.
  { unfold nlen, blen in *. rewrite length_take. lia. }
  rewrite copy_to_Ok by (rewrite Hl; unfold blen in *; lia).
  cbn [mbind res_mbind res_bind]. rewrite Hl. change (Z.to_nat 0) with 0%nat. rewrite take_0. cbn [app].
  rewrite copy_to_Ok.
  2: { unfold nlen in *. rewrite length_app, length_drop. cbn [length]. lia. }
  cbn [mbind res_mbind res_bind status_from_result_code]. do 2 f_equal. f_equal.
  assert (Z.to_nat k = length (take (Z.to_nat k) s)) as Hk' by (unfold nlen in Hl; lia).
  rewrite Hk' at 1. rewrite take_app_length. f_equal. cbn [app]. f_equal.
  replace (Z.to_nat (k + nlen [b8 0])) with (length (take (Z.to_nat k) s) + 1)%nat by (unfold nlen; cbn [length]; lia).
  rewrite drop_app_add, drop_drop. f_equal. lia.
Qed.

Lemma as_i32_small n : 0 <= n < 2 ^ 31 -> as_i32 n = n.
Proof. intros Hn. unfold as_i32, swrap. rewrite Z.mod_small; lia. Qed.

(** What C reads at an address: the bytes before the first NUL. *)
Fixpoint c_string (mem : list byte) : Str :=
  match mem with [] => [] | b :: mem => if u8 b =? 0 then [] else b :: c_string mem end.

Lemma c_string_app s mem : Forall (fun b => u8 b <> 0) s -> c_string (s ++ b8 0 :: mem) = s.
Proof.
  induction 1 as [|b s Hb _ IH]; [done|]. cbn. rewrite (proj2 (Z.eqb_neq _ _) Hb). by rewrite IH.
Qed.

Lemma buffer_text_bounds s mem n : 0 < n <= nlen mem ->
  nlen (buffer_text s mem n) = nlen mem /\ drop (Z.to_nat n) (buffer_text s mem n) = drop (Z.to_nat n) mem.
Proof.
  intros Hn. unfold buffer_text. set (k := Z.to_nat _).
  assert (k <= length s /\ S k <= Z.to_nat n /\ Z.to_nat n <= length mem)%nat as Hk by (unfold k, blen, nlen in *; lia).
  assert (length (take k s) = k) as Hl by (rewrite length_take; lia). split.
  - unfold nlen. rewrite length_app, Hl. cbn [length]. rewrite length_drop. lia.
  - replace (Z.to_nat n) with (length (take k s) + S (Z.to_nat n - S k))%nat by lia.
    rewrite drop_app_add. cbn [drop]. rewrite drop_drop. f_equal. lia.
Qed.

Lemma buffer_text_reads s mem n : 0 < n -> Forall (fun b => u8 b <> 0) s ->
  c_string (buffer_text s mem n) = take (Z.to_nat (n - 1)) s.
Proof.
  intros Hn Hs. unfold buffer_text. rewrite c_string_app by by apply Forall_take.
  destruct (Z.min_spec (blen s) (n - 1)) as [[Hlt ->]|[Hle ->]]; [|done].
  unfold blen, nlen in *. rewrite !take_ge; [done|lia..].
Qed.

(** A NULL buffer with a length is refused, whatever the text. *)
Lemma text_null_refused s n : n <> 0 -> write_str_to_buf s None n = Ok (status_from_err BadArg, None).
Proof. intros Hn. unfold write_str_to_buf. by rewrite bool_decide_eq_true_2, (proj2 (Z.eqb_neq n 0)). Qed.

(** C23. The buffer protocol of every text function of the C interface, for a
    text without NUL bytes and shorter than 2 GiB: asking with a length of zero,
    with or without a buffer, gives the length needed and writes nothing; a
    buffer of [n] bytes keeps its length and everything from byte [n] on, and
    holds a C string, the first [n - 1] bytes of the text; the answer is 0 exactly
    when the whole text fits, and the length needed otherwise, so a second call
    with a buffer of the length asked for succeeds and gives the whole text.  (A
    NULL buffer with a length is not a query: [text_null_refused].) *)
Theorem text_buffer_contract s mem n :
  blen s + 1 < 2 ^ 31 -> Forall (fun b => u8 b <> 0) s -> 0 < n <= nlen mem ->
  write_str_to_buf s None 0 = Ok (blen s + 1, None)
  /\ write_str_to_buf s (Some mem) 0 = Ok (blen s + 1, Some mem)
  /\ (exists code mem', write_str_to_buf s (Some mem) n = Ok (code, Some mem')
      /\ nlen mem' = nlen mem /\ drop (Z.to_nat n) mem' = drop (Z.to_nat n) mem
      /\ c_string mem' = take (Z.to_nat (n - 1)) s
      /\ (if blen s + 1 <=? n then code = status_from_result_code SedsOk else code = blen s + 1)
      /\ (code = status_from_result_code SedsOk -> c_string mem' = s))
  /\ (n = blen s + 1 -> exists mem', write_str_to_buf s (Some mem) n = Ok (status_from_result_code SedsOk, Some mem')
      /\ c_string mem' = s).
Proof.
  intros Hs Hz Hn. assert (0 <= blen s) as H0 by (unfold blen, nlen; lia).
  assert (as_i32 (blen s + 1) = blen s + 1) as Hi by (apply as_i32_small; lia).
  pose proof (buffer_text_reads s mem n ltac:(lia) Hz) as Hr. pose proof (buffer_text_bounds s mem n Hn) as [Hb Hd].
  assert (blen s <= n - 1 -> take (Z.to_nat (n - 1)) s = s) as Hw.
  { intros Hle. apply take_ge. unfold blen, nlen in Hle. lia. }
  split; [unfold write_str_to_buf; cbn; by rewrite Hi|]. split; [unfold write_str_to_buf; cbn; by rewrite Hi|].
  rewrite write_str_some, Hi by done. split.
  - eexists _, _. split; [done|]. split; [done|]. split; [done|]. split; [done|].
    destruct (Z.leb_spec (blen s + 1) n) as [Hle|Hlt].
    + rewrite (proj2 (Z.ltb_ge _ _)) by lia. split; [done|]. intros _. rewrite Hr. apply Hw. lia.
    + rewrite (proj2 (Z.ltb_lt _ _)) by lia. split; [done|]. cbn. lia.
  - intros ->. rewrite Z.ltb_irrefl. eexists. split; [done|]. rewrite Hr. apply Hw. lia.
Qed.

Lemma text_buffer_contract_witness :
  exists code mem', write_str_to_buf (lit "{Bad Arg}") (Some (replicate 8 (b8 7))) 5 = Ok (code, Some mem')
  /\ code = 10 /\ c_string mem' = lit "{Bad".
Proof.
  destruct (text_buffer_contract (lit "{Bad Arg}") (replicate 8 (b8 7)) 5) as (_ & _ & (code & mem' & H) & _).
  - reflexivity.
  - vm_compute. repeat constructor; discriminate.
  - split; reflexivity || discriminate.
  - exists code, mem'. destruct H as (E & _ & _ & Hr & Hc & _). split; [exact E|]. split; [exact Hc|exact Hr].
Defined.
