(* ===== verification/CJson.v ===== *)
(** * The topology export is readable JSON ([src/c_api.rs])

    A reader for compact JSON (RFC 8259 without white space, natural numbers
    only), and the proof that it reads what [topology_snapshot_to_json] writes:
    the exported text determines the snapshot, whatever bytes the names on the
    network contain. *)

From S2P Require Import Prelude Ordered Telemetry Config Schema Queue SmallPayload Wire Packet Serialize Calendar TimeSync Discovery RouterState Routes Reliable TimeRuntime Plan Topology EndToEnd Announce Text CText.

(** ** Values and their compact text *)

Inductive Json :=
  | JNum (n : Z)
  | JStr (s : Str)
  | JArr (l : list Json)
  | JObj (l : list (Str * Json)).

Fixpoint json_text (j : Json) : Str :=
  match j with
  | JNum n => int_text n
  | JStr s => json_push_escaped s
  | JArr l => lit "[" ++ join (lit ",") (map json_text l) ++ lit "]"
  | JObj l => lit "{" ++ join (lit ",") (map (fun e => json_push_escaped (fst e) ++ lit ":" ++ json_text (snd e)) l) ++ lit "}"
  end.

(** ** The reader *)

(** The UTF-8 bytes of a code point below 0x10000. *)
Definition utf8_bytes (c : Z) : Str :=
  if c <? 128 then [b8 c]
  else if c <? 2048 then [b8 (192 + c / 64); b8 (128 + c mod 64)]
  else [b8 (224 + c / 4096); b8 (128 + c / 64 mod 64); b8 (128 + c mod 64)].

(** The rest of a string, after its opening quote. *)
Fixpoint json_string (l : Str) : option (Str * Str) :=
  match l with
  | [] => None
  | b :: l =>
      if u8 b =? 34 then Some ([], l)
      else if u8 b =? 92 then
        match l with
        | [] => None
        | c :: l =>
            if u8 c =? 117 then
              match l with
              | h3 :: h2 :: h1 :: h0 :: l =>
                  a ← hex_value h3; b ← hex_value h2; c ← hex_value h1; d ← hex_value h0;
                  '(s, r) ← json_string l; Some (utf8_bytes (4096 * a + 256 * b + 16 * c + d) ++ s, r)
              | _ => None
              end
            else
              x ← (if u8 c =? 34 then Some 34 else if u8 c =? 92 then Some 92 else if u8 c =? 47 then Some 47
                   else if u8 c =? 98 then Some 8 else if u8 c =? 102 then Some 12 else if u8 c =? 110 then Some 10
                   else if u8 c =? 114 then Some 13 else if u8 c =? 116 then Some 9 else None);
              '(s, r) ← json_string l; Some (b8 x :: s, r)
        end
      else if u8 b <? 32 then None
      else '(s, r) ← json_string l; Some (b :: s, r)
  end.

(** The digits at the head of the text. *)
Fixpoint span_digits (l : Str) : Str * Str :=
  match l with
  | b :: l' => match digit_value b with Some _ => let '(ds, r) := span_digits l' in (b :: ds, r) | None => ([], l) end
  | [] => ([], [])
  end.

(** No leading zero, as the grammar of JSON demands. *)
Definition json_number (l : Str) : option (Z * Str) :=
  let '(ds, r) := span_digits l in
  match ds with
  | [] => None
  | [_] => n ← read_digits 0 ds; Some (n, r)
  | d :: _ => if u8 d =? 48 then None else n ← read_digits 0 ds; Some (n, r)
  end.

(** What follows a value in a list: another one, or the end. *)
Definition after {A} (close : Z) (r : Str) (more : Str -> option (list A * Str)) (a : A) : option (list A * Str) :=
  match r with
  | c :: r => if u8 c =? 44 then '(l, r) ← more r; Some (a :: l, r) else if u8 c =? close then Some ([a], r) else None
  | [] => None
  end.

Fixpoint json_value (fuel : nat) (l : Str) : option (Json * Str) :=
  match fuel, l with
  | O, _ | _, [] => None
  | S fuel, b :: l' =>
      if u8 b =? 34 then '(s, r) ← json_string l'; Some (JStr s, r)
      else if u8 b =? 91 then
        match l' with
        | c :: r => if u8 c =? 93 then Some (JArr [], r) else '(vs, r) ← json_elements fuel l'; Some (JArr vs, r)
        | [] => None
        end
      else if u8 b =? 123 then
        match l' with
        | c :: r => if u8 c =? 125 then Some (JObj [], r) else '(ms, r) ← json_members fuel l'; Some (JObj ms, r)
        | [] => None
        end
      else '(n, r) ← json_number l; Some (JNum n, r)
  end
with json_elements (fuel : nat) (l : Str) : option (list Json * Str) :=
  match fuel with
  | O => None
  | S fuel => '(v, r) ← json_value fuel l; after 93 r (json_elements fuel) v
  end
with json_members (fuel : nat) (l : Str) : option (list (Str * Json) * Str) :=
  match fuel, l with
  | O, _ | _, [] => None
  | S fuel, b :: l =>
      if u8 b =? 34 then
        '(name, r) ← json_string l;
        match r with
        | c :: r => if u8 c =? 58 then '(v, r) ← json_value fuel r; after 125 r (json_members fuel) (name, v) else None
        | [] => None
        end
      else None
  end.

(** A whole text. *)
Definition json_read (l : Str) : option Json :=
  match json_value (length l) l with Some (j, []) => Some j | _ => None end.

(** ** Strings *)

Lemma byte_of_value b n : u8 b = n -> b = b8 n.
Proof. intros <-. by rewrite b8_u8. Qed.

Lemma json_string_unicode h l : 0 <= h < 256 ->
  json_string (lit "\u00" ++ [hex_digit (h / 16); hex_digit (h mod 16)] ++ l)
  = ('(s, r) ← json_string l; Some (utf8_bytes h ++ s, r)).
Proof.
  intros Hh. change (lit "\u00") with [b8 92; b8 117; b8 48; b8 48]. cbn [app json_string].
  change (u8 (b8 92) =? 34) with false. change (u8 (b8 92) =? 92) with true. change (u8 (b8 117) =? 117) with true.
  change (hex_value (b8 48)) with (Some 0). cbn iota.
  assert (0 <= h / 16 < 16) by (split; [apply Z.div_pos; lia|apply Z.div_lt_upper_bound; lia]).
  rewrite !hex_value_digit by (done || (apply Z.mod_pos_bound; lia)). cbn [mbind option_bind].
  replace (4096 * 0 + 256 * 0 + 16 * (h / 16) + h mod 16) with h by (pose proof (Z.div_mod h 16); lia). done.
Qed.

Lemma utf8_one b : u8 b < 128 -> utf8_bytes (u8 b) = [b].
Proof. intros Hb. unfold utf8_bytes. zcase. by rewrite b8_u8. Qed.

Lemma utf8_c1 b c : u8 b = 194 -> 128 <= u8 c <= 159 -> utf8_bytes (u8 c) = [b; c].
Proof.
  intros Hb%byte_of_value Hc. unfold utf8_bytes. zcase. subst b. f_equal; [|f_equal].
  - f_equal. replace (u8 c / 64) with 2; [done|]. apply Z.div_unique with (u8 c - 128); lia.
  - rewrite <- (b8_u8 c) at 2. f_equal. assert (u8 c mod 64 = u8 c - 128) as ->; [|lia].
    symmetry. apply Z.mod_unique with 2; lia.
Qed.

(** One character that is written as it is. *)
Lemma json_string_plain b l : 32 <= u8 b -> u8 b <> 34 -> u8 b <> 92 ->
  json_string (b :: l) = ('(s, r) ← json_string l; Some (b :: s, r)).
Proof. intros. cbn [json_string]. zcase. done. Qed.

Lemma json_string_escape s rest : json_string (json_escape s ++ b8 34 :: rest) = Some (s, rest).
Proof.
  remember (length s) as n eqn:Hn. revert s Hn. induction (lt_wf n) as [n _ IH]. intros s ->.
  destruct s as [|b s]; [done|]. pose proof (IH (length s) ltac:(cbn; lia) s eq_refl) as IHs.
  pose proof (u8_range b) as Hb. unfold is_u8 in Hb. cbn [json_escape].
  destruct (Z.eqb_spec (u8 b) 34) as [->%byte_of_value|]; [cbn [app json_string]; by rewrite IHs|].
  destruct (Z.eqb_spec (u8 b) 92) as [->%byte_of_value|]; [cbn [app json_string]; by rewrite IHs|].
  destruct (Z.eqb_spec (u8 b) 10) as [->%byte_of_value|]; [cbn [app json_string]; by rewrite IHs|].
  destruct (Z.eqb_spec (u8 b) 13) as [->%byte_of_value|]; [cbn [app json_string]; by rewrite IHs|].
  destruct (Z.eqb_spec (u8 b) 9) as [->%byte_of_value|]; [cbn [app json_string]; by rewrite IHs|].
  destruct ((u8 b <? 32) || (u8 b =? 127)) eqn:Ec.
  { rewrite <- !app_assoc. unfold hex_text. rewrite json_string_unicode, IHs by lia. cbn [mbind option_bind].
    rewrite utf8_one; [done|]. apply orb_true_iff in Ec as [?%Z.ltb_lt|?%Z.eqb_eq]; lia. }
  apply orb_false_iff in Ec as [?%Z.ltb_ge ?%Z.eqb_neq].
  destruct (Z.eqb_spec (u8 b) 194) as [E194|].
  - destruct s as [|c s]; [cbn [app]; rewrite json_string_plain by lia; done|].
    destruct (in_range 128 159 c) eqn:Ei.
    + unfold in_range in Ei. apply andb_true_iff in Ei as [?%Z.leb_le ?%Z.leb_le].
      rewrite <- !app_assoc. unfold hex_text. rewrite json_string_unicode by lia.
      rewrite (IH (length s) ltac:(cbn; lia) s eq_refl). cbn [mbind option_bind]. by rewrite (utf8_c1 b c).
    + change ((b :: json_escape (c :: s)) ++ b8 34 :: rest) with (b :: (json_escape (c :: s) ++ b8 34 :: rest)).
      rewrite json_string_plain by lia. by rewrite IHs.
  - cbn [app]. rewrite json_string_plain by lia. by rewrite IHs.
Qed.

(** ** Numbers *)

Definition no_digit (l : Str) : Prop := match l with b :: _ => digit_value b = None | [] => True end.

Lemma span_digits_app ds r : Forall (fun b => is_Some (digit_value b)) ds -> no_digit r -> span_digits (ds ++ r) = (ds, r).
Proof.
  intros Hd Hr. induction Hd as [|b ds [d Hb] Hd IH]; cbn [app span_digits].
  - destruct r as [|b r]; [done|]. cbn in Hr |- *. by rewrite Hr.
  - by rewrite Hb, IH.
Qed.

Lemma decimal_leading fuel n : 0 < n < 10 ^ Z.of_nat fuel ->
  exists d ds, decimal_digits fuel n [] = b8 (48 + d) :: ds /\ 1 <= d <= 9.
Proof.
  revert n. induction fuel as [|fuel IH]; intros n Hn; [cbn in Hn; lia|]. cbn [decimal_digits].
  pose proof (Z.mod_pos_bound n 10 eq_refl). pose proof (Z.div_mod n 10 ltac:(lia)).
  destruct (Z.eqb_spec (n / 10) 0) as [E|E]; [exists (n mod 10), []; split; [done|lia]|].
  destruct (IH (n / 10)) as (d & ds & Hds & Hd).
  - rewrite Nat2Z.inj_succ, Z.pow_succ_r in Hn by lia. pose proof (Z.div_pos n 10).
    split; [lia|]. apply Z.div_lt_upper_bound; lia.
  - rewrite decimal_digits_app, Hds. by exists d, (ds ++ [b8 (48 + n mod 10)]).
Qed.

Lemma json_number_text n r : 0 <= n < 10 ^ 40 -> no_digit r -> json_number (int_text n ++ r) = Some (n, r).
Proof.
  intros Hn Hr. unfold json_number, int_text. destruct (Z.ltb_spec n 0); [lia|].
  rewrite span_digits_app by (done || (apply decimal_digits_digits; lia)).
  pose proof (read_decimal 40 n ltac:(cbn [Z.of_nat]; lia)) as Hread.
  destruct (Z.eq_dec n 0) as [->|]; [done|].
  destruct (decimal_leading 40 n ltac:(cbn [Z.of_nat]; lia)) as (d & ds & Hds & Hd). rewrite Hds in *. rewrite Hread.
  rewrite u8_b8, Z.mod_small by lia. destruct (Z.eqb_spec (48 + d) 48); [lia|]. by destruct ds.
Qed.

(** ** Values *)

Fixpoint json_ok (j : Json) : Prop :=
  match j with
  | JNum n => 0 <= n < 10 ^ 40
  | JStr _ => True
  | JArr l => Forall id (map json_ok l)
  | JObj l => Forall id (map (fun e => json_ok (snd e)) l)
  end.

Definition elements_text (l : list Json) : Str := join (lit ",") (map json_text l) ++ lit "]".
Definition member_text (e : Str * Json) : Str := json_push_escaped (fst e) ++ lit ":" ++ json_text (snd e).
Definition members_text (l : list (Str * Json)) : Str := join (lit ",") (map member_text l) ++ lit "}".

Lemma join_text {A} (f : A -> Str) a l close :
  join (lit ",") (map f (a :: l)) ++ close
  = f a ++ match l with [] => close | _ => b8 44 :: (join (lit ",") (map f l) ++ close) end.
Proof. destruct l as [|a' l]; [done|]. cbn [map]. rewrite join_cons, <- !app_assoc. done. Qed.

Lemma int_text_starts n r : 0 <= n < 10 ^ 40 -> exists b l, int_text n ++ r = b :: l /\ 48 <= u8 b <= 57.
Proof.
  intros Hn. unfold int_text. destruct (Z.ltb_spec n 0); [lia|].
  destruct (Z.eq_dec n 0) as [->|]; [exists (b8 48), r; by split|].
  destruct (decimal_leading 40 n ltac:(cbn [Z.of_nat]; lia)) as (d & ds & Hds & Hd). rewrite Hds.
  exists (b8 (48 + d)), (ds ++ r). split; [done|]. rewrite u8_b8, Z.mod_small by lia. lia.
Qed.

Lemma json_text_starts j : json_ok j -> exists b l, json_text j = b :: l /\ u8 b <> 93 /\ u8 b <> 125.
Proof.
  destruct j as [n|s|l|l]; cbn [json_ok json_text]; intros Hj.
  - destruct (int_text_starts n [] Hj) as (b & l & E & Hb). rewrite app_nil_r in E. rewrite E. exists b, l. split; [done|lia].
  - by eexists (b8 34), _.
  - by eexists (b8 91), _.
  - by eexists (b8 123), _.
Qed.

(** With fuel for the length of the text, the reader gives back the value and
    what follows it. *)
Definition reads_values (fuel : nat) : Prop := forall j r,
  json_ok j -> no_digit r -> (length (json_text j) <= fuel)%nat -> json_value fuel (json_text j ++ r) = Some (j, r).
Definition reads_elements (fuel : nat) : Prop := forall l r,
  l <> [] -> Forall id (map json_ok l) -> (length (elements_text l) <= fuel)%nat ->
  json_elements fuel (elements_text l ++ r) = Some (l, r).
Definition reads_members (fuel : nat) : Prop := forall l r,
  l <> [] -> Forall id (map (fun e => json_ok (snd e)) l) -> (length (members_text l) <= fuel)%nat ->
  json_members fuel (members_text l ++ r) = Some (l, r).

Lemma reads_values_S fuel : reads_elements fuel -> reads_members fuel -> reads_values (S fuel).
Proof.
  intros He Hm [n|s|l|l] r Hj Hr Hf; cbn [json_ok json_text] in *.
  - destruct (int_text_starts n r Hj) as (b & l & E & Hb). pose proof (json_number_text n r Hj Hr) as Hn. rewrite E in *.
    cbn [json_value]. zcase. by rewrite Hn.
  - unfold json_push_escaped. rewrite <- app_comm_cons, <- app_assoc. cbn [app json_value].
    change (u8 (b8 34) =? 34) with true. by rewrite json_string_escape.
  - destruct l as [|j l]; [done|]. cbn [map] in Hj. pose proof (proj1 (Forall_cons_1 _ _ _ Hj)) as Hj1.
    destruct (json_text_starts j Hj1) as (b & t & Et & Hb & _).
    specialize (He (j :: l) r ltac:(done) Hj). unfold elements_text in He. rewrite !length_app in *.
    rewrite <- !app_assoc in *. change (lit "[" ++ ?x) with (b8 91 :: x). cbn [json_value].
    change (u8 (b8 91) =? 34) with false. change (u8 (b8 91) =? 91) with true. cbn iota.
    revert He. rewrite join_text, Et. cbn [app]. intros He. destruct (Z.eqb_spec (u8 b) 93); [done|].
    rewrite He; [done|]. change (length (lit "[")) with 1%nat in Hf. lia.
  - destruct l as [|e l]; [done|].
    specialize (Hm (e :: l) r ltac:(done) Hj). unfold members_text in Hm. fold member_text in *. rewrite !length_app in *.
    rewrite <- !app_assoc in *. change (lit "{" ++ ?x) with (b8 123 :: x). cbn [json_value].
    change (u8 (b8 123) =? 34) with false. change (u8 (b8 123) =? 91) with false. change (u8 (b8 123) =? 123) with true. cbn iota.
    assert (exists t, member_text e = b8 34 :: t) as [t Et] by by eexists.
    revert Hm. rewrite join_text, Et. cbn [app]. intros Hm.
    change (u8 (b8 34) =? 125) with false. cbn iota. rewrite Hm; [done|]. change (length (lit "{")) with 1%nat in Hf. lia.
Qed.

Lemma reads_elements_S fuel : reads_values fuel -> reads_elements fuel -> reads_elements (S fuel).
Proof.
  intros Hv He [|j l] r Hne Hj Hf; [done|]. inversion_clear Hj as [|? ? Hj1 Hjl].
  unfold elements_text in *. rewrite <- app_assoc, join_text. cbn [json_elements].
  rewrite length_app in Hf. change (length (lit "]")) with 1%nat in Hf.
  destruct l as [|j' l].
  - rewrite (Hv j (lit "]" ++ r)); [done|done|done|]. cbn [map join] in Hf. lia.
  - change (map json_text (j :: j' :: l)) with (json_text j :: json_text j' :: map json_text l) in Hf.
    rewrite join_cons, !length_app in Hf. change (length (lit ",")) with 1%nat in Hf.
    change (json_text j' :: map json_text l) with (map json_text (j' :: l)) in Hf.
    rewrite Hv; [|done|done|lia]. cbn [mbind option_bind after]. change (u8 (b8 44) =? 44) with true. cbn iota.
    pose proof (He (j' :: l) r ltac:(done) Hjl) as E. unfold elements_text in E. rewrite length_app, <- app_assoc in E.
    change (length (lit "]")) with 1%nat in E. rewrite E; [done|lia].
Qed.

Lemma reads_members_S fuel : reads_values fuel -> reads_members fuel -> reads_members (S fuel).
Proof.
  intros Hv Hm [|[name j] l] r Hne Hj Hf; [done|]. inversion_clear Hj as [|? ? Hj1 Hjl].
  unfold members_text in *. rewrite <- app_assoc, join_text. rewrite length_app in Hf. change (length (lit "}")) with 1%nat in Hf.
  assert (forall t, member_text (name, j) ++ t = b8 34 :: (json_escape name ++ b8 34 :: b8 58 :: (json_text j ++ t))) as Et.
  { intros t. unfold member_text, json_push_escaped. cbn [fst snd app]. by rewrite <- !app_assoc. }
  rewrite Et. cbn [json_members]. change (u8 (b8 34) =? 34) with true. cbn iota. rewrite json_string_escape.
  cbn [mbind option_bind]. change (u8 (b8 58) =? 58) with true. cbn iota.
  assert (length (json_text j) + 2 <= length (member_text (name, j)))%nat as Hl.
  { unfold member_text, json_push_escaped. cbn [fst snd length]. rewrite !length_app. cbn. lia. }
  destruct l as [|e l].
  - rewrite (Hv j (lit "}" ++ r)); [done|done|done|]. cbn [map join] in Hf. lia.
  - change (map member_text ((name, j) :: e :: l)) with (member_text (name, j) :: member_text e :: map member_text l) in Hf.
    rewrite join_cons, !length_app in Hf. change (length (lit ",")) with 1%nat in Hf.
    change (member_text e :: map member_text l) with (map member_text (e :: l)) in Hf.
    rewrite Hv; [|done|done|lia]. cbn [mbind option_bind after]. change (u8 (b8 44) =? 44) with true. cbn iota.
    pose proof (Hm (e :: l) r ltac:(done) Hjl) as E. unfold members_text in E. rewrite length_app, <- app_assoc in E.
    change (length (lit "}")) with 1%nat in E. rewrite E; [done|lia].
Qed.

Lemma reads_all fuel : reads_values fuel /\ reads_elements fuel /\ reads_members fuel.
Proof.
  induction fuel as [|fuel (Hv & He & Hm)].
  - split; [|split].
    + intros j r Hj _ Hf. destruct (json_text_starts j Hj) as (b & l & E & _). rewrite E in Hf. cbn in Hf. lia.
    + intros l r _ _ Hf. unfold elements_text in Hf. rewrite length_app in Hf. cbn in Hf. lia.
    + intros l r _ _ Hf. unfold members_text in Hf. rewrite length_app in Hf. cbn in Hf. lia.
  - split; [by apply reads_values_S|]. split; [by apply reads_elements_S|by apply reads_members_S].
Qed.

Lemma json_read_text j : json_ok j -> json_read (json_text j) = Some j.
Proof.
  intros Hj. unfold json_read. rewrite <- (app_nil_r (json_text j)) at 2.
  by rewrite (proj1 (reads_all (length (json_text j))) j []).
Qed.

(** ** The snapshot as a JSON value *)

Definition num_list (l : list Z) : Json := JArr (map JNum l).
Definition str_list (l : list Str) : Json := JArr (map JStr l).

Definition board_tree (b : TopologyBoardNode) : Json :=
  JObj [(lit "sender_id", JStr (sender_id b)); (lit "reachable_endpoints", num_list (reachable_endpoints b));
        (lit "reachable_timesync_sources", str_list (reachable_timesync_sources b));
        (lit "connections", str_list (connections b))].

Definition announcer_tree (a : TopologyAnnouncerRoute) : Json :=
  JObj [(lit "sender_id", JStr (ta_sender_id a)); (lit "reachable_endpoints", num_list (ta_reachable_endpoints a));
        (lit "reachable_timesync_sources", str_list (ta_reachable_timesync_sources a));
        (lit "routers", JArr (map board_tree (ta_routers a)));
        (lit "last_seen_ms", JNum (ta_last_seen_ms a)); (lit "age_ms", JNum (ta_age_ms a))].

Definition route_tree (r : TopologySideRoute) : Json :=
  JObj [(lit "side_id", JNum (tr_side_id r)); (lit "side_name", JStr (tr_side_name r));
        (lit "reachable_endpoints", num_list (tr_reachable_endpoints r));
        (lit "reachable_timesync_sources", str_list (tr_reachable_timesync_sources r));
        (lit "announcers", JArr (map announcer_tree (tr_announcers r)));
        (lit "last_seen_ms", JNum (tr_last_seen_ms r)); (lit "age_ms", JNum (tr_age_ms r))].

Definition snapshot_tree (s : TopologySnapshot) : Json :=
  JObj [(lit "advertised_endpoints", num_list (ts_advertised_endpoints s));
        (lit "advertised_timesync_sources", str_list (ts_advertised_timesync_sources s));
        (lit "routers", JArr (map board_tree (ts_routers s))); (lit "routes", JArr (map route_tree (ts_routes s)));
        (lit "current_announce_interval_ms", JNum (ts_current_announce_interval_ms s));
        (lit "next_announce_ms", JNum (ts_next_announce_ms s))].

Lemma member_is name j : json_escape (lit name) = lit name -> member name (json_text j) = member_text (lit name, j).
Proof.
  intros Hn. unfold member, member_text, json_push_escaped. cbn [fst snd]. rewrite Hn, <- !app_comm_cons, <- !app_assoc. done.
Qed.

Lemma array_is {A} (push : A -> Str) tree l : (forall x, push x = json_text (tree x)) -> push_array push l = json_text (JArr (map tree l)).
Proof. intros Hp. unfold push_array. cbn [json_text]. do 2 f_equal. f_equal. rewrite map_map. by apply map_ext. Qed.

Lemma nums_is l : push_u32_array l = json_text (num_list l).
Proof. by apply array_is. Qed.

Lemma strs_is l : push_string_array l = json_text (str_list l).
Proof. by apply array_is. Qed.

Lemma int_is n : int_text n = json_text (JNum n).
Proof. done. Qed.

Lemma str_is s : json_push_escaped s = json_text (JStr s).
Proof. done. Qed.

Lemma object_is l : json_text (JObj l) = lit "{" ++ join (lit ",") (map member_text l) ++ lit "}".
Proof. done. Qed.

(** Member by member. *)
Ltac as_object :=
  rewrite ?nums_is, ?strs_is, ?int_is, ?str_is, object_is;
  repeat match goal with |- context [member ?n (json_text ?j)] => rewrite (member_is n j eq_refl) end;
  cbn [map join]; rewrite <- ?app_assoc; reflexivity.

Lemma board_is b : push_board b = json_text (board_tree b).
Proof. unfold push_board, board_tree. as_object. Qed.

Lemma announcer_is a : push_announcer a = json_text (announcer_tree a).
Proof. unfold push_announcer, announcer_tree. rewrite (array_is _ _ _ board_is). as_object. Qed.

Lemma route_is r : push_route r = json_text (route_tree r).
Proof. unfold push_route, route_tree. rewrite (array_is _ _ _ announcer_is). as_object. Qed.

Lemma snapshot_is s : topology_snapshot_to_json s = json_text (snapshot_tree s).
Proof.
  unfold topology_snapshot_to_json, snapshot_tree. rewrite (array_is _ _ _ board_is), (array_is _ _ _ route_is). as_object.
Qed.

(** ** The export can be read back *)

Definition board_numbers (b : TopologyBoardNode) : list Z := reachable_endpoints b.
Definition announcer_numbers (a : TopologyAnnouncerRoute) : list Z :=
  ta_last_seen_ms a :: ta_age_ms a :: ta_reachable_endpoints a ++ concat (map board_numbers (ta_routers a)).
Definition route_numbers (r : TopologySideRoute) : list Z :=
  tr_side_id r :: tr_last_seen_ms r :: tr_age_ms r :: tr_reachable_endpoints r
  ++ concat (map announcer_numbers (tr_announcers r)).

(** Every number of the snapshot. *)
Definition snapshot_numbers (s : TopologySnapshot) : list Z :=
  ts_current_announce_interval_ms s :: ts_next_announce_ms s :: ts_advertised_endpoints s
  ++ concat (map board_numbers (ts_routers s)) ++ concat (map route_numbers (ts_routes s)).

Lemma nums_ok l : Forall is_u64 l -> json_ok (num_list l).
Proof. cbn. intros Hl. rewrite map_map. apply Forall_map. eapply Forall_impl; [exact Hl|]. cbn. unfold is_u64. lia. Qed.

Lemma strs_ok l : json_ok (str_list l).
Proof. cbn. rewrite map_map. apply Forall_map, Forall_true. done. Qed.

Lemma trees_ok {A} (tree : A -> Json) (numbers : A -> list Z) l :
  (forall x, Forall is_u64 (numbers x) -> json_ok (tree x)) ->
  Forall is_u64 (concat (map numbers l)) -> json_ok (JArr (map tree l)).
Proof.
  intros Ht Hl. cbn. rewrite map_map. apply Forall_map. induction l as [|x l IH]; [constructor|].
  cbn in Hl. apply Forall_app in Hl as [Hx Hl]. constructor; [by apply Ht|by apply IH].
Qed.

Lemma board_tree_ok b : Forall is_u64 (board_numbers b) -> json_ok (board_tree b).
Proof. intros Hb. repeat constructor; [by apply nums_ok|apply strs_ok..]. Qed.

Lemma num_ok n : is_u64 n -> json_ok (JNum n).
Proof. unfold is_u64. cbn. lia. Qed.

Lemma announcer_tree_ok a : Forall is_u64 (announcer_numbers a) -> json_ok (announcer_tree a).
Proof.
  unfold announcer_numbers. intros [H1 [H2 [H3 H4]%Forall_app]%Forall_cons]%Forall_cons.
  repeat (apply List.Forall_cons || apply List.Forall_nil); try done; try by apply num_ok.
  - by apply nums_ok.
  - apply strs_ok.
  - by apply (trees_ok _ board_numbers), H4; apply board_tree_ok.
Qed.

Lemma route_tree_ok r : Forall is_u64 (route_numbers r) -> json_ok (route_tree r).
Proof.
  unfold route_numbers. intros [H1 [H2 [H3 [H4 H5]%Forall_app]%Forall_cons]%Forall_cons]%Forall_cons.
  repeat (apply List.Forall_cons || apply List.Forall_nil); try done; try by apply num_ok.
  - by apply nums_ok.
  - apply strs_ok.
  - by apply (trees_ok _ announcer_numbers), H5; apply announcer_tree_ok.
Qed.

Lemma snapshot_tree_ok s : Forall is_u64 (snapshot_numbers s) -> json_ok (snapshot_tree s).
Proof.
  unfold snapshot_numbers. intros [H1 [H2 [H3 [H4 H5]%Forall_app]%Forall_app]%Forall_cons]%Forall_cons.
  repeat (apply List.Forall_cons || apply List.Forall_nil); try done; try by apply num_ok.
  - by apply nums_ok.
  - apply strs_ok.
  - by apply (trees_ok _ board_numbers), H4; apply board_tree_ok.
  - by apply (trees_ok _ route_numbers), H5; apply route_tree_ok.
Qed.

(** A value tells which snapshot it stands for. *)

#[global] Instance JNum_inj : Inj (=) (=) JNum.
Proof. by intros ?? [= ->]. Qed.

#[global] Instance JStr_inj : Inj (=) (=) JStr.
Proof. by intros ?? [= ->]. Qed.

Lemma trees_inj {A} (tree : A -> Json) `{!Inj (=) (=) tree} l l' : map tree l = map tree l' -> l = l'.
Proof. apply (inj (fmap tree)). Qed.

(** The members of two equal objects, one by one. *)
Ltac by_members :=
  intros [] [] [=]; f_equal; try done;
  match goal with E : map ?t ?l = map ?t ?l' |- ?l = ?l' => exact (trees_inj t l l' E) end.

#[global] Instance board_tree_inj : Inj (=) (=) board_tree.
Proof. by_members. Qed.

#[global] Instance announcer_tree_inj : Inj (=) (=) announcer_tree.
Proof. by_members. Qed.

#[global] Instance route_tree_inj : Inj (=) (=) route_tree.
Proof. by_members. Qed.

#[global] Instance snapshot_tree_inj : Inj (=) (=) snapshot_tree.
Proof. by_members. Qed.

(** C25. The topology export is JSON and loses nothing: whatever bytes the names
    in it contain (quotes, backslashes and control characters come from the
    network), a JSON reader reads the text as the object with the snapshot's
    members; two snapshots with the same text are the same. *)
Theorem topology_export_readable s :
  Forall is_u64 (snapshot_numbers s) ->
  json_read (topology_snapshot_to_json s) = Some (snapshot_tree s)
  /\ forall s', Forall is_u64 (snapshot_numbers s') ->
     topology_snapshot_to_json s' = topology_snapshot_to_json s -> s' = s.
Proof.
  assert (forall t, Forall is_u64 (snapshot_numbers t) -> json_read (topology_snapshot_to_json t) = Some (snapshot_tree t)) as Hr.
  { intros t Ht. rewrite snapshot_is. by apply json_read_text, snapshot_tree_ok. }
  intros Hs. split; [by apply Hr|]. intros s' Hs' E. apply (inj snapshot_tree), (inj Some).
  by rewrite <- (Hr s'), <- (Hr s), E.
Qed.

(** A name with a quote, a backslash, a new line, a NUL and a two-byte control character. *)
Definition odd_name : Str := [b8 97; b8 34; b8 92; b8 10; b8 0; b8 194; b8 133; b8 98].
Definition odd_snapshot : TopologySnapshot :=
  let b := {| sender_id := odd_name; reachable_endpoints := [1; 2]; reachable_timesync_sources := [odd_name]; connections := [] |} in
  let a := {| ta_sender_id := odd_name; ta_reachable_endpoints := []; ta_reachable_timesync_sources := [];
              ta_routers := [b; b]; ta_last_seen_ms := 5; ta_age_ms := 0 |} in
  {| ts_advertised_endpoints := [100]; ts_advertised_timesync_sources := []; ts_routers := [b];
     ts_routes := [{| tr_side_id := 0; tr_side_name := odd_name; tr_reachable_endpoints := [1]; tr_reachable_timesync_sources := [odd_name];
                      tr_announcers := [a]; tr_last_seen_ms := 5; tr_age_ms := 0 |}];
     ts_current_announce_interval_ms := 1000; ts_next_announce_ms := 2 ^ 64 - 1 |}.

Example odd_name_text : json_push_escaped odd_name = b8 34 :: lit "a\" ++ b8 34 :: lit "\\\n\u0000\u0085b" ++ [b8 34].
Proof. reflexivity. Qed.

Lemma topology_export_readable_witness :
  Forall is_u64 (snapshot_numbers odd_snapshot)
  /\ json_read (topology_snapshot_to_json odd_snapshot) = Some (snapshot_tree odd_snapshot).
Proof.
  assert (Forall is_u64 (snapshot_numbers odd_snapshot)) as H by (repeat constructor; unfold is_u64; cbn; lia).
  split; [exact H|]. exact (proj1 (topology_export_readable odd_snapshot H)).
Defined.
