(* ===== verification/CPacket.v ===== *)
(** * Packets across the C interface ([src/c_api.rs])

    [SedsPacketView], the flat record of pointers and lengths in which packets
    cross the boundary in both directions, and the functions on it: text,
    payload access and copies, typed extraction, serialization. *)

From S2P Require Import Prelude Ordered Telemetry Config Schema Queue SmallPayload Wire Packet Serialize Calendar TimeSync Discovery RouterState Routes Reliable TimeRuntime Plan Topology EndToEnd Announce Text CText.

(** ** Views *)

Record SedsPacketView := {
  v_ty : Z;
  v_data_size : Z;
  v_sender : CPtr byte;
  v_sender_len : Z;
  v_endpoints : CPtr Z;
  v_num_endpoints : Z;
  v_timestamp : Z;
  v_payload : CPtr byte;
  v_payload_len : Z
}.

Definition STACK_EPS : Z := 16.

Definition SEDS_EK_UNSIGNED : Z := 0.
Definition SEDS_EK_SIGNED : Z := 1.
Definition SEDS_EK_FLOAT : Z := 2.

Inductive VectorizeError := NullBasePtr | ElemSizeMismatch (elem_size expected : Z) | Overflow | ZeroCount.

Record SedsOwnedPacket := { op_inner : Packet; op_endpoints_u32 : list Z }.

Record SedsOwnedHeader := { oh_ty : Z; oh_sender : Str; oh_endpoints_u32 : list Z; oh_timestamp : Z }.

Definition width_is_valid (width : Z) : bool :=
  existsb (Z.eqb width) [0; 1; 2; 4; 8; 16].

Definition opt_ts (ts_ptr : CPtr Z) : TelemetryResult (option Z) :=
  match ts_ptr with
  | None => Ok None
  | Some (t :: _) => Ok (Some t)
  | Some [] => Panic
  end.

Section Views.
Context `{Config} `{Schema}.

Definition fixed_payload_size_if_static (t : DataType) : option Z :=
  match element (message_meta t) with
  | Static _ _ _ => Some (get_needed_message_size t)
  | Dynamic _ _ => None
  end.

Definition dtype_from_u32 (x : Z) : TelemetryResult DataType :=
  match type_try_from_u32 x with Some t => Ok t | None => Err InvalidType end.

Definition endpoint_from_u32 (x : Z) : TelemetryResult DataEndpoint :=
  match endpoint_try_from_u32 x with Some e => Ok e | None => Err (Deserialize "bad endpoint") end.

Definition seds_dtype_expected_size (ty_u32 : Z) : TelemetryResult Z :=
  match dtype_from_u32 ty_u32 with
  | Ok t => Ok match fixed_payload_size_if_static t with Some sz => as_i32 sz | None => 0 end
  | _ => Ok (status_from_err InvalidType)
  end.

(** The sender of a view; [None] when it is not UTF-8. *)
Definition view_sender (view : SedsPacketView) : TelemetryResult (option Str) :=
  if bool_decide (v_sender view = None) || (v_sender_len view =? 0) then Ok (Some [])
  else sb ← from_raw_parts (v_sender view) (v_sender_len view); Ok (if utf8_valid sb then Some sb else None).

(** [Err(())] is [None]. *)
Definition view_to_packet (view : SedsPacketView) : TelemetryResult (option Packet) :=
  match type_try_from_u32 (v_ty view) with
  | None => Ok None
  | Some t =>
      eps_u32 ← from_raw_parts (v_endpoints view) (v_num_endpoints view);
      match mapM endpoint_try_from_u32 eps_u32 with
      | None => Ok None
      | Some eps =>
          sender_owned ← view_sender view;
          match sender_owned with
          | None => Ok None
          | Some sender_owned =>
              bytes ← from_raw_parts (v_payload view) (v_payload_len view);
              if negb (v_data_size view =? v_payload_len view) then Ok None
              else
                match packet_new t eps sender_owned (v_timestamp view) bytes with
                | Ok p => Ok (Some p)
                | Err _ => Ok None
                | Panic => Panic
                end
          end
      end
  end.

(** The view over a packet and the endpoint numbers kept for it. *)
Definition view_of (p : Packet) (endpoints : list Z) (num_endpoints : Z) : TelemetryResult SedsPacketView :=
  bytes ← payload_bytes p;
  Ok {| v_ty := ty p; v_data_size := data_size p; v_sender := Some (sender p); v_sender_len := blen (sender p);
        v_endpoints := Some endpoints; v_num_endpoints := num_endpoints; v_timestamp := timestamp p;
        v_payload := Some bytes; v_payload_len := blen bytes |}.

(** What a callback is given: up to 16 endpoints lie in an array on the stack. *)
Definition callback_view (p : Packet) : TelemetryResult SedsPacketView :=
  let n := nlen (pkt_endpoints p) in
  if n <=? STACK_EPS
  then view_of p (pkt_endpoints p ++ replicate (Z.to_nat (STACK_EPS - n)) 0) n
  else view_of p (pkt_endpoints p) n.

(** The packet of a [const SedsPacketView *], or the status to answer: NULL is a
    bad argument, and a view that makes no packet is answered [bad]. *)
Definition packet_or_status (bad : TelemetryError) (pkt : option SedsPacketView) : TelemetryResult (Z + Packet) :=
  match pkt with
  | None => Ok (inl (status_from_err BadArg))
  | Some view =>
      tpkt ← view_to_packet view;
      Ok match tpkt with Some p => inr p | None => inl (status_from_err bad) end
  end.

(** ** Text *)

(** [(s.len() + 1) as i32] *)
Definition text_len (s : Str) : Z := as_i32 (blen s + 1).

Definition seds_pkt_header_string_len (pkt : option SedsPacketView) : TelemetryResult Z :=
  tpkt ← packet_or_status BadArg pkt;
  match tpkt with inl code => Ok code | inr p => Ok (text_len (header_string p)) end.

Definition packet_to_string (pkt : option SedsPacketView) : TelemetryResult (Z + Str) :=
  tpkt ← packet_or_status BadArg pkt;
  match tpkt with inl code => Ok (inl code) | inr p => s ← as_string p; Ok (inr s) end.

Definition seds_pkt_to_string_len (pkt : option SedsPacketView) : TelemetryResult Z :=
  result ← packet_to_string pkt;
  match result with inl err => Ok err | inr s => Ok (text_len s) end.

Definition seds_pkt_header_string (pkt : option SedsPacketView) (buf : CPtr byte) (buf_len : Z)
    : TelemetryResult (Z * CPtr byte) :=
  tpkt ← packet_or_status BadArg pkt;
  match tpkt with inl code => Ok (code, buf) | inr p => write_str_to_buf (header_string p) buf buf_len end.

Definition seds_pkt_to_string (pkt : option SedsPacketView) (buf : CPtr byte) (buf_len : Z)
    : TelemetryResult (Z * CPtr byte) :=
  result ← packet_to_string pkt;
  match result with inl err => Ok (err, buf) | inr s => write_str_to_buf s buf buf_len end.

Definition seds_pkt_get_string (pkt : option SedsPacketView) (buf : CPtr byte) (buf_len : Z)
    : TelemetryResult (Z * CPtr byte) :=
  tpkt ← packet_or_status BadArg pkt;
  match tpkt with
  | inl code => Ok (code, buf)
  | inr p =>
      match data_as_string p with
      | Ok s => write_str_to_buf s buf buf_len
      | Err e => Ok (status_from_err e, buf)
      | Panic => Panic
      end
  end.

Definition seds_pkt_get_string_len (pkt : option SedsPacketView) : TelemetryResult Z :=
  tpkt ← packet_or_status BadArg pkt;
  match tpkt with
  | inl code => Ok code
  | inr p =>
      match data_as_string p with
      | Ok s => Ok (text_len s)
      | Err e => Ok (status_from_err e)
      | Panic => Panic
      end
  end.

(** ** Payload access *)

(** The pointer, and what is stored through [out_len]. *)
Definition seds_pkt_bytes_ptr (pkt : option SedsPacketView) : CPtr byte * option Z :=
  match pkt with
  | None => (None, None)
  | Some view => (v_payload view, Some (v_payload_len view))
  end.

Definition seds_pkt_data_ptr (pkt : option SedsPacketView) (elem_size : Z) : CPtr byte * option Z :=
  match pkt with
  | None => (None, None)
  | Some view =>
      if negb (width_is_valid elem_size) then (None, None)
      else if (elem_size =? 0) || negb (v_payload_len view mod elem_size =? 0) then (None, Some 0)
      else (v_payload view, Some (v_payload_len view / elem_size))
  end.

(** The body of [impl_seds_pkt_get_typed_from_packet!] after the accessor. *)
Definition copy_values {A} (vals : list A) (out : CPtr A) (out_elems : Z) : TelemetryResult (Z * CPtr A) :=
  let needed := nlen vals in
  if needed =? 0 then Ok (0, out)
  else
    match out with
    | None => Ok (as_i32 needed, out)
    | Some mem =>
        if (out_elems =? 0) || (out_elems <? needed) then Ok (as_i32 needed, out)
        else mem ← copy_to vals mem 0; Ok (as_i32 needed, Some mem)
    end.

Definition seds_pkt_get_with {A} (method : Packet -> TelemetryResult (list A)) (pkt : option SedsPacketView)
    (out : CPtr A) (out_elems : Z) : TelemetryResult (Z * CPtr A) :=
  tpkt ← packet_or_status BadArg pkt;
  match tpkt with
  | inl code => Ok (code, out)
  | inr p =>
      match method p with
      | Ok vals => copy_values vals out out_elems
      | Err e => Ok (status_from_err e, out)
      | Panic => Panic
      end
  end.

(** [seds_pkt_get_f32], ..., [seds_pkt_get_i64]. *)
Definition seds_pkt_get (T : Prim) := seds_pkt_get_with (data_as T).
Definition seds_pkt_get_bool := seds_pkt_get_with data_as_bool.

Definition seds_pkt_copy_bytes (pkt : option SedsPacketView) (dst : CPtr byte) (dst_len : Z)
    : TelemetryResult (Z * CPtr byte) :=
  match pkt with
  | None => Ok (status_from_err BadArg, dst)
  | Some view =>
      let needed := v_payload_len view in
      if needed =? 0 then Ok (0, dst)
      else
        match v_payload view, dst with
        | None, _ => Ok (status_from_err BadArg, dst)
        | Some _, None => Ok (as_i32 needed, dst)
        | Some _, Some mem =>
            if dst_len <? needed then Ok (as_i32 needed, dst)
            else
              bytes ← from_raw_parts (v_payload view) needed;
              mem ← copy_to bytes mem 0; Ok (as_i32 needed, Some mem)
        end
  end.

Definition seds_pkt_copy_data (pkt : option SedsPacketView) (elem_size : Z) (dst : CPtr byte) (dst_elems : Z)
    : TelemetryResult (Z * CPtr byte) :=
  match pkt with
  | None => Ok (status_from_err BadArg, dst)
  | Some view =>
      if negb (width_is_valid elem_size) then Ok (status_from_err BadArg, dst)
      else if (elem_size =? 0) || negb (v_payload_len view mod elem_size =? 0) then Ok (status_from_err BadArg, dst)
      else
        let count := v_payload_len view / elem_size in
        if count =? 0 then Ok (0, dst)
        else
          match dst with
          | None => Ok (as_i32 count, dst)
          | Some mem =>
              if (dst_elems =? 0) || (dst_elems <? count) then Ok (as_i32 count, dst)
              else if bool_decide (v_payload view = None) then Ok (status_from_err BadArg, dst)
              else if usize_max <? count * elem_size then Ok (status_from_err BadArg, dst)
              else
                bytes ← from_raw_parts (v_payload view) (count * elem_size);
                mem ← copy_to bytes mem 0; Ok (as_i32 count, Some mem)
          end
  end.

(** [count] unaligned reads; the values are appended to [tmp]. *)
Definition vectorize_data (T : Prim) (base : CPtr byte) (count elem_size : Z) (tmp : list Z)
    : TelemetryResult (VectorizeError + list Z) :=
  match base with
  | None => Ok (inl NullBasePtr)
  | Some _ =>
      if negb (elem_size =? WIDTH T) then Ok (inl (ElemSizeMismatch elem_size (WIDTH T)))
      else if count =? 0 then Ok (inl ZeroCount)
      else if usize_max <? count * elem_size then Ok (inl Overflow)
      else
        bytes ← from_raw_parts base (count * elem_size);
        vs ← mapM_res (from_le T) (chunks_exact (Z.to_nat count) (Z.to_nat elem_size) bytes);
        Ok (inr (tmp ++ vs))
  end.

(** The memory at [out] holds the values in the machine's byte order. *)
Definition extract_typed_into (T : Prim) (view : SedsPacketView) (elem_size count : Z) (out : list byte)
    : TelemetryResult (VectorizeError + list byte) :=
  res ← vectorize_data T (v_payload view) count elem_size [];
  match res with
  | inl e => Ok (inl e)
  | inr tmp => mem ← copy_to (encode_slice_le T tmp) out 0; Ok (inr mem)
  end.

(** The arms of [match (elem_kind, elem_size)]. *)
Definition elem_type (elem_kind elem_size : Z) : option Prim :=
  if elem_kind =? SEDS_EK_UNSIGNED then
    match elem_size with 1 => Some PU8 | 2 => Some PU16 | 4 => Some PU32 | 8 => Some PU64 | 16 => Some PU128 | _ => None end
  else if elem_kind =? SEDS_EK_SIGNED then
    match elem_size with 1 => Some PI8 | 2 => Some PI16 | 4 => Some PI32 | 8 => Some PI64 | 16 => Some PI128 | _ => None end
  else if elem_kind =? SEDS_EK_FLOAT then
    match elem_size with 4 => Some PF32 | 8 => Some PF64 | _ => None end
  else None.

Definition seds_pkt_get_typed (pkt : option SedsPacketView) (out : CPtr byte) (count elem_size elem_kind : Z)
    : TelemetryResult (Z * CPtr byte) :=
  match pkt with
  | None => Ok (status_from_err BadArg, out)
  | Some view =>
      if negb (width_is_valid elem_size) then Ok (status_from_err BadArg, out)
      else if v_payload_len view =? 0 then Ok (0, out)
      else if bool_decide (v_payload view = None) then Ok (status_from_err BadArg, out)
      else if (elem_size =? 0) || negb (v_payload_len view mod elem_size =? 0) then Ok (status_from_err BadArg, out)
      else
        let needed := v_payload_len view / elem_size in
        match out with
        | None => Ok (as_i32 needed, out)
        | Some mem =>
            if (count =? 0) || (count <? needed) then Ok (as_i32 needed, out)
            else
              res ← match elem_type elem_kind elem_size with
                    | Some T => extract_typed_into T view elem_size needed mem
                    | None => Ok (inl (ElemSizeMismatch elem_size elem_size))
                    end;
              match res with
              | inr mem => Ok (as_i32 needed, Some mem)
              | inl _ => Ok (status_from_err BadArg, out)
              end
        end
  end.
End Views.

(** ** Serialization *)

Section Wire.
Context `{Config} `{Schema} `{External}.

Definition seds_pkt_serialize_len (view : option SedsPacketView) : TelemetryResult Z :=
  pkt ← packet_or_status BadArg view;
  match pkt with
  | inl code => Ok code
  | inr pkt =>
      match validate pkt with
      | Err e => Ok (status_from_err e)
      | Ok _ => n ← packet_wire_size pkt; Ok (as_i32 n)
      | Panic => Panic
      end
  end.

Definition seds_pkt_serialize (view : option SedsPacketView) (out : CPtr byte) (out_len : Z)
    : TelemetryResult (Z * CPtr byte) :=
  pkt ← packet_or_status BadArg view;
  match pkt with
  | inl code => Ok (code, out)
  | inr pkt =>
      match validate pkt with
      | Err e => Ok (status_from_err e, out)
      | Ok _ =>
          bytes ← serialize_packet pkt;
          let needed := blen bytes in
          match out with
          | None => Ok (as_i32 needed, out)
          | Some mem =>
              if (out_len =? 0) || (out_len <? needed) then Ok (as_i32 needed, out)
              else mem ← copy_to bytes mem 0; Ok (as_i32 needed, Some mem)
          end
      | Panic => Panic
      end
  end.

(** The bytes of a [const uint8_t *] argument with its length, when the guard
    [len > 0 && bytes.is_null()] lets it pass. *)
Definition bytes_arg (bytes : CPtr byte) (len : Z) : TelemetryResult (option (list byte)) :=
  if (0 <? len) && bool_decide (bytes = None) then Ok None
  else l ← from_raw_parts bytes len; Ok (Some l).

(** A NULL result is [None]. *)
Definition seds_pkt_deserialize_owned (bytes : CPtr byte) (len : Z) : TelemetryResult (option SedsOwnedPacket) :=
  slice ← bytes_arg bytes len;
  match slice with
  | None => Ok None
  | Some l =>
      match deserialize_packet l with
      | Panic => Panic
      | Err _ => Ok None
      | Ok tpkt =>
          match validate tpkt with
          | Panic => Panic
          | Err _ => Ok None
          | Ok _ => Ok (Some {| op_inner := tpkt; op_endpoints_u32 := pkt_endpoints tpkt |})
          end
      end
  end.

(** The status, and what is stored through [out_view]. *)
Definition seds_owned_pkt_view (pkt : option SedsOwnedPacket) : TelemetryResult (Z * option SedsPacketView) :=
  match pkt with
  | None => Ok (status_from_err BadArg, None)
  | Some pkt =>
      view ← view_of (op_inner pkt) (op_endpoints_u32 pkt) (nlen (op_endpoints_u32 pkt));
      Ok (status_from_result_code SedsOk, Some view)
  end.

Definition seds_pkt_validate_serialized (bytes : CPtr byte) (len : Z) : TelemetryResult Z :=
  slice ← bytes_arg bytes len;
  match slice with
  | None => Ok (status_from_err BadArg)
  | Some l =>
      match deserialize_packet l with
      | Panic => Panic
      | Err _ => Ok (status_from_err (Deserialize "bad packet"))
      | Ok p => ok_or_status (validate p)
      end
  end.

Definition seds_pkt_deserialize_header_owned (bytes : CPtr byte) (len : Z) : TelemetryResult (option SedsOwnedHeader) :=
  slice ← bytes_arg bytes len;
  match slice with
  | None => Ok None
  | Some l =>
      match peek_envelope l with
      | Panic => Panic
      | Err _ => Ok None
      | Ok env => Ok (Some {| oh_ty := env_ty env; oh_sender := env_sender env;
                              oh_endpoints_u32 := env_endpoints env; oh_timestamp := env_timestamp_ms env |})
      end
  end.

Definition seds_owned_header_view (h : option SedsOwnedHeader) : Z * option SedsPacketView :=
  match h with
  | None => (status_from_err BadArg, None)
  | Some h =>
      (status_from_result_code SedsOk,
       Some {| v_ty := oh_ty h; v_data_size := 0; v_sender := Some (oh_sender h); v_sender_len := blen (oh_sender h);
               v_endpoints := Some (oh_endpoints_u32 h); v_num_endpoints := nlen (oh_endpoints_u32 h);
               v_timestamp := oh_timestamp h; v_payload := None; v_payload_len := 0 |})
  end.
End Wire.

(** ** Reading and writing values *)

Lemma le_bytes_mod n z : le_bytes n (z mod 256 ^ Z.of_nat n) = le_bytes n z.
Proof. rewrite <- le_value_bytes. rewrite <- (length_le_bytes n z) at 1. apply le_bytes_value. Qed.

Lemma swrap_mod w z : 0 < w -> swrap w z mod 2 ^ w = z mod 2 ^ w.
Proof.
  intros Hw. unfold swrap. rewrite Zminus_mod, Zmod_mod, <- Zminus_mod. f_equal. lia.
Qed.

Lemma write_le_from_le T l : blen l = WIDTH T -> exists v, from_le T l = Ok v /\ write_le T v = l.
Proof.
  intros Hl. unfold from_le, write_le. rewrite Hl, Z.eqb_refl. cbn [negb]. eexists. split; [done|].
  pose proof (WIDTH_pos T) as Hw.
  assert (length l = Z.to_nat (WIDTH T)) as Hn by (unfold blen in Hl; lia).
  destruct (signed T); [|rewrite <- Hn; apply le_bytes_value].
  rewrite <- le_bytes_mod, Z2Nat.id by lia. replace (256 ^ WIDTH T) with (2 ^ (8 * WIDTH T)) by (rewrite Z.pow_mul_r; lia || done).
  rewrite swrap_mod by lia. replace (2 ^ (8 * WIDTH T)) with (256 ^ Z.of_nat (Z.to_nat (WIDTH T))) by (rewrite Z2Nat.id, Z.pow_mul_r; lia || done).
  rewrite le_bytes_mod, <- Hn. apply le_bytes_value.
Qed.

(** Decoding whole elements and encoding them again gives the bytes back. *)
Lemma encode_decode T count l : length l = (count * Z.to_nat (WIDTH T))%nat ->
  exists vs, mapM_res (from_le T) (chunks_exact count (Z.to_nat (WIDTH T)) l) = Ok vs
    /\ encode_slice_le T vs = l /\ length vs = count.
Proof.
  revert l. induction count as [|count IH]; intros l Hl.
  - exists []. cbn. split; [done|]. split; [|done]. by destruct l.
  - pose proof (WIDTH_pos T) as Hw. set (w := Z.to_nat (WIDTH T)) in *.
    destruct (write_le_from_le T (take w l)) as (v & Hv & Hwr).
    { unfold blen. rewrite length_take. unfold w in *. lia. }
    destruct (IH (drop w l)) as (vs & Hvs & He & Hn); [rewrite length_drop; lia|].
    exists (v :: vs). cbn [chunks_exact mapM_res]. rewrite Hv. cbn [mbind res_mbind res_bind]. rewrite Hvs.
    cbn [mbind res_mbind res_bind]. split; [done|]. split; [|by cbn; rewrite Hn].
    unfold encode_slice_le in *. cbn [map concat]. rewrite Hwr, He. apply take_drop.
Qed.

(** ** Views that describe a packet *)

(** The memory from [p] on begins with [l], and [n] is its length. *)
Definition points_to {T} (p : CPtr T) (n : Z) (l : list T) : Prop :=
  n = nlen l /\ exists rest, p = Some (l ++ rest).

Lemma points_to_read {T} (p : CPtr T) n l : points_to p n l -> from_raw_parts p n = Ok l.
Proof.
  intros (-> & rest & ->). rewrite from_raw_parts_Ok by (unfold nlen; rewrite length_app; lia).
  unfold nlen. by rewrite Nat2Z.id, take_app_length.
Qed.

Lemma points_to_all {T} (l rest : list T) : points_to (Some (l ++ rest)) (nlen l) l.
Proof. split; [done|]. by exists rest. Qed.

Lemma points_to_exact {T} (l : list T) : points_to (Some l) (nlen l) l.
Proof. rewrite <- (app_nil_r l) at 1. apply points_to_all. Qed.

(** What a view's pointers lead to. *)
Record view_shows (view : SedsPacketView) (eps : list Z) (snd data : list byte) : Prop := {
  vs_endpoints : points_to (v_endpoints view) (v_num_endpoints view) eps;
  vs_sender : ((v_sender view = None \/ v_sender_len view = 0) /\ snd = [])
              \/ points_to (v_sender view) (v_sender_len view) snd;
  vs_payload : points_to (v_payload view) (v_payload_len view) data
}.

Lemma copy_front {T} (l mem : list T) : nlen l <= nlen mem -> copy_to l mem 0 = Ok (l ++ drop (length l) mem).
Proof.
  intros Hl. rewrite copy_to_Ok by lia. change (Z.to_nat 0) with 0%nat. rewrite take_0. cbn [app].
  do 3 f_equal. unfold nlen. lia.
Qed.

Section ViewFacts.
Context `{Config} `{Schema}.

(** A view describes a packet the library accepts. *)
Record view_valid (view : SedsPacketView) (eps : list Z) (snd data : list byte) : Prop := {
  vv_ty : valid_ty (v_ty view);
  vv_eps : Forall valid_ep eps;
  vv_some : eps <> [];
  vv_utf8 : utf8_valid snd = true;
  vv_size : v_data_size view = blen data;
  vv_content : content_ok (v_ty view) data
}.

Lemma try_endpoints eps : Forall (fun e => 0 <= e) eps ->
  mapM endpoint_try_from_u32 eps = Some eps /\ Forall valid_ep eps
  \/ mapM endpoint_try_from_u32 eps = None /\ ~ Forall valid_ep eps.
Proof.
  induction 1 as [|e eps He _ IH]; [by left|]. cbn.
  assert (endpoint_try_from_u32 e = if MAX_VALUE_DATA_ENDPOINT <? e then None else Some e) as -> by done.
  destruct (Z.ltb_spec MAX_VALUE_DATA_ENDPOINT e) as [Hlt|Hle].
  - right. split; [done|]. intros [Hv _]%Forall_cons. unfold valid_ep in Hv. lia.
  - cbn. destruct IH as [[-> Hv]|[-> Hv]].
    + left. split; [done|]. constructor; [done|exact Hv].
    + right. split; [done|]. intros [_ Ht]%Forall_cons. by apply Hv.
Qed.

Lemma view_sender_read view snd :
  ((v_sender view = None \/ v_sender_len view = 0) /\ snd = []) \/ points_to (v_sender view) (v_sender_len view) snd ->
  view_sender view = Ok (if utf8_valid snd then Some snd else None).
Proof.
  intros Hs. unfold view_sender. destruct Hs as [[Hn ->]|Hp].
  - rewrite utf8_nil. destruct Hn as [->| ->].
    + by rewrite bool_decide_eq_true_2.
    + by rewrite orb_true_r.
  - destruct Hp as (Hn & rest & Hm). rewrite Hm. rewrite bool_decide_eq_false_2 by done. cbn [orb].
    destruct (Z.eqb_spec (v_sender_len view) 0) as [Hz|Hz].
    + assert (snd = []) as -> by (destruct snd; [done|unfold nlen in Hn; cbn in Hn; lia]). by rewrite utf8_nil.
    + rewrite (points_to_read _ _ snd) by (rewrite Hn; apply points_to_all). done.
Qed.

(** Conversion, case by case. *)
Lemma view_to_packet_cases view eps snd data :
  STACK_PAYLOAD_SIZE < 2 ^ 63 -> 0 <= v_ty view -> Forall (fun e => 0 <= e) eps -> view_shows view eps snd data ->
  (view_valid view eps snd data
   /\ view_to_packet view = (p ← packet_new (v_ty view) eps snd (v_timestamp view) data; Ok (Some p)))
  \/ (~ view_valid view eps snd data /\ view_to_packet view = Ok None).
Proof.
  intros Hstack Hty Heps Hv. unfold view_to_packet, type_try_from_u32.
  destruct (Z.ltb_spec MAX_VALUE_DATA_TYPE (v_ty view)) as [Hlt|Hle].
  { right. split; [|done]. intros []. unfold valid_ty in *. lia. }
  rewrite (points_to_read _ _ _ (vs_endpoints _ _ _ _ Hv)). cbn [mbind res_mbind res_bind].
  destruct (try_endpoints eps Heps) as [[-> Hve]|[-> Hve]]; [|right; split; [intros []; done|done]].
  rewrite (view_sender_read _ _ (vs_sender _ _ _ _ Hv)). cbn [mbind res_mbind res_bind].
  destruct (utf8_valid snd) eqn:Hu; [|right; split; [intros []; congruence|done]].
  rewrite (points_to_read _ _ _ (vs_payload _ _ _ _ Hv)). cbn [mbind res_mbind res_bind].
  destruct (Z.eqb_spec (v_data_size view) (v_payload_len view)) as [Hd|Hd]; cbn [negb].
  2: { right. split; [|done]. intros []. destruct (vs_payload _ _ _ _ Hv) as [Hl _]. unfold blen, nlen in *. lia. }
  assert (v_data_size view = blen data) as Hd'.
  { destruct (vs_payload _ _ _ _ Hv) as [Hl _]. unfold blen, nlen in *. lia. }
  destruct (packet_new_cases (v_ty view) eps snd (v_timestamp view) data)
    as [[He ->]|[(He & Hc & e & -> & _)|(He & Hc & ->)]].
  - right. split; [by intros []|done].
  - right. split; [by intros []|done].
  - left. split; [constructor; try done; unfold valid_ty; lia|].
    by destruct (std_new_cases data Hstack) as [(_ & _ & ->)|(q & -> & _)].
Qed.

(** The views the library builds show the packet. *)
Lemma view_of_shows p data n rest :
  std_holds data (payload p) -> n = nlen (pkt_endpoints p) ->
  exists v, view_of p (pkt_endpoints p ++ rest) n = Ok v /\ v_ty v = ty p /\ v_timestamp v = timestamp p
    /\ v_data_size v = data_size p /\ view_shows v (pkt_endpoints p) (sender p) data.
Proof.
  intros (Hs & _) ->. unfold view_of, payload_bytes. rewrite Hs. cbn [mbind res_mbind res_bind].
  eexists. split; [done|]. cbn. split; [done|]. split; [done|]. split; [done|].
  constructor; cbn; [apply points_to_all|right; apply points_to_exact|apply points_to_exact].
Qed.

Lemma callback_view_is p : exists rest,
  callback_view p = view_of p (pkt_endpoints p ++ rest) (nlen (pkt_endpoints p)).
Proof.
  unfold callback_view. destruct (_ <=? STACK_EPS); [by eexists|]. exists []. by rewrite app_nil_r.
Qed.

(** C20. Packets cross the C boundary unchanged, in both directions.  A view
    whose pointers lead to the endpoints, sender and payload it announces is
    converted to the packet with exactly these contents when its type and every
    endpoint exist, there is an endpoint, the sender is UTF-8, the two payload
    lengths agree and the schema admits the payload, and is refused otherwise
    (unless storing the payload panics); the view that an endpoint handler, a side
    or an owned packet gives C of any packet so built converts back to that
    packet. *)
Theorem packet_views_correct view eps snd data :
  STACK_PAYLOAD_SIZE < 2 ^ 63 -> 0 <= v_ty view -> Forall (fun e => 0 <= e) eps -> view_shows view eps snd data ->
  (view_to_packet view = Ok None <-> ~ view_valid view eps snd data)
  /\ (view_to_packet view = Panic <-> view_valid view eps snd data /\ std_new data = Panic)
  /\ forall p, view_to_packet view = Ok (Some p) ->
     (ty p = v_ty view /\ pkt_endpoints p = eps /\ sender p = snd /\ timestamp p = v_timestamp view
      /\ data_size p = blen data /\ payload_bytes p = Ok data /\ validate p = Ok tt)
     /\ exists cv ov, callback_view p = Ok cv /\ view_of p (pkt_endpoints p) (nlen (pkt_endpoints p)) = Ok ov
        /\ view_to_packet cv = Ok (Some p) /\ view_to_packet ov = Ok (Some p).
Proof.
  intros Hstack Hty Heps Hv.
  destruct (view_to_packet_cases view eps snd data Hstack Hty Heps Hv) as [[Hok E]|[Hno E]].
  2: { rewrite E. split; [tauto|]. split; [split; [done|tauto]|done]. }
  rewrite E. pose proof Hok as [V1 V2 V3 V4 V5 V6].
  assert (packet_new (v_ty view) eps snd (v_timestamp view) data =
    (stored ← std_new data; Ok {| ty := v_ty view; data_size := blen data; sender := snd; pkt_endpoints := eps;
                                  timestamp := v_timestamp view; payload := stored |})) as Hnew.
  { destruct (packet_new_cases (v_ty view) eps snd (v_timestamp view) data)
      as [[He _]|[(_ & Hc & _)|(_ & _ & ->)]]; done. }
  rewrite Hnew. destruct (std_new_cases data Hstack) as [(_ & _ & Hp)|(q & Hq & Hh & _)].
  { rewrite Hp. cbn. split; [split; [done|tauto]|]. split; [tauto|done]. }
  rewrite Hq. cbn [mbind res_mbind res_bind]. split; [split; [done|tauto]|]. split; [split; [done|by intros [_ ?]]|].
  intros p [= <-]. set (p := {| ty := _ |}).
  assert (packet_ok p data) as Hpok by (constructor; done). split.
  { split_and!; try done; [exact (proj1 Hh)|by apply (validate_ok p data)]. }
  assert (forall v, v_ty v = ty p -> v_timestamp v = timestamp p -> v_data_size v = data_size p ->
    view_shows v (pkt_endpoints p) (sender p) data -> view_to_packet v = Ok (Some p)) as Hback.
  { intros v E1 E2 E3 Hs. destruct (view_to_packet_cases v eps snd data) as [[_ ->]|[Hn _]]; try done.
    - rewrite E1. done.
    - rewrite E1, E2. cbn [ty timestamp p]. by rewrite Hnew, Hq.
    - exfalso. apply Hn. constructor; rewrite ?E1; done. }
  destruct (callback_view_is p) as (rest & ->).
  destruct (view_of_shows p data (nlen (pkt_endpoints p)) rest Hh eq_refl) as (cv & Hc & C1 & C2 & C3 & Cs).
  destruct (view_of_shows p data (nlen (pkt_endpoints p)) [] Hh eq_refl) as (ov & Ho & O1 & O2 & O3 & Os).
  rewrite app_nil_r in Ho. exists cv, ov. split_and!; try done; by apply Hback.
Qed.
End ViewFacts.

(** ** Payload copies *)

Section CopyFacts.
Context `{Config} `{Schema}.

Lemma width_of_prim T : width_is_valid (WIDTH T) = true /\ (WIDTH T =? 0) = false.
Proof. by destruct T. Qed.

Lemma elem_type_width kind w T : elem_type kind w = Some T -> WIDTH T = w.
Proof.
  unfold elem_type. repeat case_match; intros E; by simplify_eq.
Qed.

Lemma vectorize_ok T (data rest : list byte) count :
  blen data = count * WIDTH T -> 0 < count -> blen data <= usize_max ->
  exists vs, vectorize_data T (Some (data ++ rest)) count (WIDTH T) [] = Ok (inr vs) /\ encode_slice_le T vs = data
    /\ mapM_res (from_le T) (chunks_exact (Z.to_nat count) (Z.to_nat (WIDTH T)) data) = Ok vs.
Proof.
  intros Hd Hc Hm. pose proof (WIDTH_pos T) as Hw. unfold vectorize_data. rewrite Z.eqb_refl. cbn [negb].
  rewrite (proj2 (Z.eqb_neq count 0)), (proj2 (Z.ltb_ge usize_max _)) by lia.
  assert (count * WIDTH T = nlen data) as -> by (unfold blen, nlen in *; lia).
  rewrite (points_to_read _ _ data) by apply points_to_all. cbn [mbind res_mbind res_bind].
  destruct (encode_decode T (Z.to_nat count) data) as (vs & Hvs & He & _); [unfold blen in Hd; nia|].
  rewrite Hvs. cbn [mbind res_mbind res_bind app]. by exists vs.
Qed.

(** What a buffer of [mem] holds after values were copied to a buffer with room
    for [room] of them: nothing is written unless all of them fit. *)
Definition copied_to {A} (vals mem : list A) (room : Z) : CPtr A :=
  Some (if nlen vals <=? room then vals ++ drop (length vals) mem else mem).

Lemma copy_values_spec {A} (vals mem : list A) room :
  0 < nlen vals < 2 ^ 31 -> 0 <= room <= nlen mem ->
  copy_values vals (Some mem) room = Ok (nlen vals, copied_to vals mem room)
  /\ forall r, copy_values vals None r = Ok (nlen vals, None).
Proof.
  intros Hn Hr. unfold copy_values, copied_to. rewrite (proj2 (Z.eqb_neq (nlen vals) 0)), as_i32_small by lia. split; [|done].
  destruct (Z.leb_spec (nlen vals) room).
  - rewrite (proj2 (Z.eqb_neq room 0)), (proj2 (Z.ltb_ge room _)) by lia. cbn [orb]. by rewrite copy_front by lia.
  - by rewrite (proj2 (Z.ltb_lt room _)), orb_true_r by lia.
Qed.

Lemma copy_bytes_spec view eps snd data mem len : view_shows view eps snd data -> 0 < blen data < 2 ^ 31 -> 0 <= len <= blen mem ->
  seds_pkt_copy_bytes (Some view) (Some mem) len = Ok (blen data, copied_to data mem len)
  /\ forall l, seds_pkt_copy_bytes (Some view) None l = Ok (blen data, None).
Proof.
  intros [_ _ (Hl & rest & Hp)] Hd Hlen. unfold seds_pkt_copy_bytes, copied_to.
  assert (v_payload_len view = nlen data) as -> by done. assert (blen data = nlen data) as Hbn by done. rewrite Hbn in *.
  rewrite Hp, (proj2 (Z.eqb_neq (nlen data) 0)), as_i32_small by lia. split; [|done].
  rewrite (Z.ltb_antisym _ len). destruct (Z.leb_spec (nlen data) len); cbn [negb]; [|done].
  rewrite (points_to_read _ _ data) by apply points_to_all. cbn [mbind res_mbind res_bind].
  by rewrite copy_front by (unfold nlen, blen in *; lia).
Qed.

Lemma copy_elements_spec view eps snd data mem room T kind count :
  view_shows view eps snd data -> elem_type kind (WIDTH T) = Some T -> blen data = count * WIDTH T -> 0 < count ->
  blen data < 2 ^ 31 -> 0 <= room -> room * WIDTH T <= blen mem ->
  let copied := Some (if count <=? room then data ++ drop (length data) mem else mem) in
  seds_pkt_copy_data (Some view) (WIDTH T) (Some mem) room = Ok (count, copied)
  /\ seds_pkt_get_typed (Some view) (Some mem) room (WIDTH T) kind = Ok (count, copied)
  /\ forall r, seds_pkt_copy_data (Some view) (WIDTH T) None r = Ok (count, None)
       /\ seds_pkt_get_typed (Some view) None r (WIDTH T) kind = Ok (count, None).
Proof.
  intros [_ _ (Hl & rest & Hp)] Hk Hd Hc Hm Hr Hmem copied. pose proof (WIDTH_pos T) as Hw. destruct (width_of_prim T) as [Hv H0w].
  assert (v_payload_len view = blen data) as Hlen by (unfold blen, nlen in *; done).
  assert (v_payload_len view mod WIDTH T = 0) as Hmod by (rewrite Hlen, Hd; apply Z.mod_mul; lia).
  assert (v_payload_len view / WIDTH T = count) as Hdiv by (rewrite Hlen, Hd; apply Z.div_mul; lia).
  assert (as_i32 count = count) as Hi by (apply as_i32_small; nia).
  unfold seds_pkt_copy_data, seds_pkt_get_typed.
  rewrite Hv, Hmod, H0w, Hdiv, Hp, Hlen. cbn [negb orb Z.eqb]. rewrite !(bool_decide_eq_false_2 (@eq (CPtr byte) (Some (data ++ rest)) None)) by done.
  rewrite (proj2 (Z.eqb_neq count 0)), (proj2 (Z.eqb_neq (blen data) 0)), Hi by nia. unfold copied.
  rewrite (Z.ltb_antisym _ room). destruct (Z.leb_spec count room) as [Hge|Hlt]; cbn [negb]; rewrite ?orb_true_r; [|done].
  rewrite (proj2 (Z.eqb_neq room 0)) by lia. cbn [orb]. rewrite (proj2 (Z.ltb_ge usize_max _)) by (unfold usize_max; lia).
  rewrite <- Hd. assert (blen data = nlen data) as Hbn by done.
  rewrite Hbn, (points_to_read _ _ data) by apply points_to_all. cbn [mbind res_mbind res_bind].
  rewrite copy_front by (unfold nlen, blen in *; nia). cbn [mbind res_mbind res_bind]. rewrite Hk.
  split; [done|]. split; [|done]. unfold extract_typed_into. rewrite Hp.
  destruct (vectorize_ok T data rest count) as (vs & Hvs & He & _); [done|done|unfold usize_max; lia|].
  rewrite Hvs. cbn [mbind res_mbind res_bind]. rewrite He, copy_front by (unfold nlen, blen in *; nia). done.
Qed.

(** The elements of a payload, read by the accessor of the type's own kind. *)
Lemma data_as_payload T p data count : payload_bytes p = Ok data -> blen data = count * WIDTH T -> 0 < count ->
  get_data_type (ty p) = prim_kind T ->
  exists vals, data_as T p = Ok vals /\ encode_slice_le T vals = data /\ nlen vals = count.
Proof.
  intros Hp Hd Hc Hk. pose proof (WIDTH_pos T). unfold data_as, as_le_bytes, ensure_kind. rewrite decide_True, Hp by done.
  cbn [mbind res_mbind res_bind]. cbn zeta. rewrite Hd, Z.mod_mul, Z.div_mul by lia. cbn [negb Z.eqb].
  destruct (encode_decode T (Z.to_nat count) data) as (vs & -> & He & _); [unfold blen in Hd; nia|].
  exists vs. split; [done|]. split; [done|]. pose proof (blen_encode T vs) as Hb. rewrite He, Hd in Hb. unfold nlen. nia.
Qed.

Lemma view_payload view eps snd data p :
  STACK_PAYLOAD_SIZE < 2 ^ 63 -> 0 <= v_ty view -> Forall (fun e => 0 <= e) eps -> view_shows view eps snd data ->
  view_to_packet view = Ok (Some p) -> payload_bytes p = Ok data.
Proof.
  intros Hs Hty He Hv Hp. destruct (view_to_packet_cases view eps snd data Hs Hty He Hv) as [[_ E]|[_ E]]; rewrite E in Hp; [|done].
  apply bind_ok in Hp as (q & Hq & [= ->]). apply packet_new_ok in Hq as (Hok & _); [|done]. apply (po_payload _ _ Hok).
Qed.

(** C22. Every way of copying a payload out of a view gives the payload.  With a
    payload of [count] elements of the width of [T] (and fewer than 2^31 bytes),
    whatever the pointed-to memory holds behind it: asked with no buffer or with
    room for less, every function answers the number needed (bytes for
    [seds_pkt_copy_bytes], elements for the others) and writes nothing; with room
    it leaves in the buffer exactly the payload followed by what was there.  The
    getters [seds_pkt_get_f32], ..., [seds_pkt_get_bool] give the elements of the
    type's own kind, and refuse a view that makes no packet and every other kind,
    with nothing written. *)
Theorem payload_copies_correct view eps snd data T kind count :
  STACK_PAYLOAD_SIZE < 2 ^ 63 -> 0 <= v_ty view -> Forall (fun e => 0 <= e) eps ->
  view_shows view eps snd data -> elem_type kind (WIDTH T) = Some T ->
  blen data = count * WIDTH T -> 0 < count -> blen data < 2 ^ 31 ->
  (forall mem len, 0 <= len <= blen mem ->
    seds_pkt_copy_bytes (Some view) (Some mem) len = Ok (blen data, copied_to data mem len)
    /\ forall l, seds_pkt_copy_bytes (Some view) None l = Ok (blen data, None))
  /\ (forall mem room, 0 <= room -> room * WIDTH T <= blen mem ->
      let copied := Some (if count <=? room then data ++ drop (length data) mem else mem) in
      seds_pkt_copy_data (Some view) (WIDTH T) (Some mem) room = Ok (count, copied)
      /\ seds_pkt_get_typed (Some view) (Some mem) room (WIDTH T) kind = Ok (count, copied)
      /\ forall r, seds_pkt_copy_data (Some view) (WIDTH T) None r = Ok (count, None)
           /\ seds_pkt_get_typed (Some view) None r (WIDTH T) kind = Ok (count, None))
  /\ (forall p out room, view_to_packet view = Ok (Some p) -> 0 <= room <= nlen out ->
      if decide (get_data_type (ty p) = prim_kind T) then
        exists vals, encode_slice_le T vals = data /\ nlen vals = count
          /\ seds_pkt_get T (Some view) (Some out) room = Ok (count, copied_to vals out room)
          /\ forall r, seds_pkt_get T (Some view) None r = Ok (count, None)
      else exists e, seds_pkt_get T (Some view) (Some out) room = Ok (status_from_err e, Some out))
  /\ (forall p out room, view_to_packet view = Ok (Some p) -> 0 <= room <= nlen out ->
      if decide (get_data_type (ty p) = TBool) then
        seds_pkt_get_bool (Some view) (Some out) room
        = Ok (blen data, copied_to (map (fun b => negb (u8 b =? 0)) data) out room)
      else exists e, seds_pkt_get_bool (Some view) (Some out) room = Ok (status_from_err e, Some out))
  /\ (view_to_packet view = Ok None -> forall out room,
      seds_pkt_get T (Some view) out room = Ok (status_from_err BadArg, out)
      /\ forall outb, seds_pkt_get_bool (Some view) outb room = Ok (status_from_err BadArg, outb)).
Proof.
  intros Hst Hty He Hv Hk Hd Hc Hm. pose proof (WIDTH_pos T). assert (0 < blen data < 2 ^ 31) as Hb by nia.
  pose proof (fun p => view_payload view eps snd data p Hst Hty He Hv) as Hpay.
  split; [intros mem len; by eapply copy_bytes_spec|]. split; [intros mem room Hr Hmem; by eapply copy_elements_spec|].
  unfold seds_pkt_get, seds_pkt_get_bool, seds_pkt_get_with, packet_or_status. split; [|split].
  - intros p out room Hp Hr. rewrite Hp. cbn [mbind res_mbind res_bind]. destruct (decide _) as [Hkd|Hkd].
    + destruct (data_as_payload T p data count) as (vals & -> & Hen & Hn); [by apply Hpay|done..|]. exists vals.
      split; [done|]. split; [done|]. rewrite <- Hn. apply copy_values_spec; [nia|done].
    + unfold data_as, as_le_bytes, ensure_kind. rewrite decide_False by done. by eexists.
  - intros p out room Hp Hr. rewrite Hp. cbn [mbind res_mbind res_bind]. unfold data_as_bool, ensure_kind. destruct (decide _) as [Hkd|Hkd].
    + rewrite (Hpay _ Hp). cbn [mbind res_mbind res_bind]. set (vals := map _ data).
      assert (blen data = nlen vals) as Hn by (unfold vals, blen, nlen; by rewrite length_map). rewrite Hn. apply copy_values_spec; [lia|done].
    + by eexists.
  - intros Hp out room. by rewrite Hp.
Qed.
End CopyFacts.

(** ** Serialization across the boundary *)

Section WireFacts.
Context `{Config} `{Schema} `{ExternalOk}.
Context (Hschema : SchemaOk _).

(** What a convertible view converts to. *)
Lemma view_packet view eps snd data p :
  STACK_PAYLOAD_SIZE < 2 ^ 63 -> 0 <= v_ty view -> Forall (fun e => 0 <= e) eps -> view_shows view eps snd data ->
  view_to_packet view = Ok (Some p) ->
  view_valid view eps snd data /\ packet_new (v_ty view) eps snd (v_timestamp view) data = Ok p.
Proof.
  intros Hstack Hty Heps Hv Hp.
  destruct (view_to_packet_cases view eps snd data Hstack Hty Heps Hv) as [[Hok E]|[_ E]]; rewrite E in Hp; [|done].
  split; [done|]. by apply bind_ok in Hp as (q & -> & [= ->]).
Qed.

Lemma bytes_arg_read l rest : bytes_arg (Some (l ++ rest)) (blen l) = Ok (Some l).
Proof.
  unfold bytes_arg. rewrite bool_decide_eq_false_2 by done. rewrite andb_false_r.
  assert (blen l = nlen l) as -> by done. by rewrite (points_to_read _ _ l) by apply points_to_all.
Qed.

(** The packet with its endpoints sorted is one the constructor builds, too. *)
Lemma canonical_new p data : packet_ok p data -> std_new data = Ok (payload p) ->
  packet_new (ty p) (sort_dedup (pkt_endpoints p)) (sender p) (timestamp p) data = Ok (canonical p).
Proof.
  intros Hok Hs. destruct (packet_new_cases (ty p) (sort_dedup (pkt_endpoints p)) (sender p) (timestamp p) data)
    as [[Hnil _]|[(_ & Hc & _)|(_ & _ & ->)]].
  - exfalso. apply (po_eps _ _ Hok), elem_of_nil_inv. intros e Hin.
    apply elem_of_sort_dedup in Hin. rewrite Hnil in Hin. by apply elem_of_nil in Hin.
  - by destruct (Hc (po_content _ _ Hok)).
  - rewrite Hs. cbn. unfold canonical. by rewrite (po_size _ _ Hok).
Qed.

Lemma canonical_view p data : STACK_PAYLOAD_SIZE < 2 ^ 63 ->
  wire_ok p data -> packet_ok p data -> std_new data = Ok (payload p) ->
  exists ov, view_of (canonical p) (pkt_endpoints (canonical p)) (nlen (pkt_endpoints (canonical p))) = Ok ov
    /\ view_to_packet ov = Ok (Some (canonical p)).
Proof.
  intros Hstack Hw Hok Hs. pose proof (canonical_new p data Hok Hs) as Hnew. set (q := canonical p) in *.
  destruct (view_of_shows q data (nlen (pkt_endpoints q)) [] (wo_payload _ _ Hw) eq_refl) as (ov & Ho & O1 & O2 & O3 & Os).
  rewrite app_nil_r in Ho. exists ov. split; [done|].
  assert (Forall valid_ep (pkt_endpoints q)) as Hve.
  { apply Forall_forall. intros e He. change (pkt_endpoints q) with (sort_dedup (pkt_endpoints p)) in He.
    rewrite elem_of_sort_dedup in He. revert e He. apply Forall_forall, (wo_eps _ _ Hw). }
  pose proof (packet_new_ok _ _ _ _ _ _ Hstack Hnew) as (Hqok & _).
  destruct (view_to_packet_cases ov (pkt_endpoints q) (sender q) data) as [[_ ->]|[Hn _]]; try done.
  - rewrite O1. apply (wo_ty _ _ Hw).
  - eapply Forall_impl; [exact Hve|]. intros e He. apply He.
  - rewrite O1, O2. change (ty q) with (ty p). change (timestamp q) with (timestamp p).
    change (sender q) with (sender p). change (pkt_endpoints q) with (sort_dedup (pkt_endpoints p)). by rewrite Hnew.
  - exfalso. apply Hn. constructor; rewrite ?O1, ?O3.
    + apply (wo_ty _ _ Hw).
    + done.
    + apply (po_eps _ _ Hqok).
    + apply (wo_utf8 _ _ Hw).
    + apply (po_size _ _ Hqok).
    + apply (po_content _ _ Hqok).
Qed.

(** Reading a serialized packet from C memory. *)
Lemma c_decode p data w rest : STACK_PAYLOAD_SIZE < 2 ^ 63 ->
  wire_ok p data -> packet_ok p data -> std_new data = Ok (payload p) -> serialize_packet p = Ok w ->
  let mem := Some (w ++ rest) in
  seds_pkt_validate_serialized mem (blen w) = Ok 0
  /\ (exists owned ov, seds_pkt_deserialize_owned mem (blen w) = Ok (Some owned)
      /\ seds_owned_pkt_view (Some owned) = Ok (0, Some ov) /\ view_to_packet ov = Ok (Some (canonical p)))
  /\ seds_pkt_deserialize_header_owned mem (blen w)
     = Ok (Some {| oh_ty := ty p; oh_sender := sender p; oh_endpoints_u32 := sort_dedup (pkt_endpoints p);
                   oh_timestamp := timestamp p |}).
Proof.
  intros Hstack Hw Hok Hs Hser mem. pose proof (sent_plain p w Hser) as Hsent.
  assert (packet_new (ty p) (pkt_endpoints p) (sender p) (timestamp p) data = Ok p) as Hnew.
  { destruct (packet_new_cases (ty p) (pkt_endpoints p) (sender p) (timestamp p) data)
      as [[Hnil _]|[(_ & Hc & _)|(_ & _ & ->)]].
    - by destruct (po_eps _ _ Hok).
    - by destruct (Hc (po_content _ _ Hok)).
    - rewrite Hs. cbn. rewrite <- (po_size _ _ Hok). by destruct p. }
  destruct (sent_decoded Hschema _ _ _ _ _ _ _ _ Hstack Hnew Hw Hsent) as [Hd Hval];
    [by destruct (is_reliable_type _)|].
  destruct (peek_sent Hschema _ _ _ _ Hw Hsent) as (Hpeek & _).
  unfold seds_pkt_validate_serialized, seds_pkt_deserialize_owned, seds_pkt_deserialize_header_owned, mem.
  rewrite bytes_arg_read. cbn [mbind res_mbind res_bind]. rewrite Hd, Hval, Hpeek. split; [done|]. split; [|done].
  destruct (canonical_view p data Hstack Hw Hok Hs) as (ov & Ho & Hback).
  exists {| op_inner := canonical p; op_endpoints_u32 := pkt_endpoints (canonical p) |}, ov.
  split; [done|]. unfold seds_owned_pkt_view. cbn [op_inner op_endpoints_u32]. change DataEndpoint with Z in Ho. by rewrite Ho.
Qed.

(** Serialization through the C interface.  For a view that converts to a
    packet: the length asked for is the length of the frame, and so is the answer
    to a call without enough room, which writes nothing; with enough room the
    buffer holds the frame, then what was there.  That memory, given back, is a
    valid packet, whose owned copy has a view that converts to the same packet
    with its endpoints in ascending order, and whose header has the packet's
    type, sender and timestamp. *)
Theorem c_serialize_roundtrip view eps snd data p w mem n :
  STACK_PAYLOAD_SIZE < 2 ^ 63 -> 0 <= v_ty view -> Forall (fun e => 0 <= e) eps -> view_shows view eps snd data ->
  view_to_packet view = Ok (Some p) -> is_u64 (v_timestamp view) -> blen snd + blen data < 2 ^ 62 ->
  serialize_packet p = Ok w -> blen w < 2 ^ 31 ->
  seds_pkt_serialize_len (Some view) = Ok (blen w)
  /\ seds_pkt_serialize (Some view) None 0 = Ok (blen w, None)
  /\ (n < blen w -> seds_pkt_serialize (Some view) (Some mem) n = Ok (blen w, Some mem))
  /\ (blen w <= n <= blen mem -> exists mem',
      seds_pkt_serialize (Some view) (Some mem) n = Ok (blen w, Some mem') /\ mem' = w ++ drop (length w) mem
      /\ seds_pkt_validate_serialized (Some mem') (blen w) = Ok 0
      /\ (exists owned ov, seds_pkt_deserialize_owned (Some mem') (blen w) = Ok (Some owned)
          /\ seds_owned_pkt_view (Some owned) = Ok (0, Some ov) /\ view_to_packet ov = Ok (Some (canonical p)))
      /\ seds_pkt_deserialize_header_owned (Some mem') (blen w)
         = Ok (Some {| oh_ty := v_ty view; oh_sender := snd; oh_endpoints_u32 := sort_dedup eps;
                       oh_timestamp := v_timestamp view |})).
Proof.
  intros Hstack Hty Heps Hv Hp Hts Hlen Hser Hshort.
  destruct (view_packet _ _ _ _ _ Hstack Hty Heps Hv Hp) as [[V1 V2 V3 V4 V5 V6] Hnew].
  apply packet_new_ok in Hnew as (Hok & E1 & E2 & E3 & E4 & Hstore); [|done].
  assert (wire_ok p data) as Hw by (apply packet_wire_ok; rewrite ?E1, ?E2, ?E3, ?E4; done).
  assert (as_i32 (blen w) = blen w) as Hi by (apply as_i32_small; unfold blen in *; lia).
  assert (0 < blen w) as Hpos.
  { destruct (sent_frame p data _ w Hw (sent_plain p w Hser)) as (sc & sw & pc & pw & _ & _ & _ & _ & ->).
    unfold append_crc32. rewrite blen_app, blen_le_bytes. unfold blen. lia. }
  unfold seds_pkt_serialize_len, seds_pkt_serialize, packet_or_status. rewrite Hp. cbn [mbind res_mbind res_bind].
  rewrite (validate_ok p data Hok), (packet_wire_size_exact Hschema p data w Hw Hser), Hser.
  cbn [mbind res_mbind res_bind]. rewrite Hi. split; [done|]. split; [done|]. split.
  - intros Hn. rewrite (proj2 (Z.ltb_lt n _)) by lia. by rewrite orb_true_r.
  - intros Hn. rewrite (proj2 (Z.ltb_ge n _)), (proj2 (Z.eqb_neq n 0)) by lia. cbn [orb].
    rewrite copy_front by (unfold blen, nlen in *; lia). cbn [mbind res_mbind res_bind].
    eexists. split; [done|]. split; [done|].
    destruct (c_decode p data w (drop (length w) mem) Hstack Hw Hok Hstore Hser) as (H1' & H2' & H3').
    split; [done|]. split; [done|]. by rewrite H3', E1, E2, E3, E4.
Qed.
End WireFacts.

(** ** The view of a header *)

(** A header view has no payload memory: every function that converts it makes a
    slice of a NULL pointer, if it does not refuse the type, an endpoint or the
    sender before. *)
Lemma header_view_unusable `{Config} `{Schema} h view :
  seds_owned_header_view (Some h) = (0, Some view) ->
  valid_ty (oh_ty h) -> Forall valid_ep (oh_endpoints_u32 h) -> utf8_valid (oh_sender h) = true ->
  seds_pkt_header_string_len (Some view) = Panic.
Proof.
  intros [= <-] Ht He Hu. unfold seds_pkt_header_string_len, packet_or_status, view_to_packet, type_try_from_u32.
  cbn [v_ty v_endpoints v_num_endpoints v_payload v_payload_len].
  rewrite (proj2 (Z.ltb_ge _ _)) by apply Ht.
  rewrite (points_to_read _ _ (oh_endpoints_u32 h)) by apply points_to_exact. cbn [mbind res_mbind res_bind].
  destruct (try_endpoints (oh_endpoints_u32 h)) as [[-> _]|[_ Hn]].
  { eapply Forall_impl; [exact He|]. intros e Hv. apply Hv. }
  2: { by destruct Hn. }
  rewrite (view_sender_read _ (oh_sender h)) by (right; apply points_to_exact). by rewrite Hu.
Qed.

(** ** Examples *)

Definition gps_view : SedsPacketView :=
  match @callback_view gps_packet with
  | Ok v => v
  | _ => {| v_ty := 0; v_data_size := 0; v_sender := None; v_sender_len := 0; v_endpoints := None; v_num_endpoints := 0;
            v_timestamp := 0; v_payload := None; v_payload_len := 0 |}
  end.

Lemma gps_view_shows : view_shows gps_view [1; 0] long_sender (encode_slice_le PF32 gps_values).
Proof.
  constructor.
  - split; [reflexivity|]. exists (replicate 14 0). vm_compute. reflexivity.
  - right. split; [reflexivity|]. exists []. vm_compute. reflexivity.
  - split; [reflexivity|]. exists []. vm_compute. reflexivity.
Qed.

Lemma packet_views_correct_witness :
  @view_to_packet default_config default_schema gps_view = Ok (Some gps_packet)
  /\ exists cv, callback_view gps_packet = Ok cv /\ @view_to_packet default_config default_schema cv = Ok (Some gps_packet).
Proof.
  assert (@view_to_packet default_config default_schema gps_view = Ok (Some gps_packet)) as E by (vm_compute; reflexivity).
  split; [exact E|].
  destruct (@packet_views_correct default_config default_schema gps_view [1; 0] long_sender (encode_slice_le PF32 gps_values))
    as (_ & _ & Hp).
  - vm_compute; reflexivity.
  - vm_compute; discriminate.
  - repeat constructor; discriminate.
  - exact gps_view_shows.
  - destruct (Hp _ E) as (_ & cv & _ & Hc & _ & Hb & _). exists cv. split; [exact Hc|exact Hb].
Defined.

Lemma payload_copies_correct_witness :
  seds_pkt_get_typed (Some gps_view) (Some (replicate 16 (b8 255))) 4 4 SEDS_EK_FLOAT
  = Ok (3, Some (encode_slice_le PF32 gps_values ++ replicate 4 (b8 255)))
  /\ seds_pkt_copy_bytes (Some gps_view) (Some (replicate 16 (b8 255))) 11 = Ok (12, Some (replicate 16 (b8 255)))
  /\ @seds_pkt_get default_config default_schema PF32 (Some gps_view) (Some [7; 7; 7]) 3 = Ok (3, Some gps_values).
Proof.
  destruct (@payload_copies_correct default_config default_schema gps_view [1; 0] long_sender (encode_slice_le PF32 gps_values)
    PF32 SEDS_EK_FLOAT 3) as (Hb & Hc & Hg & _).
  - vm_compute; reflexivity.
  - vm_compute; discriminate.
  - repeat constructor; discriminate.
  - exact gps_view_shows.
  - reflexivity.
  - reflexivity.
  - reflexivity.
  - vm_compute; reflexivity.
  - destruct (Hc (replicate 16 (b8 255)) 4 ltac:(discriminate) ltac:(vm_compute; discriminate)) as (_ & E & _).
    destruct (Hb (replicate 16 (b8 255)) 11 ltac:(vm_compute; split; discriminate)) as (Eb & _).
    split; [exact E|]. split; [exact Eb|].
    specialize (Hg gps_packet [7; 7; 7] 3 ltac:(vm_compute; reflexivity) ltac:(vm_compute; split; discriminate)).
    rewrite decide_True in Hg by (vm_compute; reflexivity). destruct Hg as (vals & _ & _ & Eg & _).
    assert (@seds_pkt_get default_config default_schema PF32 (Some gps_view) (Some [7; 7; 7]) 3 = Ok (3, Some gps_values)) as Ev
      by (vm_compute; reflexivity).
    rewrite Eg in Ev. exact (eq_trans Eg Ev).
Defined.

Lemma c_serialize_roundtrip_witness :
  exists mem', @seds_pkt_serialize default_config default_schema run_external (Some gps_view) (Some (replicate 200 (b8 0))) 200
    = Ok (blen gps_frame, Some mem')
  /\ @seds_pkt_validate_serialized default_config default_schema run_external (Some mem') (blen gps_frame) = Ok 0.
Proof.
  destruct (@c_serialize_roundtrip default_config default_schema run_external run_external_ok default_schema_ok gps_view
    [1; 0] long_sender (encode_slice_le PF32 gps_values) gps_packet gps_frame (replicate 200 (b8 0)) 200)
    as (_ & _ & _ & Hs).
  - vm_compute; reflexivity.
  - vm_compute; discriminate.
  - repeat constructor; discriminate.
  - exact gps_view_shows.
  - vm_compute; reflexivity.
  - vm_compute; split; [discriminate|reflexivity].
  - vm_compute; reflexivity.
  - exact gps_serialized.
  - vm_compute; reflexivity.
  - destruct Hs as (mem' & E & _ & Hv & _); [vm_compute; split; discriminate|]. exists mem'. split; [exact E|exact Hv].
Defined.
