(* ===== verification/CHandle.v ===== *)
(** * Handles, callbacks and side administration for C ([src/c_api.rs])

    What the entry points over a router and over a relay share: a handle that
    may be NULL, statuses, the callbacks of C as an environment, and the
    administration of sides and routes, which both offer under the same guards
    and conversions -- written once against the interface [SideAdmin]. *)

From S2P Require Import Prelude Ordered Telemetry Config Schema Queue SmallPayload Wire Packet Serialize Calendar TimeSync Discovery RouterState Routes Reliable TimeRuntime Plan Topology EndToEnd Announce World Text CText CPacket.

(** ** Callbacks *)

(** What the C side answers: status codes of the transmit functions and endpoint
    handlers; [code = 0] is success.  The gates and the clock are as in
    [Environment]. *)
Record CCallbacks := {
  c_ms_at : Z -> nat -> Z;
  c_ns_at : Z -> nat -> Z;
  c_gate_busy : Z -> bool;
  c_isr_busy : Z -> bool;
  c_transmit : Z -> RouterSideId -> nat -> list byte -> Z;
  c_transmit_packet : Z -> RouterSideId -> nat -> SedsPacketView -> Z;
  c_packet_handler : Z -> EndpointHandler -> nat -> SedsPacketView -> Z;
  c_serialized_handler : Z -> EndpointHandler -> nat -> list byte -> Z
}.

(** The clock of a handle made with no clock callback stands still. *)
Definition FfiClock_now_ms (cb : option (Z -> nat -> Z)) (n : Z) (i : nat) : Z :=
  match cb with Some f => f n i | None => 0 end.

Definition callback_result (what : string) (code : Z) : TelemetryResult unit :=
  if code =? status_from_result_code SedsOk then Ok tt else Err (Io what).

(** The closures around the C functions; a packet is shown through a view. *)
Definition show_packet (what : string) (f : SedsPacketView -> Z) (pkt : Packet) : TelemetryResult unit :=
  view ← callback_view pkt; callback_result what (f view).

Definition c_environment (bytes_error packet_error : string) (cb : CCallbacks) : Environment :=
  {| ms_at := c_ms_at cb; ns_at := c_ns_at cb; gate_busy := c_gate_busy cb; isr_busy := c_isr_busy cb;
     side_answer n side i arg :=
       match arg with
       | ArgBytes bytes => callback_result bytes_error (c_transmit cb n side i bytes)
       | ArgPacket pkt => show_packet packet_error (c_transmit_packet cb n side i) pkt
       end;
     handler_answer n h i arg :=
       match arg with
       | ArgBytes bytes => callback_result "handler error" (c_serialized_handler cb n h i bytes)
       | ArgPacket pkt => show_packet "handler error" (c_packet_handler cb n h i) pkt
       end |}.

Definition router_environment : CCallbacks -> Environment := c_environment "router side tx error" "router side tx error".
Definition relay_environment : CCallbacks -> Environment := c_environment "relay tx error" "relay packet tx error".

(** ** Handles *)

Section Handles.
Context {S : Type}.

(** A handle, NULL or the object it owns, and a call on it. *)
Definition CCall (A : Type) : Type := option S -> option S * TelemetryResult A.

(** [if r.is_null() || refused { return refusal }], then the call. *)
Definition on_handle {A} (refusal : A) (refused : bool) (m : S -> S * TelemetryResult A) : CCall A := fun r =>
  match r with
  | None => (None, Ok refusal)
  | Some s => if refused then (Some s, Ok refusal) else let '(s, res) := m s in (Some s, res)
  end.

Definition bad_arg : Z := status_from_err BadArg.

(** [ok_or_status(m)] *)
Definition status (m : S -> S * TelemetryResult unit) : S -> S * TelemetryResult Z := fun s =>
  let '(s, r) := m s in (s, ok_or_status r).

(** The argument is converted first; a failed conversion is answered. *)
Definition status_with {A} (arg : TelemetryResult A) (m : A -> S -> S * TelemetryResult unit) : S -> S * TelemetryResult Z :=
  match arg with
  | Ok a => status (m a)
  | Err e => fun s => (s, Ok (status_from_err e))
  | Panic => fun s => (s, Panic)
  end.

Definition with_status (refused : bool) (m : S -> S * TelemetryResult unit) : CCall Z := on_handle bad_arg refused (status m).

(** Operations that answer whether they queued something; the answer is stored
    through [out_did_queue], which is left alone after an error. *)
Definition polled (m : S -> S * TelemetryResult bool) : CCall (Z * option bool) :=
  on_handle (bad_arg, None) false (fun s =>
    let '(s, r) := m s in
    (s, match r with
        | Ok did_queue => Ok (status_from_result_code SedsOk, Some did_queue)
        | Err e => Ok (status_from_err e, None)
        | Panic => Panic
        end)).

(** Operations on received bytes, guarded by [len > 0 && bytes.is_null()]. *)
Definition bytes_entry (m : list byte -> S -> S * TelemetryResult unit) (bytes : CPtr byte) (len : Z) : CCall Z :=
  on_handle bad_arg ((0 <? len) && bool_decide (bytes = None)) (status_with (from_raw_parts bytes len) m).

(** Operations on serialized bytes, guarded by [bytes.is_null()]. *)
Definition nonnull_entry (m : list byte -> S -> S * TelemetryResult unit) (bytes : CPtr byte) (len : Z) : CCall Z :=
  on_handle bad_arg (bool_decide (bytes = None)) (status_with (from_raw_parts bytes len) m).

(** [view_to_packet]'s [Err(())] is answered [InvalidType]. *)
Definition packet_arg `{Config} `{Schema} (view : SedsPacketView) : TelemetryResult Packet :=
  match view_to_packet view with
  | Ok (Some p) => Ok p
  | Ok None => Err InvalidType
  | Err e => Err e
  | Panic => Panic
  end.

Definition view_entry `{Config} `{Schema} (m : Packet -> S -> S * TelemetryResult unit) (view : option SedsPacketView) : CCall Z :=
  match view with
  | None => on_handle bad_arg true (fun s => (s, Panic))
  | Some view => on_handle bad_arg false (status_with (packet_arg view) m)
  end.

(** The answer of a text function, with what its buffer holds. *)
Definition text_entry (text : S -> S * TelemetryResult Str) (buf : CPtr byte) (buf_len : Z) : CCall (Z * CPtr byte) :=
  on_handle (bad_arg, buf) false (fun s =>
    let '(s, r) := text s in (s, t ← r; write_str_to_buf t buf buf_len)).

Definition text_len_entry (text : S -> S * TelemetryResult Str) : CCall Z :=
  on_handle bad_arg false (fun s => let '(s, r) := text s in (s, t ← r; Ok (text_len t))).
End Handles.

#[global] Arguments CCall S A : clear implicits.

(** ** Side and route administration *)

(** What a router and a relay offer for it. *)
Class SideAdmin (S : Type) := {
  admin_add_side : Str -> RouterTxHandlerFn -> RouterSideOptions -> S -> S * TelemetryResult RouterSideId;
  admin_remove_side : RouterSideId -> S -> S * TelemetryResult unit;
  admin_set_ingress : RouterSideId -> bool -> S -> S * TelemetryResult unit;
  admin_set_egress : RouterSideId -> bool -> S -> S * TelemetryResult unit;
  admin_set_route : option RouterSideId -> RouterSideId -> bool -> S -> S * TelemetryResult unit;
  admin_clear_route : option RouterSideId -> RouterSideId -> S -> S * TelemetryResult unit;
  admin_set_typed_route : option RouterSideId -> DataType -> RouterSideId -> bool -> S -> S * TelemetryResult unit;
  admin_clear_typed_route : option RouterSideId -> DataType -> RouterSideId -> S -> S * TelemetryResult unit;
  admin_set_mode : option RouterSideId -> RouteSelectionMode -> S -> S * TelemetryResult unit;
  admin_clear_mode : option RouterSideId -> S -> S * TelemetryResult unit;
  admin_set_weight : option RouterSideId -> RouterSideId -> Z -> S -> S * TelemetryResult unit;
  admin_clear_weight : option RouterSideId -> RouterSideId -> S -> S * TelemetryResult unit;
  admin_set_priority : option RouterSideId -> RouterSideId -> Z -> S -> S * TelemetryResult unit;
  admin_clear_priority : option RouterSideId -> RouterSideId -> S -> S * TelemetryResult unit
}.

Definition route_selection_mode_from_i32 (x : Z) : TelemetryResult RouteSelectionMode :=
  if x =? 0 then Ok Fanout else if x =? 1 then Ok Weighted else if x =? 2 then Ok Failover else Err BadArg.

(** [src_side_id]: -1 stands for locally originated traffic. *)
Definition source_of (src_side_id : Z) : option RouterSideId := if src_side_id <? 0 then None else Some src_side_id.

Definition bad_source (src_side_id : Z) : bool := src_side_id <? -1.
Definition bad_route (src_side_id dst_side_id : Z) : bool := (dst_side_id <? 0) || bad_source src_side_id.

(** A name that is NULL, empty or not UTF-8 is the empty name. *)
Definition side_name_arg (name : CPtr byte) (name_len : Z) : TelemetryResult Str :=
  if bool_decide (name = None) || (name_len =? 0) then Ok []
  else bytes ← from_raw_parts name name_len; Ok (if utf8_valid bytes then bytes else []).

Definition side_options (reliable : bool) : RouterSideOptions :=
  {| reliable_enabled := reliable; link_local_enabled := false;
     ingress_enabled := ingress_enabled side_options_default; egress_enabled := egress_enabled side_options_default |}.

Section Admin.
Context `{Schema} {S : Type} `{SideAdmin S}.

(** [tx]: whether there is a callback. *)
Definition c_add_side (handler : RouterTxHandlerFn) (name : CPtr byte) (name_len : Z) (tx : bool) (reliable : bool) : CCall S Z :=
  on_handle bad_arg false (fun s =>
    match side_name_arg name name_len with
    | Ok side_name =>
        if negb tx then (s, Ok bad_arg)
        else
          let '(s, r) := admin_add_side side_name handler (side_options reliable) s in
          (s, side_id ← r; Ok (as_i32 side_id))
    | _ => (s, Panic)
    end).

Definition c_remove_side (side_id : Z) : CCall S Z := with_status (side_id <? 0) (admin_remove_side side_id).

Definition c_set_side_ingress_enabled (side_id : Z) (enabled : bool) : CCall S Z :=
  with_status (side_id <? 0) (admin_set_ingress side_id enabled).

Definition c_set_side_egress_enabled (side_id : Z) (enabled : bool) : CCall S Z :=
  with_status (side_id <? 0) (admin_set_egress side_id enabled).

Definition c_set_route (src dst : Z) (enabled : bool) : CCall S Z :=
  with_status (bad_route src dst) (admin_set_route (source_of src) dst enabled).

Definition c_clear_route (src dst : Z) : CCall S Z := with_status (bad_route src dst) (admin_clear_route (source_of src) dst).

Definition c_set_typed_route (src ty_u32 dst : Z) (enabled : bool) : CCall S Z :=
  on_handle bad_arg (bad_route src dst)
    (status_with (dtype_from_u32 ty_u32) (fun t => admin_set_typed_route (source_of src) t dst enabled)).

Definition c_clear_typed_route (src ty_u32 dst : Z) : CCall S Z :=
  on_handle bad_arg (bad_route src dst)
    (status_with (dtype_from_u32 ty_u32) (fun t => admin_clear_typed_route (source_of src) t dst)).

Definition c_set_source_route_mode (src mode : Z) : CCall S Z :=
  on_handle bad_arg (bad_source src)
    (status_with (route_selection_mode_from_i32 mode) (admin_set_mode (source_of src))).

Definition c_clear_source_route_mode (src : Z) : CCall S Z := with_status (bad_source src) (admin_clear_mode (source_of src)).

Definition c_set_route_weight (src dst weight : Z) : CCall S Z :=
  with_status (bad_route src dst) (admin_set_weight (source_of src) dst weight).

Definition c_clear_route_weight (src dst : Z) : CCall S Z := with_status (bad_route src dst) (admin_clear_weight (source_of src) dst).

Definition c_set_route_priority (src dst priority : Z) : CCall S Z :=
  with_status (bad_route src dst) (admin_set_priority (source_of src) dst priority).

Definition c_clear_route_priority (src dst : Z) : CCall S Z :=
  with_status (bad_route src dst) (admin_clear_priority (source_of src) dst).
End Admin.
