(* ===== verification/CRouter.v ===== *)
(** * The router for C ([src/c_api.rs])

    Every entry point [seds_router_*]: construction, sides and routes, the
    network time, logging, reception, transmission and the queues.  A call on
    [Some w] runs the router's operation on the world [w]. *)

From stdpp Require Import gmap.
From S2P Require Import Prelude Ordered Telemetry Config Schema Queue SmallPayload Wire Packet Serialize Calendar TimeSync Discovery RouterState Routes Reliable TimeRuntime Plan Topology EndToEnd Announce World Dispatch Receive Process Text CText CPacket CHandle.

(** ** Data *)

(** A descriptor: the endpoint, and which of the two callbacks are given. *)
Record SedsLocalEndpointDesc := { d_endpoint : Z; packet_handler : bool; serialized_handler : bool }.

Record SedsNetworkTime := {
  has_unix_time_ms : bool; n_unix_time_ms : Z;
  has_year : bool; n_year : Z; has_month : bool; n_month : Z; has_day : bool; n_day : Z;
  has_hour : bool; n_hour : Z; has_minute : bool; n_minute : Z; has_second : bool; n_second : Z;
  has_nanosecond : bool; n_nanosecond : Z
}.

Definition write_network_time (reading : NetworkTimeReading) : SedsNetworkTime :=
  let t := reading_time reading in
  {| has_unix_time_ms := some (unix_time_ms reading); n_unix_time_ms := default 0 (unix_time_ms reading);
     has_year := some (p_year t); n_year := default 0 (p_year t);
     has_month := some (p_month t); n_month := default 0 (p_month t);
     has_day := some (p_day t); n_day := default 0 (p_day t);
     has_hour := some (p_hour t); n_hour := default 0 (p_hour t);
     has_minute := some (p_minute t); n_minute := default 0 (p_minute t);
     has_second := some (p_second t); n_second := default 0 (p_second t);
     has_nanosecond := some (p_nanosecond t); n_nanosecond := default 0 (p_nanosecond t) |}.

(** [has.then_some(v)] *)
Definition then_some (has : bool) (v : Z) : option Z := if has then Some v else None.

(** ** Construction *)

Section New.
Context `{Config} `{Schema} `{Layout} `{RouterLayout}.

(** The handlers of a list of descriptors; [None] is the NULL that
    [seds_router_new] returns. *)
Fixpoint desc_handlers (l : list SedsLocalEndpointDesc) : option (list EndpointHandler) :=
  match l with
  | [] => Some []
  | desc :: l =>
      e ← endpoint_try_from_u32 (d_endpoint desc);
      if endpoint_is_router_internal e then None
      else
        v ← desc_handlers l;
        Some ((if packet_handler desc then [{| endpoint := e; handler := PacketHandler |}] else [])
              ++ (if serialized_handler desc then [{| endpoint := e; handler := SerializedHandler |}] else []) ++ v)
  end.

(** The router and its state; [None] is NULL. *)
Definition seds_router_new (handlers : CPtr SedsLocalEndpointDesc) (n_handlers : Z)
    : TelemetryResult (option (Router * World)) :=
  descs ← (if (0 <? n_handlers) && negb (bool_decide (handlers = None)) then from_raw_parts handlers n_handlers else Ok []);
  match desc_handlers descs with
  | None => Ok None
  | Some v =>
      cfg ← router_config_new v;
      let cfg := {| handlers := Plan.handlers cfg; cfg_reliable_enabled := cfg_reliable_enabled cfg;
                    cfg_sender := cfg_sender cfg; cfg_timesync := Some default_timesync |} in
      state ← router_inner_new;
      isr ← new (T := RouterRxItem) MAX_QUEUE_BUDGET STARTING_QUEUE_SIZE QUEUE_GROW_STEP;
      Ok (Some ({| router_sender := router_config_sender cfg; router_cfg := cfg |},
                {| locked_state := state; time_state := runtime_new (cfg_timesync cfg);
                   isr_queue := {| busy := false; isr_q := isr |}; tick := 0; events := [] |}))
  end.
End New.

Section Entries.
Context `{Config} `{Schema} `{External} `{Layout} `{RouterLayout} `{DebugText}.
Context (self : Router) (env : Environment).
Context (depth fuel : nat).

(** ** Sides and routes *)

#[local] Instance router_admin : SideAdmin World := {
  admin_add_side := router_add_side env;
  admin_remove_side := router_remove_side env;
  admin_set_ingress side enabled := router_admin_op env (set_side_ingress_enabled side enabled);
  admin_set_egress side enabled := router_admin_op env (set_side_egress_enabled side enabled);
  admin_set_route src dst enabled := router_admin_op env (set_route src dst enabled);
  admin_clear_route src dst := router_admin_op env (clear_route src dst);
  admin_set_typed_route src t dst enabled := router_admin_op env (set_typed_route src t dst enabled);
  admin_clear_typed_route src t dst := router_admin_op env (clear_typed_route src t dst);
  admin_set_mode src mode := router_admin_op env (set_source_route_mode src mode);
  admin_clear_mode src := router_admin_op env (clear_source_route_mode src);
  admin_set_weight src dst weight := router_admin_op env (set_route_weight src dst weight);
  admin_clear_weight src dst := router_admin_op env (clear_route_weight src dst);
  admin_set_priority src dst priority := router_admin_op env (set_route_priority src dst priority);
  admin_clear_priority src dst := router_admin_op env (clear_route_priority src dst)
}.

Definition seds_router_add_side_serialized : CPtr byte -> Z -> bool -> bool -> CCall World Z := c_add_side HSerialized.
Definition seds_router_add_side_packet : CPtr byte -> Z -> bool -> bool -> CCall World Z := c_add_side HPacket.
Definition seds_router_remove_side : Z -> CCall World Z := c_remove_side.
Definition seds_router_set_side_ingress_enabled : Z -> bool -> CCall World Z := c_set_side_ingress_enabled.
Definition seds_router_set_side_egress_enabled : Z -> bool -> CCall World Z := c_set_side_egress_enabled.
Definition seds_router_set_route : Z -> Z -> bool -> CCall World Z := c_set_route.
Definition seds_router_clear_route : Z -> Z -> CCall World Z := c_clear_route.
Definition seds_router_set_typed_route : Z -> Z -> Z -> bool -> CCall World Z := c_set_typed_route.
Definition seds_router_clear_typed_route : Z -> Z -> Z -> CCall World Z := c_clear_typed_route.
Definition seds_router_set_source_route_mode : Z -> Z -> CCall World Z := c_set_source_route_mode.
Definition seds_router_clear_source_route_mode : Z -> CCall World Z := c_clear_source_route_mode.
Definition seds_router_set_route_weight : Z -> Z -> Z -> CCall World Z := c_set_route_weight.
Definition seds_router_clear_route_weight : Z -> Z -> CCall World Z := c_clear_route_weight.
Definition seds_router_set_route_priority : Z -> Z -> Z -> CCall World Z := c_set_route_priority.
Definition seds_router_clear_route_priority : Z -> Z -> CCall World Z := c_clear_route_priority.

(** ** Network time *)

(** [network_time] and [network_time_ms]: three readings, under the time lock. *)
Definition read_network_time : W (option NetworkTimeReading) :=
  '(now, now_n, now_n') ← ask (fun n => (ms_at env n 0, ns_at env n 0, ns_at env n 1));
  timed (fun st => let '(st, r) := network_time now now_n now_n' st in (st, Ok r)).

Definition read_network_time_ms : W (option Z) :=
  '(now, now_n, now_n') ← ask (fun n => (ms_at env n 0, ns_at env n 0, ns_at env n 1));
  timed (fun st => let '(st, r) := network_time_ms now now_n now_n' st in (st, Ok r)).

(** The status, and what is stored through a pointer that must not be NULL. *)
Definition read_entry {A} (out_null : bool) (m : W (option A)) : CCall World (Z * option A) :=
  on_handle (bad_arg, None) out_null (fun w =>
    let '(w, r) := m w in
    (w, a ← r; Ok match a with
                  | Some a => (status_from_result_code SedsOk, Some a)
                  | None => (status_from_err (Io "network time unavailable"), None)
                  end)).

Definition seds_router_get_network_time_ms (out_null : bool) : CCall World (Z * option Z) :=
  read_entry out_null read_network_time_ms.

Definition seds_router_get_network_time (out_null : bool) : CCall World (Z * option SedsNetworkTime) :=
  read_entry out_null (r ← read_network_time; mret (write_network_time <$> r)).

Definition timesync_role (role : Z) : option TimeSyncRole :=
  if role =? 0 then Some Consumer else if role =? 1 then Some Source else if role =? 2 then Some Auto else None.

Definition seds_router_configure_timesync (enabled : bool)
    (role priority source_timeout_ms announce_interval_ms request_interval_ms : Z) : CCall World Z :=
  on_handle bad_arg false
    (if negb enabled then status (timed_op (set_timesync_config None))
     else
       match timesync_role role with
       | None => fun w => (w, Ok (status_from_err BadArg))
       | Some role =>
           status (timed_op (set_timesync_config (Some
             {| role := role; ts_priority := priority; source_timeout_ms := source_timeout_ms;
                announce_interval_ms := announce_interval_ms; request_interval_ms := request_interval_ms;
                consumer_promotion_enabled := true; cfg_max_slew_ppm := 50000 |})))
       end).

(** The readings of the setters of the local time. *)
Definition source_readings : W Readings := ask (fun n =>
  {| observed_ms := ms_at env n 0; observed_ns := ns_at env n 0; commit_ms := ms_at env n 1; commit_ns := ns_at env n 1 |}).

Definition set_time_entry (f : Readings -> Readings -> Readings -> TimeSyncRuntime -> TimeSyncRuntime) : CCall World Z :=
  with_status false (r_date ← source_readings; r_tod ← source_readings; r_subsec ← source_readings;
                     timed_op (f r_date r_tod r_subsec)).

Definition seds_router_set_local_network_time (has_year : bool) (year : Z) (has_month : bool) (month : Z) (has_day : bool)
    (day : Z) (has_hour : bool) (hour : Z) (has_minute : bool) (minute : Z) (has_second : bool) (second : Z)
    (has_nanosecond : bool) (nanosecond : Z) : CCall World Z :=
  set_time_entry (set_local_network_time
    {| p_year := then_some has_year year; p_month := then_some has_month month; p_day := then_some has_day day;
       p_hour := then_some has_hour hour; p_minute := then_some has_minute minute;
       p_second := then_some has_second second; p_nanosecond := then_some has_nanosecond nanosecond |}).

Definition seds_router_set_local_network_date (year month day : Z) : CCall World Z :=
  set_time_entry (fun a b c => set_local_network_date a b c year month day).
Definition seds_router_set_local_network_time_hm (hour minute : Z) : CCall World Z :=
  set_time_entry (fun a b c => set_local_network_time_hm a b c hour minute).
Definition seds_router_set_local_network_time_hms (hour minute second : Z) : CCall World Z :=
  set_time_entry (fun a b c => set_local_network_time_hms a b c hour minute second).
Definition seds_router_set_local_network_time_hms_millis (hour minute second millisecond : Z) : CCall World Z :=
  set_time_entry (fun a b c => set_local_network_time_hms_millis a b c hour minute second millisecond).
Definition seds_router_set_local_network_time_hms_nanos (hour minute second nanosecond : Z) : CCall World Z :=
  set_time_entry (fun a b c => set_local_network_time_hms_nanos a b c hour minute second nanosecond).
Definition seds_router_set_local_network_datetime (year month day hour minute second : Z) : CCall World Z :=
  set_time_entry (fun a b c => set_local_network_datetime a b c year month day hour minute second).
Definition seds_router_set_local_network_datetime_millis (year month day hour minute second millisecond : Z) : CCall World Z :=
  set_time_entry (fun a b c => set_local_network_datetime_millis a b c year month day hour minute second millisecond).
Definition seds_router_set_local_network_datetime_nanos (year month day hour minute second nanosecond : Z) : CCall World Z :=
  set_time_entry (fun a b c => set_local_network_datetime_nanos a b c year month day hour minute second nanosecond).

(** ** Maintenance *)

Definition seds_router_poll_timesync : CCall World (Z * option bool) := polled (poll_timesync self env).
Definition seds_router_announce_discovery : CCall World Z := with_status false (announce_discovery self env).
Definition seds_router_poll_discovery : CCall World (Z * option bool) := polled (poll_discovery self env).
Definition seds_router_periodic (timeout_ms : Z) : CCall World Z :=
  with_status false (periodic self env depth fuel timeout_ms).
Definition seds_router_periodic_no_timesync (timeout_ms : Z) : CCall World Z :=
  with_status false (periodic_no_timesync self env depth fuel timeout_ms).

(** [router.export_topology()] rendered. *)
Definition router_topology_json : W Str :=
  rt ← (fun w => (w, Ok (time_state w))) : W TimeSyncRuntime;
  '(now, now_n) ← ask (fun n => (ms_at env n 0, ns_at env n 0));
  locked (fun st =>
    let '(st, snap) := export_topology self (local_discovery_timesync_sources self rt now now_n) now st in
    (st, Ok (topology_snapshot_to_json snap))).

Definition seds_router_export_topology_len : CCall World Z := text_len_entry router_topology_json.
Definition seds_router_export_topology : CPtr byte -> Z -> CCall World (Z * CPtr byte) := text_entry router_topology_json.

(** ** Logging *)

Definition call_log_or_queue (T : Prim) (t : DataType) (ts : option Z) (data : list Z) (queue : bool) : W unit :=
  if queue then
    match ts with Some ts => log_queue_ts self t T ts data | None => log_queue self env t T data end
  else
    match ts with Some ts => log_ts self env depth t T ts data | None => log_now self env depth t T data end.

(** An element type, the router's answer, or the failure to read the elements. *)
Definition log_vector (T : Prim) (t : DataType) (ts : option Z) (queue : bool) (vs : TelemetryResult (VectorizeError + list Z))
    : World -> World * TelemetryResult Z :=
  match vs with
  | Ok (inr tmp) => status (call_log_or_queue T t ts tmp queue)
  | Ok (inl _) => fun w => (w, Ok (status_from_err (Io "vectorize_data failed")))
  | Err e => fun w => (w, Err e)
  | Panic => fun w => (w, Panic)
  end.

Definition finish_with (T : Prim) (t : DataType) (ts : option Z) (queue : bool) (padded : list byte)
    (required_elems elem_size : Z) : World -> World * TelemetryResult Z :=
  if decide (get_data_type t = NoData) then status (call_log_or_queue T t ts [] queue)
  else log_vector T t ts queue (vectorize_data T (Some padded) required_elems elem_size []).

(** [let mut tmp = vec![0u8; required]; tmp[..ncopy].copy_from_slice(..)]. *)
Definition pad_to (required : Z) (src : list byte) : TelemetryResult (list byte) :=
  _ ← vec_zeroed required;
  let ncopy := Z.min (blen src) required in
  Ok (take (Z.to_nat ncopy) src ++ replicate (Z.to_nat (required - ncopy)) (b8 0)).

(** A converted argument, or the world untouched. *)
Definition with_arg {A} (arg : TelemetryResult A) (m : A -> World -> World * TelemetryResult Z) : World -> World * TelemetryResult Z :=
  match arg with
  | Ok a => m a
  | Err e => fun w => (w, Ok (status_from_err e))
  | Panic => fun w => (w, Panic)
  end.

(** [data as &[u8]] *)
Definition u8_values (l : list byte) : list Z := map u8 l.

Definition log_fitted (t : DataType) (ts : option Z) (src : list byte) (queue : bool) : World -> World * TelemetryResult Z :=
  match fixed_payload_size_if_static t with
  | Some required =>
      if blen src =? required then status (call_log_or_queue PU8 t ts (u8_values src) queue)
      else with_arg (pad_to required src) (fun tmp => status (call_log_or_queue PU8 t ts (u8_values tmp) queue))
  | None => status (call_log_or_queue PU8 t ts (u8_values src) queue)
  end.

Definition log_guard (n : Z) {T} (data : CPtr T) : bool := (0 <? n) && bool_decide (data = None).

Definition seds_router_log_bytes_ex (ty_u32 : Z) (data : CPtr byte) (len : Z) (timestamp_ms_opt : CPtr Z) (queue : bool)
    : CCall World Z :=
  on_handle bad_arg (log_guard len data)
    (with_arg (dtype_from_u32 ty_u32) (fun t =>
       with_arg (from_raw_parts data len) (fun src =>
         with_arg (opt_ts timestamp_ms_opt) (fun ts => log_fitted t ts src queue)))).

Definition seds_router_log_string_ex (ty_u32 : Z) (bytes : CPtr byte) (len : Z) (timestamp_ms_opt : CPtr Z) (queue : bool)
    : CCall World Z :=
  on_handle bad_arg (log_guard len bytes)
    (with_arg (dtype_from_u32 ty_u32) (fun t =>
       with_arg (from_raw_parts bytes len) (fun src =>
         with_arg (opt_ts timestamp_ms_opt) (fun ts => log_fitted t ts src queue)))).

Definition seds_router_log_f32_ex (ty_u32 : Z) (vals : CPtr Z) (n_vals : Z) (timestamp_ms_opt : CPtr Z) (queue : bool)
    : CCall World Z :=
  on_handle bad_arg (log_guard n_vals vals)
    (with_arg (dtype_from_u32 ty_u32) (fun t =>
       with_arg (from_raw_parts vals n_vals) (fun slice =>
         with_arg (opt_ts timestamp_ms_opt) (fun ts => status (call_log_or_queue PF32 t ts slice queue))))).

Definition seds_router_log_typed_ex (ty_u32 : Z) (data : CPtr byte) (count elem_size elem_kind : Z)
    (timestamp_ms_opt : CPtr Z) (queue : bool) : CCall World Z :=
  on_handle bad_arg (log_guard count data || negb (width_is_valid elem_size))
    (with_arg (dtype_from_u32 ty_u32) (fun t =>
       with_arg (opt_ts timestamp_ms_opt) (fun ts =>
         match fixed_payload_size_if_static t with
         | Some required_bytes =>
             if elem_size =? 0 then fun w => (w, Panic)
             else if negb (required_bytes mod elem_size =? 0) then fun w => (w, Ok (status_from_err BadArg))
             else
               with_arg (from_raw_parts data (sat_mul64 count elem_size)) (fun src =>
                 with_arg (pad_to required_bytes src) (fun padded =>
                   match elem_type elem_kind elem_size with
                   | Some T => finish_with T t ts queue padded (required_bytes / elem_size) elem_size
                   | None => fun w => (w, Ok (status_from_err BadArg))
                   end))
         | None =>
             match elem_type elem_kind elem_size with
             | Some T =>
                 with_arg (vec_zeroed (count * WIDTH T)) (fun _ =>
                   log_vector T t ts queue (vectorize_data T data count (WIDTH T) []))
             | None => fun w => (w, Ok (status_from_err BadArg))
             end
         end))).

Definition seds_router_log_bytes (ty_u32 : Z) (data : CPtr byte) (len : Z) : CCall World Z :=
  seds_router_log_bytes_ex ty_u32 data len None false.
Definition seds_router_log_f32 (ty_u32 : Z) (vals : CPtr Z) (n_vals : Z) : CCall World Z :=
  seds_router_log_f32_ex ty_u32 vals n_vals None false.
Definition seds_router_log_typed (ty_u32 : Z) (data : CPtr byte) (count elem_size elem_kind : Z) : CCall World Z :=
  seds_router_log_typed_ex ty_u32 data count elem_size elem_kind None false.
Definition seds_router_log_queue_typed (ty_u32 : Z) (data : CPtr byte) (count elem_size elem_kind : Z) : CCall World Z :=
  seds_router_log_typed_ex ty_u32 data count elem_size elem_kind None true.

(** ** Receiving and transmitting *)

Definition seds_router_receive_serialized : CPtr byte -> Z -> CCall World Z := bytes_entry (rx_serialized_now self env depth None).
Definition seds_router_receive : option SedsPacketView -> CCall World Z := view_entry (rx_now self env depth None).

Definition seds_router_transmit_message_queue : option SedsPacketView -> CCall World Z :=
  view_entry (fun pkt => tx_queue (RPacket pkt)).
Definition seds_router_transmit_message : option SedsPacketView -> CCall World Z :=
  view_entry (fun pkt => tx_now self env depth (RPacket pkt)).
Definition seds_router_transmit_serialized_message_queue : CPtr byte -> Z -> CCall World Z :=
  nonnull_entry (fun data => tx_queue (RSerialized data)).
Definition seds_router_transmit_serialized_message : CPtr byte -> Z -> CCall World Z :=
  nonnull_entry (fun data => tx_now self env depth (RSerialized data)).

Definition seds_router_rx_serialized_packet_to_queue : CPtr byte -> Z -> CCall World Z := bytes_entry (rx_serialized_queue None).
Definition seds_router_rx_packet_to_queue : option SedsPacketView -> CCall World Z := view_entry (rx_queue None).

Definition seds_router_receive_serialized_from_side (side_id : Z) : CPtr byte -> Z -> CCall World Z :=
  bytes_entry (rx_serialized_now self env depth (Some side_id)).
Definition seds_router_receive_from_side (side_id : Z) : option SedsPacketView -> CCall World Z :=
  view_entry (rx_now self env depth (Some side_id)).
Definition seds_router_rx_serialized_packet_to_queue_from_side (side_id : Z) : CPtr byte -> Z -> CCall World Z :=
  bytes_entry (rx_serialized_queue (Some side_id)).
Definition seds_router_rx_packet_to_queue_from_side (side_id : Z) : option SedsPacketView -> CCall World Z :=
  view_entry (rx_queue (Some side_id)).

(** ** Queues *)

Definition seds_router_process_tx_queue : CCall World Z := with_status false (process_tx_queue self env depth fuel).
Definition seds_router_process_rx_queue : CCall World Z := with_status false (process_rx_queue self env depth fuel).
Definition seds_router_process_all_queues : CCall World Z := with_status false (process_all_queues self env depth fuel).
Definition seds_router_process_tx_queue_with_timeout (timeout_ms : Z) : CCall World Z :=
  with_status false (process_tx_queue_with_timeout self env depth fuel timeout_ms).
Definition seds_router_process_rx_queue_with_timeout (timeout_ms : Z) : CCall World Z :=
  with_status false (process_rx_queue_with_timeout self env depth fuel timeout_ms).
Definition seds_router_process_all_queues_with_timeout (timeout_ms : Z) : CCall World Z :=
  with_status false (process_all_queues_with_timeout self env depth fuel timeout_ms).
Definition seds_router_clear_queues : CCall World Z := with_status false (clear_queues env).
Definition seds_router_clear_rx_queue : CCall World Z := with_status false (clear_rx_queue env).
Definition seds_router_clear_tx_queue : CCall World Z := with_status false clear_tx_queue.
End Entries.

(** ** What is logged *)

(** A payload cut or filled up with zeros to a size. *)
Definition fit (required : Z) (src : list byte) : list byte :=
  take (Z.to_nat required) (src ++ replicate (Z.to_nat required) (b8 0)).

Lemma fit_exact src : fit (blen src) src = src.
Proof. unfold fit, blen. rewrite Nat2Z.id. apply take_app_length. Qed.

Lemma blen_fit required src : 0 <= required -> blen (fit required src) = required.
Proof. intros Hr. unfold fit, blen. rewrite length_take, length_app, length_replicate. lia. Qed.

Lemma pad_to_fit required src : 0 <= required ->
  pad_to required src = if isize_max <? required then Panic else Ok (fit required src).
Proof.
  intros Hr. unfold pad_to, vec_zeroed. destruct (isize_max <? required); [done|]. cbn [mbind res_mbind res_bind]. f_equal.
  unfold fit. destruct (Z.min_spec (blen src) required) as [[Hlt ->]|[Hle ->]]; unfold blen in *.
  - rewrite take_app, !take_ge by (rewrite ?length_replicate; lia). rewrite take_replicate. do 2 f_equal. lia.
  - rewrite take_app, Z.sub_diag. f_equal. replace (Z.to_nat required - length src)%nat with 0%nat by lia. done.
Qed.

Lemma encode_u8 l : encode_slice_le PU8 (u8_values l) = l.
Proof.
  unfold encode_slice_le, u8_values. induction l as [|b l IH]; [done|]. cbn [map concat]. rewrite IH. unfold write_le.
  change (Z.to_nat (WIDTH PU8)) with 1%nat. cbn [le_bytes]. by rewrite b8_u8.
Qed.

Section LogFacts.
Context `{Config} `{Schema} `{External} `{Layout} `{RouterLayout} `{DebugText}.
Context (self : Router) (env : Environment) (depth : nat).

(** The packet depends on the encoded bytes alone. *)
Lemma log_raw_encoded {R} snd t T data ts (f : Packet -> TelemetryResult R) :
  log_raw snd t T data ts f = log_raw snd t PU8 (u8_values (encode_slice_le T data)) ts f.
Proof.
  unfold log_raw. rewrite encode_u8. pose proof (blen_encode T data) as Hb.
  assert (Z.of_nat (length (u8_values (encode_slice_le T data))) * WIDTH PU8 = Z.of_nat (length data) * WIDTH T) as ->.
  { unfold u8_values. rewrite length_map. unfold blen in Hb. rewrite Hb. change (WIDTH PU8) with 1. lia. }
  destruct (element (message_meta t)); [done|].
  assert (wrap 64 (Z.of_nat (length data) * WIDTH T) mod WIDTH T = 0) as ->.
  { assert (exists k, 2 ^ 64 = k * WIDTH T) as [k Hk] by (destruct T; [exists (2^62)|exists (2^61)|exists (2^64)|exists (2^63)|exists (2^62)
      |exists (2^61)|exists (2^60)|exists (2^64)|exists (2^63)|exists (2^62)|exists (2^61)|exists (2^60)]; reflexivity).
    pose proof (WIDTH_pos T) as Hw. unfold wrap. rewrite Hk, Z.mul_mod_distr_r by nia. apply Z.mod_mul. lia. }
  change (WIDTH PU8) with 1. by rewrite Z.mod_1_r.
Qed.

Lemma log_queue_ts_encoded t T ts data w :
  log_queue_ts self t T ts data w = log_queue_ts self t PU8 ts (u8_values (encode_slice_le T data)) w.
Proof. unfold log_queue_ts. by rewrite log_raw_encoded. Qed.

Lemma call_log_encoded T t ts data queue w :
  call_log_or_queue self env depth T t ts data queue w
  = call_log_or_queue self env depth PU8 t ts (u8_values (encode_slice_le T data)) queue w.
Proof.
  unfold call_log_or_queue, log_queue, log_ts, log_now. destruct queue, ts as [ts|].
  - apply log_queue_ts_encoded.
  - rewrite !W_run. destruct (packet_timestamp env w) as [w' [ts| |]]; [|done..]. apply log_queue_ts_encoded.
  - rewrite !W_run. destruct (side_tx_active env w) as [w' [[]| |]]; [|by rewrite log_raw_encoded|done..].
    apply log_queue_ts_encoded.
  - rewrite !W_run. destruct (side_tx_active env w) as [w' [[]| |]]; [|..|done|done].
    + unfold log_queue. rewrite !W_run. destruct (packet_timestamp env w') as [w'' [ts| |]]; [|done..]. apply log_queue_ts_encoded.
    + rewrite !W_run. destruct (packet_timestamp env w') as [w'' [ts| |]]; [|done..]. by rewrite log_raw_encoded.
Qed.

(** The bytes a call for type [t] logs. *)
Definition logged_bytes (t : DataType) (src : list byte) : list byte :=
  match fixed_payload_size_if_static t with Some required => fit required src | None => src end.

(** What one call amounts to: the status of logging these bytes. *)
Definition logs_bytes (t : DataType) (ts : option Z) (queue : bool) (src : list byte) : World -> World * TelemetryResult Z :=
  status (call_log_or_queue self env depth PU8 t ts (u8_values (logged_bytes t src)) queue).

(** The sizes of static types can be allocated. *)
Definition size_ok (t : DataType) : Prop :=
  forall required, fixed_payload_size_if_static t = Some required -> 0 < required <= isize_max.

Lemma static_size_range t required : fixed_payload_size_if_static t = Some required -> 0 <= required.
Proof.
  unfold fixed_payload_size_if_static, get_needed_message_size. destruct (element (message_meta t)); [|done].
  intros [= <-]. unfold wrap. apply Z.mod_pos_bound. lia.
Qed.

Lemma log_fitted_bytes t ts src queue w : size_ok t -> log_fitted self env depth t ts src queue w = logs_bytes t ts queue src w.
Proof.
  intros Hsz. unfold log_fitted, logs_bytes, logged_bytes.
  destruct (fixed_payload_size_if_static t) as [required|] eqn:Es; [|done].
  destruct (Z.eqb_spec (blen src) required) as [<-|Hne]; [by rewrite fit_exact|].
  specialize (Hsz required Es). rewrite pad_to_fit, (proj2 (Z.ltb_ge _ _)) by lia. done.
Qed.

(** Reading elements and logging them is logging their bytes. *)
Lemma log_vector_bytes T t ts queue (src rest : list byte) count w :
  blen src = count * WIDTH T -> 0 < count -> blen src <= usize_max ->
  log_vector self env depth T t ts queue (vectorize_data T (Some (src ++ rest)) count (WIDTH T) []) w
  = status (call_log_or_queue self env depth PU8 t ts (u8_values src) queue) w.
Proof.
  intros Hs Hc Hm. destruct (vectorize_ok T src rest count Hs Hc Hm) as (vs & -> & He & _). cbn [log_vector].
  unfold status. by rewrite call_log_encoded, He.
Qed.

Lemma on_handle_pass {A} (refusal : A) refused (m : World -> World * TelemetryResult A) w :
  refused = false -> on_handle refusal refused m (Some w) = (Some (fst (m w)), snd (m w)).
Proof. intros ->. cbn. by destruct (m w). Qed.

Lemma no_data_size t required : fixed_payload_size_if_static t = Some required -> 0 < required -> get_data_type t <> NoData.
Proof.
  unfold fixed_payload_size_if_static, get_needed_message_size. destruct (element (message_meta t)); [|done].
  intros [= <-] Hr Hn. rewrite Hn in Hr.
  change (data_type_size NoData) with 0 in Hr. by rewrite Z.mul_0_l in Hr.
Qed.

(** The log of a packet that is queued: the packet made of the bytes. *)
Lemma log_queue_packet t ts src w : size_ok t -> blen src <= isize_max ->
  log_queue_ts self t PU8 ts (u8_values (logged_bytes t src)) w
  = (pkt ← answer (packet_new t (endpoints (message_meta t)) (router_sender self) ts (logged_bytes t src));
     queue_item (Broadcast (RPacket pkt)) false) w.
Proof.
  intros Hsz Hs. unfold log_queue_ts, log_raw. rewrite encode_u8. unfold u8_values. rewrite length_map.
  assert (Z.of_nat (length (logged_bytes t src)) * WIDTH PU8 = blen (logged_bytes t src)) as -> by (unfold blen; change (WIDTH PU8) with 1; lia).
  change (WIDTH PU8) with 1. rewrite Z.mod_1_r. cbn [Z.eqb negb].
  assert (match element (message_meta t) with
          | Static _ _ _ => if negb (wrap 64 (blen (logged_bytes t src)) =? get_needed_message_size t)
                            then Err (SizeMismatch (get_needed_message_size t) (wrap 64 (blen (logged_bytes t src)))) else Ok tt
          | Dynamic _ _ => Ok tt
          end = Ok tt :> TelemetryResult unit) as ->.
  2: { cbn [mbind res_mbind res_bind]. by destruct (packet_new _ _ _ _ _). }
  pose proof (Hsz (get_needed_message_size t)) as Hr. unfold logged_bytes, fixed_payload_size_if_static in *.
  destruct (element (message_meta t)); [|done]. specialize (Hr eq_refl). rewrite blen_fit, wrap_small, Z.eqb_refl by (unfold isize_max in *; lia). done.
Qed.

(** Data of any size.  For an existing type and any of the twelve element types,
    with [count] elements in memory: logging them as typed elements, as bytes or
    as a string is one and the same operation on the router, and so is logging
    floats when the size is right.  It logs, for a type of static size, the
    elements' bytes cut or filled up with zeros to that size, and otherwise all
    of them.  Only an element width that does not divide the static size is
    refused, leaving the router as it was.  (The header asks for data of exactly
    the size.) *)
Lemma c_logging_fits ty_u32 t kind T src rest count tsp ts queue w :
  dtype_from_u32 ty_u32 = Ok t -> size_ok t -> opt_ts tsp = Ok ts -> elem_type kind (WIDTH T) = Some T ->
  blen src = count * WIDTH T -> 0 < count -> blen src <= isize_max ->
  let data := Some (src ++ rest) in
  let logged := (Some (fst (logs_bytes t ts queue src w)), snd (logs_bytes t ts queue src w)) in
  seds_router_log_bytes_ex self env depth ty_u32 data (blen src) tsp queue (Some w) = logged
  /\ seds_router_log_string_ex self env depth ty_u32 data (blen src) tsp queue (Some w) = logged
  /\ seds_router_log_typed_ex self env depth ty_u32 data count (WIDTH T) kind tsp queue (Some w)
     = match fixed_payload_size_if_static t with
       | Some required => if required mod WIDTH T =? 0 then logged else (Some w, Ok bad_arg)
       | None => logged
       end
  /\ (forall vals more, encode_slice_le PF32 vals = src -> logged_bytes t src = src ->
      seds_router_log_f32_ex self env depth ty_u32 (Some (vals ++ more)) (nlen vals) tsp queue (Some w) = logged)
  /\ (forall stamp, ts = Some stamp -> queue = true ->
      logs_bytes t ts queue src w
      = status (pkt ← answer (packet_new t (endpoints (message_meta t)) (router_sender self) stamp (logged_bytes t src));
                queue_item (Broadcast (RPacket pkt)) false) w).
Proof.
  intros Ht Hsz Hts Hk Hs Hc Hm data logged. pose proof (WIDTH_pos T) as Hw. destruct (width_of_prim T) as [Hv H0w].
  assert (from_raw_parts data (blen src) = Ok src) as Hread by (apply (points_to_read _ _ src), points_to_all).
  assert (forall n, log_guard n data = false) as Hg.
  { intros n. unfold log_guard. rewrite (bool_decide_eq_false_2 (data = None)) by done. apply andb_false_r. }
  assert (forall t' m, (forall v, m v = log_fitted self env depth t ts src queue v) ->
    t' = on_handle bad_arg (log_guard (blen src) data) m (Some w) -> t' = logged) as Hbytes.
  { intros t' m Hmm ->. rewrite on_handle_pass by apply Hg. by rewrite Hmm, log_fitted_bytes. }
  split; [|split; [|split; [|split]]].
  - eapply Hbytes; [|done]. intros v. by rewrite Ht, Hread, Hts.
  - eapply Hbytes; [|done]. intros v. by rewrite Ht, Hread, Hts.
  - unfold seds_router_log_typed_ex. rewrite on_handle_pass by (rewrite Hg, Hv; done). rewrite Ht, Hts. cbn [with_arg].
    destruct (fixed_payload_size_if_static t) as [required|] eqn:Es.
    + rewrite H0w. destruct (Z.eqb_spec (required mod WIDTH T) 0) as [Hd|Hd]; cbn [negb]; [|done].
      pose proof (Hsz required Es) as Hreq. unfold sat_mul64. rewrite Z.min_r by (unfold u64_max, isize_max in *; lia).
      rewrite <- Hs, Hread. cbn [with_arg]. rewrite pad_to_fit, (proj2 (Z.ltb_ge _ _)) by lia. cbn [with_arg]. rewrite Hk.
      unfold finish_with. rewrite decide_False by (eapply no_data_size; [done|lia]).
      assert (required = required / WIDTH T * WIDTH T) as Hq by (pose proof (Z.div_mod required (WIDTH T)); lia).
      rewrite <- (app_nil_r (fit required src)), (log_vector_bytes T t ts queue (fit required src) []).
      * unfold logged, logs_bytes, logged_bytes. by rewrite Es.
      * rewrite blen_fit by lia. exact Hq.
      * nia.
      * rewrite blen_fit by lia. unfold isize_max, usize_max in *. lia.
    + rewrite Hk. unfold vec_zeroed. rewrite (proj2 (Z.ltb_ge _ _)) by lia. cbn [with_arg].
      rewrite (log_vector_bytes T t ts queue src rest) by (try done; unfold isize_max, usize_max in *; lia).
      unfold logged, logs_bytes, logged_bytes. by rewrite Es.
  - intros vals more He Hl. unfold seds_router_log_f32_ex.
    rewrite on_handle_pass by (unfold log_guard; rewrite bool_decide_eq_false_2 by done; apply andb_false_r).
    rewrite Ht, (points_to_read _ _ vals) by apply points_to_all. rewrite Hts. cbn [with_arg].
    unfold logged, logs_bytes, status. by rewrite call_log_encoded, He, Hl.
  - intros stamp -> ->. unfold logs_bytes, status, call_log_or_queue. by rewrite log_queue_packet.
Qed.

(** The data has the size the schema gives the type, if it gives one. *)
Definition schema_sized (t : DataType) (src : list byte) : Prop :=
  forall required, fixed_payload_size_if_static t = Some required -> blen src = required.

(** C16. The logging calls of C agree.  For an existing type and any of the
    twelve element types, with [count] elements in memory that have together the
    size the schema gives the type (any size, for a dynamic type): logging them
    as typed elements, as bytes, as a string or, when they are floats, as floats
    is one and the same operation on the router, for every timestamp and for
    logging at once and for queueing.  What is queued is the packet that has
    exactly these bytes as its payload and the endpoints of the schema. *)
Theorem c_logging_agrees ty_u32 t kind T src rest count tsp ts queue w :
  dtype_from_u32 ty_u32 = Ok t -> schema_sized t src -> opt_ts tsp = Ok ts -> elem_type kind (WIDTH T) = Some T ->
  blen src = count * WIDTH T -> 0 < count -> blen src <= isize_max ->
  let data := Some (src ++ rest) in
  let log := call_log_or_queue self env depth T t ts in
  exists vals, encode_slice_le T vals = src
  /\ let logged := (Some (fst (status (log vals queue) w)), snd (status (log vals queue) w)) in
     seds_router_log_typed_ex self env depth ty_u32 data count (WIDTH T) kind tsp queue (Some w) = logged
     /\ seds_router_log_bytes_ex self env depth ty_u32 data (blen src) tsp queue (Some w) = logged
     /\ seds_router_log_string_ex self env depth ty_u32 data (blen src) tsp queue (Some w) = logged
     /\ (forall floats more, encode_slice_le PF32 floats = src ->
         seds_router_log_f32_ex self env depth ty_u32 (Some (floats ++ more)) (nlen floats) tsp queue (Some w) = logged)
     /\ (forall stamp, ts = Some stamp -> queue = true ->
         status (log vals true) w
         = status (pkt ← answer (packet_new t (endpoints (message_meta t)) (router_sender self) stamp src);
                   queue_item (Broadcast (RPacket pkt)) false) w).
Proof.
  intros Ht Hss Hts Hk Hs Hc Hm data log. pose proof (WIDTH_pos T) as Hw.
  assert (size_ok t) as Hsz by (intros r Hr; rewrite <- (Hss r Hr); nia).
  assert (logged_bytes t src = src) as Hl.
  { unfold logged_bytes. destruct (fixed_payload_size_if_static t) as [r|] eqn:Er; [|done].
    rewrite <- (Hss r Er). apply fit_exact. }
  destruct (vectorize_ok T src rest count Hs Hc ltac:(unfold isize_max, usize_max in *; lia)) as (vals & _ & Hv & _).
  exists vals. split; [done|].
  assert (forall q w, status (log vals q) w = logs_bytes t ts q src w) as Hlog.
  { intros q v. unfold log, logs_bytes, status. by rewrite call_log_encoded, Hv, Hl. }
  cbn zeta. rewrite !Hlog.
  destruct (c_logging_fits ty_u32 t kind T src rest count tsp ts queue w Ht Hsz Hts Hk Hs Hc Hm) as (E1 & E2 & E3 & E4 & E5).
  split; [|split; [done|split; [done|split]]].
  - etransitivity; [exact E3|]. destruct (fixed_payload_size_if_static t) as [r|] eqn:Er; [|done].
    by rewrite <- (Hss r Er), Hs, Z.mod_mul by lia.
  - intros floats more He. by apply E4.
  - intros stamp Hst Hq. subst queue. rewrite (E5 stamp Hst eq_refl), Hl. done.
Qed.
End LogFacts.

(** A width of zero passes [width_is_valid], and the division by it panics. *)
Lemma zero_width_panics `{Config} `{Schema} `{External} `{Layout} `{RouterLayout} `{DebugText}
    self env depth ty_u32 t required data count kind tsp ts queue w :
  dtype_from_u32 ty_u32 = Ok t -> opt_ts tsp = Ok ts -> fixed_payload_size_if_static t = Some required ->
  log_guard count data = false ->
  seds_router_log_typed_ex self env depth ty_u32 data count 0 kind tsp queue (Some w) = (Some w, Panic).
Proof.
  intros Ht Hts Hf Hg. unfold seds_router_log_typed_ex. rewrite on_handle_pass by (by rewrite Hg).
  rewrite Ht, Hts. cbn [with_arg]. by rewrite Hf.
Qed.

(** ** Examples *)

(** A router made in C, with one handler of each kind for the radio endpoint;
    endpoints the router uses itself, and ones that do not exist, are refused. *)
Definition radio_desc : SedsLocalEndpointDesc := {| d_endpoint := 1; packet_handler := true; serialized_handler := true |}.

Definition made_in_c : TelemetryResult (option (Router * World)) :=
  @seds_router_new default_config default_schema some_layout some_router_layout (Some [radio_desc]) 1.

Definition c_router : Router * World :=
  match made_in_c with
  | Ok (Some made) => made
  | _ => ({| router_sender := []; router_cfg := {| handlers := []; cfg_reliable_enabled := true; cfg_sender := None; cfg_timesync := None |} |},
          {| locked_state := fresh_inner; time_state := @runtime_new default_config None;
             isr_queue := {| busy := true; isr_q := received_queue fresh_inner |}; tick := 0; events := [] |})
  end.

Example router_made : map handler (handlers (router_cfg (fst c_router))) = [PacketHandler; SerializedHandler]
  /\ @seds_router_new default_config default_schema some_layout some_router_layout
       (Some [radio_desc; {| d_endpoint := @EpTimeSync default_schema; packet_handler := true; serialized_handler := false |}]) 2 = Ok None
  /\ @seds_router_new default_config default_schema some_layout some_router_layout
       (Some [{| d_endpoint := 999; packet_handler := true; serialized_handler := false |}]) 1 = Ok None.
Proof. split; [|split]; vm_compute; reflexivity. Qed.

(** Two floats logged for a type of three. *)
Lemma c_logging_fits_example :
  let src := encode_slice_le PF32 (take 2 gps_values) in
  let call := @seds_router_log_typed_ex default_config default_schema run_external some_layout some_router_layout some_text
    (fst c_router) quiet_environment 10 0 (Some (src ++ [b8 7])) 2 4 SEDS_EK_FLOAT (Some [1000]) true (Some (snd c_router)) in
  call = @seds_router_log_bytes_ex default_config default_schema run_external some_layout some_router_layout some_text
    (fst c_router) quiet_environment 10 0 (Some (src ++ [b8 7])) (blen src) (Some [1000]) true (Some (snd c_router))
  /\ @logged_bytes default_config default_schema 0 src = src ++ replicate 4 (b8 0).
Proof. split; vm_compute; reflexivity. Qed.

(** Three floats logged for a type of three. *)
Lemma c_logging_agrees_witness :
  let src := encode_slice_le PF32 (take 3 gps_values) in
  @seds_router_log_typed_ex default_config default_schema run_external some_layout some_router_layout some_text
    (fst c_router) quiet_environment 10 0 (Some (src ++ [b8 7])) 3 4 SEDS_EK_FLOAT (Some [1000]) true (Some (snd c_router))
  = @seds_router_log_f32_ex default_config default_schema run_external some_layout some_router_layout some_text
    (fst c_router) quiet_environment 10 0 (Some (take 3 gps_values ++ [])) 3 (Some [1000]) true (Some (snd c_router)).
Proof.
  intros src.
  destruct (@c_logging_agrees default_config default_schema run_external some_layout some_router_layout some_text
    (fst c_router) quiet_environment 10 0 0 SEDS_EK_FLOAT PF32 src [b8 7] 3 (Some [1000]) (Some 1000) true (snd c_router))
    as (vals & _ & Et & _ & _ & Ef & _).
  - vm_compute; reflexivity.
  - intros required Hr. vm_compute in Hr. injection Hr as <-. vm_compute. reflexivity.
  - reflexivity.
  - reflexivity.
  - vm_compute; reflexivity.
  - reflexivity.
  - vm_compute; discriminate.
  - exact (eq_trans Et (eq_sym (Ef (take 3 gps_values) [] eq_refl))).
Defined.
