(* ===== verification/CRelay.v ===== *)
(** * The relay for C ([src/c_api.rs])

    Every entry point [seds_relay_*], and what a C program can do to a relay: a
    call is refused, or is exactly one of the relay's public operations. *)

From stdpp Require Import gmap.
From S2P Require Import Prelude Ordered Telemetry Config Schema Queue SmallPayload Wire Packet Serialize TimeSync Discovery RouterState Routes Reliable Plan Topology EndToEnd Announce World Invariant RelayState RelayPlan RelayTopology RelayLink RelayRun RelayInvariant RelayTraffic Text CText CPacket CHandle.

(** ** Construction *)

Definition seds_relay_new `{Config} `{Layout} `{RelayLayout} : TelemetryResult RelayWorld :=
  state ← relay_inner_new; Ok {| relay_state := state; relay_tick := 0; relay_events := [] |}.

Section Entries.
Context `{Config} `{Schema} `{External} `{Layout} `{RelayLayout}.
Context (env : Environment) (fuel : nat).

(** ** Sides and routes *)

Definition relay_admin_op {A} (f : Z -> LM A) : LW A := now ← relay_now env; relay_locked (f now).

#[local] Instance relay_side_admin : SideAdmin RelayWorld := {
  admin_add_side name handler o := relay_admin_op (relay_add_side name handler o);
  admin_remove_side side := relay_admin_op (relay_remove_side side);
  admin_set_ingress side enabled := relay_admin_op (relay_set_side_ingress_enabled side enabled);
  admin_set_egress side enabled := relay_admin_op (relay_set_side_egress_enabled side enabled);
  admin_set_route src dst enabled := relay_admin_op (relay_set_route src dst enabled);
  admin_clear_route src dst := relay_admin_op (relay_clear_route src dst);
  admin_set_typed_route src t dst enabled := relay_admin_op (relay_set_typed_route src t dst enabled);
  admin_clear_typed_route src t dst := relay_admin_op (relay_clear_typed_route src t dst);
  admin_set_mode src mode := relay_admin_op (relay_set_source_route_mode src mode);
  admin_clear_mode src := relay_admin_op (relay_clear_source_route_mode src);
  admin_set_weight src dst weight := relay_admin_op (relay_set_route_weight src dst weight);
  admin_clear_weight src dst := relay_admin_op (relay_clear_route_weight src dst);
  admin_set_priority src dst priority := relay_admin_op (relay_set_route_priority src dst priority);
  admin_clear_priority src dst := relay_admin_op (relay_clear_route_priority src dst)
}.

Definition seds_relay_add_side_serialized : CPtr byte -> Z -> bool -> bool -> CCall RelayWorld Z := c_add_side HSerialized.
Definition seds_relay_add_side_packet : CPtr byte -> Z -> bool -> bool -> CCall RelayWorld Z := c_add_side HPacket.
Definition seds_relay_remove_side : Z -> CCall RelayWorld Z := c_remove_side.
Definition seds_relay_set_side_ingress_enabled : Z -> bool -> CCall RelayWorld Z := c_set_side_ingress_enabled.
Definition seds_relay_set_side_egress_enabled : Z -> bool -> CCall RelayWorld Z := c_set_side_egress_enabled.
Definition seds_relay_set_route : Z -> Z -> bool -> CCall RelayWorld Z := c_set_route.
Definition seds_relay_clear_route : Z -> Z -> CCall RelayWorld Z := c_clear_route.
Definition seds_relay_set_typed_route : Z -> Z -> Z -> bool -> CCall RelayWorld Z := c_set_typed_route.
Definition seds_relay_clear_typed_route : Z -> Z -> Z -> CCall RelayWorld Z := c_clear_typed_route.
Definition seds_relay_set_source_route_mode : Z -> Z -> CCall RelayWorld Z := c_set_source_route_mode.
Definition seds_relay_clear_source_route_mode : Z -> CCall RelayWorld Z := c_clear_source_route_mode.
Definition seds_relay_set_route_weight : Z -> Z -> Z -> CCall RelayWorld Z := c_set_route_weight.
Definition seds_relay_clear_route_weight : Z -> Z -> CCall RelayWorld Z := c_clear_route_weight.
Definition seds_relay_set_route_priority : Z -> Z -> Z -> CCall RelayWorld Z := c_set_route_priority.
Definition seds_relay_clear_route_priority : Z -> Z -> CCall RelayWorld Z := c_clear_route_priority.

(** ** Maintenance *)

Definition seds_relay_announce_discovery : CCall RelayWorld Z := with_status false (relay_announce_discovery env).
Definition seds_relay_poll_discovery : CCall RelayWorld (Z * option bool) := polled (relay_poll_discovery env).
Definition seds_relay_periodic (timeout_ms : Z) : CCall RelayWorld Z := with_status false (relay_periodic env fuel timeout_ms).

Definition relay_topology_json : LW Str :=
  now ← relay_now env;
  relay_locked (fun st => let '(st, snap) := relay_export_topology now st in (st, Ok (topology_snapshot_to_json snap))).

Definition seds_relay_export_topology_len : CCall RelayWorld Z := text_len_entry relay_topology_json.
Definition seds_relay_export_topology : CPtr byte -> Z -> CCall RelayWorld (Z * CPtr byte) := text_entry relay_topology_json.

(** ** Receiving and queues *)

Definition seds_relay_rx_serialized_from_side (side_id : Z) : CPtr byte -> Z -> CCall RelayWorld Z :=
  bytes_entry (fun bytes => relay_rx_from_side side_id (RSerialized bytes)).
Definition seds_relay_rx_packet_from_side (side_id : Z) : option SedsPacketView -> CCall RelayWorld Z :=
  view_entry (fun pkt => relay_rx_from_side side_id (RPacket pkt)).

Definition seds_relay_process_rx_queue : CCall RelayWorld Z := with_status false (relay_process_rx_queue env fuel).
Definition seds_relay_process_tx_queue : CCall RelayWorld Z := with_status false (relay_process_tx_queue env fuel).
Definition seds_relay_process_all_queues : CCall RelayWorld Z := with_status false (relay_process_all_queues env fuel).
Definition seds_relay_clear_queues : CCall RelayWorld Z := with_status false (relay_locked relay_clear_queues).
Definition seds_relay_process_rx_queue_with_timeout (timeout_ms : Z) : CCall RelayWorld Z :=
  with_status false (relay_process_rx_queue_with_timeout env fuel timeout_ms).
Definition seds_relay_process_tx_queue_with_timeout (timeout_ms : Z) : CCall RelayWorld Z :=
  with_status false (relay_process_tx_queue_with_timeout env fuel timeout_ms).
Definition seds_relay_process_all_queues_with_timeout (timeout_ms : Z) : CCall RelayWorld Z :=
  with_status false (relay_process_all_queues_with_timeout env fuel timeout_ms).

(** ** Any call *)

(** The calls that can change a relay, with the arguments C passes. *)
Inductive RelayCCall :=
| CAddSide (handler : RouterTxHandlerFn) (name : CPtr byte) (name_len : Z) (tx reliable : bool)
| CRemoveSide (side_id : Z)
| CSetIngress (side_id : Z) (enabled : bool)
| CSetEgress (side_id : Z) (enabled : bool)
| CSetRoute (src dst : Z) (enabled : bool)
| CClearRoute (src dst : Z)
| CSetTypedRoute (src ty_u32 dst : Z) (enabled : bool)
| CClearTypedRoute (src ty_u32 dst : Z)
| CSetMode (src mode : Z)
| CClearMode (src : Z)
| CSetWeight (src dst weight : Z)
| CClearWeight (src dst : Z)
| CSetPriority (src dst priority : Z)
| CClearPriority (src dst : Z)
| CRxSerialized (side_id : Z) (bytes : CPtr byte) (len : Z)
| CRxPacket (side_id : Z) (view : option SedsPacketView)
| CProcessRx (timeout_ms : Z)
| CProcessTx (timeout_ms : Z)
| CProcessAll (timeout_ms : Z)
| CPeriodic (timeout_ms : Z)
| CAnnounce
| CPoll
| CClearQueues.

(** The call, on a handle that is not NULL. *)
Definition run_relay_call (c : RelayCCall) : CCall RelayWorld Z :=
  match c with
  | CAddSide HSerialized name name_len tx reliable => seds_relay_add_side_serialized name name_len tx reliable
  | CAddSide HPacket name name_len tx reliable => seds_relay_add_side_packet name name_len tx reliable
  | CRemoveSide side_id => seds_relay_remove_side side_id
  | CSetIngress side_id enabled => seds_relay_set_side_ingress_enabled side_id enabled
  | CSetEgress side_id enabled => seds_relay_set_side_egress_enabled side_id enabled
  | CSetRoute src dst enabled => seds_relay_set_route src dst enabled
  | CClearRoute src dst => seds_relay_clear_route src dst
  | CSetTypedRoute src ty_u32 dst enabled => seds_relay_set_typed_route src ty_u32 dst enabled
  | CClearTypedRoute src ty_u32 dst => seds_relay_clear_typed_route src ty_u32 dst
  | CSetMode src mode => seds_relay_set_source_route_mode src mode
  | CClearMode src => seds_relay_clear_source_route_mode src
  | CSetWeight src dst weight => seds_relay_set_route_weight src dst weight
  | CClearWeight src dst => seds_relay_clear_route_weight src dst
  | CSetPriority src dst priority => seds_relay_set_route_priority src dst priority
  | CClearPriority src dst => seds_relay_clear_route_priority src dst
  | CRxSerialized side_id bytes len => seds_relay_rx_serialized_from_side side_id bytes len
  | CRxPacket side_id view => seds_relay_rx_packet_from_side side_id view
  | CProcessRx timeout => seds_relay_process_rx_queue_with_timeout timeout
  | CProcessTx timeout => seds_relay_process_tx_queue_with_timeout timeout
  | CProcessAll timeout => seds_relay_process_all_queues_with_timeout timeout
  | CPeriodic timeout => seds_relay_periodic timeout
  | CAnnounce => seds_relay_announce_discovery
  | CPoll => fun r => let '(r, res) := seds_relay_poll_discovery r in (r, a ← res; Ok (fst a))
  | CClearQueues => seds_relay_clear_queues
  end.

(** A [uint32_t] side id. *)
Definition call_typed (c : RelayCCall) : Prop :=
  match c with CRxSerialized side_id _ _ | CRxPacket side_id _ => 0 <= side_id | _ => True end.

(** The memory a call points to is there, and long enough. *)
Definition readable {T} (p : CPtr T) (n : Z) : Prop := match p with Some mem => n <= nlen mem | None => 0 < n end.

Definition call_readable (c : RelayCCall) : Prop :=
  match c with
  | CAddSide _ (Some mem) name_len _ _ => name_len <= nlen mem
  | CRxSerialized _ bytes len => readable bytes len
  | CRxPacket _ (Some view) =>
      0 <= v_ty view /\ exists eps snd data, Forall (fun e => 0 <= e) eps /\ view_shows view eps snd data /\ std_new data <> Panic
  | _ => True
  end.

(** What the call of an operation answers. *)
Definition call_answer (o : RelayOp) (w : RelayWorld) : TelemetryResult Z :=
  match o with
  | RelayAddSide name handler o => Ok (as_i32 (nlen (rl_sides (relay_state w))))
  | _ => ok_or_status (snd (run_relay_op env fuel o w))
  end.

(** The calls of a program, on one handle. *)
Definition run_relay_calls (cs : list RelayCCall) (r : option RelayWorld) : option RelayWorld :=
  foldl (fun r c => fst (run_relay_call c r)) r cs.

(** ** What a call means

    Written without the code's own guards: either the status a call is refused
    with, or the operation it stands for. *)
Inductive Meaning := Refused (code : Z) | Means (o : RelayOp).

(** A side id that is not negative; -1 as a source is the relay itself. *)
Definition on_side (side : Z) (o : RelayOp) : Meaning := if 0 <=? side then Means o else Refused (status_from_err BadArg).
Definition on_source (src : Z) (o : option RouterSideId -> Meaning) : Meaning :=
  if src =? -1 then o None else if 0 <=? src then o (Some src) else Refused (status_from_err BadArg).
Definition on_rule (src dst : Z) (o : option RouterSideId -> Meaning) : Meaning :=
  on_source src (fun src => match on_side dst RelayClearQueues with Refused code => Refused code | Means _ => o src end).
Definition on_type (ty_u32 : Z) (o : DataType -> RelayOp) : Meaning :=
  if ty_u32 <=? MAX_VALUE_DATA_TYPE then Means (o ty_u32) else Refused (status_from_err InvalidType).

(** The name of a side: empty when it is NULL, empty or not UTF-8. *)
Definition given_name (name : CPtr byte) (name_len : Z) : Str :=
  match name with
  | Some mem => let s := take (Z.to_nat name_len) mem in if utf8_valid s then s else []
  | None => []
  end.

Definition meaning (c : RelayCCall) : Meaning :=
  match c with
  | CAddSide handler name name_len tx reliable =>
      if tx then Means (RelayAddSide (given_name name name_len) handler
                          {| reliable_enabled := reliable; link_local_enabled := false;
                             ingress_enabled := true; egress_enabled := true |})
      else Refused (status_from_err BadArg)
  | CRemoveSide side_id => on_side side_id (RelayRemoveSide side_id)
  | CSetIngress side_id enabled => on_side side_id (RelaySetIngress side_id enabled)
  | CSetEgress side_id enabled => on_side side_id (RelaySetEgress side_id enabled)
  | CSetRoute src dst enabled => on_rule src dst (fun src => Means (RelaySetRoute src dst enabled))
  | CClearRoute src dst => on_rule src dst (fun src => Means (RelayClearRoute src dst))
  | CSetTypedRoute src ty_u32 dst enabled =>
      on_rule src dst (fun src => on_type ty_u32 (fun t => RelaySetTypedRoute src t dst enabled))
  | CClearTypedRoute src ty_u32 dst =>
      on_rule src dst (fun src => on_type ty_u32 (fun t => RelayClearTypedRoute src t dst))
  | CSetMode src mode =>
      on_source src (fun src =>
        if mode =? 0 then Means (RelaySetMode src Fanout)
        else if mode =? 1 then Means (RelaySetMode src Weighted)
        else if mode =? 2 then Means (RelaySetMode src Failover)
        else Refused (status_from_err BadArg))
  | CClearMode src => on_source src (fun src => Means (RelaySetMode src Fanout))
  | CSetWeight src dst weight => on_rule src dst (fun src => Means (RelaySetWeight src dst weight))
  | CClearWeight src dst => on_rule src dst (fun src => Means (RelayClearWeight src dst))
  | CSetPriority src dst priority => on_rule src dst (fun src => Means (RelaySetPriority src dst priority))
  | CClearPriority src dst => on_rule src dst (fun src => Means (RelayClearPriority src dst))
  | CRxSerialized side_id (Some mem) len => Means (RelayRx side_id (RSerialized (take (Z.to_nat len) mem)))
  | CRxSerialized _ None _ => Refused (status_from_err BadArg)
  | CRxPacket side_id (Some view) =>
      match view_to_packet view with
      | Ok (Some pkt) => Means (RelayRx side_id (RPacket pkt))
      | Err e => Refused (status_from_err e)
      | _ => Refused (status_from_err InvalidType)
      end
  | CRxPacket _ None => Refused (status_from_err BadArg)
  | CProcessRx timeout => Means (RelayProcessRx timeout)
  | CProcessTx timeout => Means (RelayProcessTx timeout)
  | CProcessAll timeout => Means (RelayProcessAll timeout)
  | CPeriodic timeout => Means (RelayPeriodic timeout)
  | CAnnounce => Means RelayAnnounceDiscovery
  | CPoll => Means RelayPollDiscovery
  | CClearQueues => Means RelayClearQueues
  end.

(** The operations of a program, the refused calls left out. *)
Definition ops_meant (cs : list RelayCCall) : list RelayOp :=
  omap (fun c => match meaning c with Means o => Some o | Refused _ => None end) cs.

(** The call does to [w] what [m] says, and answers its status. *)
Definition runs_as (c : RelayCCall) (w : RelayWorld) (m : Meaning) : Prop :=
  match m with
  | Refused code => code < 0 /\ run_relay_call c (Some w) = (Some w, Ok code)
  | Means o => op_indexes o /\ run_relay_call c (Some w) = (Some (fst (run_relay_op env fuel o w)), call_answer o w)
  end.

Lemma status_negative e : status_from_err e < 0.
Proof. by destruct e. Qed.

Lemma on_handle_false {S A} (refusal : A) (m : S -> S * TelemetryResult A) s :
  on_handle refusal false m (Some s) = (Some (fst (m s)), snd (m s)).
Proof. cbn. by destruct (m s). Qed.

Lemma status_run {S} (m : S -> S * TelemetryResult unit) s : status m s = (fst (m s), ok_or_status (snd (m s))).
Proof. unfold status. by destruct (m s). Qed.

Lemma discard_unit (m : LW unit) w : relay_discard m w = m w.
Proof. unfold relay_discard. rewrite LW_run. by destruct (m w) as [w' [[]| |]]. Qed.

Lemma admin_is_op (f : Z -> LM unit) w : relay_admin env f w = relay_admin_op f w.
Proof. unfold relay_admin, relay_admin_op. rewrite !LW_run. cbn [relay_now relay_ask]. apply discard_unit. Qed.

Lemma source_of_index src : bad_source src = false -> source_index (source_of src).
Proof. unfold source_of. destruct (Z.ltb_spec src 0); [by intros _ s|]. by intros _ s [= <-]. Qed.

(** The guards of the code say what the meaning says. *)
Lemma on_source_guard src o :
  on_source src o = if bad_source src then Refused (status_from_err BadArg) else o (source_of src).
Proof.
  unfold on_source, bad_source, source_of. destruct (Z.eqb_spec src (-1)) as [->|Hn]; [done|].
  destruct (Z.leb_spec 0 src), (Z.ltb_spec src (-1)), (Z.ltb_spec src 0); try lia; done.
Qed.

Lemma on_side_guard side o :
  on_side side o = if side <? 0 then Refused (status_from_err BadArg) else Means o.
Proof. unfold on_side. destruct (Z.leb_spec 0 side), (Z.ltb_spec side 0); done || lia. Qed.

Lemma on_rule_guard src dst o :
  on_rule src dst o = if bad_route src dst then Refused (status_from_err BadArg) else o (source_of src).
Proof.
  unfold on_rule, bad_route. rewrite on_source_guard, on_side_guard. destruct (dst <? 0), (bad_source src); done.
Qed.

Lemma bad_route_false src dst : bad_route src dst = false -> source_index (source_of src) /\ 0 <= dst.
Proof. intros [Hd Hs]%orb_false_iff. split; [by apply source_of_index|lia]. Qed.

Lemma on_type_converted ty_u32 o :
  on_type ty_u32 o = match dtype_from_u32 ty_u32 with
                     | Ok t => Means (o t) | Err e => Refused (status_from_err e) | Panic => Refused 0
                     end.
Proof.
  unfold on_type, dtype_from_u32, type_try_from_u32.
  destruct (Z.leb_spec ty_u32 MAX_VALUE_DATA_TYPE), (Z.ltb_spec MAX_VALUE_DATA_TYPE ty_u32); done || lia.
Qed.

(** A guarded operation. *)
Lemma guarded c w guard (m : LW unit) o :
  run_relay_call c = with_status guard m -> m w = run_relay_op env fuel o w -> (guard = false -> op_indexes o) ->
  call_answer o w = ok_or_status (snd (run_relay_op env fuel o w)) ->
  runs_as c w (if guard then Refused (status_from_err BadArg) else Means o).
Proof.
  intros Hc Hm Hi Ha. unfold runs_as. rewrite Hc. destruct guard; [split; [apply status_negative|done]|].
  split; [by apply Hi|]. unfold with_status. rewrite on_handle_false, status_run, Hm. cbn [fst snd]. by rewrite Ha.
Qed.

(** The same with a converted argument. *)
Lemma guarded_arg {A} c w guard (arg : TelemetryResult A) (m : A -> LW unit) (o : A -> RelayOp) :
  run_relay_call c = on_handle bad_arg guard (status_with arg m) -> arg <> Panic ->
  (forall a, m a w = run_relay_op env fuel (o a) w) -> (guard = false -> forall a, op_indexes (o a)) ->
  (forall a, call_answer (o a) w = ok_or_status (snd (run_relay_op env fuel (o a) w))) ->
  runs_as c w (if guard then Refused (status_from_err BadArg)
               else match arg with
                    | Ok a => Means (o a) | Err e => Refused (status_from_err e) | Panic => Refused 0
                    end).
Proof.
  intros Hc Hp Hm Hi Ha. unfold runs_as. rewrite Hc. destruct guard; [split; [apply status_negative|done]|].
  destruct arg as [a|e|]; [|split; [apply status_negative|done]|done].
  split; [by apply Hi|]. rewrite on_handle_false. cbn [status_with]. rewrite status_run, Hm. cbn [fst snd]. by rewrite Ha.
Qed.

Lemma given_name_arg name name_len : call_readable (CAddSide HPacket name name_len true true) ->
  side_name_arg name name_len = Ok (given_name name name_len).
Proof.
  intros Hr. unfold side_name_arg, given_name. destruct name as [mem|]; [|done]. rewrite bool_decide_eq_false_2 by done. cbn [orb].
  destruct (Z.eqb_spec name_len 0) as [->|]; [done|]. by rewrite from_raw_parts_Ok.
Qed.

Lemma add_side_call handler name name_len tx reliable w :
  call_readable (CAddSide handler name name_len tx reliable) ->
  let c := CAddSide handler name name_len tx reliable in runs_as c w (meaning c).
Proof.
  intros Hr c. assert (run_relay_call c = @c_add_side RelayWorld relay_side_admin handler name name_len tx reliable) as Hc by (by destruct handler).
  cbn [c meaning]. unfold runs_as. rewrite Hc. unfold c_add_side. rewrite on_handle_false, given_name_arg by done.
  destruct tx; cbn [negb]; [|split; [apply status_negative|done]]. split; [done|].
  cbn [admin_add_side relay_side_admin run_relay_op call_answer].
  unfold relay_admin, relay_admin_op, relay_discard. rewrite !LW_run. cbn [relay_now relay_ask]. rewrite LW_run.
  unfold relay_locked, relay_add_side, add_side. cbn [fst snd relay_state]. done.
Qed.

Lemma packet_call side_id view w : STACK_PAYLOAD_SIZE < 2 ^ 63 -> 0 <= side_id ->
  call_readable (CRxPacket side_id view) -> runs_as (CRxPacket side_id view) w (meaning (CRxPacket side_id view)).
Proof.
  intros Hstack Hs Hr. destruct view as [view|]; [|split; [apply status_negative|done]].
  destruct Hr as (Hty & eps & snd & data & He & Hv & Hnew).
  pose proof (guarded_arg (CRxPacket side_id (Some view)) w false (packet_arg view) (fun pkt => relay_rx_from_side side_id (RPacket pkt))
    (fun pkt => RelayRx side_id (RPacket pkt)) eq_refl) as Hg. cbn [meaning]. unfold packet_arg in Hg.
  assert (view_to_packet view <> Panic) as Hp.
  { destruct (view_to_packet_cases view eps snd data Hstack Hty He Hv) as [[Hok ->]|[_ ->]]; [|done].
    destruct (packet_new_cases (v_ty view) eps snd (v_timestamp view) data) as [[_ ->]|[(_ & _ & e & -> & _)|(_ & _ & ->)]]; try done.
    by destruct (std_new data). }
  destruct (view_to_packet view) as [[pkt|]|e|]; [by apply Hg..|done].
Qed.

(** Each call runs as what it means. *)
Lemma relay_call_refines c w : STACK_PAYLOAD_SIZE < 2 ^ 63 -> call_typed c -> call_readable c -> runs_as c w (meaning c).
Proof.
  intros Hstack Ht Hr.
  assert (forall x, dtype_from_u32 x <> Panic) as Hd by (intros x; unfold dtype_from_u32; by destruct (type_try_from_u32 x)).
  assert (forall x, route_selection_mode_from_i32 x <> Panic) as Hmode.
  { intros x. unfold route_selection_mode_from_i32. by repeat case_match. }
  destruct c; cbn [meaning]; rewrite ?on_side_guard, ?on_rule_guard, ?on_source_guard, ?on_type_converted;
    try (by eapply (guarded _ _ false)).
  - by apply add_side_call.
  - eapply guarded; [done|symmetry; apply admin_is_op| |done]. cbn; lia.
  - eapply guarded; [done|symmetry; apply admin_is_op| |done]. cbn; lia.
  - eapply guarded; [done|symmetry; apply admin_is_op| |done]. cbn; lia.
  - eapply guarded; [done|symmetry; apply admin_is_op|apply bad_route_false|done].
  - eapply guarded; [done|symmetry; apply admin_is_op|apply bad_route_false|done].
  - eapply (guarded_arg _ _ _ (dtype_from_u32 ty_u32) _ (fun t => RelaySetTypedRoute (source_of src) t dst enabled));
      [done|apply Hd|intros t; symmetry; apply admin_is_op|intros Hb t; by apply bad_route_false|done].
  - eapply (guarded_arg _ _ _ (dtype_from_u32 ty_u32) _ (fun t => RelayClearTypedRoute (source_of src) t dst));
      [done|apply Hd|intros t; symmetry; apply admin_is_op|intros Hb t; by apply bad_route_false|done].
  - pose proof (guarded_arg (CSetMode src mode) w (bad_source src) (route_selection_mode_from_i32 mode) _
      (fun mode => RelaySetMode (source_of src) mode) eq_refl (Hmode mode) (fun t => eq_sym (admin_is_op _ w))
      (fun Hb t => source_of_index src Hb) (fun _ => eq_refl)) as Hg.
    unfold route_selection_mode_from_i32 in Hg. by destruct (mode =? 0), (mode =? 1), (mode =? 2), (bad_source src).
  - eapply guarded; [done|symmetry; apply admin_is_op|apply source_of_index|done].
  - eapply guarded; [done|symmetry; apply admin_is_op|apply bad_route_false|done].
  - eapply guarded; [done|symmetry; apply admin_is_op|apply bad_route_false|done].
  - eapply guarded; [done|symmetry; apply admin_is_op|apply bad_route_false|done].
  - eapply guarded; [done|symmetry; apply admin_is_op|apply bad_route_false|done].
  - destruct bytes as [mem|].
    + pose proof (guarded_arg (CRxSerialized side_id (Some mem) len) w _ (from_raw_parts (Some mem) len) _
        (fun l => RelayRx side_id (RSerialized l)) eq_refl) as Hg.
      rewrite bool_decide_eq_false_2, andb_false_r, from_raw_parts_Ok in Hg by done. by apply Hg.
    + split; [apply status_negative|]. cbn in Hr. cbn. by rewrite (proj2 (Z.ltb_lt _ _)).
  - by apply packet_call.
  - split; [done|]. cbn [run_relay_call call_answer run_relay_op].
    unfold seds_relay_poll_discovery, polled. rewrite on_handle_false. unfold relay_discard. rewrite LW_run.
    destruct (relay_poll_discovery env w) as [w' [did|e|]]; done.
Qed.
End Entries.

(** C12. A C program does to a relay exactly what its calls mean.  Whatever
    arguments it passes, as long as the memory they point to is there: a call on
    NULL answers "bad argument"; a call on a relay either stands for no
    operation (a negative side id other than the source -1, an unknown type or
    mode, no callback, no bytes, an unusable packet view), answers the negative
    code for that and leaves the relay as it was, or is exactly the public
    operation of its name with its arguments, and answers the status of that.
    So any sequence of calls runs the operations it means one after another, and
    keeps the relay consistent. *)
Theorem relay_c_calls_refine `{Config} `{Schema} `{External} `{Layout} `{RelayLayout} env fuel cs w :
  STACK_PAYLOAD_SIZE < 2 ^ 63 -> Forall call_typed cs -> Forall call_readable cs -> consistent (relay_state w) ->
  (forall c, run_relay_call env fuel c None = (None, Ok bad_arg))
  /\ (forall c w, call_typed c -> call_readable c -> runs_as env fuel c w (meaning c))
  /\ run_relay_calls env fuel cs (Some w) = Some (run_relay_ops env fuel (ops_meant cs) w)
  /\ Forall op_indexes (ops_meant cs) /\ consistent (relay_state (run_relay_ops env fuel (ops_meant cs) w)).
Proof.
  intros Hstack Ht Hr Hw. split.
  { intros [[] ?|?|?|?|?|?|?|?|?|?|?|?|?|?|?|? [?|]|?|?|?|?| | |]; done. }
  split; [intros c v Hc Hv; by apply relay_call_refines|].
  assert (run_relay_calls env fuel cs (Some w) = Some (run_relay_ops env fuel (ops_meant cs) w)
    /\ Forall op_indexes (ops_meant cs)) as [E Hi].
  { clear Hw. revert w Hr. induction Ht as [|c cs Hc Ht IH]; intros w Hr; [split; [done|constructor]|].
    apply Forall_cons in Hr as [Hrc Hr]. pose proof (relay_call_refines env fuel c w Hstack Hc Hrc) as Hm.
    unfold run_relay_calls, ops_meant in *. cbn [foldl omap list_omap]. unfold runs_as in Hm.
    destruct (meaning c) as [code|o]; destruct Hm as [Ho ->]; cbn [fst].
    - by apply IH.
    - destruct (IH (fst (run_relay_op env fuel o w)) Hr) as [Er Hi]. split; [exact Er|by constructor]. }
  split; [done|]. split; [done|]. by apply ops_keep.
Qed.

(** Callbacks that accept everything. *)
Definition quiet_callbacks : CCallbacks :=
  {| c_ms_at n i := n + Z.of_nat i; c_ns_at n i := 1000000 * (n + Z.of_nat i); c_gate_busy _ := false; c_isr_busy _ := false;
     c_transmit _ _ _ _ := 0; c_transmit_packet _ _ _ _ := 0; c_packet_handler _ _ _ _ := 0; c_serialized_handler _ _ _ _ := 0 |}.

(** Two sides, three calls that are refused, and a packet from one side to the other. *)
Definition relay_c_calls : list RelayCCall :=
  [CAddSide HPacket (Some (lit "A")) 1 true false; CAddSide HPacket None 0 true false; CRemoveSide (-1);
   CSetRoute 0 (-2) true; CRxPacket 0 None; CSetRoute (-1) 1 true; CRxPacket 0 (Some gps_view); CProcessRx 0].

Lemma relay_c_calls_refine_witness :
  exists w, @run_relay_calls default_config default_schema run_external some_layout some_relay_layout
    (relay_environment quiet_callbacks) 9 relay_c_calls (Some (relay_world fresh_relay)) = Some w
  /\ map rtx_dst (q (rl_tx_queue (relay_state w))) = [1] /\ @consistent default_config (relay_state w).
Proof.
  destruct (@relay_c_calls_refine default_config default_schema run_external some_layout some_relay_layout
    (relay_environment quiet_callbacks) 9 relay_c_calls (relay_world fresh_relay)) as (_ & _ & E & _ & Hc).
  - vm_compute; reflexivity.
  - repeat constructor; discriminate.
  - repeat constructor; try discriminate. exists [1; 0], long_sender, (encode_slice_le PF32 gps_values).
    split; [repeat constructor; discriminate|]. split; [exact gps_view_shows|vm_compute; discriminate].
  - apply (@new_consistent default_config some_layout some_relay_layout). vm_compute. reflexivity.
  - eexists. split; [exact E|]. split; [|exact Hc]. vm_compute. reflexivity.
Defined.
