(* ===== verification/Locks.v ===== *)
(** * Locks ([src/lock.rs], and the flag of [IsrRxQueue] in [src/router.rs])

    The re-entry gate, the queue flag and the mutex, and threads that use them:
    a thread's critical section is a list of separate accesses to the protected
    data, which the scheduler may interleave with any other thread's accesses.
    The rest of the development runs every critical section as one step; here
    that is proved of each of these locks.  Atomic operations on one flag are
    taken to happen one after another (acquire and release order the accesses
    between them). *)

From S2P Require Import Prelude Telemetry Config Schema Queue Packet RouterState Routes.

(** ** The three locks *)

(** What a request for a lock answers: it is granted, it is refused, the thread
    waits, or it panics. *)
Inductive Request (G : Type) := Granted (g : G) | Refused | Waits | Panics.
Arguments Granted {G} g. Arguments Refused {G}. Arguments Waits {G}. Arguments Panics {G}.

(** [AtomicBool::compare_exchange(false, true)]: the flag afterwards, and whether
    it was exchanged. *)
Definition exchange_false_true (flag : bool) : bool * bool := if flag then (flag, false) else (true, true).

Record ReentryGate := { gate_flag : bool }.

Definition gate_new : ReentryGate := {| gate_flag := false |}.

(** The gate, and whether a guard was given. *)
Definition try_enter (g : ReentryGate) : ReentryGate * bool :=
  let '(flag, exchanged) := exchange_false_true (gate_flag g) in ({| gate_flag := flag |}, exchanged).

Definition is_active (g : ReentryGate) : bool := gate_flag g.

(** [Drop for ReentryGuard], on a return and on unwinding. *)
Definition guard_drop (g : ReentryGate) : ReentryGate := {| gate_flag := false |}.

(** [IsrRxQueue::try_lock], on its flag. *)
Record IsrFlag := { isr_flag : bool }.

Definition try_lock (i : IsrFlag) : IsrFlag * TelemetryResult unit :=
  let '(flag, exchanged) := exchange_false_true (isr_flag i) in
  ({| isr_flag := flag |}, if exchanged then Ok tt else Err (Io "rx queue busy")).

Definition isr_guard_drop (i : IsrFlag) : IsrFlag := {| isr_flag := false |}.

(** [std::sync::Mutex]: taken or free, and poisoned once a thread panicked while
    it held the lock. *)
Record RouterMutex := { taken : bool; poisoned : bool }.

Definition mutex_new : RouterMutex := {| taken := false; poisoned := false |}.

(** [self.0.lock().expect("RouterMutex poisoned")]; the guard inside the error is
    dropped by the panic. *)
Definition mutex_lock (m : RouterMutex) : Request RouterMutex :=
  if taken m then Waits
  else if poisoned m then Panics
  else Granted {| taken := true; poisoned := false |}.

Definition mutex_drop (panicking : bool) (m : RouterMutex) : RouterMutex :=
  {| taken := false; poisoned := poisoned m || panicking |}.

(** ** What a lock promises *)

Class LockOps (G : Type) := {
  lock_new : G;
  held : G -> bool;
  request : G -> Request G;
  (** [panicking]: the guard is dropped by a panic *)
  release : bool -> G -> G
}.

Class Lock (G : Type) `{LockOps G} := {
  new_free : held lock_new = false;
  granted_free g g' : request g = Granted g' -> held g = false /\ held g' = true;
  refused_held g : request g = Refused -> held g = true;
  waits_held g : request g = Waits -> held g = true;
  released_free b g : held (release b g) = false
}.

#[export] Instance gate_ops : LockOps ReentryGate := {
  lock_new := gate_new;
  held := is_active;
  request g := let '(g, guard) := try_enter g in if guard then Granted g else Refused;
  release _ := guard_drop
}.

#[export] Instance isr_ops : LockOps IsrFlag := {
  lock_new := {| isr_flag := false |};
  held := isr_flag;
  request i := match try_lock i with (i, Ok _) => Granted i | (_, _) => Refused end;
  release _ := isr_guard_drop
}.

#[export] Instance mutex_ops : LockOps RouterMutex := {
  lock_new := mutex_new; held := taken; request := mutex_lock; release := mutex_drop
}.

#[export] Instance gate_lock : Lock ReentryGate.
Proof. split; intros; repeat match goal with g : ReentryGate |- _ => destruct g as [[]] end; cbn in *; by simplify_eq. Qed.

#[export] Instance isr_lock : Lock IsrFlag.
Proof. split; intros; repeat match goal with g : IsrFlag |- _ => destruct g as [[]] end; cbn in *; by simplify_eq. Qed.

#[export] Instance mutex_is_lock : Lock RouterMutex.
Proof. split; intros; repeat match goal with g : RouterMutex |- _ => destruct g as [[] []] end; cbn in *; by simplify_eq. Qed.

(** ** Threads *)

Section Machine.
Context {G : Type} `{Lock G} {D L : Type}.

(** An access reads and writes the data and the thread's own variables; [None]
    is a panic. *)
Definition Access : Type := D -> L -> option (D * L).

(** A critical section, and what the thread does when it is refused. *)
Record Crit := { accesses : list Access; on_refused : L -> L }.

Inductive Pc :=
| Outside (todo : list Crit)
| Inside (rest : list Access) (todo : list Crit)
| Dead.

(** What happened, in the order of the requests. *)
Inductive Entry := Entered (i : nat) (c : Crit) | TurnedAway (i : nat) (c : Crit).

Record Machine := {
  lk : G;
  data : D;
  pcs : list Pc;
  vars : list L;
  entries : list Entry
}.

(** Threads, each with its variables and its program. *)
Definition start (d : D) (threads : list (L * list Crit)) : Machine :=
  {| lk := lock_new; data := d; pcs := map (fun t => Outside (snd t)) threads; vars := map fst threads; entries := [] |}.

Definition move (i : nat) (p : Pc) (g : G) (d : D) (vs : list L) (es : list Entry) (m : Machine) : Machine :=
  {| lk := g; data := d; pcs := <[i := p]> (pcs m); vars := vs; entries := es |}.

(** A step of thread [i]; it may have none. *)
Definition step (i : nat) (m : Machine) : option Machine :=
  match pcs m !! i, vars m !! i with
  | Some (Outside (c :: todo)), Some l =>
      match request (lk m) with
      | Granted g => Some (move i (Inside (accesses c) todo) g (data m) (vars m) (entries m ++ [Entered i c]) m)
      | Refused =>
          Some (move i (Outside todo) (lk m) (data m) (<[i := on_refused c l]> (vars m)) (entries m ++ [TurnedAway i c]) m)
      | Waits => None
      | Panics => Some (move i Dead (lk m) (data m) (vars m) (entries m) m)
      end
  | Some (Inside (f :: rest) todo), Some l =>
      match f (data m) l with
      | Some (d, l) => Some (move i (Inside rest todo) (lk m) d (<[i := l]> (vars m)) (entries m) m)
      | None => Some (move i Dead (release true (lk m)) (data m) (vars m) (entries m) m)
      end
  | Some (Inside [] todo), Some l => Some (move i (Outside todo) (release false (lk m)) (data m) (vars m) (entries m) m)
  | _, _ => None
  end.

(** Any schedule: who moves next, when it can. *)
Definition run (schedule : list nat) (m : Machine) : Machine :=
  foldl (fun m i => default m (step i m)) m schedule.

(** ** The reference: one section after another *)

Fixpoint run_accesses (l : list Access) (d : D) (v : L) : D * L :=
  match l with
  | [] => (d, v)
  | f :: l => match f d v with Some (d, v) => run_accesses l d v | None => (d, v) end
  end.

Definition run_entry (s : D * list L) (e : Entry) : D * list L :=
  let '(d, vs) := s in
  match e with
  | Entered i c =>
      match vs !! i with
      | Some v => let '(d, v) := run_accesses (accesses c) d v in (d, <[i := v]> vs)
      | None => (d, vs)
      end
  | TurnedAway i c => (d, alter (on_refused c) i vs)
  end.

Definition serial (es : list Entry) (d : D) (vs : list L) : D * list L := foldl run_entry (d, vs) es.

Definition inside (p : Pc) : bool := match p with Inside _ _ => true | _ => false end.

(** The state with the section that is under way run to its end. *)
Definition finish (m : Machine) : D * list L :=
  match list_find (fun p => inside p = true) (pcs m) with
  | Some (i, Inside rest _) => run_entry (data m, vars m) (Entered i {| accesses := rest; on_refused := id |})
  | _ => (data m, vars m)
  end.

(** The sections thread [i] asked for, and those left to it. *)
Definition asked (i : nat) (es : list Entry) : list Crit :=
  omap (fun e => match e with
                 | Entered j c | TurnedAway j c => if decide (j = i) then Some c else None
                 end) es.

Definition left_to (p : Pc) : option (list Crit) :=
  match p with Outside todo | Inside _ todo => Some todo | Dead => None end.

Definition thread_order (program : list Crit) (i : nat) (es : list Entry) (p : Pc) : Prop :=
  match left_to p with
  | Some todo => program = asked i es ++ todo
  | None => exists todo, program = asked i es ++ todo
  end.

(** Nobody inside, or exactly one. *)
Definition nobody (m : Machine) : Prop := forall i p, pcs m !! i = Some p -> inside p = false.
Definition only (i : nat) (m : Machine) : Prop :=
  (exists p, pcs m !! i = Some p /\ inside p = true)
  /\ forall j p, pcs m !! j = Some p -> inside p = true -> j = i.

Record MachineOk (d0 : D) (vs0 : list L) (programs : list (list Crit)) (m : Machine) : Prop := {
  mo_vars : length (vars m) = length (pcs m);
  mo_threads : length (pcs m) = length programs;
  mo_held : if held (lk m) then exists i, only i m else nobody m;
  mo_serial : finish m = serial (entries m) d0 vs0;
  mo_order : forall i program p, programs !! i = Some program -> pcs m !! i = Some p -> thread_order program i (entries m) p
}.

Lemma finish_nobody m : nobody m -> finish m = (data m, vars m).
Proof.
  intros Hn. unfold finish. destruct (list_find _ _) as [[i p]|] eqn:E; [|done].
  apply list_find_Some in E as (Hp & Hi & _). by rewrite (Hn i p Hp) in Hi.
Qed.

Lemma finish_inside m i rest todo v :
  pcs m !! i = Some (Inside rest todo) -> vars m !! i = Some v -> only i m ->
  finish m = let '(d, v) := run_accesses rest (data m) v in (d, <[i := v]> (vars m)).
Proof.
  intros Hp Hv [_ Ho]. unfold finish. destruct (list_find _ _) as [[j p]|] eqn:E.
  - apply list_find_Some in E as (Hj & Hi & _). assert (j = i) as -> by (by apply (Ho j p)).
    rewrite Hp in Hj. injection Hj as <-. cbn. by rewrite Hv.
  - apply list_find_None in E. rewrite Forall_lookup in E. by destruct (E i _ Hp).
Qed.

(** Only thread [i]'s program counter changes. *)
Lemma moved_nobody m i p g d vs es :
  inside p = false -> (nobody m \/ only i m) -> nobody (move i p g d vs es m).
Proof.
  intros Hp Hm j q Hj. cbn in Hj. destruct (decide (j = i)) as [->|Hne].
  - apply list_lookup_insert_Some in Hj as [(_ & <- & _)|[? _]]; done.
  - rewrite list_lookup_insert_ne in Hj by done. destruct Hm as [Hm|[_ Hm]]; [by eapply Hm|].
    destruct (inside q) eqn:Hin; [|done]. destruct Hne. by eapply Hm.
Qed.

Lemma moved_only m i p p' g d vs es :
  pcs m !! i = Some p -> inside p' = true -> (nobody m \/ only i m) -> only i (move i p' g d vs es m).
Proof.
  intros Hi%lookup_lt_Some Hp' Hm. split.
  - exists p'. split; [|done]. by apply list_lookup_insert_eq.
  - intros j q Hj Hq. cbn in Hj. destruct (decide (j = i)) as [->|Hne]; [done|].
    rewrite list_lookup_insert_ne in Hj by done. destruct Hm as [Hm|[_ Hm]]; [by rewrite (Hm j q Hj) in Hq|by eapply Hm].
Qed.

Lemma moved_other m i j p p' g d vs es :
  pcs m !! i = Some p -> inside p = false -> inside p' = false -> only j m -> only j (move i p' g d vs es m).
Proof.
  intros Hp Hin Hin' [(q & Hq & Hiq) Ho]. assert (j <> i) as Hne by (intros ->; rewrite Hp in Hq; injection Hq as <-; congruence).
  split.
  - exists q. split; [|done]. cbn. by rewrite list_lookup_insert_ne by done.
  - intros k r Hk Hr. cbn in Hk. destruct (decide (k = i)) as [->|Hk'].
    + apply list_lookup_insert_Some in Hk as [(_ & <- & _)|[? _]]; congruence.
    + rewrite list_lookup_insert_ne in Hk by done. by eapply Ho.
Qed.

Lemma serial_snoc es e d vs : serial (es ++ [e]) d vs = run_entry (serial es d vs) e.
Proof. unfold serial. by rewrite foldl_app. Qed.

Lemma asked_snoc i es e : asked i (es ++ [e]) = asked i es ++ asked i [e].
Proof. unfold asked. by rewrite omap_app. Qed.

(** A thread inside is the only one, and the lock is held. *)
Lemma inside_only m i p :
  (if held (lk m) then exists i, only i m else nobody m) -> pcs m !! i = Some p -> inside p = true ->
  only i m /\ held (lk m) = true.
Proof.
  intros Hh Hp Hi. destruct (held (lk m)); [|by rewrite (Hh i p Hp) in Hi]. destruct Hh as (j & Hj).
  by rewrite (proj2 Hj i p Hp Hi).
Qed.

(** The order of the requests when thread [i] moves: it requests nothing. *)
Lemma order_moved (programs : list (list Crit)) m i p p' :
  (forall j program p, programs !! j = Some program -> pcs m !! j = Some p -> thread_order program j (entries m) p) ->
  pcs m !! i = Some p -> (left_to p' = left_to p \/ left_to p' = None) ->
  forall j program q, programs !! j = Some program -> <[i := p']> (pcs m) !! j = Some q -> thread_order program j (entries m) q.
Proof.
  intros Ho Hp Hl j program q Hprog Hq. destruct (decide (j = i)) as [->|Hne].
  - apply list_lookup_insert_Some in Hq as [(_ & <- & _)|[? _]]; [|done]. specialize (Ho i program p Hprog Hp).
    unfold thread_order in *. destruct Hl as [->| ->]; [done|]. destruct (left_to p); [by eexists|done].
  - rewrite list_lookup_insert_ne in Hq by done. by apply Ho.
Qed.

(** And when it requests the next section. *)
Lemma order_asked (programs : list (list Crit)) m i c todo p' e :
  (forall j program p, programs !! j = Some program -> pcs m !! j = Some p -> thread_order program j (entries m) p) ->
  pcs m !! i = Some (Outside (c :: todo)) -> left_to p' = Some todo -> e = Entered i c \/ e = TurnedAway i c ->
  forall j program q, programs !! j = Some program -> <[i := p']> (pcs m) !! j = Some q ->
    thread_order program j (entries m ++ [e]) q.
Proof.
  intros Ho Hp Hl He j program q Hprog Hq. unfold thread_order. rewrite asked_snoc. destruct (decide (j = i)) as [->|Hne].
  - apply list_lookup_insert_Some in Hq as [(_ & <- & _)|[? _]]; [|done]. specialize (Ho i program _ Hprog Hp).
    rewrite Hl. unfold thread_order in Ho. cbn in Ho. assert (asked i [e] = [c]) as -> by (by destruct He as [->| ->]; cbn; rewrite decide_True).
    by rewrite <- app_assoc.
  - assert (asked j [e] = []) as -> by (destruct He as [->| ->]; cbn; by rewrite decide_False). rewrite app_nil_r.
    rewrite list_lookup_insert_ne in Hq by done. by apply (Ho j).
Qed.

(** Another thread is inside: what is left of its section. *)
Lemma finish_only m j : length (vars m) = length (pcs m) -> only j m ->
  exists rest todo v, pcs m !! j = Some (Inside rest todo) /\ vars m !! j = Some v
    /\ finish m = let '(d, v) := run_accesses rest (data m) v in (d, <[j := v]> (vars m)).
Proof.
  intros Hv Hj. destruct Hj as [([|rest todo|] & Hq & Hiq) Ho] eqn:E; [done| |done].
  assert (exists v', vars m !! j = Some v') as (v' & Hv') by (apply lookup_lt_is_Some; rewrite Hv; by eapply lookup_lt_Some).
  exists rest, todo, v'. split; [done|]. split; [done|]. by eapply finish_inside.
Qed.

Section Steps.
Context (d0 : D) (vs0 : list L) (programs : list (list Crit)) (m : Machine) (i : nat) (v : L).
Hypothesis Hok : MachineOk d0 vs0 programs m.
Hypothesis Hl : vars m !! i = Some v.

Lemma granted_ok c todo g :
  pcs m !! i = Some (Outside (c :: todo)) -> request (lk m) = Granted g ->
  MachineOk d0 vs0 programs (move i (Inside (accesses c) todo) g (data m) (vars m) (entries m ++ [Entered i c]) m).
Proof.
  destruct Hok as [Hv Ht Hh Hs Ho]. intros Hp [Hf Hg]%granted_free. rewrite Hf in Hh.
  pose proof (moved_only m i _ (Inside (accesses c) todo) g (data m) (vars m) (entries m ++ [Entered i c]) Hp eq_refl (or_introl Hh)) as Hin.
  split; [cbn; by rewrite length_insert..| | |].
  - cbn. rewrite Hg. by exists i.
  - erewrite finish_inside; [|by apply list_lookup_insert_eq, (lookup_lt_Some _ _ _ Hp)|done|done].
    cbn [entries move]. rewrite serial_snoc, <- Hs, finish_nobody by done. cbn. by rewrite Hl.
  - eapply order_asked; [done..|by left].
Qed.

Lemma refused_ok c todo :
  pcs m !! i = Some (Outside (c :: todo)) -> request (lk m) = Refused ->
  MachineOk d0 vs0 programs
    (move i (Outside todo) (lk m) (data m) (<[i := on_refused c v]> (vars m)) (entries m ++ [TurnedAway i c]) m).
Proof.
  destruct Hok as [Hv Ht Hh Hs Ho]. intros Hp Hheld%refused_held. rewrite Hheld in Hh. destruct Hh as (j & Hj).
  pose proof (moved_other m i j _ (Outside todo) (lk m) (data m) (<[i := on_refused c v]> (vars m)) (entries m ++ [TurnedAway i c])
                Hp eq_refl eq_refl Hj) as Hin.
  split; [cbn; by rewrite ?length_insert..| | |].
  - cbn. rewrite Hheld. by exists j.
  - destruct (finish_only m j Hv Hj) as (rest & todo' & v' & Hq & Hv' & Hfin).
    assert (j <> i) as Hne by (intros ->; congruence).
    erewrite finish_inside; [|cbn; by rewrite list_lookup_insert_ne|cbn; by rewrite list_lookup_insert_ne|done].
    cbn [entries move data vars]. rewrite serial_snoc, <- Hs, Hfin. destruct (run_accesses rest (data m) v') as [d2 v2]. cbn. f_equal.
    rewrite list_insert_insert_ne by done. apply list_eq. intros k. destruct (decide (k = i)) as [->|Hk].
    + rewrite list_lookup_insert_eq by (rewrite length_insert; by eapply lookup_lt_Some).
      by rewrite list_lookup_alter_eq, list_lookup_insert_ne, Hl by done.
    + by rewrite list_lookup_insert_ne, list_lookup_alter_ne by done.
  - eapply order_asked; [done..|by right].
Qed.

Lemma panics_ok c todo :
  pcs m !! i = Some (Outside (c :: todo)) -> MachineOk d0 vs0 programs (move i Dead (lk m) (data m) (vars m) (entries m) m).
Proof.
  destruct Hok as [Hv Ht Hh Hs Ho]. intros Hp. split; [cbn; by rewrite ?length_insert..| | |].
  - cbn. destruct (held (lk m)); [|by eapply moved_nobody; [|left]]. destruct Hh as (j & Hj). exists j. by eapply moved_other.
  - cbn [entries move]. rewrite <- Hs. destruct (held (lk m)).
    2: { rewrite !finish_nobody; [done|done|]. by apply moved_nobody; [|left]. }
    destruct Hh as (j & Hj). destruct (finish_only m j Hv Hj) as (rest & todo' & v' & Hq & Hv' & Hfin).
    assert (j <> i) as Hne by (intros ->; congruence).
    erewrite finish_inside; [by rewrite Hfin|cbn; by rewrite list_lookup_insert_ne|done|by eapply moved_other].
  - eapply order_moved; [done..|by right].
Qed.

Lemma leaves_ok todo :
  pcs m !! i = Some (Inside [] todo) ->
  MachineOk d0 vs0 programs (move i (Outside todo) (release false (lk m)) (data m) (vars m) (entries m) m).
Proof.
  destruct Hok as [Hv Ht Hh Hs Ho]. intros Hp. destruct (inside_only m i _ Hh Hp eq_refl) as [Hin _].
  pose proof (moved_nobody m i (Outside todo) (release false (lk m)) (data m) (vars m) (entries m) eq_refl (or_intror Hin)) as Hno.
  split; [cbn; by rewrite ?length_insert..| | |].
  - cbn. by rewrite released_free.
  - rewrite finish_nobody by done. cbn [entries move]. rewrite <- Hs. erewrite (finish_inside m) by done. cbn. by rewrite list_insert_id.
  - eapply order_moved; [done..|by left].
Qed.

Lemma access_ok f rest todo :
  pcs m !! i = Some (Inside (f :: rest) todo) ->
  MachineOk d0 vs0 programs
    (match f (data m) v with
     | Some (d, l) => move i (Inside rest todo) (lk m) d (<[i := l]> (vars m)) (entries m) m
     | None => move i Dead (release true (lk m)) (data m) (vars m) (entries m) m
     end).
Proof.
  destruct Hok as [Hv Ht Hh Hs Ho]. intros Hp. destruct (inside_only m i _ Hh Hp eq_refl) as [Hin Hheld].
  pose proof (lookup_lt_Some _ _ _ Hp) as Hi. destruct (f (data m) v) as [[d' v']|] eqn:Ef; (split; [cbn; by rewrite ?length_insert..| | |]).
  - cbn. rewrite Hheld. exists i. by eapply moved_only; [..|right].
  - cbn [entries move]. rewrite <- Hs. erewrite (finish_inside m) by done.
    erewrite finish_inside; [|by apply list_lookup_insert_eq|apply list_lookup_insert_eq; by rewrite Hv|by eapply moved_only; [..|right]].
    cbn. rewrite Ef. destruct (run_accesses rest d' v'). by rewrite list_insert_insert_eq.
  - eapply order_moved; [done..|by left].
  - cbn. rewrite released_free. by apply moved_nobody; [|right].
  - rewrite finish_nobody by (by apply moved_nobody; [|right]). cbn [entries move]. rewrite <- Hs.
    erewrite (finish_inside m) by done. cbn. rewrite Ef. by rewrite list_insert_id.
  - eapply order_moved; [done..|by right].
Qed.
End Steps.

Lemma step_ok d0 vs0 programs m i m' : MachineOk d0 vs0 programs m -> step i m = Some m' -> MachineOk d0 vs0 programs m'.
Proof.
  intros Hok Hstep. unfold step in Hstep. destruct (pcs m !! i) as [p|] eqn:Hp; [|done].
  destruct (vars m !! i) as [v|] eqn:Hl; [|by destruct p as [[]|[]|]].
  destruct p as [[|c todo]|[|f rest] todo|]; [done| | | |done].
  - destruct (request (lk m)) as [g| | |] eqn:Hr; [| |done|]; injection Hstep as <-.
    + by eapply granted_ok.
    + by eapply refused_ok.
    + by eapply panics_ok.
  - injection Hstep as <-. by eapply leaves_ok.
  - pose proof (access_ok _ _ _ m i v Hok Hl f rest todo Hp) as Ha. destruct (f (data m) v) as [[d' v']|]; by injection Hstep as <-.
Qed.

Lemma start_ok d threads : MachineOk d (map fst threads) (map snd threads) (start d threads).
Proof.
  assert (nobody (start d threads)) as Hno.
  { intros i p Hp. cbn in Hp. apply list_lookup_fmap_Some in Hp as (t & -> & _). done. }
  split; cbn [start vars pcs lk entries]; rewrite ?length_map; try done.
  - by rewrite new_free.
  - by rewrite finish_nobody.
  - intros i program p Hprog Hp. apply list_lookup_fmap_Some in Hp as (t & -> & Ht). unfold thread_order. cbn.
    apply list_lookup_fmap_Some in Hprog as (t' & -> & Ht'). by simplify_eq.
Qed.

Lemma run_ok d threads schedule : MachineOk d (map fst threads) (map snd threads) (run schedule (start d threads)).
Proof.
  unfold run. rewrite <- (rev_involutive schedule). induction (rev schedule) as [|i l IH]; [apply start_ok|].
  cbn [rev]. rewrite foldl_app. cbn [foldl]. destruct (step i _) as [m'|] eqn:E; [|done]. by eapply step_ok.
Qed.

(** Nobody can move only when every thread is done, or died of a panic. *)
Lemma stuck_done d0 vs0 programs m : MachineOk d0 vs0 programs m -> (forall i, step i m = None) ->
  forall i p, pcs m !! i = Some p -> p = Outside [] \/ p = Dead.
Proof.
  intros [Hv _ Hh _ _] Hstuck.
  assert (forall i p, pcs m !! i = Some p -> exists v, vars m !! i = Some v) as Hvars.
  { intros i p Hp. apply lookup_lt_is_Some. rewrite Hv. by eapply lookup_lt_Some. }
  assert (nobody m) as Hno.
  { intros i p Hp. destruct (inside p) eqn:Hi; [|done]. destruct (Hvars i p Hp) as [v Hl].
    specialize (Hstuck i). unfold step in Hstuck. rewrite Hp, Hl in Hstuck.
    destruct p as [|[|f rest] todo|]; [done|done| |done]. by destruct (f (data m) v) as [[]|]. }
  assert (held (lk m) = false) as Hf.
  { destruct (held (lk m)); [|done]. destruct Hh as (j & (p & Hp & Hi) & _). by rewrite (Hno j p Hp) in Hi. }
  intros i p Hp. destruct (Hvars i p Hp) as [v Hl]. specialize (Hstuck i). unfold step in Hstuck. rewrite Hp, Hl in Hstuck.
  destruct p as [[|c todo]|rest todo|]; [by left| |by specialize (Hno i _ Hp)|by right].
  destruct (request (lk m)) eqn:Hr; try done. apply waits_held in Hr. congruence.
Qed.
End Machine.

Arguments Crit D L : clear implicits.

(** What a lock is for.  However threads with any programs are scheduled: at
    most one is in a critical section; whenever none is, the data and the
    threads' variables are what the sections give that were entered, each run
    to its end before the next; each thread makes its requests in the order of
    its program, and only a request made while another thread is inside is
    refused; and as long as a thread has work to do, some thread can move. *)
Definition serializes (G : Type) `{LockOps G} : Prop :=
  forall (D L : Type) (d : D) (threads : list (L * list (Crit D L))) (schedule : list nat),
  let m := run (G := G) schedule (start d threads) in
  (forall i j p p', pcs m !! i = Some p -> pcs m !! j = Some p' -> inside p = true -> inside p' = true -> i = j)
  /\ (nobody m -> (data m, vars m) = serial (entries m) d (map fst threads))
  /\ (forall i v program p, threads !! i = Some (v, program) -> pcs m !! i = Some p -> thread_order program i (entries m) p)
  /\ (request (lk m) = Refused -> exists j, only j m)
  /\ ((forall i, step i m = None) -> forall i p, pcs m !! i = Some p -> p = Outside [] \/ p = Dead).

Lemma lock_serializes (G : Type) `{Lock G} : serializes G.
Proof.
  intros D L d threads schedule m. pose proof (run_ok (G := G) d threads schedule) as Hok. fold m in Hok.
  destruct (Hok) as [Hv Ht Hh Hs Ho]. split; [|split; [|split; [|split]]].
  - intros i j p p' Hp Hp' Hi Hi'. destruct (inside_only m j p' Hh Hp' Hi') as [[_ Honly] _]. by eapply Honly.
  - intros Hno. by rewrite <- Hs, finish_nobody.
  - intros i v program p Hprog Hp. apply (Ho i program p); [|done]. by rewrite list_lookup_fmap, Hprog.
  - intros Hr%refused_held. by rewrite Hr in Hh.
  - by eapply stuck_done.
Qed.

(** C14. The locks serialize what they protect.  For the re-entry gate, for the
    flag of the interrupt queue and for the mutex, however threads with any
    programs are scheduled, access by access: at most one thread is in a critical
    section; whenever none is, data and variables are what the sections give that
    were entered, each run to its end (or to its panic) before the next; each
    thread makes its requests in program order; only a request made while another
    thread is inside is refused; and as long as some thread is neither done nor
    dead of a panic, one can move. *)
Theorem critical_sections_serialize : serializes ReentryGate /\ serializes IsrFlag /\ serializes RouterMutex.
Proof. split; [|split]; apply lock_serializes; apply _. Qed.

(** ** Without [std]: the host's lock

    [telemetry_lock] returns once the host grants the lock, and
    [telemetry_unlock] gives it back; both are code of the host. *)

Section Host.
Context {Host : Type} (host_new : Host) (host_held : Host -> bool).
Context (telemetry_lock : Host -> option Host) (telemetry_unlock : Host -> Host).
Hypothesis host_new_free : host_held host_new = false.
Hypothesis host_lock_spec : forall h,
  match telemetry_lock h with
  | Some h' => host_held h = false /\ host_held h' = true
  | None => host_held h = true
  end.
Hypothesis host_unlock_spec : forall h, host_held (telemetry_unlock h) = false.

(** [RouterMutex::lock] and [Drop for RouterMutexGuard]. *)
Definition host_mutex_lock (h : Host) : Request Host :=
  match telemetry_lock h with Some h => Granted h | None => Waits end.
Definition host_mutex_drop (panicking : bool) (h : Host) : Host := telemetry_unlock h.

#[local] Instance host_ops : LockOps Host := {
  lock_new := host_new; held := host_held; request := host_mutex_lock; release := host_mutex_drop
}.

#[local] Instance host_lock : Lock Host.
Proof.
  split; cbn; unfold host_mutex_lock; try done; intros g; specialize (host_lock_spec g).
  - intros g'. destruct (telemetry_lock g); [by intros [= <-]|done].
  - by destruct (telemetry_lock g).
  - by destruct (telemetry_lock g).
Qed.

Lemma host_lock_serializes : serializes Host.
Proof. apply lock_serializes, _. Qed.
End Host.

(** ** The interrupt queue *)

Section IsrQueue.
Context {A : Type}.

(** The register a thread reads the queue into, and the answers it got. *)
Definition IsrVars : Type := option (BoundedDeque RouterRxItem) * list (TelemetryResult A).

(** An operation on the queue: it reads the queue, and writes it back. *)
Definition isr_section (f : BoundedDeque RouterRxItem -> BoundedDeque RouterRxItem * TelemetryResult A)
    : Crit (BoundedDeque RouterRxItem) IsrVars :=
  {| accesses :=
       [fun d '(_, answers) => Some (d, (Some d, answers));
        fun d '(read, answers) => let '(d', r) := f (default d read) in Some (d', (None, answers ++ [r]))];
     on_refused '(read, answers) := (read, answers ++ [Err (Io "rx queue busy")]) |}.

(** As one step, with the flag the operation finds: [isr_with]. *)
Lemma isr_section_is_isr_with f i d (vs : list IsrVars) answers :
  vs !! i = Some (None, answers) ->
  let entered := isr_with f {| busy := false; isr_q := d |} in
  let refused := isr_with f {| busy := true; isr_q := d |} in
  run_entry (d, vs) (Entered i (isr_section f)) = (isr_q (fst entered), <[i := (None, answers ++ [snd entered])]> vs)
  /\ run_entry (d, vs) (TurnedAway i (isr_section f)) = (isr_q (fst refused), <[i := (None, answers ++ [snd refused])]> vs).
Proof.
  intros Hi entered refused. unfold entered, refused, isr_with. cbn [busy isr_q run_entry]. unfold IsrVars in *. rewrite Hi. cbn.
  destruct (f d) as [d' r]. cbn.
  split; [done|]. f_equal. apply list_eq. intros j. destruct (decide (j = i)) as [->|Hne].
  - rewrite list_lookup_insert_eq by (by eapply lookup_lt_Some). by rewrite list_lookup_alter_eq, Hi.
  - by rewrite list_lookup_alter_ne, list_lookup_insert_ne.
Qed.
End IsrQueue.

(** Two threads that each count the elements they find, and add one.  The second
    is turned away while the first is inside, and finds the element later. *)
Definition count_section : Crit (list nat) (list nat) :=
  {| accesses := [fun d seen => Some (d, seen ++ [length d]); fun d seen => Some (d ++ [length d], seen)];
     on_refused seen := seen ++ [77%nat] |}.

Example gate_run :
  let m := run (G := ReentryGate) [0; 0; 1; 0; 0; 1; 1; 1; 1]%nat (start [] [([], [count_section]); ([], [count_section; count_section])]) in
  data m = [0; 1]%nat /\ vars m = [[0]; [77; 1]]%nat /\ pcs m = [Outside []; Outside []].
Proof. split; [|split]; vm_compute; reflexivity. Qed.

(** A thread that panics in its section poisons the mutex: the next one panics. *)
Example mutex_poisoned :
  let m := run (G := RouterMutex) [0; 0; 1]%nat
             (start [] [([], [{| accesses := [fun _ _ => None]; on_refused := id |}]); ([], [count_section])]) in
  pcs m = [Dead; Dead] /\ poisoned (lk m) = true /\ data m = [].
Proof. split; [|split]; vm_compute; reflexivity. Qed.
