(* ===== verification/Build.v ===== *)
(** * The build script ([build.rs])

    Before the crate is compiled, the build script reads the telemetry schema,
    the source of the error codes and two templates, and writes the C header and
    the Python stub.  Here: the schema as the script reads it, its validation,
    and the numbered lists it renders; [Header] holds the texts and the whole
    script.  Any failure of the script is a panic, and stops the build. *)

From S2P Require Import Prelude Ordered Telemetry Config Schema.

(** ** The parsed JSON

    The script parses the file the macro parses, into structures of its own. *)

Record BuildEndpoint := {
  be_rust : string;
  be_name : string;
  be_doc : option Str;
  be_broadcast_mode : option string;
  be_link_local_only : option bool
}.

(** The element count is not read. *)
Inductive BuildElement := BStatic (data_type : string) | BDynamic (data_type : string).

Record BuildType := {
  bt_rust : string;
  bt_name : string;
  bt_doc : option Str;
  bt_reliable : option bool;
  bt_element : BuildElement;
  bt_class : string;
  bt_endpoints : list string
}.

Record BuildConfig := { bc_endpoints : list BuildEndpoint; bc_types : list BuildType }.

(** What stops the build; each names the offending item. *)
Inductive BuildError :=
| EnvMissing (key : string)
| EnvEmpty (key : string)
| ReadFailed (path : Str)
| ParseFailed (path : Str)
| NoSchemaPath (path : Str)
| DifferentSchemaPaths (path : Str)
| Collision (s : string)
| Reserved (s : string)
| NotAnIdent (s : string)
| NotCaps (s : string)
| UnknownEndpoint (type endpoint : string)
| MixedEndpoints (s : string)
| EmptyDataType (s : string)
| EmptyClass (s : string)
| NoErrorEnum (path : Str)
| NoErrorMembers (path : Str)
| BadMemberValue (s : Str)
| MissingMarker (path marker : Str)
| CreateFailed (path : Str)
| WriteFailed (path : Str).

Abbreviation BuildResult A := (Res BuildError A).

(** ** Normalisation and overlay merge *)

Definition be_set_link_local (b : bool) (ep : BuildEndpoint) : BuildEndpoint :=
  {| be_rust := be_rust ep; be_name := be_name ep; be_doc := be_doc ep; be_broadcast_mode := be_broadcast_mode ep;
     be_link_local_only := Some b |}.

(** The warning the deprecated field gives. *)
Inductive BuildWarning :=
| NormalizedNever (name : string)
| IgnoredMode (name : string)
| UnknownMode (mode name : string).

Definition be_normalize_endpoint_legacy_fields (ep : BuildEndpoint) : BuildEndpoint * list BuildWarning :=
  match be_broadcast_mode ep with
  | None => (ep, [])
  | Some mode =>
      if String.eqb mode "Never" then (be_set_link_local true ep, [NormalizedNever (be_name ep)])
      else if String.eqb mode "Default" || String.eqb mode "Always" then (ep, [IgnoredMode (be_name ep)])
      else (ep, [UnknownMode mode (be_name ep)])
  end.

Definition be_normalize (ep : BuildEndpoint) : BuildEndpoint * list BuildWarning :=
  let '(ep, warnings) := be_normalize_endpoint_legacy_fields ep in
  (if bool_decide (be_broadcast_mode ep = Some "Never"%string) then ep else be_set_link_local false ep, warnings).

Definition build_normalize_base_schema (base : BuildConfig) : BuildConfig * list BuildWarning :=
  let eps := map be_normalize (bc_endpoints base) in
  ({| bc_endpoints := map fst eps; bc_types := bc_types base |}, concat (map snd eps)).

(** Two hash sets, of Rust names and of schema names; the first entry that is
    already in one of them stops the build. *)
Fixpoint build_insert_pairs (rusts names : list string) (l : list (string * string)) : BuildResult unit :=
  match l with
  | [] => Ok tt
  | (r, n) :: l =>
      if mem r rusts then Err (Collision r)
      else if mem n names then Err (Collision n)
      else build_insert_pairs (r :: rusts) (n :: names) l
  end.

Definition build_merge_ipc_overlay (base overlay : BuildConfig) : BuildResult BuildConfig :=
  let eps := map (be_set_link_local true) (bc_endpoints overlay) in
  _ ← build_insert_pairs (map be_rust (bc_endpoints base)) (map be_name (bc_endpoints base))
        (map (fun ep => (be_rust ep, be_name ep)) eps);
  _ ← build_insert_pairs (map bt_rust (bc_types base)) (map bt_name (bc_types base))
        (map (fun ty => (bt_rust ty, bt_name ty)) (bc_types overlay));
  Ok {| bc_endpoints := bc_endpoints base ++ eps; bc_types := bc_types base ++ bc_types overlay |}.

(** ** Validation *)

Definition build_is_timesync_endpoint (ep : BuildEndpoint) : bool :=
  String.eqb (be_rust ep) "TimeSync" || String.eqb (be_name ep) "TIME_SYNC".

Definition build_is_discovery_endpoint (ep : BuildEndpoint) : bool :=
  String.eqb (be_rust ep) "Discovery" || String.eqb (be_name ep) "DISCOVERY".

Definition build_is_timesync_type (ty : BuildType) : bool :=
  mem (bt_rust ty) ["TimeSyncAnnounce"; "TimeSyncRequest"; "TimeSyncResponse"]%string
  || mem (bt_name ty) ["TIME_SYNC_ANNOUNCE"; "TIME_SYNC_REQUEST"; "TIME_SYNC_RESPONSE"]%string.

Definition build_is_discovery_type (ty : BuildType) : bool :=
  mem (bt_rust ty) ["DiscoveryAnnounce"; "DiscoveryTimeSyncSources"; "DiscoveryTopology"]%string
  || mem (bt_name ty) ["DISCOVERY_ANNOUNCE"; "DISCOVERY_TIMESYNC_SOURCES"; "DISCOVERY_TOPOLOGY"]%string.

Fixpoint build_all {A} (f : A -> BuildResult unit) (l : list A) : BuildResult unit :=
  match l with
  | [] => Ok tt
  | a :: l => _ ← f a; build_all f l
  end.

Definition build_check (ok : bool) (e : BuildError) : BuildResult unit := if ok then Ok tt else Err e.

Definition check_type_not_reserved (ty : BuildType) : BuildResult unit :=
  build_check
    (negb (String.eqb (bt_rust ty) "TelemetryError" || String.eqb (bt_name ty) "TELEMETRY_ERROR"
           || build_is_timesync_type ty || build_is_discovery_type ty))
    (Reserved (bt_rust ty)).

Definition check_endpoint_not_reserved (ep : BuildEndpoint) : BuildResult unit :=
  build_check
    (negb (String.eqb (be_rust ep) "TelemetryError" || String.eqb (be_name ep) "TELEMETRY_ERROR"
           || build_is_timesync_endpoint ep || build_is_discovery_endpoint ep))
    (Reserved (be_rust ep)).

(** [^[A-Za-z_][A-Za-z0-9_]*$] *)
Definition ensure_rust_ident (s : string) : BuildResult unit := build_check (simple_ident s) (NotAnIdent s).

(** An empty name passes. *)
Definition ensure_all_caps (s : string) : BuildResult unit := build_check (forallb caps_char (lit s)) (NotCaps s).

Definition check_endpoint_names (ep : BuildEndpoint) : BuildResult unit :=
  _ ← ensure_rust_ident (be_rust ep); ensure_all_caps (be_name ep).

Definition build_endpoint_set (cfg : BuildConfig) (timesync_enabled discovery_enabled : bool) : list string :=
  map be_rust (bc_endpoints cfg) ++ (if timesync_enabled then ["TimeSync"%string] else [])
  ++ (if discovery_enabled then ["Discovery"%string] else []) ++ ["TelemetryError"%string].

(** Some endpoint of the type is of the kind [b]. *)
Definition saw_endpoint (eps : list BuildEndpoint) (ty : BuildType) (b : bool) : bool :=
  existsb (fun r => match List.find (fun ep => String.eqb (be_rust ep) r) eps with
                    | Some ep => bool_decide (default false (be_link_local_only ep) = b)
                    | None => false
                    end) (bt_endpoints ty).

Definition build_data_type (el : BuildElement) : string :=
  match el with BStatic data_type | BDynamic data_type => data_type end.

Definition blank (s : string) : bool := bool_decide (trim (lit s) = []).

Definition check_type_definition (eps : list BuildEndpoint) (endpoint_set : list string) (ty : BuildType) : BuildResult unit :=
  _ ← ensure_rust_ident (bt_rust ty);
  _ ← ensure_all_caps (bt_name ty);
  _ ← build_all (fun r => build_check (mem r endpoint_set) (UnknownEndpoint (bt_rust ty) r)) (bt_endpoints ty);
  _ ← build_check (negb (saw_endpoint eps ty true && saw_endpoint eps ty false)) (MixedEndpoints (bt_rust ty));
  _ ← build_check (negb (blank (build_data_type (bt_element ty)))) (EmptyDataType (bt_rust ty));
  build_check (negb (blank (bt_class ty))) (EmptyClass (bt_rust ty)).

Definition validate_schema (cfg : BuildConfig) (timesync_enabled discovery_enabled : bool) : BuildResult unit :=
  _ ← build_all check_type_not_reserved (bc_types cfg);
  _ ← build_all check_endpoint_not_reserved (bc_endpoints cfg);
  _ ← build_all check_endpoint_names (bc_endpoints cfg);
  build_all (check_type_definition (bc_endpoints cfg) (build_endpoint_set cfg timesync_enabled discovery_enabled)) (bc_types cfg).

(** ** Built-in endpoints and types *)

Definition built_in_endpoint (rust name doc : string) : BuildEndpoint :=
  {| be_rust := rust; be_name := name; be_doc := Some (lit doc); be_broadcast_mode := None; be_link_local_only := Some false |}.

Definition built_in_type (rust name doc : string) (el : BuildElement) (ep : string) : BuildType :=
  {| bt_rust := rust; bt_name := name; bt_doc := Some (lit doc); bt_reliable := Some false; bt_element := el;
     bt_class := "Data"; bt_endpoints := [ep] |}.

Definition append_timesync_builtins (cfg : BuildConfig) : BuildConfig :=
  {| bc_endpoints := bc_endpoints cfg ++
       [built_in_endpoint "TimeSync" "TIME_SYNC" "Time sync routing endpoint (always forwarded)."];
     bc_types := bc_types cfg ++
       [built_in_type "TimeSyncAnnounce" "TIME_SYNC_ANNOUNCE" "Time source announce (priority, time_ms)." (BStatic "UInt64") "TimeSync";
        built_in_type "TimeSyncRequest" "TIME_SYNC_REQUEST" "Time sync request (seq, t1_ms)." (BStatic "UInt64") "TimeSync";
        built_in_type "TimeSyncResponse" "TIME_SYNC_RESPONSE" "Time sync response (seq, t1_ms, t2_ms, t3_ms)." (BStatic "UInt64")
          "TimeSync"] |}.

Definition append_discovery_builtins (cfg : BuildConfig) : BuildConfig :=
  {| bc_endpoints := bc_endpoints cfg ++
       [built_in_endpoint "Discovery" "DISCOVERY" "Discovery control endpoint for internal route advertisements."];
     bc_types := bc_types cfg ++
       [built_in_type "DiscoveryAnnounce" "DISCOVERY_ANNOUNCE" "Endpoint discovery advertisement (dynamic list of endpoint IDs)."
          (BDynamic "UInt32") "Discovery";
        built_in_type "DiscoveryTimeSyncSources" "DISCOVERY_TIMESYNC_SOURCES"
          "Time sync source discovery advertisement (dynamic list of sender IDs)." (BDynamic "UInt8") "Discovery";
        built_in_type "DiscoveryTopology" "DISCOVERY_TOPOLOGY"
          "Full board-topology discovery advertisement (boards, endpoints, and connections)." (BDynamic "UInt8") "Discovery"] |}.

(** The schema part of [main]: normalise, merge the overlay, validate, append. *)
Definition build_schema (base : BuildConfig) (overlay : option BuildConfig) (timesync_enabled discovery_enabled : bool)
    : BuildResult BuildConfig :=
  let '(cfg, _) := build_normalize_base_schema base in
  cfg ← match overlay with Some o => build_merge_ipc_overlay cfg o | None => Ok cfg end;
  _ ← validate_schema cfg timesync_enabled discovery_enabled;
  let cfg := if timesync_enabled then append_timesync_builtins cfg else cfg in
  Ok (if discovery_enabled then append_discovery_builtins cfg else cfg).

(** ** Result codes *)

(** [name -> value] of the C enum. *)
Abbreviation SedsResultEnum := (list (Str * Z)).

(** The characters of a Rust name: [A-Z], [a-z], [0-9]; others are skipped. *)
Definition upper (b : byte) : bool := (65 <=? u8 b) && (u8 b <=? 90).
Definition lower (b : byte) : bool := (97 <=? u8 b) && (u8 b <=? 122).
Definition digit (b : byte) : bool := (48 <=? u8 b) && (u8 b <=? 57).

Fixpoint screaming (prev_lower_or_digit : bool) (s : Str) : Str :=
  match s with
  | [] => []
  | ch :: s =>
      if upper ch then (if prev_lower_or_digit then lit "_" else []) ++ ch :: screaming false s
      else if lower ch then b8 (u8 ch - 32) :: screaming true s
      else if digit ch then ch :: screaming true s
      else screaming prev_lower_or_digit s
  end.

Definition to_screaming_snake (s : Str) : Str :=
  match screaming false s with [] => lit "UNKNOWN" | out => out end.

(** [str::parse::<i64>] *)
Fixpoint i64_digits (acc : Z) (l : Str) : option Z :=
  match l with
  | [] => Some acc
  | b :: l => if digit b then i64_digits (acc * 10 + (u8 b - 48)) l else None
  end.

Definition parse_i64 (s : Str) : option Z :=
  v ← match s with
      | [] => None
      | c :: l =>
          if u8 c =? 45 then match l with [] => None | _ => Z.opp <$> i64_digits 0 l end
          else if u8 c =? 43 then match l with [] => None | _ => i64_digits 0 l end
          else i64_digits 0 s
      end;
  if (- 2 ^ 63 <=? v) && (v <? 2 ^ 63) then Some v else None.

(** [members.retain(|(n, _)| seen.insert(n.clone()))] *)
Fixpoint keep_first (seen : list Str) (l : SedsResultEnum) : SedsResultEnum :=
  match l with
  | [] => []
  | (n, v) :: l => if bool_decide (n ∈ seen) then keep_first seen l else (n, v) :: keep_first (n :: seen) l
  end.

(** Values descending, then names ascending. *)
Definition member_key (m : Str * Z) : Z * Str := (- snd m, fst m).

Definition has_member (n : string) (l : SedsResultEnum) : bool := existsb (fun m => bool_decide (fst m = lit n)) l.

Definition member_of (m : Str * Str) : BuildResult (Str * Z) :=
  match parse_i64 (snd m) with
  | Some v => Ok (lit "SEDS_" ++ to_screaming_snake (fst m), v)
  | None => Err (BadMemberValue (snd m))
  end.

(** The members, from the variants and discriminants found in the source. *)
Definition seds_result_members (path : Str) (captures : list (Str * Str)) : BuildResult SedsResultEnum :=
  members ← mapM_res member_of captures;
  match members with
  | [] => Err (NoErrorMembers path)
  | _ =>
      let has_ok := has_member "SEDS_OK" members in
      let has_err := has_member "SEDS_ERR" members in
      let members := if has_ok then members else members ++ [(lit "SEDS_OK", 0)] in
      let members := if has_err then members else members ++ [(lit "SEDS_ERR", -1)] in
      Ok (sort_by_key member_key (keep_first [] members))
  end.
