(* ===== verification/Header.v ===== *)
(** * The generated header ([build.rs])

    The texts the build script renders -- the C enums, the result codes, the
    declarations, the Python stub -- their injection into the templates, and
    [main].  The enums are read back from the C text and compared with the
    numbers the compiled crate gives its types and endpoints. *)

From S2P Require Import Prelude Ordered Telemetry Config Schema Queue SmallPayload Wire Packet Calendar Text Build.

(** ** Text *)

Definition newline : Str := [b8 10].

(** [lines.join("\n")] *)
Definition join_lines : list Str -> Str := join newline.

(** [str::contains], and [str::replace] of a pattern that is not empty: at a
    match the text is put in, and the rest of the match skipped. *)
Fixpoint str_contains (pat l : Str) : bool :=
  bool_decide (is_Some (strip_prefix pat l)) || match l with [] => false | _ :: l => str_contains pat l end.

Fixpoint replace_from (pat text : Str) (skip : nat) (l : Str) : Str :=
  match l with
  | [] => []
  | b :: l' =>
      match skip with
      | S skip => replace_from pat text skip l'
      | O => match strip_prefix pat l with
             | Some _ => text ++ replace_from pat text (length pat - 1) l'
             | None => b :: replace_from pat text 0 l'
             end
      end
  end.

Definition str_replace (pat text l : Str) : Str := replace_from pat text 0 l.

(** ** C *)

Definition sanitize_c_comment (s : Str) : Str := str_replace (lit "*/") (lit "* /") s.

Definition doc_text (doc : option Str) : Str := trim (default [] doc).

(** One enumerator, after its comment if it has one. *)
Definition comment_line (doc : Str) : list Str :=
  match doc with [] => [] | _ => [lit "  /* " ++ sanitize_c_comment doc ++ lit " */"] end.

Definition enumerator_line (name : Str) (value : Z) : Str := lit "  " ++ name ++ lit " = " ++ int_text value ++ lit ",".

Fixpoint item_lines (prefix : string) (i : Z) (items : list (string * option Str)) : list Str :=
  match items with
  | [] => []
  | (name, doc) :: items =>
      comment_line (doc_text doc) ++ [enumerator_line (lit prefix ++ lit name) i] ++ item_lines prefix (i + 1) items
  end.

Definition type_items (cfg : BuildConfig) : list (string * option Str) := map (fun ty => (bt_name ty, bt_doc ty)) (bc_types cfg).
Definition endpoint_items (cfg : BuildConfig) : list (string * option Str) :=
  map (fun ep => (be_name ep, be_doc ep)) (bc_endpoints cfg).

Definition render_c_enum_datatype (cfg : BuildConfig) : Str :=
  join_lines
    ([lit "typedef enum SedsDataType {"] ++ item_lines "SEDS_DT_" 0 (type_items cfg)
     ++ [lit "  /* Built-in TelemetryError */"; enumerator_line (lit "SEDS_DT_TELEMETRY_ERROR") (Z.of_nat (length (bc_types cfg)));
         lit "} SedsDataType;"]).

Definition render_c_enum_endpoint (cfg : BuildConfig) : Str :=
  join_lines
    ([lit "typedef enum SedsDataEndpoint {"] ++ item_lines "SEDS_EP_" 0 (endpoint_items cfg)
     ++ [lit "  /* Built-in TelemetryError endpoint */";
         enumerator_line (lit "SEDS_EP_TELEMETRY_ERROR") (Z.of_nat (length (bc_endpoints cfg))); lit "} SedsDataEndpoint;"]).

Definition render_c_enums (cfg : BuildConfig) : Str * Str := (render_c_enum_datatype cfg, render_c_enum_endpoint cfg).

Definition render_c_enum_seds_result (sr : SedsResultEnum) : Str :=
  join_lines
    ([lit "typedef enum SedsResult {"] ++ map (fun '(name, val) => enumerator_line name val) sr ++ [lit "} SedsResult;"]).

Definition render_c_abi_decls : Str :=
  join_lines (map lit
    ["/* =================================================================";
     "   Public ABI wrappers *AUTOGENERATED FROM RUST C ABI*";
     "   ================================================================= */";
     "";
     "/** @brief Legacy byte logger without timestamp or queue flag. */";
     "SedsResult seds_router_log_bytes(SedsRouter * r, SedsDataType ty, const uint8_t * data, size_t len);";
     "";
     "/** @brief Legacy f32 logger without timestamp or queue flag. */";
     "SedsResult seds_router_log_f32(SedsRouter * r, SedsDataType ty, const float * vals, size_t n_vals);";
     "";
     "/** @brief Legacy typed logger without timestamp or queue flag. */";
     "SedsResult seds_router_log_typed(SedsRouter * r,";
     "                                 SedsDataType ty,";
     "                                 const void * data,";
     "                                 size_t count,";
     "                                 size_t elem_size,";
     "                                 SedsElemKind elem_kind);";
     "";
     "/** @brief Legacy typed logger that enqueues instead of sending immediately. */";
     "SedsResult seds_router_log_queue_typed(SedsRouter * r,";
     "                                       SedsDataType ty,";
     "                                       const void * data,";
     "                                       size_t count,";
     "                                       size_t elem_size,";
     "                                       SedsElemKind elem_kind);";
     "";
     "/** @brief Byte logger with optional timestamp + queue flag. */";
     "SedsResult seds_router_log_bytes_ex(SedsRouter * r,";
     "                                    SedsDataType ty,";
     "                                    const uint8_t * data,";
     "                                    size_t len,";
     "                                    const uint64_t * timestamp_ms_opt,";
     "                                    int queue);";
     "";
     "/** @brief f32 logger with optional timestamp + queue flag. */";
     "SedsResult seds_router_log_f32_ex(SedsRouter * r,";
     "                                  SedsDataType ty,";
     "                                  const float * vals,";
     "                                  size_t n_vals,";
     "                                  const uint64_t * timestamp_ms_opt,";
     "                                  int queue);"]%string).

(** ** Python *)

Definition triple_quote : Str := replicate 3 (b8 34).

Definition intenum_line (ident : Str) (value : Z) (member_doc : Str) : Str :=
  let doc := trim member_doc in
  lit "    " ++ ident ++ lit ": int = " ++ int_text value ++ match doc with [] => [] | _ => lit "  #: " ++ doc end.

Definition render_python_intenum (name doc : string) (members : list (Str * Z * Str)) : Str :=
  join_lines
    ([lit "class " ++ lit name ++ lit "(IntEnum):"; lit "    " ++ triple_quote ++ lit doc ++ triple_quote]
     ++ map (fun '(ident, value, member_doc) => intenum_line ident value member_doc) members).

(** [.iter().enumerate().map(..)] *)
Fixpoint numbered (i : Z) (items : list (string * option Str)) : list (Str * Z * Str) :=
  match items with
  | [] => []
  | (name, doc) :: items => (lit name, i, default [] doc) :: numbered (i + 1) items
  end.

Definition render_pyi_enums (cfg : BuildConfig) (sr : SedsResultEnum) : Str :=
  let dt := render_python_intenum "DataType" "Wire-level type tags (generated from telemetry_config.json)."
    (numbered 0 (type_items cfg)
     ++ [(lit "TELEMETRY_ERROR", Z.of_nat (length (bc_types cfg)), lit "Built-in telemetry error text (string payload).")]) in
  let ep := render_python_intenum "DataEndpoint" "Routing endpoints for packets (generated from telemetry_config.json)."
    (numbered 0 (endpoint_items cfg)
     ++ [(lit "TELEMETRY_ERROR", Z.of_nat (length (bc_endpoints cfg)), lit "Built-in telemetry error endpoint.")]) in
  let sr_txt := render_python_intenum "SedsResult" "Result/error codes (generated from TelemetryErrorCode)."
    (map (fun '(name, val) => (name, val, [])) sr) in
  dt ++ newline ++ newline ++ ep ++ newline ++ newline ++ sr_txt ++ newline.

(** ** The script in its environment *)

(** What the script reads and calls: environment variables (whose values are
    Unicode), files, the JSON parser and the regular expressions it searches the
    sources with. *)
Class BuildHost := {
  env_var : string -> option Str;
  read_file : Str -> option Str;
  file_exists : Str -> bool;
  can_create_dir : Str -> bool;
  can_write : Str -> bool;
  schema_from_json : Str -> option BuildConfig;
  schema_path_captures : Str -> list Str;
  enum_body_capture : Str -> option Str;
  enum_member_captures : Str -> list (Str * Str);
  (** what [{:?}] prints for a string *)
  debug_str : string -> Str
}.

(** What it leaves behind: the lines it printed, and the files it wrote. *)
Record BuildOutput := { printed : list Str; written : list (Str * Str) }.

Definition Script (A : Type) : Type := BuildOutput -> BuildOutput * BuildResult A.

#[export] Instance Script_bind : MBind Script := fun A B f m o =>
  let '(o, r) := m o in match r with Ok a => f a o | Err e => (o, Err e) | Panic => (o, Panic) end.
#[export] Instance Script_ret : MRet Script := fun A a o => (o, Ok a).

Definition of_result {A} (r : BuildResult A) : Script A := fun o => (o, r).
Definition println (line : Str) : Script unit := fun o => ({| printed := printed o ++ [line]; written := written o |}, Ok tt).

Fixpoint println_all (lines : list Str) : Script unit :=
  match lines with [] => mret tt | l :: lines => _ ← println l; println_all lines end.

(** Unix paths: [Path::is_absolute], [Path::join], and the directory of a file. *)
Definition slash : byte := b8 47.

Definition is_absolute (p : Str) : bool := match p with b :: _ => bool_decide (b = slash) | [] => false end.

Definition path_join (base p : Str) : Str :=
  if is_absolute p then p
  else match last base with
       | None => p
       | Some b => if bool_decide (b = slash) then base ++ p else base ++ slash :: p
       end.

Fixpoint drop_name (l : Str) : Str :=
  match l with [] => [] | b :: l => if bool_decide (b = slash) then l else drop_name l end.
Definition path_parent (p : Str) : Str := rev (drop_name (rev p)).

Definition SCHEMA_PATH_ENV : string := "SEDSPRINTF_RS_SCHEMA_PATH".
Definition IPC_SCHEMA_PATH_ENV : string := "SEDSPRINTF_RS_IPC_SCHEMA_PATH".
Definition HEADER_ENUMS_MARKER : Str := lit "/* {{AUTOGEN:ENUMS}} */".
Definition HEADER_ABI_MARKER : Str := lit "/* {{AUTOGEN:ABI}} */".
Definition PY_ENUMS_MARKER : Str := lit "/* {{AUTOGEN:PY_ENUMS}} */".

Definition changed (path : Str) : Str := lit "cargo:rerun-if-changed=" ++ path.
Definition env_changed (key : string) : Str := lit "cargo:rerun-if-env-changed=" ++ lit key.
Definition rustc_env (key : string) (path : Str) : Str := lit "cargo:rustc-env=" ++ lit key ++ lit "=" ++ path.

Section Script.
Context `{BuildHost}.

Definition read_or (e : Str -> BuildError) (path : Str) : Script Str :=
  of_result (match read_file path with Some text => Ok text | None => Err (e path) end).

(** The path named by the macro call in [config.rs]; several calls must agree. *)
Definition find_schema_path_from_config_rs (config_rs_path crate_dir : Str) : Script Str :=
  text ← read_or ReadFailed config_rs_path;
  of_result (match schema_path_captures text with
             | [] => Err (NoSchemaPath config_rs_path)
             | first_rel :: rest =>
                 if forallb (fun rel => bool_decide (rel = first_rel)) rest then Ok (path_join crate_dir first_rel)
                 else Err (DifferentSchemaPaths config_rs_path)
             end).

(** A path from the environment. *)
Definition env_path (key : string) (val crate_dir : Str) : Script Str :=
  of_result (if bool_decide (trim val = []) then Err (EnvEmpty key) else Ok (path_join crate_dir val)).

Definition resolve_schema_path (crate_dir config_rs_path : Str) : Script Str :=
  match env_var SCHEMA_PATH_ENV with
  | Some val => env_path SCHEMA_PATH_ENV val crate_dir
  | None =>
      let test_path := path_join crate_dir (lit "telemetry_config.test.json") in
      if bool_decide (is_Some (env_var "CARGO_CFG_TEST")) && file_exists test_path then
        _ ← println (rustc_env SCHEMA_PATH_ENV test_path);
        _ ← println (changed test_path);
        mret test_path
      else find_schema_path_from_config_rs config_rs_path crate_dir
  end.

Definition resolve_optional_overlay_path (crate_dir : Str) : Script (option Str) :=
  match env_var IPC_SCHEMA_PATH_ENV with
  | Some val => path ← env_path IPC_SCHEMA_PATH_ENV val crate_dir; mret (Some path)
  | None =>
      let test_ipc_path := path_join crate_dir (lit "telemetry_config.ipc.test.json") in
      if bool_decide (is_Some (env_var "CARGO_CFG_TEST")) && file_exists test_ipc_path then
        _ ← println (rustc_env IPC_SCHEMA_PATH_ENV test_ipc_path);
        _ ← println (changed test_ipc_path);
        mret (Some test_ipc_path)
      else mret None
  end.

Definition load_schema_absolute (path : Str) : Script BuildConfig :=
  bytes ← read_or ReadFailed path;
  of_result (match schema_from_json bytes with Some cfg => Ok cfg | None => Err (ParseFailed path) end).

Definition warning_line (w : BuildWarning) : Str :=
  match w with
  | NormalizedNever name =>
      lit "cargo:warning=Deprecated telemetry schema field broadcast_mode=" ++ [b8 34] ++ lit "Never" ++ [b8 34]
      ++ lit " on endpoint " ++ lit name ++ lit " was normalized to link_local_only=true"
  | IgnoredMode name =>
      lit "cargo:warning=Deprecated telemetry schema field broadcast_mode on endpoint " ++ lit name
      ++ lit " is ignored; discovery now controls remote routing"
  | UnknownMode mode name =>
      lit "cargo:warning=Unknown deprecated broadcast_mode value " ++ debug_str mode
      ++ lit " on endpoint " ++ lit name ++ lit "; ignoring it"
  end.

Definition is_timesync_enabled : bool := bool_decide (is_Some (env_var "CARGO_FEATURE_TIMESYNC")).
Definition is_discovery_enabled : bool := bool_decide (is_Some (env_var "CARGO_FEATURE_DISCOVERY")).

Definition parse_seds_result_from_lib_rs (lib_rs_path : Str) : Script SedsResultEnum :=
  text ← read_or ReadFailed lib_rs_path;
  of_result (match enum_body_capture text with
             | None => Err (NoErrorEnum lib_rs_path)
             | Some body => seds_result_members lib_rs_path (enum_member_captures body)
             end).

Fixpoint inject (path : Str) (replacements : list (Str * Str)) (text : Str) : BuildResult Str :=
  match replacements with
  | [] => Ok text
  | (marker, injected) :: replacements =>
      if str_contains marker text then inject path replacements (str_replace marker injected text)
      else Err (MissingMarker path marker)
  end.

(** [fs::write] *)
Definition write_file (path text : Str) : Script unit := fun o =>
  if can_write path then ({| printed := printed o; written := written o ++ [(path, text)] |}, Ok tt)
  else (o, Err (WriteFailed path)).

Definition write_injected_many (template_path : Str) (replacements : list (Str * Str)) (out_path : Str) : Script unit :=
  tpl ← read_or ReadFailed template_path;
  final_text ← of_result (inject template_path replacements tpl);
  _ ← of_result (if can_create_dir (path_parent out_path) then Ok tt else Err (CreateFailed (path_parent out_path)));
  write_file out_path final_text.

(** The variables of [config.rs], in the order of the triggers. *)
Definition config_keys : list string :=
  ["DEVICE_IDENTIFIER"; "MAX_RECENT_RX_IDS"; "STARTING_QUEUE_SIZE"; "MAX_QUEUE_BUDGET"; "MAX_QUEUE_SIZE"; "QUEUE_GROW_STEP";
   "PAYLOAD_COMPRESS_THRESHOLD"; "STATIC_STRING_LENGTH"; "STATIC_HEX_LENGTH"; "STRING_PRECISION"; "MAX_STACK_PAYLOAD";
   "MAX_HANDLER_RETRIES"; "RELIABLE_RETRANSMIT_MS"; "RELIABLE_MAX_RETRIES"; "RELIABLE_MAX_PENDING"; "RELIABLE_MAX_RETURN_ROUTES";
   "RELIABLE_MAX_END_TO_END_PENDING"; "RELIABLE_MAX_END_TO_END_ACK_CACHE"]%string.

(** The schema as [main] loads it, with the warnings it prints on the way. *)
Definition load_build_schema (schema_path : Str) (ipc_schema_path : option Str) : Script BuildConfig :=
  base ← load_schema_absolute schema_path;
  let '(cfg, warnings) := build_normalize_base_schema base in
  _ ← println_all (map warning_line warnings);
  cfg ← match ipc_schema_path with
        | Some path => overlay ← load_schema_absolute path; of_result (build_merge_ipc_overlay cfg overlay)
        | None => mret cfg
        end;
  _ ← of_result (validate_schema cfg is_timesync_enabled is_discovery_enabled);
  let cfg := if is_timesync_enabled then append_timesync_builtins cfg else cfg in
  mret (if is_discovery_enabled then append_discovery_builtins cfg else cfg).

Definition build_main : Script unit :=
  if bool_decide (is_Some (env_var "SEDSPRINTF_RS_SKIP_ENUMGEN")) then
    println (lit "cargo:warning=Skipping enum generation (SEDSPRINTF_RS_SKIP_ENUMGEN set)")
  else
    crate_dir ← of_result (match env_var "CARGO_MANIFEST_DIR" with Some d => Ok d | None => Err (EnvMissing "CARGO_MANIFEST_DIR") end);
    let config_rs_path := path_join crate_dir (default (lit "src/config.rs") (env_var "SEDSPRINTF_RS_CONFIG_RS")) in
    let lib_rs_path := path_join crate_dir (default (lit "src/lib.rs") (env_var "SEDSPRINTF_RS_LIB_RS")) in
    let c_api_rs_path := path_join crate_dir (lit "src/c_api.rs") in
    _ ← println_all [changed config_rs_path; changed lib_rs_path; changed c_api_rs_path];
    schema_path ← resolve_schema_path crate_dir config_rs_path;
    ipc_schema_path ← resolve_optional_overlay_path crate_dir;
    _ ← println_all (changed schema_path :: match ipc_schema_path with Some path => [changed path] | None => [] end);
    _ ← println_all (map env_changed
          (["SEDSPRINTF_RS_CONFIG_RS"; "SEDSPRINTF_RS_LIB_RS"; "SEDSPRINTF_RS_SKIP_ENUMGEN"; SCHEMA_PATH_ENV; IPC_SCHEMA_PATH_ENV;
            "CARGO_FEATURE_TIMESYNC"]%string ++ config_keys));
    _ ← println_all (rustc_env "SEDSPRINTF_RS_SCHEMA_JSON" schema_path
                     :: match ipc_schema_path with Some path => [rustc_env IPC_SCHEMA_PATH_ENV path] | None => [] end);
    let header_tpl_path := path_join crate_dir (lit "header_templates/sedsprintf.h.txt") in
    let pyi_tpl_path := path_join crate_dir (lit "header_templates/sedsprintf_rs.pyi.txt") in
    _ ← println_all [changed header_tpl_path; changed pyi_tpl_path];
    cfg ← load_build_schema schema_path ipc_schema_path;
    seds_result ← parse_seds_result_from_lib_rs lib_rs_path;
    let '(c_dt, c_ep) := render_c_enums cfg in
    let c_sr := render_c_enum_seds_result seds_result in
    let c_enums_joined := c_dt ++ newline ++ newline ++ c_ep ++ newline ++ newline ++ c_sr ++ newline in
    let pyi := render_pyi_enums cfg seds_result in
    _ ← write_injected_many header_tpl_path [(HEADER_ENUMS_MARKER, c_enums_joined); (HEADER_ABI_MARKER, render_c_abi_decls)]
          (path_join crate_dir (lit "C-Headers/sedsprintf.h"));
    write_injected_many pyi_tpl_path [(PY_ENUMS_MARKER, pyi)]
      (path_join (path_join (path_join crate_dir (lit "python-files")) (lit "sedsprintf_rs")) (lit "sedsprintf_rs.pyi")).
End Script.

(** ** Reading C

    A reader of C enums: comments are skipped, words and punctuation are tokens.
    (Line splices are not read.) *)

Definition star : byte := b8 42.

Definition word_char (b : byte) : bool := upper b || lower b || digit b || (u8 b =? 95) || (u8 b =? 45).
Definition blank_char (b : byte) : bool := (u8 b =? 32) || (u8 b =? 10).

Definition flush (cur : Str) : list Str := match cur with [] => [] | _ => [cur] end.

Fixpoint c_tokens (comment : bool) (cur : Str) (l : Str) : list Str :=
  match l with
  | [] => flush cur
  | b :: l' =>
      if comment then
        match l' with
        | c :: l'' => if bool_decide (b = star) && bool_decide (c = slash) then c_tokens false [] l'' else c_tokens true [] l'
        | [] => []
        end
      else if word_char b then c_tokens false (cur ++ [b]) l'
      else flush cur ++
        match l' with
        | c :: l'' => if bool_decide (b = slash) && bool_decide (c = star) then c_tokens true [] l''
                      else (if blank_char b then [] else [[b]]) ++ c_tokens false [] l'
        | [] => if blank_char b then [] else [[b]]
        end
  end.

(** A decimal number, with a sign or without. *)
Definition c_int (t : Str) : option Z :=
  match t with
  | b :: l => if u8 b =? 45 then Z.opp <$> read_digits 0 l else read_digits 0 t
  | [] => None
  end.

Fixpoint read_enumerators (ts : list Str) : option (list (Str * Z) * list Str) :=
  match ts with
  | t :: ts' =>
      if bool_decide (t = lit "}") then Some ([], ts')
      else match ts' with
           | eq :: v :: comma :: rest =>
               if bool_decide (eq = lit "=") && bool_decide (comma = lit ",") then
                 n ← c_int v; '(l, r) ← read_enumerators rest; Some ((t, n) :: l, r)
               else None
           | _ => None
           end
  | [] => None
  end.

(** [typedef enum NAME { A = 0, B = 1, } NAME;] *)
Definition read_c_enum (text : Str) : option (Str * list (Str * Z)) :=
  match c_tokens false [] text with
  | k1 :: k2 :: name :: open :: ts =>
      if bool_decide (k1 = lit "typedef") && bool_decide (k2 = lit "enum") && bool_decide (open = lit "{") then
        '(rows, r) ← read_enumerators ts;
        match r with
        | [name'; semi] => if bool_decide (name' = name) && bool_decide (semi = lit ";") then Some (name, rows) else None
        | _ => None
        end
      else None
  | _ => None
  end.

(** ** The reader reads what was written *)

Lemma tokens_word w rest cur : Forall (fun b => word_char b = true) w ->
  c_tokens false cur (w ++ rest) = c_tokens false (cur ++ w) rest.
Proof.
  intros Hw. revert cur. induction Hw as [|b w Hb Hw IH]; intros cur; [by rewrite app_nil_r|].
  cbn [app c_tokens]. by rewrite Hb, IH, <- app_assoc.
Qed.

(** A word ends where a character follows that is none of a word. *)
Lemma tokens_word_end w b rest : Forall (fun b => word_char b = true) w -> w <> [] -> word_char b = false ->
  c_tokens false [] (w ++ b :: rest) = w :: c_tokens false [] (b :: rest).
Proof.
  intros Hw Hne Hb. rewrite tokens_word by done. cbn [app c_tokens]. rewrite Hb. by destruct w.
Qed.

Lemma tokens_blank b rest : blank_char b = true -> word_char b = false -> b <> slash ->
  c_tokens false [] (b :: rest) = c_tokens false [] rest.
Proof.
  intros Hb Hw Hs. cbn [c_tokens]. rewrite Hw, Hb. destruct rest as [|c rest]; [done|]. by rewrite bool_decide_eq_false_2.
Qed.

Lemma tokens_punct b rest : blank_char b = false -> word_char b = false -> b <> slash ->
  c_tokens false [] (b :: rest) = [b] :: c_tokens false [] rest.
Proof.
  intros Hb Hw Hs. cbn [c_tokens]. rewrite Hw, Hb. destruct rest as [|c rest]; [done|]. by rewrite bool_decide_eq_false_2.
Qed.

Lemma replace_head pat text b l : strip_prefix pat (b :: l) = None -> replace_from pat text 0 (b :: l) = b :: replace_from pat text 0 l.
Proof. intros E. cbn [replace_from]. by rewrite E. Qed.

Lemma replace_hit l :
  replace_from (lit "*/") (lit "* /") 0 (Byte.x2a :: Byte.x2f :: l) = lit "* /" ++ replace_from (lit "*/") (lit "* /") 0 l.
Proof. cbn. by rewrite !bool_decide_eq_true_2. Qed.

(** A comment's text, once sanitized, does not end the comment. *)
Lemma comment_skipped n d rest : (length d <= n)%nat ->
  c_tokens true [] (sanitize_c_comment d ++ lit " */" ++ rest) = c_tokens false [] rest.
Proof.
  unfold sanitize_c_comment, str_replace. revert d. induction n as [|n IH]; intros [|b d] Hd; cbn in Hd; try lia; [done|done|].
  destruct (strip_prefix (lit "*/") (b :: d)) as [l|] eqn:E.
  - cbn in E. destruct d as [|c d]; [by destruct (bool_decide _)|]. repeat case_bool_decide; simplify_eq.
    rewrite replace_hit, <- (IH l) by (cbn in Hd; lia). rewrite <- app_assoc.
    by destruct (replace_from (lit "*/") (lit "* /") 0 l ++ lit " */" ++ rest).
  - rewrite replace_head by done. cbn [app c_tokens].
    destruct d as [|c d]; [cbn; rewrite andb_false_r; apply (IH [] ltac:(cbn; lia))|].
    assert (exists l, replace_from (lit "*/") (lit "* /") 0 (c :: d) = c :: l) as [l Hl].
    { destruct (strip_prefix (lit "*/") (c :: d)) eqn:E'; [|rewrite replace_head by done; by eexists].
      cbn in E'. case_bool_decide; [subst c|done]. destruct d; [done|]. case_bool_decide; [subst|done]. by eexists. }
    pose proof (IH (c :: d) ltac:(cbn in *; lia)) as Hc. rewrite Hl in *. cbn [app] in *.
    assert (bool_decide (b = star) && bool_decide (c = slash) = false) as ->; [|done].
    cbn in E. unfold star, slash. repeat case_bool_decide; subst; try done.
Qed.

(** ** Lines *)

(** The tokens of a line, whatever follows it. *)
Definition gives (line : Str) (ts : list Str) : Prop :=
  forall rest, c_tokens false [] (line ++ newline ++ rest) = ts ++ c_tokens false [] (newline ++ rest).

Lemma join_lines_cons l k : k <> [] -> join_lines (l :: k) = l ++ newline ++ join_lines k.
Proof. unfold join_lines. destruct k; [done|]. intros _. by cbn [join]. Qed.

Lemma tokens_newline rest : c_tokens false [] (newline ++ rest) = c_tokens false [] rest.
Proof. by apply tokens_blank. Qed.

Lemma lines_tokens ls tss k : Forall2 gives ls tss -> k <> [] ->
  c_tokens false [] (join_lines (ls ++ k)) = concat tss ++ c_tokens false [] (join_lines k).
Proof.
  intros Hls Hk. induction Hls as [|l ts ls tss Hl Hls IH]; [done|]. cbn [app concat].
  rewrite join_lines_cons by (by destruct ls). rewrite Hl, tokens_newline, IH. by rewrite app_assoc.
Qed.

Lemma digit_word b : is_Some (digit_value b) -> word_char b = true.
Proof.
  unfold digit_value, in_range, word_char, digit. intros [d Hd].
  destruct ((48 <=? u8 b) && (u8 b <=? 57)); [by rewrite orb_true_r|done].
Qed.

Lemma int_text_word n : Forall (fun b => word_char b = true) (int_text n).
Proof.
  unfold int_text. destruct (Z.ltb_spec n 0).
  - constructor; [done|]. eapply Forall_impl; [apply decimal_digits_digits; lia|apply digit_word].
  - eapply Forall_impl; [apply decimal_digits_digits; lia|apply digit_word].
Qed.

Lemma int_text_nonempty n : int_text n <> [].
Proof. unfold int_text. destruct (n <? 0); [done|]. apply decimal_digits_nonempty. Qed.

Lemma c_int_text n : Z.abs n < 10 ^ 40 -> c_int (int_text n) = Some n.
Proof.
  intros Hn. unfold int_text. destruct (Z.ltb_spec n 0).
  - cbn [c_int]. change (u8 (b8 45) =? 45) with true. rewrite read_decimal by (cbn [Z.of_nat]; lia). cbn. f_equal. lia.
  - pose proof (read_decimal 40 n ltac:(cbn [Z.of_nat]; lia)) as Hr.
    pose proof (decimal_digits_digits 40 n ltac:(lia)) as Hd.
    destruct (decimal_digits 40 n []) as [|b l] eqn:E; [by apply decimal_digits_nonempty in E|].
    cbn [c_int]. destruct (Z.eqb_spec (u8 b) 45) as [Hb|]; [|done]. apply Forall_cons in Hd as [Hb' _].
    unfold digit_value, in_range in Hb'. rewrite Hb in Hb'. by destruct Hb'.
Qed.

Definition word (w : Str) : Prop := Forall (fun b => word_char b = true) w /\ w <> [].

Lemma enumerator_gives name v : word name -> gives (enumerator_line name v) [name; lit "="; int_text v; lit ","].
Proof.
  intros [Hw Hne] rest. unfold enumerator_line. rewrite <- !app_assoc.
  change (lit "  ") with [b8 32; b8 32]. change (lit " = ") with [b8 32; b8 61; b8 32]. change (lit ",") with [b8 44].
  cbn [app]. rewrite !tokens_blank, tokens_word_end, tokens_blank, tokens_punct, tokens_blank by done.
  rewrite tokens_word_end by (done || apply int_text_word || apply int_text_nonempty). by rewrite tokens_punct.
Qed.

Lemma comment_gives doc : Forall2 gives (comment_line doc) (map (fun _ => []) (comment_line doc)).
Proof.
  destruct doc as [|b doc]; cbn [comment_line map]; constructor; [|done]. intros rest.
  rewrite <- !app_assoc. change (lit "  /* ") with [b8 32; b8 32; slash; star; b8 32]. cbn [app].
  rewrite !tokens_blank by done. cbn [c_tokens]. change (word_char slash) with false. cbn [flush app].
  rewrite !bool_decide_eq_true_2 by done. cbn [andb].
  rewrite <- (comment_skipped _ (b :: doc) (newline ++ rest) (Nat.le_refl _)). unfold sanitize_c_comment, str_replace.
  by destruct (replace_from _ _ _ (b :: doc)).
Qed.

(** ** Enums *)

(** The enumerators of numbered items. *)
Fixpoint rows_of (prefix : string) (i : Z) (items : list (string * option Str)) : list (Str * Z) :=
  match items with
  | [] => []
  | (name, _) :: items => (lit prefix ++ lit name, i) :: rows_of prefix (i + 1) items
  end.

Definition row_tokens (row : Str * Z) : list Str := [fst row; lit "="; int_text (snd row); lit ","].

Definition row_ok (row : Str * Z) : Prop := word (fst row) /\ Z.abs (snd row) < 10 ^ 40.

Lemma word_app p w : word p -> Forall (fun b => word_char b = true) w -> word (p ++ w).
Proof. intros [Hp Hne] Hw. split; [by apply Forall_app|]. by destruct p. Qed.

Lemma item_lines_give prefix i items : word (lit prefix) ->
  Forall (fun it => Forall (fun b => word_char b = true) (lit (fst it))) items ->
  exists tss, Forall2 gives (item_lines prefix i items) tss /\ concat tss = concat (map row_tokens (rows_of prefix i items)).
Proof.
  intros Hp Hi. revert i. induction Hi as [|[name doc] items Hn Hi IH]; intros i; [by exists []|].
  destruct (IH (i + 1)) as (tss & Hg & E). cbn [item_lines rows_of map concat].
  exists (map (fun _ => []) (comment_line (doc_text doc)) ++ [row_tokens (lit prefix ++ lit name, i)] ++ tss). split.
  - apply Forall2_app; [apply comment_gives|]. constructor; [|exact Hg]. apply enumerator_gives. by apply word_app.
  - rewrite concat_app. cbn [app concat]. rewrite E.
    assert (concat (map (fun _ => []) (comment_line (doc_text doc))) = [] :> list Str) as -> by (by destruct (doc_text doc)). done.
Qed.

Lemma read_rows rows ts : Forall row_ok rows ->
  read_enumerators (concat (map row_tokens rows) ++ lit "}" :: ts) = Some (rows, ts).
Proof.
  intros Hr. induction Hr as [|[name v] rows [[Hw Hne] Hv] Hr IH]; [done|]. cbn [map concat].
  change (row_tokens (name, v)) with [name; lit "="; int_text v; lit ","]. cbn [app read_enumerators].
  rewrite bool_decide_eq_false_2.
  2: { intros ->. by apply Forall_cons in Hw as [? _]. }
  rewrite !bool_decide_eq_true_2 by done. cbn [andb]. cbn [fst snd] in *. rewrite c_int_text by done.
  cbn [mbind option_bind]. by rewrite IH.
Qed.

(** An enum is read as its rows. *)
Lemma enum_read name opening closing ls tss rows :
  gives opening [lit "typedef"; lit "enum"; name; lit "{"] -> c_tokens false [] closing = [lit "}"; name; lit ";"] ->
  Forall2 gives ls tss -> concat tss = concat (map row_tokens rows) -> Forall row_ok rows ->
  read_c_enum (join_lines ([opening] ++ ls ++ [closing])) = Some (name, rows).
Proof.
  intros Ho Hc Hl Ht Hr. unfold read_c_enum. cbn [app].
  rewrite join_lines_cons, Ho, tokens_newline by (by destruct ls). rewrite (lines_tokens ls tss) by done. cbn [app].
  rewrite !bool_decide_eq_true_2 by done. cbn [andb]. rewrite Ht. unfold join_lines at 1. cbn [join]. rewrite Hc.
  rewrite read_rows by done. cbn. by rewrite !bool_decide_eq_true_2.
Qed.

Definition items_ok (items : list (string * option Str)) : Prop :=
  Forall (fun it => forallb caps_char (lit (fst it)) = true) items /\ Z.of_nat (length items) < 10 ^ 39.

Lemma caps_word l : forallb caps_char l = true -> Forall (fun b => word_char b = true) l.
Proof.
  intros Hl. apply Forall_forall. intros b Hb. apply list_elem_of_In in Hb. rewrite forallb_forall in Hl.
  specialize (Hl b Hb). unfold caps_char in Hl. unfold word_char, upper, digit.
  repeat (apply orb_true_iff in Hl as [Hl|Hl]); rewrite Hl; by rewrite ?orb_true_r.
Qed.

Lemma rows_of_ok prefix i items : word (lit prefix) -> 0 <= i -> i + Z.of_nat (length items) < 10 ^ 40 ->
  Forall (fun it => forallb caps_char (lit (fst it)) = true) items -> Forall row_ok (rows_of prefix i items).
Proof.
  intros Hp Hi Hl Hc. revert i Hi Hl. induction Hc as [|[name doc] items Hn Hc IH]; intros i Hi Hl; [constructor|].
  cbn [length] in Hl. constructor; [|apply IH; lia]. split; [by apply word_app, caps_word|]. cbn [snd]. rewrite Z.abs_eq; lia.
Qed.

Lemma error_row_ok name n : word (lit name) -> 0 <= n < 10 ^ 40 -> row_ok (lit name, n).
Proof. intros Hw Hn. split; [done|]. cbn [snd]. rewrite Z.abs_eq; lia. Qed.

(** Both schema enums are items, a comment and the error entry. *)
Lemma schema_enum_read prefix error_name comment name opening closing items :
  word (lit prefix) -> word (lit error_name) -> gives comment [] ->
  gives opening [lit "typedef"; lit "enum"; name; lit "{"] -> c_tokens false [] closing = [lit "}"; name; lit ";"] ->
  items_ok items ->
  read_c_enum (join_lines ([opening] ++ item_lines prefix 0 items
    ++ [comment; enumerator_line (lit error_name) (Z.of_nat (length items)); closing]))
  = Some (name, rows_of prefix 0 items ++ [(lit error_name, Z.of_nat (length items))]).
Proof.
  intros Hp He Hcom Ho Hc [Hi Hlen]. destruct (item_lines_give prefix 0 items Hp) as (tss & Hg & E).
  { eapply Forall_impl; [exact Hi|]. intros it. apply caps_word. }
  assert (item_lines prefix 0 items ++ [comment; enumerator_line (lit error_name) (Z.of_nat (length items)); closing]
    = (item_lines prefix 0 items ++ [comment; enumerator_line (lit error_name) (Z.of_nat (length items))]) ++ [closing]) as ->
    by (by rewrite <- app_assoc).
  eapply (enum_read _ _ _ _ (tss ++ [[]; row_tokens (lit error_name, Z.of_nat (length items))])); [done|done| | |].
  - apply Forall2_app; [done|]. constructor; [done|]. constructor; [|done]. by apply enumerator_gives.
  - by rewrite concat_app, E, map_app, concat_app.
  - apply Forall_app. split; [apply rows_of_ok; try done; lia|]. constructor; [|done]. apply error_row_ok; [done|lia].
Qed.

Lemma datatype_enum_read cfg : items_ok (type_items cfg) ->
  read_c_enum (render_c_enum_datatype cfg)
  = Some (lit "SedsDataType", rows_of "SEDS_DT_" 0 (type_items cfg) ++ [(lit "SEDS_DT_TELEMETRY_ERROR", Z.of_nat (length (bc_types cfg)))]).
Proof.
  intros Hi. assert (length (bc_types cfg) = length (type_items cfg)) as Hl by (unfold type_items; by rewrite length_map).
  unfold render_c_enum_datatype. rewrite Hl. apply schema_enum_read; try done; by repeat constructor.
Qed.

Lemma endpoint_enum_read cfg : items_ok (endpoint_items cfg) ->
  read_c_enum (render_c_enum_endpoint cfg)
  = Some (lit "SedsDataEndpoint",
          rows_of "SEDS_EP_" 0 (endpoint_items cfg) ++ [(lit "SEDS_EP_TELEMETRY_ERROR", Z.of_nat (length (bc_endpoints cfg)))]).
Proof.
  intros Hi. assert (length (bc_endpoints cfg) = length (endpoint_items cfg)) as Hl by (unfold endpoint_items; by rewrite length_map).
  unfold render_c_enum_endpoint. rewrite Hl. apply schema_enum_read; try done; by repeat constructor.
Qed.

(** The result codes. *)
Lemma result_enum_read sr : Forall row_ok sr -> read_c_enum (render_c_enum_seds_result sr) = Some (lit "SedsResult", sr).
Proof.
  intros Hr. unfold render_c_enum_seds_result. eapply (enum_read _ _ _ _ (map row_tokens sr)); [done|done| |done|done].
  induction Hr as [|[name v] sr [Hw _] Hr IH]; constructor; [by apply enumerator_gives|done].
Qed.
