(* ===== verification/HeaderNumbers.v ===== *)
(** * The numbers of the generated header ([build.rs] against the schema macro)

    The build script and the macro [define_telemetry_schema!] read the same
    schema file with code of their own.  Here: every schema the macro accepts,
    the script accepts, and the numbers in the C header against the discriminants
    of the compiled enums. *)

From S2P Require Import Prelude Ordered Telemetry Config Schema Queue SmallPayload Wire Packet Calendar Text CText Build Header.

(** ** One file, read twice *)

Definition macro_endpoint (ep : BuildEndpoint) : JsonEndpoint :=
  {| je_rust := be_rust ep; je_name := be_name ep; deprecated_broadcast_mode := be_broadcast_mode ep;
     je_link_local_only := be_link_local_only ep |}.

Definition json_data_type (el : JsonElement) : string :=
  match el with JStatic _ data_type | JDynamic data_type => data_type end.

Record same_type (b : BuildType) (j : JsonType) : Prop := {
  st_rust : bt_rust b = jt_rust j;
  st_name : bt_name b = jt_name j;
  st_data_type : build_data_type (bt_element b) = json_data_type (jt_element j);
  st_class : bt_class b = jt_class j;
  st_endpoints : bt_endpoints b = jt_endpoints j
}.

Definition same_file (b : BuildConfig) (j : TelemetryConfig) : Prop :=
  tc_endpoints j = map macro_endpoint (bc_endpoints b) /\ Forall2 same_type (bc_types b) (tc_types j).

Lemma same_types_map {A} (f : BuildType -> A) (g : JsonType -> A) bs js :
  Forall2 same_type bs js -> (forall b j, same_type b j -> f b = g j) -> map f bs = map g js.
Proof. intros Hs Hf. induction Hs as [|b j bs js Hb Hs IH]; [done|]. cbn. by rewrite (Hf b j Hb), IH. Qed.

Lemma normalize_same b j : same_file b j -> same_file (fst (build_normalize_base_schema b)) (normalize_base_schema j).
Proof.
  intros [He Ht]. split; [|done]. cbn. rewrite He, !map_map. apply map_ext. intros ep.
  unfold be_normalize, be_normalize_endpoint_legacy_fields, normalize_endpoint_legacy_fields, is_never, macro_endpoint. cbn.
  destruct (be_broadcast_mode ep) as [mode|] eqn:Em; cbn.
  - destruct (String.eqb_spec mode "Never") as [->|Hne]; cbn.
    + rewrite bool_decide_eq_true_2 by done. unfold set_link_local. cbn. by rewrite Em.
    + destruct (String.eqb mode "Default" || String.eqb mode "Always"); cbn;
        rewrite bool_decide_eq_false_2 by congruence; unfold set_link_local; cbn;
        by rewrite (proj2 (String.eqb_neq _ _) Hne), Em.
  - rewrite bool_decide_eq_false_2 by (by rewrite Em). unfold set_link_local. cbn. by rewrite Em.
Qed.

Lemma insert_pairs_accepted seen_r seen_n l mkr mkn :
  insert_pairs seen_r seen_n l mkr mkn = Ok tt -> build_insert_pairs seen_r seen_n l = Ok tt.
Proof.
  revert seen_r seen_n. induction l as [|[r n] l IH]; intros seen_r seen_n; [done|]. cbn.
  destruct (mem r seen_r); [done|]. destruct (mem n seen_n); [done|]. apply IH.
Qed.

Lemma merge_same b j ob oj cfg : same_file b j -> same_file ob oj -> merge_ipc_overlay j oj = Ok cfg ->
  exists bcfg, build_merge_ipc_overlay b ob = Ok bcfg /\ same_file bcfg cfg.
Proof.
  intros [He Ht] [Hoe Hot] H. unfold merge_ipc_overlay in H. apply bind_ok in H as ([] & H1 & H). apply bind_ok in H as ([] & H2 & H).
  injection H as <-. unfold build_merge_ipc_overlay.
  apply insert_pairs_accepted in H1, H2. rewrite He, Hoe, !map_map in H1. cbn in H1.
  rewrite <- (same_types_map bt_rust jt_rust _ _ Ht), <- (same_types_map bt_name jt_name _ _ Ht) in H2 by (by intros ?? []).
  rewrite <- (same_types_map (fun ty => (bt_rust ty, bt_name ty)) (fun ty => (jt_rust ty, jt_name ty)) _ _ Hot) in H2
    by (intros ?? [-> -> _ _ _]; done).
  assert (build_insert_pairs (map be_rust (bc_endpoints b)) (map be_name (bc_endpoints b))
    (map (fun ep => (be_rust ep, be_name ep)) (map (be_set_link_local true) (bc_endpoints ob))) = Ok tt) as ->
    by (rewrite map_map; exact H1).
  cbn. rewrite H2. cbn. eexists. split; [done|]. split; cbn.
  - by rewrite He, Hoe, map_app, !map_map.
  - by apply Forall2_app.
Qed.

Definition same_overlay (b : option BuildConfig) (j : option TelemetryConfig) : Prop :=
  match b, j with
  | Some b, Some j => same_file b j
  | None, None => True
  | _, _ => False
  end.

(** The schema as both have it before validation. *)
Lemma load_same b j ob oj cfg : same_file b j -> same_overlay ob oj -> load_merged_schema j oj = Ok cfg ->
  exists bcfg, (match ob with Some o => build_merge_ipc_overlay (fst (build_normalize_base_schema b)) o
                | None => Ok (fst (build_normalize_base_schema b)) end) = Ok bcfg /\ same_file bcfg cfg.
Proof.
  intros Hb Ho H. apply normalize_same in Hb. unfold load_merged_schema in H. destruct ob as [ob|], oj as [oj|]; try done.
  - by eapply merge_same.
  - injection H as <-. by eexists.
Qed.

(** ** Validation *)

Lemma build_all_forall {A} (f : A -> BuildResult unit) l : Forall (fun a => f a = Ok tt) l -> build_all f l = Ok tt.
Proof. induction 1 as [|a l Ha Hl IH]; [done|]. cbn. by rewrite Ha. Qed.

Lemma caps_accepted s : ensure_caps_name s = Ok tt -> forallb caps_char (lit s) = true.
Proof. unfold ensure_caps_name. destruct (lit s) as [|c l]; [done|]. by destruct (forallb _ _). Qed.

Lemma find_macro_endpoint r eps :
  List.find (fun ep => String.eqb (je_rust ep) r) (map macro_endpoint eps)
  = option_map macro_endpoint (List.find (fun ep => String.eqb (be_rust ep) r) eps).
Proof. induction eps as [|ep eps IH]; [done|]. cbn. by destruct (String.eqb (be_rust ep) r). Qed.

Lemma existsb_ext {A} (f g : A -> bool) l : (forall a, f a = g a) -> existsb f l = existsb g l.
Proof. intros Hfg. induction l as [|a l IH]; [done|]. cbn. by rewrite Hfg, IH. Qed.

Lemma mixes_same eps b j : same_type b j ->
  mixes_link_local (map macro_endpoint eps) j = saw_endpoint eps b true && saw_endpoint eps b false.
Proof.
  intros [_ _ _ _ He]. unfold mixes_link_local, saw_endpoint. rewrite He.
  f_equal; apply existsb_ext; intros r; rewrite find_macro_endpoint; (destruct (List.find _ eps) as [ep|]; cbn; [|done]);
    apply bool_decide_ext; (split; [by intros [=]|by intros ->]).
Qed.

Lemma resolved_name {A} (names : list (string * A)) s a : resolve names s = Ok a -> s ∈ map fst names.
Proof. intros Hr%resolve_in. change s with (fst (s, a)). by apply list_elem_of_In, in_map, list_elem_of_In. Qed.

(** No name the macro resolves is blank. *)
Lemma none_blank l s : forallb (fun s => negb (blank s)) l = true -> s ∈ l -> blank s = false.
Proof. rewrite forallb_forall. intros Hl Hs%list_elem_of_In. by apply negb_true_iff, Hl. Qed.

Lemma datatype_not_blank s : s ∈ map fst datatype_names -> blank s = false.
Proof. apply none_blank. vm_compute. reflexivity. Qed.

Lemma class_not_blank s : s ∈ map fst class_names -> blank s = false.
Proof. apply none_blank. vm_compute. reflexivity. Qed.

Lemma mem_spec s l : mem s l = true <-> s ∈ l.
Proof.
  unfold mem. rewrite existsb_exists, list_elem_of_In. split; [by intros (t & Ht & ->%String.eqb_eq)|].
  intros Hs. exists s. split; [done|apply String.eqb_refl].
Qed.

(** The Rust names of a file are plain: ASCII letters, digits and underscores.
    The macro takes what syn parses as an identifier, with Unicode names and raw
    identifiers among them; the script takes only the plain ones. *)
Definition plain_names (c : TelemetryConfig) : Prop :=
  Forall (fun ep => simple_ident (je_rust ep) = true) (tc_endpoints c)
  /\ Forall (fun ty => simple_ident (jt_rust ty) = true) (tc_types c).

Lemma load_merged_plain base overlay cfg :
  load_merged_schema base overlay = Ok cfg -> plain_names base -> (forall o, overlay = Some o -> plain_names o) -> plain_names cfg.
Proof.
  intros Hl [He Ht] Ho. assert (plain_names (normalize_base_schema base)) as [He' Ht'].
  { split; [|exact Ht]. unfold normalize_base_schema. cbn [tc_endpoints]. rewrite Forall_map.
    eapply Forall_impl; [exact He|]. intros ep Hep.
    assert (simple_ident (je_rust (normalize_endpoint_legacy_fields ep)) = true) as Hn
      by (unfold normalize_endpoint_legacy_fields; destruct (deprecated_broadcast_mode ep); [case_match|]; exact Hep).
    destruct (is_never _); exact Hn. }
  revert Hl. unfold load_merged_schema. destruct overlay as [o|]; [|by intros [= <-]].
  destruct (Ho o eq_refl) as [Heo Hto]. unfold merge_ipc_overlay. intros H. repeat res_step. injection H as <-.
  split; cbn [tc_endpoints tc_types]; apply Forall_app; (split; [done|]); [by rewrite Forall_map|done].
Qed.

Section Accepted.
Context (valid_ident : string -> bool).

Lemma type_not_reserved b j : same_type b j -> type_reserved j = false -> check_type_not_reserved b = Ok tt.
Proof.
  intros [Hr Hn _ _ _] Hres. unfold check_type_not_reserved. change (build_is_timesync_type b) with (is_timesync_type
    {| jt_rust := bt_rust b; jt_name := bt_name b; jt_reliable := None; jt_reliable_mode := None; jt_priority := None;
       jt_element := jt_element j; jt_class := ""; jt_endpoints := [] |}).
  unfold type_reserved in Hres. unfold is_timesync_type, is_discovery_json_type, build_is_discovery_type in *. cbn [jt_rust jt_name].
  rewrite Hr, Hn, Hres. done.
Qed.

Lemma endpoint_not_reserved ep : endpoint_reserved (macro_endpoint ep) = false -> check_endpoint_not_reserved ep = Ok tt.
Proof.
  unfold endpoint_reserved, check_endpoint_not_reserved, build_is_timesync_endpoint, build_is_discovery_endpoint, macro_endpoint, mem.
  cbn. rewrite !(String.eqb_sym (be_rust ep)), !(String.eqb_sym (be_name ep)).
  destruct (String.eqb "TelemetryError" _), (String.eqb "TimeSync" _), (String.eqb "Discovery" _),
    (String.eqb "TELEMETRY_ERROR" _), (String.eqb "TIME_SYNC" _), (String.eqb "DISCOVERY" _); done.
Qed.

Lemma endpoint_names_accepted ep : simple_ident (be_rust ep) = true ->
  check_endpoint valid_ident (macro_endpoint ep) = Ok tt -> check_endpoint_names ep = Ok tt.
Proof.
  unfold check_endpoint, check_endpoint_names. intros Hv H. apply bind_ok in H as ([] & Hc%caps_accepted & H).
  cbn [macro_endpoint je_rust je_name] in *. unfold ensure_rust_ident, ensure_all_caps. by rewrite Hv, Hc.
Qed.

Lemma type_definition_accepted b j bcfg m : same_type b j -> simple_ident (jt_rust j) = true ->
  check_type valid_ident (map macro_endpoint (bc_endpoints bcfg)) j = Ok tt ->
  message_meta_of (map macro_endpoint (bc_endpoints bcfg)) j = Ok m ->
  check_type_definition (bc_endpoints bcfg) (build_endpoint_set bcfg true true) b = Ok tt.
Proof.
  intros Hs Hv Hc Hm. unfold check_type in Hc. apply bind_ok in Hc as ([] & Hcaps%caps_accepted & Hc).
  destruct (mixes_link_local _ _) eqn:Hmix; [done|]. rewrite (mixes_same _ b) in Hmix by done.
  unfold message_meta_of in Hm. apply bind_ok in Hm as (mode & _ & Hm). apply bind_ok in Hm as (mc & Hmc & Hm).
  apply bind_ok in Hm as (el & Hel & Hm). apply bind_ok in Hm as (targets & Ht & _). destruct Hs as [Hr Hn Hd Hcl He].
  unfold check_type_definition, ensure_rust_ident, ensure_all_caps. rewrite Hr, Hn, Hv, Hcaps, Hmix, Hd, Hcl, He. cbn.
  rewrite build_all_forall.
  - apply resolved_name, class_not_blank in Hmc. rewrite Hmc.
    assert (blank (json_data_type (jt_element j)) = false) as ->; [|done].
    destruct (jt_element j); apply bind_ok in Hel as (dt & Hdt & _); by apply resolved_name, datatype_not_blank in Hdt.
  - apply mapM_res_forall2 in Ht. apply Forall_forall. intros r Hin.
    assert (exists e, resolve (endpoint_variants (map macro_endpoint (bc_endpoints bcfg))) r = Ok e) as (e & Hres).
    { clear -Ht Hin. induction Ht as [|r' e rs es Hre Ht IH]; [by apply elem_of_nil in Hin|].
      apply elem_of_cons in Hin as [->|Hin]; [by eexists|by apply IH]. }
    apply resolve_in in Hres. unfold endpoint_variants in Hres. apply elem_of_zip_l in Hres.
    unfold build_check. rewrite (proj2 (mem_spec _ _)); [done|]. unfold build_endpoint_set. rewrite map_map in Hres. exact Hres.
Qed.
End Accepted.

Lemma Forall2_transfer {A B} (R : A -> B -> Prop) (P : B -> Prop) (Q : A -> Prop) l k :
  Forall2 R l k -> Forall P k -> (forall a b, R a b -> P b -> Q a) -> Forall Q l.
Proof. intros Hr Hp Hq. induction Hr; [constructor|]. apply Forall_cons in Hp as [? ?]. constructor; eauto. Qed.

(** What the macro knows of a type it accepts. *)
Definition type_accepted (valid_ident : string -> bool) (eps : list JsonEndpoint) (jt : JsonType) : Prop :=
  type_reserved jt = false /\ check_type valid_ident eps jt = Ok tt /\ exists m, message_meta_of eps jt = Ok m.

Lemma meta_name eps jt m : message_meta_of eps jt = Ok m -> mm_name m = jt_name jt.
Proof. unfold message_meta_of. intros H. repeat (apply bind_ok in H as (? & _ & H)). by injection H as <-. Qed.

(** An accepted schema, taken apart. *)
Lemma macro_accepts valid_ident j oj sc : define_telemetry_schema valid_ident j oj = Ok sc ->
  exists cfg, load_merged_schema j oj = Ok cfg
    /\ Forall (fun ep => endpoint_reserved ep = false /\ check_endpoint valid_ident ep = Ok tt) (tc_endpoints cfg)
    /\ Forall (type_accepted valid_ident (tc_endpoints cfg)) (tc_types cfg)
    /\ map em_name (@user_endpoints sc) = map je_name (tc_endpoints cfg)
    /\ map mm_name (@user_types sc) = map jt_name (tc_types cfg).
Proof.
  intros H. unfold define_telemetry_schema in H. apply bind_ok in H as (cfg & Hload & H). exists cfg. split; [done|].
  apply bind_ok in H as ([] & Hrt%all_ok_forall & H). apply bind_ok in H as ([] & Hre%all_ok_forall & H).
  apply bind_ok in H as ([] & Hce%all_ok_forall & H). apply bind_ok in H as ([] & Hct%all_ok_forall & H).
  destruct (negb _); [done|]. apply bind_ok in H as (metas & Hm%mapM_res_forall2 & [= <-]).
  split; [|split; [|split]].
  - apply Forall_and. split; [|done]. eapply Forall_impl; [exact Hre|]. intros ep. cbn. by destruct (endpoint_reserved ep).
  - apply Forall_and. split; [eapply Forall_impl; [exact Hrt|]; intros jt; cbn; by destruct (type_reserved jt)|].
    apply Forall_and. split; [done|]. clear -Hm. induction Hm; constructor; eauto.
  - cbn. by rewrite map_map.
  - cbn. clear -Hm. induction Hm as [|jt m jts ms Hjm Hm IH]; [done|]. cbn. by rewrite (meta_name _ _ _ Hjm), IH.
Qed.

(** It passes every check of the script. *)
Lemma validated valid_ident bcfg cfg : plain_names cfg -> same_file bcfg cfg ->
  Forall (fun ep => endpoint_reserved ep = false /\ check_endpoint valid_ident ep = Ok tt) (tc_endpoints cfg) ->
  Forall (type_accepted valid_ident (tc_endpoints cfg)) (tc_types cfg) ->
  validate_schema bcfg true true = Ok tt
  /\ Forall (fun ep => forallb caps_char (lit (be_name ep)) = true) (bc_endpoints bcfg)
  /\ Forall (fun ty => forallb caps_char (lit (bt_name ty)) = true) (bc_types bcfg).
Proof.
  intros [Hpe Hpt] [He Ht] Heps Htys. rewrite He in *. rewrite Forall_map in Heps, Hpe. split; [|split].
  - unfold validate_schema. rewrite !build_all_forall; [done| | | |].
    + eapply Forall2_transfer; [done..|]. intros b jt Hs (Hr & _ & _). by eapply type_not_reserved.
    + eapply Forall_impl; [exact Heps|]. intros ep [Hr _]. by apply endpoint_not_reserved.
    + eapply Forall_impl; [exact (proj2 (Forall_and _ _) (conj Hpe Heps))|]. intros ep [Hv [_ Hc]]. by eapply endpoint_names_accepted.
    + eapply Forall2_transfer; [exact Ht|exact (proj2 (Forall_and _ _) (conj Hpt Htys))|].
      intros b jt Hs (Hv & _ & Hc & m & Hm). by eapply type_definition_accepted.
  - eapply Forall_impl; [exact Heps|]. intros ep [_ Hc]. unfold check_endpoint in Hc.
    by apply bind_ok in Hc as ([] & Hcaps%caps_accepted & _).
  - eapply Forall2_transfer; [done..|]. intros b jt Hs (_ & Hc & _). unfold check_type in Hc.
    apply bind_ok in Hc as ([] & Hcaps%caps_accepted & _). by rewrite (st_name _ _ Hs).
Qed.

(** ** Numbers *)

Lemma rows_numbered prefix (f : Z -> Str) i items :
  (forall k it, items !! k = Some it -> lit (fst it) = f (i + Z.of_nat k)) ->
  rows_of prefix i items = map (fun z => (lit prefix ++ f z, z)) (seqZ i (Z.of_nat (length items))).
Proof.
  revert i. induction items as [|[name doc] items IH]; intros i Hf; [done|]. cbn [length rows_of].
  rewrite seqZ_cons by lia. cbn [map]. pose proof (Hf 0%nat (name, doc) eq_refl) as Hn. cbn [fst] in Hn. rewrite Hn, Z.add_0_r. f_equal.
  replace (Z.pred (Z.of_nat (S (length items)))) with (Z.of_nat (length items)) by lia. apply IH.
  intros k it Hk. rewrite (Hf (S k) it) by done. f_equal. lia.
Qed.

(** The script's names are the first names of the macro's tables. *)
Definition script_endpoint_names `{Schema} : list string := map em_name user_endpoints ++ ["TIME_SYNC"; "DISCOVERY"]%string.
Definition script_type_names `{Schema} : list string :=
  map mm_name user_types ++
  ["TIME_SYNC_ANNOUNCE"; "TIME_SYNC_REQUEST"; "TIME_SYNC_RESPONSE"; "DISCOVERY_ANNOUNCE"; "DISCOVERY_TIMESYNC_SOURCES";
   "DISCOVERY_TOPOLOGY"]%string.

Lemma endpoint_name_at `{Schema} k name : script_endpoint_names !! k = Some name -> ep_as_str (Z.of_nat k) = lit name.
Proof.
  intros Hk. unfold ep_as_str, get_endpoint_meta. rewrite Nat2Z.id.
  assert (map em_name endpoint_table !! k = Some name) as Hn.
  { unfold endpoint_table. rewrite map_app. change (map em_name builtin_endpoints) with (["TIME_SYNC"; "DISCOVERY"]%string ++ ["TELEMETRY_ERROR"%string]).
    rewrite app_assoc. by apply lookup_app_l_Some. }
  apply list_lookup_fmap_Some in Hn as (m & -> & Hm). by erewrite nth_lookup_Some.
Qed.

Lemma type_name_at `{Schema} k name : script_type_names !! k = Some name -> get_message_name (Z.of_nat k) = lit name.
Proof.
  intros Hk. unfold get_message_name, get_message_meta. rewrite Nat2Z.id.
  assert (map mm_name type_table !! k = Some name) as Hn.
  { unfold type_table. rewrite map_app, <- (take_drop 6 (map mm_name builtin_types)), app_assoc. by apply lookup_app_l_Some. }
  apply list_lookup_fmap_Some in Hn as (m & -> & Hm). by erewrite nth_lookup_Some.
Qed.

Lemma length_script_endpoints `{Schema} : Z.of_nat (length script_endpoint_names) = EpTelemetryError.
Proof. unfold script_endpoint_names, EpTelemetryError, n_eps. rewrite length_app, length_map. cbn. lia. Qed.

Lemma length_script_types `{Schema} : Z.of_nat (length script_type_names) = ReliableAck.
Proof. unfold script_type_names, ReliableAck, n_tys. rewrite length_app, length_map. cbn. lia. Qed.

(** The names of the built-in entries at the end of the tables. *)
Lemma builtin_endpoint_name `{Schema} i m : builtin_endpoints !! i = Some m -> ep_as_str (n_eps + Z.of_nat i) = lit (em_name m).
Proof.
  intros Hi. unfold ep_as_str, get_endpoint_meta, n_eps. replace (Z.to_nat _) with (length user_endpoints + i)%nat by lia.
  unfold endpoint_table. rewrite app_nth2_plus. by erewrite nth_lookup_Some.
Qed.

Lemma builtin_type_name `{Schema} i m : builtin_types !! i = Some m -> get_message_name (n_tys + Z.of_nat i) = lit (mm_name m).
Proof.
  intros Hi. unfold get_message_name, get_message_meta, n_tys. replace (Z.to_nat _) with (length user_types + i)%nat by lia.
  unfold type_table. rewrite app_nth2_plus. by erewrite nth_lookup_Some.
Qed.

(** The lines of items that are the first of a table. *)
Lemma items_of_names (items : list (string * option Str)) (names : list string) (f : Z -> Str) prefix :
  map fst items = names -> (forall k name, names !! k = Some name -> f (Z.of_nat k) = lit name) ->
  rows_of prefix 0 items = map (fun z => (lit prefix ++ f z, z)) (seqZ 0 (Z.of_nat (length names))).
Proof.
  intros <- Hf. rewrite (rows_numbered prefix f 0 items), length_map; [done|]. intros k it Hk. symmetry. apply Hf.
  by rewrite list_lookup_fmap, Hk.
Qed.

Lemma items_ok_of (items : list (string * option Str)) (names : list string) :
  map fst items = names -> Forall (fun name => forallb caps_char (lit name) = true) names -> Z.of_nat (length names) < 10 ^ 39 ->
  items_ok items.
Proof. intros <- Hf Hl. rewrite length_map in Hl. split; [|done]. by rewrite Forall_map in Hf. Qed.

(** C15. The numbers of the C header.  A schema the macro accepts,
    whose Rust names are plain ASCII identifiers, is accepted by the build
    script, and the enums it writes, read back as C, number every endpoint
    as the crate does, the built-in ones included, and every type of the schema and every time-sync and discovery type.  But the enumerator of
    the error type carries the number of [ReliableAck]: the three reliability
    types, which the macro puts before the error type, are missing. *)
Theorem c_header_numbers valid_ident b ob j oj sc :
  plain_names j -> (forall o, oj = Some o -> plain_names o) -> same_file b j -> same_overlay ob oj ->
  config_in_range j -> (forall o, oj = Some o -> config_in_range o) ->
  define_telemetry_schema valid_ident j oj = Ok sc ->
  exists cfg, build_schema b ob true true = Ok cfg
    /\ read_c_enum (render_c_enum_endpoint cfg)
       = Some (lit "SedsDataEndpoint",
               map (fun e => (lit "SEDS_EP_" ++ ep_as_str e, e)) (seqZ 0 (MAX_VALUE_DATA_ENDPOINT + 1)))
    /\ read_c_enum (render_c_enum_datatype cfg)
       = Some (lit "SedsDataType",
               map (fun t => (lit "SEDS_DT_" ++ get_message_name t, t)) (seqZ 0 ReliableAck)
               ++ [(lit "SEDS_DT_TELEMETRY_ERROR", ReliableAck)])
    /\ get_message_name ReliableAck = lit "RELIABLE_ACK"
    /\ get_message_name TyTelemetryError = lit "TELEMETRY_ERROR" /\ TyTelemetryError = ReliableAck + 3.
Proof.
  intros Hpj Hpo Hb Ho Hrj Hro Hm. destruct (macro_accepts _ _ _ _ Hm) as (jcfg & Hload & Heps & Htys & Hen & Htn).
  destruct (load_same _ _ _ _ _ Hb Ho Hload) as (bcfg & Hbuild & Hsame).
  destruct (validated valid_ident bcfg jcfg (load_merged_plain _ _ _ Hload Hpj Hpo) Hsame Heps Htys) as (Hval & Hce & Hct).
  destruct (load_merged_in_range _ _ _ Hload Hrj Hro) as (_ & Hle & Hlt). destruct Hsame as [He Ht].
  set (cfg := append_discovery_builtins (append_timesync_builtins bcfg)). exists cfg. split.
  { unfold build_schema. destruct (build_normalize_base_schema b) as [nb ws]. cbn [fst] in Hbuild. rewrite Hbuild.
    cbn [mbind res_mbind res_bind]. by rewrite Hval. }
  assert (map fst (endpoint_items cfg) = @script_endpoint_names sc) as Hei.
  { unfold endpoint_items, script_endpoint_names. rewrite map_map, Hen, He, map_map. unfold cfg.
    cbn [append_discovery_builtins append_timesync_builtins bc_endpoints]. by rewrite !map_app, <- app_assoc. }
  assert (map fst (type_items cfg) = @script_type_names sc) as Hti.
  { unfold type_items, script_type_names. rewrite map_map, Htn, <- (same_types_map bt_name jt_name _ _ Ht) by (by intros ?? []).
    unfold cfg. cbn [append_discovery_builtins append_timesync_builtins bc_types]. by rewrite !map_app, <- app_assoc. }
  assert (length (@user_endpoints sc) = length (tc_endpoints jcfg)) as Hel by (by rewrite <- (length_map em_name), Hen, length_map).
  assert (length (@user_types sc) = length (tc_types jcfg)) as Htl by (by rewrite <- (length_map mm_name), Htn, length_map).
  split; [|split; [|split; [|split]]].
  - rewrite endpoint_enum_read.
    + do 2 f_equal. rewrite (items_of_names _ _ ep_as_str _ Hei) by (apply endpoint_name_at).
      assert (length (bc_endpoints cfg) = length (@script_endpoint_names sc)) as -> by (rewrite <- Hei; unfold endpoint_items; by rewrite !length_map).
      rewrite length_script_endpoints. unfold MAX_VALUE_DATA_ENDPOINT. rewrite length_endpoint_table.
      replace (n_eps + 3 - 1 + 1) with (EpTelemetryError + 1) by (unfold EpTelemetryError; lia).
      rewrite seqZ_app, map_app by (unfold EpTelemetryError, n_eps; lia). f_equal.
      rewrite seqZ_cons, seqZ_nil, Z.add_0_l by lia. cbn [map].
      assert (ep_as_str EpTelemetryError = lit "TELEMETRY_ERROR") as -> by (exact (builtin_endpoint_name 2 _ eq_refl)). done.
    + eapply items_ok_of; [exact Hei| |rewrite length_script_endpoints; unfold EpTelemetryError, n_eps; lia].
      unfold script_endpoint_names. rewrite Hen, He, map_map, Forall_app, Forall_map. split; [done|by repeat constructor].
  - rewrite datatype_enum_read.
    + do 2 f_equal. rewrite (items_of_names _ _ get_message_name _ Hti) by (apply type_name_at).
      assert (length (bc_types cfg) = length (@script_type_names sc)) as -> by (rewrite <- Hti; unfold type_items; by rewrite !length_map).
      by rewrite length_script_types.
    + eapply items_ok_of; [exact Hti| |rewrite length_script_types; unfold ReliableAck, n_tys; lia].
      unfold script_type_names. rewrite Htn, <- (same_types_map bt_name jt_name _ _ Ht), Forall_app, Forall_map by (by intros ?? []).
      split; [done|by repeat constructor].
  - exact (builtin_type_name 6 _ eq_refl).
  - exact (builtin_type_name 9 _ eq_refl).
  - unfold TyTelemetryError, ReliableAck. lia.
Qed.

(** ** Result codes *)

(** The variants of [TelemetryErrorCode], as the script finds them in [lib.rs]. *)
Definition variant_name (c : TelemetryErrorCode) : string :=
  match c with
  | CGenericError => "GenericError" | CInvalidType => "InvalidType" | CSizeMismatch => "SizeMismatch"
  | CSizeMismatchError => "SizeMismatchError" | CEmptyEndpoints => "EmptyEndpoints" | CTimestampInvalid => "TimestampInvalid"
  | CMissingPayload => "MissingPayload" | CHandlerError => "HandlerError" | CBadArg => "BadArg" | CSerialize => "Serialize"
  | CDeserialize => "Deserialize" | CIo => "Io" | CInvalidUtf8 => "InvalidUtf8" | CTypeMismatch => "TypeMismatch"
  | CInvalidLinkId => "InvalidLinkId" | CPacketTooLarge => "PacketTooLarge"
  end%string.

Definition lib_variants : list (Str * Str) :=
  map (fun c => (lit (variant_name c), int_text (error_code_repr c))) all_error_codes.

Definition result_name (c : TelemetryErrorCode) : Str := lit "SEDS_" ++ to_screaming_snake (lit (variant_name c)).

(** The C enum: zero, minus one, and the codes of the crate, in descending order. *)
Lemma result_codes path :
  exists sr, seds_result_members path lib_variants = Ok sr
    /\ read_c_enum (render_c_enum_seds_result sr) = Some (lit "SedsResult", sr)
    /\ sr = (lit "SEDS_OK", status_from_result_code SedsOk) :: (lit "SEDS_ERR", -1)
            :: map (fun c => (result_name c, error_code_repr c)) all_error_codes.
Proof.
  eexists. split; [vm_compute; reflexivity|]. split; [|vm_compute; reflexivity].
  apply result_enum_read. repeat (apply List.Forall_cons; [split; [split; [repeat constructor|discriminate]|reflexivity]|]). apply List.Forall_nil.
Qed.

(** Every status of a failed call is in the header under the error's name; but
    the header's [SEDS_ERR] is no status: the crate's own [SedsErr] is another
    number, and the header's is an unknown error to the crate. *)
Lemma result_codes_cover e : (result_name (to_error_code e), status_from_err e) ∈
  map (fun c => (result_name c, error_code_repr c)) all_error_codes.
Proof. apply list_elem_of_In, in_map_iff. exists (to_error_code e). split; [done|]. destruct e; cbn; tauto. Qed.

Lemma header_err_unknown :
  status_from_result_code SedsErr <> -1 /\ error_code_to_string (-1) = Ok (lit "Unknown error")
  /\ error_code_to_string (status_from_result_code SedsErr) = Ok (lit "SEDS ERROR").
Proof. split; [done|]. split; vm_compute; reflexivity. Qed.

(** ** The script *)

(** Loading in the script is [build_schema]; only warnings are printed. *)
Lemma load_build_schema_result `{BuildHost} path opath text base overlay o :
  read_file path = Some text -> schema_from_json text = Some base ->
  match opath, overlay with
  | Some opath, Some ov => exists otext, read_file opath = Some otext /\ schema_from_json otext = Some ov
  | None, None => True
  | _, _ => False
  end ->
  exists ws, load_build_schema path opath o
    = ({| printed := printed o ++ ws; written := written o |}, build_schema base overlay is_timesync_enabled is_discovery_enabled).
Proof.
  intros Hr Hj Ho. unfold load_build_schema, load_schema_absolute, read_or, build_schema.
  destruct (build_normalize_base_schema base) as [cfg warnings] eqn:En. exists (map warning_line warnings).
  assert (forall lines out, println_all lines out = ({| printed := printed out ++ lines; written := written out |}, Ok tt)) as Hp.
  { induction lines as [|l lines IH]; intros out; [cbn; rewrite app_nil_r; by destruct out|].
    cbn. unfold mbind, Script_bind, println. rewrite IH. cbn. by rewrite <- app_assoc. }
  unfold mbind, Script_bind, of_result. rewrite Hr, Hj, En, Hp. destruct opath as [opath|], overlay as [ov|]; try done.
  - destruct Ho as (otext & -> & ->). destruct (build_merge_ipc_overlay cfg ov) as [cfg'| |]; [|done..]. cbn.
    by destruct (validate_schema cfg' _ _) as [[]| |].
  - cbn. by destruct (validate_schema cfg _ _) as [[]| |].
Qed.

(** ** The shipped schema *)

Definition times : Str := map b8 [195; 151].

Definition shipped_type (rust name : string) (doc : Str) (el : BuildElement) (eps : list string) : BuildType :=
  {| bt_rust := rust; bt_name := name; bt_doc := Some doc; bt_reliable := None; bt_element := el; bt_class := "Data"; bt_endpoints := eps |}.

Definition shipped_endpoint (rust name doc : string) : BuildEndpoint :=
  {| be_rust := rust; be_name := name; be_doc := Some (lit doc); be_broadcast_mode := None; be_link_local_only := None |}.

Definition shipped_config : BuildConfig :=
  {| bc_endpoints :=
       [shipped_endpoint "SdCard" "SD_CARD" "On-board storage (e.g. SD card / flash).";
        shipped_endpoint "Radio" "RADIO" "Radio or external link (telemetry uplink/downlink)."];
     bc_types :=
       [shipped_type "GpsData" "GPS_DATA" (lit "GPS data (typically 3" ++ times ++ lit " f32: latitude, longitude, altitude).")
          (BStatic "Float32") ["Radio"; "SdCard"]%string;
        shipped_type "ImuData" "IMU_DATA" (lit "IMU data (typically 6" ++ times ++ lit " f32: accel/gyro vector).")
          (BStatic "Float32") ["Radio"; "SdCard"]%string;
        shipped_type "BatteryStatus" "BATTERY_STATUS" (lit "Battery status (e.g. voltage, current, etc.).")
          (BStatic "Float32") ["Radio"; "SdCard"]%string;
        shipped_type "SystemStatus" "SYSTEM_STATUS" (lit "Compact system status code (single u8).") (BStatic "Bool") ["SdCard"%string];
        shipped_type "BarometerData" "BAROMETER_DATA" (lit "Barometric pressure sensor data.") (BStatic "Float32") ["Radio"; "SdCard"]%string;
        shipped_type "MessageData" "MESSAGE_DATA" (lit "Generic string message payload.") (BDynamic "String") ["SdCard"; "Radio"]%string;
        shipped_type "Heartbeat" "HEARTBEAT" (lit "Heartbeat message (no payload).") (BStatic "NoData") ["SdCard"; "Radio"]%string] |}.

Definition shipped_overlay : BuildConfig :=
  {| bc_endpoints := [shipped_endpoint "SoftwareBus" "SOFTWARE_BUS" "Link-local software bus endpoint for IPC between local processes."];
     bc_types := [shipped_type "IpcMessage" "IPC_MESSAGE" (lit "Link-local IPC message payload for the software bus.") (BDynamic "String")
                    ["SoftwareBus"%string]] |}.

(** The header of the shipped schema numbers the error type 13; the crate, 16. *)
Lemma c_header_numbers_witness :
  exists cfg, build_schema shipped_config None true true = Ok cfg
    /\ option_map (fun '(_, rows) => drop 13 rows) (read_c_enum (render_c_enum_datatype cfg)) = Some [(lit "SEDS_DT_TELEMETRY_ERROR", 13)]
    /\ @TyTelemetryError default_schema = 16.
Proof.
  destruct (c_header_numbers simple_ident shipped_config None telemetry_config_json None default_schema) as (cfg & Hb & _ & Ht & _ & _ & Hn).
  - split; repeat (constructor; [reflexivity|]); constructor.
  - intros o [=].
  - split; [reflexivity|]. repeat (constructor; [split; reflexivity|]). constructor.
  - exact I.
  - exact telemetry_config_in_range.
  - intros o [=].
  - exact default_schema_generated.
  - exists cfg. split; [exact Hb|]. split; [|vm_compute; reflexivity]. rewrite Ht. vm_compute. reflexivity.
Defined.

(** A whole run, with the overlay, on small templates. *)
Definition crate : Str := lit "/crate".
Definition overlay_path : Str := path_join crate (lit "ipc.json").

Definition some_host : BuildHost := {|
  env_var key :=
    if String.eqb key "CARGO_MANIFEST_DIR" then Some crate
    else if mem key ["CARGO_FEATURE_TIMESYNC"; "CARGO_FEATURE_DISCOVERY"]%string then Some (lit "1")
    else if String.eqb key IPC_SCHEMA_PATH_ENV then Some (lit "ipc.json") else None;
  read_file path :=
    if bool_decide (path = path_join crate (lit "telemetry_config.json")) then Some (lit "base")
    else if bool_decide (path = overlay_path) then Some (lit "overlay")
    else if bool_decide (path = path_join crate (lit "header_templates/sedsprintf.h.txt"))
    then Some (HEADER_ENUMS_MARKER ++ newline ++ HEADER_ABI_MARKER)
    else if bool_decide (path = path_join crate (lit "header_templates/sedsprintf_rs.pyi.txt")) then Some PY_ENUMS_MARKER
    else Some (lit "source");
  file_exists _ := false; can_create_dir _ := true; can_write _ := true;
  schema_from_json text := if bool_decide (text = lit "base") then Some shipped_config else Some shipped_overlay;
  schema_path_captures _ := [lit "telemetry_config.json"];
  enum_body_capture text := Some text;
  enum_member_captures _ := lib_variants;
  debug_str := lit
|}.

Definition run_build : BuildOutput * BuildResult unit := @build_main some_host {| printed := []; written := [] |}.

Example build_run :
  snd run_build = Ok tt
  /\ map fst (written (fst run_build)) = [lit "/crate/C-Headers/sedsprintf.h"; lit "/crate/python-files/sedsprintf_rs/sedsprintf_rs.pyi"]
  /\ forallb (fun f => negb (str_contains (lit "AUTOGEN:") (snd f))) (written (fst run_build)) = true.
Proof. split; [|split]; vm_compute; reflexivity. Qed.
