(* ===== verification/Python.v ===== *)
(** * The Python module ([src/python_api.rs])

    What the bindings of routers and relays share: exceptions, the conversions
    of arguments and the values handed to Python; packets, the topology as a
    dictionary, the functions of the module and the tables it publishes.  The
    conversions that the third-party bindings and the interpreter perform on
    Python objects are the interface [Pyo3]. *)

From S2P Require Import Prelude Ordered Telemetry Config Schema Queue SmallPayload Wire Packet Serialize Calendar TimeSync Discovery RouterState Routes Reliable TimeRuntime Plan Topology EndToEnd Announce World Text CText.

(** ** Exceptions *)

(** [TelemetryErr e] is the [RuntimeError] whose text shows [e]; [Raised] is an
    exception of the interpreter or of a conversion. *)
Inductive PyErr :=
| TelemetryErr (e : TelemetryError)
| RuntimeErr (msg : string)
| ValueErr (msg : string)
| Raised (exception : string).

Abbreviation PyResult A := (Res PyErr A).

Definition py_err_from (e : TelemetryError) : PyErr := TelemetryErr e.

(** [r.map_err(py_err_from)] *)
Definition to_py {A} (r : TelemetryResult A) : PyResult A :=
  match r with Ok a => Ok a | Err e => Err (py_err_from e) | Panic => Panic end.

(** ** Objects *)

(** What is asked of a Python object: casts answer an option, extractions and
    calls a result.  [extract_bytes] is the extraction of [&[u8]], the other
    extractions are named after their Rust types. *)
Class Pyo3 := {
  PyObj : Type;
  is_none : PyObj -> bool;
  cast_list : PyObj -> option (list PyObj);
  cast_tuple : PyObj -> option (list PyObj);
  cast_str : PyObj -> option (PyResult Str);
  extract_u32 : PyObj -> PyResult Z;
  extract_bytes : PyObj -> PyResult (list byte);
  extract_vec_u8 : PyObj -> PyResult (list byte);
  extract_vec_f32 : PyObj -> PyResult (list Z);
  extract_packet : PyObj -> PyResult Packet;
  builtins_bytes : PyObj -> PyResult PyObj;
  builtins_memoryview : PyObj -> PyResult PyObj;
  get_itemsize : PyObj -> PyResult Z;
  cast_to_bytes : PyObj -> PyResult PyObj;
  call_tobytes : PyObj -> PyResult PyObj
}.

(** Values made for Python; a dictionary keeps the order of insertion. *)
Inductive PyVal :=
| VNone
| VInt (z : Z)
| VStr (s : Str)
| VBytes (l : list byte)
| VList (l : list PyVal)
| VDict (l : list (Str * PyVal)).

(** [dict.set_item(k, v)]: an existing key keeps its place. *)
Fixpoint set_item {V} (k : Str) (v : V) (d : list (Str * V)) : list (Str * V) :=
  match d with
  | [] => [(k, v)]
  | (k', v') :: d => if decide (k = k') then (k, v) :: d else (k', v') :: set_item k v d
  end.

Definition dict_of {V} (l : list (Str * V)) : list (Str * V) := foldl (fun d kv => set_item (fst kv) (snd kv) d) [] l.

Definition get_item {V} (k : Str) (d : list (Str * V)) : option V :=
  option_map snd (List.find (fun kv => bool_decide (fst kv = k)) d).

Definition VInts (l : list Z) : PyVal := VList (map VInt l).
Definition VStrs (l : list Str) : PyVal := VList (map VStr l).

(** ** Element kinds and conversions *)

Definition EK_UNSIGNED : Z := 0.
Definition EK_SIGNED : Z := 1.
Definition EK_FLOAT : Z := 2.

(** [vec.resize(n, fill)] for a longer [n], and [vec.truncate(n)] for a shorter one. *)
Definition resize_or_truncate {A} (width : Z) (fill : A) (n : Z) (v : list A) : PyResult (list A) :=
  if nlen v <? n then
    if isize_max <? n * width then Panic else Ok (v ++ replicate (Z.to_nat (n - nlen v)) fill)
  else if n <? nlen v then Ok (take (Z.to_nat n) v)
  else Ok v.

Section Conversions.
Context `{Config} `{Schema}.

Definition dtype_from_u32 (x : Z) : TelemetryResult DataType := ok_or InvalidType (type_try_from_u32 x).

Definition endpoint_from_u32 (x : Z) : TelemetryResult DataEndpoint := ok_or (Deserialize "bad endpoint") (endpoint_try_from_u32 x).

Definition required_payload_size_for (t : DataType) : option Z :=
  match element (message_meta t) with
  | Static _ _ _ => Some (get_needed_message_size t)
  | Dynamic _ _ => None
  end.

Definition normalize_u8_payload_for_type (t : DataType) (buf : list byte) : PyResult (list byte) :=
  match required_payload_size_for t with
  | Some required => resize_or_truncate 1 (b8 0) required buf
  | None => Ok buf
  end.

Definition normalize_f32_payload_for_type (t : DataType) (vals : list Z) : PyResult (list Z) :=
  match required_payload_size_for t with
  | Some required_bytes =>
      if negb (required_bytes mod 4 =? 0) then Err (py_err_from BadArg)
      else resize_or_truncate 4 0 (required_bytes / 4) vals
  | None => Ok vals
  end.

(** ** Packets *)

(** [PyPacket] is the packet it wraps. *)
Record PyPacket := { inner : Packet }.

Definition py_ty (p : PyPacket) : Z := ty (inner p).
Definition py_data_size (p : PyPacket) : Z := data_size (inner p).
Definition py_sender (p : PyPacket) : Str := sender (inner p).
Definition py_endpoints (p : PyPacket) : list Z := pkt_endpoints (inner p).
Definition py_timestamp_ms (p : PyPacket) : Z := timestamp (inner p).
Definition py_payload (p : PyPacket) : PyResult PyVal := l ← to_py (payload_bytes (inner p)); Ok (VBytes l).

(** The accessors [data_as_u8], ..., [data_as_f64] and [data_as_bool]. *)
Definition py_data_as (T : Prim) (p : PyPacket) : PyResult (list Z) := to_py (data_as T (inner p)).
Definition py_data_as_bool (p : PyPacket) : PyResult (list bool) := to_py (data_as_bool (inner p)).
Definition py_data_as_string (p : PyPacket) : PyResult Str := to_py (data_as_string (inner p)).

Definition py_header_string (p : PyPacket) : Str := header_string (inner p).
Definition py_str (p : PyPacket) : PyResult Str := to_py (as_string (inner p)).

Section Wire.
Context `{External}.

Definition py_wire_size (p : PyPacket) : PyResult Z := to_py (packet_wire_size (inner p)).
Definition py_serialize (p : PyPacket) : PyResult PyVal := bytes ← to_py (serialize_packet (inner p)); Ok (VBytes bytes).

Context `{Pyo3}.

Definition deserialize_packet_py (data : PyObj) : PyResult PyPacket :=
  bytes ← extract_bytes data;
  pkt ← to_py (deserialize_packet bytes);
  _ ← to_py (validate pkt);
  Ok {| inner := pkt |}.

Definition peek_header_py (data : PyObj) : PyResult PyVal :=
  bytes ← extract_bytes data;
  env ← to_py (peek_envelope bytes);
  Ok (VDict (dict_of
    [(lit "ty", VInt (env_ty env)); (lit "sender", VStr (env_sender env)); (lit "endpoints", VInts (env_endpoints env));
     (lit "timestamp_ms", VInt (env_timestamp_ms env))])).
End Wire.

Definition make_packet `{Pyo3} (ty_u32 : Z) (snd : Str) (eps_u32 : list Z) (timestamp_ms : Z) (data : PyObj) : PyResult PyPacket :=
  t ← to_py (dtype_from_u32 ty_u32);
  eps ← mapM_res (fun e => to_py (endpoint_from_u32 e)) eps_u32;
  buf ← extract_vec_u8 data;
  buf ← normalize_u8_payload_for_type t buf;
  pkt ← to_py (packet_new t eps snd timestamp_ms buf);
  Ok {| inner := pkt |}.
End Conversions.

(** ** The topology *)

Definition board_to_pydict (b : TopologyBoardNode) : PyVal := VDict (dict_of
  [(lit "sender_id", VStr (sender_id b)); (lit "reachable_endpoints", VInts (reachable_endpoints b));
   (lit "reachable_timesync_sources", VStrs (reachable_timesync_sources b)); (lit "connections", VStrs (connections b))]).

Definition announcer_to_pydict (a : TopologyAnnouncerRoute) : PyVal := VDict (dict_of
  [(lit "sender_id", VStr (ta_sender_id a)); (lit "reachable_endpoints", VInts (ta_reachable_endpoints a));
   (lit "reachable_timesync_sources", VStrs (ta_reachable_timesync_sources a));
   (lit "routers", VList (map board_to_pydict (ta_routers a)));
   (lit "last_seen_ms", VInt (ta_last_seen_ms a)); (lit "age_ms", VInt (ta_age_ms a))]).

Definition route_to_pydict (r : TopologySideRoute) : PyVal := VDict (dict_of
  [(lit "side_id", VInt (tr_side_id r)); (lit "side_name", VStr (tr_side_name r));
   (lit "reachable_endpoints", VInts (tr_reachable_endpoints r));
   (lit "reachable_timesync_sources", VStrs (tr_reachable_timesync_sources r));
   (lit "announcers", VList (map announcer_to_pydict (tr_announcers r)));
   (lit "last_seen_ms", VInt (tr_last_seen_ms r)); (lit "age_ms", VInt (tr_age_ms r))]).

Definition topology_snapshot_to_pydict (snap : TopologySnapshot) : PyVal := VDict (dict_of
  [(lit "advertised_endpoints", VInts (ts_advertised_endpoints snap));
   (lit "advertised_timesync_sources", VStrs (ts_advertised_timesync_sources snap));
   (lit "routers", VList (map board_to_pydict (ts_routers snap)));
   (lit "routes", VList (map route_to_pydict (ts_routes snap)));
   (lit "current_announce_interval_ms", VInt (ts_current_announce_interval_ms snap));
   (lit "next_announce_ms", VInt (ts_next_announce_ms snap))]).

(** ** The tables of the module *)

(** An [IntEnum] is the dictionary it is made of, [__module__] apart; [added] is
    what the module itself maps the names of members to. *)
Record PyModule := { added : list (Str * Z); DataTypes : list (Str * Z); DataEndpoints : list (Str * Z);
                     ElemKinds : list (Str * Z); RouteSelectionModes : list (Str * Z) }.

(** One round of a loop over the numbers of an enum: the names go into the
    dictionary and into the module. *)
Definition publish (name_of : Z -> option Str) (tables : list (Str * Z) * list (Str * Z)) (v : Z) : list (Str * Z) * list (Str * Z) :=
  match name_of v with
  | Some name => (set_item name v (fst tables), set_item name v (snd tables))
  | None => tables
  end.

Definition publish_all (name_of : Z -> option Str) (max : Z) (module : list (Str * Z)) : list (Str * Z) * list (Str * Z) :=
  foldl (publish name_of) ([], module) (seqZ 0 (max + 1)).

Definition MAX_VALUE_ROUTE_SELECTION_MODE : Z := 2.

Definition mode_name (m : RouteSelectionMode) : Str :=
  match m with Fanout => lit "Fanout" | Weighted => lit "Weighted" | Failover => lit "Failover" end.

Definition mode_name_of (v : Z) : option Str :=
  match route_mode_try_from_i32 v with Ok (Some e) => Some (mode_name e) | _ => None end.

Section Module.
Context `{Schema}.

Definition type_name_of (v : Z) : option Str := get_message_name <$> type_try_from_u32 v.
Definition endpoint_name_of (v : Z) : option Str := ep_as_str <$> endpoint_try_from_u32 v.

Definition sedsprintf_rs : PyModule :=
  let '(dt_dict, m) := publish_all type_name_of MAX_VALUE_DATA_TYPE [] in
  let '(ep_dict, m) := publish_all endpoint_name_of MAX_VALUE_DATA_ENDPOINT m in
  let ek_dict := dict_of [(lit "UNSIGNED", EK_UNSIGNED); (lit "SIGNED", EK_SIGNED); (lit "FLOAT", EK_FLOAT)] in
  let '(rsm_dict, m) := publish_all mode_name_of MAX_VALUE_ROUTE_SELECTION_MODE m in
  {| added := m; DataTypes := dt_dict; DataEndpoints := ep_dict; ElemKinds := ek_dict; RouteSelectionModes := rsm_dict |}.
End Module.

(** ** An interpreter *)

(** Objects enough for examples; [OArray] is an object with a buffer of items. *)
Inductive SomeObj :=
| ONone
| OInt (z : Z)
| OStr (s : Str)
| OBytes (l : list byte)
| OArray (itemsize : Z) (l : list byte)
| OFloats (bits : list Z)
| OPacket (p : Packet)
| OCallable
| OTuple (l : list SomeObj)
| OList (l : list SomeObj).

Definition type_error {A} : PyResult A := Err (Raised "TypeError").

Definition obj_int (max : Z) (o : SomeObj) : PyResult Z :=
  match o with
  | OInt z => if (0 <=? z) && (z <=? max) then Ok z else Err (Raised "OverflowError")
  | _ => type_error
  end.

Definition obj_u8s (o : SomeObj) : PyResult (list byte) :=
  match o with
  | OBytes l => Ok l
  | OList l => vs ← mapM_res (obj_int u8_max) l; Ok (map b8 vs)
  | _ => type_error
  end.

#[export] Instance some_python : Pyo3 := {
  PyObj := SomeObj;
  is_none o := match o with ONone => true | _ => false end;
  cast_list o := match o with OList l => Some l | _ => None end;
  cast_tuple o := match o with OTuple l => Some l | _ => None end;
  cast_str o := match o with OStr s => Some (Ok s) | _ => None end;
  extract_u32 := obj_int u32_max;
  extract_bytes o := match o with OBytes l => Ok l | _ => type_error end;
  extract_vec_u8 := obj_u8s;
  extract_vec_f32 o := match o with OFloats l => Ok l | _ => type_error end;
  extract_packet o := match o with OPacket p => Ok p | _ => type_error end;
  builtins_bytes o :=
    match o with
    | OInt n => if n <? 0 then Err (Raised "ValueError") else Ok (OBytes (replicate (Z.to_nat n) (b8 0)))
    | OArray _ l => Ok (OBytes l)
    | OStr _ => type_error
    | o => l ← obj_u8s o; Ok (OBytes l)
    end;
  builtins_memoryview o := match o with OBytes _ | OArray _ _ => Ok o | _ => type_error end;
  get_itemsize o := match o with OArray n _ => Ok n | OBytes _ => Ok 1 | _ => type_error end;
  cast_to_bytes o := match o with OArray _ l => Ok (OArray 1 l) | OBytes _ => Ok o | _ => type_error end;
  call_tobytes o := match o with OArray _ l | OBytes l => Ok (OBytes l) | _ => type_error end
}.

(** ** What the tables say *)

Definition default_module : PyModule := @sedsprintf_rs default_schema.

(** The module's tables for the shipped schema: types and endpoints are numbered
    as in the crate; the modes table is empty, because no number converts to a
    mode; and where a type and an endpoint share a name the module's own constant
    is the endpoint's. *)
Example module_tables :
  DataTypes default_module = [(lit "GPS_DATA", 0); (lit "IMU_DATA", 1); (lit "BATTERY_STATUS", 2); (lit "SYSTEM_STATUS", 3);
    (lit "BAROMETER_DATA", 4); (lit "MESSAGE_DATA", 5); (lit "HEARTBEAT", 6); (lit "TIME_SYNC_ANNOUNCE", 7);
    (lit "TIME_SYNC_REQUEST", 8); (lit "TIME_SYNC_RESPONSE", 9); (lit "DISCOVERY_ANNOUNCE", 10);
    (lit "DISCOVERY_TIMESYNC_SOURCES", 11); (lit "DISCOVERY_TOPOLOGY", 12); (lit "RELIABLE_ACK", 13);
    (lit "RELIABLE_PARTIAL_ACK", 14); (lit "RELIABLE_PACKET_REQUEST", 15); (lit "TELEMETRY_ERROR", 16)]
  /\ DataEndpoints default_module = [(lit "SD_CARD", 0); (lit "RADIO", 1); (lit "TIME_SYNC", 2); (lit "DISCOVERY", 3); (lit "TELEMETRY_ERROR", 4)]
  /\ get_item (lit "TELEMETRY_ERROR") (added default_module) = Some 4.
Proof. split; [|split]; vm_compute; reflexivity. Qed.

Lemma route_modes_unpublished `{Schema} : RouteSelectionModes sedsprintf_rs = [].
Proof.
  unfold sedsprintf_rs. destruct (publish_all type_name_of _ _) as [dt m], (publish_all endpoint_name_of _ _) as [ep m'].
  reflexivity.
Qed.

Lemma get_set_item {V} (k k' : Str) (v : V) d : get_item k (set_item k' v d) = if decide (k = k') then Some v else get_item k d.
Proof.
  unfold get_item. induction d as [|[k0 v0] d IH]; cbn [set_item List.find fst].
  - destruct (decide (k = k')) as [->|Hn]; [by rewrite bool_decide_eq_true_2|by rewrite bool_decide_eq_false_2].
  - destruct (decide (k' = k0)) as [->|Hn]; cbn [List.find fst].
    + destruct (decide (k = k0)) as [->|Hk]; [by rewrite bool_decide_eq_true_2|by rewrite bool_decide_eq_false_2].
    + destruct (decide (k0 = k)) as [->|Hk]; [|by rewrite bool_decide_eq_false_2].
      rewrite bool_decide_eq_true_2 by done. by rewrite decide_False.
Qed.

Lemma dict_of_item {V} (l : list (Str * V)) k v : NoDup (map fst l) -> (k, v) ∈ l -> get_item k (dict_of l) = Some v.
Proof.
  unfold dict_of. assert (forall d, NoDup (map fst l) ->
    get_item k (foldl (fun d kv => set_item (fst kv) (snd kv) d) d l)
    = match List.find (fun kv => bool_decide (fst kv = k)) l with Some kv => Some (snd kv) | None => get_item k d end) as Hf.
  { induction l as [|[k0 v0] l IH]; intros d Hd; [done|]. apply NoDup_cons in Hd as [Hn Hd]. cbn [foldl List.find fst snd].
    rewrite IH, get_set_item by done. case_bool_decide as E.
    - subst k0. destruct (List.find _ l) as [[k1 v1]|] eqn:Ef; [|by rewrite decide_True].
      apply List.find_some in Ef as [Hin Ek]. apply bool_decide_eq_true in Ek. cbn in Ek. subst k1. exfalso. apply Hn.
      apply list_elem_of_In, in_map_iff. by exists (k, v1).
    - destruct (List.find _ l); [done|]. by rewrite decide_False by congruence. }
  intros Hd Hin. rewrite Hf by done. clear Hf. induction l as [|[k0 v0] l IH]; [by apply elem_of_nil in Hin|].
  apply NoDup_cons in Hd as [Hn Hd]. cbn [List.find fst]. case_bool_decide as E.
  - subst k0. apply elem_of_cons in Hin as [[= ->]|Hin]; [done|]. exfalso. apply Hn. apply list_elem_of_In, in_map_iff.
    exists (k, v). split; [done|]. by apply list_elem_of_In.
  - apply elem_of_cons in Hin as [[= -> ->]|Hin]; [done|]. by apply IH.
Qed.

Lemma publish_all_last (name_of : Z -> option Str) max m name : 0 <= max -> name_of max = Some name ->
  get_item name (fst (publish_all name_of max m)) = Some max /\ get_item name (snd (publish_all name_of max m)) = Some max.
Proof.
  intros Hm Hn. unfold publish_all. rewrite seqZ_app, foldl_app by lia. change (seqZ (0 + max) 1) with [0 + max].
  rewrite Z.add_0_l. cbn [foldl]. unfold publish at 1 3. rewrite Hn. cbn [fst snd]. rewrite !get_set_item. by rewrite !decide_True.
Qed.

Lemma max_type_nonneg `{Schema} : 0 <= MAX_VALUE_DATA_TYPE.
Proof. unfold MAX_VALUE_DATA_TYPE. rewrite length_type_table. unfold n_tys. lia. Qed.
Lemma max_endpoint_nonneg `{Schema} : 0 <= MAX_VALUE_DATA_ENDPOINT.
Proof. unfold MAX_VALUE_DATA_ENDPOINT. rewrite length_endpoint_table. unfold n_eps. lia. Qed.

Lemma last_names `{Schema} :
  type_name_of MAX_VALUE_DATA_TYPE = Some (lit "TELEMETRY_ERROR")
  /\ endpoint_name_of MAX_VALUE_DATA_ENDPOINT = Some (lit "TELEMETRY_ERROR").
Proof.
  unfold type_name_of, endpoint_name_of, type_try_from_u32, endpoint_try_from_u32. rewrite !Z.ltb_irrefl. cbn [fmap option_fmap option_map].
  unfold get_message_name, ep_as_str, get_message_meta, get_endpoint_meta, MAX_VALUE_DATA_TYPE, MAX_VALUE_DATA_ENDPOINT, type_table, endpoint_table.
  rewrite !length_app, !app_nth2 by (cbn [length builtin_types builtin_endpoints]; lia). cbn [length builtin_types builtin_endpoints]. split; do 3 f_equal.
  - replace (Z.to_nat _ - _)%nat with 9%nat by lia. done.
  - replace (Z.to_nat _ - _)%nat with 2%nat by lia. done.
Qed.

(** In every schema [DataType.TELEMETRY_ERROR] is the error type, but the
    module's own [TELEMETRY_ERROR], written last for the endpoint of that name,
    is the endpoint: another number, unless there are seven endpoints more than
    types. *)
Lemma telemetry_error_is_the_endpoint `{Schema} :
  get_item (lit "TELEMETRY_ERROR") (DataTypes sedsprintf_rs) = Some TyTelemetryError
  /\ get_item (lit "TELEMETRY_ERROR") (added sedsprintf_rs) = Some EpTelemetryError
  /\ (EpTelemetryError = TyTelemetryError <-> n_eps = n_tys + 7).
Proof.
  destruct last_names as [Ht He]. split; [|split].
  - destruct (publish_all_last type_name_of MAX_VALUE_DATA_TYPE [] _ max_type_nonneg Ht) as [Hd _].
    unfold sedsprintf_rs. destruct (publish_all type_name_of _ _) as [dt m], (publish_all endpoint_name_of _ _) as [ep m'].
    cbn [fst snd] in Hd. change (get_item (lit "TELEMETRY_ERROR") dt = Some TyTelemetryError).
    rewrite Hd. f_equal. unfold MAX_VALUE_DATA_TYPE. rewrite length_type_table. unfold TyTelemetryError. lia.
  - unfold sedsprintf_rs. destruct (publish_all type_name_of _ _) as [dt m].
    destruct (publish_all_last endpoint_name_of MAX_VALUE_DATA_ENDPOINT m _ max_endpoint_nonneg He) as [_ Hd].
    destruct (publish_all endpoint_name_of _ _) as [ep m'].
    cbn [fst snd] in Hd. change (get_item (lit "TELEMETRY_ERROR") m' = Some EpTelemetryError).
    rewrite Hd. f_equal. unfold MAX_VALUE_DATA_ENDPOINT. rewrite length_endpoint_table. unfold EpTelemetryError. lia.
  - unfold EpTelemetryError, TyTelemetryError. lia.
Qed.

(** ** Packets *)

(** The payload of a packet made of [src]: for a type of static size cut, or
    filled up with zeros, to that size. *)
Definition fitted `{Config} `{Schema} (t : DataType) (src : list byte) : list byte :=
  match required_payload_size_for t with
  | Some n => take (Z.to_nat n) src ++ replicate (Z.to_nat (n - blen src)) (b8 0)
  | None => src
  end.

Lemma resize_fits {A} width (fill : A) n v v' : 0 <= n ->
  resize_or_truncate width fill n v = Ok v' -> v' = take (Z.to_nat n) v ++ replicate (Z.to_nat (n - nlen v)) fill.
Proof.
  intros Hn. unfold resize_or_truncate, nlen. destruct (Z.ltb_spec (Z.of_nat (length v)) n) as [Hl|Hl].
  - destruct (isize_max <? n * width); [done|]. intros [= <-]. by rewrite take_ge by lia.
  - replace (Z.to_nat (n - Z.of_nat (length v))) with 0%nat by lia. rewrite app_nil_r.
    destruct (Z.ltb_spec n (Z.of_nat (length v))); intros [= <-]; [done|]. by rewrite take_ge by lia.
Qed.

Lemma required_size_nonneg `{Config} `{Schema} t n : required_payload_size_for t = Some n -> 0 <= n.
Proof.
  unfold required_payload_size_for, get_needed_message_size. destruct (element (message_meta t)); [|done].
  intros [= <-]. unfold wrap. apply Z.mod_pos_bound. lia.
Qed.

Lemma normalize_fits `{Config} `{Schema} t src buf : normalize_u8_payload_for_type t src = Ok buf -> buf = fitted t src.
Proof.
  unfold normalize_u8_payload_for_type, fitted. destruct (required_payload_size_for t) as [n|] eqn:E; [|by intros [= ->]].
  intros Hr. by apply resize_fits in Hr; [|eapply required_size_nonneg].
Qed.

Lemma fitted_size `{Config} `{Schema} t src n : required_payload_size_for t = Some n -> blen (fitted t src) = n.
Proof.
  intros E. pose proof (required_size_nonneg t n E). unfold fitted. rewrite E. unfold blen.
  rewrite length_app, length_take, length_replicate. lia.
Qed.

Lemma endpoints_convert `{Schema} eps es : Forall (fun e => 0 <= e) eps ->
  mapM_res (fun e => to_py (endpoint_from_u32 e)) eps = Ok es -> es = eps /\ Forall valid_ep eps.
Proof.
  intros He. revert es. induction He as [|e eps He _ IH]; intros es; cbn [mapM_res]; [by intros [= <-]|].
  unfold endpoint_from_u32, endpoint_try_from_u32. destruct (Z.ltb_spec MAX_VALUE_DATA_ENDPOINT e); [done|].
  cbn [ok_or to_py mbind res_mbind res_bind]. intros (es' & Hes & [= <-])%bind_ok. destruct (IH _ Hes) as [-> Hv].
  split; [done|]. constructor; [done|exact Hv].
Qed.

Lemma endpoint_converts `{Schema} x :
  to_py (endpoint_from_u32 x) = if MAX_VALUE_DATA_ENDPOINT <? x then Err (py_err_from (Deserialize "bad endpoint")) else Ok x.
Proof. unfold endpoint_from_u32, endpoint_try_from_u32. by destruct (_ <? _). Qed.

Lemma endpoints_refused `{Schema} eps : Forall (fun e => 0 <= e) eps ->
  match mapM_res (fun e => to_py (endpoint_from_u32 e)) eps with
  | Ok es => es = eps /\ Forall valid_ep eps
  | Err _ => ~ Forall valid_ep eps
  | Panic => False
  end.
Proof.
  intros He. destruct (mapM_res (fun e => to_py (endpoint_from_u32 e)) eps) as [es|e|] eqn:E; [by apply endpoints_convert| |];
    revert E.
  - intros E Hv. revert e E. clear He. induction Hv as [|x eps [_ Hx] _ IH]; intros e; cbn [mapM_res]; [done|].
    rewrite endpoint_converts, (proj2 (Z.ltb_ge _ _)) by done. cbn [mbind res_mbind res_bind].
    destruct (mapM_res (fun e => to_py (endpoint_from_u32 e)) eps) as [|e'|]; cbn [mbind res_mbind res_bind]; [done| |done].
    intros _. by apply (IH e').
  - clear He. induction eps as [|x eps IH]; cbn [mapM_res]; [done|].
    rewrite endpoint_converts. destruct (_ <? _); cbn [mbind res_mbind res_bind]; [done|].
    destruct (mapM_res (fun e => to_py (endpoint_from_u32 e)) eps); cbn [mbind res_mbind res_bind]; [done|done|].
    intros _. by apply IH.
Qed.

(** Bytes of any length fit a type of static size. *)
Lemma fitted_content `{Config} `{Schema} t src n : required_payload_size_for t = Some n -> content_ok t (fitted t src).
Proof.
  intros E. pose proof (fitted_size t src n E) as Hl. unfold required_payload_size_for, get_needed_message_size, content_ok in *.
  change (get_message_meta t) with (message_meta t) in *.
  destruct (element (message_meta t)); [|done]. injection E as <-. cbn [element_into] in Hl. by rewrite Hl, Z.mul_comm.
Qed.

Lemma normalize_total `{Config} `{Schema} t src :
  (forall n, required_payload_size_for t = Some n -> n <= isize_max) ->
  normalize_u8_payload_for_type t src = Ok (fitted t src).
Proof.
  intros Hn. destruct (normalize_u8_payload_for_type t src) as [buf|e|] eqn:E; [by rewrite (normalize_fits _ _ _ E)|exfalso..];
    revert E; unfold normalize_u8_payload_for_type, resize_or_truncate;
    (destruct (required_payload_size_for t) as [n|] eqn:Er; [|done]); specialize (Hn n eq_refl);
    (destruct (nlen src <? n); [rewrite Z.mul_1_r, (proj2 (Z.ltb_ge _ _)) by lia; done|by destruct (n <? nlen src)]).
Qed.

(** What a packet can be made of: a type and endpoints of the schema, at least
    one of them, and for a type of dynamic size a payload its schema accepts. *)
Definition makeable `{Config} `{Schema} (t : DataType) (eps : list DataEndpoint) (src : list byte) : Prop :=
  valid_ty t /\ eps <> [] /\ Forall valid_ep eps /\ (required_payload_size_for t = None -> content_ok t src).

Section Packets.
Context `{Config} `{Schema} `{ExternalOk} `{Pyo3}.
Context (Hschema : SchemaOk _) (Hstack : STACK_PAYLOAD_SIZE < 256).

(** A packet is made exactly when it can be, of the fitted payload. *)
Lemma made_packet ty_u32 snd eps ts data src : 0 <= ty_u32 -> Forall (fun e => 0 <= e) eps -> extract_vec_u8 data = Ok src ->
  (forall n, required_payload_size_for ty_u32 = Some n -> n <= isize_max) ->
  match make_packet ty_u32 snd eps ts data with
  | Ok p => makeable ty_u32 eps src /\ packet_new ty_u32 eps snd ts (fitted ty_u32 src) = Ok (inner p)
  | Err _ => ~ makeable ty_u32 eps src
  | Panic => False
  end.
Proof.
  intros Ht He Hx Hn. unfold make_packet, makeable, dtype_from_u32, type_try_from_u32, valid_ty.
  destruct (Z.ltb_spec MAX_VALUE_DATA_TYPE ty_u32); cbn [ok_or to_py mbind res_mbind res_bind]; [lia|].
  pose proof (endpoints_refused eps He) as Hes. destruct (mapM_res (fun e => to_py (endpoint_from_u32 e)) eps) as [es|e|]; cbn [mbind res_mbind res_bind]; [|tauto|done].
  destruct Hes as [-> Hv]. rewrite Hx. cbn [mbind res_mbind res_bind]. rewrite normalize_total by done. cbn [mbind res_mbind res_bind].
  assert (content_ok ty_u32 (fitted ty_u32 src) <-> (required_payload_size_for ty_u32 = None -> content_ok ty_u32 src)) as Hc.
  { destruct (required_payload_size_for ty_u32) as [n|] eqn:Er; [|unfold fitted; rewrite Er; tauto].
    split; [done|]. intros _. by eapply fitted_content. }
  destruct (packet_new_cases ty_u32 eps snd ts (fitted ty_u32 src)) as [[-> ->]|[(Hne & Hbad & e & -> & _)|(Hne & Hok & ->)]];
    cbn [to_py mbind res_mbind res_bind]; [tauto|tauto|].
  destruct (std_new_total (fitted ty_u32 src) Hstack) as (q & Hq & _). rewrite Hq. cbn [to_py mbind res_mbind res_bind inner].
  tauto.
Qed.

(** C21. Packets through Python.  Making a packet of a sender, endpoints, a
    timestamp and bytes succeeds exactly when the type and the endpoints exist,
    there is an endpoint, and the schema accepts the bytes; for a type of static
    size it accepts any, and the payload is the bytes cut, or filled up with
    zeros, to that size.  The packet has what it was made of as its attributes.
    Its serialization has the length announced; it deserializes to the packet
    with its endpoints in ascending order, accepted by the validation, and the
    peek at it is the dictionary of the packet's header. *)
Theorem python_packets_correct ty_u32 snd eps ts data src :
  0 <= ty_u32 -> Forall (fun e => 0 <= e) eps -> is_u64 ts -> utf8_valid snd = true ->
  blen snd + blen (fitted ty_u32 src) < 2 ^ 62 -> extract_vec_u8 data = Ok src ->
  match make_packet ty_u32 snd eps ts data with
  | Err _ => ~ makeable ty_u32 eps src
  | Panic => False
  | Ok p =>
      makeable ty_u32 eps src
      /\ (py_ty p = ty_u32 /\ py_sender p = snd /\ py_endpoints p = eps /\ py_timestamp_ms p = ts
          /\ py_data_size p = blen (fitted ty_u32 src) /\ py_payload p = Ok (VBytes (fitted ty_u32 src)))
      /\ forall w frame, py_serialize p = Ok (VBytes w) -> extract_bytes frame = Ok w ->
         py_wire_size p = Ok (blen w)
         /\ deserialize_packet_py frame = Ok {| inner := canonical (inner p) |}
         /\ peek_header_py frame = Ok (VDict [(lit "ty", VInt ty_u32); (lit "sender", VStr snd);
                                              (lit "endpoints", VInts (sort_dedup eps)); (lit "timestamp_ms", VInt ts)])
  end.
Proof.
  intros Ht He Hts Hu Hlen Hx. assert (STACK_PAYLOAD_SIZE < 2 ^ 63) as Hstack' by lia.
  assert (forall n, required_payload_size_for ty_u32 = Some n -> n <= isize_max) as Hn.
  { intros n Hn. rewrite <- (fitted_size ty_u32 src n Hn). pose proof (blen_nonneg snd). unfold isize_max in *. lia. }
  pose proof (made_packet ty_u32 snd eps ts data src Ht He Hx Hn) as Hm.
  destruct (make_packet ty_u32 snd eps ts data) as [p|e|]; [|done..]. destruct Hm as [Hmk Hnew]. split; [done|].
  destruct Hmk as (Hty & _ & Hv & _).
  pose proof Hnew as (Hok & E1 & E2 & E3 & E4 & _)%packet_new_ok; [|done].
  assert (wire_ok (inner p) (fitted ty_u32 src)) as Hw by (apply packet_wire_ok; rewrite ?E1, ?E2, ?E3, ?E4; done).
  split.
  - unfold py_ty, py_sender, py_endpoints, py_timestamp_ms, py_data_size, py_payload.
    split; [done|]. split; [done|]. split; [done|]. split; [done|]. split; [apply Hok|].
    unfold payload_bytes. by destruct (po_payload _ _ Hok) as (-> & _).
  - intros w frame Hs Hf. apply bind_ok in Hs as (w' & Hs & [= ->]).
    assert (serialize_packet (inner p) = Ok w) as Hser by (by destruct (serialize_packet (inner p)); [injection Hs as ->|..]).
    pose proof (sent_plain (inner p) w Hser) as Hsent.
    unfold py_wire_size, deserialize_packet_py, peek_header_py. rewrite (packet_wire_size_exact Hschema _ _ w Hw Hser), Hf.
    split; [done|]. cbn [mbind res_mbind res_bind].
    destruct (sent_decoded Hschema _ _ _ _ _ _ _ _ Hstack' Hnew Hw Hsent) as [-> Hval]; [by destruct (is_reliable_type _)|].
    destruct (peek_sent Hschema _ _ _ _ Hw Hsent) as (-> & _). cbn [to_py mbind res_mbind res_bind].
    rewrite Hval, E1, E2, E3, E4. done.
Qed.
End Packets.

(** Three floats' type made of two floats' bytes. *)
Definition two_floats : list byte := encode_slice_le PF32 (take 2 gps_values).

Lemma python_packets_correct_witness :
  exists p w, @make_packet default_config default_schema some_python 0 (lit "PY") [1; 0] 1000 (OBytes two_floats) = Ok p
  /\ py_payload p = Ok (VBytes (two_floats ++ replicate 4 (b8 0)))
  /\ @py_serialize default_config default_schema run_external p = Ok (VBytes w)
  /\ @peek_header_py default_schema run_external some_python (OBytes w)
     = Ok (VDict [(lit "ty", VInt 0); (lit "sender", VStr (lit "PY")); (lit "endpoints", VInts [0; 1]); (lit "timestamp_ms", VInt 1000)]).
Proof.
  pose proof (@python_packets_correct default_config default_schema run_external run_external_ok some_python default_schema_ok eq_refl
    0 (lit "PY") [1; 0] 1000 (OBytes two_floats) two_floats ltac:(discriminate) ltac:(repeat constructor; discriminate)
    ltac:(unfold is_u64; split; [discriminate|reflexivity]) ltac:(vm_compute; reflexivity) ltac:(vm_compute; reflexivity) eq_refl) as Hp.
  destruct (@make_packet default_config default_schema some_python 0 (lit "PY") [1; 0] 1000 (OBytes two_floats)) as [p|e|] eqn:E;
    [|exfalso; vm_compute in E; discriminate..].
  destruct Hp as (_ & (_ & _ & _ & _ & _ & Hpay) & Hwire).
  - assert (exists w, @py_serialize default_config default_schema run_external p = Ok (VBytes w)) as [w Hw].
    { vm_compute in E. injection E as <-. eexists. vm_compute. reflexivity. }
    exists p, w. split; [reflexivity|]. split; [rewrite Hpay; vm_compute; reflexivity|]. split; [exact Hw|].
    destruct (Hwire w (OBytes w) Hw eq_refl) as (_ & _ & Hpeek). exact Hpeek.
Defined.

(** ** The topology dictionary *)

(** The dictionaries of the export have the keys they are given, in that order. *)
Lemma dict_of_distinct {V} (l : list (Str * V)) : NoDup (map fst l) -> dict_of l = l.
Proof.
  unfold dict_of. assert (forall d, NoDup (map fst (d ++ l)) -> foldl (fun d kv => set_item (fst kv) (snd kv) d) d l = d ++ l) as Hd;
    [|by apply (Hd [])].
  induction l as [|[k v] l IH]; intros d Hn; [by rewrite app_nil_r|]. cbn [foldl fst snd].
  assert (set_item k v d = d ++ [(k, v)]) as ->.
  { rewrite map_app in Hn. apply NoDup_app in Hn as (_ & Hn & _). clear IH.
    induction d as [|[k' v'] d IH]; [done|]. cbn [set_item app]. destruct (decide (k = k')) as [<-|_].
    - exfalso. apply (Hn k); cbn; [|]; apply elem_of_cons; by left.
    - f_equal. apply IH. intros a Ha. apply Hn. cbn. apply elem_of_cons. by right. }
  rewrite IH; rewrite <- app_assoc; done.
Qed.

Ltac distinct_keys := apply (bool_decide_unpack _); vm_compute; exact I.

#[global] Instance VInts_inj : Inj (=) (=) VInts.
Proof. intros l l' [= E]. revert l' E. induction l as [|a l IH]; intros [|b l'] [=]; [done|]. f_equal; auto. Qed.

#[global] Instance VStrs_inj : Inj (=) (=) VStrs.
Proof. intros l l' [= E]. revert l' E. induction l as [|a l IH]; intros [|b l'] [=]; [done|]. f_equal; auto. Qed.

Lemma VList_map_inj {A} (f : A -> PyVal) `{!Inj (=) (=) f} l l' : map f l = map f l' -> l = l'.
Proof. apply (inj (fmap f)). Qed.

(** Equal dictionaries, entry by entry. *)
Ltac by_entries :=
  intros [] []; rewrite !dict_of_distinct by distinct_keys; cbn -[lit map VInts VStrs]; intros [=]; f_equal; try done;
  first [apply (inj VInts); unfold VInts; by f_equal | apply (inj VStrs); unfold VStrs; by f_equal
        | match goal with E : map ?t ?l = map ?t ?l' |- ?l = ?l' => exact (VList_map_inj t l l' E) end].

#[global] Instance board_pydict_inj : Inj (=) (=) board_to_pydict.
Proof. unfold board_to_pydict. by_entries. Qed.

#[global] Instance announcer_pydict_inj : Inj (=) (=) announcer_to_pydict.
Proof. unfold announcer_to_pydict. by_entries. Qed.

#[global] Instance route_pydict_inj : Inj (=) (=) route_to_pydict.
Proof. unfold route_to_pydict. by_entries. Qed.

(** The dictionary of a topology loses nothing. *)
#[global] Instance topology_pydict_inj : Inj (=) (=) topology_snapshot_to_pydict.
Proof. unfold topology_snapshot_to_pydict. by_entries. Qed.
