(* ===== verification/PySide.v ===== *)
(** * Routers and relays as Python objects ([src/python_api.rs])

    What the classes [Router] and [Relay] of the module share: the callbacks of
    Python as an environment, the callbacks kept alive, and the administration of
    sides and routes, written once against [SideAdmin] and against the interface
    [PyObject] of an object that owns a router or a relay.  Every administration
    call does what the same call of the C interface does. *)

From S2P Require Import Prelude Ordered Telemetry Config Schema Queue SmallPayload Wire Packet Serialize Calendar TimeSync Discovery RouterState Routes Reliable TimeRuntime Plan Topology EndToEnd Announce World Text CText CPacket CHandle Python.

(** ** Callbacks *)

(** What Python callbacks answer: [true] when the call raises.  The clock of a
    standard router counts real time; a [PyClock] asks its callback for an
    integer. *)
Record PyCallbacks := {
  py_ms_at : Z -> nat -> Z;
  py_ns_at : Z -> nat -> Z;
  py_gate_busy : Z -> bool;
  py_isr_busy : Z -> bool;
  tx_raises : Z -> RouterSideId -> nat -> CallArg -> bool;
  handler_raises : Z -> EndpointHandler -> nat -> CallArg -> bool
}.

(** [PyClock::now_ms]: an exception, or an answer that is no [u64], is 0. *)
Definition PyClock_now_ms (cb : option (Z -> nat -> PyResult Z)) (n : Z) (i : nat) : Z :=
  match cb with
  | Some f => match f n i with Ok v => if (0 <=? v) && (v <=? u64_max) then v else 0 | _ => 0 end
  | None => 0
  end.

(** [match cb.call1(..) { Ok(_) => Ok(()), Err(err) => Err(Io(what)) }] *)
Definition raised (what : string) (raises : bool) : TelemetryResult unit := if raises then Err (Io what) else Ok tt.

Definition py_environment (bytes_error packet_error : string) (cb : PyCallbacks) : Environment :=
  {| ms_at := py_ms_at cb; ns_at := py_ns_at cb; gate_busy := py_gate_busy cb; isr_busy := py_isr_busy cb;
     side_answer n side i arg :=
       raised match arg with ArgBytes _ => bytes_error | ArgPacket _ => packet_error end (tx_raises cb n side i arg);
     handler_answer n h i arg :=
       raised match arg with ArgBytes _ => "serialized handler error" | ArgPacket _ => "packet handler error" end
         (handler_raises cb n h i arg) |}.

Definition py_router_environment : PyCallbacks -> Environment := py_environment "router side tx error" "router packet tx error".
Definition py_relay_environment : PyCallbacks -> Environment := py_environment "relay tx error" "relay packet tx error".

(** ** Objects *)

(** An object [P] that runs calls on the [S] it owns, if it lets them through. *)
Class PyObject (P S : Type) := { py_locked : forall {A}, (S -> S * PyResult A) -> P -> P * PyResult A }.

(** [op(..).map_err(py_err_from)] *)
Definition py_op {S A} (m : S -> S * TelemetryResult A) : S -> S * PyResult A := fun s => let '(s, r) := m s in (s, to_py r).

(** A value computed before the call, or its exception. *)
Definition with_value {P A B} (v : PyResult A) (m : A -> P -> P * PyResult B) : P -> P * PyResult B :=
  match v with
  | Ok a => m a
  | Err e => fun p => (p, Err e)
  | Panic => fun p => (p, Panic)
  end.

(** The object with the callbacks it keeps alive. *)
Record PySides `{Pyo3} (P : Type) := { behind : P; side_cbs : list (option PyObj) }.
#[global] Arguments Build_PySides {_} P _ _.
#[global] Arguments behind {_ P} _.
#[global] Arguments side_cbs {_ P} _.

(** The vector is made long enough, then the slot is written. *)
Definition keep_callback {A} (id : Z) (cb : A) (cbs : list (option A)) : list (option A) :=
  let cbs := if nlen cbs <=? id then cbs ++ replicate (Z.to_nat (id + 1 - nlen cbs)) None else cbs in
  <[Z.to_nat id := Some cb]> cbs.

Section Methods.
Context `{Schema} `{Pyo3} {P S : Type} `{PyObject P S} `{SideAdmin S}.

Definition py_add_side (handler : RouterTxHandlerFn) (name : Str) (tx : PyObj) (reliable : bool) (h : PySides P) : PySides P * PyResult Z :=
  let '(p, r) := py_locked (py_op (admin_add_side name handler (side_options reliable))) (behind h) in
  match r with
  | Ok id => (Build_PySides P p (keep_callback id tx (side_cbs h)), Ok (wrap 32 id))
  | Err e => (Build_PySides P p (side_cbs h), Err e)
  | Panic => (Build_PySides P p (side_cbs h), Panic)
  end.

Definition py_remove_side (side_id : Z) (h : PySides P) : PySides P * PyResult unit :=
  let '(p, r) := py_locked (py_op (admin_remove_side side_id)) (behind h) in
  (Build_PySides P p (if is_ok r then <[Z.to_nat side_id := None]> (side_cbs h) else side_cbs h), r).

Definition py_set_side_ingress_enabled (side_id : Z) (enabled : bool) : P -> P * PyResult unit :=
  py_locked (py_op (admin_set_ingress side_id enabled)).

Definition py_set_side_egress_enabled (side_id : Z) (enabled : bool) : P -> P * PyResult unit :=
  py_locked (py_op (admin_set_egress side_id enabled)).

Definition py_set_route (src : option Z) (dst : Z) (enabled : bool) : P -> P * PyResult unit :=
  py_locked (py_op (admin_set_route src dst enabled)).

Definition py_clear_route (src : option Z) (dst : Z) : P -> P * PyResult unit := py_locked (py_op (admin_clear_route src dst)).

(** The type is converted after the lock is taken. *)
Definition py_set_typed_route (src : option Z) (ty_u32 dst : Z) (enabled : bool) : P -> P * PyResult unit :=
  py_locked (with_value (to_py (dtype_from_u32 ty_u32)) (fun t => py_op (admin_set_typed_route src t dst enabled))).

Definition py_clear_typed_route (src : option Z) (ty_u32 dst : Z) : P -> P * PyResult unit :=
  py_locked (with_value (to_py (dtype_from_u32 ty_u32)) (fun t => py_op (admin_clear_typed_route src t dst))).

Definition py_mode (mode : Z) : PyResult RouteSelectionMode :=
  if mode =? 0 then Ok Fanout else if mode =? 1 then Ok Weighted else if mode =? 2 then Ok Failover
  else Err (ValueErr "invalid route selection mode").

Definition py_set_source_route_mode (src : option Z) (mode : Z) : P -> P * PyResult unit :=
  with_value (py_mode mode) (fun mode => py_locked (py_op (admin_set_mode src mode))).

Definition py_clear_source_route_mode (src : option Z) : P -> P * PyResult unit := py_locked (py_op (admin_clear_mode src)).

Definition py_set_route_weight (src : option Z) (dst weight : Z) : P -> P * PyResult unit :=
  py_locked (py_op (admin_set_weight src dst weight)).

Definition py_clear_route_weight (src : option Z) (dst : Z) : P -> P * PyResult unit :=
  py_locked (py_op (admin_clear_weight src dst)).

Definition py_set_route_priority (src : option Z) (dst priority : Z) : P -> P * PyResult unit :=
  py_locked (py_op (admin_set_priority src dst priority)).

Definition py_clear_route_priority (src : option Z) (dst : Z) : P -> P * PyResult unit :=
  py_locked (py_op (admin_clear_priority src dst)).
End Methods.

(** ** Any administration call *)

Inductive PySideCall :=
| PyAddSide (handler : RouterTxHandlerFn) (name : Str) (reliable : bool)
| PyRemoveSide (side_id : Z)
| PySetIngress (side_id : Z) (enabled : bool)
| PySetEgress (side_id : Z) (enabled : bool)
| PySetRoute (src : option Z) (dst : Z) (enabled : bool)
| PyClearRoute (src : option Z) (dst : Z)
| PySetTypedRoute (src : option Z) (ty_u32 dst : Z) (enabled : bool)
| PyClearTypedRoute (src : option Z) (ty_u32 dst : Z)
| PySetMode (src : option Z) (mode : Z)
| PyClearMode (src : option Z)
| PySetWeight (src : option Z) (dst weight : Z)
| PyClearWeight (src : option Z) (dst : Z)
| PySetPriority (src : option Z) (dst priority : Z)
| PyClearPriority (src : option Z) (dst : Z).

(** The source of a C call: -1 for [None]. *)
Definition c_source (src : option Z) : Z := default (-1) src.

(** Side ids that C can pass, too: an [int32_t] that is not negative. *)
Definition small_id (id : Z) : Prop := 0 <= id < 2 ^ 31.
Definition small_source (src : option Z) : Prop := forall id, src = Some id -> small_id id.

(** A Python name is UTF-8. *)
Definition side_call_ok (c : PySideCall) : Prop :=
  match c with
  | PyAddSide _ name _ => utf8_valid name = true
  | PyRemoveSide side_id | PySetIngress side_id _ | PySetEgress side_id _ => small_id side_id
  | PySetMode src _ | PyClearMode src => small_source src
  | PySetRoute src dst _ | PyClearRoute src dst | PySetTypedRoute src _ dst _ | PyClearTypedRoute src _ dst
  | PySetWeight src dst _ | PyClearWeight src dst | PySetPriority src dst _ | PyClearPriority src dst =>
      small_source src /\ small_id dst
  end.

Section Calls.
Context `{Schema} `{Pyo3} {P S : Type} `{PyObject P S} `{SideAdmin S}.

(** The methods that leave the kept callbacks alone. *)
Definition on_object {A} (m : P -> P * PyResult A) (h : PySides P) : PySides P * PyResult A :=
  let '(p, r) := m (behind h) in (Build_PySides P p (side_cbs h), r).

Definition answers_zero {T} (m : T -> T * PyResult unit) (h : T) : T * PyResult Z :=
  let '(h, r) := m h in (h, _ ← r; Ok 0).

(** [tx]: the callback of an added side.  Where the method returns [None] the
    answer is written 0. *)
Definition run_side_call (tx : PyObj) (c : PySideCall) : PySides P -> PySides P * PyResult Z :=
  match c with
  | PyAddSide handler name reliable => py_add_side handler name tx reliable
  | PyRemoveSide side_id => answers_zero (py_remove_side side_id)
  | PySetIngress side_id enabled => on_object (answers_zero (py_set_side_ingress_enabled side_id enabled))
  | PySetEgress side_id enabled => on_object (answers_zero (py_set_side_egress_enabled side_id enabled))
  | PySetRoute src dst enabled => on_object (answers_zero (py_set_route src dst enabled))
  | PyClearRoute src dst => on_object (answers_zero (py_clear_route src dst))
  | PySetTypedRoute src ty_u32 dst enabled => on_object (answers_zero (py_set_typed_route src ty_u32 dst enabled))
  | PyClearTypedRoute src ty_u32 dst => on_object (answers_zero (py_clear_typed_route src ty_u32 dst))
  | PySetMode src mode => on_object (answers_zero (py_set_source_route_mode src mode))
  | PyClearMode src => on_object (answers_zero (py_clear_source_route_mode src))
  | PySetWeight src dst weight => on_object (answers_zero (py_set_route_weight src dst weight))
  | PyClearWeight src dst => on_object (answers_zero (py_clear_route_weight src dst))
  | PySetPriority src dst priority => on_object (answers_zero (py_set_route_priority src dst priority))
  | PyClearPriority src dst => on_object (answers_zero (py_clear_route_priority src dst))
  end.

(** The same call in C. *)
Definition c_side_call (c : PySideCall) : CCall S Z :=
  match c with
  | PyAddSide handler name reliable => c_add_side handler (Some name) (nlen name) true reliable
  | PyRemoveSide side_id => c_remove_side side_id
  | PySetIngress side_id enabled => c_set_side_ingress_enabled side_id enabled
  | PySetEgress side_id enabled => c_set_side_egress_enabled side_id enabled
  | PySetRoute src dst enabled => c_set_route (c_source src) dst enabled
  | PyClearRoute src dst => c_clear_route (c_source src) dst
  | PySetTypedRoute src ty_u32 dst enabled => c_set_typed_route (c_source src) ty_u32 dst enabled
  | PyClearTypedRoute src ty_u32 dst => c_clear_typed_route (c_source src) ty_u32 dst
  | PySetMode src mode => c_set_source_route_mode (c_source src) mode
  | PyClearMode src => c_clear_source_route_mode (c_source src)
  | PySetWeight src dst weight => c_set_route_weight (c_source src) dst weight
  | PyClearWeight src dst => c_clear_route_weight (c_source src) dst
  | PySetPriority src dst priority => c_set_route_priority (c_source src) dst priority
  | PyClearPriority src dst => c_clear_route_priority (c_source src) dst
  end.
End Calls.

(** An exception and the status C is answered for the same failure. *)
Definition exception_status (e : PyErr) (code : Z) : Prop :=
  match e with
  | TelemetryErr e => code = status_from_err e
  | ValueErr _ => code = bad_arg
  | _ => False
  end.

(** The answers of the two languages to one call. *)
Definition same_answer (r : PyResult Z) (c : TelemetryResult Z) : Prop :=
  match r, c with
  | Ok v, Ok code => as_i32 v = code
  | Err e, Ok code => exception_status e code
  | Panic, Panic => True
  | _, _ => False
  end.

(** What an object promises: [world_of] is what it owns, and while it is
    [usable] every call runs on that. *)
Class PyObjectOk (P S : Type) `{PyObject P S} := {
  world_of : P -> S;
  usable : P -> Prop;
  locked_world A (f : S -> S * PyResult A) p : usable p -> world_of (fst (py_locked f p)) = fst (f (world_of p));
  locked_answer A (f : S -> S * PyResult A) p : usable p -> snd (py_locked f p) = snd (f (world_of p));
  locked_usable A (f : S -> S * PyResult A) p : usable p -> snd (f (world_of p)) <> Panic -> usable (fst (py_locked f p))
}.

(** ** The two languages agree *)

(** Adding a side cannot fail: the code's method answers the id itself. *)
Class SideAdminOk (S : Type) `{SideAdmin S} :=
  add_side_total name handler o (s : S) : exists id, snd (admin_add_side name handler o s) = Ok id.

Section Agreement.
Context `{Config} `{Schema} `{Pyo3} {P S : Type} `{PyObjectOk P S} `{SideAdminOk S}.

(** A Python call and the C call on what its object owns. *)
Definition agrees (py : PySides P * PyResult Z) (c : option S * TelemetryResult Z) : Prop :=
  fst c = Some (world_of (behind (fst py))) /\ same_answer (snd py) (snd c)
  /\ (snd py <> Panic -> usable (behind (fst py))).

Lemma same_answer_status (r : TelemetryResult unit) :
  same_answer (_ ← to_py r; Ok 0) (ok_or_status r).
Proof. by destruct r as [[]| |]. Qed.

(** A method that runs an operation under the lock. *)
Lemma op_agrees (m : S -> S * TelemetryResult unit) h : usable (behind h) ->
  agrees (on_object (answers_zero (py_locked (py_op m))) h) (with_status false m (Some (world_of (behind h)))).
Proof.
  intros Hu. pose proof (locked_world _ (py_op m) _ Hu) as Hw. pose proof (locked_answer _ (py_op m) _ Hu) as Ha.
  pose proof (locked_usable _ (py_op m) _ Hu) as Hk.
  unfold on_object, answers_zero, with_status, on_handle, status, py_op in *. destruct (py_locked _ (behind h)) as [p r].
  destruct (m (world_of (behind h))) as [s a]. cbn [fst snd] in *. subst. split; [done|]. split; [apply same_answer_status|].
  intros Hr. apply Hk. by destruct a.
Qed.

(** The same with an argument that may not convert, before or after the lock. *)
Lemma refused_agrees (r : PyResult Z) code h : usable (behind h) -> same_answer r (Ok code) ->
  agrees (h, r) (Some (world_of (behind h)), Ok code).
Proof. intros Hu Hr. by split. Qed.

Lemma typed_agrees ty_u32 (m : DataType -> S -> S * TelemetryResult unit) h : usable (behind h) ->
  agrees (on_object (answers_zero (py_locked (with_value (to_py (dtype_from_u32 ty_u32)) (fun t => py_op (m t))))) h)
         (on_handle bad_arg false (status_with (CPacket.dtype_from_u32 ty_u32) m) (Some (world_of (behind h)))).
Proof.
  intros Hu. unfold dtype_from_u32, CPacket.dtype_from_u32, ok_or. destruct (type_try_from_u32 ty_u32) as [t|]; [by apply op_agrees|].
  cbn [to_py with_value status_with].
  set (f := fun s : S => (s, Err (py_err_from InvalidType))) in *.
  pose proof (locked_world _ f _ Hu) as Hw. pose proof (locked_answer _ f _ Hu) as Ha. pose proof (locked_usable _ f _ Hu) as Hk.
  change (fun p : S => (p, Err (py_err_from InvalidType))) with f. unfold on_object, answers_zero.
  change (py_locked f (behind h)) with (py_locked f (behind h)). destruct (py_locked f (behind h)) as [p r]. cbn [fst snd f] in *. subst r.
  split; [by rewrite <- Hw|]. split; [done|]. intros _. by apply Hk.
Qed.

Lemma source_of_c src : small_source src -> source_of (c_source src) = src /\ bad_source (c_source src) = false.
Proof.
  unfold source_of, bad_source, c_source. destruct src as [id|]; [|done]. intros Hs. destruct (Hs id eq_refl).
  change (default (-1) (Some id)) with id.
  split; [by rewrite (proj2 (Z.ltb_ge id 0)) by lia|apply Z.ltb_ge; lia].
Qed.

Lemma route_ids src dst : small_source src /\ small_id dst -> source_of (c_source src) = src /\ bad_route (c_source src) dst = false.
Proof.
  intros [Hs Hd]. destruct (source_of_c src Hs) as [E Hb]. split; [done|]. unfold bad_route. rewrite Hb, orb_false_r.
  apply Z.ltb_ge. destruct Hd. lia.
Qed.

Lemma as_i32_wrap n : as_i32 (wrap 32 n) = as_i32 n.
Proof. unfold as_i32, swrap, wrap. by rewrite Zplus_mod_idemp_l. Qed.

Lemma add_side_agrees tx handler name reliable h : utf8_valid name = true -> usable (behind h) ->
  agrees (py_add_side handler name tx reliable h)
         (c_add_side handler (Some name) (nlen name) true reliable (Some (world_of (behind h)))).
Proof.
  intros Hn Hu. set (m := admin_add_side name handler (side_options reliable) : S -> S * TelemetryResult Z).
  assert (side_name_arg (Some name) (nlen name) = Ok name) as Hs.
  { unfold side_name_arg. rewrite bool_decide_eq_false_2 by done. cbn [orb].
    destruct (Z.eqb_spec (nlen name) 0) as [E|_]; [destruct name; [done|unfold nlen in E; cbn in E; lia]|].
    rewrite from_raw_parts_Ok by lia. unfold nlen. rewrite Nat2Z.id, firstn_all. cbn [mbind res_mbind res_bind]. by rewrite Hn. }
  pose proof (locked_world _ (py_op m) _ Hu) as Hw. pose proof (locked_answer _ (py_op m) _ Hu) as Ha.
  pose proof (locked_usable _ (py_op m) _ Hu) as Hk.
  unfold c_add_side, on_handle, py_add_side. rewrite Hs. cbn [negb].
  change (admin_add_side name handler (side_options reliable)) with m.
  destruct (add_side_total name handler (side_options reliable) (world_of (behind h))) as [id Hid].
  change (admin_add_side name handler (side_options reliable)) with m in Hid.
  unfold py_op in *. destruct (py_locked _ (behind h)) as [p r], (m (world_of (behind h))) as [s a]. cbn [fst snd] in *. subst.
  split; [done|]. split; [apply as_i32_wrap|]. intros _. by apply Hk.
Qed.

Lemma remove_side_agrees side_id h : small_id side_id -> usable (behind h) ->
  agrees (answers_zero (py_remove_side side_id) h) (c_remove_side side_id (Some (world_of (behind h)))).
Proof.
  intros Hi Hu. unfold c_remove_side, small_id in *. rewrite (proj2 (Z.ltb_ge side_id 0)) by lia.
  pose proof (op_agrees (admin_remove_side side_id) h Hu) as Hop.
  unfold on_object, answers_zero, py_remove_side, agrees in *. destruct (py_locked _ (behind h)) as [p r]. exact Hop.
Qed.

(** Every administration call. *)
Lemma side_call_agrees tx c h : side_call_ok c -> usable (behind h) ->
  agrees (run_side_call tx c h) (c_side_call c (Some (world_of (behind h)))).
Proof.
  intros Hc Hu. destruct c; cbn [side_call_ok] in Hc; cbn [run_side_call c_side_call].
  - by apply add_side_agrees.
  - by apply remove_side_agrees.
  - unfold c_set_side_ingress_enabled, small_id in *. rewrite (proj2 (Z.ltb_ge side_id 0)) by lia. by apply op_agrees.
  - unfold c_set_side_egress_enabled, small_id in *. rewrite (proj2 (Z.ltb_ge side_id 0)) by lia. by apply op_agrees.
  - unfold c_set_route. destruct (route_ids _ _ Hc) as [-> ->]. by apply op_agrees.
  - unfold c_clear_route. destruct (route_ids _ _ Hc) as [-> ->]. by apply op_agrees.
  - unfold c_set_typed_route. destruct (route_ids _ _ Hc) as [-> ->]. by apply typed_agrees.
  - unfold c_clear_typed_route. destruct (route_ids _ _ Hc) as [-> ->]. by apply typed_agrees.
  - unfold c_set_source_route_mode. destruct (source_of_c _ Hc) as [-> ->].
    unfold py_set_source_route_mode, py_mode, route_selection_mode_from_i32.
    destruct (mode =? 0); [by apply op_agrees|]. destruct (mode =? 1); [by apply op_agrees|].
    destruct (mode =? 2); [by apply op_agrees|]. destruct h as [p cbs]. by apply (refused_agrees _ _ (Build_PySides P p cbs)).
  - unfold c_clear_source_route_mode. destruct (source_of_c _ Hc) as [-> ->]. by apply op_agrees.
  - unfold c_set_route_weight. destruct (route_ids _ _ Hc) as [-> ->]. by apply op_agrees.
  - unfold c_clear_route_weight. destruct (route_ids _ _ Hc) as [-> ->]. by apply op_agrees.
  - unfold c_set_route_priority. destruct (route_ids _ _ Hc) as [-> ->]. by apply op_agrees.
  - unfold c_clear_route_priority. destruct (route_ids _ _ Hc) as [-> ->]. by apply op_agrees.
Qed.
End Agreement.
