(* ===== verification/PyRelay.v ===== *)
(** * The relay for Python ([src/python_api.rs])

    Every method of the class [Relay], what a Python program can do to a relay,
    and that it does what a C program making the same calls does. *)

From stdpp Require Import gmap.
From S2P Require Import Prelude Ordered Telemetry Config Schema Queue SmallPayload Wire Packet Serialize TimeSync Discovery RouterState Routes Reliable Plan Topology EndToEnd Announce World RelayState RelayPlan RelayTopology RelayLink RelayRun RelayInvariant RelayTraffic Text CText CPacket CHandle CRelay Python PySide.

(** ** Construction *)

(** The clock of a relay is a [PyClock], also when no callback is given. *)
Definition relay_clock (now_ms : option (Z -> nat -> PyResult Z)) (cb : PyCallbacks) : Environment :=
  let env := py_relay_environment cb in
  {| ms_at := PyClock_now_ms now_ms; ns_at := ns_at env; gate_busy := gate_busy env; isr_busy := isr_busy env;
     side_answer := side_answer env; handler_answer := handler_answer env |}.

(** The relay has no lock around it. *)
#[export] Instance relay_object : PyObject RelayWorld RelayWorld := {| py_locked A f w := f w |}.

#[export] Instance relay_object_ok : PyObjectOk RelayWorld RelayWorld.
Proof. refine {| world_of w := w; usable _ := True |}; done. Defined.

Section Entries.
Context `{Config} `{Schema} `{External} `{Layout} `{RelayLayout} `{Pyo3}.

Definition py_relay_new : PyResult (PySides RelayWorld) :=
  state ← to_py relay_inner_new;
  Ok (Build_PySides RelayWorld {| relay_state := state; relay_tick := 0; relay_events := [] |} []).

Context (env : Environment) (fuel : nat).

#[local] Instance py_relay_admin : SideAdmin RelayWorld := relay_side_admin env.

(** ** Sides and routes *)

Definition relay_py_add_side_serialized : Str -> PyObj -> bool -> PySides RelayWorld -> PySides RelayWorld * PyResult Z :=
  py_add_side HSerialized.
Definition relay_py_add_side_packet : Str -> PyObj -> bool -> PySides RelayWorld -> PySides RelayWorld * PyResult Z :=
  py_add_side HPacket.
Definition relay_py_remove_side : Z -> PySides RelayWorld -> PySides RelayWorld * PyResult unit := py_remove_side.
Definition relay_py_set_side_ingress_enabled : Z -> bool -> RelayWorld -> RelayWorld * PyResult unit := py_set_side_ingress_enabled.
Definition relay_py_set_side_egress_enabled : Z -> bool -> RelayWorld -> RelayWorld * PyResult unit := py_set_side_egress_enabled.
Definition relay_py_set_route : option Z -> Z -> bool -> RelayWorld -> RelayWorld * PyResult unit := py_set_route.
Definition relay_py_clear_route : option Z -> Z -> RelayWorld -> RelayWorld * PyResult unit := py_clear_route.
Definition relay_py_set_typed_route : option Z -> Z -> Z -> bool -> RelayWorld -> RelayWorld * PyResult unit := py_set_typed_route.
Definition relay_py_clear_typed_route : option Z -> Z -> Z -> RelayWorld -> RelayWorld * PyResult unit := py_clear_typed_route.
Definition relay_py_set_source_route_mode : option Z -> Z -> RelayWorld -> RelayWorld * PyResult unit := py_set_source_route_mode.
Definition relay_py_clear_source_route_mode : option Z -> RelayWorld -> RelayWorld * PyResult unit := py_clear_source_route_mode.
Definition relay_py_set_route_weight : option Z -> Z -> Z -> RelayWorld -> RelayWorld * PyResult unit := py_set_route_weight.
Definition relay_py_clear_route_weight : option Z -> Z -> RelayWorld -> RelayWorld * PyResult unit := py_clear_route_weight.
Definition relay_py_set_route_priority : option Z -> Z -> Z -> RelayWorld -> RelayWorld * PyResult unit := py_set_route_priority.
Definition relay_py_clear_route_priority : option Z -> Z -> RelayWorld -> RelayWorld * PyResult unit := py_clear_route_priority.

(** ** Receiving and queues *)

Definition relay_py_rx_serialized_from_side (side_id : Z) (data : PyObj) : RelayWorld -> RelayWorld * PyResult unit :=
  with_value (extract_bytes data) (fun bytes => py_op (relay_rx_from_side side_id (RSerialized bytes))).
Definition relay_py_rx_packet_from_side (side_id : Z) (packet : PyObj) : RelayWorld -> RelayWorld * PyResult unit :=
  with_value (extract_packet packet) (fun pkt => py_op (relay_rx_from_side side_id (RPacket pkt))).

Definition relay_py_clear_queues : RelayWorld -> RelayWorld * PyResult unit := py_op (relay_locked relay_clear_queues).
Definition relay_py_clear_rx_queue : RelayWorld -> RelayWorld * PyResult unit := py_op (relay_locked relay_clear_rx_queue).
Definition relay_py_clear_tx_queue : RelayWorld -> RelayWorld * PyResult unit := py_op (relay_locked relay_clear_tx_queue).

Definition relay_py_process_rx_queue : RelayWorld -> RelayWorld * PyResult unit := py_op (relay_process_rx_queue env fuel).
Definition relay_py_process_tx_queue : RelayWorld -> RelayWorld * PyResult unit := py_op (relay_process_tx_queue env fuel).
Definition relay_py_process_all_queues : RelayWorld -> RelayWorld * PyResult unit := py_op (relay_process_all_queues env fuel).
Definition relay_py_process_rx_queue_with_timeout (timeout_ms : Z) : RelayWorld -> RelayWorld * PyResult unit :=
  py_op (relay_process_rx_queue_with_timeout env fuel timeout_ms).
Definition relay_py_process_tx_queue_with_timeout (timeout_ms : Z) : RelayWorld -> RelayWorld * PyResult unit :=
  py_op (relay_process_tx_queue_with_timeout env fuel timeout_ms).
Definition relay_py_process_all_queues_with_timeout (timeout_ms : Z) : RelayWorld -> RelayWorld * PyResult unit :=
  py_op (relay_process_all_queues_with_timeout env fuel timeout_ms).
Definition relay_py_periodic (timeout_ms : Z) : RelayWorld -> RelayWorld * PyResult unit :=
  py_op (relay_periodic env fuel timeout_ms).

Definition relay_py_announce_discovery : RelayWorld -> RelayWorld * PyResult unit := py_op (relay_announce_discovery env).
Definition relay_py_poll_discovery : RelayWorld -> RelayWorld * PyResult bool := py_op (relay_poll_discovery env).

Definition relay_snapshot : LW TopologySnapshot :=
  now ← relay_now env; relay_locked (fun st => let '(st, snap) := relay_export_topology now st in (st, Ok snap)).

Definition relay_py_export_topology : RelayWorld -> RelayWorld * PyResult PyVal :=
  py_op (snap ← relay_snapshot; mret (topology_snapshot_to_pydict snap)).

(** ** Any call *)

(** The calls that can change a relay, with Python's arguments. *)
Inductive RelayPyCall :=
| PyOnSides (tx : PyObj) (c : PySideCall)
| PyRxSerialized (side_id : Z) (data : PyObj)
| PyRxPacket (side_id : Z) (packet : PyObj)
| PyProcessRx (timeout_ms : Z)
| PyProcessTx (timeout_ms : Z)
| PyProcessAll (timeout_ms : Z)
| PyPeriodic (timeout_ms : Z)
| PyAnnounce
| PyPoll
| PyClearQueues
| PyClearRx
| PyClearTx.

Definition run_relay_py_call (c : RelayPyCall) : PySides RelayWorld -> PySides RelayWorld * PyResult Z :=
  match c with
  | PyOnSides tx (PyAddSide HSerialized name reliable) => relay_py_add_side_serialized name tx reliable
  | PyOnSides tx (PyAddSide HPacket name reliable) => relay_py_add_side_packet name tx reliable
  | PyOnSides tx c => run_side_call tx c
  | PyRxSerialized side_id data => on_object (answers_zero (relay_py_rx_serialized_from_side side_id data))
  | PyRxPacket side_id packet => on_object (answers_zero (relay_py_rx_packet_from_side side_id packet))
  | PyProcessRx timeout => on_object (answers_zero (relay_py_process_rx_queue_with_timeout timeout))
  | PyProcessTx timeout => on_object (answers_zero (relay_py_process_tx_queue_with_timeout timeout))
  | PyProcessAll timeout => on_object (answers_zero (relay_py_process_all_queues_with_timeout timeout))
  | PyPeriodic timeout => on_object (answers_zero (relay_py_periodic timeout))
  | PyAnnounce => on_object (answers_zero relay_py_announce_discovery)
  | PyPoll => on_object (fun w => let '(w, r) := relay_py_poll_discovery w in (w, _ ← r; Ok 0))
  | PyClearQueues => on_object (answers_zero relay_py_clear_queues)
  | PyClearRx => on_object (answers_zero relay_py_clear_rx_queue)
  | PyClearTx => on_object (answers_zero relay_py_clear_tx_queue)
  end.

(** The calls of a program on one relay, and what each answers. *)
Fixpoint relay_py_program (cs : list RelayPyCall) (h : PySides RelayWorld) : PySides RelayWorld * list (PyResult Z) :=
  match cs with
  | [] => (h, [])
  | c :: cs => let '(h, r) := run_relay_py_call c h in let '(h, rs) := relay_py_program cs h in (h, r :: rs)
  end.

Fixpoint relay_c_program (cs : list RelayCCall) (r : option RelayWorld) : option RelayWorld * list (TelemetryResult Z) :=
  match cs with
  | [] => (r, [])
  | c :: cs => let '(r, a) := run_relay_call env fuel c r in let '(r, rs) := relay_c_program cs r in (r, a :: rs)
  end.

Definition c_of_side_call (c : PySideCall) : RelayCCall :=
  match c with
  | PyAddSide handler name reliable => CAddSide handler (Some name) (nlen name) true reliable
  | PyRemoveSide side_id => CRemoveSide side_id
  | PySetIngress side_id enabled => CSetIngress side_id enabled
  | PySetEgress side_id enabled => CSetEgress side_id enabled
  | PySetRoute src dst enabled => CSetRoute (c_source src) dst enabled
  | PyClearRoute src dst => CClearRoute (c_source src) dst
  | PySetTypedRoute src ty_u32 dst enabled => CSetTypedRoute (c_source src) ty_u32 dst enabled
  | PyClearTypedRoute src ty_u32 dst => CClearTypedRoute (c_source src) ty_u32 dst
  | PySetMode src mode => CSetMode (c_source src) mode
  | PyClearMode src => CClearMode (c_source src)
  | PySetWeight src dst weight => CSetWeight (c_source src) dst weight
  | PyClearWeight src dst => CClearWeight (c_source src) dst
  | PySetPriority src dst priority => CSetPriority (c_source src) dst priority
  | PyClearPriority src dst => CClearPriority (c_source src) dst
  end.

(** The same call with the same arguments in both languages: bytes that lie in
    C memory, and a packet that a C view describes. *)
Inductive same_call : RelayPyCall -> RelayCCall -> Prop :=
| same_sides tx c : side_call_ok c -> same_call (PyOnSides tx c) (c_of_side_call c)
| same_rx_serialized side_id data bytes rest :
    extract_bytes data = Ok bytes -> same_call (PyRxSerialized side_id data) (CRxSerialized side_id (Some (bytes ++ rest)) (nlen bytes))
| same_rx_packet side_id packet pkt view :
    extract_packet packet = Ok pkt -> view_to_packet view = Ok (Some pkt) ->
    same_call (PyRxPacket side_id packet) (CRxPacket side_id (Some view))
| same_process_rx timeout : same_call (PyProcessRx timeout) (CProcessRx timeout)
| same_process_tx timeout : same_call (PyProcessTx timeout) (CProcessTx timeout)
| same_process_all timeout : same_call (PyProcessAll timeout) (CProcessAll timeout)
| same_periodic timeout : same_call (PyPeriodic timeout) (CPeriodic timeout)
| same_announce : same_call PyAnnounce CAnnounce
| same_poll : same_call PyPoll CPoll
| same_clear_queues : same_call PyClearQueues CClearQueues.

(** ** Each call *)

#[local] Instance relay_admin_total : SideAdminOk RelayWorld.
Proof.
  intros name handler o w. cbn [admin_add_side py_relay_admin relay_side_admin]. unfold relay_admin_op. rewrite LW_run.
  cbn [relay_now relay_ask]. by eexists.
Qed.

Lemma side_call_generic tx c h : run_relay_py_call (PyOnSides tx c) h = run_side_call tx c h.
Proof. by destruct c as [[]| | | | | | | | | | | | |]. Qed.

Lemma c_side_call_is c r : run_relay_call env fuel (c_of_side_call c) r = c_side_call c r.
Proof. by destruct c as [[]| | | | | | | | | | | | |]. Qed.

(** A method without a lock, and the C call with the same operation. *)
Lemma relay_op_agrees (m : LW unit) h :
  agrees (on_object (answers_zero (py_op m)) h) (with_status false m (Some (behind h))).
Proof. exact (op_agrees m h I). Qed.

Lemma relay_calls_agree c cc h : same_call c cc -> agrees (run_relay_py_call c h) (run_relay_call env fuel cc (Some (behind h))).
Proof.
  intros [tx c' Hc|side_id data bytes rest He|side_id packet pkt view He Hv|timeout|timeout|timeout|timeout| | |].
  - rewrite side_call_generic, c_side_call_is. exact (side_call_agrees tx c' h Hc I).
  - cbn [run_relay_py_call run_relay_call]. unfold relay_py_rx_serialized_from_side, seds_relay_rx_serialized_from_side, bytes_entry.
    rewrite He, bool_decide_eq_false_2, andb_false_r, (points_to_read _ _ bytes) by (try apply points_to_all; done).
    apply relay_op_agrees.
  - cbn [run_relay_py_call run_relay_call]. unfold relay_py_rx_packet_from_side, seds_relay_rx_packet_from_side, view_entry, packet_arg.
    rewrite He, Hv. apply relay_op_agrees.
  - apply relay_op_agrees.
  - apply relay_op_agrees.
  - apply relay_op_agrees.
  - apply relay_op_agrees.
  - apply relay_op_agrees.
  - cbn [run_relay_py_call run_relay_call]. unfold relay_py_poll_discovery, seds_relay_poll_discovery, polled, py_op, on_object.
    rewrite on_handle_false. destruct (relay_poll_discovery env (behind h)) as [w [did|e|]]; done.
  - apply relay_op_agrees.
Qed.

Lemma relay_programs_agree cs ccs h : Forall2 same_call cs ccs ->
  fst (relay_c_program ccs (Some (behind h))) = Some (behind (fst (relay_py_program cs h)))
  /\ Forall2 same_answer (snd (relay_py_program cs h)) (snd (relay_c_program ccs (Some (behind h)))).
Proof.
  intros Hcs. revert h. induction Hcs as [|c cc cs ccs Hc Hcs IH]; intros h; [done|].
  cbn [relay_py_program relay_c_program]. destruct (relay_calls_agree c cc h Hc) as (Ew & Ha & _).
  destruct (run_relay_py_call c h) as [h' r], (run_relay_call env fuel cc (Some (behind h))) as [o a]. cbn [fst snd] in *.
  change (world_of (behind h')) with (behind h') in Ew. subst o. destruct (IH h') as [Ew' Ha'].
  destruct (relay_py_program cs h') as [h'' rs], (relay_c_program ccs (Some (behind h'))) as [o' as']. cbn [fst snd] in *.
  split; [done|]. by constructor.
Qed.

(** Side ids are [u32]. *)
Definition py_source_typed (src : option Z) : Prop := forall id, src = Some id -> 0 <= id.

Definition side_call_typed (c : PySideCall) : Prop :=
  match c with
  | PyAddSide _ _ _ => True
  | PyRemoveSide side_id | PySetIngress side_id _ | PySetEgress side_id _ => 0 <= side_id
  | PySetMode src _ | PyClearMode src => py_source_typed src
  | PySetRoute src dst _ | PyClearRoute src dst | PySetTypedRoute src _ dst _ | PyClearTypedRoute src _ dst
  | PySetWeight src dst _ | PyClearWeight src dst | PySetPriority src dst _ | PyClearPriority src dst =>
      py_source_typed src /\ 0 <= dst
  end.

Definition py_call_typed (c : RelayPyCall) : Prop :=
  match c with
  | PyOnSides _ c => side_call_typed c
  | PyRxSerialized side_id _ | PyRxPacket side_id _ => 0 <= side_id
  | _ => True
  end.

(** A call that raises and leaves the relay alone, and one that is an operation. *)
Definition raises (c : RelayPyCall) (h : PySides RelayWorld) : Prop :=
  behind (fst (run_relay_py_call c h)) = behind h /\ forall v, snd (run_relay_py_call c h) <> Ok v.

Definition performs_op (c : RelayPyCall) (h : PySides RelayWorld) (o : RelayOp) : Prop :=
  op_indexes o /\ behind (fst (run_relay_py_call c h)) = fst (run_relay_op env fuel o (behind h))
  /\ match o with
     | RelayAddSide _ _ _ => snd (run_relay_py_call c h) = Ok (wrap 32 (nlen (rl_sides (relay_state (behind h)))))
     | _ => snd (run_relay_py_call c h) = (_ ← to_py (snd (run_relay_op env fuel o (behind h))); Ok 0)
     end.

Lemma performs_intro c h (m : LW unit) o :
  run_relay_py_call c h = on_object (answers_zero (py_op m)) h -> m (behind h) = run_relay_op env fuel o (behind h) ->
  op_indexes o -> (forall name handler opts, o <> RelayAddSide name handler opts) -> performs_op c h o.
Proof.
  intros Hc Hm Ho Hadd. unfold performs_op. rewrite Hc, <- Hm. unfold on_object, answers_zero, py_op.
  destruct (m (behind h)) as [w r]. split; [done|]. split; [done|].
  destruct o; try done. exfalso. by eapply Hadd.
Qed.

(** The same with a converted argument. *)
Lemma value_performs {A} c h (v : PyResult A) (m : A -> LW unit) (o : A -> RelayOp) :
  run_relay_py_call c h = on_object (answers_zero (with_value v (fun a => py_op (m a)))) h ->
  (forall a, m a (behind h) = run_relay_op env fuel (o a) (behind h)) -> (forall a, op_indexes (o a)) ->
  (forall a name handler opts, o a <> RelayAddSide name handler opts) -> raises c h \/ exists o, performs_op c h o.
Proof.
  intros Hc Hm Ho Hadd. destruct v as [a|e|].
  - right. exists (o a). by apply (performs_intro _ _ (m a)).
  - left. unfold raises. by rewrite Hc.
  - left. unfold raises. by rewrite Hc.
Qed.

Lemma remove_performs tx side_id h : 0 <= side_id -> performs_op (PyOnSides tx (PyRemoveSide side_id)) h (RelayRemoveSide side_id).
Proof.
  intros Hi. pose proof (admin_is_op env (relay_remove_side side_id) (behind h)) as Hop. unfold performs_op.
  cbn [run_relay_py_call run_side_call run_relay_op]. unfold answers_zero, py_remove_side, py_op. rewrite Hop.
  cbn [py_locked relay_object admin_remove_side py_relay_admin relay_side_admin].
  by destruct (relay_admin_op env (relay_remove_side side_id) (behind h)).
Qed.

Lemma add_performs tx handler name reliable h :
  performs_op (PyOnSides tx (PyAddSide handler name reliable)) h (RelayAddSide name handler (side_options reliable)).
Proof.
  unfold performs_op. rewrite side_call_generic. split; [done|].
  cbn [run_side_call run_relay_op]. unfold py_add_side, py_op.
  cbn [py_locked relay_object admin_add_side py_relay_admin relay_side_admin].
  unfold relay_admin, relay_admin_op, relay_discard. rewrite !LW_run. cbn [relay_now relay_ask]. rewrite LW_run.
  unfold relay_locked, relay_add_side, add_side. split; done.
Qed.

Lemma side_call_performs tx c h : side_call_typed c ->
  raises (PyOnSides tx c) h \/ exists o, performs_op (PyOnSides tx c) h o.
Proof.
  destruct c; cbn [side_call_typed]; intros Ht.
  - right. eexists. apply add_performs.
  - right. eexists. by apply remove_performs.
  - right. exists (RelaySetIngress side_id enabled). eapply performs_intro; [done|symmetry; apply admin_is_op|done|done].
  - right. exists (RelaySetEgress side_id enabled). eapply performs_intro; [done|symmetry; apply admin_is_op|done|done].
  - right. exists (RelaySetRoute src dst enabled). eapply performs_intro; [done|symmetry; apply admin_is_op|done|done].
  - right. exists (RelayClearRoute src dst). eapply performs_intro; [done|symmetry; apply admin_is_op|done|done].
  - eapply (value_performs _ _ (to_py (dtype_from_u32 ty_u32)) (fun t => relay_admin_op env (relay_set_typed_route src t dst enabled)) (fun t => RelaySetTypedRoute src t dst enabled));
      [|intros t; symmetry; apply admin_is_op|done|done].
    done.
  - eapply (value_performs _ _ (to_py (dtype_from_u32 ty_u32)) (fun t => relay_admin_op env (relay_clear_typed_route src t dst)) (fun t => RelayClearTypedRoute src t dst));
      [|intros t; symmetry; apply admin_is_op|done|done].
    done.
  - eapply (value_performs _ _ (py_mode mode) (fun mode => relay_admin_op env (relay_set_source_route_mode src mode)) (fun mode => RelaySetMode src mode)); [|intros t; symmetry; apply admin_is_op|done|done].
    done.
  - right. exists (RelaySetMode src Fanout). eapply performs_intro; [done|symmetry; apply admin_is_op|done|done].
  - right. exists (RelaySetWeight src dst weight). eapply performs_intro; [done|symmetry; apply admin_is_op|done|done].
  - right. exists (RelayClearWeight src dst). eapply performs_intro; [done|symmetry; apply admin_is_op|done|done].
  - right. exists (RelaySetPriority src dst priority). eapply performs_intro; [done|symmetry; apply admin_is_op|done|done].
  - right. exists (RelayClearPriority src dst). eapply performs_intro; [done|symmetry; apply admin_is_op|done|done].
Qed.

Lemma relay_py_call_refines c h : py_call_typed c -> raises c h \/ exists o, performs_op c h o.
Proof.
  destruct c; cbn [py_call_typed]; intros Ht.
  - by apply side_call_performs.
  - by apply (value_performs _ _ (extract_bytes data) (fun l => relay_rx_from_side side_id (RSerialized l)) (fun l => RelayRx side_id (RSerialized l))).
  - by apply (value_performs _ _ (extract_packet packet) (fun p => relay_rx_from_side side_id (RPacket p)) (fun p => RelayRx side_id (RPacket p))).
  - right. exists (RelayProcessRx timeout_ms). by eapply performs_intro.
  - right. exists (RelayProcessTx timeout_ms). by eapply performs_intro.
  - right. exists (RelayProcessAll timeout_ms). by eapply performs_intro.
  - right. exists (RelayPeriodic timeout_ms). by eapply performs_intro.
  - right. exists RelayAnnounceDiscovery. by eapply performs_intro.
  - right. exists RelayPollDiscovery. unfold performs_op. cbn [run_relay_py_call run_relay_op].
    unfold relay_py_poll_discovery, py_op, relay_discard, on_object. rewrite LW_run.
    by destruct (relay_poll_discovery env (behind h)) as [w' [did|e|]].
  - right. exists RelayClearQueues. by eapply performs_intro.
  - right. exists RelayClearRx. by eapply performs_intro.
  - right. exists RelayClearTx. by eapply performs_intro.
Qed.

(** A program keeps the relay consistent. *)
Lemma py_program_keeps cs h : Forall py_call_typed cs -> consistent (relay_state (behind h)) ->
  consistent (relay_state (behind (fst (relay_py_program cs h)))).
Proof.
  intros Ht. revert h. induction Ht as [|c cs Hc Ht IH]; intros h Hh; [done|]. cbn [relay_py_program].
  assert (consistent (relay_state (behind (fst (run_relay_py_call c h))))) as Hc'.
  { destruct (relay_py_call_refines c h Hc) as [[-> _]|(o & Ho & -> & _)]; [done|]. by apply (op_keeps env fuel o Ho). }
  destruct (run_relay_py_call c h) as [h' r]. specialize (IH h' Hc'). by destruct (relay_py_program cs h').
Qed.
End Entries.

(** C13. Python and C do the same to a relay.  Every Python call with side ids that
    are not negative raises and leaves the relay as it was, or is exactly one
    public operation and answers its result; so a program keeps the relay
    consistent.  A Python program and a C program that make the same calls (with
    side ids both can pass, packets that C describes by views, and bytes that lie
    in its memory) leave the relay in the same state, and every call is answered
    alike: the same id, success for success, and an exception where C answers the
    code of that error. *)
Theorem relay_bindings_agree `{Config} `{Schema} `{External} `{Layout} `{RelayLayout} `{Pyo3} env fuel cs ccs h :
  Forall py_call_typed cs -> Forall2 same_call cs ccs -> consistent (relay_state (behind h)) ->
  (forall c h, py_call_typed c -> raises env fuel c h \/ exists o, performs_op env fuel c h o)
  /\ fst (relay_c_program env fuel ccs (Some (behind h))) = Some (behind (fst (relay_py_program env fuel cs h)))
  /\ Forall2 same_answer (snd (relay_py_program env fuel cs h)) (snd (relay_c_program env fuel ccs (Some (behind h))))
  /\ consistent (relay_state (behind (fst (relay_py_program env fuel cs h)))).
Proof.
  intros Ht Hs Hc. split; [intros c k; apply relay_py_call_refines|].
  destruct (relay_programs_agree env fuel cs ccs h Hs) as [Hw Ha]. split; [exact Hw|]. split; [exact Ha|].
  by apply py_program_keeps.
Qed.

(** Without a clock callback, which is the default, the clock stands at 0. *)
Lemma default_clock_stands cb n i : ms_at (relay_clock None cb) n i = 0.
Proof. done. Qed.

(** Callbacks that raise nothing. *)
Definition quiet_py_callbacks : PyCallbacks :=
  {| py_ms_at n i := n + Z.of_nat i; py_ns_at n i := 1000000 * (n + Z.of_nat i); py_gate_busy _ := false; py_isr_busy _ := false;
     tx_raises _ _ _ _ := false; handler_raises _ _ _ _ := false |}.

(** Two sides, an unknown mode, a rule, and a packet from one side to the other. *)
Definition relay_py_calls : list (@RelayPyCall some_python) :=
  [PyOnSides OCallable (PyAddSide HPacket (lit "A") false); PyOnSides OCallable (PyAddSide HPacket (lit "B") false);
   PyOnSides ONone (PySetMode None 7); PyOnSides ONone (PySetRoute (Some 0) 1 true); PyRxPacket 0 (OPacket gps_packet); PyProcessRx 0].
Definition relay_c_calls_same : list RelayCCall :=
  [CAddSide HPacket (Some (lit "A")) 1 true false; CAddSide HPacket (Some (lit "B")) 1 true false;
   CSetMode (-1) 7; CSetRoute 0 1 true; CRxPacket 0 (Some gps_view); CProcessRx 0].

Lemma relay_bindings_agree_witness :
  let env := relay_clock None quiet_py_callbacks in
  let py := @relay_py_program default_config default_schema run_external some_layout some_relay_layout some_python env 9
              relay_py_calls (Build_PySides RelayWorld (relay_world fresh_relay) []) in
  let c := @relay_c_program default_config default_schema run_external some_layout some_relay_layout env 9
             relay_c_calls_same (Some (relay_world fresh_relay)) in
  fst c = Some (behind (fst py)) /\ Forall2 same_answer (snd py) (snd c)
  /\ map rtx_dst (q (rl_tx_queue (relay_state (behind (fst py))))) = [1]
  /\ snd py = [Ok 0; Ok 1; Err (ValueErr "invalid route selection mode"); Ok 0; Ok 0; Ok 0].
Proof.
  intros env py c.
  destruct (@relay_bindings_agree default_config default_schema run_external some_layout some_relay_layout some_python env 9
    relay_py_calls relay_c_calls_same (Build_PySides RelayWorld (relay_world fresh_relay) [])) as (_ & Hw & Ha & _).
  - repeat constructor; try discriminate; intros id [= <-]; discriminate.
  - repeat (apply Forall2_cons; split); try apply Forall2_nil; try done.
    + apply (same_sides _ (PyAddSide HPacket (lit "A") false)). reflexivity.
    + apply (same_sides _ (PyAddSide HPacket (lit "B") false)). reflexivity.
    + apply (same_sides _ (PySetMode None 7)). intros id [=].
    + apply (same_sides _ (PySetRoute (Some 0) 1 true)). split; [intros id [= <-]|]; split; (discriminate || reflexivity).
    + apply (same_rx_packet 0 _ gps_packet); [reflexivity|vm_compute; reflexivity].
    + constructor.
  - apply (@new_consistent default_config some_layout some_relay_layout). vm_compute. reflexivity.
  - split; [exact Hw|]. split; [exact Ha|]. split; vm_compute; reflexivity.
Defined.
