(* ===== verification/PyRouter.v ===== *)
(** * The router for Python ([src/python_api.rs])

    Every method of the class [Router]: construction and the process-wide
    singleton, endpoint handlers, sides and routes, logging, reception,
    transmission, the network time and the queues; and what they do to the router
    behind its mutex. *)

From stdpp Require Import gmap.
From S2P Require Import Prelude Ordered Telemetry Config Schema Queue SmallPayload Wire Packet Serialize Calendar TimeSync Discovery RouterState Routes Reliable TimeRuntime Plan Topology EndToEnd Announce World Dispatch Receive Process Invariant Text CText CPacket CHandle CRouter Python PySide.

(** ** The mutex *)

(** [Mutex<Router>]: the router, its state, and whether a panic poisoned it. *)
Record MutexRouter := { m_router : Router; m_poisoned : bool; m_world : World }.

(** [lock()], then the call; a panic while the guard is held poisons the mutex. *)
#[export] Instance router_object : PyObject MutexRouter World := {|
  py_locked A f r :=
    if m_poisoned r then (r, Err (RuntimeErr "router poisoned"))
    else
      let '(w, res) := f (m_world r) in
      ({| m_router := m_router r; m_poisoned := match res with Panic => true | _ => false end; m_world := w |}, res)
|}.

#[export] Instance router_object_ok : PyObjectOk MutexRouter World.
Proof.
  refine {| world_of := m_world; usable r := m_poisoned r = false |}.
  - intros A f r Hr. cbn. rewrite Hr. by destruct (f (m_world r)).
  - intros A f r Hr. cbn. rewrite Hr. by destruct (f (m_world r)).
  - intros A f r Hr. cbn. rewrite Hr. by destruct (f (m_world r)) as [w []].
Defined.

(** ** Construction *)

Section New.
Context `{Config} `{Schema} `{Layout} `{RouterLayout} `{Pyo3}.

(** [EndpointHandler::new_packet_handler] and [new_serialized_handler]: their
    [assert!] panics for an endpoint of the router itself. *)
Definition new_endpoint_handler (e : DataEndpoint) (kind : EndpointHandlerFn) : TelemetryResult EndpointHandler :=
  if endpoint_is_router_internal e then Panic else Ok {| endpoint := e; handler := kind |}.

(** The handlers of one tuple, and the callbacks kept for packets and for bytes. *)
Definition handler_of (item : PyObj) : PyResult (list EndpointHandler * list PyObj * list PyObj) :=
  match cast_tuple item with
  | None => Err (ValueErr "handler must be a 3-tuple")
  | Some [ep; pkt_cb; ser_cb] =>
      ep_u32 ← extract_u32 ep;
      e ← to_py (endpoint_from_u32 ep_u32);
      let given (cb : PyObj) kind :=
        if is_none cb then Ok ([], []) else eh ← to_py (new_endpoint_handler e kind); Ok ([eh], [cb]) in
      '(pkt, keep_pkt) ← given pkt_cb PacketHandler;
      '(ser, keep_ser) ← given ser_cb SerializedHandler;
      Ok (pkt ++ ser, keep_pkt, keep_ser)
  | Some _ => Err (ValueErr "tuple arity must be 3")
  end.

Fixpoint handlers_of_items (items : list PyObj) : PyResult (list EndpointHandler * list PyObj * list PyObj) :=
  match items with
  | [] => Ok ([], [], [])
  | item :: items =>
      '(hs, keep_pkt, keep_ser) ← handler_of item;
      '(hs', keep_pkt', keep_ser') ← handlers_of_items items;
      Ok (hs ++ hs', keep_pkt ++ keep_pkt', keep_ser ++ keep_ser')
  end.

Definition build_endpoint_handlers (handlers : option PyObj) : PyResult (list EndpointHandler * list PyObj * list PyObj) :=
  match handlers with
  | None => Ok ([], [], [])
  | Some hs =>
      match cast_list hs with
      | None => Err (ValueErr "handlers must be list of (endpoint, pkt_cb, ser_cb) tuples")
      | Some items => handlers_of_items items
      end
  end.

(** [RouterConfig::new] panics for an endpoint of the router itself. *)
Definition build_router_config (hs : list EndpointHandler) (timesync_enabled : bool) : TelemetryResult RouterConfig :=
  cfg ← router_config_new hs;
  Ok {| handlers := handlers cfg; cfg_reliable_enabled := cfg_reliable_enabled cfg; cfg_sender := cfg_sender cfg;
        cfg_timesync := if timesync_enabled then Some default_timesync else cfg_timesync cfg |}.

(** [Router::new] and [Router::new_with_clock]: the clock is in the environment. *)
Definition build_router_with_optional_clock (cfg : RouterConfig) : TelemetryResult MutexRouter :=
  state ← router_inner_new;
  isr ← new (T := RouterRxItem) MAX_QUEUE_BUDGET STARTING_QUEUE_SIZE QUEUE_GROW_STEP;
  Ok {| m_router := {| router_sender := router_config_sender cfg; router_cfg := cfg |}; m_poisoned := false;
        m_world := {| locked_state := state; time_state := runtime_new (cfg_timesync cfg);
                      isr_queue := {| busy := false; isr_q := isr |}; tick := 0; events := [] |} |}.

Definition new_router (hs : option PyObj) (timesync_enabled : bool) : PyResult (MutexRouter * list PyObj * list PyObj) :=
  '(handlers_vec, keep_pkt, keep_ser) ← build_endpoint_handlers hs;
  cfg ← to_py (build_router_config handlers_vec timesync_enabled);
  r ← to_py (build_router_with_optional_clock cfg);
  Ok (r, keep_pkt, keep_ser).

(** ** The process *)

(** A Python router refers to a shared [Arc<Mutex<Router>>]; the routers of the
    process, and [GLOBAL_ROUTER_SINGLETON]. *)
Record PyRouter := { router_ref : nat; pkt_cbs : list PyObj; ser_cbs : list PyObj; router_side_cbs : list (option PyObj) }.
Record PyProcess := { routers : list MutexRouter; GLOBAL_ROUTER_SINGLETON : option nat }.

Definition py_router_new (hs : option PyObj) (timesync_enabled : bool) (proc : PyProcess) : PyProcess * PyResult PyRouter :=
  match new_router hs timesync_enabled with
  | Ok (r, keep_pkt, keep_ser) =>
      ({| routers := routers proc ++ [r]; GLOBAL_ROUTER_SINGLETON := GLOBAL_ROUTER_SINGLETON proc |},
       Ok {| router_ref := length (routers proc); pkt_cbs := keep_pkt; ser_cbs := keep_ser; router_side_cbs := [] |})
  | Err e => (proc, Err e)
  | Panic => (proc, Panic)
  end.

(** [now_ms]: whether a clock is given. *)
Definition new_singleton (now_ms : bool) (hs : option PyObj) (timesync_enabled : bool) (proc : PyProcess) : PyProcess * PyResult PyRouter :=
  match GLOBAL_ROUTER_SINGLETON proc with
  | Some existing =>
      if now_ms || some hs || negb timesync_enabled
      then (proc, Err (RuntimeErr "Router singleton already exists; cannot modify now_ms/handlers/timesync_enabled"))
      else (proc, Ok {| router_ref := existing; pkt_cbs := []; ser_cbs := []; router_side_cbs := [] |})
  | None =>
      let '(proc, r) := py_router_new hs timesync_enabled proc in
      match r with
      | Ok o => ({| routers := routers proc; GLOBAL_ROUTER_SINGLETON := Some (router_ref o) |}, Ok o)
      | r => (proc, r)
      end
  end.

(** A method of a router, on the object that its reference leads to. *)
Definition on_router {A} (o : PyRouter) (m : PySides MutexRouter -> PySides MutexRouter * PyResult A) (proc : PyProcess)
    : PyProcess * PyRouter * PyResult A :=
  match routers proc !! router_ref o with
  | Some r =>
      let '(h, res) := m (Build_PySides MutexRouter r (router_side_cbs o)) in
      ({| routers := <[router_ref o := behind h]> (routers proc); GLOBAL_ROUTER_SINGLETON := GLOBAL_ROUTER_SINGLETON proc |},
       {| router_ref := router_ref o; pkt_cbs := pkt_cbs o; ser_cbs := ser_cbs o; router_side_cbs := side_cbs h |}, res)
  | None => (proc, o, Panic)
  end.
End New.

Section Entries.
Context `{Config} `{Schema} `{External} `{Layout} `{RouterLayout} `{DebugText} `{Pyo3}.
Context (env : Environment) (depth fuel : nat).

Abbreviation RCall A := (MutexRouter -> MutexRouter * PyResult A).

#[local] Instance py_router_admin : SideAdmin World := router_admin env.

(** [with_router_lock(.., |rtr| ..)], and the methods that take the lock themselves. *)
Definition with_router_lock {A} (f : Router -> W A) : RCall A := fun r => py_locked (py_op (f (m_router r))) r.

(** ** Sides and routes *)

Definition router_py_add_side_serialized : Str -> PyObj -> bool -> PySides MutexRouter -> PySides MutexRouter * PyResult Z :=
  py_add_side HSerialized.
Definition router_py_add_side_packet : Str -> PyObj -> bool -> PySides MutexRouter -> PySides MutexRouter * PyResult Z :=
  py_add_side HPacket.
Definition router_py_remove_side : Z -> PySides MutexRouter -> PySides MutexRouter * PyResult unit := py_remove_side.
Definition router_py_set_side_ingress_enabled : Z -> bool -> RCall unit := py_set_side_ingress_enabled.
Definition router_py_set_side_egress_enabled : Z -> bool -> RCall unit := py_set_side_egress_enabled.
Definition router_py_set_route : option Z -> Z -> bool -> RCall unit := py_set_route.
Definition router_py_clear_route : option Z -> Z -> RCall unit := py_clear_route.
Definition router_py_set_typed_route : option Z -> Z -> Z -> bool -> RCall unit := py_set_typed_route.
Definition router_py_clear_typed_route : option Z -> Z -> Z -> RCall unit := py_clear_typed_route.
Definition router_py_set_source_route_mode : option Z -> Z -> RCall unit := py_set_source_route_mode.
Definition router_py_clear_source_route_mode : option Z -> RCall unit := py_clear_source_route_mode.
Definition router_py_set_route_weight : option Z -> Z -> Z -> RCall unit := py_set_route_weight.
Definition router_py_clear_route_weight : option Z -> Z -> RCall unit := py_clear_route_weight.
Definition router_py_set_route_priority : option Z -> Z -> Z -> RCall unit := py_set_route_priority.
Definition router_py_clear_route_priority : option Z -> Z -> RCall unit := py_clear_route_priority.

(** ** Transmitting and receiving *)

Definition transmit_message (packet : PyObj) : RCall unit :=
  with_value (extract_packet packet) (fun pkt => with_router_lock (fun rtr => tx_now rtr env depth (RPacket pkt))).
Definition transmit_message_queue (packet : PyObj) : RCall unit :=
  with_value (extract_packet packet) (fun pkt => with_router_lock (fun _ => tx_queue (RPacket pkt))).
Definition transmit_serialized_message (data : PyObj) : RCall unit :=
  with_value (extract_bytes data) (fun bytes => with_router_lock (fun rtr => tx_now rtr env depth (RSerialized bytes))).
Definition transmit_serialized_message_queue (data : PyObj) : RCall unit :=
  with_value (extract_bytes data) (fun bytes => with_router_lock (fun _ => tx_queue (RSerialized bytes))).

Definition receive_serialized (data : PyObj) : RCall unit :=
  with_value (extract_bytes data) (fun bytes => with_router_lock (fun rtr => rx_serialized_now rtr env depth None bytes)).
Definition receive_packet (packet : PyObj) : RCall unit :=
  with_value (extract_packet packet) (fun pkt => with_router_lock (fun rtr => rx_now rtr env depth None pkt)).
Definition receive_serialized_from_side (side_id : Z) (data : PyObj) : RCall unit :=
  with_value (extract_bytes data) (fun bytes => with_router_lock (fun rtr => rx_serialized_now rtr env depth (Some side_id) bytes)).
Definition receive_serialized_queue (data : PyObj) : RCall unit :=
  with_value (extract_bytes data) (fun bytes => with_router_lock (fun _ => rx_serialized_queue None bytes)).
Definition receive_packet_queue (packet : PyObj) : RCall unit :=
  with_value (extract_packet packet) (fun pkt => with_router_lock (fun _ => rx_queue None pkt)).
Definition receive_serialized_queue_from_side (side_id : Z) (data : PyObj) : RCall unit :=
  with_value (extract_bytes data) (fun bytes => with_router_lock (fun _ => rx_serialized_queue (Some side_id) bytes)).
Definition receive_packet_from_side (side_id : Z) (packet : PyObj) : RCall unit :=
  with_value (extract_packet packet) (fun pkt => with_router_lock (fun rtr => rx_now rtr env depth (Some side_id) pkt)).
Definition receive_packet_queue_from_side (side_id : Z) (packet : PyObj) : RCall unit :=
  with_value (extract_packet packet) (fun pkt => with_router_lock (fun _ => rx_queue (Some side_id) pkt)).

(** ** Logging *)

Definition dispatch_log_slice (T : Prim) (router : Router) (t : DataType) (timestamp_ms : option Z) (queue : bool) (values : list Z) : W unit :=
  if queue then
    match timestamp_ms with Some ts => log_queue_ts router t T ts values | None => log_queue router env t T values end
  else
    match timestamp_ms with Some ts => log_ts router env depth t T ts values | None => log_now router env depth t T values end.

Definition log_slice (T : Prim) (t : DataType) (ts : option Z) (queue : bool) (values : list Z) : RCall unit :=
  with_router_lock (fun rtr => dispatch_log_slice T rtr t ts queue values).

Definition log_bytes (ty_u32 : Z) (data : PyObj) (timestamp_ms : option Z) (queue : bool) : RCall unit :=
  with_value (to_py (dtype_from_u32 ty_u32)) (fun t =>
    with_value (buf ← extract_bytes data; normalize_u8_payload_for_type t buf) (fun buf =>
      log_slice PU8 t timestamp_ms queue (u8_values buf))).

Definition log_f32 (ty_u32 : Z) (values : PyObj) (timestamp_ms : option Z) (queue : bool) : RCall unit :=
  with_value (to_py (dtype_from_u32 ty_u32)) (fun t =>
    with_value (vals ← extract_vec_f32 values; normalize_f32_payload_for_type t vals) (fun vals =>
      log_slice PF32 t timestamp_ms queue vals)).

(** The bytes of any object: bytes, a string, what [bytes(data)] gives, or what a
    [memoryview] shows. *)
Definition log_payload (data : PyObj) : PyResult (list byte) :=
  match extract_bytes data with
  | Ok b => Ok b
  | Panic => Panic
  | Err _ =>
      match cast_str data with
      | Some s => s
      | None =>
          match builtins_bytes data with
          | Ok pybytes => extract_vec_u8 pybytes
          | Panic => Panic
          | Err _ =>
              mv ← builtins_memoryview data;
              itemsize ← get_itemsize mv;
              mv_bytes ← (if negb (itemsize =? 1) then cast_to_bytes mv else Ok mv);
              pybytes ← call_tobytes mv_bytes;
              extract_vec_u8 pybytes
          end
      end
  end.

(** [Err(())] is [inl]. *)
Definition vectorize_data (T : Prim) (base : CPtr byte) (count elem_size : Z) (out : list Z) : TelemetryResult (unit + list Z) :=
  if negb (elem_size =? WIDTH T) || bool_decide (base = None) || (count =? 0) then Ok (inl tt)
  else
    bytes ← from_raw_parts base (count * elem_size);
    vs ← mapM_res (from_le T) (chunks_exact (Z.to_nat count) (Z.to_nat elem_size) bytes);
    Ok (inr (out ++ vs)).

Definition log_elements (T : Prim) (bytes : list byte) (elem_size : Z) : PyResult (list Z) :=
  let cnt := blen bytes / elem_size in
  if (cnt =? 0) || negb (blen bytes mod elem_size =? 0) then Err (ValueErr "buffer length not divisible by elem_size")
  else
    v ← to_py (vectorize_data T (Some bytes) cnt elem_size []);
    match v with inr v => Ok v | inl _ => Err (ValueErr "vectorize failed") end.

Definition py_finish_with (T : Prim) (t : DataType) (ts : option Z) (queue : bool) (bytes : list byte) (elem_size : Z) : RCall unit :=
  with_value (log_elements T bytes elem_size) (log_slice T t ts queue).

(** The arms of [match (elem_kind, elem_size)]. *)
Definition py_elem_type (elem_kind elem_size : Z) : option Prim :=
  if elem_kind =? EK_UNSIGNED then
    match elem_size with 2 => Some PU16 | 4 => Some PU32 | 8 => Some PU64 | _ => None end
  else if elem_kind =? EK_SIGNED then
    match elem_size with 1 => Some PI8 | 2 => Some PI16 | 4 => Some PI32 | 8 => Some PI64 | _ => None end
  else if elem_kind =? EK_FLOAT then
    match elem_size with 4 => Some PF32 | 8 => Some PF64 | _ => None end
  else None.

Definition py_log (ty_u32 : Z) (data : PyObj) (elem_size elem_kind : Z) (timestamp_ms : option Z) (queue : bool) : RCall unit :=
  if negb ((elem_size =? 1) || (elem_size =? 2) || (elem_size =? 4) || (elem_size =? 8))
  then fun r => (r, Err (ValueErr "elem_size must be 1,2,4,8"))
  else
    with_value (to_py (dtype_from_u32 ty_u32)) (fun t =>
      with_value (bytes ← log_payload data; normalize_u8_payload_for_type t bytes) (fun bytes =>
        if (elem_size =? 1) && (elem_kind =? EK_UNSIGNED) then log_slice PU8 t timestamp_ms queue (u8_values bytes)
        else
          match py_elem_type elem_kind elem_size with
          | Some T => py_finish_with T t timestamp_ms queue bytes elem_size
          | None => fun r => (r, Err (ValueErr "unsupported elem_kind/elem_size combination"))
          end)).

(** ** Time, discovery *)

Definition py_poll_timesync : RCall bool := with_router_lock (fun rtr => poll_timesync rtr env).
Definition py_announce_discovery : RCall unit := with_router_lock (fun rtr => announce_discovery rtr env).
Definition py_poll_discovery : RCall bool := with_router_lock (fun rtr => poll_discovery rtr env).

Definition py_export_topology : RCall PyVal :=
  with_router_lock (fun rtr => snap ← router_snapshot rtr env; mret (topology_snapshot_to_pydict snap)).

Definition py_network_time_ms : RCall (option Z) := with_router_lock (fun _ => read_network_time_ms env).

(** Only the parts that are known are set. *)
Definition time_to_pydict (reading : NetworkTimeReading) : PyVal :=
  let t := reading_time reading in
  let entry name (v : option Z) := match v with Some v => [(lit name, VInt v)] | None => [] end in
  VDict (dict_of (entry "unix_time_ms"%string (unix_time_ms reading) ++ entry "year"%string (p_year t) ++ entry "month"%string (p_month t)
    ++ entry "day"%string (p_day t) ++ entry "hour"%string (p_hour t) ++ entry "minute"%string (p_minute t)
    ++ entry "second"%string (p_second t) ++ entry "nanosecond"%string (p_nanosecond t))).

Definition py_network_time : RCall (option PyVal) :=
  with_router_lock (fun _ => r ← read_network_time env; mret (time_to_pydict <$> r)).

Definition py_set_time (f : Readings -> Readings -> Readings -> TimeSyncRuntime -> TimeSyncRuntime) : RCall unit :=
  with_router_lock (fun _ => r_date ← source_readings env; r_tod ← source_readings env; r_subsec ← source_readings env;
                             timed_op (f r_date r_tod r_subsec)).

Definition py_set_local_network_time (year month day hour minute second nanosecond : option Z) : RCall unit :=
  py_set_time (set_local_network_time
    {| p_year := year; p_month := month; p_day := day; p_hour := hour; p_minute := minute; p_second := second; p_nanosecond := nanosecond |}).
Definition py_set_local_network_date (year month day : Z) : RCall unit :=
  py_set_time (fun a b c => set_local_network_date a b c year month day).
Definition py_set_local_network_time_hm (hour minute : Z) : RCall unit :=
  py_set_time (fun a b c => set_local_network_time_hm a b c hour minute).
Definition py_set_local_network_time_hms (hour minute second : Z) : RCall unit :=
  py_set_time (fun a b c => set_local_network_time_hms a b c hour minute second).
Definition py_set_local_network_time_hms_millis (hour minute second millisecond : Z) : RCall unit :=
  py_set_time (fun a b c => set_local_network_time_hms_millis a b c hour minute second millisecond).
Definition py_set_local_network_time_hms_nanos (hour minute second nanosecond : Z) : RCall unit :=
  py_set_time (fun a b c => set_local_network_time_hms_nanos a b c hour minute second nanosecond).
Definition py_set_local_network_datetime (year month day hour minute second : Z) : RCall unit :=
  py_set_time (fun a b c => set_local_network_datetime a b c year month day hour minute second).
Definition py_set_local_network_datetime_millis (year month day hour minute second millisecond : Z) : RCall unit :=
  py_set_time (fun a b c => set_local_network_datetime_millis a b c year month day hour minute second millisecond).
Definition py_set_local_network_datetime_nanos (year month day hour minute second nanosecond : Z) : RCall unit :=
  py_set_time (fun a b c => set_local_network_datetime_nanos a b c year month day hour minute second nanosecond).

(** ** Queues *)

Definition py_process_send_queue : RCall unit := with_router_lock (fun rtr => process_tx_queue rtr env depth fuel).
Definition py_process_received_queue : RCall unit := with_router_lock (fun rtr => process_rx_queue rtr env depth fuel).
Definition py_process_all_queues : RCall unit := with_router_lock (fun rtr => process_all_queues rtr env depth fuel).

(** [if let Ok(r) = self.inner.lock()]: a poisoned mutex is passed over in silence. *)
Definition quietly (m : RCall unit) : RCall unit := fun r =>
  let '(r, res) := m r in (r, match res with Err _ => Ok tt | res => res end).

Definition py_clear_rx_queue : RCall unit := quietly (with_router_lock (fun _ => clear_rx_queue env)).
Definition py_clear_tx_queue : RCall unit := quietly (with_router_lock (fun _ => clear_tx_queue)).
Definition py_clear_queues : RCall unit := quietly (with_router_lock (fun _ => clear_queues env)).

Definition py_process_tx_queue_with_timeout (timeout_ms : Z) : RCall unit :=
  with_router_lock (fun rtr => process_tx_queue_with_timeout rtr env depth fuel timeout_ms).
Definition py_process_rx_queue_with_timeout (timeout_ms : Z) : RCall unit :=
  with_router_lock (fun rtr => process_rx_queue_with_timeout rtr env depth fuel timeout_ms).
Definition py_process_all_queues_with_timeout (timeout_ms : Z) : RCall unit :=
  with_router_lock (fun rtr => process_all_queues_with_timeout rtr env depth fuel timeout_ms).
Definition py_periodic (timeout_ms : Z) : RCall unit := with_router_lock (fun rtr => periodic rtr env depth fuel timeout_ms).
Definition py_periodic_no_timesync (timeout_ms : Z) : RCall unit :=
  with_router_lock (fun rtr => periodic_no_timesync rtr env depth fuel timeout_ms).
End Entries.

(** ** What is logged *)

Section LogFacts.
Context `{Config} `{Schema} `{External} `{Layout} `{RouterLayout} `{DebugText} `{Pyo3}.
Context (env : Environment) (depth : nat).

Lemma required_sizes t : required_payload_size_for t = fixed_payload_size_if_static t.
Proof. done. Qed.

Lemma fitted_logged t src : fitted t src = logged_bytes t src.
Proof.
  unfold fitted, logged_bytes. rewrite required_sizes. destruct (fixed_payload_size_if_static t) as [n|] eqn:E; [|done].
  apply static_size_range in E. unfold fit, blen. rewrite take_app, take_replicate. do 2 f_equal. lia.
Qed.

Lemma resize_value {A} width (fill : A) n v : 0 <= n -> n * width <= isize_max ->
  resize_or_truncate width fill n v = Ok (take (Z.to_nat n) v ++ replicate (Z.to_nat (n - nlen v)) fill).
Proof.
  intros Hn Hw. destruct (resize_or_truncate width fill n v) as [v'|e|] eqn:E.
  - by rewrite (resize_fits _ _ _ _ _ Hn E).
  - exfalso. revert E. unfold resize_or_truncate. by repeat case_match.
  - exfalso. revert E. unfold resize_or_truncate. rewrite (proj2 (Z.ltb_ge isize_max (n * width))) by lia. by repeat case_match.
Qed.

Lemma normalize_value t src : size_ok t -> normalize_u8_payload_for_type t src = Ok (logged_bytes t src).
Proof.
  intros Hsz. rewrite <- fitted_logged. unfold normalize_u8_payload_for_type, fitted. rewrite required_sizes.
  destruct (fixed_payload_size_if_static t) as [n|] eqn:E; [|done]. specialize (Hsz n E). by apply resize_value; lia.
Qed.

(** Every element type is logged as its bytes. *)
Lemma log_slice_bytes T t ts queue vs r :
  log_slice env depth T t ts queue vs r = log_slice env depth PU8 t ts queue (u8_values (encode_slice_le T vs)) r.
Proof.
  unfold log_slice, with_router_lock. cbn [py_locked router_object]. destruct (m_poisoned r); [done|].
  change (dispatch_log_slice env depth T (m_router r) t ts queue vs) with (call_log_or_queue (m_router r) env depth T t ts vs queue).
  change (dispatch_log_slice env depth PU8 (m_router r) t ts queue (u8_values (encode_slice_le T vs)))
    with (call_log_or_queue (m_router r) env depth PU8 t ts (u8_values (encode_slice_le T vs)) queue).
  unfold py_op. by rewrite call_log_encoded.
Qed.

(** The elements of a buffer of whole elements. *)
Lemma elements_read T bytes : 0 < blen bytes -> blen bytes mod WIDTH T = 0 ->
  exists vs, log_elements T bytes (WIDTH T) = Ok vs /\ encode_slice_le T vs = bytes.
Proof.
  intros Hb Hd. pose proof (WIDTH_pos T) as Hw. set (n := blen bytes / WIDTH T).
  assert (blen bytes = n * WIDTH T) as Hn by (pose proof (Z.div_mod (blen bytes) (WIDTH T)); unfold n; lia).
  assert (0 < n) as Hpos by nia.
  destruct (encode_decode T (Z.to_nat n) bytes) as (vs & Hvs & He & _); [unfold blen in Hn; nia|].
  exists vs. split; [|done]. unfold log_elements. fold n. rewrite Hd, (proj2 (Z.eqb_neq n 0)) by lia. cbn [orb negb Z.eqb].
  unfold vectorize_data. rewrite Z.eqb_refl, (proj2 (Z.eqb_neq n 0)), bool_decide_eq_false_2 by (done || lia). cbn [orb negb].
  rewrite <- Hn. assert (from_raw_parts (Some bytes) (blen bytes) = Ok bytes) as ->.
  { rewrite <- (app_nil_r bytes) at 1. apply (points_to_read _ _ bytes), points_to_all. }
  cbn [mbind res_mbind res_bind]. rewrite Hvs. done.
Qed.

Lemma elements_refused T bytes : ~ (0 < blen bytes /\ blen bytes mod WIDTH T = 0) ->
  log_elements T bytes (WIDTH T) = Err (ValueErr "buffer length not divisible by elem_size").
Proof.
  intros Hn. pose proof (WIDTH_pos T) as Hw. pose proof (blen_nonneg bytes). unfold log_elements.
  destruct (Z.eqb_spec (blen bytes / WIDTH T) 0) as [_|Hq]; [done|]. destruct (Z.eqb_spec (blen bytes mod WIDTH T) 0) as [Hm|_]; [|done].
  exfalso. apply Hn. split; [|done]. destruct (Z.eq_dec (blen bytes) 0) as [E|]; [|lia]. rewrite E in Hq. by rewrite Z.div_0_l in Hq by lia.
Qed.

Lemma encode_take T n vs : encode_slice_le T (take n vs) = take (n * Z.to_nat (WIDTH T)) (encode_slice_le T vs).
Proof.
  revert n. induction vs as [|v vs IH]; intros [|n]; try done; [symmetry; apply take_nil|].
  change (write_le T v ++ encode_slice_le T (take n vs) = take (Z.to_nat (WIDTH T) + n * Z.to_nat (WIDTH T)) (write_le T v ++ encode_slice_le T vs)).
  rewrite IH. assert (length (write_le T v) = Z.to_nat (WIDTH T)) as Hl by apply length_le_bytes.
  by rewrite (take_app_add' _ _ _ _ (eq_sym Hl)).
Qed.

Lemma encode_zeros n : encode_slice_le PF32 (replicate n 0) = replicate (n * 4) (b8 0).
Proof. induction n as [|n IH]; [done|]. change (write_le PF32 0 ++ encode_slice_le PF32 (replicate n 0) = replicate (4 + n * 4) (b8 0)). by rewrite IH. Qed.

Lemma floats_fitted t vs : size_ok t -> (forall n, fixed_payload_size_if_static t = Some n -> n mod 4 = 0) ->
  exists vs', normalize_f32_payload_for_type t vs = Ok vs' /\ encode_slice_le PF32 vs' = logged_bytes t (encode_slice_le PF32 vs).
Proof.
  intros Hsz Hd. rewrite <- fitted_logged. unfold normalize_f32_payload_for_type, fitted. rewrite required_sizes.
  destruct (fixed_payload_size_if_static t) as [n|] eqn:E; [|by eexists].
  specialize (Hsz n E). specialize (Hd n eq_refl). rewrite Hd. cbn [Z.eqb negb].
  pose proof (Z.div_mod n 4 ltac:(lia)) as Hq. rewrite resize_value by lia. eexists. split; [done|].
  unfold encode_slice_le at 1. rewrite map_app, concat_app. fold (encode_slice_le PF32 (take (Z.to_nat (n / 4)) vs)).
  fold (encode_slice_le PF32 (replicate (Z.to_nat (n / 4 - nlen vs)) 0)). rewrite encode_take, encode_zeros, blen_encode.
  change (WIDTH PF32) with 4. unfold nlen. f_equal; f_equal; lia.
Qed.

(** C17. The logging methods of Python agree, among themselves and with C.  On a
    router that no panic has poisoned, for an existing type: [log_bytes], [log]
    with any of its element types and [log_f32] log the same packet, whose payload
    is the bytes of the data, for a type of static size cut or filled up with
    zeros to that size; it is the packet that the C interface logs for these
    bytes.  Only elements that do not divide what is left are refused, and floats
    for a type whose size is no multiple of four; then nothing changes. *)
Theorem python_logging_agrees ty_u32 t ts tsp queue src r :
  m_poisoned r = false -> dtype_from_u32 ty_u32 = Ok t -> size_ok t -> opt_ts tsp = Ok ts -> blen src <= isize_max ->
  let bytes := logged_bytes t src in
  let logged := log_slice env depth PU8 t ts queue (u8_values bytes) r in
  (forall data, extract_bytes data = Ok src -> log_bytes env depth ty_u32 data ts queue r = logged)
  /\ (forall data, log_payload data = Ok src -> py_log env depth ty_u32 data 1 EK_UNSIGNED ts queue r = logged)
  /\ (forall data kind T, log_payload data = Ok src -> py_elem_type kind (WIDTH T) = Some T ->
      py_log env depth ty_u32 data (WIDTH T) kind ts queue r
      = if (0 <? blen bytes) && (blen bytes mod WIDTH T =? 0) then logged
        else (r, Err (ValueErr "buffer length not divisible by elem_size")))
  /\ (forall values vs, extract_vec_f32 values = Ok vs -> encode_slice_le PF32 vs = src ->
      log_f32 env depth ty_u32 values ts queue r
      = match fixed_payload_size_if_static t with
        | Some n => if n mod 4 =? 0 then logged else (r, Err (TelemetryErr BadArg))
        | None => logged
        end)
  /\ (forall rest, let c := seds_router_log_bytes_ex (m_router r) env depth ty_u32 (Some (src ++ rest)) (blen src) tsp queue (Some (m_world r)) in
      fst c = Some (m_world (fst logged)) /\ same_answer (_ ← snd logged; Ok 0) (snd c)).
Proof.
  intros Hp Ht Hsz Hts Hm bytes logged. split; [|split; [|split; [|split]]].
  - intros data Hx. unfold log_bytes. rewrite Ht, Hx. cbn [to_py with_value mbind res_mbind res_bind].
    by rewrite normalize_value by done.
  - intros data Hx. unfold py_log. cbn [Z.eqb orb negb]. rewrite Ht, Hx. cbn [to_py with_value mbind res_mbind res_bind].
    by rewrite normalize_value by done.
  - intros data kind T Hx Hk. pose proof (WIDTH_pos T) as Hw.
    assert ((WIDTH T =? 1) || (WIDTH T =? 2) || (WIDTH T =? 4) || (WIDTH T =? 8) = true) as He.
    { revert Hk. unfold py_elem_type. destruct T; cbn; try done; by repeat case_match. }
    assert ((WIDTH T =? 1) && (kind =? EK_UNSIGNED) = false) as Hu.
    { revert Hk. unfold py_elem_type. destruct (kind =? EK_UNSIGNED); [|by rewrite andb_false_r]. by destruct T. }
    unfold py_log. rewrite He, Ht, Hx. cbn [negb to_py with_value mbind res_mbind res_bind].
    rewrite normalize_value by done. cbn [with_value]. rewrite Hu, Hk. fold bytes. unfold py_finish_with.
    destruct (decide (0 < blen bytes /\ blen bytes mod WIDTH T = 0)) as [[Hb Hd]|Hn].
    + rewrite (proj2 (Z.ltb_lt _ _) Hb), Hd. cbn [andb Z.eqb].
      destruct (elements_read T bytes Hb Hd) as (vs & -> & Hvs). cbn [with_value]. by rewrite log_slice_bytes, Hvs.
    + rewrite elements_refused by done. cbn [with_value]. destruct (Z.ltb_spec 0 (blen bytes)) as [Hb|]; [|done].
      destruct (Z.eqb_spec (blen bytes mod WIDTH T) 0); [|done]. by destruct Hn.
  - intros values vs Hx Hvs. unfold log_f32. rewrite Ht, Hx. cbn [to_py with_value mbind res_mbind res_bind].
    assert ((forall n, fixed_payload_size_if_static t = Some n -> n mod 4 = 0) ->
      with_value (normalize_f32_payload_for_type t vs) (fun vals => log_slice env depth PF32 t ts queue vals) r = logged) as Hf.
    { intros Hd. destruct (floats_fitted t vs Hsz Hd) as (vs' & -> & He). cbn [with_value]. by rewrite log_slice_bytes, He, Hvs. }
    destruct (fixed_payload_size_if_static t) as [n|] eqn:E; [|by apply Hf].
    destruct (Z.eqb_spec (n mod 4) 0) as [Hd|Hd]; [apply Hf; by intros ? [= <-]|].
    unfold normalize_f32_payload_for_type. rewrite required_sizes, E, (proj2 (Z.eqb_neq _ _) Hd). done.
  - intros rest c. unfold c, seds_router_log_bytes_ex.
    assert (CPacket.dtype_from_u32 ty_u32 = Ok t) as Htc.
    { revert Ht. unfold dtype_from_u32, CPacket.dtype_from_u32, ok_or. by destruct (type_try_from_u32 ty_u32). }
    rewrite on_handle_pass by (unfold log_guard; rewrite bool_decide_eq_false_2 by done; apply andb_false_r).
    rewrite Htc, (points_to_read _ _ src), Hts by apply points_to_all. cbn [with_arg].
    rewrite log_fitted_bytes by done. unfold logs_bytes, logged, log_slice, with_router_lock. cbn [py_locked router_object].
    rewrite Hp. unfold status, py_op. fold bytes.
    change (dispatch_log_slice env depth PU8 (m_router r) t ts queue (u8_values bytes))
      with (call_log_or_queue (m_router r) env depth PU8 t ts (u8_values bytes) queue).
    destruct (call_log_or_queue _ _ _ _ _ _ _ _ (m_world r)) as [w res]. split; [done|]. cbn [snd fst]. apply same_answer_status.
Qed.
End LogFacts.

(** ** The singleton *)

Section Process.
Context `{Config} `{Schema} `{Layout} `{RouterLayout} `{Pyo3}.

(** What can happen in a process: a router is made, the singleton is asked for,
    or any method is called on any router. *)
Inductive process_step (proc : PyProcess) : PyProcess -> Prop :=
| step_new hs timesync : process_step proc (fst (py_router_new hs timesync proc))
| step_singleton now_ms hs timesync : process_step proc (fst (new_singleton now_ms hs timesync proc))
| step_call A o (m : PySides MutexRouter -> PySides MutexRouter * PyResult A) : process_step proc (fst (fst (on_router o m proc))).

Definition singleton_exists (proc : PyProcess) : Prop :=
  forall k, GLOBAL_ROUTER_SINGLETON proc = Some k -> (k < length (routers proc))%nat.

Lemma new_grows hs timesync proc : let '(proc', r) := py_router_new hs timesync proc in
  GLOBAL_ROUTER_SINGLETON proc' = GLOBAL_ROUTER_SINGLETON proc /\ (length (routers proc) <= length (routers proc'))%nat
  /\ forall o, r = Ok o -> (router_ref o < length (routers proc'))%nat.
Proof.
  unfold py_router_new. destruct (new_router hs timesync) as [[[r kp] ks]|e|]; cbn; (split; [done|]); [|by split; [lia|]..].
  rewrite length_app. cbn. split; [lia|]. intros o [= <-]. cbn. lia.
Qed.

Lemma step_keeps_singleton proc proc' k : process_step proc proc' -> singleton_exists proc ->
  singleton_exists proc' /\ (GLOBAL_ROUTER_SINGLETON proc = Some k -> GLOBAL_ROUTER_SINGLETON proc' = Some k).
Proof.
  intros [hs timesync|now_ms hs timesync|A o m] Hp.
  - pose proof (new_grows hs timesync proc) as Hn. destruct (py_router_new hs timesync proc) as [proc1 r].
    destruct Hn as (Eg & Hl & _). cbn. split; [|by rewrite Eg]. intros j Hj. rewrite Eg in Hj. specialize (Hp j Hj). lia.
  - unfold new_singleton. destruct (GLOBAL_ROUTER_SINGLETON proc) as [j|] eqn:Eg.
    { destruct (now_ms || some hs || negb timesync); cbn; (split; [exact Hp|congruence]). }
    pose proof (new_grows hs timesync proc) as Hn. destruct (py_router_new hs timesync proc) as [proc1 r].
    destruct Hn as (E1 & Hl & Ho). split; [|done]. destruct r as [o|e|]; cbn; intros j Hj; [|congruence..].
    injection Hj as <-. by apply Ho.
  - unfold on_router. destruct (routers proc !! router_ref o) as [r|]; [|by split].
    destruct (m _) as [h res]. cbn. split; [|done]. intros j Hj. cbn in *. rewrite length_insert. by apply Hp.
Qed.

(** The singleton is one router for the whole process: once it was made, asking
    for it without arguments gives that router, and with arguments is refused. *)
Theorem singleton_is_one_router proc proc' k : rtc process_step proc proc' -> singleton_exists proc ->
  GLOBAL_ROUTER_SINGLETON proc = Some k ->
  is_Some (routers proc' !! k)
  /\ new_singleton false None true proc' = (proc', Ok {| router_ref := k; pkt_cbs := []; ser_cbs := []; router_side_cbs := [] |})
  /\ forall now_ms hs timesync, now_ms || some hs || negb timesync = true ->
     exists e, new_singleton now_ms hs timesync proc' = (proc', Err e).
Proof.
  intros Hr Hp Hk. assert (singleton_exists proc' /\ GLOBAL_ROUTER_SINGLETON proc' = Some k) as [Hp' Hk'].
  { induction Hr as [|p1 p2 p3 Hs Hr IH]; [done|]. destruct (step_keeps_singleton _ _ k Hs Hp) as [Hp2 Hk2]. by apply IH; auto. }
  split; [by apply lookup_lt_is_Some_2, Hp'|]. unfold new_singleton. rewrite Hk'. split; [done|].
  intros now_ms hs timesync ->. by eexists.
Qed.
End Process.

(** ** Examples *)

Definition py_handlers : SomeObj := OList [OTuple [OInt 1; OCallable; OCallable]].

Definition py_made : PyResult (MutexRouter * list SomeObj * list SomeObj) :=
  @new_router default_config default_schema some_layout some_router_layout some_python (Some py_handlers) true.

Definition py_router : MutexRouter :=
  match py_made with Ok (r, _, _) => r | _ => {| m_router := fst c_router; m_poisoned := true; m_world := snd c_router |} end.

(** A handler of one of the router's own endpoints panics; what is no list of
    triples raises. *)
Example py_constructions :
  m_poisoned py_router = false /\ map handler (handlers (router_cfg (m_router py_router))) = [PacketHandler; SerializedHandler]
  /\ @build_endpoint_handlers default_schema some_python (Some (OTuple [])) = Err (ValueErr "handlers must be list of (endpoint, pkt_cb, ser_cb) tuples")
  /\ @build_endpoint_handlers default_schema some_python (Some (OList [OTuple [OInt 1; OCallable]])) = Err (ValueErr "tuple arity must be 3")
  /\ @new_router default_config default_schema some_layout some_router_layout some_python (Some (OList [OTuple [OInt 2; OCallable; ONone]])) true = Panic.
Proof. split; [|split; [|split; [|split]]]; vm_compute; reflexivity. Qed.

(** Two floats for a type of three, logged as bytes, as elements and by C. *)
Lemma python_logging_agrees_witness :
  let env := py_router_environment {| py_ms_at n i := n; py_ns_at n i := n; py_gate_busy _ := false; py_isr_busy _ := false;
                                      tx_raises _ _ _ _ := false; handler_raises _ _ _ _ := false |} in
  let log_as_bytes := @log_bytes default_config default_schema run_external some_layout some_router_layout some_text some_python env 9
                        0 (OBytes two_floats) (Some 1000) true py_router in
  let log_as_floats := @py_log default_config default_schema run_external some_layout some_router_layout some_text some_python env 9
                        0 (OArray 4 two_floats) 4 EK_FLOAT (Some 1000) true py_router in
  let log_in_c := @seds_router_log_bytes_ex default_config default_schema run_external some_layout some_router_layout some_text
                    (m_router py_router) env 9 0 (Some two_floats) 8 (Some [1000]) true (Some (m_world py_router)) in
  log_as_bytes = log_as_floats /\ fst log_in_c = Some (m_world (fst log_as_bytes)) /\ snd log_as_bytes = Ok tt
  /\ nlen (q (transmit_queue (locked_state (m_world (fst log_as_bytes))))) = 1.
Proof.
  intros env log_as_bytes log_as_floats log_in_c.
  destruct (@python_logging_agrees default_config default_schema run_external some_layout some_router_layout some_text some_python
    env 9 0 0 (Some 1000) (Some [1000]) true two_floats py_router) as (Hb & _ & He & _ & Hc).
  - vm_compute; reflexivity.
  - vm_compute; reflexivity.
  - intros required Hr. vm_compute in Hr. injection Hr as <-. vm_compute. split; [reflexivity|discriminate].
  - reflexivity.
  - vm_compute; discriminate.
  - specialize (Hb (OBytes two_floats) eq_refl). specialize (He (OArray 4 two_floats) EK_FLOAT PF32 eq_refl eq_refl).
    split; [|split; [|split; vm_compute; reflexivity]].
    + exact (eq_trans Hb (eq_sym He)).
    + destruct (Hc []) as [Hw _]. unfold log_as_bytes. rewrite Hb. exact Hw.
Defined.
